(* ===== verification/_CoqProject ===== *)
-Q . S2P
Prelude.v
Text.v
Platform.v
Shared.v
IntLike.v
Vdso.v
Paging.v
KPaging.v
Machine.v
Interrupts.v
Descriptors.v
UserAddrSpace.v
Elf.v
ElfImage.v
LoadElf.v
Context.v
Scheduler.v
KFrameAlloc.v
KFrameSupply.v
KernelMain.v
BootFrameAlloc.v
TrackedMapper.v
RuntimeMap.v
LoadKernel.v
HeapBox.v
BuildImage.v
Boot.v
Acpi.v
LocalApic.v
IoApic.v
ApStartup.v
ApHandshake.v
Locks.v
FramebufferWriter.v
Cpuid.v
Logger.v
Start.v
Handlers.v
Panic.v
Bootstrap.v
UefiBoot.v
Segments.v
