(* ===== verification/Prelude.v ===== *)
(** * miniature: a verification development

    miniature is a small operating system for x86-64: a UEFI bootloader
    ([src/bootloader-efi]), a kernel ([src/kernel]), the types both share
    ([src/shared]), the library user programs call the kernel through
    ([src/libvdso]), a first program ([src/bootstrap]) and the tool that makes the
    disk image ([src/build-image]).  The bootloader loads the kernel and the first
    program from its partition, collects the ACPI tables and the memory map,
    builds the kernel's page table, loads and relocates the kernel, maps the first
    program, a stack, the framebuffer and an argument, and jumps.  The kernel sets
    up its log, frame allocator, descriptor tables and interrupt controllers,
    starts the other processors, spawns the first context, loads the first program
    into its address space and runs it; system calls, interrupts and context
    switches follow.

    ** How the code is modelled

    A function becomes a function to [outcome] (below): it returns, it panics, or
    the fuel of a loop was not enough.  The disk image is made from the debug
    builds ([build-image/src/main.rs]), in which an arithmetic operation that
    overflows panics ([checked]); casts wrap ([wrap]).  State is passed
    explicitly.  A lock that is held is waited for, which one processor on its own
    does for ever: there the outcome is that of missing fuel.  What comes from
    crates is a class with the documented behaviour as laws, and a concrete
    instance that shows the laws can hold: addresses and pages ([X86Addr],
    [X86Virt], [X86Step]), page tables ([Mapper], [TableStore]), flags ([PtFlags]),
    descriptor tables ([Gdt]), the font ([Font]), the sort ([RegionSort]), the
    allocator of the heap ([GlobalAlloc]), file systems and disks ([FatFs],
    [GptDisk]), the firmware ([Firmware]), the keyboard decoder ([Keyboard]), a
    serial port ([Uart]) and reader-writer locks ([RwLock]).  Interfaces between
    the components are classes as well: a source of frames ([FrameSourceSpec]) is
    implemented by both frame allocators and used by everything that maps pages,
    and a target of the ELF loader ([LoadTargetSpec]) by the kernel's address
    spaces and by the bootloader's table.  The processor, the local APIC, the I/O
    APIC and the registers that enable ACPI are concrete machines.  Processors that run at the same time are step
    relations: any of them takes the next step on what they share.

    ** Fuel

    Loops whose end depends on data or devices take fuel.  The walk over the
    unavailable ranges needs one unit for every page a range covers, which
    [allocate_frames_total] gives from the ranges themselves; waits for a device
    need one unit for every read until the device is idle, which the description
    of the device contains ([responsive], the delay of the ACPI enable); the scan
    for an unused page needs one unit for every page in use it passes; printing
    a number takes 64 steps, enough for a 64-bit number in any base.  The other
    loops are folds over finite lists or structural recursion.  Waiting loops
    between processors have no fuel: in ApHandshake.v and Locks.v a round of such a
    loop is a step that changes nothing, and progress is shown of the steps that
    are not.

    ** The files

    - Prelude.v, Text.v, Platform.v: outcomes, lists and machine integers;
      characters, numbers and format strings; addresses, frames and pages of the
      [x86_64] crate.
    - Shared.v: the types of [shared/src/arg.rs] and [lib.rs].
    - IntLike.v: [kernel/src/common/int_like.rs].
    - Vdso.v: [libvdso]: errors, numbers and stubs of the system calls.
    - Paging.v, KPaging.v: page tables as the bootloader and as the kernel use
      them; frame sources.
    - Machine.v, Interrupts.v: an x86-64 machine, and the entry and exit paths of
      [interrupt_macro.rs] and [syscall.rs] instruction by instruction.
    - Descriptors.v, Handlers.v: [gdt.rs]; the table and the handlers of
      [interrupt.rs].  Segments.v: the descriptor tables of the trampoline and of
      the bootloader.
    - UserAddrSpace.v: [mem/user_addr_space.rs] and [user_buffer.rs].
    - Elf.v, ElfImage.v, LoadElf.v: [mem/load_elf.rs]: the loader over any
      target, what an image is, and the loader on address spaces.
    - Context.v, Scheduler.v, Locks.v: [context/]; the last one for several
      processors, with the locks of the address spaces.
    - KFrameAlloc.v, KFrameSupply.v: [kernel/src/mem/frame_allocator.rs], and what
      it promises to the code that maps pages.
    - HeapBox.v: [kernel/src/mem/heap.rs] and [aligned_box.rs].
    - KernelMain.v, Start.v: [kernel/src/main.rs]: memory and contexts, and all of
      [_start].
    - BootFrameAlloc.v, TrackedMapper.v, RuntimeMap.v, LoadKernel.v: the
      bootloader's [mem/] and [kernel.rs].
    - Boot.v, UefiBoot.v: [efi_main] after the boot services and before they end,
      with [context.rs], [fs.rs] and [device/].
    - BuildImage.v: [build-image/src/main.rs].
    - Acpi.v: [bootloader-efi/src/acpi.rs].
    - LocalApic.v, IoApic.v, ApStartup.v, ApHandshake.v: [kernel/src/acpi/],
      [ipi.rs], the trampoline and [_start_ap], in sequence and interleaved.
    - FramebufferWriter.v, Cpuid.v, Logger.v, Panic.v: text on the framebuffer
      ([shared/src/framebuffer_writer.rs]), the report of [cpuid.rs], the logs of
      the kernel and of the bootloader, and the panic handlers.
    - Bootstrap.v: [bootstrap/src/main.rs] and the system call it makes.

    ** What is shown

    - Boot: the image the build tool writes has one EFI partition that holds its
      files, when the volume has room for them; from it the bootloader reaches the kernel, and what the argument promises is what the
      page table maps; the kernel's allocator, started from that argument, never
      hands out memory that is in use, and how much it hands out is bounded from
      below; [_start] ends in the first program, in user mode, on a boot processor
      with id 0.  The parts:
      exactness of the merged ranges, safety and totality of both allocators,
      least free runs of level-4 entries, the loaded images byte by byte with
      their relocations and permissions.
    - Entry paths and handlers: interrupts, exceptions and system calls return to
      the interrupted program with its state intact; exceptions are reported with
      all registers by name, from the delivery through the assembly to the line, and interrupts of devices are acknowledged exactly once; the
      first program's call is logged and answered.
    - Contexts: fresh identifiers, a spawned context is ready to run, a switch
      keeps the invariant of the processor, picks the next ready context in turn,
      restores what was saved, and every ready context gets its turn.
    - Address spaces and boxes: a resolved buffer is exactly the bytes of the
      mapping, or a fault, unless it is small and crosses a page; a large allocation
      resolves to the frames it took, or panics when a page it needs is in use;
      boxes are separate byte arrays.
    - Interrupt controllers: the two interfaces of the local controller send the
      same messages; ACPI is in control before its tables are used; setup enables,
      and routes each legacy interrupt to its vector as the tables say; the other
      processors are brought up one by one, from the image of the trampoline, with
      memory of their own.
    - Several processors: bringing them up gives the same result in every
      interleaving, without a deadlock; sections under a lock run as if one after
      the other; the id allocator behind the lock of the storage returns what the
      sequential one does.
    - Text: what is written to the framebuffer is what an abstract screen shows,
      for the writer and for the whole log.
    - Where the code does not do what it means to, a theorem says what it does:
      errors of system calls are lost, a second spawn panics, the first buffers of
      a space are not reachable, tables of later processors lack the user segments,
      the setup of the local controller faults on processors with x2APIC, a boot
      processor whose id is not 0 starts itself and waits for ever, requests
      for several level-4 entries fail on a fresh table, the lock of the id
      allocator is released too early, and two of the tests of the source fail.

    ** Not modelled

    - The devices and the firmware behind the classes above, and the interior of
      the crates.
    - Reference counts: an [Arc] is an index or an address, and nothing is freed
      through it.
    - Weak memory: the steps of several processors are interleaved, each on the
      memory the step before left.  Sequential models are used everywhere else; the
      locks of single contexts and of the log are taken by one processor at a time
      there.
    - The bytes a page table occupies: tables are maps from pages to frames with
      the laws of the crate, and the frames they take come from the allocator.
      The control region of a processor is a record, so the first program's system
      call in Bootstrap.v starts from a machine whose region names a kernel stack,
      and is not joined to the end of [_start] in Start.v.
    - Caches, the TLB, and timing.
    - Log lines inside the components: Logger.v, Handlers.v, Start.v and Bootstrap.v
      model the log; elsewhere the calls of its macros are left out, as they change
      nothing else.  What the parts of [_start] log is an argument of it, in any
      order, and the screen shows it.
    - [kernel/build.rs] runs the assembler; what it is given is modelled in
      ApStartup.v and Segments.v, the encoding of the instructions is not: a
      processor that is started runs the instructions of the trampoline if and only
      if the bytes of the image are in memory at the page it was sent to.  The
      test of the heap prints addresses and checks nothing. *)

From stdpp Require Export base list gmap numbers option strings sorting.
From Stdlib Require Export ZArith Lia.

#[global] Open Scope Z_scope.

(** ** Outcomes

    [outcome A] is the result of running a piece of Rust code that computes
    an [A]: it returns ([Done]), it panics ([Panic]: an explicit [panic!], a
    failed [assert!], [unwrap]/[expect]/[or_panic] of a missing value, an
    index out of range, an arithmetic overflow), or the fuel given to a loop
    was not enough ([OutOfFuel], the model's "has not returned yet"). *)
Inductive outcome (A : Type) : Type :=
| Done (a : A)
| Panic
| OutOfFuel.
Arguments Done {A} a.
Arguments Panic {A}.
Arguments OutOfFuel {A}.

#[global] Instance outcome_ret : MRet outcome := fun A a => Done a.
#[global] Instance outcome_bind : MBind outcome := fun A B f m =>
  match m with
  | Done a => f a
  | Panic => Panic
  | OutOfFuel => OutOfFuel
  end.
#[global] Instance outcome_fmap : FMap outcome := fun A B f m =>
  match m with
  | Done a => Done (f a)
  | Panic => Panic
  | OutOfFuel => OutOfFuel
  end.

#[global] Instance outcome_eq_dec `{EqDecision A} : EqDecision (outcome A).
Proof. solve_decision. Defined.

(** [shared::print_panic::PrintPanic::or_panic] on an [Option]. *)
Definition or_panic {A} (o : option A) : outcome A :=
  match o with
  | Some a => Done a
  | None => Panic
  end.

(** Rust's [assert!]. *)
Definition rassert (b : bool) : outcome unit := if b then Done tt else Panic.

(** ** Machine integers

    The images are built with cargo's dev profile, where integer overflow
    panics; [checked w z] is the value of a [w]-bit unsigned expression whose
    mathematical value is [z]. *)
Definition checked (w z : Z) : outcome Z :=
  if (0 <=? z) && (z <? 2 ^ w) then Done z else Panic.

Definition u64_add (x y : Z) : outcome Z := checked 64 (x + y).
Definition u64_sub (x y : Z) : outcome Z := checked 64 (x - y).
Definition u64_mul (x y : Z) : outcome Z := checked 64 (x * y).

(** [x as uN]: truncation to the low [w] bits. *)
Definition wrap (w z : Z) : Z := z mod 2 ^ w.

Definition fits (w z : Z) : Prop := 0 <= z < 2 ^ w.

Lemma Done_bind {A B} (a : A) (f : A -> outcome B) : Done a ≫= f = f a.
Proof. done. Qed.

Lemma bind_bind {A B C} (m : outcome A) (f : A -> outcome B) (g : B -> outcome C) :
  ((m ≫= f) ≫= g) = (m ≫= (fun x => f x ≫= g)).
Proof. by destruct m. Qed.

(** Multiples of a page. *)
Create HintDb pages.
#[export] Hint Resolve Z.divide_add_r Z.divide_factor_l Z.divide_factor_r Z.divide_refl : pages.

(** Equations that run a program one statement further. *)
Create Rewrite HintDb rust.
#[export] Hint Rewrite @Done_bind : rust.

(** Runs the next statement, whose result [H] gives. *)
Ltac step H := rewrite H; autorewrite with rust; cbv beta iota.

Lemma bind_Done {A B} (m : outcome A) (f : A -> outcome B) b :
  m ≫= f = Done b <-> exists a, m = Done a /\ f a = Done b.
Proof.
  destruct m as [a| |]; simpl; split; [eauto|intros (? & [= <-] & ?); done|done|
    intros (? & [=] & _)|done|intros (? & [=] & _)].
Qed.

Lemma bind_Done_1 {A B} (m : outcome A) (f : A -> outcome B) b :
  m ≫= f = Done b -> exists a, m = Done a /\ f a = Done b.
Proof. apply bind_Done. Qed.

Lemma checked_Done w z r :
  checked w z = Done r <-> r = z /\ 0 <= z < 2 ^ w.
Proof.
  unfold checked.
  destruct (0 <=? z) eqn:E1, (z <? 2 ^ w) eqn:E2; simpl; split;
    intros H; try discriminate H; try (injection H as <-); lia || (f_equal; lia).
Qed.

Lemma checked_in w z : 0 <= z < 2 ^ w -> checked w z = Done z.
Proof. intros. by apply checked_Done. Qed.

Lemma or_panic_Done {A} (o : option A) a : or_panic o = Done a <-> o = Some a.
Proof. destruct o; simpl; naive_solver. Qed.

Lemma rassert_Done b u : rassert b = Done u <-> b = true.
Proof. destruct b, u; simpl; naive_solver. Qed.

(** ** Fields of machine words *)

Lemma testbit_above n v i : 0 <= v < 2 ^ n -> n <= i -> Z.testbit v i = false.
Proof.
  intros Hv Hi. destruct (Z.lt_ge_cases n 0) as [Hn|Hn]; [rewrite Z.pow_neg_r in Hv; lia|].
  rewrite <- (Z.mod_small v (2 ^ n)) by done. by apply Z.mod_pow2_bits_high.
Qed.

(** Joining a field at bit [n] and what lies below it. *)
Lemma lor_field n hi lo : 0 <= n -> 0 <= lo < 2 ^ n -> Z.lor (hi * 2 ^ n) lo = hi * 2 ^ n + lo.
Proof.
  intros Hn Hlo. rewrite <- (Z.add_lor_land (hi * 2 ^ n)).
  assert (Z.land (hi * 2 ^ n) lo = 0) as ->; [|lia].
  apply Z.bits_inj'. intros i Hi. rewrite Z.land_spec, Z.bits_0.
  destruct (Z.lt_ge_cases i n); [by rewrite Z.mul_pow2_bits_low|].
  by rewrite (testbit_above n lo i), andb_false_r.
Qed.

(** ** Inversion of monadic code *)

(** [inv_done] takes apart hypotheses saying that a sequence of monadic steps
    returned. *)
Ltac inv_done :=
  repeat match goal with
  | H : mbind _ _ = Done _ |- _ =>
      apply bind_Done_1 in H; destruct H as (? & ? & H)
  | H : u64_add _ _ = Done _ |- _ => apply checked_Done in H; destruct H as [-> ?]
  | H : u64_sub _ _ = Done _ |- _ => apply checked_Done in H; destruct H as [-> ?]
  | H : u64_mul _ _ = Done _ |- _ => apply checked_Done in H; destruct H as [-> ?]
  | H : checked _ _ = Done _ |- _ => apply checked_Done in H; destruct H as [-> ?]
  | H : or_panic _ = Done _ |- _ => apply or_panic_Done in H
  | H : rassert _ = Done _ |- _ => apply rassert_Done in H
  | H : Done _ = Done _ |- _ => injection H; clear H; intros; subst
  | H : Panic = Done _ |- _ => discriminate H
  | H : OutOfFuel = Done _ |- _ => discriminate H
  | H : mret _ = Done _ |- _ => unfold mret, outcome_ret in H
  end.

(** [bind_step] runs the first step of a sequence of monadic steps at the head
    of the goal; machine arithmetic must be in range by [lia]. *)
Ltac bind_step :=
  match goal with
  | |- mbind _ (Done _) = _ => rewrite Done_bind
  | |- mbind _ (checked ?w ?z) = _ => rewrite (checked_in w z) by lia; rewrite Done_bind
  | |- mbind _ (u64_add ?x ?y) = _ => unfold u64_add at 1; bind_step
  | |- mbind _ (u64_sub ?x ?y) = _ => unfold u64_sub at 1; bind_step
  | |- mbind _ (u64_mul ?x ?y) = _ => unfold u64_mul at 1; bind_step
  | |- mbind _ (or_panic (Some _)) = _ => cbn [or_panic]; rewrite Done_bind
  | |- mbind _ (rassert true) = _ => cbn [rassert]; rewrite Done_bind
  end.

(** ** Loops over a list *)

(** [for x in l { body }] with the loop-carried state made explicit. *)
Fixpoint foldM {S A} (f : S -> A -> outcome S) (s : S) (l : list A) : outcome S :=
  match l with
  | [] => Done s
  | x :: l' => s' ← f s x; foldM f s' l'
  end.

Lemma foldM_app {S A} (f : S -> A -> outcome S) s l1 l2 :
  foldM f s (l1 ++ l2) = (s' ← foldM f s l1; foldM f s' l2).
Proof.
  revert s. induction l1 as [|x l1 IH]; intros s; simpl; [done|].
  destruct (f s x); simpl; auto.
Qed.

(** A loop invariant, indexed by the elements already processed. *)
Lemma foldM_inv {S A} (f : S -> A -> outcome S) (P : list A -> S -> Prop) s l s' :
  P [] s ->
  (forall done x s1 s2, P done s1 -> f s1 x = Done s2 -> P (done ++ [x]) s2) ->
  foldM f s l = Done s' -> P l s'.
Proof.
  intros H0 Hstep.
  cut (forall done s, P done s -> foldM f s l = Done s' -> P (done ++ l) s').
  { intros Hc. exact (Hc [] s H0). }
  induction l as [|x l IH]; intros done s1 HP; simpl; intros H; inv_done.
  - by rewrite app_nil_r.
  - rewrite cons_middle, app_assoc. eapply IH; [|done]. by eapply Hstep.
Qed.

(** ** Blocks of addresses *)

(** Two half-open blocks share no address. *)
Definition disjoint_blocks (a la b lb : Z) : Prop := a + la <= b \/ b + lb <= a.

(** ** Sorted lists *)

Lemma StronglySorted_filter {A} (R : A -> A -> Prop) (P : A -> Prop)
  `{!forall x, Decision (P x)} l :
  StronglySorted R l -> StronglySorted R (filter P l).
Proof.
  induction 1 as [|x l Hs IH Hx]; [constructor|].
  rewrite filter_cons. case_decide; [|done].
  constructor; [done|]. apply Forall_forall. intros y [_ Hy]%list_elem_of_filter.
  by eapply Forall_forall in Hx.
Qed.

Lemma StronglySorted_lookup {A} (R : A -> A -> Prop) l i j x y :
  StronglySorted R l -> (i < j)%nat -> l !! i = Some x -> l !! j = Some y -> R x y.
Proof.
  intros Hs. revert i j. induction Hs as [|z l Hs IH Hz]; intros i j Hij Hi Hj; [done|].
  destruct j as [|j]; [lia|]. destruct i as [|i]; simplify_eq/=.
  - eapply Forall_lookup_1 in Hz; done.
  - eapply IH; [|done..]. lia.
Qed.

Lemma StronglySorted_NoDup {A} (R : A -> A -> Prop) l :
  (forall x, ~ R x x) -> StronglySorted R l -> NoDup l.
Proof.
  intros Hirr. induction 1 as [|x l Hs IH Hx]; constructor; [|done].
  intros Hin. apply (Hirr x). by eapply Forall_forall in Hx.
Qed.

(** ** The first element of a list with a property *)

Definition first_with {A} (P : A -> Prop) (l : list A) (x : A) : Prop :=
  exists l1 l2, l = l1 ++ x :: l2 /\ P x /\ Forall (fun y => ~ P y) l1.

Lemma first_with_cons {A} (P : A -> Prop) a l x :
  first_with P (a :: l) x <-> (P a /\ x = a) \/ (~ P a /\ first_with P l x).
Proof.
  split.
  - intros ([|b l1] & l2 & [= -> ->] & Hx & H1); [by left|]. apply Forall_cons in H1 as [Hb H1].
    right. split; [done|]. by exists l1, l2.
  - intros [[Ha ->]|[Ha (l1 & l2 & -> & Hx & H1)]]; [by exists [], l|]. exists (a :: l1), l2. by repeat constructor.
Qed.

Lemma first_with_nil {A} (P : A -> Prop) x : ~ first_with P [] x.
Proof. intros (l1 & l2 & H & _). by destruct l1. Qed.

Lemma first_with_fun {A} (P : A -> Prop) l x y : first_with P l x -> first_with P l y -> x = y.
Proof.
  induction l as [|a l IH]; [intros H; by apply first_with_nil in H|]. rewrite !first_with_cons.
  intros [[? ->]|[? ?]] [[? ->]|[? ?]]; try done. by apply IH.
Qed.

Lemma first_with_elem {A} (P : A -> Prop) l x : first_with P l x -> x ∈ l /\ P x.
Proof. intros (l1 & l2 & -> & Hx & _). split; [|done]. apply elem_of_app. right. left. Qed.

Lemma first_with_iff {A} (P Q : A -> Prop) l x : (forall y, y ∈ l -> P y <-> Q y) -> first_with P l x <-> first_with Q l x.
Proof.
  induction l as [|a l IH]; intros H; [split; intros H'; by apply first_with_nil in H'|]. rewrite !first_with_cons.
  rewrite (H a) by left. rewrite IH; [done|]. intros y Hy. apply H. by right.
Qed.

(** [find] over a list that was filtered and converted first. *)
Lemma find_omap {A B} (f : B -> bool) (g : A -> option B) l y : List.find f (omap g l) = Some y <->
  exists x, first_with (fun x => exists y, g x = Some y /\ f y = true) l x /\ g x = Some y.
Proof.
  induction l as [|a l IH]; [split; [done|intros (x & H & _); by apply first_with_nil in H]|].
  setoid_rewrite first_with_cons. cbn [omap list_omap]. destruct (g a) as [b|] eqn:Eg.
  - cbn [List.find]. destruct (f b) eqn:Ef.
    + split; [intros [= <-]; exists a; split; [left; split; [by exists b|done]|done]|]. intros (x & [[_ ->]|[Hn _]] & Hx); [congruence|]. exfalso. apply Hn. by exists b.
    + rewrite IH. split; [intros (x & H1 & H2); exists x; split; [right|done]|intros (x & [[(? & ? & ?) _]|[_ H]] & ?); [congruence|by exists x]].
      split; [|done]. intros (? & ? & ?). congruence.
  - rewrite IH. split; [intros (x & H1 & H2); exists x; split; [right|done]|intros (x & [[(? & ? & ?) _]|[_ H]] & ?); [congruence|by exists x]].
    split; [|done]. intros (? & ? & ?). congruence.
Qed.

Lemma find_omap_none {A B} (f : B -> bool) (g : A -> option B) l : List.find f (omap g l) = None <->
  Forall (fun x => ~ exists y, g x = Some y /\ f y = true) l.
Proof.
  induction l as [|a l IH]; [done|]. rewrite Forall_cons. cbn [omap list_omap]. destruct (g a) as [b|] eqn:Eg; [cbn [List.find]; destruct (f b) eqn:Ef|].
  - split; [done|]. intros [H _]. exfalso. apply H. by exists b.
  - rewrite IH. split; [intros H; split; [|done]|by intros [_ H]]. intros (? & ? & ?). congruence.
  - rewrite IH. split; [intros H; split; [|done]|by intros [_ H]]. intros (? & ? & ?). congruence.
Qed.

Lemma find_map_first {A B} (f : B -> bool) (g : A -> B) l y : List.find f (map g l) = Some y <->
  exists x, first_with (fun x => f (g x) = true) l x /\ y = g x.
Proof.
  induction l as [|a l IH]; [split; [done|intros (x & H & _); by apply first_with_nil in H]|].
  setoid_rewrite first_with_cons. cbn [map List.find]. destruct (f (g a)) eqn:Ef.
  - split; [intros [= <-]; exists a; split; [by left|done]|]. intros (x & [[_ ->]|[Hn _]] & ->); [done|]. congruence.
  - rewrite IH. split; intros (x & H & ->); [|destruct H as [[? _]|[_ H]]; [congruence|]]; exists x; (split; [|done]); [right; split; [congruence|done]|done].
Qed.

(** ** Arithmetic progressions *)

(** [n] values from [s] on, [k] apart: what iterating over a range of pages
    or frames yields. *)
Fixpoint stride (k s : Z) (n : nat) : list Z :=
  match n with
  | O => []
  | S n' => s :: stride k (s + k) n'
  end.

Lemma elem_of_stride k s n x :
  x ∈ stride k s n <-> exists i : nat, (i < n)%nat /\ x = s + k * Z.of_nat i.
Proof.
  revert s. induction n as [|n IH]; intros s; simpl.
  - rewrite elem_of_nil. split; [done|]. intros (i & ? & _). lia.
  - rewrite elem_of_cons, IH. split.
    + intros [->|(i & ? & ->)]; [exists 0%nat|exists (S i)]; lia.
    + intros ([|i] & ? & ->); [left; lia|right; exists i; lia].
Qed.

Lemma length_stride k s n : length (stride k s n) = n.
Proof. revert s. induction n; intros; simpl; auto. Qed.

Lemma stride_lookup k s n i : (i < n)%nat -> stride k s n !! i = Some (s + k * Z.of_nat i).
Proof.
  revert s i. induction n as [|n IH]; intros s i Hi; [lia|].
  destruct i as [|i]; simpl; [f_equal; lia|]. rewrite IH by lia. f_equal. lia.
Qed.

Lemma stride_sorted k s n : 0 <= k -> StronglySorted (fun x y => x + k <= y) (stride k s n).
Proof.
  intros Hk. revert s. induction n as [|n IH]; intros s; simpl; constructor; [done|].
  apply Forall_forall. intros x (i & _ & ->)%elem_of_stride. nia.
Qed.
