(* ===== verification/Text.v ===== *)
(** * Text

    What the sources use of [core::fmt] and of [str]: integers in a radix,
    padding, format strings, splitting and trimming.  A string is the list of its
    characters, as in FramebufferWriter.v. *)

From S2P Require Import Prelude.

(** The characters of an ASCII literal. *)
Definition text (s : string) : list Z := map (fun a => Z.of_N (Ascii.N_of_ascii a)) (String.list_ascii_of_string s).

(** ** Integers *)

Definition digit_char (d : Z) : Z := if d <? 10 then 48 + d else 87 + d.

(** The digits of [n], most significant first, in front of [acc]. *)
Fixpoint digits_loop (fuel : nat) (base n : Z) (acc : list Z) : list Z :=
  match fuel with
  | O => acc
  | S fuel =>
      let acc := digit_char (n mod base) :: acc in
      if n <? base then acc else digits_loop fuel base (n / base) acc
  end.

(** [{}], [{:x}] and [{:b}] of an unsigned integer of at most 64 bits. *)
Definition fmt_radix (base n : Z) : list Z := digits_loop 64 base n [].
Abbreviation fmt_dec := (fmt_radix 10).
Abbreviation fmt_hex := (fmt_radix 16).
Abbreviation fmt_bin := (fmt_radix 2).

(** [{:5}] of a string: padded on the right. *)
Definition pad_right (width : nat) (s : list Z) : list Z := s ++ replicate (width - length s) 32.

(** Reading digits. *)
Definition char_digit (c : Z) : option Z :=
  if (48 <=? c) && (c <=? 57) then Some (c - 48)
  else if (97 <=? c) && (c <=? 102) then Some (c - 87)
  else None.

Definition is_digit (base c : Z) : bool :=
  match char_digit c with Some d => d <? base | None => false end.

Definition read_radix (base : Z) (s : list Z) : Z := fold_left (fun n c => n * base + default 0 (char_digit c)) s 0.

(** ** Format strings *)

(** A format string with integer arguments. *)
Inductive piece : Type :=
| Lit (s : list Z)
| Arg (base : Z).

Fixpoint render (f : list piece) (args : list Z) : list Z :=
  match f, args with
  | [], _ => []
  | Lit s :: f, _ => s ++ render f args
  | Arg base :: f, a :: args => fmt_radix base a ++ render f args
  | Arg _ :: f, [] => []
  end.

(** The number of arguments. *)
Definition arity (f : list piece) : nat := length (List.filter (fun p => match p with Arg _ => true | Lit _ => false end) f).

(** The arguments a text was made from, and the text behind it. *)
Fixpoint strip_prefix (p s : list Z) : option (list Z) :=
  match p, s with
  | [], _ => Some s
  | c :: p, d :: s => if c =? d then strip_prefix p s else None
  | _ :: _, [] => None
  end.

Fixpoint take_digits (base : Z) (s : list Z) : list Z * list Z :=
  match s with
  | c :: s' => if is_digit base c then let r := take_digits base s' in (c :: r.1, r.2) else ([], s)
  | [] => ([], [])
  end.

Fixpoint scan (f : list piece) (s : list Z) : option (list Z * list Z) :=
  match f with
  | [] => Some ([], s)
  | Lit p :: f => s ← strip_prefix p s; scan f s
  | Arg base :: f =>
      let '(ds, s) := take_digits base s in
      '(args, s) ← scan f s;
      Some (read_radix base ds :: args, s)
  end.

(** A literal that does not continue a number stands behind every argument. *)
Definition stops (base : Z) (s : list Z) : bool := match s with c :: _ => negb (is_digit base c) | [] => false end.

Fixpoint separated (f : list piece) : bool :=
  match f with
  | [] => true
  | Lit _ :: f => separated f
  | Arg base :: f =>
      (2 <=? base) && (base <=? 16) && match f with Lit s :: _ => stops base s | _ => false end && separated f
  end.

(** ** Splitting and trimming *)

(** [str::split] with a string of at least one character: the pieces between
    the matches, which are taken from the left and do not overlap. *)
Fixpoint split_loop (fuel : nat) (pat s acc : list Z) : list (list Z) :=
  match fuel with
  | O => [rev acc]
  | S fuel =>
      match strip_prefix pat s with
      | Some s' => rev acc :: split_loop fuel pat s' []
      | None =>
          match s with
          | [] => [rev acc]
          | c :: s' => split_loop fuel pat s' (c :: acc)
          end
      end
  end.

Definition str_split (pat s : list Z) : list (list Z) := split_loop (S (length s)) pat s [].

(** [char::is_whitespace]: the property [White_Space] of Unicode. *)
Definition is_whitespace (c : Z) : bool :=
  ((9 <=? c) && (c <=? 13)) || ((0x2000 <=? c) && (c <=? 0x200a)) ||
  existsb (Z.eqb c) [32; 0x85; 0xa0; 0x1680; 0x2028; 0x2029; 0x202f; 0x205f; 0x3000].

Fixpoint trim_start (s : list Z) : list Z :=
  match s with
  | c :: s' => if is_whitespace c then trim_start s' else s
  | [] => []
  end.

Definition trim (s : list Z) : list Z := rev (trim_start (rev (trim_start s))).

(** The inverse of splitting. *)
Fixpoint join (sep : list Z) (l : list (list Z)) : list Z :=
  match l with
  | [] => []
  | [x] => x
  | x :: l => x ++ sep ++ join sep l
  end.

(** ** Digits *)

Lemma digit_char_digit base d : 0 <= d < base -> base <= 16 -> char_digit (digit_char d) = Some d /\ is_digit base (digit_char d) = true.
Proof.
  intros Hd Hb. assert (E : char_digit (digit_char d) = Some d).
  { unfold char_digit, digit_char. destruct (Z.ltb_spec d 10).
    - rewrite !(proj2 (Z.leb_le _ _)) by lia. cbn [andb]. f_equal. lia.
    - rewrite (proj2 (Z.leb_gt (87 + d) 57)), andb_false_r by lia. rewrite !(proj2 (Z.leb_le _ _)) by lia. cbn [andb]. f_equal. lia. }
  split; [done|]. unfold is_digit. rewrite E. apply Z.ltb_lt. lia.
Qed.

Lemma read_radix_snoc base ds d : 0 <= d < base -> base <= 16 -> read_radix base (ds ++ [digit_char d]) = read_radix base ds * base + d.
Proof. intros Hd Hb. unfold read_radix. rewrite fold_left_app. cbn [fold_left]. by rewrite (proj1 (digit_char_digit base d Hd Hb)). Qed.

Lemma digits_loop_spec base : 2 <= base <= 16 -> forall fuel n acc, 0 <= n < base ^ Z.of_nat (S fuel) ->
  exists ds, digits_loop (S fuel) base n acc = ds ++ acc /\ Forall (fun c => is_digit base c = true) ds /\ read_radix base ds = n.
Proof.
  intros Hb. induction fuel as [|fuel IH]; intros n acc Hn; cbn [digits_loop]; pose proof (Z.mod_pos_bound n base ltac:(lia)) as Hm;
    destruct (digit_char_digit base (n mod base) Hm ltac:(lia)) as [D1 D2]; destruct (Z.ltb_spec n base) as [Hlt|Hge].
  1, 3: exists [digit_char (n mod base)]; split; [done|]; split; [by repeat constructor|];
    unfold read_radix; cbn; rewrite D1; cbn; apply Z.mod_small; lia.
  - rewrite Z.pow_1_r in Hn. lia.
  - destruct (IH (n / base) (digit_char (n mod base) :: acc)) as (ds & E & F & R).
    { split; [apply Z.div_pos; lia|]. apply Z.div_lt_upper_bound; [lia|]. rewrite <- Z.pow_succ_r, <- Nat2Z.inj_succ by lia. lia. }
    exists (ds ++ [digit_char (n mod base)]). split; [cbn [digits_loop] in E; rewrite E, <- app_assoc; done|]. split.
    + apply Forall_app. split; [done|]. by repeat constructor.
    + rewrite read_radix_snoc, R by lia. rewrite (Z.div_mod n base) at 3 by lia. lia.
Qed.

(** Reading back a number. *)
Lemma fmt_radix_spec base n : 2 <= base <= 16 -> fits 64 n ->
  Forall (fun c => is_digit base c = true) (fmt_radix base n) /\ read_radix base (fmt_radix base n) = n.
Proof.
  intros Hb Hn. destruct (digits_loop_spec base Hb 63 n []) as (ds & E & F & R).
  - unfold fits in Hn. assert (2 ^ 64 <= base ^ 64) by (apply Z.pow_le_mono_l; lia). change (Z.of_nat 64) with 64. lia.
  - unfold fmt_radix. rewrite app_nil_r in E. by rewrite E.
Qed.

Lemma digits_loop_length base fuel : forall n acc, (length (digits_loop fuel base n acc) <= fuel + length acc)%nat.
Proof.
  induction fuel as [|fuel IH]; intros n acc; cbn [digits_loop]; [lia|].
  destruct (n <? base); [cbn [length]; lia|]. specialize (IH (n / base) (digit_char (n mod base) :: acc)). cbn [length] in IH. lia.
Qed.

Lemma fmt_radix_length base n : (length (fmt_radix base n) <= 64)%nat.
Proof. pose proof (digits_loop_length base 64 n []) as H. cbn [length] in H. unfold fmt_radix. lia. Qed.

(** A bound on the text of a format. *)
Definition format_bound (f : list piece) : nat := sum_list_with (fun p => match p with Lit s => length s | Arg _ => 64%nat end) f.

Lemma render_length f : forall args, (length (render f args) <= format_bound f)%nat.
Proof.
  unfold format_bound. induction f as [|[s|base] f IH]; intros args; cbn [render sum_list_with]; [cbn; lia| |].
  - rewrite length_app. specialize (IH args). lia.
  - destruct args as [|a args]; [cbn; lia|]. rewrite length_app. pose proof (fmt_radix_length base a). specialize (IH args). lia.
Qed.

Lemma take_digits_app base ds s : Forall (fun c => is_digit base c = true) ds -> stops base s = true -> take_digits base (ds ++ s) = (ds, s).
Proof.
  intros Hds Hs. induction Hds as [|c ds Hc Hds IH]; cbn [app take_digits].
  - destruct s as [|c s]; [done|]. cbn in Hs |- *. by destruct (is_digit base c).
  - by rewrite Hc, IH.
Qed.

Lemma strip_prefix_app p s : strip_prefix p (p ++ s) = Some s.
Proof. induction p as [|c p IH]; [done|]. cbn. by rewrite Z.eqb_refl. Qed.

(** The arguments of a format string can be read from the text. *)
Lemma scan_render f : forall args s, separated f = true -> length args = arity f -> Forall (fits 64) args ->
  scan f (render f args ++ s) = Some (args, s).
Proof.
  induction f as [|[p|base] f IH]; intros args s Hf Hl Ha.
  - by destruct args.
  - cbn [render scan separated]. rewrite <- app_assoc, strip_prefix_app. cbn. by apply IH.
  - destruct args as [|a args]; [done|]. apply Forall_cons in Ha as [Ha Hargs]. cbn [separated] in Hf.
    rewrite !andb_true_iff, !Z.leb_le in Hf. destruct Hf as [[[B1 B2] Hs] Hf].
    destruct (fmt_radix_spec base a (conj B1 B2) Ha) as [F R]. cbn [render scan]. rewrite <- app_assoc.
    assert (Hst : stops base (render f args ++ s) = true).
    { destruct f as [|[[|c p]|] f]; cbn in Hs |- *; done. }
    rewrite take_digits_app by done. injection Hl as Hl. rewrite IH, R by done. done.
Qed.

(** ** Named fields *)

(** The text behind the first occurrence of [key]. *)
Fixpoint text_after (key s : list Z) : option (list Z) :=
  match strip_prefix key s with
  | Some s' => Some s'
  | None => match s with [] => None | _ :: s' => text_after key s' end
  end.

(** The number behind the first occurrence of [key]. *)
Definition field (base : Z) (key s : list Z) : option Z :=
  s ← text_after key s;
  match (take_digits base s).1 with [] => None | ds => Some (read_radix base ds) end.

(** Two texts that differ where both are defined. *)
Fixpoint clash (key s : list Z) : bool :=
  match key, s with
  | c :: key, d :: s => negb (c =? d) || clash key s
  | _, _ => false
  end.

Fixpoint lit_skips (key s : list Z) : bool := match s with [] => true | _ :: s' => clash key s && lit_skips key s' end.
Fixpoint lit_hits (key s : list Z) : bool :=
  bool_decide (s = key) || match s with [] => false | _ :: s' => clash key s && lit_hits key s' end.

(** The argument of a format that stands behind the first occurrence of [key],
    whatever the arguments are. *)
Fixpoint field_at (key : list Z) (f : list piece) : option nat :=
  match f with
  | [] => None
  | Lit s :: f' => if lit_hits key s then Some O else if lit_skips key s then field_at key f' else None
  | Arg base :: f' => if match key with c :: _ => negb (is_digit base c) | [] => false end then S <$> field_at key f' else None
  end.

Lemma clash_strip key s t : clash key s = true -> strip_prefix key (s ++ t) = None.
Proof.
  revert s. induction key as [|c key IH]; intros [|d s]; try done. cbn. destruct (c =? d); [|done]. apply IH.
Qed.

Lemma lit_skips_after key s t : lit_skips key s = true -> text_after key (s ++ t) = text_after key t.
Proof.
  induction s as [|c s IH]; [done|]. cbn [lit_skips]. intros [Hc Hs]%andb_true_iff. cbn [app text_after].
  change (c :: s ++ t) with ((c :: s) ++ t). rewrite clash_strip by done. by apply IH.
Qed.

Lemma lit_hits_after key s t : lit_hits key s = true -> text_after key (s ++ t) = Some t.
Proof.
  induction s as [|c s IH]; cbn [lit_hits].
  - intros [H|?]%orb_true_iff; [|done]. apply bool_decide_eq_true in H as <-. by destruct t.
  - intros [H|[Hc Hs]%andb_true_iff]%orb_true_iff.
    + apply bool_decide_eq_true in H as <-. cbn [app text_after]. change (c :: s ++ t) with ((c :: s) ++ t). by rewrite strip_prefix_app.
    + cbn [app text_after]. change (c :: s ++ t) with ((c :: s) ++ t). rewrite clash_strip by done. by apply IH.
Qed.

Lemma digits_after base k key ds t : is_digit base k = false -> Forall (fun c => is_digit base c = true) ds ->
  text_after (k :: key) (ds ++ t) = text_after (k :: key) t.
Proof.
  intros Hk Hds. induction Hds as [|c ds Hc Hds IH]; [done|]. cbn [app text_after strip_prefix].
  destruct (Z.eqb_spec k c) as [->|]; [congruence|]. done.
Qed.

Lemma fmt_radix_cons base n : fmt_radix base n <> [].
Proof.
  assert (H : forall fuel n acc, acc <> [] -> digits_loop fuel base n acc <> []).
  { induction fuel as [|fuel IH]; intros m acc Ha; [done|]. cbn [digits_loop]. destruct (m <? base); [done|by apply IH]. }
  unfold fmt_radix. set (fuel := 63%nat). change (digits_loop (S fuel) base n [] <> []). cbn [digits_loop].
  destruct (n <? base); [done|]. by apply H.
Qed.

(** The formats whose fields can be read: an argument follows the key. *)
Fixpoint field_base (f : list piece) (k : nat) : option Z :=
  match f, k with
  | [], _ => None
  | Arg base :: _, O => Some base
  | Arg _ :: f, S k => field_base f k
  | Lit _ :: f, _ => field_base f k
  end.
Fixpoint arg_follows (key : list Z) (f : list piece) : bool :=
  match f with
  | [] => false
  | Lit s :: f' => if lit_hits key s then match f' with Arg _ :: _ => true | _ => false end else arg_follows key f'
  | Arg _ :: f' => arg_follows key f'
  end.

Lemma field_render key base v f : forall k args s, separated f = true -> length args = arity f -> Forall (fits 64) args ->
  field_at key f = Some k -> arg_follows key f = true -> field_base f k = Some base -> args !! k = Some v ->
  field base key (render f args ++ s) = Some v.
Proof.
  induction f as [|[p|b] f IH]; intros k args s Hf Hl Ha Hk Hfo Hb Hv; [done|..].
  - cbn [render field_at arg_follows field_base separated] in *. rewrite <- app_assoc. destruct (lit_hits key p) eqn:Eh.
    + injection Hk as <-. destruct f as [|[|b] f]; try done. injection Hb as ->. destruct args as [|a args]; [done|].
      injection Hv as ->. apply Forall_cons in Ha as [Ha Hargs]. cbn [separated] in Hf.
      rewrite !andb_true_iff, !Z.leb_le in Hf. destruct Hf as [[[B1 B2] Hs] Hf].
      destruct (fmt_radix_spec base v (conj B1 B2) Ha) as [F R]. unfold field. rewrite lit_hits_after by done.
      cbn [mbind option_bind render]. rewrite <- app_assoc, take_digits_app; [|done|by destruct f as [|[[|c q]|] f]].
      cbn [fst]. destruct (fmt_radix base v) eqn:E; [by apply fmt_radix_cons in E|]. by rewrite R.
    + destruct (lit_skips key p) eqn:Es; [|done]. unfold field. rewrite lit_skips_after by done. by apply (IH k).
  - cbn [render field_at arg_follows field_base separated] in *. destruct key as [|c key]; [done|].
    destruct (is_digit b c) eqn:Ec; [done|]. cbn [negb] in Hk. apply fmap_Some in Hk as (k' & Hk & ->).
    destruct args as [|a args]; [done|]. apply Forall_cons in Ha as [Ha Hargs].
    rewrite !andb_true_iff, !Z.leb_le in Hf. destruct Hf as [[[B1 B2] Hs] Hf].
    destruct (fmt_radix_spec b a (conj B1 B2) Ha) as [F R]. rewrite <- app_assoc. unfold field.
    rewrite (digits_after b) by done. injection Hl as Hl. by apply (IH k').
Qed.

(** ** Splitting *)

Lemma strip_prefix_Some p : forall s s', strip_prefix p s = Some s' -> s = p ++ s'.
Proof.
  induction p as [|c p IH]; intros s s'; cbn; [by intros [= ->]|]. destruct s as [|d s]; [done|].
  destruct (Z.eqb_spec c d) as [->|]; [|done]. intros E%IH. by rewrite E.
Qed.

Section Split.
(** A separator whose last character occurs only there. *)
Context (p : list Z) (z : Z) (Hz : z ∉ p).

Abbreviation sep := (p ++ [z]).

(** No separator begins inside a piece without its last character. *)
Lemma no_early_match c x rest : z ∉ c :: x -> strip_prefix sep ((c :: x) ++ sep ++ rest) = None.
Proof.
  intros Hx. destruct (strip_prefix _ _) as [s'|] eqn:E; [|done]. exfalso. apply strip_prefix_Some in E.
  rewrite <- !app_assoc in E. assert (Hl : ((c :: x) ++ p ++ [z] ++ rest) !! length p = Some z).
  { rewrite E, lookup_app_r, Nat.sub_diag by lia. done. }
  rewrite app_assoc, lookup_app_l in Hl by (rewrite length_app; cbn; lia).
  apply list_elem_of_lookup_2 in Hl. rewrite elem_of_app in Hl. tauto.
Qed.

Lemma no_match x : z ∉ x -> strip_prefix sep x = None.
Proof.
  intros Hx. destruct (strip_prefix _ _) as [s'|] eqn:E; [|done]. apply strip_prefix_Some in E. subst x.
  exfalso. apply Hx. rewrite !elem_of_app. left. right. apply list_elem_of_singleton. done.
Qed.

Lemma split_piece rest x : forall fuel acc, z ∉ x -> (length (x ++ sep ++ rest) < fuel)%nat ->
  exists fuel', (length rest < fuel')%nat /\ split_loop fuel sep (x ++ sep ++ rest) acc = (rev acc ++ x) :: split_loop fuel' sep rest [].
Proof.
  induction x as [|c x IH]; intros [|fuel] acc Hx Hf; try lia; cbn [split_loop].
  - exists fuel. cbn [app]. rewrite strip_prefix_app, app_nil_r. split; [|done]. rewrite !length_app in Hf. cbn in Hf. lia.
  - rewrite no_early_match by done. cbn [app]. destruct (IH fuel (c :: acc)) as (fuel' & Hf' & E).
    + intros Hin. apply Hx. by right.
    + cbn in Hf. lia.
    + exists fuel'. split; [done|]. rewrite E. cbn [rev]. by rewrite <- app_assoc.
Qed.

Lemma split_last x : forall fuel acc, z ∉ x -> (length x < fuel)%nat -> split_loop fuel sep x acc = [rev acc ++ x].
Proof.
  induction x as [|c x IH]; intros [|fuel] acc Hx Hf; try (cbn in Hf; lia); cbn [split_loop]; rewrite no_match by done.
  - by rewrite app_nil_r.
  - rewrite IH; [|intros Hin; apply Hx; by right|cbn in Hf; lia]. cbn [rev]. by rewrite <- app_assoc.
Qed.

(** Splitting takes a joined list apart. *)
Lemma split_join x l : Forall (fun y => z ∉ y) (x :: l) -> str_split sep (join sep (x :: l)) = x :: l.
Proof.
  intros Hl. unfold str_split. cut (forall fuel, (length (join sep (x :: l)) < fuel)%nat -> split_loop fuel sep (join sep (x :: l)) [] = x :: l); [auto|].
  revert x Hl. induction l as [|y l IH]; intros x Hl fuel Hf; apply Forall_cons in Hl as [Hx Hl].
  - cbn [join] in *. by rewrite split_last.
  - change (join sep (x :: y :: l)) with (x ++ sep ++ join sep (y :: l)) in *.
    destruct (split_piece (join sep (y :: l)) x fuel [] Hx Hf) as (fuel' & Hf' & ->). f_equal. by apply IH.
Qed.
End Split.

(** ** Trimming *)

Definition tight (s : list Z) : Prop :=
  match head s, last s with
  | Some a, Some b => is_whitespace a = false /\ is_whitespace b = false
  | _, _ => True
  end.

Lemma trim_start_id s : (forall c, head s = Some c -> is_whitespace c = false) -> trim_start s = s.
Proof. destruct s as [|c s]; [done|]. intros H. cbn. by rewrite (H c eq_refl). Qed.

Lemma trim_id s : tight s -> trim s = s.
Proof.
  intros Hs. unfold trim. destruct (decide (s = [])) as [->|Hne]; [done|].
  assert (Ht : exists a b, head s = Some a /\ last s = Some b /\ is_whitespace a = false /\ is_whitespace b = false).
  { unfold tight in Hs. destruct s as [|a s]; [done|]. destruct (last (a :: s)) as [b|] eqn:E; [|by apply last_None in E].
    exists a, b. by destruct Hs. }
  destruct Ht as (a & b & Ha & Hb & Wa & Wb).
  rewrite (trim_start_id s) by (intros c Hc; congruence). rewrite trim_start_id; [apply rev_involutive|].
  intros c. rewrite rev_alt. change (rev_append s []) with (reverse s). rewrite head_reverse, Hb. congruence.
Qed.
