(* ===== verification/Platform.v ===== *)
(** * Interfaces of the third-party crates

    The sources call the [x86_64] crate for addresses, pages and frames.  Its
    code is not part of the repository, so the operations used are fields of a
    class, an argument of every definition that calls them, and what the code
    relies on is a second class of laws, each the documented behaviour of the
    operation.  A page or a frame is represented by its start address. *)

From S2P Require Import Prelude.

Definition PAGE_SIZE : Z := 4096.

(** [n] consecutive 4 KiB pages or frames. *)
Abbreviation frame_list := (stride PAGE_SIZE).

Ltac page_lia := unfold PAGE_SIZE in *; lia.

(** [x86_64::PhysAddr], [x86_64::VirtAddr], [PhysFrame<Size4KiB>] and
    [Page<Size4KiB>]. *)
Class X86Addr : Type := {
  (** [PhysAddr::new] *)
  phys_addr_new : Z -> outcome Z;
  (** [PhysAddr + u64] *)
  phys_addr_add : Z -> Z -> outcome Z;
  (** [PhysAddr - u64] *)
  phys_addr_sub : Z -> Z -> outcome Z;
  (** [PhysFrame::containing_address], as the frame's start address *)
  frame_containing_address : Z -> Z;
  (** [PhysFrame + u64]: that many frames further *)
  frame_add : Z -> Z -> outcome Z;
  (** [PhysFrame - PhysFrame]: the number of frames between *)
  frame_diff : Z -> Z -> outcome Z;
  (** [PhysFrame::range_inclusive] *)
  frame_range_inclusive : Z -> Z -> list Z;
  (** [PhysFrame::<Size1GiB>::containing_address] and [range_inclusive] *)
  frame_containing_1gib : Z -> Z;
  frame_range_inclusive_1gib : Z -> Z -> list Z;
  (** [align_down] and [align_up], for a power of two *)
  align_down : Z -> Z -> Z;
  align_up : Z -> Z -> Z
}.

Class X86AddrSpec (X : X86Addr) : Prop := {
  (** "Panics if a bit in the range 52 to 64 is set." *)
  phys_addr_new_ok a : 0 <= a < 2 ^ 52 -> phys_addr_new a = Done a;
  phys_addr_new_panics a : 2 ^ 52 <= a < 2 ^ 64 -> phys_addr_new a = Panic;
  phys_addr_add_ok a n : 0 <= a -> 0 <= n -> a + n < 2 ^ 52 ->
    phys_addr_add a n = Done (a + n);
  phys_addr_add_panics a n : 0 <= a -> 0 <= n -> 2 ^ 52 <= a + n ->
    phys_addr_add a n = Panic;
  phys_addr_sub_ok a n : 0 <= n <= a -> a < 2 ^ 52 ->
    phys_addr_sub a n = Done (a - n);
  phys_addr_sub_panics a n : 0 <= a < n -> phys_addr_sub a n = Panic;
  (** "Returns the frame that contains the given physical address." *)
  frame_containing_bounds a : 0 <= a ->
    frame_containing_address a <= a < frame_containing_address a + PAGE_SIZE;
  frame_containing_aligned a : 0 <= a ->
    (PAGE_SIZE | frame_containing_address a);
  frame_add_ok f n : 0 <= f -> 0 <= n -> f + n * PAGE_SIZE < 2 ^ 52 ->
    frame_add f n = Done (f + n * PAGE_SIZE);
  frame_add_panics f n : 0 <= f -> 0 <= n -> 2 ^ 52 <= f + n * PAGE_SIZE ->
    frame_add f n = Panic;
  frame_diff_ok f g : 0 <= g <= f -> frame_diff f g = Done ((f - g) / PAGE_SIZE);
  (** "Returns a range of frames, inclusive end." *)
  frame_range_inclusive_spec s e : 0 <= s -> (PAGE_SIZE | s) -> (PAGE_SIZE | e) ->
    frame_range_inclusive s e = frame_list s (Z.to_nat ((e - s) / PAGE_SIZE + 1));
  frame_containing_1gib_spec a : 0 <= a -> frame_containing_1gib a = a - a mod 2 ^ 30;
  frame_range_inclusive_1gib_spec s e : 0 <= s -> (2 ^ 30 | s) -> (2 ^ 30 | e) ->
    frame_range_inclusive_1gib s e = stride (2 ^ 30) s (Z.to_nat ((e - s) / 2 ^ 30 + 1));
  (** "Returns the greatest x with alignment align so that x <= addr" and
      "the smallest x with alignment align so that x >= addr" *)
  align_down_spec a k : 0 <= a -> 0 <= k < 64 -> align_down a (2 ^ k) = a - a mod 2 ^ k;
  align_up_spec a k : 0 <= a -> 0 <= k < 64 -> a + 2 ^ k <= 2 ^ 64 ->
    align_up a (2 ^ k) = - (- a / 2 ^ k) * 2 ^ k
}.

(** An instance, to evaluate the definitions on concrete inputs. *)
Definition x86_addr_model : X86Addr := {|
  phys_addr_new a := if a <? 2 ^ 52 then Done a else Panic;
  phys_addr_add a n := if a + n <? 2 ^ 52 then Done (a + n) else Panic;
  phys_addr_sub a n := if n <=? a then Done (a - n) else Panic;
  frame_containing_address a := a - a mod PAGE_SIZE;
  frame_add f n := if f + n * PAGE_SIZE <? 2 ^ 52 then Done (f + n * PAGE_SIZE) else Panic;
  frame_diff f g := if g <=? f then Done ((f - g) / PAGE_SIZE) else Panic;
  frame_range_inclusive s e := frame_list s (Z.to_nat ((e - s) / PAGE_SIZE + 1));
  frame_containing_1gib a := a - a mod 2 ^ 30;
  frame_range_inclusive_1gib s e := stride (2 ^ 30) s (Z.to_nat ((e - s) / 2 ^ 30 + 1));
  align_down a k := a - a mod k;
  align_up a k := - (- a / k) * k
|}.

Lemma x86_addr_model_spec : X86AddrSpec x86_addr_model.
Proof.
  constructor; intros a; simpl; try done; try (intros; case_match; lia || done).
  - intros. pose proof (Z.mod_pos_bound a PAGE_SIZE eq_refl). lia.
  - intros. exists (a / PAGE_SIZE). pose proof (Z.div_mod a PAGE_SIZE). unfold PAGE_SIZE in *. lia.
Qed.

Section Frames.
Context {X : X86Addr} {XS : X86AddrSpec X}.

(** The laws determine the frame of an aligned address. *)
Lemma frame_containing_of_aligned a :
  0 <= a -> (PAGE_SIZE | a) -> frame_containing_address a = a.
Proof.
  intros Ha Hal.
  pose proof (frame_containing_bounds a Ha) as Hb.
  pose proof (frame_containing_aligned a Ha) as Hal'.
  destruct Hal as [k ->], Hal' as [k' Hk']. rewrite Hk' in *.
  unfold PAGE_SIZE in *. assert (k = k') by lia. by subst.
Qed.

Lemma phys_addr_new_Done a b : 0 <= a < 2 ^ 64 -> phys_addr_new a = Done b -> b = a.
Proof.
  intros Ha H. destruct (Z.lt_ge_cases a (2 ^ 52)) as [Hlt|Hge].
  - rewrite phys_addr_new_ok in H by lia. by inv_done.
  - rewrite phys_addr_new_panics in H by lia. inv_done.
Qed.

Lemma phys_addr_add_Done a n b :
  0 <= a -> 0 <= n -> phys_addr_add a n = Done b -> b = a + n /\ a + n < 2 ^ 52.
Proof.
  intros Ha Hn H. destruct (Z.lt_ge_cases (a + n) (2 ^ 52)) as [Hlt|Hge].
  - rewrite phys_addr_add_ok in H by lia. inv_done. lia.
  - rewrite phys_addr_add_panics in H by lia. inv_done.
Qed.

Lemma phys_addr_sub_Done a n b :
  0 <= a < 2 ^ 52 -> 0 <= n -> phys_addr_sub a n = Done b -> b = a - n /\ n <= a.
Proof.
  intros Ha Hn H. destruct (Z.le_gt_cases n a) as [Hle|Hgt].
  - rewrite phys_addr_sub_ok in H by lia. inv_done. lia.
  - rewrite phys_addr_sub_panics in H by lia. inv_done.
Qed.

Lemma frame_add_Done f n b :
  0 <= f -> 0 <= n -> frame_add f n = Done b -> b = f + n * PAGE_SIZE /\ b < 2 ^ 52.
Proof.
  intros Ha Hn H. destruct (Z.lt_ge_cases (f + n * PAGE_SIZE) (2 ^ 52)) as [Hlt|Hge].
  - rewrite frame_add_ok in H by lia. inv_done. lia.
  - rewrite frame_add_panics in H by lia. inv_done.
Qed.

(** The last frame of an aligned block ends where the block does. *)
Lemma frame_containing_last s l :
  0 <= s -> 0 < l -> (PAGE_SIZE | s) -> (PAGE_SIZE | l) ->
  frame_containing_address (s + l - 1) = s + l - PAGE_SIZE.
Proof.
  intros Hs Hl [k ->] [m ->].
  pose proof (frame_containing_bounds (k * PAGE_SIZE + m * PAGE_SIZE - 1) ltac:(lia)) as Hb.
  destruct (frame_containing_aligned (k * PAGE_SIZE + m * PAGE_SIZE - 1) ltac:(lia)) as [q Hq].
  rewrite Hq in *. unfold PAGE_SIZE in *. lia.
Qed.
End Frames.

(** ** Virtual addresses and pages *)

(** An address whose upper 17 bits are all equal. *)
Definition canonical (a : Z) : Prop := 0 <= a < 2 ^ 47 \/ 2 ^ 64 - 2 ^ 47 <= a < 2 ^ 64.

#[export] Instance canonical_dec a : Decision (canonical a).
Proof. unfold canonical. apply _. Defined.

(** Page table levels, [x86_64::structures::paging::page_table::PageTableLevel]. *)
Inductive PageTableLevel : Type := One | Two | Three | Four.

(** [x86_64::VirtAddr], [Page<Size4KiB>], [PageTableIndex]. *)
Class X86Virt : Type := {
  (** [VirtAddr::new] *)
  virt_addr_new : Z -> outcome Z;
  (** [VirtAddr + u64] *)
  virt_addr_add : Z -> Z -> outcome Z;
  (** [VirtAddr - u64] *)
  virt_addr_sub : Z -> Z -> outcome Z;
  (** [Page::<Size4KiB>::containing_address], as the page's start address *)
  page_containing_address : Z -> Z;
  (** [Page::p1_index] .. [Page::p4_index] *)
  page_index : PageTableLevel -> Z -> Z;
  (** [PageTableIndex::new] *)
  page_table_index_new : Z -> outcome Z;
  (** [Page::from_page_table_indices_1gib], as the page's start address *)
  page_from_indices_1gib : Z -> Z -> Z;
  (** [Page + u64]: that many pages further *)
  page_add : Z -> Z -> outcome Z;
  (** [Page::range_inclusive] *)
  page_range_inclusive : Z -> Z -> list Z;
  (** [Page::<Size1GiB>::containing_address] *)
  page_containing_1gib : Z -> Z
}.

(** The bit position at which the index of a level starts. *)
Definition level_shift (l : PageTableLevel) : Z :=
  match l with One => 12 | Two => 21 | Three => 30 | Four => 39 end.

Class X86VirtSpec (V : X86Virt) : Prop := {
  virt_addr_new_ok a : canonical a -> virt_addr_new a = Done a;
  virt_addr_add_ok a n : canonical a -> 0 <= n -> canonical (a + n) ->
    virt_addr_add a n = Done (a + n);
  virt_addr_sub_ok a n : canonical a -> 0 <= n -> canonical (a - n) ->
    virt_addr_sub a n = Done (a - n);
  (** "Returns the page that contains the given virtual address." *)
  page_containing_spec a : 0 <= a -> page_containing_address a = a - a mod PAGE_SIZE;
  (** "Returns the level n page table index of this page." *)
  page_index_spec l a : 0 <= a -> page_index l a = (a / 2 ^ level_shift l) mod 512;
  (** "Creates a new index from the given u16. Panics if the given value is >=512." *)
  page_table_index_new_ok i : 0 <= i < 512 -> page_table_index_new i = Done i;
  page_table_index_new_panics i : 512 <= i < 2 ^ 16 -> page_table_index_new i = Panic;
  (** "Returns the 1GiB memory page with the specified page table indices." *)
  page_from_indices_1gib_spec p4 p3 : 0 <= p4 < 512 -> 0 <= p3 < 512 ->
    page_from_indices_1gib p4 p3 =
      p4 * 2 ^ 39 + p3 * 2 ^ 30 + (if 256 <=? p4 then 2 ^ 64 - 2 ^ 48 else 0);
  page_add_ok p n : canonical p -> 0 <= n -> canonical (p + n * PAGE_SIZE) ->
    page_add p n = Done (p + n * PAGE_SIZE);
  (** "Returns a range of pages, inclusive end." *)
  page_range_inclusive_spec s e : 0 <= s -> (PAGE_SIZE | s) -> (PAGE_SIZE | e) ->
    page_range_inclusive s e = frame_list s (Z.to_nat ((e - s) / PAGE_SIZE + 1));
  page_containing_1gib_spec a : 0 <= a -> page_containing_1gib a = a - a mod 2 ^ 30
}.

Definition x86_virt_model : X86Virt := {|
  virt_addr_new a := if decide (canonical a) then Done a else Panic;
  virt_addr_add a n := if decide (canonical (a + n)) then Done (a + n) else Panic;
  virt_addr_sub a n := if decide (canonical (a - n)) then Done (a - n) else Panic;
  page_containing_address a := a - a mod PAGE_SIZE;
  page_index l a := (a / 2 ^ level_shift l) mod 512;
  page_table_index_new i := if i <? 512 then Done i else Panic;
  page_from_indices_1gib p4 p3 :=
    p4 * 2 ^ 39 + p3 * 2 ^ 30 + (if 256 <=? p4 then 2 ^ 64 - 2 ^ 48 else 0);
  page_add p n := if decide (canonical (p + n * PAGE_SIZE)) then Done (p + n * PAGE_SIZE) else Panic;
  page_range_inclusive s e := frame_list s (Z.to_nat ((e - s) / PAGE_SIZE + 1));
  page_containing_1gib a := a - a mod 2 ^ 30
|}.

Lemma x86_virt_model_spec : X86VirtSpec x86_virt_model.
Proof.
  constructor; intros; simpl; try done; try (by rewrite decide_True by done);
    case_match; lia || done.
Qed.
