(* ===== verification/Shared.v ===== *)
(** * The data the bootloader hands to the kernel

    [shared/src/lib.rs] and [shared/src/arg.rs]: the PML4 slots both sides
    agree on and the [KernelArg] record. *)

From S2P Require Import Prelude.

(** Slots of the kernel's level-4 page table ([shared/src/lib.rs]). *)
Definition KERNEL_BYTES_P4 : nat := 511.
Definition BOOTSTRAP_BYTES_P4 : nat := 510.
Definition PHYS_MEM_P4 : nat := 0.
Definition KERNEL_STACK_P4 : nat := 509.
Definition FRAMEBUFFER_P4 : nat := 508.
Definition KERNEL_ARG_P4 : nat := 507.

Definition MAX_CPUS : nat := 256.

(** [arg::MemoryRegionKind]. *)
Inductive MemoryRegionKind : Type :=
| Usable
| Bootloader
| UnknownUefi (tag : Z)
| UnknownBios (tag : Z).

#[global] Instance MemoryRegionKind_eq_dec : EqDecision MemoryRegionKind.
Proof. solve_decision. Defined.

(** [arg::MemoryRegion]. *)
Record MemoryRegion : Type := mkMemoryRegion {
  mr_start : Z;
  mr_length : Z;
  mr_kind : MemoryRegionKind
}.

#[global] Instance MemoryRegion_eq_dec : EqDecision MemoryRegion.
Proof. solve_decision. Defined.

(** [MemoryRegion::empty]. *)
Definition MemoryRegion_empty : MemoryRegion := mkMemoryRegion 0 0 Bootloader.

(** [arg::TlsTemplate]; [Default] gives all zeroes. *)
Record TlsTemplate : Type := mkTlsTemplate {
  tls_start_virt_addr : Z;
  tls_mem_size : Z;
  tls_file_size : Z
}.

(** [arg::MadtLocalApic], [arg::MadtIoApic], [arg::MadtInterruptSrcOverride]. *)
Record MadtLocalApic : Type := mkMadtLocalApic {
  lapic_id : Z;
  lapic_processor_id : Z
}.

Record MadtIoApic : Type := mkMadtIoApic {
  ioapic_id : Z;
  ioapic_address : Z;
  ioapic_gsi_base : Z
}.

Record MadtInterruptSrcOverride : Type := mkMadtIso {
  iso_bus_source : Z;
  iso_irq_source : Z;
  iso_gsi : Z;
  iso_flags : Z
}.

(** [arg::AcpiSettings]: three fixed arrays of [MAX_CPUS] entries, each with
    the number of entries in use. *)
Record AcpiSettings : Type := mkAcpiSettings {
  local_apic_base : Z;
  local_apic : list MadtLocalApic;
  local_apic_count : nat;
  io_apic : list MadtIoApic;
  io_apic_count : nat;
  interrupt_src_override : list MadtInterruptSrcOverride;
  interrupt_src_override_count : nat
}.

(** [impl Default for AcpiSettings]. *)
Definition AcpiSettings_default : AcpiSettings :=
  mkAcpiSettings
    0
    (replicate MAX_CPUS (mkMadtLocalApic 0 0)) 0
    (replicate MAX_CPUS (mkMadtIoApic 0 0 0)) 0
    (replicate MAX_CPUS (mkMadtIso 0 0 0 0)) 0.

(** [framebuffer::Framebuffer]; the pixel format is a bit set. *)
Record Framebuffer : Type := mkFramebuffer {
  fb_ptr : Z;
  fb_len : Z;
  fb_width : Z;
  fb_height : Z;
  fb_stride : Z;
  fb_pixel_format : Z
}.

(** [arg::KernelArg]. *)
Record KernelArg : Type := mkKernelArg {
  kernel_virt_space_offset : Z;
  gdt_start_addr : Z;
  kernel_pml4_start_addr : Z;
  ka_acpi : AcpiSettings;
  stack_top_addr : Z;
  stack_size : Z;
  framebuffer_addr : Z;
  framebuffer_len : Z;
  framebuffer_width : Z;
  framebuffer_height : Z;
  framebuffer_stride : Z;
  phys_mem_mapped_addr : Z;
  phys_mem_size : Z;
  unav_phys_mem_regions : list MemoryRegion;
  unav_phys_mem_regions_len : nat;
  bootstrap_base : Z;
  bootstrap_len : Z;
  ka_tls_template : TlsTemplate
}.

(** The bytes of a region: half open, from [mr_start]. *)
Definition in_region (x : Z) (r : MemoryRegion) : Prop :=
  mr_start r <= x < mr_start r + mr_length r.
