(* ===== verification/IntLike.v ===== *)
(** * Typed integers and their atomic cells

    [kernel/src/common/int_like.rs]: the macro that gives [ContextId] and
    [AtomicContextId] their operations.  An atomic cell is its value; threads
    that share one are the sequence of their operations, since every operation is
    one step. *)

From S2P Require Import Prelude.

(** ** The cell of the language: [AtomicUsize] *)

Inductive result (A : Type) : Type := Ok (a : A) | Err (a : A).
Arguments Ok {A}.
Arguments Err {A}.

Definition atomic_load (c : Z) : Z * Z := (c, c).
Definition atomic_store (v c : Z) : Z := v.
Definition atomic_swap (v c : Z) : Z * Z := (c, v).
Definition atomic_compare_exchange (current new c : Z) : result Z * Z :=
  if c =? current then (Ok c, new) else (Err c, c).
(** The weak form may also fail when the values agree. *)
Definition atomic_compare_exchange_weak (spurious : bool) (current new c : Z) : result Z * Z :=
  if (c =? current) && negb spurious then (Ok c, new) else (Err c, c).

(** ** The types of the macro *)

Record int_like : Type := mkIntLike { il_0 : Z }.

Definition il_get (x : int_like) : Z := il_0 x.
Definition il_new (x : Z) : int_like := mkIntLike x.
Definition il_from (inner : Z) : int_like := il_new inner.
Definition il_into (wrapped : int_like) : Z := il_get wrapped.

Record atomic_int_like : Type := mkAtomic { container : Z }.

Definition ail_new (x : int_like) : atomic_int_like := mkAtomic (il_get x).

Definition ail_load (a : atomic_int_like) : int_like * atomic_int_like :=
  let '(v, c) := atomic_load (container a) in
  (il_from v, mkAtomic c).

Definition ail_store (val : int_like) (a : atomic_int_like) : atomic_int_like :=
  mkAtomic (atomic_store (il_into val) (container a)).

Definition ail_swap (val : int_like) (a : atomic_int_like) : int_like * atomic_int_like :=
  let '(v, c) := atomic_swap (il_into val) (container a) in
  (il_from v, mkAtomic c).

Definition ail_compare_exchange (current new : int_like) (a : atomic_int_like) : result int_like * atomic_int_like :=
  let '(r, c) := atomic_compare_exchange (il_into current) (il_into new) (container a) in
  (match r with Ok result => Ok (il_from result) | Err result => Err (il_from result) end, mkAtomic c).

Definition ail_compare_exchange_weak (spurious : bool) (current new : int_like) (a : atomic_int_like)
  : result int_like * atomic_int_like :=
  let '(r, c) := atomic_compare_exchange_weak spurious (il_into current) (il_into new) (container a) in
  (match r with Ok result => Ok (il_from result) | Err result => Err (il_from result) end, mkAtomic c).

Definition ail_default : atomic_int_like := ail_new (il_new 0).

(** ** The same as the cell *)

Inductive AtomicOp (V : Type) : Type :=
| OpLoad
| OpStore (v : V)
| OpSwap (v : V)
| OpCas (current new : V)
| OpCasWeak (spurious : bool) (current new : V).
Arguments OpLoad {V}.
Arguments OpStore {V}.
Arguments OpSwap {V}.
Arguments OpCas {V}.
Arguments OpCasWeak {V}.

(** What an operation answers. *)
Inductive Answer (V : Type) : Type := NoAnswer | Value (v : V) | Exchanged (r : result V).
Arguments NoAnswer {V}.
Arguments Value {V}.
Arguments Exchanged {V}.

Definition cell_step (o : AtomicOp Z) (c : Z) : Answer Z * Z :=
  match o with
  | OpLoad => let '(v, c) := atomic_load c in (Value v, c)
  | OpStore v => (NoAnswer, atomic_store v c)
  | OpSwap v => let '(v, c) := atomic_swap v c in (Value v, c)
  | OpCas x y => let '(r, c) := atomic_compare_exchange x y c in (Exchanged r, c)
  | OpCasWeak s x y => let '(r, c) := atomic_compare_exchange_weak s x y c in (Exchanged r, c)
  end.

Definition ail_step (o : AtomicOp int_like) (a : atomic_int_like) : Answer int_like * atomic_int_like :=
  match o with
  | OpLoad => let '(v, a) := ail_load a in (Value v, a)
  | OpStore v => (NoAnswer, ail_store v a)
  | OpSwap v => let '(v, a) := ail_swap v a in (Value v, a)
  | OpCas x y => let '(r, a) := ail_compare_exchange x y a in (Exchanged r, a)
  | OpCasWeak s x y => let '(r, a) := ail_compare_exchange_weak s x y a in (Exchanged r, a)
  end.

(** The operations of all threads, in the order they happen. *)
Fixpoint run {O A C} (step : O -> C -> A * C) (ops : list O) (c : C) : list A * C :=
  match ops with
  | [] => ([], c)
  | o :: ops => let '(a, c) := step o c in let '(l, c) := run step ops c in (a :: l, c)
  end.

Definition op_map {V W} (f : V -> W) (o : AtomicOp V) : AtomicOp W :=
  match o with
  | OpLoad => OpLoad
  | OpStore v => OpStore (f v)
  | OpSwap v => OpSwap (f v)
  | OpCas x y => OpCas (f x) (f y)
  | OpCasWeak s x y => OpCasWeak s (f x) (f y)
  end.

Definition answer_map {V W} (f : V -> W) (a : Answer V) : Answer W :=
  match a with
  | NoAnswer => NoAnswer
  | Value v => Value (f v)
  | Exchanged (Ok v) => Exchanged (Ok (f v))
  | Exchanged (Err v) => Exchanged (Err (f v))
  end.

(** Equivalent to the integer's own cell, for every interleaving. *)
Theorem ail_equivalent ops : forall a,
  run ail_step ops a =
  let '(l, c) := run cell_step (map (op_map il_get) ops) (container a) in (map (answer_map il_new) l, mkAtomic c).
Proof.
  induction ops as [|o ops IH]; intros [c]; [done|]. cbn [run map container].
  assert (E : ail_step o (mkAtomic c) = let '(r, c) := cell_step (op_map il_get o) c in (answer_map il_new r, mkAtomic c)).
  { destruct o as [|v|v|x y|s x y]; cbn; try done.
    - unfold ail_compare_exchange, il_into, il_from. cbn. by destruct (atomic_compare_exchange _ _ c) as [[?|?] ?].
    - unfold ail_compare_exchange_weak, il_into, il_from. cbn. by destruct (atomic_compare_exchange_weak _ _ _ c) as [[?|?] ?]. }
  rewrite E. destruct (cell_step (op_map il_get o) c) as [r c']. rewrite IH. cbn [container].
  by destruct (run cell_step (map (op_map il_get) ops) c').
Qed.

(** Threads that race to replace a value, the first by another one: the first wins,
    its value stays, and the others are told so. *)
Theorem ail_one_winner current new news : il_get new <> il_get current ->
  run ail_step (map (OpCas current) (new :: news)) (ail_new current) =
    (Exchanged (Ok current) :: map (fun _ => Exchanged (Err new)) news, ail_new new).
Proof.
  destruct current as [x], new as [y]. unfold il_get. cbn [il_0]. intros Hn. cbn [map run ail_step].
  unfold ail_compare_exchange at 1, atomic_compare_exchange, ail_new, il_into, il_get, il_from, il_new. cbn [il_0 container].
  rewrite Z.eqb_refl. cut (run ail_step (map (OpCas (mkIntLike x)) news) (mkAtomic y) = (map (fun _ => Exchanged (Err (mkIntLike y))) news, mkAtomic y)).
  { by intros ->. }
  induction news as [|n news IH]; [done|]. cbn [map run ail_step]. unfold ail_compare_exchange at 1, atomic_compare_exchange.
  cbn [il_into il_get il_0 container]. rewrite (proj2 (Z.eqb_neq y x) Hn). by rewrite IH.
Qed.
