(* ===== verification/Vdso.v ===== *)
(** * libvdso: the interface between user programs and the kernel

    [libvdso/src/error.rs] (error numbers and how a result travels in one
    register), [syscall_number.rs] (the call numbers), [flag.rs] (signals) and
    [macro.rs] (which register carries which argument). *)

From S2P Require Import Prelude.

(** ** Errors *)

(** [KError]; [errno] is an [i32]. *)
Record KError : Type := mkKError { errno : Z }.

#[global] Instance KError_eq_dec : EqDecision KError.
Proof. solve_decision. Defined.

(** [KResult<T>]. *)
Definition KResult (T : Type) : Type := (T + KError)%type.

(** [-error.errno as usize]: the negation of an [i32] panics on overflow and
    the cast extends the sign. *)
Definition mux (result : KResult Z) : outcome Z :=
  match result with
  | inl v => Done v
  | inr e => if errno e =? - 2 ^ 31 then Panic else Done (wrap 64 (- errno e))
  end.

Definition demux (value : Z) : KResult Z := inl value.

Definition EPERM : Z := 1.
Definition ENOENT : Z := 2.
Definition ESRCH : Z := 3.
Definition EINTR : Z := 4.
Definition EIO : Z := 5.
Definition ENXIO : Z := 6.
Definition E2BIG : Z := 7.
Definition ENOEXEC : Z := 8.
Definition EBADF : Z := 9.
Definition ECHILD : Z := 10.
Definition EAGAIN : Z := 11.
Definition ENOMEM : Z := 12.
Definition EACCES : Z := 13.
Definition EFAULT : Z := 14.
Definition ENOTBLK : Z := 15.
Definition EBUSY : Z := 16.
Definition EEXIST : Z := 17.
Definition EXDEV : Z := 18.
Definition ENODEV : Z := 19.
Definition ENOTDIR : Z := 20.
Definition EISDIR : Z := 21.
Definition EINVAL : Z := 22.
Definition ENFILE : Z := 23.
Definition EMFILE : Z := 24.
Definition ENOTTY : Z := 25.
Definition ETXTBSY : Z := 26.
Definition EFBIG : Z := 27.
Definition ENOSPC : Z := 28.
Definition ESPIPE : Z := 29.
Definition EROFS : Z := 30.
Definition EMLINK : Z := 31.
Definition EPIPE : Z := 32.
Definition EDOM : Z := 33.
Definition ERANGE : Z := 34.
Definition EDEADLK : Z := 35.
Definition ENAMETOOLONG : Z := 36.
Definition ENOLCK : Z := 37.
Definition ENOSYS : Z := 38.
Definition ENOTEMPTY : Z := 39.
Definition ELOOP : Z := 40.
Definition EWOULDBLOCK : Z := 41.
Definition ENOMSG : Z := 42.
Definition EIDRM : Z := 43.
Definition ECHRNG : Z := 44.
Definition EL2NSYNC : Z := 45.
Definition EL3HLT : Z := 46.
Definition EL3RST : Z := 47.
Definition ELNRNG : Z := 48.
Definition EUNATCH : Z := 49.
Definition ENOCSI : Z := 50.
Definition EL2HLT : Z := 51.
Definition EBADE : Z := 52.
Definition EBADR : Z := 53.
Definition EXFULL : Z := 54.
Definition ENOANO : Z := 55.
Definition EBADRQC : Z := 56.
Definition EBADSLT : Z := 57.
Definition EDEADLOCK : Z := 58.
Definition EBFONT : Z := 59.
Definition ENOSTR : Z := 60.
Definition ENODATA : Z := 61.
Definition ETIME : Z := 62.
Definition ENOSR : Z := 63.
Definition ENONET : Z := 64.
Definition ENOPKG : Z := 65.
Definition EREMOTE : Z := 66.
Definition ENOLINK : Z := 67.
Definition EADV : Z := 68.
Definition ESRMNT : Z := 69.
Definition ECOMM : Z := 70.
Definition EPROTO : Z := 71.
Definition EMULTIHOP : Z := 72.
Definition EDOTDOT : Z := 73.
Definition EBADMSG : Z := 74.
Definition EOVERFLOW : Z := 75.
Definition ENOTUNIQ : Z := 76.
Definition EBADFD : Z := 77.
Definition EREMCHG : Z := 78.
Definition ELIBACC : Z := 79.
Definition ELIBBAD : Z := 80.
Definition ELIBSCN : Z := 81.
Definition ELIBMAX : Z := 82.
Definition ELIBEXEC : Z := 83.
Definition EILSEQ : Z := 84.
Definition ERESTART : Z := 85.
Definition ESTRPIPE : Z := 86.
Definition EUSERS : Z := 87.
Definition ENOTSOCK : Z := 88.
Definition EDESTADDRREQ : Z := 89.
Definition EMSGSIZE : Z := 90.
Definition EPROTOTYPE : Z := 91.
Definition ENOPROTOOPT : Z := 92.
Definition EPROTONOSUPPORT : Z := 93.
Definition ESOCKTNOSUPPORT : Z := 94.
Definition EOPNOTSUPP : Z := 95.
Definition EPFNOSUPPORT : Z := 96.
Definition EAFNOSUPPORT : Z := 97.
Definition EADDRINUSE : Z := 98.
Definition EADDRNOTAVAIL : Z := 99.
Definition ENETDOWN : Z := 100.
Definition ENETUNREACH : Z := 101.
Definition ENETRESET : Z := 102.
Definition ECONNABORTED : Z := 103.
Definition ECONNRESET : Z := 104.
Definition ENOBUFS : Z := 105.
Definition EISCONN : Z := 106.
Definition ENOTCONN : Z := 107.
Definition ESHUTDOWN : Z := 108.
Definition ETOOMANYREFS : Z := 109.
Definition ETIMEDOUT : Z := 110.
Definition ECONNREFUSED : Z := 111.
Definition EHOSTDOWN : Z := 112.
Definition EHOSTUNREACH : Z := 113.
Definition EALREADY : Z := 114.
Definition EINPROGRESS : Z := 115.
Definition ESTALE : Z := 116.
Definition EUCLEAN : Z := 117.
Definition ENOTNAM : Z := 118.
Definition ENAVAIL : Z := 119.
Definition EISNAM : Z := 120.
Definition EREMOTEIO : Z := 121.
Definition EDQUOT : Z := 122.
Definition ENOMEDIUM : Z := 123.
Definition EMEDIUMTYPE : Z := 124.
Definition ECANCELED : Z := 125.
Definition ENOKEY : Z := 126.
Definition EKEYEXPIRED : Z := 127.
Definition EKEYREVOKED : Z := 128.
Definition EKEYREJECTED : Z := 129.
Definition EOWNERDEAD : Z := 130.
Definition ENOTRECOVERABLE : Z := 131.

(** All error numbers. *)
Definition errno_table : list Z :=
  [EPERM; ENOENT; ESRCH; EINTR; EIO; ENXIO; E2BIG; ENOEXEC; EBADF; ECHILD; EAGAIN; ENOMEM;
   EACCES; EFAULT; ENOTBLK; EBUSY; EEXIST; EXDEV; ENODEV; ENOTDIR; EISDIR; EINVAL; ENFILE;
   EMFILE; ENOTTY; ETXTBSY; EFBIG; ENOSPC; ESPIPE; EROFS; EMLINK; EPIPE; EDOM; ERANGE;
   EDEADLK; ENAMETOOLONG; ENOLCK; ENOSYS; ENOTEMPTY; ELOOP; EWOULDBLOCK; ENOMSG; EIDRM;
   ECHRNG; EL2NSYNC; EL3HLT; EL3RST; ELNRNG; EUNATCH; ENOCSI; EL2HLT; EBADE; EBADR; EXFULL;
   ENOANO; EBADRQC; EBADSLT; EDEADLOCK; EBFONT; ENOSTR; ENODATA; ETIME; ENOSR; ENONET; ENOPKG;
   EREMOTE; ENOLINK; EADV; ESRMNT; ECOMM; EPROTO; EMULTIHOP; EDOTDOT; EBADMSG; EOVERFLOW;
   ENOTUNIQ; EBADFD; EREMCHG; ELIBACC; ELIBBAD; ELIBSCN; ELIBMAX; ELIBEXEC; EILSEQ; ERESTART;
   ESTRPIPE; EUSERS; ENOTSOCK; EDESTADDRREQ; EMSGSIZE; EPROTOTYPE; ENOPROTOOPT;
   EPROTONOSUPPORT; ESOCKTNOSUPPORT; EOPNOTSUPP; EPFNOSUPPORT; EAFNOSUPPORT; EADDRINUSE;
   EADDRNOTAVAIL; ENETDOWN; ENETUNREACH; ENETRESET; ECONNABORTED; ECONNRESET; ENOBUFS;
   EISCONN; ENOTCONN; ESHUTDOWN; ETOOMANYREFS; ETIMEDOUT; ECONNREFUSED; EHOSTDOWN;
   EHOSTUNREACH; EALREADY; EINPROGRESS; ESTALE; EUCLEAN; ENOTNAM; ENAVAIL; EISNAM; EREMOTEIO;
   EDQUOT; ENOMEDIUM; EMEDIUMTYPE; ECANCELED; ENOKEY; EKEYEXPIRED; EKEYREVOKED; EKEYREJECTED;
   EOWNERDEAD; ENOTRECOVERABLE].

(** ** System call numbers *)

Definition SYS_CLASS : Z := 0xF0000000.
Definition SYS_CLASS_PATH : Z := 0x10000000.
Definition SYS_CLASS_FILE : Z := 0x20000000.
Definition SYS_ARG : Z := 0x0F000000.
Definition SYS_ARG_SLICE : Z := 0x01000000.
Definition SYS_ARG_MSLICE : Z := 0x02000000.
Definition SYS_ARG_PATH : Z := 0x03000000.
Definition SYS_RET : Z := 0x00F00000.
Definition SYS_RET_FILE : Z := 0x00100000.
Definition SYS_LINK : Z := Z.lor (Z.lor SYS_CLASS_PATH SYS_ARG_PATH) 9.
Definition SYS_OPEN : Z := Z.lor (Z.lor SYS_CLASS_PATH SYS_RET_FILE) 5.
Definition SYS_RMDIR : Z := Z.lor SYS_CLASS_PATH 84.
Definition SYS_UNLINK : Z := Z.lor SYS_CLASS_PATH 10.
Definition SYS_CLOSE : Z := Z.lor SYS_CLASS_FILE 6.
Definition SYS_DUP : Z := Z.lor (Z.lor SYS_CLASS_FILE SYS_RET_FILE) 41.
Definition SYS_DUP2 : Z := Z.lor (Z.lor SYS_CLASS_FILE SYS_RET_FILE) 63.
Definition SYS_READ : Z := Z.lor (Z.lor SYS_CLASS_FILE SYS_ARG_MSLICE) 3.
Definition SYS_WRITE : Z := Z.lor (Z.lor SYS_CLASS_FILE SYS_ARG_SLICE) 4.
Definition SYS_LSEEK : Z := Z.lor SYS_CLASS_FILE 19.
Definition SYS_FCHMOD : Z := Z.lor SYS_CLASS_FILE 94.
Definition SYS_FCHOWN : Z := Z.lor SYS_CLASS_FILE 207.
Definition SYS_FCNTL : Z := Z.lor SYS_CLASS_FILE 55.
Definition SYS_FEVENT : Z := Z.lor SYS_CLASS_FILE 927.
Definition SYS_SENDFD : Z := Z.lor SYS_CLASS_FILE 34.
Definition SYS_FMAP_OLD : Z := Z.lor (Z.lor SYS_CLASS_FILE SYS_ARG_SLICE) 90.
Definition SYS_FMAP : Z := Z.lor (Z.lor SYS_CLASS_FILE SYS_ARG_SLICE) 900.
Definition SYS_FUNMAP_OLD : Z := Z.lor SYS_CLASS_FILE 91.
Definition SYS_FUNMAP : Z := Z.lor SYS_CLASS_FILE 92.
Definition SYS_MREMAP : Z := 155.
Definition SYS_FPATH : Z := Z.lor (Z.lor SYS_CLASS_FILE SYS_ARG_MSLICE) 928.
Definition SYS_FRENAME : Z := Z.lor (Z.lor SYS_CLASS_FILE SYS_ARG_PATH) 38.
Definition SYS_FSTAT : Z := Z.lor (Z.lor SYS_CLASS_FILE SYS_ARG_MSLICE) 28.
Definition SYS_FSTATVFS : Z := Z.lor (Z.lor SYS_CLASS_FILE SYS_ARG_MSLICE) 100.
Definition SYS_FSYNC : Z := Z.lor SYS_CLASS_FILE 118.
Definition SYS_FTRUNCATE : Z := Z.lor SYS_CLASS_FILE 93.
Definition SYS_FUTIMENS : Z := Z.lor (Z.lor SYS_CLASS_FILE SYS_ARG_SLICE) 320.
Definition KSMSG_MMAP : Z := Z.lor SYS_CLASS_FILE 72.
Definition KSMSG_MSYNC : Z := Z.lor SYS_CLASS_FILE 73.
Definition KSMSG_MUNMAP : Z := Z.lor SYS_CLASS_FILE 74.
Definition KSMSG_MMAP_PREP : Z := Z.lor SYS_CLASS_FILE 75.
Definition KSMSG_CANCEL : Z := Z.lor SYS_CLASS_FILE 76.
Definition SYS_CLOCK_GETTIME : Z := 265.
Definition SYS_EXIT : Z := 1.
Definition SYS_FUTEX : Z := 240.
Definition SYS_GETEGID : Z := 202.
Definition SYS_GETENS : Z := 951.
Definition SYS_GETEUID : Z := 201.
Definition SYS_GETGID : Z := 200.
Definition SYS_GETNS : Z := 950.
Definition SYS_GETPID : Z := 20.
Definition SYS_GETPGID : Z := 132.
Definition SYS_GETPPID : Z := 64.
Definition SYS_GETUID : Z := 199.
Definition SYS_IOPL : Z := 110.
Definition SYS_KILL : Z := 37.
Definition SYS_MPROTECT : Z := 125.
Definition SYS_MKNS : Z := 984.
Definition SYS_NANOSLEEP : Z := 162.
Definition SYS_VIRTTOPHYS : Z := 949.
Definition SYS_SETPGID : Z := 57.
Definition SYS_SETREGID : Z := 204.
Definition SYS_SETRENS : Z := 952.
Definition SYS_SETREUID : Z := 203.
Definition SYS_SIGACTION : Z := 67.
Definition SYS_SIGPROCMASK : Z := 126.
Definition SYS_SIGRETURN : Z := 119.
Definition SYS_UMASK : Z := 60.
Definition SYS_WAITPID : Z := 7.
Definition SYS_YIELD : Z := 158.

(** All call numbers. *)
Definition syscall_table : list Z :=
  [SYS_LINK; SYS_OPEN; SYS_RMDIR; SYS_UNLINK; SYS_CLOSE; SYS_DUP; SYS_DUP2; SYS_READ;
   SYS_WRITE; SYS_LSEEK; SYS_FCHMOD; SYS_FCHOWN; SYS_FCNTL; SYS_FEVENT; SYS_SENDFD;
   SYS_FMAP_OLD; SYS_FMAP; SYS_FUNMAP_OLD; SYS_FUNMAP; SYS_MREMAP; SYS_FPATH; SYS_FRENAME;
   SYS_FSTAT; SYS_FSTATVFS; SYS_FSYNC; SYS_FTRUNCATE; SYS_FUTIMENS; KSMSG_MMAP; KSMSG_MSYNC;
   KSMSG_MUNMAP; KSMSG_MMAP_PREP; KSMSG_CANCEL; SYS_CLOCK_GETTIME; SYS_EXIT; SYS_FUTEX;
   SYS_GETEGID; SYS_GETENS; SYS_GETEUID; SYS_GETGID; SYS_GETNS; SYS_GETPID; SYS_GETPGID;
   SYS_GETPPID; SYS_GETUID; SYS_IOPL; SYS_KILL; SYS_MPROTECT; SYS_MKNS; SYS_NANOSLEEP;
   SYS_VIRTTOPHYS; SYS_SETPGID; SYS_SETREGID; SYS_SETRENS; SYS_SETREUID; SYS_SIGACTION;
   SYS_SIGPROCMASK; SYS_SIGRETURN; SYS_UMASK; SYS_WAITPID; SYS_YIELD].

(** ** Signals *)

Definition SIGHUP : Z := 1.
Definition SIGINT : Z := 2.
Definition SIGQUIT : Z := 3.
Definition SIGILL : Z := 4.
Definition SIGTRAP : Z := 5.
Definition SIGABRT : Z := 6.
Definition SIGBUS : Z := 7.
Definition SIGFPE : Z := 8.
Definition SIGKILL : Z := 9.
Definition SIGUSR1 : Z := 10.
Definition SIGSEGV : Z := 11.
Definition SIGUSR2 : Z := 12.
Definition SIGPIPE : Z := 13.
Definition SIGALRM : Z := 14.
Definition SIGTERM : Z := 15.
Definition SIGSTKFLT : Z := 16.
Definition SIGCHLD : Z := 17.
Definition SIGCONT : Z := 18.
Definition SIGSTOP : Z := 19.
Definition SIGTSTP : Z := 20.
Definition SIGTTIN : Z := 21.
Definition SIGTTOU : Z := 22.
Definition SIGURG : Z := 23.
Definition SIGXCPU : Z := 24.
Definition SIGXFSZ : Z := 25.
Definition SIGVTALRM : Z := 26.
Definition SIGPROF : Z := 27.
Definition SIGWINCH : Z := 28.
Definition SIGIO : Z := 29.
Definition SIGPWR : Z := 30.
Definition SIGSYS : Z := 31.

(** All signals. *)
Definition signal_table : list Z :=
  [SIGHUP; SIGINT; SIGQUIT; SIGILL; SIGTRAP; SIGABRT; SIGBUS; SIGFPE; SIGKILL; SIGUSR1;
   SIGSEGV; SIGUSR2; SIGPIPE; SIGALRM; SIGTERM; SIGSTKFLT; SIGCHLD; SIGCONT; SIGSTOP; SIGTSTP;
   SIGTTIN; SIGTTOU; SIGURG; SIGXCPU; SIGXFSZ; SIGVTALRM; SIGPROF; SIGWINCH; SIGIO; SIGPWR;
   SIGSYS].

(** ** The registers of a system call *)

(** The six registers [syscall5] loads; [rax] also carries the result. *)
Record SyscallRegs : Type := mkSyscallRegs {
  sc_rax : Z; sc_rdi : Z; sc_rsi : Z; sc_rdx : Z; sc_r10 : Z; sc_r8 : Z
}.

(** The operands of the [syscall] instruction: those a macro instance does
    not mention keep what the registers held before. *)
Definition syscall_operands (before : SyscallRegs) (args : list Z) : SyscallRegs :=
  mkSyscallRegs
    (default (sc_rax before) (args !! 0%nat)) (default (sc_rdi before) (args !! 1%nat))
    (default (sc_rsi before) (args !! 2%nat)) (default (sc_rdx before) (args !! 3%nat))
    (default (sc_r10 before) (args !! 4%nat)) (default (sc_r8 before) (args !! 5%nat)).

(** [syscallN(a, b, ..)]: [instr] is what executing the instruction leaves in
    [rax]. *)
Definition syscall_n (instr : SyscallRegs -> Z) (before : SyscallRegs) (args : list Z) : KResult Z :=
  demux (instr (syscall_operands before args)).

(** [syscall::write]; [buf] is the slice's address and length. *)
Definition vdso_write (instr : SyscallRegs -> Z) (before : SyscallRegs) (fd : Z) (buf : Z * Z)
  : KResult Z :=
  syscall_n instr before [SYS_WRITE; fd; buf.1; buf.2].

(** ** Properties *)

Lemma mux_errno e :
  e ∈ errno_table -> mux (inr (mkKError e)) = Done (2 ^ 64 - e) /\ 1 <= e <= 4095.
Proof.
  assert (Hr : Forall (fun e => 1 <= e <= 4095) errno_table)
    by (apply (bool_decide_unpack _); by vm_compute).
  intros He. eapply Forall_forall in Hr; [|done]. split; [|done].
  unfold mux. simpl. rewrite (proj2 (Z.eqb_neq _ _)) by lia.
  f_equal. unfold wrap. symmetry. apply (Z.mod_unique_pos _ _ (-1)); lia.
Qed.

(** Every error number is between 1 and 4095, so an error travels as one
    of the 4095 highest register values, different errors as different
    values, and the number can be read back from the value. *)
Theorem mux_errors :
  NoDup errno_table /\
  forall e, e ∈ errno_table ->
    mux (inr (mkKError e)) = Done (2 ^ 64 - e) /\ 2 ^ 64 - 4095 <= 2 ^ 64 - e < 2 ^ 64.
Proof.
  split; [by apply (bool_decide_unpack _); vm_compute|].
  intros e [Hm Hb]%mux_errno. split; [done|lia].
Qed.

(** [demux] never reports an error: a call that failed in the kernel with
    any error number looks successful to the caller. *)
Theorem demux_loses_errors e :
  e ∈ errno_table ->
  exists v, mux (inr (mkKError e)) = Done v /\ demux v = inl (2 ^ 64 - e).
Proof. intros [-> _]%mux_errno. eauto. Qed.

Lemma demux_loses_errors_witness :
  exists v, mux (inr (mkKError EFAULT)) = Done v /\ demux v = inl (2 ^ 64 - 14).
Proof. apply (demux_loses_errors EFAULT). apply (bool_decide_unpack _). by vm_compute. Defined.

(** The call numbers are distinct, and each is made of a class, an argument
    kind, a result kind and a number below 1024. *)
Theorem syscall_numbers_wf :
  NoDup syscall_table /\
  Forall (fun n => n = Z.lor (Z.lor (Z.land n SYS_CLASS) (Z.land n SYS_ARG))
                        (Z.lor (Z.land n SYS_RET) (Z.land n 1023))) syscall_table.
Proof. split; apply (bool_decide_unpack _); by vm_compute. Qed.
