(* ===== verification/Paging.v ===== *)
(** * Page tables of the [x86_64] crate

    The interface of [OffsetPageTable] (the traits [Mapper<Size4KiB>],
    [Mapper<Size1GiB>] and [Translate]) that the bootloader and the kernel
    call.  A page table is an abstract type; the laws of [MapperSpec] relate
    the operations to the set of mappings it holds.  [map_to] takes frames for
    new sub-tables from the frame allocator it is given, so the allocator is
    an argument, and the laws say how it may be used. *)

From S2P Require Import Prelude Platform.

(** ** Page table flags *)

(** [x86_64::structures::paging::PageTableFlags], a bit set over [u64]. *)
Class PtFlags : Type := {
  PT_PRESENT : Z;
  PT_WRITABLE : Z;
  PT_USER_ACCESSIBLE : Z;
  PT_BIT_9 : Z;
  PT_NO_EXECUTE : Z
}.

(** The bits of a page table entry the architecture assigns to them. *)
Class PtFlagsSpec (F : PtFlags) : Prop := {
  PT_PRESENT_bit : PT_PRESENT = 2 ^ 0;
  PT_WRITABLE_bit : PT_WRITABLE = 2 ^ 1;
  PT_USER_ACCESSIBLE_bit : PT_USER_ACCESSIBLE = 2 ^ 2;
  PT_BIT_9_bit : PT_BIT_9 = 2 ^ 9;
  PT_NO_EXECUTE_bit : PT_NO_EXECUTE = 2 ^ 63
}.

Definition pt_flags_model : PtFlags := {|
  PT_PRESENT := 2 ^ 0;
  PT_WRITABLE := 2 ^ 1;
  PT_USER_ACCESSIBLE := 2 ^ 2;
  PT_BIT_9 := 2 ^ 9;
  PT_NO_EXECUTE := 2 ^ 63
|}.

Lemma pt_flags_model_spec : PtFlagsSpec pt_flags_model.
Proof. by constructor. Qed.

(** [flags.contains(f)], [flags | f] and [flags & !f]. *)
Definition flags_contain (flags f : Z) : bool := Z.land flags f =? f.
Definition flags_or (flags f : Z) : Z := Z.lor flags f.
Definition flags_without (flags f : Z) : Z := Z.ldiff flags f.

(** ** Frame allocators *)

(** [FrameAllocator::allocate_frame] over an allocator of type [A]. *)
Definition frame_source (A : Type) : Type := A -> outcome (option Z * A).

(** [allocs alloc a fs a']: successful allocations of [fs], in order, lead
    from [a] to [a']. *)
Inductive allocs {A} (alloc : frame_source A) : A -> list Z -> A -> Prop :=
| allocs_nil a : allocs alloc a [] a
| allocs_cons a f a1 fs a2 :
    alloc a = Done (Some f, a1) -> allocs alloc a1 fs a2 -> allocs alloc a (f :: fs) a2.

Lemma allocs_app {A} (alloc : frame_source A) a fs a1 gs a2 :
  allocs alloc a fs a1 -> allocs alloc a1 gs a2 -> allocs alloc a (fs ++ gs) a2.
Proof. induction 1; intros; simpl; [done|]. econstructor; eauto. Qed.

Lemma allocs_one {A} (alloc : frame_source A) a f a1 :
  alloc a = Done (Some f, a1) -> allocs alloc a [f] a1.
Proof. intros. econstructor; [done|constructor]. Qed.

(** ** The interface *)

(** [MappedFrame] and [TranslateResult]; a frame is its start address. *)
Inductive MappedFrame : Type :=
| Frame4KiB (frame : Z)
| Frame2MiB (frame : Z)
| Frame1GiB (frame : Z).

Inductive TranslateResult : Type :=
| Mapped (frame : MappedFrame) (offset flags : Z)
| NotMapped
| InvalidFrameAddress.

(** [MapToError]. *)
Inductive MapToError : Type :=
| FrameAllocationFailed
| ParentEntryHugePage
| PageAlreadyMapped.

Class Mapper (PT : Type) : Type := {
  (** [OffsetPageTable::new] over a zeroed level-4 table *)
  pt_empty : PT;
  (** [Mapper::<Size4KiB>::map_to]: page, frame, flags *)
  map_to {A} : frame_source A -> PT -> Z -> Z -> Z -> A ->
    outcome ((unit + MapToError) * PT * A);
  (** [Mapper::<Size1GiB>::map_to] *)
  map_to_1gib {A} : frame_source A -> PT -> Z -> Z -> Z -> A ->
    outcome ((unit + MapToError) * PT * A);
  (** [Mapper::unmap]: the frame that was mapped, [None] for an error *)
  unmap : PT -> Z -> option Z * PT;
  (** [Mapper::update_flags]: whether the page was mapped *)
  update_flags : PT -> Z -> Z -> bool * PT;
  (** [Translate::translate] *)
  translate : PT -> Z -> TranslateResult
}.

(** The start of the 1 GiB page around an address. *)
Definition gib_base (a : Z) : Z := a - a mod 2 ^ 30.

(** The ways a mapping operation that needs sub-tables can end: it used at
    most [n] frames and returned [ok], or the allocator ran dry or panicked. *)
Definition mapping_outcome {A PT} (n : nat) (alloc : frame_source A) (a : A)
    (ok : PT -> Prop) (r : outcome ((unit + MapToError) * PT * A)) : Prop :=
  (exists fs pt' a', (length fs <= n)%nat /\ allocs alloc a fs a' /\
     r = Done (inl tt, pt', a') /\ ok pt') \/
  (exists fs a1, (length fs < n)%nat /\ allocs alloc a fs a1 /\
     ((exists pt' a2, alloc a1 = Done (None, a2) /\ r = Done (inr FrameAllocationFailed, pt', a2)) \/
      (alloc a1 = Panic /\ r = Panic) \/ (alloc a1 = OutOfFuel /\ r = OutOfFuel))).

Class MapperSpec (PT : Type) (M : Mapper PT) : Type := {
  (** the 4 KiB mappings of a table: page to frame and flags *)
  pt_view : PT -> gmap Z (Z * Z);
  (** its 1 GiB mappings *)
  pt_huge : PT -> gmap Z (Z * Z);
  pt_empty_view : pt_view pt_empty = ∅;
  pt_empty_huge : pt_huge pt_empty = ∅;
  (** a page is mapped at most once, needing up to three sub-tables *)
  map_to_free A (alloc : frame_source A) pt page frame flags a :
    (PAGE_SIZE | page) -> (PAGE_SIZE | frame) ->
    pt_view pt !! page = None -> pt_huge pt !! gib_base page = None ->
    mapping_outcome 3 alloc a
      (fun pt' => pt_view pt' = <[page := (frame, flags)]> (pt_view pt) /\ pt_huge pt' = pt_huge pt)
      (map_to alloc pt page frame flags a);
  map_to_mapped A (alloc : frame_source A) pt page frame flags a x :
    pt_view pt !! page = Some x ->
    map_to alloc pt page frame flags a = Done (inr PageAlreadyMapped, pt, a);
  map_to_1gib_free A (alloc : frame_source A) pt page frame flags a :
    (2 ^ 30 | page) -> (2 ^ 30 | frame) -> pt_huge pt !! page = None ->
    (forall p x, pt_view pt !! p = Some x -> gib_base p <> page) ->
    mapping_outcome 1 alloc a
      (fun pt' => pt_view pt' = pt_view pt /\ pt_huge pt' = <[page := (frame, flags)]> (pt_huge pt))
      (map_to_1gib alloc pt page frame flags a);
  unmap_mapped pt page frame flags :
    pt_view pt !! page = Some (frame, flags) ->
    exists pt', unmap pt page = (Some frame, pt') /\
      pt_view pt' = delete page (pt_view pt) /\ pt_huge pt' = pt_huge pt;
  update_flags_mapped pt page frame flags flags' :
    pt_view pt !! page = Some (frame, flags) ->
    exists pt', update_flags pt page flags' = (true, pt') /\
      pt_view pt' = <[page := (frame, flags')]> (pt_view pt) /\ pt_huge pt' = pt_huge pt;
  translate_mapped pt page frame flags o :
    (PAGE_SIZE | page) -> 0 <= o < PAGE_SIZE ->
    pt_view pt !! page = Some (frame, flags) -> pt_huge pt !! gib_base page = None ->
    translate pt (page + o) = Mapped (Frame4KiB frame) o flags;
  translate_huge pt page frame flags o :
    (2 ^ 30 | page) -> 0 <= o < 2 ^ 30 -> pt_huge pt !! page = Some (frame, flags) ->
    translate pt (page + o) = Mapped (Frame1GiB frame) o flags;
  translate_unmapped pt page o :
    (PAGE_SIZE | page) -> 0 <= o < PAGE_SIZE ->
    pt_view pt !! page = None -> pt_huge pt !! gib_base page = None ->
    translate pt (page + o) = NotMapped
}.

(** What a client of a frame allocator relies on: the frames it has yet to
    hand out, in order, aligned and without overlap.  Once they are used up a
    request is refused; nothing is promised after that. *)
Class FrameSourceSpec {A : Type} (alloc : frame_source A) : Type := {
  fs_inv : A -> Prop;
  fs_frames : A -> list Z;
  fs_alloc a : fs_inv a -> fs_frames a <> [] -> exists a', alloc a = Done (head (fs_frames a), a') /\
    fs_frames a' = tail (fs_frames a) /\ fs_inv a';
  fs_none a : fs_inv a -> fs_frames a = [] -> exists a', alloc a = Done (None, a');
  fs_aligned a : fs_inv a -> Forall (fun f => (PAGE_SIZE | f)) (fs_frames a);
  fs_increasing a : fs_inv a -> StronglySorted (fun f g => f + PAGE_SIZE <= g) (fs_frames a)
}.

Section Supply.
Context {A : Type} {alloc : frame_source A} {AS : FrameSourceSpec alloc}.

Lemma fs_allocs a fs a' :
  fs_inv a -> allocs alloc a fs a' ->
  fs_frames a' = drop (length fs) (fs_frames a) /\ fs_inv a'.
Proof.
  intros Hinv H. induction H as [a|a f a1 fs a2 Hf H IH]; [by rewrite drop_0|].
  destruct (fs_frames a) as [|g l] eqn:Hfr; [destruct (fs_none a Hinv Hfr) as (a' & Ha); congruence|].
  destruct (fs_alloc a Hinv) as (a' & Ha & Ht & Hinv'); [by rewrite Hfr|]. rewrite Ha in Hf.
  injection Hf as Hf <-. destruct (IH Hinv') as [-> ?]. split; [|done]. by rewrite Ht, Hfr.
Qed.

Lemma fs_NoDup a fs : fs_inv a -> fs `sublist_of` fs_frames a -> NoDup fs.
Proof.
  intros Hinv Hs. eapply sublist_NoDup; [|exact Hs].
  eapply StronglySorted_NoDup; [|by apply fs_increasing]. intros f. page_lia.
Qed.

(** With enough frames left a mapping operation succeeds. *)
Lemma mapping_outcome_supply {PT} n a (ok : PT -> Prop) r :
  fs_inv a -> (n <= length (fs_frames a))%nat -> mapping_outcome n alloc a ok r ->
  exists k pt' a', (k <= n)%nat /\ r = Done (inl tt, pt', a') /\ ok pt' /\
    fs_frames a' = drop k (fs_frames a) /\ fs_inv a'.
Proof.
  intros Hinv Hn [(fs & pt' & a' & Hl & Hal & -> & Hok)|(fs & a1 & Hl & Hal & Hbad)].
  - destruct (fs_allocs a fs a' Hinv Hal). by exists (length fs), pt', a'.
  - destruct (fs_allocs a fs a1 Hinv Hal) as [Hd Hinv1].
    exfalso. destruct (fs_frames a1) as [|f l] eqn:Hfr.
    + apply (f_equal length) in Hd. rewrite length_drop in Hd. simpl in Hd. lia.
    + destruct (fs_alloc a1 Hinv1) as (a2 & Ha & _); [by rewrite Hfr|]. rewrite Hfr in Ha. simpl in Ha. rewrite Ha in Hbad.
      by destruct Hbad as [(? & ? & [=] & _)|[[[=] _]|[[=] _]]].
Qed.
End Supply.

(** ** Mapping runs of pages *)

(** [v'] is [v] with the [n] pages from [sp] on mapped as [g] says. *)
Definition pages_mapped (v v' : gmap Z (Z * Z)) (sp : Z) (n : nat) (g : nat -> Z * Z) : Prop :=
  (forall j, (j < n)%nat -> v' !! (sp + PAGE_SIZE * Z.of_nat j) = Some (g j)) /\
  (forall p, (forall j, (j < n)%nat -> p <> sp + PAGE_SIZE * Z.of_nat j) -> v' !! p = v !! p).

Lemma pages_mapped_S v v1 v2 sp n g :
  v1 = <[sp := g 0%nat]> v ->
  pages_mapped v1 v2 (sp + PAGE_SIZE) n (fun j => g (S j)) ->
  pages_mapped v v2 sp (S n) g.
Proof.
  intros -> [Hin Hout]. split.
  - intros [|j] Hj.
    + rewrite Z.mul_0_r, Z.add_0_r, Hout by (intros; page_lia). apply lookup_insert_eq.
    + rewrite <- (Hin j) by lia. f_equal. page_lia.
  - intros p Hp. rewrite Hout.
    + apply lookup_insert_ne. pose proof (Hp 0%nat ltac:(lia)). lia.
    + intros j Hj. pose proof (Hp (S j) ltac:(lia)). page_lia.
Qed.

Lemma pages_mapped_ext v v' sp n g g' :
  (forall j, g j = g' j) -> pages_mapped v v' sp n g -> pages_mapped v v' sp n g'.
Proof. intros Hg [Hin Hout]. split; [|done]. intros j Hj. rewrite <- Hg. by apply Hin. Qed.

(** ** An instance: the mappings themselves *)

Record map_table : Type := mkMapTable {
  mt_view : gmap Z (Z * Z);
  mt_huge : gmap Z (Z * Z)
}.

Definition map_table_mapper : Mapper map_table := {|
  pt_empty := mkMapTable ∅ ∅;
  map_to A alloc pt page frame flags a :=
    match mt_view pt !! page with
    | Some _ => Done (inr PageAlreadyMapped, pt, a)
    | None => Done (inl tt, mkMapTable (<[page := (frame, flags)]> (mt_view pt)) (mt_huge pt), a)
    end;
  map_to_1gib A alloc pt page frame flags a :=
    match mt_huge pt !! page with
    | Some _ => Done (inr PageAlreadyMapped, pt, a)
    | None => Done (inl tt, mkMapTable (mt_view pt) (<[page := (frame, flags)]> (mt_huge pt)), a)
    end;
  unmap pt page :=
    match mt_view pt !! page with
    | Some (frame, _) => (Some frame, mkMapTable (delete page (mt_view pt)) (mt_huge pt))
    | None => (None, pt)
    end;
  update_flags pt page flags' :=
    match mt_view pt !! page with
    | Some (frame, _) => (true, mkMapTable (<[page := (frame, flags')]> (mt_view pt)) (mt_huge pt))
    | None => (false, pt)
    end;
  translate pt addr :=
    match mt_huge pt !! gib_base addr with
    | Some (frame, flags) => Mapped (Frame1GiB frame) (addr mod 2 ^ 30) flags
    | None =>
        match mt_view pt !! (addr - addr mod PAGE_SIZE) with
        | Some (frame, flags) => Mapped (Frame4KiB frame) (addr mod PAGE_SIZE) flags
        | None => NotMapped
        end
    end
|}.

(** Splitting an address into page and offset. *)
Lemma aligned_offset k page o : 0 < k -> (k | page) -> 0 <= o < k -> (page + o) mod k = o.
Proof. intros Hk [q ->] Ho. rewrite Z.add_comm, Z.mod_add, Z.mod_small by lia. done. Qed.

Lemma gib_base_page page o :
  (PAGE_SIZE | page) -> 0 <= o < PAGE_SIZE -> gib_base (page + o) = gib_base page.
Proof.
  intros [q ->] Ho. unfold gib_base. change (2 ^ 30) with (PAGE_SIZE * 2 ^ 18).
  rewrite !Z.rem_mul_r by (done || lia).
  rewrite Z.mod_mul, Z.div_mul, Z.div_add_l, Z.div_small, Z.add_0_r by (done || lia).
  rewrite (Z.add_comm _ o), Z.mod_add, Z.mod_small by (done || lia). lia.
Qed.

Definition map_table_mapper_spec : MapperSpec map_table map_table_mapper.
Proof.
  refine {| pt_view := mt_view; pt_huge := mt_huge |}; try done; simpl.
  - intros A alloc pt page frame flags a _ _ -> _. left. by eexists [], _, a; split_and!; [simpl; lia|constructor|..].
  - intros A alloc pt page frame flags a x ->. done.
  - intros A alloc pt page frame flags a _ _ -> _. left. by eexists [], _, a; split_and!; [simpl; lia|constructor|..].
  - intros pt page frame flags ->. eauto.
  - intros pt page frame flags flags' ->. eauto.
  - intros pt page frame flags o Hp Ho Hv Hh. rewrite gib_base_page, Hh by done.
    rewrite (aligned_offset PAGE_SIZE) by done. replace (page + o - o) with page by lia. by rewrite Hv.
  - intros pt page frame flags o Hp Ho Hh. unfold gib_base.
    rewrite aligned_offset by done. replace (page + o - o) with page by lia. by rewrite Hh.
  - intros pt page o Hp Ho Hv Hh. rewrite gib_base_page, Hh by done.
    rewrite (aligned_offset PAGE_SIZE) by done. replace (page + o - o) with page by lia. by rewrite Hv.
Defined.

(** ** A source that hands out a list of frames *)

Definition list_source : frame_source (list Z) := fun l => Done (head l, tail l).

#[export] Instance list_source_spec : FrameSourceSpec list_source.
Proof.
  refine {| fs_inv l := Forall (fun f => (PAGE_SIZE | f)) l /\
      StronglySorted (fun f g => f + PAGE_SIZE <= g) l; fs_frames l := l |}.
  - intros l [Ha Hs] _. exists (tail l). split; [done|]. split; [done|].
    destruct l; [split; constructor|]. split; [by inversion Ha|by inversion Hs].
  - intros l _ ->. by eexists.
  - by intros l [].
  - by intros l [].
Defined.

Lemma frame_list_source n : fs_inv (FrameSourceSpec := list_source_spec) (frame_list 0x200000 n).
Proof.
  split; [|by apply stride_sorted]. apply Forall_forall. intros f Hf.
  apply elem_of_stride in Hf as (i & _ & ->). apply Z.divide_add_r; [by exists 512|apply Z.divide_factor_l].
Qed.
