(* ===== verification/KPaging.v ===== *)
(** * Page tables that share sub-tables

    The kernel builds one level-4 table per address space and copies entries
    of the kernel's own table into it, so that the tables share the level-3
    tables behind those entries.  This file is the interface of the [x86_64]
    crate at that level of detail: a store of page tables, named by the frames
    they live in, and the operations of [OffsetPageTable] (with physical
    offset 0) on the level-4 table in a given frame. *)

From S2P Require Import Prelude Platform Paging.

(** Index of a page in the level-4 table, and its offset below that entry. *)
Definition p4_of (page : Z) : Z := (page / 2 ^ 39) mod 512.
Definition below_p4 (page : Z) : Z := page mod 2 ^ 39.

Class TableStore (T : Type) : Type := {
  (** [ptr.write(PageTable::new())] at a frame *)
  ts_new_table : T -> Z -> T;
  (** [Mapper::<Size4KiB>::map_to]: root, page, frame, flags *)
  ts_map_to {A} : frame_source A -> T -> Z -> Z -> Z -> Z -> A ->
    outcome ((unit + MapToError) * T * A);
  ts_unmap : T -> Z -> Z -> option Z * T;
  ts_update_flags : T -> Z -> Z -> Z -> bool * T;
  ts_translate : T -> Z -> Z -> TranslateResult;
  (** [Mapper::<Size4KiB>::translate_page]: [None] for an error, a huge parent
      entry included *)
  ts_translate_page : T -> Z -> Z -> option Z;
  (** [dst[j] = src[i].clone()] on two level-4 tables, or within one *)
  ts_copy_p4 : T -> Z -> Z -> Z -> Z -> T;
  (** [dst[j] = src[k].clone()] on the level-3 tables behind entry [i] of the
      first and entry [l] of the second level-4 table *)
  ts_copy_p3 : T -> Z -> Z -> Z -> Z -> Z -> Z -> T
}.

(** The laws are for programs that map no page in a 1 GiB entry that two
    level-3 tables have come to share. *)
Class TableStoreSpec (T : Type) (O : TableStore T) : Type := {
  (** the level-3 table behind an entry of a level-4 table *)
  ts_p4 : T -> Z -> Z -> option Z;
  (** the 4 KiB and the 1 GiB mappings below a level-3 table *)
  ts_pages : T -> Z -> gmap Z (Z * Z);
  ts_gibs : T -> Z -> gmap Z (Z * Z);
  ts_new_table_p4 t f root i :
    ts_p4 (ts_new_table t f) root i = if decide (root = f) then None else ts_p4 t root i;
  ts_new_table_pages t f s : s <> f -> ts_pages (ts_new_table t f) s = ts_pages t s;
  ts_new_table_gibs t f s : s <> f -> ts_gibs (ts_new_table t f) s = ts_gibs t s;
  (** below an entry that is present, the level-3 table is changed in place *)
  ts_map_to_present A (alloc : frame_source A) t root page frame flags a s :
    (PAGE_SIZE | page) -> (PAGE_SIZE | frame) -> ts_p4 t root (p4_of page) = Some s ->
    ts_pages t s !! below_p4 page = None -> ts_gibs t s !! gib_base (below_p4 page) = None ->
    mapping_outcome 2 alloc a
      (fun t' => (forall r i, ts_p4 t' r i = ts_p4 t r i) /\
        (forall s', ts_pages t' s' = if decide (s' = s)
           then <[below_p4 page := (frame, flags)]> (ts_pages t s) else ts_pages t s') /\
        (forall s', ts_gibs t' s' = ts_gibs t s'))
      (ts_map_to alloc t root page frame flags a);
  (** otherwise the first frame allocated becomes the level-3 table *)
  ts_map_to_absent A (alloc : frame_source A) t root page frame flags a :
    (PAGE_SIZE | page) -> (PAGE_SIZE | frame) -> ts_p4 t root (p4_of page) = None ->
    mapping_outcome 3 alloc a
      (fun t' => exists s a1, alloc a = Done (Some s, a1) /\
        (forall r i, ts_p4 t' r i =
           if decide (r = root /\ i = p4_of page) then Some s else ts_p4 t r i) /\
        (forall s', ts_pages t' s' = if decide (s' = s)
           then {[ below_p4 page := (frame, flags) ]} else ts_pages t s') /\
        (forall s', ts_gibs t' s' = if decide (s' = s) then ∅ else ts_gibs t s'))
      (ts_map_to alloc t root page frame flags a);
  ts_map_to_mapped A (alloc : frame_source A) t root page frame flags a s x :
    ts_p4 t root (p4_of page) = Some s -> ts_gibs t s !! gib_base (below_p4 page) = None ->
    ts_pages t s !! below_p4 page = Some x ->
    ts_map_to alloc t root page frame flags a = Done (inr PageAlreadyMapped, t, a);
  ts_map_to_gib A (alloc : frame_source A) t root page frame flags a s x :
    ts_p4 t root (p4_of page) = Some s -> ts_gibs t s !! gib_base (below_p4 page) = Some x ->
    ts_map_to alloc t root page frame flags a = Done (inr ParentEntryHugePage, t, a);
  ts_translate_page_spec t root page :
    (PAGE_SIZE | page) ->
    ts_translate_page t root page =
      match ts_p4 t root (p4_of page) with
      | Some s => match ts_gibs t s !! gib_base (below_p4 page) with
                  | Some _ => None
                  | None => fst <$> ts_pages t s !! below_p4 page
                  end
      | None => None
      end;
  ts_translate_spec t root page o :
    (PAGE_SIZE | page) -> 0 <= o < PAGE_SIZE ->
    ts_translate t root (page + o) =
      match ts_p4 t root (p4_of page) with
      | Some s =>
          match ts_gibs t s !! gib_base (below_p4 page) with
          | Some (frame, flags) =>
              Mapped (Frame1GiB frame) (below_p4 page - gib_base (below_p4 page) + o) flags
          | None =>
              match ts_pages t s !! below_p4 page with
              | Some (frame, flags) => Mapped (Frame4KiB frame) o flags
              | None => NotMapped
              end
          end
      | None => NotMapped
      end;
  ts_unmap_spec t root page s frame flags :
    ts_p4 t root (p4_of page) = Some s -> ts_gibs t s !! gib_base (below_p4 page) = None ->
    ts_pages t s !! below_p4 page = Some (frame, flags) ->
    exists t', ts_unmap t root page = (Some frame, t') /\
      (forall r i, ts_p4 t' r i = ts_p4 t r i) /\
      (forall s', ts_pages t' s' = if decide (s' = s)
         then delete (below_p4 page) (ts_pages t s) else ts_pages t s') /\
      (forall s', ts_gibs t' s' = ts_gibs t s');
  ts_update_flags_spec t root page s frame flags flags' :
    ts_p4 t root (p4_of page) = Some s -> ts_gibs t s !! gib_base (below_p4 page) = None ->
    ts_pages t s !! below_p4 page = Some (frame, flags) ->
    exists t', ts_update_flags t root page flags' = (true, t') /\
      (forall r i, ts_p4 t' r i = ts_p4 t r i) /\
      (forall s', ts_pages t' s' = if decide (s' = s)
         then <[below_p4 page := (frame, flags')]> (ts_pages t s) else ts_pages t s') /\
      (forall s', ts_gibs t' s' = ts_gibs t s');
  ts_copy_p4_spec t dst j src i :
    (forall r n, ts_p4 (ts_copy_p4 t dst j src i) r n =
       if decide (r = dst /\ n = j) then ts_p4 t src i else ts_p4 t r n) /\
    (forall s, ts_pages (ts_copy_p4 t dst j src i) s = ts_pages t s) /\
    (forall s, ts_gibs (ts_copy_p4 t dst j src i) s = ts_gibs t s);
  ts_copy_p3_spec t dst i j src l k d s :
    ts_p4 t dst i = Some d -> ts_p4 t src l = Some s ->
    let t' := ts_copy_p3 t dst i j src l k in
    (forall r n, ts_p4 t' r n = ts_p4 t r n) /\
    (forall s' p, ts_pages t' s' !! p = if decide (s' = d /\ p / 2 ^ 30 = j)
       then ts_pages t s !! (p - j * 2 ^ 30 + k * 2 ^ 30) else ts_pages t s' !! p) /\
    (forall s' p, ts_gibs t' s' !! p = if decide (s' = d /\ p = j * 2 ^ 30)
       then ts_gibs t s !! (k * 2 ^ 30) else ts_gibs t s' !! p)
}.

(** ** An instance *)

Record gmap_store : Type := mkStore {
  gs_p4 : gmap (Z * Z) Z;
  gs_pages : gmap Z (gmap Z (Z * Z));
  gs_gibs : gmap Z (gmap Z (Z * Z))
}.

Definition gs_pages_of (t : gmap_store) (s : Z) : gmap Z (Z * Z) := default ∅ (gs_pages t !! s).
Definition gs_gibs_of (t : gmap_store) (s : Z) : gmap Z (Z * Z) := default ∅ (gs_gibs t !! s).

Definition gs_map_to {A} (alloc : frame_source A) (t : gmap_store) (root page frame flags : Z) (a : A)
  : outcome ((unit + MapToError) * gmap_store * A) :=
  match gs_p4 t !! (root, p4_of page) with
  | Some s =>
      match gs_gibs_of t s !! gib_base (below_p4 page), gs_pages_of t s !! below_p4 page with
      | Some _, _ => Done (inr ParentEntryHugePage, t, a)
      | None, Some _ => Done (inr PageAlreadyMapped, t, a)
      | None, None =>
          Done (inl tt, mkStore (gs_p4 t)
            (<[s := <[below_p4 page := (frame, flags)]> (gs_pages_of t s)]> (gs_pages t)) (gs_gibs t), a)
      end
  | None =>
      r ← alloc a;
      match r.1 with
      | None => Done (inr FrameAllocationFailed, t, r.2)
      | Some s =>
          Done (inl tt, mkStore (<[(root, p4_of page) := s]> (gs_p4 t))
            (<[s := {[ below_p4 page := (frame, flags) ]}]> (gs_pages t)) (<[s := ∅]> (gs_gibs t)), r.2)
      end
  end.

Definition gs_find (t : gmap_store) (root page : Z) : option (Z * (Z * Z)) :=
  s ← gs_p4 t !! (root, p4_of page); x ← gs_pages_of t s !! below_p4 page; Some (s, x).

Definition gs_set_pages (t : gmap_store) (s : Z) (m : gmap Z (Z * Z)) : gmap_store :=
  mkStore (gs_p4 t) (<[s := m]> (gs_pages t)) (gs_gibs t).

Definition gmap_store_ops : TableStore gmap_store := {|
  ts_new_table t f := mkStore (filter (fun kv => kv.1.1 <> f) (gs_p4 t)) (gs_pages t) (gs_gibs t);
  ts_map_to A := gs_map_to;
  ts_unmap t root page :=
    match gs_find t root page with
    | Some (s, (frame, _)) => (Some frame, gs_set_pages t s (delete (below_p4 page) (gs_pages_of t s)))
    | None => (None, t)
    end;
  ts_update_flags t root page flags' :=
    match gs_find t root page with
    | Some (s, (frame, _)) =>
        (true, gs_set_pages t s (<[below_p4 page := (frame, flags')]> (gs_pages_of t s)))
    | None => (false, t)
    end;
  ts_translate t root addr :=
    let page := addr - addr mod PAGE_SIZE in
    match gs_p4 t !! (root, p4_of page) with
    | Some s =>
        match gs_gibs_of t s !! gib_base (below_p4 page) with
        | Some (frame, flags) =>
            Mapped (Frame1GiB frame) (below_p4 page - gib_base (below_p4 page) + addr mod PAGE_SIZE) flags
        | None =>
            match gs_pages_of t s !! below_p4 page with
            | Some (frame, flags) => Mapped (Frame4KiB frame) (addr mod PAGE_SIZE) flags
            | None => NotMapped
            end
        end
    | None => NotMapped
    end;
  ts_translate_page t root page :=
    match gs_p4 t !! (root, p4_of page) with
    | Some s => match gs_gibs_of t s !! gib_base (below_p4 page) with
                | Some _ => None
                | None => fst <$> gs_pages_of t s !! below_p4 page
                end
    | None => None
    end;
  ts_copy_p4 t dst j src i :=
    mkStore (partial_alter (fun _ => gs_p4 t !! (src, i)) (dst, j) (gs_p4 t)) (gs_pages t) (gs_gibs t);
  ts_copy_p3 t dst i j src l k :=
    match gs_p4 t !! (dst, i), gs_p4 t !! (src, l) with
    | Some d, Some s =>
        mkStore (gs_p4 t)
          (<[d := kmap (Z.add (j * 2 ^ 30 - k * 2 ^ 30)) (filter (fun px => px.1 / 2 ^ 30 = k) (gs_pages_of t s)) ∪
                  filter (fun px => px.1 / 2 ^ 30 <> j) (gs_pages_of t d)]> (gs_pages t))
          (<[d := partial_alter (fun _ => gs_gibs_of t s !! (k * 2 ^ 30)) (j * 2 ^ 30) (gs_gibs_of t d)]> (gs_gibs t))
    | _, _ => t
    end
|}.

Lemma gs_pages_of_insert t s m p4 g s' :
  gs_pages_of (mkStore p4 (<[s := m]> (gs_pages t)) g) s' =
    if decide (s' = s) then m else gs_pages_of t s'.
Proof.
  unfold gs_pages_of. simpl. case_decide as H; [subst; by rewrite lookup_insert_eq|].
  by rewrite lookup_insert_ne.
Qed.

Lemma gs_gibs_of_insert t s m p4 g s' :
  gs_gibs_of (mkStore p4 g (<[s := m]> (gs_gibs t))) s' =
    if decide (s' = s) then m else gs_gibs_of t s'.
Proof.
  unfold gs_gibs_of. simpl. case_decide as H; [subst; by rewrite lookup_insert_eq|].
  by rewrite lookup_insert_ne.
Qed.

(** The pages of one 1 GiB entry replaced by those of another. *)
Lemma moved_gib (m n : gmap Z (Z * Z)) j k p :
  (kmap (Z.add (j * 2 ^ 30 - k * 2 ^ 30)) (filter (fun px => px.1 / 2 ^ 30 = k) n) ∪
   filter (fun px => px.1 / 2 ^ 30 <> j) m : gmap Z (Z * Z)) !! p =
  if decide (p / 2 ^ 30 = j) then n !! (p - j * 2 ^ 30 + k * 2 ^ 30) else m !! p.
Proof.
  set (q := p - j * 2 ^ 30 + k * 2 ^ 30).
  assert (Hq : q / 2 ^ 30 = p / 2 ^ 30 - j + k).
  { unfold q. replace (p - j * 2 ^ 30 + k * 2 ^ 30) with (p + (k - j) * 2 ^ 30) by lia. rewrite Z.div_add by lia. lia. }
  assert (Hinj : Inj eq eq (Z.add (j * 2 ^ 30 - k * 2 ^ 30))) by (intros x y; lia).
  rewrite lookup_union. replace p with (j * 2 ^ 30 - k * 2 ^ 30 + q) at 1 by (unfold q; lia).
  rewrite (lookup_kmap (Z.add (j * 2 ^ 30 - k * 2 ^ 30))), !map_lookup_filter. cbn [fst]. case_decide as H.
  - destruct (n !! q) as [x|] eqn:En; cbn [mbind option_bind].
    + rewrite option_guard_True by lia. by destruct (m !! p); cbn; [rewrite option_guard_False by tauto|].
    + destruct (m !! p); cbn; [|done]. by rewrite option_guard_False by tauto.
  - assert ((n !! q ≫= (fun x => guard (q / 2 ^ 30 = k);; Some x)) = None) as ->.
    { destruct (n !! q); cbn; [|done]. by rewrite option_guard_False by lia. }
    rewrite (left_id_L None (∪)). destruct (m !! p); cbn; [|done]. by rewrite option_guard_True.
Qed.

Definition gmap_store_spec : TableStoreSpec gmap_store gmap_store_ops.
Proof.
  refine {| ts_p4 t root i := gs_p4 t !! (root, i); ts_pages := gs_pages_of; ts_gibs := gs_gibs_of |};
    simpl; try done.
  - intros t f root i. case_decide as H.
    + subst. apply map_lookup_filter_None. right. by intros x _ [].
    + destruct (gs_p4 t !! (root, i)) eqn:E.
      * by apply map_lookup_filter_Some.
      * apply map_lookup_filter_None. by left.
  - intros A alloc t root page frame flags a s _ _ Hs Hp Hg. left.
    unfold gs_map_to. rewrite Hs, Hp, Hg. eexists [], _, a.
    split; [simpl; lia|]. split; [constructor|]. split; [done|].
    split_and!; try done. intros s'. apply gs_pages_of_insert.
  - intros A alloc t root page frame flags a _ _ Hs. unfold gs_map_to. rewrite Hs.
    destruct (alloc a) as [[[f|] a1]| |] eqn:Ha; simpl.
    + left. eexists [f], _, a1. split; [simpl; lia|]. split; [by apply allocs_one|]. split; [done|].
      exists f, a1. split_and!; try done.
      * intros r i. case_decide as H; [destruct H as [-> ->]; apply lookup_insert_eq|].
        apply lookup_insert_ne. intros [= <- <-]. by apply H.
      * intros s'. apply gs_pages_of_insert.
      * intros s'. unfold gs_gibs_of. simpl. case_decide as H; [subst; by rewrite lookup_insert_eq|].
        by rewrite lookup_insert_ne.
    + right. exists [], a. split; [simpl; lia|]. split; [constructor|]. left. eauto.
    + right. exists [], a. split; [simpl; lia|]. split; [constructor|]. by right; left.
    + right. exists [], a. split; [simpl; lia|]. split; [constructor|]. by right; right.
  - intros A alloc t root page frame flags a s x Hs Hg Hp. unfold gs_map_to. by rewrite Hs, Hg, Hp.
  - intros A alloc t root page frame flags a s x Hs Hg. unfold gs_map_to. by rewrite Hs, Hg.
  - intros t root page o Hp Ho. rewrite (aligned_offset PAGE_SIZE) by done.
    by replace (page + o - o) with page by lia.
  - intros t root page s frame flags Hs Hg Hp. unfold gs_find. rewrite Hs. simpl. rewrite Hp. simpl.
    eexists. split; [done|]. split_and!; try done. intros s'. apply gs_pages_of_insert.
  - intros t root page s frame flags flags' Hs Hg Hp. unfold gs_find. rewrite Hs. simpl. rewrite Hp. simpl.
    eexists. split; [done|]. split_and!; try done. intros s'. apply gs_pages_of_insert.
  - intros t dst j src i. split_and!; try done. intros r n. case_decide as H.
    + destruct H as [-> ->]. apply lookup_partial_alter_eq.
    + apply lookup_partial_alter_ne. intros [= <- <-]. by apply H.
  - intros t dst i j src l k d s Hd Hs. rewrite Hd, Hs. split; [done|]. split; intros s' p.
    + rewrite gs_pages_of_insert. case_decide as H1; [subst|by rewrite decide_False by tauto].
      rewrite moved_gib. by do 2 case_decide; tauto || done.
    + rewrite gs_gibs_of_insert. case_decide as H1; [subst|by rewrite decide_False by tauto].
      case_decide as H2; [destruct H2 as [_ ->]; apply lookup_partial_alter_eq|].
      apply lookup_partial_alter_ne. naive_solver.
Defined.
