(* ===== verification/Machine.v ===== *)
(** * The x86-64 machine under the kernel's assembly

    The naked functions of [kernel/src/syscall.rs], [interrupt_macro.rs] and
    [context/switch.rs] are sequences of instructions.  This file defines the
    part of the processor they use, as the architecture manual describes it:
    registers, memory, model-specific registers, and one total function per
    instruction form.  A sequence of instructions is run by [exec].  Address
    translation and faults are not modelled: addresses are those of the
    kernel's view of memory. *)

From S2P Require Import Prelude.

Inductive reg : Type :=
| RAX | RBX | RCX | RDX | RSI | RDI | RBP | RSP
| R8 | R9 | R10 | R11 | R12 | R13 | R14 | R15.

#[export] Instance reg_eq_dec : EqDecision reg.
Proof. solve_decision. Defined.

Record machine : Type := mkMachine {
  m_reg : reg -> Z;
  m_rip : Z;
  m_rflags : Z;
  m_cs : Z;
  m_ss : Z;
  m_msr : Z -> Z;
  m_gdtr : Z;
  m_mem : Z -> Z
}.

(** ** Memory: little-endian words *)

Fixpoint load_bytes (n : nat) (mem : Z -> Z) (a : Z) : Z :=
  match n with
  | O => 0
  | S n => mem a + 256 * load_bytes n mem (a + 1)
  end.

Definition load64 (mem : Z -> Z) (a : Z) : Z := load_bytes 8 mem a.

(** Bytes [0..n) of [v] at [a]. *)
Definition store_bytes (n : Z) (mem : Z -> Z) (a v : Z) : Z -> Z :=
  fun x => if (a <=? x) && (x <? a + n) then (v / 256 ^ (x - a)) mod 256 else mem x.

Definition store64 : (Z -> Z) -> Z -> Z -> Z -> Z := store_bytes 8.
Definition store32 : (Z -> Z) -> Z -> Z -> Z -> Z := store_bytes 4.

(** ** State updates *)

Definition get (r : reg) (m : machine) : Z := m_reg m r.

Definition set (r : reg) (v : Z) (m : machine) : machine :=
  mkMachine (fun r' => if decide (r' = r) then v else m_reg m r') (m_rip m) (m_rflags m)
    (m_cs m) (m_ss m) (m_msr m) (m_gdtr m) (m_mem m).
Definition set_memory (mem : Z -> Z) (m : machine) : machine :=
  mkMachine (m_reg m) (m_rip m) (m_rflags m) (m_cs m) (m_ss m) (m_msr m) (m_gdtr m) mem.
Definition set_rflags (f : Z) (m : machine) : machine :=
  mkMachine (m_reg m) (m_rip m) f (m_cs m) (m_ss m) (m_msr m) (m_gdtr m) (m_mem m).
Definition set_rip (a : Z) (m : machine) : machine :=
  mkMachine (m_reg m) a (m_rflags m) (m_cs m) (m_ss m) (m_msr m) (m_gdtr m) (m_mem m).
Definition set_segments (cs ss : Z) (m : machine) : machine :=
  mkMachine (m_reg m) (m_rip m) (m_rflags m) cs ss (m_msr m) (m_gdtr m) (m_mem m).
Definition set_msr (i v : Z) (m : machine) : machine :=
  mkMachine (m_reg m) (m_rip m) (m_rflags m) (m_cs m) (m_ss m)
    (fun j => if decide (j = i) then v else m_msr m j) (m_gdtr m) (m_mem m).

Definition IA32_EFER : Z := 0xc0000080.
Definition IA32_STAR : Z := 0xc0000081.
Definition IA32_LSTAR : Z := 0xc0000082.
Definition IA32_FMASK : Z := 0xc0000084.
Definition IA32_FS_BASE : Z := 0xc0000100.
Definition IA32_GS_BASE : Z := 0xc0000101.
Definition IA32_KERNEL_GS_BASE : Z := 0xc0000102.

(** Bits of RFLAGS. *)
Definition CF : Z := 0.
Definition PF : Z := 2.
Definition AF : Z := 4.
Definition ZF : Z := 6.
Definition SF : Z := 7.
Definition TF : Z := 8.
Definition IF : Z := 9.
Definition DF : Z := 10.
Definition OF : Z := 11.
Definition AC : Z := 18.

Definition put_flag (i : Z) (b : bool) (f : Z) : Z := if b then Z.setbit f i else Z.clearbit f i.

Definition even_parity (v : Z) : bool :=
  Nat.even (length (List.filter (fun i => Z.testbit v i) [0; 1; 2; 3; 4; 5; 6; 7])).

(** The flags a result of [w] bits determines. *)
Definition result_flags (w v f : Z) : Z :=
  put_flag ZF (v =? 0) (put_flag SF (Z.testbit v (w - 1)) (put_flag PF (even_parity v) f)).

(** After a bitwise operation ([test], [xor], [or]). *)
Definition logic_flags (w v : Z) (m : machine) : machine :=
  set_rflags (put_flag CF false (put_flag OF false (result_flags w v (m_rflags m)))) m.

(** ** Instructions *)

Definition instr : Type := machine -> machine.

Definition exec (code : list instr) (m : machine) : machine :=
  fold_left (fun m i => i m) code m.

Definition mov (d s : reg) : instr := fun m => set d (get s m) m.
Definition mov_imm (d : reg) (v : Z) : instr := set d v.

(** [mov d, [b + o]] and [mov [b + o], s] *)
Definition mov_load (d b : reg) (o : Z) : instr := fun m => set d (load64 (m_mem m) (get b m + o)) m.
Definition mov_store (b : reg) (o : Z) (s : reg) : instr := fun m =>
  set_memory (store64 (m_mem m) (get b m + o) (get s m)) m.
(** [mov [b + o], s] with the 32-bit register of [s] *)
Definition mov_store32 (b : reg) (o : Z) (s : reg) : instr := fun m =>
  set_memory (store32 (m_mem m) (get b m + o) (get s m)) m.
(** [mov e(d), e(s)]: the upper half of the destination is cleared *)
Definition mov32 (d s : reg) : instr := fun m => set d (wrap 32 (get s m)) m.

Definition push_val (v : Z) (m : machine) : machine :=
  let sp := wrap 64 (get RSP m - 8) in set RSP sp (set_memory (store64 (m_mem m) sp v) m).
Definition push (r : reg) : instr := fun m => push_val (get r m) m.
Definition push_imm (v : Z) : instr := push_val v.
Definition pop (r : reg) : instr := fun m =>
  set r (load64 (m_mem m) (get RSP m)) (set RSP (wrap 64 (get RSP m + 8)) m).
Definition pushfq : instr := fun m => push_val (m_rflags m) m.
Definition popfq : instr := fun m =>
  set_rflags (load64 (m_mem m) (get RSP m)) (set RSP (wrap 64 (get RSP m + 8)) m).
(** [push QWORD PTR [b + o]] and [pop QWORD PTR [b + o]] *)
Definition push_mem (b : reg) (o : Z) : instr := fun m => push_val (load64 (m_mem m) (get b m + o)) m.
Definition pop_mem (b : reg) (o : Z) : instr := fun m =>
  set RSP (wrap 64 (get RSP m + 8))
    (set_memory (store64 (m_mem m) (get b m + o) (load64 (m_mem m) (get RSP m))) m).

(** Accesses relative to the [gs] segment. *)
Definition mov_load_gs (d : reg) (o : Z) : instr := fun m =>
  set d (load64 (m_mem m) (m_msr m IA32_GS_BASE + o)) m.
Definition mov_store_gs (o : Z) (s : reg) : instr := fun m =>
  set_memory (store64 (m_mem m) (m_msr m IA32_GS_BASE + o) (get s m)) m.
Definition push_gs (o : Z) : instr := fun m =>
  push_val (load64 (m_mem m) (m_msr m IA32_GS_BASE + o)) m.

Definition swapgs : instr := fun m =>
  set_msr IA32_GS_BASE (m_msr m IA32_KERNEL_GS_BASE)
    (set_msr IA32_KERNEL_GS_BASE (m_msr m IA32_GS_BASE) m).

(** [rdmsr] and [wrmsr]: the register number is in ECX, the value in EDX:EAX. *)
Definition rdmsr : instr := fun m =>
  let v := m_msr m (wrap 32 (get RCX m)) in set RDX (wrap 32 (v / 2 ^ 32)) (set RAX (wrap 32 v) m).
Definition wrmsr : instr := fun m =>
  set_msr (wrap 32 (get RCX m)) (wrap 32 (get RDX m) * 2 ^ 32 + wrap 32 (get RAX m)) m.

Definition cld : instr := fun m => set_rflags (put_flag DF false (m_rflags m)) m.
Definition xor_self (r : reg) : instr := fun m => logic_flags 64 0 (set r 0 m).
Definition or_reg (d s : reg) : instr := fun m =>
  let v := Z.lor (get d m) (get s m) in logic_flags 64 v (set d v m).

(** Carry, auxiliary carry and overflow of [x + y] and [x - y] on 64 bits. *)
Definition add_imm (r : reg) (y : Z) : instr := fun m =>
  let x := get r m in let v := wrap 64 (x + y) in
  set_rflags (put_flag CF (2 ^ 64 <=? x + y) (put_flag AF (16 <=? x mod 16 + y mod 16)
    (put_flag OF (eqb (Z.testbit x 63) (Z.testbit y 63) && negb (eqb (Z.testbit x 63) (Z.testbit v 63)))
      (result_flags 64 v (m_rflags m))))) (set r v m).
Definition sub_flags (x y : Z) (m : machine) : machine :=
  let v := wrap 64 (x - y) in
  set_rflags (put_flag CF (x <? y) (put_flag AF (x mod 16 <? y mod 16)
    (put_flag OF (negb (eqb (Z.testbit x 63) (Z.testbit y 63)) && negb (eqb (Z.testbit x 63) (Z.testbit v 63)))
      (result_flags 64 v (m_rflags m))))) m.
Definition sub_imm (r : reg) (y : Z) : instr := fun m =>
  set r (wrap 64 (get r m - y)) (sub_flags (get r m) y m).
Definition cmp (x y : reg) : instr := fun m => sub_flags (get x m) (get y m) m.

(** Shifts by a constant greater than 1: AF and OF, which are undefined, are left. *)
Definition shl_imm (r : reg) (n : Z) : instr := fun m =>
  let x := get r m in let v := wrap 64 (Z.shiftl x n) in
  set_rflags (put_flag CF (Z.testbit x (64 - n)) (result_flags 64 v (m_rflags m))) (set r v m).
Definition shr_imm (r : reg) (n : Z) : instr := fun m =>
  let x := get r m in let v := Z.shiftr x n in
  set_rflags (put_flag CF (Z.testbit x (n - 1)) (result_flags 64 v (m_rflags m))) (set r v m).

(** The value of a 64-bit register read as a signed number. *)
Definition signed (w v : Z) : Z := if Z.testbit v (w - 1) then v - 2 ^ w else v.

Definition sar_imm (r : reg) (n : Z) : instr := fun m =>
  let x := get r m in let v := wrap 64 (Z.shiftr (signed 64 x) n) in
  set_rflags (put_flag CF (Z.testbit x (n - 1)) (result_flags 64 v (m_rflags m))) (set r v m).

(** [test QWORD PTR [b + o], v] and [test BYTE PTR [b + o], v] *)
Definition test_mem64 (b : reg) (o v : Z) : instr := fun m =>
  logic_flags 64 (Z.land (load64 (m_mem m) (get b m + o)) v) m.
Definition test_mem8 (b : reg) (o v : Z) : instr := fun m =>
  logic_flags 8 (Z.land (m_mem m (get b m + o)) v) m.

(** The low byte of a register: [test r, r] and [sete r]. *)
Definition test_low8 (r : reg) : instr := fun m => logic_flags 8 (wrap 8 (get r m)) m.
Definition zero_flag (m : machine) : bool := Z.testbit (m_rflags m) ZF.
Definition sete_low8 (r : reg) : instr := fun m =>
  set r (get r m - wrap 8 (get r m) + (if zero_flag m then 1 else 0)) m.

(** [sgdt [b + o]]: the limit (its value is not used) and the base. *)
Definition sgdt (limit : Z) (b : reg) (o : Z) : instr := fun m =>
  set_memory (store64 (store_bytes 2 (m_mem m) (get b m + o) limit) (get b m + o + 2) (m_gdtr m)) m.

(** [jz 1f; code; 1:] and [jnz 1f; code; 1:] *)
Definition unless_zero (code : list instr) : instr := fun m => if zero_flag m then m else exec code m.
Definition unless_nonzero (code : list instr) : instr := fun m => if zero_flag m then exec code m else m.

(** ** Changes of privilege *)

(** [syscall], executed in user mode just before [m_rip]. *)
Definition syscall_insn : instr := fun m =>
  let star := m_msr m IA32_STAR in
  let cs := Z.land (wrap 16 (star / 2 ^ 32)) 0xfffc in
  set_rip (m_msr m IA32_LSTAR)
    (set_segments cs (wrap 16 (star / 2 ^ 32) + 8)
      (set_rflags (Z.ldiff (m_rflags m) (m_msr m IA32_FMASK))
        (set R11 (m_rflags m) (set RCX (m_rip m) m)))).

(** [sysretq]. *)
Definition sysretq : instr := fun m =>
  let base := wrap 16 (m_msr m IA32_STAR / 2 ^ 48) in
  set_segments (Z.lor (base + 16) 3) (Z.lor (base + 8) 3)
    (set_rflags (Z.lor (Z.land (get R11 m) 0x3c7fd7) 2) (set_rip (get RCX m) m)).

(** [iretq]. *)
Definition iretq : instr := fun m =>
  let w i := load64 (m_mem m) (get RSP m + 8 * i) in
  set_segments (w 1) (w 4) (set_rflags (w 2) (set_rip (w 0) (set RSP (w 3) m))).

(** [ret]. *)
Definition ret : instr := fun m =>
  set_rip (load64 (m_mem m) (get RSP m)) (set RSP (wrap 64 (get RSP m + 8)) m).

(** Delivery of an interrupt through a gate that clears IF, on a stack whose
    top, 16-byte aligned, is [sp]. *)
Definition deliver (handler sp kcs kss : Z) (m : machine) : machine :=
  set_rip handler (set_segments kcs kss
    (set_rflags (put_flag IF false (put_flag TF false (m_rflags m)))
      (exec [push_val (m_ss m); push_val (get RSP m); push_val (m_rflags m);
             push_val (m_cs m); push_val (m_rip m)] (set RSP sp m)))).

(** ** Words in memory *)

Lemma load_bytes_ext n mem mem' a :
  (forall i, 0 <= i < Z.of_nat n -> mem (a + i) = mem' (a + i)) ->
  load_bytes n mem a = load_bytes n mem' a.
Proof.
  revert a. induction n as [|n IH]; intros a H; simpl; [done|].
  rewrite <- (Z.add_0_r a) at 1 3. rewrite H by lia. f_equal. f_equal. apply IH.
  intros i Hi. rewrite <- !Z.add_assoc. apply H. lia.
Qed.

Lemma load_store_bytes n mem a v :
  0 <= v -> load_bytes n (store_bytes (Z.of_nat n) mem a v) a = v mod 256 ^ Z.of_nat n.
Proof.
  revert mem a v. induction n as [|n IH]; intros mem a v Hv.
  { simpl. by rewrite Z.mod_1_r. }
  cbn [load_bytes]. rewrite (load_bytes_ext n _ (store_bytes (Z.of_nat n) mem (a + 1) (v / 256))).
  2:{ intros i Hi. unfold store_bytes. repeat match goal with
      | |- context [?x <=? ?y] => destruct (Z.leb_spec x y); try lia
      | |- context [?x <? ?y] => destruct (Z.ltb_spec x y); try lia end. cbn [andb].
    replace (a + 1 + i - a) with (Z.succ i) by lia. replace (a + 1 + i - (a + 1)) with i by lia.
    rewrite Z.pow_succ_r, Zdiv_Zdiv by lia. done. }
  rewrite IH by (apply Z.div_pos; lia). unfold store_bytes at 1.
  rewrite Z.leb_refl, (proj2 (Z.ltb_lt _ _)) by lia. cbn [andb].
  rewrite Z.sub_diag, Z.pow_0_r, Z.div_1_r.
  rewrite Nat2Z.inj_succ, Z.pow_succ_r by lia. rewrite (Z.rem_mul_r v 256) by lia. done.
Qed.

Lemma load64_store64 mem a v : 0 <= v < 2 ^ 64 -> load64 (store64 mem a v) a = v.
Proof.
  intros Hv. unfold load64, store64. change 8 with (Z.of_nat 8) at 1.
  rewrite load_store_bytes by lia. by apply Z.mod_small.
Qed.

Lemma store_bytes_outside n mem a v x : x < a \/ a + n <= x -> store_bytes n mem a v x = mem x.
Proof.
  intros H. unfold store_bytes. destruct (Z.leb_spec a x), (Z.ltb_spec x (a + n)); simpl; done || lia.
Qed.

Lemma load64_outside mem mem' a :
  (forall x, a <= x < a + 8 -> mem x = mem' x) -> load64 mem a = load64 mem' a.
Proof. intros H. apply load_bytes_ext. intros i Hi. apply H. simpl in Hi. lia. Qed.

Lemma load64_store_ne n mem a v a' :
  a' + 8 <= a \/ a + n <= a' -> load64 (store_bytes n mem a v) a' = load64 mem a'.
Proof. intros H. apply load64_outside. intros x Hx. apply store_bytes_outside. lia. Qed.

(** ** Runs of pushes *)

(** The memory after pushing [vs], the first value first, below [sp]. *)
Fixpoint pushed (vs : list Z) (sp : Z) (mem : Z -> Z) : Z -> Z :=
  match vs with
  | [] => mem
  | v :: vs => pushed vs (sp - 8) (store64 mem (sp - 8) v)
  end.

Lemma pushed_app vs ws sp mem :
  pushed (vs ++ ws) sp mem = pushed ws (sp - 8 * Z.of_nat (length vs)) (pushed vs sp mem).
Proof.
  revert sp mem. induction vs as [|v vs IH]; intros sp mem; simpl pushed.
  { f_equal. simpl. lia. }
  rewrite IH. f_equal. simpl length. lia.
Qed.

Lemma pushed_outside vs sp mem x :
  x < sp - 8 * Z.of_nat (length vs) \/ sp <= x -> pushed vs sp mem x = mem x.
Proof.
  revert sp mem. induction vs as [|v vs IH]; intros sp mem H; [done|].
  simpl pushed. simpl length in H. rewrite IH by lia. apply store_bytes_outside. lia.
Qed.

Lemma load64_pushed_outside vs sp mem a :
  a + 8 <= sp - 8 * Z.of_nat (length vs) \/ sp <= a -> load64 (pushed vs sp mem) a = load64 mem a.
Proof. intros H. apply load64_outside. intros x Hx. apply pushed_outside. lia. Qed.

Lemma load64_pushed vs sp mem i v :
  vs !! i = Some v -> 0 <= v < 2 ^ 64 -> load64 (pushed vs sp mem) (sp - 8 * (Z.of_nat i + 1)) = v.
Proof.
  revert sp mem i. induction vs as [|w vs IH]; intros sp mem i Hi Hv; [done|].
  simpl pushed. destruct i as [|i]; simpl in Hi.
  - injection Hi as ->. rewrite load64_pushed_outside by lia.
    replace (sp - 8 * (Z.of_nat 0 + 1)) with (sp - 8) by lia. by apply load64_store64.
  - rewrite <- (IH (sp - 8) (store64 mem (sp - 8) w) i) at 1 by done. f_equal. lia.
Qed.

(** [m'] is [m] but for general registers and memory. *)
Record same_control (m m' : machine) : Prop := {
  sc_rip : m_rip m' = m_rip m;
  sc_rflags : m_rflags m' = m_rflags m;
  sc_cs : m_cs m' = m_cs m;
  sc_ss : m_ss m' = m_ss m;
  sc_msr : m_msr m' = m_msr m;
  sc_gdtr : m_gdtr m' = m_gdtr m
}.

(** [m'] is [m] after pushing the values [vs]. *)
Record after_pushes (vs : list Z) (m m' : machine) : Prop := {
  ap_rsp : get RSP m' = get RSP m - 8 * Z.of_nat (length vs);
  ap_regs r : r <> RSP -> get r m' = get r m;
  ap_mem : m_mem m' = pushed vs (get RSP m) (m_mem m);
  ap_control : same_control m m'
}.

(** [m'] is [m] after popping into the registers [rs]. *)
Record after_pops (rs : list reg) (m m' : machine) : Prop := {
  pp_rsp : get RSP m' = get RSP m + 8 * Z.of_nat (length rs);
  pp_popped i r : rs !! i = Some r -> get r m' = load64 (m_mem m) (get RSP m + 8 * Z.of_nat i);
  pp_regs r : r <> RSP -> r ∉ rs -> get r m' = get r m;
  pp_mem : m_mem m' = m_mem m;
  pp_control : same_control m m'
}.

Lemma get_set r r' v m : get r (set r' v m) = if decide (r = r') then v else get r m.
Proof. done. Qed.

Lemma get_set_eq r v m : get r (set r v m) = v.
Proof. by rewrite get_set, decide_True. Qed.

Lemma get_set_ne r r' v m : r <> r' -> get r (set r' v m) = get r m.
Proof. intros. by rewrite get_set, decide_False. Qed.

Lemma exec_app c1 c2 m : exec (c1 ++ c2) m = exec c2 (exec c1 m).
Proof. apply fold_left_app. Qed.

Lemma exec_cons i c m : exec (i :: c) m = exec c (i m).
Proof. done. Qed.

Lemma same_control_refl m : same_control m m.
Proof. done. Qed.

Lemma same_control_trans m1 m2 m3 : same_control m1 m2 -> same_control m2 m3 -> same_control m1 m3.
Proof. intros [] []. split; congruence. Qed.

Lemma after_pushes_trans vs ws m1 m2 m3 :
  after_pushes vs m1 m2 -> after_pushes ws m2 m3 -> after_pushes (vs ++ ws) m1 m3.
Proof.
  intros [H1 H2 H3 H4] [K1 K2 K3 K4]. split.
  - rewrite K1, H1, length_app. lia.
  - intros r Hr. by rewrite K2, H2.
  - by rewrite K3, H3, pushed_app, H1.
  - by eapply same_control_trans.
Qed.

Lemma push_val_after v m : 8 <= get RSP m < 2 ^ 64 -> after_pushes [v] m (push_val v m).
Proof.
  intros H. unfold push_val, wrap. rewrite Z.mod_small by lia. split; try done.
  intros r Hr. by rewrite get_set_ne.
Qed.

Lemma exec_pushes rs m :
  RSP ∉ rs -> 8 * Z.of_nat (length rs) <= get RSP m < 2 ^ 64 ->
  after_pushes (map (fun r => get r m) rs) m (exec (map push rs) m).
Proof.
  revert m. induction rs as [|r rs IH]; intros m Hin Hsp.
  { simpl. split; try done. simpl. lia. }
  apply not_elem_of_cons in Hin as [Hr Hin]. simpl length in Hsp. simpl map. rewrite exec_cons.
  assert (H1 : after_pushes [get r m] m (push r m)) by (apply push_val_after; lia).
  pose proof (after_pushes_trans [get r m] _ _ _ _ H1 (IH (push r m) Hin
    ltac:(rewrite (ap_rsp _ _ _ H1); simpl; lia))) as H2.
  simpl app in H2. erewrite map_ext_in; [exact H2|].
  intros r' Hr'. simpl. symmetry. apply (ap_regs _ _ _ H1).
  intros ->. apply Hin. by apply list_elem_of_In.
Qed.

Lemma exec_pops rs m :
  RSP ∉ rs -> NoDup rs -> 0 <= get RSP m -> get RSP m + 8 * Z.of_nat (length rs) < 2 ^ 64 ->
  after_pops rs m (exec (map pop rs) m).
Proof.
  revert m. induction rs as [|r rs IH]; intros m Hin Hnd H0 Hsp.
  { simpl. split; try done. simpl. lia. }
  apply not_elem_of_cons in Hin as [Hr Hin]. apply NoDup_cons in Hnd as [Hnr Hnd].
  simpl length in Hsp. simpl map. rewrite exec_cons.
  assert (Hp : get RSP (pop r m) = get RSP m + 8).
  { unfold pop. rewrite get_set_ne, get_set_eq by done. unfold wrap. apply Z.mod_small. lia. }
  assert (Hg : forall r', r' <> RSP -> r' <> r -> get r' (pop r m) = get r' m).
  { intros r' ??. unfold pop. by rewrite !get_set_ne. }
  destruct (IH (pop r m) Hin Hnd ltac:(lia) ltac:(lia)) as [K1 K2 K3 K4 K5]. split.
  - rewrite K1, Hp. simpl length. lia.
  - intros [|i] r' Hi; simpl in Hi.
    + injection Hi as <-. rewrite K3 by done. unfold pop. rewrite get_set_eq. f_equal. lia.
    + rewrite (K2 i) by done. rewrite Hp. f_equal. lia.
  - intros r' H1 [H2 H3]%not_elem_of_cons. by rewrite K3, Hg.
  - by rewrite K4.
  - by eapply same_control_trans; [|exact K5].
Qed.

(** The words of a run of pushes, from the final stack pointer up. *)
Lemma load64_frame vs sp mem j v :
  reverse vs !! j = Some v -> 0 <= v < 2 ^ 64 ->
  load64 (pushed vs sp mem) (sp - 8 * Z.of_nat (length vs) + 8 * Z.of_nat j) = v.
Proof.
  intros Hj Hv. apply reverse_lookup_Some in Hj as [Hj Hl].
  rewrite <- (load64_pushed vs sp mem _ v Hj Hv). f_equal. lia.
Qed.

(** ** Flags *)

Lemma testbit_put_flag i j b f :
  0 <= i -> 0 <= j -> Z.testbit (put_flag i b f) j = if decide (j = i) then b else Z.testbit f j.
Proof.
  intros Hi Hj. unfold put_flag. case_decide as H.
  - subst. destruct b; [by apply Z.setbit_eq|by apply Z.clearbit_eq].
  - destruct b; [apply Z.setbit_neq|apply Z.clearbit_neq]; lia.
Qed.

Lemma zero_flag_logic w v m : zero_flag (logic_flags w v m) = (v =? 0).
Proof.
  unfold zero_flag, logic_flags, result_flags. cbn [m_rflags set_rflags].
  rewrite !testbit_put_flag by done. done.
Qed.

Lemma zero_flag_sub x y m : zero_flag (sub_flags x y m) = (wrap 64 (x - y) =? 0).
Proof.
  unfold zero_flag, sub_flags, result_flags. cbn [m_rflags set_rflags].
  rewrite !testbit_put_flag by done. done.
Qed.

(** ** Sign extension from bit 47 *)

(** [shl r, 16; sar r, 16] *)
Definition sign_extend48 (v : Z) : Z :=
  wrap 64 (Z.shiftr (signed 64 (wrap 64 (Z.shiftl v 16))) 16).

Lemma sign_extend48_spec v :
  sign_extend48 v = if v mod 2 ^ 48 <? 2 ^ 47 then v mod 2 ^ 48 else v mod 2 ^ 48 + (2 ^ 64 - 2 ^ 48).
Proof.
  unfold sign_extend48, signed, wrap. rewrite Z.shiftl_mul_pow2, Z.shiftr_div_pow2 by lia.
  assert (E : (v * 2 ^ 16) mod 2 ^ 64 = v mod 2 ^ 48 * 2 ^ 16).
  { change (2 ^ 64) with (2 ^ 48 * 2 ^ 16). by apply Z.mul_mod_distr_r. }
  rewrite !E. clear E.
  pose proof (Z.mod_pos_bound v (2 ^ 48) eq_refl) as Hv. set (u := v mod 2 ^ 48) in *.
  rewrite Z.testbit_eqb by lia.
  replace (u * 2 ^ 16 / 2 ^ (64 - 1)) with (u / 2 ^ 47).
  2:{ change (2 ^ (64 - 1)) with (2 ^ 47 * 2 ^ 16). by rewrite Z.div_mul_cancel_r. }
  destruct (Z.ltb_spec u (2 ^ 47)).
  - rewrite (Z.div_small u) by lia. change (0 mod 2 =? 1) with false. cbv iota.
    rewrite Z.div_mul by lia. apply Z.mod_small. lia.
  - replace (u / 2 ^ 47) with 1 by (apply (Z.div_unique_pos u _ _ (u - 2 ^ 47)); lia).
    change (1 mod 2 =? 1) with true. cbv iota. change (2 ^ 64) with (2 ^ 48 * 2 ^ 16) at 1.
    rewrite <- Z.mul_sub_distr_r, Z.div_mul by lia.
    symmetry. apply (Z.mod_unique_pos _ _ (-1)); lia.
Qed.
