(* ===== verification/Interrupts.v ===== *)
(** * Entering and leaving the kernel

    [kernel/src/syscall.rs], [interrupt_macro.rs] and the descriptor table of
    [gdt.rs]: the frame a system call or an interrupt leaves on the kernel
    stack, the assembly that builds it and returns from it, and the segment
    selectors both sides agree on. *)

From S2P Require Import Prelude Platform Vdso Machine.

(** ** The frame *)

Record PreservedRegisters : Type := mkPreserved {
  p_r15 : Z; p_r14 : Z; p_r13 : Z; p_r12 : Z; p_rbp : Z; p_rbx : Z
}.
Record ScratchRegisters : Type := mkScratch {
  s_r11 : Z; s_r10 : Z; s_r9 : Z; s_r8 : Z; s_rsi : Z; s_rdi : Z; s_rdx : Z; s_rcx : Z; s_rax : Z
}.
Record IretRegisters : Type := mkIret {
  i_rip : Z; i_cs : Z; i_rflags : Z; i_rsp : Z; i_ss : Z
}.
Record InterruptStack : Type := mkInterruptStack {
  preserved : PreservedRegisters;
  scratch : ScratchRegisters;
  iret : IretRegisters
}.

(** Sizes and offsets, all fields being 8 bytes and the structs [repr(C)]. *)
Definition PRESERVED_SIZE : Z := 6 * 8.
Definition SCRATCH_SIZE : Z := 9 * 8.
Definition INT_REGS_SIZE : Z := PRESERVED_SIZE + SCRATCH_SIZE + 5 * 8.
Definition SCRATCH_OFFSET : Z := PRESERVED_SIZE.
Definition IRET_OFFSET : Z := PRESERVED_SIZE + SCRATCH_SIZE.
Definition RAX_OFFSET : Z := SCRATCH_OFFSET + 8 * 8.

(** The frame at an address. *)
Definition read_stack (mem : Z -> Z) (a : Z) : InterruptStack :=
  let w i := load64 mem (a + 8 * i) in
  mkInterruptStack (mkPreserved (w 0) (w 1) (w 2) (w 3) (w 4) (w 5))
    (mkScratch (w 6) (w 7) (w 8) (w 9) (w 10) (w 11) (w 12) (w 13) (w 14))
    (mkIret (w 15) (w 16) (w 17) (w 18) (w 19)).

(** The setters, at the frame's address; [user_code] and [user_data] are the
    selectors stored in [GDT_USER_CODE64] and [GDT_USER_DATA]. *)
Definition INTERRUPT_FLAG : Z := 2 ^ IF.
Definition stack_init (user_code user_data : option Z) (a : Z) (mem : Z -> Z) : outcome (Z -> Z) :=
  let mem := store64 mem (a + IRET_OFFSET + 16) INTERRUPT_FLAG in
  cs ← or_panic user_code;
  let mem := store64 mem (a + IRET_OFFSET + 8) cs in
  ss ← or_panic user_data;
  Done (store64 mem (a + IRET_OFFSET + 32) ss).
Definition set_stack_pointer (rsp a : Z) (mem : Z -> Z) : Z -> Z := store64 mem (a + IRET_OFFSET + 24) rsp.
Definition stack_pointer (a : Z) (mem : Z -> Z) : Z := load64 mem (a + IRET_OFFSET + 24).
Definition set_instr_pointer (rip a : Z) (mem : Z -> Z) : Z -> Z := store64 mem (a + IRET_OFFSET) rip.
Definition set_syscall_ret_reg (v a : Z) (mem : Z -> Z) : Z -> Z := store64 mem (a + RAX_OFFSET) v.

(** ** Registers on the stack *)

Definition scratch_pushed : list reg := [RCX; RDX; RDI; RSI; R8; R9; R10; R11].
Definition scratch_popped : list reg := [R11; R10; R9; R8; RSI; RDI; RDX; RCX; RAX].
Definition preserved_pushed : list reg := [RBX; RBP; R12; R13; R14; R15].
Definition preserved_popped : list reg := [R15; R14; R13; R12; RBP; RBX].

Definition push_scratch : list instr := map push scratch_pushed.
Definition pop_scratch : list instr := map pop scratch_popped.
Definition push_preserved : list instr := map push preserved_pushed.
Definition pop_preserved : list instr := map pop preserved_popped.

Definition swapgs_iff_ring3_fast : list instr := [test_mem64 RSP 8 3; unless_zero [swapgs]].
Definition swapgs_iff_ring3_fast_errorcode : list instr := [test_mem64 RSP 16 3; unless_zero [swapgs]].

(** The GDT is at offset [gdt_off] of the processor control region. *)
Definition conditional_swapgs_paranoid (limit gdt_off : Z) : list instr :=
  [sub_imm RSP 16; sgdt limit RSP 6; mov_load RDI RSP 8; add_imm RSP 16;
   sub_imm RDI gdt_off;
   mov_imm RCX IA32_GS_BASE; rdmsr; shl_imm RDX 32; or_reg RDX RAX;
   cmp RDX RDI; sete_low8 RBX; unless_zero [swapgs]].
Definition conditional_swapgs_back_paranoid : list instr := [test_low8 RBX; unless_nonzero [swapgs]].
Definition nop : list instr := [].

(** ** System calls *)

(** [SegmentSelector::new(index, rpl).0] *)
Definition segment_selector (index rpl : Z) : Z := Z.lor (Z.shiftl index 3) rpl.
Definition CS_SEL : Z := segment_selector 5 3.
Definition SS_SEL : Z := segment_selector 4 3.

(** [offset_of!(ProcessorControlRegion, user_rsp_tmp)] *)
Definition USER_RSP_TMP : Z := 8.

(** [__inner_syscall_instruction] on the memory and [percpu.inside_syscall];
    the operands are only logged. *)
Definition inner_syscall_instruction (stack : Z) (mem : Z -> Z) (inside_syscall : bool)
  : outcome ((Z -> Z) * bool) :=
  let inside_syscall := true in
  let result : KResult Z := inl 0 in
  let inside_syscall := false in
  v ← mux result;
  Done (set_syscall_ret_reg v stack mem, inside_syscall).

(** The kernel stack pointer is at offset [ksp] of the control region. *)
Definition syscall_entry (ksp : Z) : list instr :=
  [swapgs; mov_store_gs USER_RSP_TMP RSP; mov_load_gs RSP ksp;
   push_imm SS_SEL; push_gs USER_RSP_TMP; push R11; push_imm CS_SEL; push RCX; push RAX] ++
  push_scratch ++ push_preserved ++ [mov RDI RSP].

(** The path of [enter_usermode] that ends in [sysretq], and the one in [iretq]. *)
Definition return_sysret : list instr :=
  [pop RCX; shl_imm RCX 16; sar_imm RCX 16; add_imm RSP 8; pop R11; pop RSP; sysretq].
Definition return_iret : list instr := [xor_self RCX; xor_self R11; iretq].

Definition enter_usermode (m : machine) : machine :=
  let m := exec (pop_preserved ++ pop_scratch ++ [swapgs; test_mem8 RSP 17 1]) m in
  if zero_flag m then exec return_sysret m else exec return_iret m.

(** [call] is the effect of the call of [__inner_syscall_instruction]. *)
Definition syscall_instruction (ksp : Z) (call : instr) (m : machine) : machine :=
  enter_usermode (call (exec (syscall_entry ksp) m)).

(** [init_syscall]; [entry] is the address of [syscall_instruction]. *)
Definition flag_mask : list Z := [DF; IF; TF; AC; CF; PF; AF; ZF; SF; OF].
Definition init_syscall (entry : Z) (m : machine) : machine :=
  let syscall_cs_ss_base := Z.shiftl 1 3 in
  let sysret_cs_ss_base := Z.lor (Z.shiftl 3 3) 3 in
  let star_high := Z.lor syscall_cs_ss_base (Z.shiftl sysret_cs_ss_base 16) in
  let m := set_msr IA32_STAR (Z.shiftl star_high 32) m in
  let m := set_msr IA32_LSTAR entry m in
  let m := set_msr IA32_FMASK (fold_right (fun i f => Z.lor (2 ^ i) f) 0 flag_mask) m in
  set_msr IA32_EFER (Z.lor (m_msr m IA32_EFER) 1) m.

(** ** Interrupts *)

(** [interrupt_stack!], with the four macros it is instantiated with. *)
Definition interrupt_stack_entry (save1 save2 : list instr) : list instr :=
  [cld] ++ save1 ++ [push RAX] ++ push_scratch ++ push_preserved ++ save2 ++ [mov RDI RSP].
Definition interrupt_stack (save1 save2 rstor2 rstor1 : list instr) (call : instr) (m : machine) : machine :=
  exec (rstor2 ++ pop_preserved ++ pop_scratch ++ rstor1 ++ [iretq])
    (call (exec (interrupt_stack_entry save1 save2) m)).
Definition interrupt_stack_fast : instr -> machine -> machine :=
  interrupt_stack swapgs_iff_ring3_fast nop nop swapgs_iff_ring3_fast.
Definition interrupt_stack_paranoid (limit gdt_off : Z) : instr -> machine -> machine :=
  interrupt_stack nop (conditional_swapgs_paranoid limit gdt_off) conditional_swapgs_back_paranoid nop.

(** [interrupt!] *)
Definition interrupt_entry : list instr := [cld] ++ swapgs_iff_ring3_fast ++ [push RAX] ++ push_scratch.
Definition interrupt (call : instr) (m : machine) : machine :=
  exec (pop_scratch ++ swapgs_iff_ring3_fast ++ [iretq]) (call (exec interrupt_entry m)).

(** [interrupt_error!] *)
Definition interrupt_error_entry : list instr :=
  [cld] ++ swapgs_iff_ring3_fast_errorcode ++ push_scratch ++ push_preserved ++
  [mov_load RSI RSP (PRESERVED_SIZE + SCRATCH_SIZE - 8);
   mov_store RSP (PRESERVED_SIZE + SCRATCH_SIZE - 8) RAX; mov RDI RSP].
Definition interrupt_error (call : instr) (m : machine) : machine :=
  exec (pop_preserved ++ pop_scratch ++ swapgs_iff_ring3_fast ++ [iretq])
    (call (exec interrupt_error_entry m)).

(** ** Calls of Rust functions *)

(** What a call of a function of the System V ABI does to the machine, seen
    from the caller: the callee-saved registers, the stack pointer and the
    system registers are kept, and the [size] bytes from the stack pointer on
    are changed as [eff] says. *)
Record rust_call (size : Z) (eff : Z -> (Z -> Z) -> outcome (Z -> Z)) (m m' : machine) : Prop := {
  rc_saved r : r ∈ [RBX; RBP; RSP; R12; R13; R14; R15] -> get r m' = get r m;
  rc_frame : exists mem, eff (get RDI m) (m_mem m) = Done mem /\
    forall x, get RSP m <= x < get RSP m + size -> m_mem m' x = mem x;
  rc_cs : m_cs m' = m_cs m;
  rc_ss : m_ss m' = m_ss m;
  rc_msr : m_msr m' = m_msr m;
  rc_gdtr : m_gdtr m' = m_gdtr m
}.

Definition byte_memory (mem : Z -> Z) : Prop := forall x, 0 <= mem x < 256.

Lemma store_bytes_range n mem a v : byte_memory mem -> byte_memory (store_bytes n mem a v).
Proof.
  intros H x. unfold store_bytes. case_match; [|apply H]. by apply Z.mod_pos_bound.
Qed.

Lemma pushed_range vs sp mem : byte_memory mem -> byte_memory (pushed vs sp mem).
Proof.
  revert sp mem. induction vs as [|v vs IH]; intros sp mem H; [done|].
  simpl. apply IH. by apply store_bytes_range.
Qed.

(** Bit 8 of a word is bit 0 of its second byte. *)
Lemma load64_bit8 mem a :
  0 <= mem a < 256 -> (Z.land (mem (a + 1)) 1 =? 0) = negb (Z.testbit (load64 mem a) 8).
Proof.
  intros H. unfold load64. change (load_bytes 8 mem a) with (mem a + 256 * load_bytes 7 mem (a + 1)).
  change (load_bytes 7 mem (a + 1)) with (mem (a + 1) + 256 * load_bytes 6 mem (a + 1 + 1)).
  set (u := load_bytes 6 mem (a + 1 + 1)). rewrite Z.testbit_eqb by lia. change (2 ^ 8) with 256.
  rewrite (Z.mul_comm 256 (_ + _)), Z.div_add, Z.div_small, Z.add_0_l by lia.
  change 256 with (2 * 128). rewrite <- Z.mul_assoc, (Z.mul_comm 2), Z.mod_add by lia.
  change 1 with (Z.ones 1) at 2. rewrite Z.land_ones by lia. change (2 ^ 1) with 2.
  rewrite Zmod_odd. by destruct (Z.odd _).
Qed.

(** The value a frame holds for a register. *)
Definition frame_reg (st : InterruptStack) (r : reg) : Z :=
  match r with
  | R15 => p_r15 (preserved st) | R14 => p_r14 (preserved st) | R13 => p_r13 (preserved st)
  | R12 => p_r12 (preserved st) | RBP => p_rbp (preserved st) | RBX => p_rbx (preserved st)
  | R11 => s_r11 (scratch st) | R10 => s_r10 (scratch st) | R9 => s_r9 (scratch st)
  | R8 => s_r8 (scratch st) | RSI => s_rsi (scratch st) | RDI => s_rdi (scratch st)
  | RDX => s_rdx (scratch st) | RCX => s_rcx (scratch st) | RAX => s_rax (scratch st)
  | RSP => i_rsp (iret st)
  end.

Definition popped_regs : list reg := preserved_popped ++ scratch_popped.

Lemma pop_frame m :
  0 <= get RSP m -> get RSP m + 120 < 2 ^ 64 ->
  let m' := exec (pop_preserved ++ pop_scratch) m in
  (forall r, r <> RSP -> get r m' = frame_reg (read_stack (m_mem m) (get RSP m)) r) /\
  get RSP m' = get RSP m + 120 /\ m_mem m' = m_mem m /\ same_control m m'.
Proof.
  intros H0 Hsp. unfold pop_preserved, pop_scratch. rewrite <- map_app.
  destruct (exec_pops popped_regs m) as [H1 H2 H3 H4 H5].
  { by apply (bool_decide_unpack _). }
  { by apply (bool_decide_unpack _). }
  { done. }
  { simpl. lia. }
  split; [|done]. intros r Hr.
  destruct r; first
    [ done
    | lazymatch goal with |- get ?r _ = _ =>
        let i := eval vm_compute in
          (List.find (fun i => bool_decide (popped_regs !! i = Some r)) (seq 0%nat 15%nat)) in
        lazymatch i with Some ?i => exact (H2 i r eq_refl) end
      end ].
Qed.

Lemma wrap_small v : 0 <= v < 2 ^ 64 -> wrap 64 v = v.
Proof. apply Z.mod_small. Qed.

Lemma return_iret_spec m :
  let w i := load64 (m_mem m) (get RSP m + 8 * i) in let m' := exec return_iret m in
  (forall r, r ∉ [RCX; R11; RSP] -> get r m' = get r m) /\ get RSP m' = w 3 /\ m_rip m' = w 0 /\
  m_rflags m' = w 2 /\ m_cs m' = w 1 /\ m_ss m' = w 4 /\ m_msr m' = m_msr m /\ m_mem m' = m_mem m.
Proof.
  split; [|done]. intros r Hin. destruct r; try done; by exfalso; apply Hin; set_solver.
Qed.

Lemma return_sysret_spec m :
  0 <= get RSP m -> get RSP m + 40 < 2 ^ 64 ->
  let w i := load64 (m_mem m) (get RSP m + 8 * i) in let m' := exec return_sysret m in
  let base := wrap 16 (m_msr m IA32_STAR / 2 ^ 48) in
  (forall r, r ∉ [RCX; R11; RSP] -> get r m' = get r m) /\ get RSP m' = w 3 /\
  m_rip m' = sign_extend48 (w 0) /\ m_rflags m' = Z.lor (Z.land (w 2) 0x3c7fd7) 2 /\
  m_cs m' = Z.lor (base + 16) 3 /\ m_ss m' = Z.lor (base + 8) 3 /\ m_msr m' = m_msr m /\ m_mem m' = m_mem m.
Proof.
  intros H0 Hsp. split; [intros r Hin; destruct r; try done; by exfalso; apply Hin; set_solver|].
  set (s1 := wrap 64 (get RSP m + 8)). set (s2 := wrap 64 (s1 + 8)). set (s3 := wrap 64 (s2 + 8)).
  assert (E1 : s1 = get RSP m + 8) by (apply wrap_small; lia).
  assert (E2 : s2 = get RSP m + 8 * 2) by (unfold s2; rewrite E1, wrap_small; lia).
  assert (E3 : s3 = get RSP m + 8 * 3) by (unfold s3; rewrite E2, wrap_small; lia).
  split; [|split; [|split; [|done]]].
  - change (load64 (m_mem m) s3 = load64 (m_mem m) (get RSP m + 8 * 3)). by rewrite E3.
  - change (sign_extend48 (load64 (m_mem m) (get RSP m)) = sign_extend48 (load64 (m_mem m) (get RSP m + 8 * 0))).
    by rewrite Z.mul_0_r, Z.add_0_r.
  - change (Z.lor (Z.land (load64 (m_mem m) s2) 0x3c7fd7) 2 =
      Z.lor (Z.land (load64 (m_mem m) (get RSP m + 8 * 2)) 0x3c7fd7) 2). by rewrite E2.
Qed.

Lemma msr_swapgs m i :
  m_msr (swapgs m) i = if decide (i = IA32_GS_BASE) then m_msr m IA32_KERNEL_GS_BASE
    else if decide (i = IA32_KERNEL_GS_BASE) then m_msr m IA32_GS_BASE else m_msr m i.
Proof. done. Qed.

Lemma swapgs_test m :
  let m' := exec [swapgs; test_mem8 RSP 17 1] m in
  (forall r, get r m' = get r m) /\ m_mem m' = m_mem m /\ m_msr m' = m_msr (swapgs m) /\
  zero_flag m' = (Z.land (m_mem m (get RSP m + 17)) 1 =? 0).
Proof. split_and!; [done..|]. apply zero_flag_logic. Qed.

Lemma msr_swapgs_ext m m' : m_msr m = m_msr m' -> m_msr (swapgs m) = m_msr (swapgs m').
Proof. intros H. unfold swapgs. cbn [m_msr set_msr]. by rewrite H. Qed.

(** [enter_usermode] up to its branch. *)
Lemma enter_prefix m :
  0 <= get RSP m -> get RSP m + 160 < 2 ^ 64 -> 0 <= m_mem m (get RSP m + 8 * 17) < 256 ->
  let m' := exec (pop_preserved ++ pop_scratch ++ [swapgs; test_mem8 RSP 17 1]) m in
  (forall r, r <> RSP -> get r m' = frame_reg (read_stack (m_mem m) (get RSP m)) r) /\
  get RSP m' = get RSP m + 120 /\ m_mem m' = m_mem m /\ m_msr m' = m_msr (swapgs m) /\
  zero_flag m' = negb (Z.testbit (load64 (m_mem m) (get RSP m + 8 * 17)) TF).
Proof.
  intros H0 Hsp Hb. rewrite app_assoc, exec_app.
  generalize (pop_frame m H0 ltac:(lia)). generalize (exec (pop_preserved ++ pop_scratch) m) as m1.
  intros m1 (Hr & Hs & Hm & [_ _ _ _ Hmsr _]). generalize (swapgs_test m1).
  generalize (exec [swapgs; test_mem8 RSP 17 1] m1) as m2. intros m2 (K1 & K2 & K3 & K4).
  cbv zeta. rewrite K1, K2, K3, K4, Hs, Hm. split_and!; try done.
  - intros r Hr'. by rewrite K1, Hr.
  - by apply msr_swapgs_ext.
  - replace (get RSP m + 120 + 17) with (get RSP m + 8 * 17 + 1) by lia. by apply load64_bit8.
Qed.

(** Leaving the kernel through [enter_usermode]. *)
Lemma enter_usermode_spec m st :
  0 <= get RSP m -> get RSP m + INT_REGS_SIZE < 2 ^ 64 -> 0 <= m_mem m (get RSP m + 8 * 17) < 256 ->
  read_stack (m_mem m) (get RSP m) = st ->
  let m' := enter_usermode m in let star := m_msr m IA32_STAR in
  (forall r, r ∉ [RCX; R11] -> get r m' = frame_reg st r) /\
  (if Z.testbit (i_rflags (iret st)) TF
   then m_rip m' = i_rip (iret st) /\ m_rflags m' = i_rflags (iret st) /\
        m_cs m' = i_cs (iret st) /\ m_ss m' = i_ss (iret st)
   else m_rip m' = sign_extend48 (i_rip (iret st)) /\
        m_rflags m' = Z.lor (Z.land (i_rflags (iret st)) 0x3c7fd7) 2 /\
        m_cs m' = Z.lor (wrap 16 (star / 2 ^ 48) + 16) 3 /\ m_ss m' = Z.lor (wrap 16 (star / 2 ^ 48) + 8) 3) /\
  m_msr m' IA32_GS_BASE = m_msr m IA32_KERNEL_GS_BASE /\
  m_msr m' IA32_KERNEL_GS_BASE = m_msr m IA32_GS_BASE /\ m_mem m' = m_mem m.
Proof.
  intros H0 Hsp Hb <-. unfold INT_REGS_SIZE, PRESERVED_SIZE, SCRATCH_SIZE in Hsp.
  pose proof (enter_prefix m H0 ltac:(lia) Hb) as Hpre. unfold enter_usermode.
  revert Hpre. generalize (exec (pop_preserved ++ pop_scratch ++ [swapgs; test_mem8 RSP 17 1]) m) as m2.
  intros m2 (Hr & Hs & Hm & Hmsr & Hz).
  assert (Hw : forall k, load64 (m_mem m2) (get RSP m2 + 8 * k) = load64 (m_mem m) (get RSP m + 8 * (15 + k))).
  { intros k. rewrite Hs, Hm. f_equal. lia. }
  set (st := read_stack (m_mem m) (get RSP m)).
  assert (Hregs : forall m', (forall r, r ∉ [RCX; R11; RSP] -> get r m' = get r m2) ->
    get RSP m' = load64 (m_mem m2) (get RSP m2 + 8 * 3) ->
    forall r, r ∉ [RCX; R11] -> get r m' = frame_reg st r).
  { intros m' K1 K2 r Hin. destruct (decide (r = RSP)) as [->|Hr']; [by rewrite K2, Hw|].
    rewrite K1, Hr; [done..|]. apply not_elem_of_cons in Hin as [? Hin].
    apply not_elem_of_cons in Hin as [? Hin]. by repeat (apply not_elem_of_cons; split; [done|]). }
  assert (Hgs : m_msr m2 IA32_GS_BASE = m_msr m IA32_KERNEL_GS_BASE /\
    m_msr m2 IA32_KERNEL_GS_BASE = m_msr m IA32_GS_BASE /\ m_mem m2 = m_mem m).
  { rewrite Hmsr, !msr_swapgs. done. }
  assert (Hst : m_msr m2 IA32_STAR = m_msr m IA32_STAR) by (rewrite Hmsr, msr_swapgs; done).
  change (Z.testbit (load64 _ _) TF) with (Z.testbit (i_rflags (iret st)) TF) in Hz.
  cbv zeta. rewrite Hz. destruct (Z.testbit _ TF); cbn [negb].
  - destruct (return_iret_spec m2) as (K1 & K2 & -> & -> & -> & -> & -> & ->).
    split; [by apply Hregs|]. split; [|done]. by rewrite !Hw.
  - destruct (return_sysret_spec m2) as (K1 & K2 & -> & -> & -> & -> & -> & ->); [lia|lia|].
    split; [by apply Hregs|]. split; [|done]. by rewrite !Hw, Hst.
Qed.

(** ** Entry *)

Lemma after_pushes_snoc vs m m1 v :
  after_pushes vs m m1 -> 8 * Z.of_nat (S (length vs)) <= get RSP m < 2 ^ 64 ->
  after_pushes (vs ++ [v]) m (push_val v m1).
Proof.
  intros H Hsp. eapply after_pushes_trans; [exact H|]. apply push_val_after.
  rewrite (ap_rsp _ _ _ H). lia.
Qed.

Lemma after_pushes_regs vs m m1 rs :
  after_pushes vs m m1 -> RSP ∉ rs -> 8 * Z.of_nat (length vs + length rs) <= get RSP m < 2 ^ 64 ->
  after_pushes (vs ++ map (fun r => get r m) rs) m (exec (map push rs) m1).
Proof.
  intros H Hin Hsp. eapply after_pushes_trans; [exact H|].
  erewrite map_ext_in; [apply exec_pushes|]; [done|rewrite (ap_rsp _ _ _ H); lia|].
  intros r Hr. simpl. symmetry. apply (ap_regs _ _ _ H). intros ->. by apply Hin, list_elem_of_In.
Qed.

(** The frame of the values pushed last. *)
Lemma read_pushed vs sp mem (st : InterruptStack) :
  vs = [i_ss (iret st); i_rsp (iret st); i_rflags (iret st); i_cs (iret st); i_rip (iret st)] ++
    map (frame_reg st) ([RAX] ++ scratch_pushed ++ preserved_pushed) ->
  Forall (fun v => 0 <= v < 2 ^ 64) vs ->
  read_stack (pushed vs sp mem) (sp - 160) = st.
Proof.
  intros Hvs Hv.
  assert (Hw : forall j v, reverse vs !! j = Some v ->
    load64 (pushed vs sp mem) (sp - 160 + 8 * Z.of_nat j) = v).
  { intros j v Hj. replace 160 with (8 * Z.of_nat (length vs)) by by rewrite Hvs.
    apply load64_frame; [done|]. rewrite Forall_forall in Hv. apply Hv.
    apply elem_of_reverse. by eapply list_elem_of_lookup_2. }
  unfold read_stack. destruct st as [[] [] []]. rewrite Hvs in Hw |- *. clear Hvs Hv.
  f_equal; f_equal; lazymatch goal with |- load64 _ (_ + 8 * ?k) = _ =>
    let j := eval vm_compute in (Z.to_nat k) in exact (Hw j _ eq_refl) end.
Qed.

(** The state before the frame is built. *)
Lemma syscall_stack_switch ksp m :
  16 <= ksp ->
  let pcr := m_msr m IA32_KERNEL_GS_BASE in
  let m' := exec [swapgs; mov_store_gs USER_RSP_TMP RSP; mov_load_gs RSP ksp] m in
  (forall r, r <> RSP -> get r m' = get r m) /\ get RSP m' = load64 (m_mem m) (pcr + ksp) /\
  m_mem m' = store64 (m_mem m) (pcr + USER_RSP_TMP) (get RSP m) /\ m_msr m' = m_msr (swapgs m) /\
  m_cs m' = m_cs m /\ m_ss m' = m_ss m /\ m_gdtr m' = m_gdtr m.
Proof.
  intros Hk. split_and!; try done.
  - intros r Hr. cbn [exec fold_left]. unfold mov_load_gs. by rewrite get_set_ne.
  - etransitivity; [|apply (load64_store_ne 8 (m_mem m) (m_msr m IA32_KERNEL_GS_BASE + USER_RSP_TMP) (get RSP m))].
    + done.
    + unfold USER_RSP_TMP. lia.
Qed.

(** The frame that holds the registers [g] and the return state [ir]. *)
Definition regs_frame (g : reg -> Z) (ir : IretRegisters) : InterruptStack :=
  mkInterruptStack (mkPreserved (g R15) (g R14) (g R13) (g R12) (g RBP) (g RBX))
    (mkScratch (g R11) (g R10) (g R9) (g R8) (g RSI) (g RDI) (g RDX) (g RCX) (g RAX)) ir.

Definition regs_in_range (m : machine) : Prop := forall r, 0 <= get r m < 2 ^ 64.

(** [mov rdi, rsp] changes nothing else. *)
Lemma mov_rdi_rsp m : let m' := mov RDI RSP m in
  get RDI m' = get RSP m /\ (forall r, r <> RDI -> get r m' = get r m) /\
  m_mem m' = m_mem m /\ same_control m m'.
Proof. split_and!; [done| |done..]. intros r Hr. unfold mov. by rewrite get_set_ne. Qed.

Lemma push_user_frame m :
  160 <= get RSP m < 2 ^ 64 ->
  m_msr m IA32_GS_BASE + 16 <= get RSP m - 160 \/ get RSP m <= m_msr m IA32_GS_BASE + 8 ->
  after_pushes ([SS_SEL; load64 (m_mem m) (m_msr m IA32_GS_BASE + USER_RSP_TMP); get R11 m; CS_SEL] ++
    map (fun r => get r m) ([RCX; RAX] ++ scratch_pushed ++ preserved_pushed)) m
    (exec ([push_imm SS_SEL; push_gs USER_RSP_TMP; push R11; push_imm CS_SEL; push RCX; push RAX] ++
      push_scratch ++ push_preserved) m).
Proof.
  intros Hsp Hdis.
  assert (H4 : after_pushes [SS_SEL; load64 (m_mem m) (m_msr m IA32_GS_BASE + USER_RSP_TMP); get R11 m; CS_SEL]
    m (exec [push_imm SS_SEL; push_gs USER_RSP_TMP; push R11; push_imm CS_SEL] m)).
  { apply (after_pushes_snoc [_; _; _]); [|simpl; lia].
    apply (after_pushes_snoc [_; _] m (exec [push_imm SS_SEL; push_gs USER_RSP_TMP] m) (get R11 m));
      [|simpl; lia].
    assert (H1 := push_val_after SS_SEL m ltac:(lia)).
    replace (load64 (m_mem m) (m_msr m IA32_GS_BASE + USER_RSP_TMP)) with
      (load64 (m_mem (push_val SS_SEL m)) (m_msr m IA32_GS_BASE + USER_RSP_TMP)).
    - apply (after_pushes_snoc [_]); [done|simpl; lia].
    - rewrite (ap_mem _ _ _ H1). apply load64_pushed_outside. unfold USER_RSP_TMP. simpl. lia. }
  apply (after_pushes_regs _ _ _ ([RCX; RAX] ++ scratch_pushed ++ preserved_pushed)) in H4;
    [|by apply (bool_decide_unpack _)|simpl; lia].
  rewrite map_app, map_app in H4. rewrite <- exec_app in H4. exact H4.
Qed.

Lemma syscall_entry_spec ksp m top :
  16 <= ksp -> regs_in_range m -> byte_memory (m_mem m) ->
  load64 (m_mem m) (m_msr m IA32_KERNEL_GS_BASE + ksp) = top -> 160 <= top < 2 ^ 64 ->
  top <= m_msr m IA32_KERNEL_GS_BASE + 8 \/ m_msr m IA32_KERNEL_GS_BASE + 16 <= top - 160 ->
  let m' := exec (syscall_entry ksp) m in
  get RSP m' = top - 160 /\ get RDI m' = top - 160 /\
  read_stack (m_mem m') (top - 160) =
    regs_frame (m_reg m) (mkIret (get RCX m) CS_SEL (get R11 m) (get RSP m) SS_SEL) /\
  byte_memory (m_mem m') /\ m_msr m' = m_msr (swapgs m).
Proof.
  intros Hk Hr Hb Htop Hrange Hdis.
  change (syscall_entry ksp) with ([swapgs; mov_store_gs USER_RSP_TMP RSP; mov_load_gs RSP ksp] ++
    ([push_imm SS_SEL; push_gs USER_RSP_TMP; push R11; push_imm CS_SEL; push RCX; push RAX] ++
      push_scratch ++ push_preserved) ++ [mov RDI RSP]).
  rewrite (exec_app [swapgs; _; _]), (exec_app (_ ++ push_scratch ++ push_preserved)).
  generalize (syscall_stack_switch ksp m Hk).
  generalize (exec [swapgs; mov_store_gs USER_RSP_TMP RSP; mov_load_gs RSP ksp] m) as m2.
  cbv zeta. rewrite Htop. intros m2 (H1 & Hsp & Hmem & Hmsr & _ & _ & _).
  assert (Hgs : m_msr m2 IA32_GS_BASE = m_msr m IA32_KERNEL_GS_BASE) by (rewrite Hmsr, msr_swapgs; done).
  assert (Hu : load64 (m_mem m2) (m_msr m2 IA32_GS_BASE + USER_RSP_TMP) = get RSP m).
  { rewrite Hmem, Hgs. by apply load64_store64. }
  generalize (push_user_frame m2 ltac:(lia) ltac:(rewrite Hgs; lia)). rewrite Hu.
  generalize (exec ([push_imm SS_SEL; push_gs USER_RSP_TMP; push R11; push_imm CS_SEL; push RCX; push RAX] ++
      push_scratch ++ push_preserved) m2) as m3.
  intros m3 [K1 _ K3 [_ _ _ _ K4 _]]. cbn [exec fold_left]. generalize (mov_rdi_rsp m3).
  generalize (mov RDI RSP m3) as m4. intros m4 (J1 & J2 & J3 & [_ _ _ _ J4 _]). cbv zeta.
  rewrite J2, J1, J3, J4, K1, K3, K4, Hsp by done. split; [simpl; lia|]. split; [simpl; lia|].
  split; [|split; [|done]].
  - apply read_pushed.
    + unfold regs_frame. simpl. rewrite !H1 by done. done.
    + simpl. rewrite !H1 by done.
      repeat (apply List.Forall_cons; [first [apply Hr|done]|]). apply List.Forall_nil.
  - apply pushed_range. rewrite Hmem. by apply store_bytes_range.
Qed.

Lemma read_stack_ext mem mem' a :
  (forall x, a <= x < a + INT_REGS_SIZE -> mem x = mem' x) -> read_stack mem a = read_stack mem' a.
Proof.
  intros H. unfold INT_REGS_SIZE, PRESERVED_SIZE, SCRATCH_SIZE in H.
  unfold read_stack. f_equal; f_equal; apply load64_outside; intros x Hx; apply H; lia.
Qed.

Definition set_rax (v : Z) (st : InterruptStack) : InterruptStack :=
  regs_frame (fun r => if decide (r = RAX) then v else frame_reg st r) (iret st).

Lemma read_set_syscall_ret v a mem :
  0 <= v < 2 ^ 64 -> read_stack (set_syscall_ret_reg v a mem) a = set_rax v (read_stack mem a).
Proof.
  intros Hv. unfold read_stack, set_syscall_ret_reg, RAX_OFFSET, SCRATCH_OFFSET, PRESERVED_SIZE.
  unfold set_rax, regs_frame. cbn [iret]. f_equal; f_equal; first
    [ exact (load64_store64 mem (a + 8 * 14) v Hv)
    | etransitivity; [apply load64_store_ne; lia|reflexivity] ].
Qed.

(** The effect of the system call handler on memory. *)
Definition syscall_effect (stack : Z) (mem : Z -> Z) : outcome (Z -> Z) :=
  r ← inner_syscall_instruction stack mem false; Done r.1.

Lemma syscall_insn_range u :
  regs_in_range u -> 0 <= m_rip u < 2 ^ 64 -> 0 <= m_rflags u < 2 ^ 64 ->
  regs_in_range (syscall_insn u).
Proof.
  intros Hr Hrip Hfl r. destruct (decide (r = R11)) as [->|H1]; [exact Hfl|].
  destruct (decide (r = RCX)) as [->|H2]; [exact Hrip|].
  change (0 <= get r (set R11 (m_rflags u) (set RCX (m_rip u) u)) < 2 ^ 64).
  rewrite !get_set_ne by done. apply Hr.
Qed.

(** The frame [__inner_syscall_instruction] gets. *)
Definition syscall_frame (u : machine) : InterruptStack :=
  regs_frame (m_reg (syscall_insn u)) (mkIret (m_rip u) CS_SEL (m_rflags u) (get RSP u) SS_SEL).

(** A program that may call the kernel: its state is in range, the entry point
    is set up as [init_syscall] does it, and the kernel stack named by the
    control region is apart from it. *)
Record may_call (ksp entry : Z) (boot : machine) (top : Z) (u : machine) : Prop := {
  mc_ksp : 16 <= ksp;
  mc_regs : regs_in_range u;
  mc_mem : byte_memory (m_mem u);
  mc_rip : 0 <= m_rip u < 2 ^ 47;
  mc_rflags : 0 <= m_rflags u < 2 ^ 64 /\ Z.lor (Z.land (m_rflags u) 0x3c7fd7) 2 = m_rflags u;
  mc_star : m_msr u IA32_STAR = m_msr (init_syscall entry boot) IA32_STAR;
  mc_top : load64 (m_mem u) (m_msr u IA32_KERNEL_GS_BASE + ksp) = top /\ INT_REGS_SIZE <= top < 2 ^ 64;
  mc_apart : top <= m_msr u IA32_KERNEL_GS_BASE + 8 \/ m_msr u IA32_KERNEL_GS_BASE + 16 <= top - INT_REGS_SIZE
}.

Lemma syscall_enters ksp entry boot top u : may_call ksp entry boot top u ->
  let m1 := exec (syscall_entry ksp) (syscall_insn u) in
  get RSP m1 = top - 160 /\ get RDI m1 = top - 160 /\ read_stack (m_mem m1) (top - 160) = syscall_frame u /\
  byte_memory (m_mem m1) /\ m_msr m1 = m_msr (swapgs (syscall_insn u)).
Proof.
  intros [Hk Hr Hb Hrip [Hfl _] _ [Htop Hrange] Hdis].
  unfold INT_REGS_SIZE, PRESERVED_SIZE, SCRATCH_SIZE in Hrange, Hdis.
  pose proof (syscall_insn_range u Hr ltac:(lia) Hfl) as Hr1.
  exact (syscall_entry_spec ksp (syscall_insn u) top Hk Hr1 Hb Htop ltac:(lia)
    ltac:(change (m_msr (syscall_insn u)) with (m_msr u); lia)).
Qed.

Lemma syscall_returns ksp entry boot top u call : may_call ksp entry boot top u ->
  let m1 := exec (syscall_entry ksp) (syscall_insn u) in
  rust_call INT_REGS_SIZE syscall_effect m1 (call m1) ->
  let m' := syscall_instruction ksp call (syscall_insn u) in
  (forall r, r ∉ [RAX; RCX; R11] -> get r m' = get r u) /\ get RAX m' = 0 /\
  m_rip m' = m_rip u /\ m_rflags m' = m_rflags u /\ m_cs m' = CS_SEL /\ m_ss m' = SS_SEL /\
  m_msr m' IA32_GS_BASE = m_msr u IA32_GS_BASE /\
  m_msr m' IA32_KERNEL_GS_BASE = m_msr u IA32_KERNEL_GS_BASE.
Proof.
  intros Hu. generalize (syscall_enters _ _ _ _ _ Hu).
  destruct Hu as [Hk Hr Hb Hrip [Hfl Hfl2] Hstar [Htop Hrange] Hdis].
  unfold INT_REGS_SIZE, PRESERVED_SIZE, SCRATCH_SIZE in Hrange, Hdis. cbv zeta.
  unfold syscall_instruction. generalize (exec (syscall_entry ksp) (syscall_insn u)) as m1.
  intros m1 (Hsp & Hdi & Hst & Hb1 & Hmsr) Hcall.
  destruct Hcall as [Hsaved (mem & Heff & Hframe) _ _ Hcmsr _].
  revert Hsaved Hframe Hcmsr. generalize (call m1) as m2. intros m2 Hsaved Hframe Hcmsr.
  pose proof (Hsaved RSP ltac:(by apply (bool_decide_unpack _))) as Hsp2. rewrite Hsp in Hsp2.
  unfold syscall_effect, inner_syscall_instruction in Heff. cbn in Heff. injection Heff as <-.
  rewrite Hsp, Hdi in Hframe. pose proof (read_stack_ext _ _ _ Hframe) as Hst2.
  rewrite read_set_syscall_ret, Hst in Hst2 by lia.
  destruct (enter_usermode_spec m2 _ ltac:(lia) ltac:(rewrite Hsp2; unfold INT_REGS_SIZE, PRESERVED_SIZE, SCRATCH_SIZE; lia)
    ltac:(rewrite Hsp2, Hframe by (unfold INT_REGS_SIZE, PRESERVED_SIZE, SCRATCH_SIZE; lia);
          by apply store_bytes_range) ltac:(rewrite Hsp2; exact Hst2)) as (E1 & E2 & E3 & E4 & _).
  rewrite E3, E4, Hcmsr, Hmsr, !msr_swapgs. rewrite Hcmsr, Hmsr, msr_swapgs in E2.
  split; [|split; [by apply E1, (bool_decide_unpack _)|]].
  - intros r Hin. rewrite E1 by (intros ?; apply Hin; by right).
    destruct r; try done; by exfalso; apply Hin, (bool_decide_unpack _).
  - change (i_rflags _) with (m_rflags u) in E2. change (i_rip _) with (m_rip u) in E2.
    destruct (Z.testbit (m_rflags u) TF).
    + destruct E2 as (-> & -> & -> & ->). done.
    + change (m_msr (syscall_insn u)) with (m_msr u) in E2. cbn [decide] in E2.
      destruct E2 as (-> & -> & -> & ->). rewrite Hfl2, sign_extend48_spec, Z.mod_small by lia.
      rewrite (proj2 (Z.ltb_lt _ _)) by lia. split_and!; try done.
      all: repeat (rewrite decide_False by done). all: by rewrite Hstar.
Qed.

(** C16. A system call returns to the program that made it: the kernel leaves
    every register but RAX, RCX and R11 as it was, RAX holds the result 0,
    execution continues after the [syscall] instruction on the same stack with
    the same flags, in the user segments, with the user's GS base in place,
    whether the trap flag takes the return through [sysretq] or [iretq]. *)
Theorem syscall_roundtrip ksp entry boot top u call :
  may_call ksp entry boot top u -> (forall m, rust_call INT_REGS_SIZE syscall_effect m (call m)) ->
  let m' := syscall_instruction ksp call (syscall_insn u) in
  (forall r, r ∉ [RAX; RCX; R11] -> get r m' = get r u) /\ get RAX m' = 0 /\
  m_rip m' = m_rip u /\ m_rflags m' = m_rflags u /\ m_cs m' = CS_SEL /\ m_ss m' = SS_SEL /\
  m_msr m' IA32_GS_BASE = m_msr u IA32_GS_BASE /\
  m_msr m' IA32_KERNEL_GS_BASE = m_msr u IA32_KERNEL_GS_BASE.
Proof. intros Hu Hcall. by apply (syscall_returns ksp entry boot top u call). Qed.

Lemma sign_extend48_canonical v : canonical v -> sign_extend48 v = v.
Proof.
  rewrite sign_extend48_spec. intros [Hc|Hc].
  - rewrite Z.mod_small by lia. by rewrite (proj2 (Z.ltb_lt _ _)) by lia.
  - assert (v mod 2 ^ 48 = v - (2 ^ 64 - 2 ^ 48)) as ->.
    { symmetry. apply (Z.mod_unique_pos _ _ (2 ^ 16 - 1)); lia. }
    rewrite (proj2 (Z.ltb_ge _ _)) by lia. lia.
Qed.

(** The return through [sysretq] never hands a non-canonical address to
    the processor: RIP is the saved address sign-extended from bit 47, which
    is the saved address itself when that is canonical. *)
Theorem sysret_rip_canonical m :
  let rip := load64 (m_mem m) (get RSP m) in
  canonical (m_rip (exec return_sysret m)) /\
  (canonical rip -> m_rip (exec return_sysret m) = rip).
Proof.
  set (rip := load64 (m_mem m) (get RSP m)).
  change (m_rip (exec return_sysret m)) with (sign_extend48 rip). split; [|apply sign_extend48_canonical].
  rewrite sign_extend48_spec. pose proof (Z.mod_pos_bound rip (2 ^ 48) eq_refl).
  unfold canonical. destruct (Z.ltb_spec (rip mod 2 ^ 48) (2 ^ 47)); lia.
Qed.

(** ** Interrupts *)

(** The interrupted program cannot tell: [m'] is [u] but for memory. *)
Record resumed (u m' : machine) : Prop := {
  rs_regs r : get r m' = get r u;
  rs_rip : m_rip m' = m_rip u;
  rs_rflags : m_rflags m' = m_rflags u;
  rs_cs : m_cs m' = m_cs u;
  rs_ss : m_ss m' = m_ss u;
  rs_gs : m_msr m' IA32_GS_BASE = m_msr u IA32_GS_BASE;
  rs_kgs : m_msr m' IA32_KERNEL_GS_BASE = m_msr u IA32_KERNEL_GS_BASE
}.

(** The values of a state that fit their registers. *)
Record state_in_range (u : machine) : Prop := {
  sr_regs : regs_in_range u;
  sr_rip : 0 <= m_rip u < 2 ^ 64;
  sr_rflags : 0 <= m_rflags u < 2 ^ 64;
  sr_cs : 0 <= m_cs u < 2 ^ 64;
  sr_ss : 0 <= m_ss u < 2 ^ 64
}.

(** The frame of an interrupted program. *)
Definition trap_frame (u : machine) : InterruptStack :=
  regs_frame (m_reg u) (mkIret (m_rip u) (m_cs u) (m_rflags u) (get RSP u) (m_ss u)).
Definition iret_values (u : machine) : list Z :=
  [m_ss u; get RSP u; m_rflags u; m_cs u; m_rip u].

(** The state a handler starts in. *)
Record trapped (u : machine) (vs : list Z) (sp : Z) (m : machine) : Prop := {
  tr_regs r : r <> RSP -> get r m = get r u;
  tr_rsp : get RSP m = sp - 8 * Z.of_nat (length vs);
  tr_mem : m_mem m = pushed vs sp (m_mem u)
}.

Lemma trapped_word u vs sp m j v :
  trapped u vs sp m -> reverse vs !! j = Some v -> 0 <= v < 2 ^ 64 ->
  load64 (m_mem m) (get RSP m + 8 * Z.of_nat j) = v.
Proof. intros [_ H2 H3] Hj Hv. rewrite H2, H3. by apply load64_frame. Qed.

Lemma exec_push_vals vs m :
  8 * Z.of_nat (length vs) <= get RSP m < 2 ^ 64 -> after_pushes vs m (exec (map push_val vs) m).
Proof.
  induction vs as [|v vs IH] using rev_ind; intros Hsp.
  { split; try done. simpl. lia. }
  rewrite length_app in Hsp. simpl in Hsp. rewrite map_app, exec_app. apply after_pushes_snoc; [|lia].
  apply IH. lia.
Qed.

Lemma deliver_trapped handler sp kcs kss u :
  160 <= sp < 2 ^ 64 -> let m := deliver handler sp kcs kss u in
  trapped u (iret_values u) sp m /\ m_msr m = m_msr u /\ m_gdtr m = m_gdtr u.
Proof.
  intros Hsp. unfold deliver.
  generalize (exec_push_vals (iret_values u) (set RSP sp u) ltac:(rewrite get_set_eq; simpl; lia)).
  change (exec (map push_val (iret_values u))) with (exec [push_val (m_ss u); push_val (get RSP u);
    push_val (m_rflags u); push_val (m_cs u); push_val (m_rip u)]).
  generalize (exec [push_val (m_ss u); push_val (get RSP u);
    push_val (m_rflags u); push_val (m_cs u); push_val (m_rip u)] (set RSP sp u)) as m.
  intros m [H1 H2 H3 [_ _ _ _ H4 H5]]. rewrite get_set_eq in H1, H3.
  split; [|done]. split; [|done..].
  intros r Hr. etransitivity; [apply (H2 r Hr)|]. by apply get_set_ne.
Qed.

(** [test [rsp + o], 3; jz 1f; swapgs; 1:] *)
Lemma swapgs_iff_spec o m :
  let m' := exec [test_mem64 RSP o 3; unless_zero [swapgs]] m in
  (forall r, get r m' = get r m) /\ m_mem m' = m_mem m /\ m_gdtr m' = m_gdtr m /\
  m_msr m' = if Z.land (load64 (m_mem m) (get RSP m + o)) 3 =? 0 then m_msr m else m_msr (swapgs m).
Proof.
  cbn [exec fold_left]. unfold unless_zero, test_mem64. rewrite zero_flag_logic.
  by destruct (_ =? 0).
Qed.

Definition saved_regs : list reg := [RAX] ++ scratch_pushed ++ preserved_pushed.

Lemma rsp_not_saved : RSP ∉ saved_regs.
Proof. by apply (bool_decide_unpack _). Qed.

Lemma save_regs u vs rs sp m :
  RSP ∉ rs -> 8 * (Z.of_nat (length vs) + Z.of_nat (length rs)) <= sp < 2 ^ 64 -> trapped u vs sp m ->
  let m' := exec (map push rs) m in
  trapped u (vs ++ map (fun r => get r u) rs) sp m' /\ m_msr m' = m_msr m /\ m_gdtr m' = m_gdtr m.
Proof.
  intros Hin Hsp [H1 H2 H3]. generalize (exec_pushes rs m Hin ltac:(lia)).
  generalize (exec (map push rs) m) as m'. intros m' [K1 K2 K3 [_ _ _ _ K4 K5]]. cbv zeta.
  erewrite map_ext_in in K3; [|intros r Hr; apply H1; intros ->; by apply list_elem_of_In in Hr].
  split; [|done]. split.
  - intros r Hr. by rewrite K2, H1.
  - rewrite K1, H2, length_app, !length_map. lia.
  - by rewrite K3, H3, pushed_app, H2.
Qed.

Lemma trap_frame_read u sp mem :
  state_in_range u ->
  read_stack (pushed (iret_values u ++ map (fun r => get r u) saved_regs) sp mem) (sp - 160) = trap_frame u.
Proof.
  intros [Hr ? ? ? ?]. apply read_pushed; [done|]. simpl.
  repeat (apply List.Forall_cons; [first [apply Hr|done]|]). apply List.Forall_nil.
Qed.

(** The return state of [u] at an address. *)
Definition iret_at (u : machine) (mem : Z -> Z) (a : Z) : Prop :=
  load64 mem a = m_rip u /\ load64 mem (a + 8) = m_cs u /\ load64 mem (a + 16) = m_rflags u /\
  load64 mem (a + 24) = get RSP u /\ load64 mem (a + 32) = m_ss u.

Lemma frame_iret u mem a : read_stack mem a = trap_frame u -> iret_at u mem (a + 120).
Proof.
  intros H. apply (f_equal iret) in H. unfold read_stack, trap_frame, regs_frame in H. cbn [iret] in H.
  unfold iret_at. rewrite <- !Z.add_assoc. injection H. done.
Qed.

(** [iretq] with the return state of [u] on the stack. *)
Lemma iret_resumes u m :
  iret_at u (m_mem m) (get RSP m) -> (forall r, r <> RSP -> get r m = get r u) ->
  let m' := iretq m in
  (forall r, get r m' = get r u) /\ m_rip m' = m_rip u /\ m_rflags m' = m_rflags u /\
  m_cs m' = m_cs u /\ m_ss m' = m_ss u /\ m_msr m' = m_msr m.
Proof.
  intros (F0 & F1 & F2 & F3 & F4) Hr. unfold iretq. rewrite Z.mul_0_r, Z.add_0_r.
  cbn [m_rip m_rflags m_cs m_ss m_msr set_segments set_rflags set_rip set].
  split_and!; try done. intros r. destruct (decide (r = RSP)) as [->|H]; [done|].
  rewrite <- Hr by done. exact (get_set_ne r RSP _ m H).
Qed.

(** The GS base of the kernel, at an interrupt of a program in segment [cs]. *)
Definition kernel_gs (u : machine) : Z :=
  if Z.land (m_cs u) 3 =? 0 then m_msr u IA32_GS_BASE else m_msr u IA32_KERNEL_GS_BASE.

Definition gs_swapped (u : machine) : Z -> Z :=
  if Z.land (m_cs u) 3 =? 0 then m_msr u else m_msr (swapgs u).

Lemma gs_swapped_kernel u : gs_swapped u IA32_GS_BASE = kernel_gs u.
Proof. unfold gs_swapped, kernel_gs. by destruct (_ =? 0). Qed.

(** [cld] and the conditional [swapgs] at the start of a handler. *)
Lemma swap_in u sp m vs o :
  state_in_range u -> trapped u vs sp m -> m_msr m = m_msr u ->
  load64 (m_mem m) (get RSP m + o) = m_cs u ->
  let m' := exec ([cld] ++ [test_mem64 RSP o 3; unless_zero [swapgs]]) m in
  trapped u vs sp m' /\ m_msr m' = gs_swapped u /\ m_gdtr m' = m_gdtr m.
Proof.
  intros Hu [H1 H2 H3] Hm Hcs. rewrite exec_app. change (exec [cld] m) with (cld m).
  generalize (swapgs_iff_spec o (cld m)). change (get RSP (cld m)) with (get RSP m).
  change (m_mem (cld m)) with (m_mem m). rewrite Hcs.
  generalize (exec [test_mem64 RSP o 3; unless_zero [swapgs]] (cld m)) as m'.
  intros m' (K1 & K2 & K3 & K4). split; [|split; [|exact K3]].
  - split; [intros r Hr|..]; rewrite ?K1, ?K2; [by apply H1|done|done].
  - rewrite K4. unfold gs_swapped. change (m_msr (cld m)) with (m_msr m).
    rewrite (msr_swapgs_ext (cld m) u Hm), Hm. done.
Qed.

(** Returning through the conditional [swapgs] and [iretq]. *)
Lemma swap_out u m :
  iret_at u (m_mem m) (get RSP m) -> (forall r, r <> RSP -> get r m = get r u) ->
  m_msr m = gs_swapped u -> resumed u (exec (swapgs_iff_ring3_fast ++ [iretq]) m).
Proof.
  intros Hf Hr Hm. unfold swapgs_iff_ring3_fast. rewrite exec_app. cbn [exec fold_left].
  generalize (swapgs_iff_spec 8 m). cbn [exec fold_left].
  generalize (unless_zero [swapgs] (test_mem64 RSP 8 3 m)) as m1. intros m1 (K1 & K2 & _ & K4).
  pose proof Hf as (_ & Hcs & _). rewrite <- K2, <- (K1 RSP) in Hf.
  destruct (iret_resumes u m1 Hf ltac:(intros r ?; by rewrite K1, Hr)) as (J1 & J2 & J3 & J4 & J5 & J6).
  rewrite Hcs in K4. unfold gs_swapped in Hm. rewrite K4 in J6.
  split; [done..| |]; rewrite J6; destruct (_ =? 0); rewrite ?msr_swapgs, Hm; try done.
Qed.

Definition keeps_frame : Z -> (Z -> Z) -> outcome (Z -> Z) := fun _ mem => Done mem.

(** A call that keeps the frame leaves it to be popped. *)
Lemma frame_after_call u sp m m1 :
  read_stack (m_mem m) (sp - 160) = trap_frame u -> get RSP m = sp - 160 ->
  rust_call INT_REGS_SIZE keeps_frame m m1 ->
  read_stack (m_mem m1) (sp - 160) = trap_frame u /\ get RSP m1 = sp - 160.
Proof.
  intros Hf Hsp [Hs (mem & [= <-] & Hmem) _ _ _ _]. rewrite Hsp in Hmem.
  split; [by rewrite (read_stack_ext _ _ _ Hmem)|]. rewrite Hs; [done|by apply (bool_decide_unpack _)].
Qed.

Lemma pop_trap_frame u sp m :
  160 <= sp < 2 ^ 64 -> read_stack (m_mem m) (sp - 160) = trap_frame u -> get RSP m = sp - 160 ->
  let m' := exec (pop_preserved ++ pop_scratch) m in
  iret_at u (m_mem m') (get RSP m') /\
  (forall r, r <> RSP -> get r m' = get r u) /\ m_msr m' = m_msr m.
Proof.
  intros Hsp Hf Hr. destruct (pop_frame m ltac:(lia) ltac:(lia)) as (H1 & H2 & H3 & [_ _ _ _ H4 _]).
  cbv zeta. rewrite H2, H3, Hr.
  split; [by apply frame_iret|]. split; [|done]. intros r Hr'. rewrite H1, Hr, Hf by done. by destruct r.
Qed.

(** The state at the call of the handler. *)
Lemma interrupt_stack_enters u sp d :
  state_in_range u -> 160 <= sp < 2 ^ 64 -> trapped u (iret_values u) sp d -> m_msr d = m_msr u ->
  let m := exec (interrupt_stack_entry swapgs_iff_ring3_fast nop) d in
  read_stack (m_mem m) (sp - 160) = trap_frame u /\ get RSP m = sp - 160 /\ get RDI m = sp - 160 /\
  m_msr m = gs_swapped u.
Proof.
  intros Hu Hsp Hd Hmsr.
  pose proof (trapped_word u _ sp d 1 (m_cs u) Hd eq_refl (sr_cs u Hu)) as Hcs.
  change (interrupt_stack_entry swapgs_iff_ring3_fast nop) with
    (([cld] ++ [test_mem64 RSP 8 3; unless_zero [swapgs]]) ++
     map push saved_regs ++ [mov RDI RSP]).
  rewrite (exec_app ([cld] ++ _)), (exec_app (map push _)).
  generalize (swap_in u sp d _ 8 Hu Hd Hmsr Hcs).
  generalize (exec ([cld] ++ [test_mem64 RSP 8 3; unless_zero [swapgs]]) d) as m1. intros m1 (H1 & H2 & _).
  generalize (save_regs u (iret_values u) saved_regs sp m1 rsp_not_saved ltac:(simpl; lia) H1).
  generalize (exec (map push saved_regs) m1) as m2.
  intros m2 ([K1 K2 K3] & K4 & _). change (exec [mov RDI RSP] m2) with (mov RDI RSP m2).
  destruct (mov_rdi_rsp m2) as (J1 & J2 & J3 & [_ _ _ _ J4 _]). cbv zeta.
  rewrite J1, J2, J3, J4, K2, K3, K4, H2 by done. split; [by apply trap_frame_read|].
  split_and!; [simpl; lia..|done].
Qed.

(** From the call of a handler that keeps the frame to the program. *)
Lemma handler_returns u sp m call :
  160 <= sp < 2 ^ 64 -> read_stack (m_mem m) (sp - 160) = trap_frame u -> get RSP m = sp - 160 ->
  m_msr m = gs_swapped u -> (forall m, rust_call INT_REGS_SIZE keeps_frame m (call m)) ->
  resumed u (exec (pop_preserved ++ pop_scratch ++ swapgs_iff_ring3_fast ++ [iretq]) (call m)).
Proof.
  intros Hsp H1 H2 H4 Hcall. pose proof (rc_msr _ _ _ _ (Hcall m)) as Hm.
  destruct (frame_after_call u sp m (call m) H1 H2 (Hcall m)) as [F1 F2].
  revert F1 F2 Hm. generalize (call m) as m1. intros m1 F1 F2 Hm. rewrite app_assoc, exec_app.
  generalize (pop_trap_frame u sp m1 Hsp F1 F2). generalize (exec (pop_preserved ++ pop_scratch) m1) as m2.
  intros m2 (P1 & P2 & P3). apply swap_out; [done..|]. by rewrite P3, Hm.
Qed.

(** C18. An interrupt whose handler is built by [interrupt_stack!] is invisible
    to the interrupted program, in user or in kernel mode: all registers, the
    flags, the segments and both GS bases are as before; the handler runs with
    the kernel's GS base and is given the exact registers of the program. *)
Theorem interrupt_stack_transparent handler sp kcs kss u call :
  state_in_range u -> INT_REGS_SIZE <= sp < 2 ^ 64 ->
  (forall m, rust_call INT_REGS_SIZE keeps_frame m (call m)) ->
  let d := deliver handler sp kcs kss u in
  let m := exec (interrupt_stack_entry swapgs_iff_ring3_fast nop) d in
  read_stack (m_mem m) (get RDI m) = trap_frame u /\ m_msr m IA32_GS_BASE = kernel_gs u /\
  resumed u (interrupt_stack_fast call d).
Proof.
  intros Hu Hsp Hcall. unfold INT_REGS_SIZE, PRESERVED_SIZE, SCRATCH_SIZE in Hsp.
  cbv zeta. unfold interrupt_stack_fast, interrupt_stack.
  destruct (deliver_trapped handler sp kcs kss u Hsp) as (Hd & Hmsr & _).
  generalize (interrupt_stack_enters u sp _ Hu Hsp Hd Hmsr).
  generalize (exec (interrupt_stack_entry swapgs_iff_ring3_fast nop) (deliver handler sp kcs kss u)) as m.
  intros m (H1 & H2 & H3 & H4). rewrite H3, H4, gs_swapped_kernel. split; [done|]. split; [done|].
  by apply handler_returns with sp.
Qed.

(** ** Exceptions with an error code *)

(** The error code is swapped with RAX. *)
Lemma swap_error_code m :
  let m' := exec [mov_load RSI RSP (PRESERVED_SIZE + SCRATCH_SIZE - 8);
    mov_store RSP (PRESERVED_SIZE + SCRATCH_SIZE - 8) RAX; mov RDI RSP] m in
  get RSP m' = get RSP m /\ get RDI m' = get RSP m /\
  get RSI m' = load64 (m_mem m) (get RSP m + RAX_OFFSET) /\
  m_mem m' = set_syscall_ret_reg (get RAX m) (get RSP m) (m_mem m) /\ m_msr m' = m_msr m.
Proof. done. Qed.

Lemma set_rax_trap_frame u code :
  set_rax (get RAX u) (regs_frame (fun r => if decide (r = RAX) then code else get r u) (iret (trap_frame u))) =
    trap_frame u.
Proof. done. Qed.

Definition error_saved : list reg := scratch_pushed ++ preserved_pushed.

Lemma rsp_not_error_saved : RSP ∉ error_saved.
Proof. by apply (bool_decide_unpack _). Qed.

Lemma interrupt_error_enters handler sp kcs kss u code :
  state_in_range u -> 160 <= sp < 2 ^ 64 -> 0 <= code < 2 ^ 64 ->
  let m := exec interrupt_error_entry (push_val code (deliver handler sp kcs kss u)) in
  read_stack (m_mem m) (sp - 160) = trap_frame u /\ get RSP m = sp - 160 /\ get RDI m = sp - 160 /\
  get RSI m = code /\ m_msr m = gs_swapped u.
Proof.
  intros Hu Hsp Hcode. generalize (deliver_trapped handler sp kcs kss u Hsp).
  generalize (deliver handler sp kcs kss u) as d. intros d ([D1 D2 D3] & Hmsr & _).
  destruct (push_val_after code d) as [E1 E2 E3 [_ _ _ _ E4 _]]; [rewrite D2; simpl; lia|].
  rewrite D2 in E1, E3. rewrite Hmsr in E4. rewrite D3 in E3. revert E1 E2 E3 E4.
  generalize (push_val code d) as e. intros e E1 E2 E3 E4.
  assert (He : trapped u (iret_values u ++ [code]) sp e).
  { split; [intros r Hr; by rewrite E2, D1|rewrite E1; simpl; lia|]. rewrite E3. by rewrite pushed_app. }
  pose proof (trapped_word u _ sp e 2 (m_cs u) He eq_refl (sr_cs u Hu)) as Hcs.
  change interrupt_error_entry with
    (([cld] ++ [test_mem64 RSP 16 3; unless_zero [swapgs]]) ++ map push error_saved ++
     [mov_load RSI RSP (PRESERVED_SIZE + SCRATCH_SIZE - 8);
      mov_store RSP (PRESERVED_SIZE + SCRATCH_SIZE - 8) RAX; mov RDI RSP]).
  rewrite (exec_app ([cld] ++ _)), (exec_app (map push _)).
  generalize (swap_in u sp e _ 16 Hu He E4 Hcs).
  generalize (exec ([cld] ++ [test_mem64 RSP 16 3; unless_zero [swapgs]]) e) as m1. intros m1 (H1 & H2 & _).
  generalize (save_regs u (iret_values u ++ [code]) error_saved sp m1 rsp_not_error_saved ltac:(simpl; lia) H1).
  generalize (exec (map push error_saved) m1) as m2. intros m2 ([K1 K2 K3] & K4 & _).
  assert (Hf : read_stack (m_mem m2) (sp - 160) =
    regs_frame (fun r => if decide (r = RAX) then code else get r u) (iret (trap_frame u))).
  { rewrite K3. apply read_pushed; [done|]. destruct Hu as [Hr ? ? ? ?]. simpl.
    repeat (apply List.Forall_cons; [first [apply Hr|done]|]). apply List.Forall_nil. }
  destruct (swap_error_code m2) as (J1 & J2 & J3 & J4 & J5). cbv zeta.
  rewrite J1, J2, J3, J4, J5, K4, H2, K2.
  replace (sp - 8 * Z.of_nat (length ((iret_values u ++ [code]) ++ map (λ r : reg, get r u) error_saved)))
    with (sp - 160) by done.
  rewrite read_set_syscall_ret, K1, Hf by (done || rewrite K1 by done; apply Hu).
  split; [apply set_rax_trap_frame|]. split_and!; try done.
  change (s_rax (scratch (read_stack (m_mem m2) (sp - 160))) = code). by rewrite Hf.
Qed.

(** C19. An exception with an error code, handled through
    [interrupt_error!], is transparent for a handler that returns: the handler
    gets the error code and the saved frame, runs on the kernel's GS base, and the
    interrupted program resumes as if nothing had happened. *)
Theorem interrupt_error_transparent handler sp kcs kss u code call :
  state_in_range u -> INT_REGS_SIZE <= sp < 2 ^ 64 -> 0 <= code < 2 ^ 64 ->
  (forall m, rust_call INT_REGS_SIZE keeps_frame m (call m)) ->
  let d := push_val code (deliver handler sp kcs kss u) in
  let m := exec interrupt_error_entry d in
  read_stack (m_mem m) (get RDI m) = trap_frame u /\ get RSI m = code /\
  m_msr m IA32_GS_BASE = kernel_gs u /\ resumed u (interrupt_error call d).
Proof.
  intros Hu Hsp Hcode Hcall. unfold INT_REGS_SIZE, PRESERVED_SIZE, SCRATCH_SIZE in Hsp.
  cbv zeta. unfold interrupt_error. generalize (interrupt_error_enters handler sp kcs kss u code Hu Hsp Hcode).
  generalize (exec interrupt_error_entry (push_val code (deliver handler sp kcs kss u))) as m.
  intros m (H1 & H2 & H3 & H4 & H5). rewrite H3, H5, gs_swapped_kernel. split; [done|]. split; [done|].
  split; [done|]. by apply handler_returns with sp.
Qed.

(** ** Interrupts that save the scratch registers only *)

Definition scratch_saved : list reg := [RAX] ++ scratch_pushed.

(** The bytes of the scratch registers and the return state. *)
Definition SCRATCH_FRAME : Z := SCRATCH_SIZE + 5 * 8.

Lemma rsp_not_scratch_saved : RSP ∉ scratch_saved.
Proof. by apply (bool_decide_unpack _). Qed.

Lemma interrupt_enters handler sp kcs kss u :
  state_in_range u -> 160 <= sp < 2 ^ 64 ->
  let m := exec interrupt_entry (deliver handler sp kcs kss u) in
  trapped u (iret_values u ++ map (fun r => get r u) scratch_saved) sp m /\ m_msr m = gs_swapped u.
Proof.
  intros Hu Hsp. generalize (deliver_trapped handler sp kcs kss u Hsp).
  generalize (deliver handler sp kcs kss u) as d. intros d (Hd & Hmsr & _).
  pose proof (trapped_word u _ sp d 1 (m_cs u) Hd eq_refl (sr_cs u Hu)) as Hcs.
  change interrupt_entry with
    (([cld] ++ [test_mem64 RSP 8 3; unless_zero [swapgs]]) ++ map push scratch_saved).
  rewrite exec_app. generalize (swap_in u sp d _ 8 Hu Hd Hmsr Hcs).
  generalize (exec ([cld] ++ [test_mem64 RSP 8 3; unless_zero [swapgs]]) d) as m1. intros m1 (H1 & H2 & _).
  generalize (save_regs u (iret_values u) scratch_saved sp m1 rsp_not_scratch_saved ltac:(simpl; lia) H1).
  generalize (exec (map push scratch_saved) m1) as m2.
  intros m2 (K & K4 & _). split; [done|]. by rewrite K4.
Qed.

(** Popping the scratch registers after a call that kept them. *)
Lemma pop_scratch_frame u sp m m1 :
  state_in_range u -> 160 <= sp < 2 ^ 64 ->
  trapped u (iret_values u ++ map (fun r => get r u) scratch_saved) sp m ->
  rust_call SCRATCH_FRAME keeps_frame m m1 ->
  let m' := exec pop_scratch m1 in
  iret_at u (m_mem m') (get RSP m') /\ (forall r, r <> RSP -> get r m' = get r u) /\ m_msr m' = m_msr m1.
Proof.
  intros Hu Hsp [H1 H2 H3] [Hs (mem & [= <-] & Hmem) _ _ _ _].
  unfold SCRATCH_FRAME, SCRATCH_SIZE in Hmem.
  set (vs := iret_values u ++ map (fun r => get r u) scratch_saved) in *.
  change (Z.of_nat (length vs)) with 14 in H2.
  assert (Hv : forall v, v ∈ reverse vs -> 0 <= v < 2 ^ 64).
  { intros v Hv. apply elem_of_reverse in Hv. revert v Hv. apply Forall_forall.
    destruct Hu as [Hr ? ? ? ?]. simpl.
    repeat (apply List.Forall_cons; [first [apply Hr|done]|]). apply List.Forall_nil. }
  assert (Hw : forall j v, reverse vs !! j = Some v -> load64 (m_mem m1) (sp - 112 + 8 * Z.of_nat j) = v).
  { intros j v Hj. assert (Hl : (j < 14)%nat) by (apply lookup_lt_Some in Hj; exact Hj).
    rewrite <- (load64_frame vs sp (m_mem u) j v Hj) by (eapply Hv, list_elem_of_lookup_2, Hj).
    rewrite <- H3. change (8 * Z.of_nat (length vs)) with 112. apply load64_outside.
    intros x Hx. apply Hmem. lia. }
  assert (Hsp1 : get RSP m1 = sp - 112) by (rewrite Hs; [lia|by apply (bool_decide_unpack _)]).
  destruct (exec_pops scratch_popped m1) as [P1 P2 P3 P4 [_ _ _ _ P5 _]];
    [by apply (bool_decide_unpack _)|by apply (bool_decide_unpack _)|lia|simpl; lia|].
  change (map pop scratch_popped) with pop_scratch in *. cbv zeta. rewrite P4, P1, Hsp1.
  split; [|split; [|done]].
  - change (8 * Z.of_nat (length scratch_popped)) with 72. unfold iret_at.
    rewrite <- !Z.add_assoc. split_and!.
    + exact (Hw 9%nat _ eq_refl). + exact (Hw 10%nat _ eq_refl). + exact (Hw 11%nat _ eq_refl).
    + exact (Hw 12%nat _ eq_refl). + exact (Hw 13%nat _ eq_refl).
  - intros r Hr. destruct (decide (r ∈ scratch_popped)) as [Hin|Hin].
    + apply list_elem_of_lookup in Hin as [i Hi]. rewrite (P2 i r Hi), Hsp1. apply Hw.
      do 9 (destruct i as [|i]; [by injection Hi as <-|]). done.
    + rewrite P3 by done. rewrite Hs; [by apply H1|]. apply (bool_decide_unpack _).
      destruct r; first [done|by exfalso; apply Hin, (bool_decide_unpack _)].
Qed.

(** An interrupt handled through [interrupt!], which saves only the
    scratch registers and relies on the handler for the others, is transparent:
    the handler runs on the kernel's GS base, and the interrupted program resumes
    as if nothing had happened. *)
Theorem interrupt_transparent handler sp kcs kss u call :
  state_in_range u -> INT_REGS_SIZE <= sp < 2 ^ 64 ->
  (forall m, rust_call SCRATCH_FRAME keeps_frame m (call m)) ->
  let d := deliver handler sp kcs kss u in
  m_msr (exec interrupt_entry d) IA32_GS_BASE = kernel_gs u /\ resumed u (interrupt call d).
Proof.
  intros Hu Hsp Hcall. unfold INT_REGS_SIZE, PRESERVED_SIZE, SCRATCH_SIZE in Hsp.
  cbv zeta. unfold interrupt. generalize (interrupt_enters handler sp kcs kss u Hu Hsp).
  generalize (exec interrupt_entry (deliver handler sp kcs kss u)) as m. intros m (H1 & H2).
  rewrite H2, gs_swapped_kernel. split; [done|].
  pose proof (rc_msr _ _ _ _ (Hcall m)) as Hm. rewrite exec_app.
  generalize (pop_scratch_frame u sp m (call m) Hu Hsp H1 (Hcall m)).
  generalize (exec pop_scratch (call m)) as m2. intros m2 (P1 & P2 & P3).
  apply swap_out; [done..|]. by rewrite P3, Hm.
Qed.

(** ** Paranoid interrupts *)

(** Reading the GDT base through the stack, and the GS base through [rdmsr]. *)
Lemma paranoid_addresses limit gdt_off m :
  16 <= get RSP m < 2 ^ 64 -> 0 <= m_gdtr m < 2 ^ 64 -> 0 <= m_msr m IA32_GS_BASE < 2 ^ 64 ->
  let m' := exec [sub_imm RSP 16; sgdt limit RSP 6; mov_load RDI RSP 8; add_imm RSP 16;
    sub_imm RDI gdt_off; mov_imm RCX IA32_GS_BASE; rdmsr; shl_imm RDX 32; or_reg RDX RAX] m in
  get RDI m' = wrap 64 (m_gdtr m - gdt_off) /\ get RDX m' = m_msr m IA32_GS_BASE /\
  get RSP m' = get RSP m /\ (forall r, r ∉ [RDI; RDX; RCX; RAX; RSP] -> get r m' = get r m) /\
  (forall x, get RSP m <= x -> m_mem m' x = m_mem m x) /\ m_msr m' = m_msr m.
Proof.
  intros Hsp Hg Hgs.
  assert (E1 : wrap 64 (get RSP m - 16) = get RSP m - 16) by (apply Z.mod_small; lia).
  assert (E2 : wrap 64 (get RSP m - 16 + 16) = get RSP m) by (rewrite wrap_small; lia).
  split_and!.
  - change (wrap 64 (load64 (store64 (store_bytes 2 (m_mem m) (wrap 64 (get RSP m - 16) + 6) limit)
      (wrap 64 (get RSP m - 16) + 6 + 2) (m_gdtr m)) (wrap 64 (get RSP m - 16) + 8) - gdt_off) =
      wrap 64 (m_gdtr m - gdt_off)).
    rewrite <- (Z.add_assoc _ 6 2). change (6 + 2) with 8. by rewrite load64_store64.
  - set (v := m_msr m IA32_GS_BASE) in *.
    change (Z.lor (wrap 64 (Z.shiftl (wrap 32 (v / 2 ^ 32)) 32)) (wrap 32 v) = v).
    unfold wrap. rewrite (Z.mod_small (v / 2 ^ 32)).
    2:{ split; [apply Z.div_pos; lia|]. apply Z.div_lt_upper_bound; lia. }
    rewrite Z.shiftl_mul_pow2 by lia. pose proof (Z.div_mod v (2 ^ 32) ltac:(lia)).
    pose proof (Z.mod_pos_bound v (2 ^ 32) eq_refl). rewrite Z.mod_small by lia.
    rewrite lor_field by lia. lia.
  - change (wrap 64 (wrap 64 (get RSP m - 16) + 16) = get RSP m). by rewrite E1.
  - intros r Hr. destruct r; try done; by exfalso; apply Hr, (bool_decide_unpack _).
  - intros x Hx. cbn [exec fold_left].
    change (store64 (store_bytes 2 (m_mem m) (wrap 64 (get RSP m - 16) + 6) limit)
      (wrap 64 (get RSP m - 16) + 6 + 2) (m_gdtr m) x = m_mem m x).
    rewrite E1. unfold store64. rewrite !store_bytes_outside by lia. done.
  - done.
Qed.

Lemma wrap_sub_zero x y : 0 <= x < 2 ^ 64 -> 0 <= y < 2 ^ 64 -> (wrap 64 (x - y) =? 0) = (x =? y).
Proof.
  intros Hx Hy. unfold wrap. destruct (Z.eqb_spec x y) as [->|Hne].
  { by rewrite Z.sub_diag, Z.mod_0_l. }
  apply Z.eqb_neq. intros H. apply Z.mod_divide in H as [q Hq]; [|lia]. assert (q = 0) by nia. lia.
Qed.

(** The flag [sete bl] leaves for the way back. *)
Lemma wrap_low8 v b : 0 <= b < 256 -> wrap 8 (v - wrap 8 v + b) = b.
Proof.
  intros Hb. unfold wrap. change (2 ^ 8) with 256. symmetry.
  apply (Z.mod_unique_pos _ _ (v / 256)); [done|]. pose proof (Z.div_mod v 256 ltac:(lia)). lia.
Qed.

(** Comparing the two addresses and swapping when they differ. *)
Lemma paranoid_swap m :
  0 <= get RDX m < 2 ^ 64 -> 0 <= get RDI m < 2 ^ 64 ->
  let m' := exec [cmp RDX RDI; sete_low8 RBX; unless_zero [swapgs]] m in
  let eq := get RDX m =? get RDI m in
  wrap 8 (get RBX m') = (if eq then 1 else 0) /\ (forall r, r <> RBX -> get r m' = get r m) /\
  m_mem m' = m_mem m /\ m_msr m' = if eq then m_msr m else m_msr (swapgs m).
Proof.
  intros Hx Hy. cbn [exec fold_left]. set (m1 := cmp RDX RDI m).
  assert (Hz : zero_flag m1 = (get RDX m =? get RDI m)).
  { unfold m1, cmp. by rewrite zero_flag_sub, wrap_sub_zero. }
  assert (Hr : forall r, get r m1 = get r m) by done.
  assert (Hm : m_mem m1 = m_mem m /\ m_msr m1 = m_msr m) by done.
  clearbody m1. destruct Hm as [Hm1 Hm2].
  assert (Hz2 : zero_flag (sete_low8 RBX m1) = zero_flag m1) by done.
  unfold unless_zero. rewrite Hz2, Hz. unfold sete_low8. rewrite Hz. cbv zeta.
  destruct (get RDX m =? get RDI m); cbn [exec fold_left].
  - split; [rewrite get_set_eq; by apply wrap_low8|]. split; [|done].
    intros r Hne. rewrite get_set_ne by done. apply Hr.
  - split; [change (wrap 8 (get RBX m1 - wrap 8 (get RBX m1) + 0) = 0); by apply wrap_low8|].
    split; [|split; [done|]].
    + intros r Hne. etransitivity; [exact (get_set_ne r RBX _ m1 Hne)|apply Hr].
    + by apply (msr_swapgs_ext m1 m).
Qed.

(** The control region's address, and the MSRs with the kernel's GS base in use. *)
Definition pcr_base (gdt_off : Z) (u : machine) : Z := wrap 64 (m_gdtr u - gdt_off).
Definition pcr_active (gdt_off : Z) (u : machine) : bool := m_msr u IA32_GS_BASE =? pcr_base gdt_off u.

Lemma paranoid_enters limit gdt_off handler sp kcs kss u :
  state_in_range u -> 176 <= sp < 2 ^ 64 -> 0 <= m_gdtr u < 2 ^ 64 -> 0 <= m_msr u IA32_GS_BASE < 2 ^ 64 ->
  let m := exec (interrupt_stack_entry nop (conditional_swapgs_paranoid limit gdt_off))
    (deliver handler sp kcs kss u) in
  read_stack (m_mem m) (sp - 160) = trap_frame u /\ get RSP m = sp - 160 /\ get RDI m = sp - 160 /\
  wrap 8 (get RBX m) = (if pcr_active gdt_off u then 1 else 0) /\
  m_msr m = if pcr_active gdt_off u then m_msr u else m_msr (swapgs u).
Proof.
  intros Hu Hsp Hg Hgs. generalize (deliver_trapped handler sp kcs kss u ltac:(lia)).
  generalize (deliver handler sp kcs kss u) as d. intros d (Hd & Hmsr & Hgd).
  set (prefix := [sub_imm RSP 16; sgdt limit RSP 6; mov_load RDI RSP 8; add_imm RSP 16;
    sub_imm RDI gdt_off; mov_imm RCX IA32_GS_BASE; rdmsr; shl_imm RDX 32; or_reg RDX RAX]).
  change (interrupt_stack_entry nop (conditional_swapgs_paranoid limit gdt_off)) with
    ([cld] ++ map push saved_regs ++ prefix ++ [cmp RDX RDI; sete_low8 RBX; unless_zero [swapgs]] ++
     [mov RDI RSP]).
  rewrite (exec_app [cld]), (exec_app (map push _)), (exec_app prefix), (exec_app [cmp _ _; _; _]).
  assert (Hc : trapped u (iret_values u) sp (exec [cld] d)) by (by destruct Hd).
  generalize (save_regs u (iret_values u) saved_regs sp _ rsp_not_saved ltac:(simpl; lia) Hc).
  change (m_msr (exec [cld] d)) with (m_msr d). change (m_gdtr (exec [cld] d)) with (m_gdtr d).
  generalize (exec (map push saved_regs) (exec [cld] d)) as m1. rewrite Hmsr, Hgd.
  intros m1 ([K1 K2 K3] & K4 & K5). change (Z.of_nat (length _)) with 20 in K2.
  generalize (paranoid_addresses limit gdt_off m1 ltac:(lia) ltac:(by rewrite K5) ltac:(by rewrite K4)).
  fold prefix. generalize (exec prefix m1) as m2. rewrite K4, K5.
  intros m2 (P1 & P2 & P3 & _ & P5 & P6).
  generalize (paranoid_swap m2 ltac:(by rewrite P2) ltac:(rewrite P1; by apply Z.mod_pos_bound)).
  generalize (exec [cmp RDX RDI; sete_low8 RBX; unless_zero [swapgs]] m2) as m3. rewrite P1, P2.
  change (m_msr u IA32_GS_BASE =? wrap 64 (m_gdtr u - gdt_off)) with (pcr_active gdt_off u).
  intros m3 (Q1 & Q2 & Q3 & Q4). change (exec [mov RDI RSP] m3) with (mov RDI RSP m3).
  destruct (mov_rdi_rsp m3) as (J1 & J2 & J3 & [_ _ _ _ J4 _]). cbv zeta in *.
  rewrite J1, J3, J4, !J2, Q2, Q3, Q4, P3, K2 by done. split; [|split_and!; [lia..|done|]].
  - rewrite (read_stack_ext _ (m_mem m1)) by (intros x Hx; apply P5; lia). rewrite K3. by apply trap_frame_read.
  - destruct (pcr_active gdt_off u); [by rewrite P6|]. apply msr_swapgs_ext. by rewrite P6.
Qed.

Lemma swap_back_paranoid m :
  let m' := exec conditional_swapgs_back_paranoid m in
  (forall r, get r m' = get r m) /\ m_mem m' = m_mem m /\
  m_msr m' = if wrap 8 (get RBX m) =? 0 then m_msr (swapgs m) else m_msr m.
Proof.
  unfold conditional_swapgs_back_paranoid. cbn [exec fold_left].
  unfold unless_nonzero, test_low8. rewrite zero_flag_logic. by destruct (_ =? 0).
Qed.

(** C20. Interrupts handled through [interrupt_stack!] with [@paranoid] are
    transparent.  They do not trust the saved code segment: they compare the GS
    base with the control region's address, found through the GDT register, and
    undo their own decision on the way out. *)
Theorem paranoid_transparent limit gdt_off handler sp kcs kss u call :
  state_in_range u -> INT_REGS_SIZE + 16 <= sp < 2 ^ 64 -> 0 <= m_gdtr u < 2 ^ 64 ->
  0 <= m_msr u IA32_GS_BASE < 2 ^ 64 ->
  m_msr u IA32_GS_BASE = pcr_base gdt_off u \/ m_msr u IA32_KERNEL_GS_BASE = pcr_base gdt_off u ->
  (forall m, rust_call INT_REGS_SIZE keeps_frame m (call m)) ->
  let d := deliver handler sp kcs kss u in
  let m := exec (interrupt_stack_entry nop (conditional_swapgs_paranoid limit gdt_off)) d in
  read_stack (m_mem m) (get RDI m) = trap_frame u /\ m_msr m IA32_GS_BASE = pcr_base gdt_off u /\
  resumed u (interrupt_stack_paranoid limit gdt_off call d).
Proof.
  intros Hu Hsp Hg Hgs Hpcr Hcall. unfold INT_REGS_SIZE, PRESERVED_SIZE, SCRATCH_SIZE in Hsp.
  cbv zeta. unfold interrupt_stack_paranoid, interrupt_stack.
  generalize (paranoid_enters limit gdt_off handler sp kcs kss u Hu ltac:(lia) Hg Hgs).
  generalize (exec (interrupt_stack_entry nop (conditional_swapgs_paranoid limit gdt_off))
    (deliver handler sp kcs kss u)) as m.
  intros m (H1 & H2 & H3 & H4 & H5). rewrite H3, H5. split; [done|]. split.
  { unfold pcr_active. destruct (Z.eqb_spec (m_msr u IA32_GS_BASE) (pcr_base gdt_off u)) as [|Hne]; [done|].
    rewrite msr_swapgs, decide_True by done. by destruct Hpcr. }
  pose proof (rc_msr _ _ _ _ (Hcall m)) as Hm.
  pose proof (rc_saved _ _ _ _ (Hcall m) RBX ltac:(by apply (bool_decide_unpack _))) as Hbx.
  destruct (frame_after_call u sp m (call m) H1 H2 (Hcall m)) as [F1 F2].
  revert F1 F2 Hm Hbx. generalize (call m) as m1. intros m1 F1 F2 Hm Hbx.
  rewrite exec_app. generalize (swap_back_paranoid m1). rewrite Hbx, H4.
  generalize (exec conditional_swapgs_back_paranoid m1) as m2. intros m2 (B1 & B2 & B3).
  rewrite <- B2 in F1. rewrite <- B1 in F2. unfold nop. rewrite app_nil_l, app_assoc, exec_app.
  generalize (pop_trap_frame u sp m2 ltac:(lia) F1 F2). generalize (exec (pop_preserved ++ pop_scratch) m2) as m3.
  intros m3 (P1 & P2 & P3). change (exec [iretq] m3) with (iretq m3).
  destruct (iret_resumes u m3 P1 P2) as (J1 & J2 & J3 & J4 & J5 & J6). rewrite P3, B3 in J6.
  revert H5 J6. destruct (pcr_active gdt_off u); cbn [Z.eqb]; intros H5 J6.
  - split; [done..| |]; by rewrite J6, Hm, H5.
  - split; [done..| |]; rewrite J6, msr_swapgs, Hm, H5; done.
Qed.

(** ** Instances *)

(** A program in user mode; its control region is at 0x10000 with the kernel
    stack pointer at offset 100, and the GDT at offset 16. *)
Definition blank_machine : machine :=
  mkMachine (fun _ => 0) 0 0 0 0 (fun _ => 0) 0 (fun _ => 0).
Definition sample_user : machine :=
  mkMachine (fun r => if decide (r = RSP) then 0x7f80000000 else 7) 0x400000 0x202 CS_SEL SS_SEL
    (m_msr (set_msr IA32_KERNEL_GS_BASE 0x10000 (init_syscall 0xffff0000 blank_machine))) 0x10010
    (store64 (fun _ => 0) 0x10064 0x90000).

Lemma sample_user_range : state_in_range sample_user.
Proof. split; try done. intros r. by destruct r. Qed.

Lemma identity_call size m : rust_call size keeps_frame m m.
Proof. split; try done. by exists (m_mem m). Qed.

Definition sample_syscall : instr := fun m =>
  set_memory (set_syscall_ret_reg 0 (get RDI m) (m_mem m)) m.

Lemma sample_syscall_call m : rust_call INT_REGS_SIZE syscall_effect m (sample_syscall m).
Proof. split; try done. by eexists. Qed.

Lemma sample_user_memory : byte_memory (m_mem sample_user).
Proof. by apply store_bytes_range. Qed.

Lemma syscall_roundtrip_witness :
  let m' := syscall_instruction 100 sample_syscall (syscall_insn sample_user) in
  (forall r, r ∉ [RAX; RCX; R11] -> get r m' = get r sample_user) /\ get RAX m' = 0 /\
  m_rip m' = 0x400000 /\ m_rflags m' = 0x202 /\ m_cs m' = CS_SEL /\ m_ss m' = SS_SEL /\
  m_msr m' IA32_GS_BASE = 0 /\ m_msr m' IA32_KERNEL_GS_BASE = 0x10000.
Proof.
  apply (syscall_roundtrip 100 0xffff0000 blank_machine 0x90000 sample_user sample_syscall); [|apply sample_syscall_call].
  split; try done; [apply sample_user_range|apply sample_user_memory|right; by vm_compute].
Defined.

Lemma interrupt_stack_transparent_witness :
  let d := deliver 0xffff1000 0x90000 8 0 sample_user in
  let m := exec (interrupt_stack_entry swapgs_iff_ring3_fast nop) d in
  read_stack (m_mem m) (get RDI m) = trap_frame sample_user /\ m_msr m IA32_GS_BASE = 0x10000 /\
  resumed sample_user (interrupt_stack_fast id d).
Proof.
  apply (interrupt_stack_transparent 0xffff1000 0x90000 8 0 sample_user id sample_user_range);
    [done|apply identity_call].
Defined.

Lemma interrupt_error_transparent_witness :
  let d := push_val 6 (deliver 0xffff1000 0x90000 8 0 sample_user) in
  let m := exec interrupt_error_entry d in
  read_stack (m_mem m) (get RDI m) = trap_frame sample_user /\ get RSI m = 6 /\
  m_msr m IA32_GS_BASE = 0x10000 /\ resumed sample_user (interrupt_error id d).
Proof.
  apply (interrupt_error_transparent 0xffff1000 0x90000 8 0 sample_user 6 id sample_user_range);
    [done|done|apply identity_call].
Defined.

Lemma interrupt_transparent_witness :
  let d := deliver 0xffff1000 0x90000 8 0 sample_user in
  m_msr (exec interrupt_entry d) IA32_GS_BASE = 0x10000 /\ resumed sample_user (interrupt id d).
Proof.
  apply (interrupt_transparent 0xffff1000 0x90000 8 0 sample_user id sample_user_range);
    [done|apply identity_call].
Defined.

Lemma paranoid_transparent_witness :
  let d := deliver 0xffff1000 0x90000 8 0 sample_user in
  let m := exec (interrupt_stack_entry nop (conditional_swapgs_paranoid 63 16)) d in
  read_stack (m_mem m) (get RDI m) = trap_frame sample_user /\ m_msr m IA32_GS_BASE = 0x10000 /\
  resumed sample_user (interrupt_stack_paranoid 63 16 id d).
Proof.
  apply (paranoid_transparent 63 16 0xffff1000 0x90000 8 0 sample_user id sample_user_range);
    [done|done|done|by right|apply identity_call].
Defined.
