(* ===== verification/Descriptors.v ===== *)
(** * Descriptor tables

    [kernel/src/gdt.rs] and [interrupt.rs]: the per-processor control region
    with its global descriptor table and task state segment, and the interrupt
    descriptor table with the kind of handler behind each vector.  The tables
    of the [x86_64] crate are interfaces with their documented behaviour. *)

From S2P Require Import Prelude Platform Paging Machine Interrupts.

(** ** The global descriptor table *)

(** [Descriptor] of the crate: one or two 8-byte entries. *)
Inductive Descriptor : Type :=
| UserSegment (bits : Z)
| SystemSegment (low high : Z).

Definition descriptor_entries (d : Descriptor) : list Z :=
  match d with UserSegment v => [v] | SystemSegment l h => [l; h] end.

(** The privilege level of a segment is in bits 45 and 46. *)
Definition descriptor_rpl (d : Descriptor) : Z :=
  match d with
  | UserSegment v => if Z.testbit v 45 && Z.testbit v 46 then 3 else 0
  | SystemSegment _ _ => 0
  end.

Class Gdt (G : Type) : Type := {
  (** [GlobalDescriptorTable::new] *)
  gdt_new : G;
  (** [GlobalDescriptorTable::add_entry], with the selector it returns *)
  gdt_add_entry : G -> Descriptor -> outcome (Z * G);
  (** [Descriptor::kernel_code_segment] and its siblings *)
  kernel_code_segment : Descriptor;
  kernel_data_segment : Descriptor;
  kernel_code32_segment : Descriptor;
  user_data_segment : Descriptor;
  user_code_segment : Descriptor;
  (** [Descriptor::tss_segment] of the task state segment at an address *)
  tss_segment : Z -> Descriptor
}.

Class GdtSpec (G : Type) (GO : Gdt G) : Type := {
  gdt_entries : G -> list Z;
  (** a new table holds the null entry, and there is room for eight *)
  gdt_new_entries : gdt_entries gdt_new = [0];
  gdt_add_entry_spec g d :
    (length (gdt_entries g) + length (descriptor_entries d) <= 8)%nat ->
    exists g', gdt_add_entry g d =
        Done (segment_selector (Z.of_nat (length (gdt_entries g))) (descriptor_rpl d), g') /\
      gdt_entries g' = gdt_entries g ++ descriptor_entries d;
  kernel_segments :
    length (descriptor_entries kernel_code_segment) = 1%nat /\ descriptor_rpl kernel_code_segment = 0 /\
    length (descriptor_entries kernel_data_segment) = 1%nat /\ descriptor_rpl kernel_data_segment = 0 /\
    length (descriptor_entries kernel_code32_segment) = 1%nat /\ descriptor_rpl kernel_code32_segment = 0;
  user_segments :
    length (descriptor_entries user_data_segment) = 1%nat /\ descriptor_rpl user_data_segment = 3 /\
    length (descriptor_entries user_code_segment) = 1%nat /\ descriptor_rpl user_code_segment = 3;
  tss_segment_spec a : exists l h, tss_segment a = SystemSegment l h
}.

(** [GDT_KERNEL_CODE32], [GDT_USER_CODE64] and [GDT_USER_DATA]. *)
Record GdtStatics : Type := mkGdtStatics {
  GDT_KERNEL_CODE32 : option Z;
  GDT_USER_CODE64 : option Z;
  GDT_USER_DATA : option Z
}.

(** The fields of [ProcessorControlRegion] that are written. *)
Record ProcessorControlRegion (G : Type) : Type := mkPcr {
  self_ref : Z;
  pcr_gdt : G;
  tss_privilege_stack : Z;
  tss_interrupt_stack : Z;
  tss_iomap_base : Z;
  all_ones : Z;
  pcr_cpu_id : Z
}.
Arguments mkPcr {G} _ _ _ _ _ _ _.
Arguments self_ref {G} _.
Arguments pcr_gdt {G} _.
Arguments tss_privilege_stack {G} _.
Arguments tss_interrupt_stack {G} _.
Arguments tss_iomap_base {G} _.
Arguments all_ones {G} _.
Arguments pcr_cpu_id {G} _.

(** The processor registers [init_gdt] loads. *)
Record CpuTables : Type := mkCpuTables {
  ct_machine : machine;
  ct_ds : Z;
  ct_es : Z;
  ct_gs : Z;
  ct_tr : Z;
  ct_cr0 : Z
}.

Section Gdt.
Context {G : Type} {GO : Gdt G} {V : X86Virt} {A : Type}.
Context (frame_alloc_n : Z -> frame_source A).
(** The sizes of the control region and of the task state segment, and the
    offsets of the table and of the segment in the region. *)
Context (pcr_size tss_size gdt_off tss_off : Z).

Definition set_tss_stack (stack_virt_addr : Z) (p : ProcessorControlRegion G)
  : outcome (ProcessorControlRegion G) :=
  v ← virt_addr_new stack_virt_addr;
  Done (mkPcr (self_ref p) (pcr_gdt p) v (tss_interrupt_stack p) (tss_iomap_base p) (all_ones p) (pcr_cpu_id p)).

Definition set_userspace_io_allowed (allowed : bool) (p : ProcessorControlRegion G)
  : outcome (ProcessorControlRegion G) :=
  base ← (if allowed then checked 16 tss_size else Done 0xffff);
  Done (mkPcr (self_ref p) (pcr_gdt p) (tss_privilege_stack p) (tss_interrupt_stack p) base
    (all_ones p) (pcr_cpu_id p)).

Definition set_gdt (g : G) (p : ProcessorControlRegion G) : ProcessorControlRegion G :=
  mkPcr (self_ref p) g (tss_privilege_stack p) (tss_interrupt_stack p) (tss_iomap_base p)
    (all_ones p) (pcr_cpu_id p).

(** [ONCE.call_once(|| gdt.add_entry(d))]: only the first call runs. *)
Definition once_add_entry (once : option Z) (d : Descriptor) (g : G) : outcome (option Z * G) :=
  match once with
  | Some s => Done (Some s, g)
  | None => r ← gdt_add_entry g d; Done (Some r.1, r.2)
  end.

(** [init_gdt]; [p] is what the memory of the region held before. *)
Definition init_gdt (cpu_id kernel_stack_top : Z) (p : ProcessorControlRegion G)
    (st : GdtStatics) (c : CpuTables) (a : A)
  : outcome (ProcessorControlRegion G * GdtStatics * CpuTables * A) :=
  r ← frame_alloc_n (- (- pcr_size / PAGE_SIZE)) a;
  addr ← or_panic r.1;
  let p := mkPcr addr gdt_new 0 0 (tss_iomap_base p) (all_ones p) (pcr_cpu_id p) in
  p ← set_tss_stack kernel_stack_top p;
  let p := mkPcr (self_ref p) (pcr_gdt p) (tss_privilege_stack p) (tss_interrupt_stack p) 0xffff 0xff
    (pcr_cpu_id p) in
  '(code_selector, g) ← gdt_add_entry (pcr_gdt p) kernel_code_segment;
  '(data_selector, g) ← gdt_add_entry g kernel_data_segment;
  '(code32, g) ← once_add_entry (GDT_KERNEL_CODE32 st) kernel_code32_segment g;
  '(user_data, g) ← once_add_entry (GDT_USER_DATA st) user_data_segment g;
  '(user_code, g) ← once_add_entry (GDT_USER_CODE64 st) user_code_segment g;
  '(tss_selector, g) ← gdt_add_entry g (tss_segment (addr + tss_off));
  let m := ct_machine c in
  let m := mkMachine (m_reg m) (m_rip m) (m_rflags m) code_selector data_selector (m_msr m)
    (addr + gdt_off) (m_mem m) in
  let m := set_msr IA32_FS_BASE 0 (set_msr IA32_KERNEL_GS_BASE 0 (set_msr IA32_GS_BASE addr m)) in
  let p := set_gdt g p in
  Done (mkPcr (self_ref p) (pcr_gdt p) (tss_privilege_stack p) (tss_interrupt_stack p) (tss_iomap_base p)
          (all_ones p) cpu_id,
        mkGdtStatics code32 user_code user_data,
        mkCpuTables m 0 0 0 tss_selector (Z.lor (ct_cr0 c) 1), r.2).
End Gdt.

(** ** The table of a processor *)

(** Runs the next [add_entry] of the table [g] whose entries are known by [He]. *)
Ltac gdt_step H :=
  let g := fresh "g" in let Hg := fresh "Hg" in let He := fresh "He" in
  destruct H as (g & Hg & He); rewrite Hg, Done_bind; cbv beta iota; clear Hg.

Section GdtSpec.
Context {G : Type} {GO : Gdt G} {GS : GdtSpec G GO} {V : X86Virt} {VS : X86VirtSpec V} {A : Type}.
Context (frame_alloc_n : Z -> frame_source A) (pcr_size gdt_off tss_off : Z).

Lemma gdt_add g es d :
  gdt_entries g = es -> (length es + length (descriptor_entries d) <= 8)%nat ->
  exists g', gdt_add_entry g d = Done (segment_selector (Z.of_nat (length es)) (descriptor_rpl d), g') /\
    gdt_entries g' = es ++ descriptor_entries d.
Proof. intros <-. apply gdt_add_entry_spec. Qed.

Lemma once_add_first g es d :
  gdt_entries g = es -> (length es + length (descriptor_entries d) <= 8)%nat ->
  exists g', once_add_entry None d g =
      Done (Some (segment_selector (Z.of_nat (length es)) (descriptor_rpl d)), g') /\
    gdt_entries g' = es ++ descriptor_entries d.
Proof.
  intros He H. destruct (gdt_add g es d He H) as (g' & Hg & He'). exists g'.
  unfold once_add_entry. by rewrite Hg.
Qed.

(** On the first processor the table is null, kernel code, kernel data,
    32-bit code, user data, user code and the task segment: the selectors
    stored for user mode are the ones the system call path uses, and they name
    the user segments. *)
Theorem bsp_gdt_layout cpu top p c a addr a' :
  frame_alloc_n (- (- pcr_size / PAGE_SIZE)) a = Done (Some addr, a') -> canonical top ->
  exists p' c', init_gdt frame_alloc_n pcr_size gdt_off tss_off cpu top p (mkGdtStatics None None None) c a =
      Done (p', mkGdtStatics (Some (segment_selector 3 (descriptor_rpl kernel_code32_segment))) (Some CS_SEL) (Some SS_SEL), c', a') /\
    gdt_entries (pcr_gdt p') = [0] ++ descriptor_entries kernel_code_segment ++
      descriptor_entries kernel_data_segment ++ descriptor_entries kernel_code32_segment ++
      descriptor_entries user_data_segment ++ descriptor_entries user_code_segment ++
      descriptor_entries (tss_segment (addr + tss_off)) /\
    m_cs (ct_machine c') = segment_selector 1 0 /\ m_ss (ct_machine c') = segment_selector 2 0 /\
    ct_tr c' = segment_selector 6 0 /\ m_msr (ct_machine c') IA32_GS_BASE = addr /\
    m_mem (ct_machine c') = m_mem (ct_machine c) /\ m_reg (ct_machine c') = m_reg (ct_machine c) /\
    m_rflags (ct_machine c') = m_rflags (ct_machine c) /\
    self_ref p' = addr /\ tss_privilege_stack p' = top /\ pcr_cpu_id p' = cpu.
Proof.
  intros Ha Htop. destruct kernel_segments as (L1 & R1 & L2 & R2 & L3 & R3).
  destruct user_segments as (L4 & R4 & L5 & R5). destruct (tss_segment_spec (addr + tss_off)) as (lo & hi & Ht).
  pose proof gdt_new_entries as Hn. unfold init_gdt, set_tss_stack. rewrite Ha, Done_bind. cbn [fst snd or_panic].
  rewrite Done_bind, virt_addr_new_ok, !Done_bind by done. cbn [pcr_gdt].
  gdt_step (gdt_add gdt_new _ kernel_code_segment Hn ltac:(rewrite L1; simpl; lia)).
  gdt_step (gdt_add g _ kernel_data_segment He ltac:(rewrite !length_app, L1, L2; simpl; lia)).
  cbn [GDT_KERNEL_CODE32 GDT_USER_DATA GDT_USER_CODE64].
  gdt_step (once_add_first g0 _ kernel_code32_segment He0 ltac:(rewrite !length_app, L1, L2, L3; simpl; lia)).
  gdt_step (once_add_first g1 _ user_data_segment He1 ltac:(rewrite !length_app, L1, L2, L3, L4; simpl; lia)).
  gdt_step (once_add_first g2 _ user_code_segment He2 ltac:(rewrite !length_app, L1, L2, L3, L4, L5; simpl; lia)).
  gdt_step (gdt_add g3 _ (tss_segment (addr + tss_off)) He3
    ltac:(rewrite Ht, !length_app, L1, L2, L3, L4, L5; simpl; lia)).
  rewrite !length_app, L1, L2, L3, L4, L5, R1, R2, R4, R5, Ht.
  do 2 eexists. split; [reflexivity|]. cbn [pcr_gdt set_gdt]. rewrite He4, <- !app_assoc, Ht. done.
Qed.

(** [init_gdt] on a later processor, where the shared selectors are set. *)
Lemma ap_init_gdt cpu top p s32 scode sdata c a addr a' :
  frame_alloc_n (- (- pcr_size / PAGE_SIZE)) a = Done (Some addr, a') -> canonical top ->
  exists p' c', init_gdt frame_alloc_n pcr_size gdt_off tss_off cpu top p
      (mkGdtStatics (Some s32) (Some scode) (Some sdata)) c a =
      Done (p', mkGdtStatics (Some s32) (Some scode) (Some sdata), c', a') /\
    gdt_entries (pcr_gdt p') = [0] ++ descriptor_entries kernel_code_segment ++
      descriptor_entries kernel_data_segment ++ descriptor_entries (tss_segment (addr + tss_off)) /\
    m_cs (ct_machine c') = segment_selector 1 0 /\ m_ss (ct_machine c') = segment_selector 2 0 /\
    ct_tr c' = segment_selector 3 0 /\ m_msr (ct_machine c') IA32_GS_BASE = addr /\
    m_mem (ct_machine c') = m_mem (ct_machine c) /\
    self_ref p' = addr /\ tss_privilege_stack p' = top /\ pcr_cpu_id p' = cpu.
Proof.
  intros Ha Htop. destruct kernel_segments as (L1 & R1 & L2 & R2 & _).
  destruct (tss_segment_spec (addr + tss_off)) as (lo & hi & Ht).
  pose proof gdt_new_entries as Hn. unfold init_gdt, set_tss_stack. rewrite Ha, Done_bind. cbn [fst snd or_panic].
  rewrite Done_bind, virt_addr_new_ok, !Done_bind by done. cbn [pcr_gdt once_add_entry].
  gdt_step (gdt_add gdt_new _ kernel_code_segment Hn ltac:(rewrite L1; simpl; lia)).
  gdt_step (gdt_add g _ kernel_data_segment He ltac:(rewrite !length_app, L1, L2; simpl; lia)).
  cbn [once_add_entry GDT_KERNEL_CODE32 GDT_USER_DATA GDT_USER_CODE64]. rewrite !Done_bind.
  gdt_step (gdt_add g0 _ (tss_segment (addr + tss_off)) He0 ltac:(rewrite Ht, !length_app, L1, L2; simpl; lia)).
  do 2 eexists. split; [done|]. cbn [pcr_gdt set_gdt]. rewrite He1, <- !app_assoc. split; [done|].
  rewrite !length_app, L1, L2, R1, R2, Ht. done.
Qed.

(** On every later processor the shared selectors are already set, so its
    table holds no user segments: the task segment is at entry 3 and the
    selectors used to enter user mode name its second half and no entry at
    all. *)
Theorem ap_gdt_lacks_user_segments cpu top p s32 scode sdata c a addr a' :
  frame_alloc_n (- (- pcr_size / PAGE_SIZE)) a = Done (Some addr, a') -> canonical top ->
  exists p' c', init_gdt frame_alloc_n pcr_size gdt_off tss_off cpu top p
      (mkGdtStatics (Some s32) (Some scode) (Some sdata)) c a =
      Done (p', mkGdtStatics (Some s32) (Some scode) (Some sdata), c', a') /\
    ct_tr c' = segment_selector 3 0 /\
    gdt_entries (pcr_gdt p') !! Z.to_nat (SS_SEL / 8) = last (descriptor_entries (tss_segment (addr + tss_off))) /\
    gdt_entries (pcr_gdt p') !! Z.to_nat (CS_SEL / 8) = None.
Proof.
  intros Ha Htop. destruct (ap_init_gdt cpu top p s32 scode sdata c a addr a' Ha Htop) as (p' & c' & E & He & _ & _ & Htr & _).
  exists p', c'. split; [done|]. split; [done|]. destruct kernel_segments as (L1 & _ & L2 & _).
  destruct (tss_segment_spec (addr + tss_off)) as (lo & hi & Ht). rewrite He, Ht.
  destruct (descriptor_entries kernel_code_segment) as [|? []]; try done.
  by destruct (descriptor_entries kernel_data_segment) as [|? []].
Qed.
End GdtSpec.

(** ** The interrupt descriptor table *)

(** The handlers of [interrupt.rs]. *)
Inductive handler : Type :=
| divide_error | debug | non_maskable_interrupt | breakpoint | overflow | bound_range_exceeded
| invalid_opcode | device_not_available | hv_injection_exception | machine_check
| simd_floating_point | virtualization | x87_floating_point | cp_protection_exception
| vmm_communication_exception
| page_fault | invalid_tss | double_fault | segment_not_present | stack_segment_fault
| general_protection_fault | alignment_check | security_exception
| pit_stack | keyboard | cascade | com2 | com1 | lpt2 | floppy | lpt1 | rtc | pci1 | pci2 | pci3
| mouse | fpu | ata1 | ata2 | lapic_timer | lapic_error
| ipi_wakeup | ipi_switch | ipi_pit.

(** The macro each handler is built with. *)
Inductive HandlerMacro : Type := InterruptStackFast | InterruptStackParanoid | InterruptError | InterruptPlain.

#[export] Instance HandlerMacro_eq_dec : EqDecision HandlerMacro.
Proof. solve_decision. Defined.

Definition handler_macro (h : handler) : HandlerMacro :=
  match h with
  | divide_error => InterruptStackFast
  | debug | non_maskable_interrupt => InterruptStackParanoid
  | breakpoint | overflow | bound_range_exceeded | invalid_opcode | device_not_available
  | hv_injection_exception | machine_check | simd_floating_point | virtualization
  | x87_floating_point | cp_protection_exception | vmm_communication_exception => InterruptStackFast
  | page_fault | invalid_tss | double_fault | segment_not_present | stack_segment_fault
  | general_protection_fault | alignment_check | security_exception => InterruptError
  | pit_stack | keyboard | cascade | com2 | com1 | lpt2 | floppy | lpt1 | rtc | pci1 | pci2 | pci3
  | mouse | fpu | ata1 | ata2 | lapic_timer | lapic_error
  | ipi_wakeup | ipi_switch | ipi_pit => InterruptPlain
  end.

(** A gate: its handler, interrupt stack index and the privilege that may
    raise it by software. *)
Record Gate : Type := mkGate { g_handler : handler; g_ist : option Z; g_dpl : Z }.

Abbreviation Idt := (gmap Z Gate).

(** [entry.set_handler_addr(..)] on a new entry. *)
Definition gate (h : handler) : Gate := mkGate h None 0.

Definition LAPIC_TIMER_HANDLER_IDT : Z := 48.
Definition DEPENDENT_STACK_SIZE : Z := 65536.
Definition IPI_WAKEUP : Z := 0x40.
Definition IPI_SWITCH : Z := 0x42.
Definition IPI_PIT : Z := 0x43.

(** The exceptions, in the order they are set; the fields of the crate's table
    are the architecture's vectors. *)
Definition exceptions : list (Z * Gate) :=
  [(3, mkGate breakpoint None 3); (8, mkGate double_fault (Some 0) 0); (14, gate page_fault);
   (0, gate divide_error); (1, gate debug); (2, gate non_maskable_interrupt); (4, gate overflow);
   (5, gate bound_range_exceeded); (6, gate invalid_opcode); (7, gate device_not_available);
   (28, gate hv_injection_exception); (18, gate machine_check); (19, gate simd_floating_point);
   (20, gate virtualization); (16, gate x87_floating_point); (10, gate invalid_tss);
   (11, gate segment_not_present); (12, gate stack_segment_fault); (13, gate general_protection_fault);
   (17, gate alignment_check); (21, gate cp_protection_exception);
   (29, gate vmm_communication_exception); (30, gate security_exception)].

Definition legacy_irqs : list (Z * Gate) :=
  [(32, gate pit_stack); (33, gate keyboard); (34, gate cascade); (35, gate com2); (36, gate com1);
   (37, gate lpt2); (38, gate floppy); (39, gate lpt1); (40, gate rtc); (41, gate pci1);
   (42, gate pci2); (43, gate pci3); (44, gate mouse); (45, gate fpu); (46, gate ata1);
   (47, gate ata2); (LAPIC_TIMER_HANDLER_IDT, gate lapic_timer)].

Definition set_gates (l : list (Z * Gate)) (idt : Idt) : Idt :=
  fold_left (fun t vg => <[vg.1 := vg.2]> t) l idt.

Definition idt_of (cpu_id : Z) : Idt :=
  let idt := set_gates exceptions ∅ in
  let idt := if cpu_id =? 0 then set_gates legacy_irqs idt else idt in
  set_gates [(IPI_WAKEUP, gate ipi_wakeup); (IPI_SWITCH, gate ipi_switch); (IPI_PIT, gate ipi_pit)]
    (set_gates [(49, gate lapic_error)] idt).

Section Idt.
Context {G : Type} {V : X86Virt} {A : Type} (frame_alloc_n : Z -> frame_source A).

(** [init_idt] on the tables of all processors, the control region and the
    frame allocator. *)
Definition init_idt (cpu_id : Z) (idts : gmap Z Idt) (p : ProcessorControlRegion G) (a : A)
  : outcome (gmap Z Idt * ProcessorControlRegion G * A) :=
  r ← frame_alloc_n (DEPENDENT_STACK_SIZE / PAGE_SIZE) a;
  stack ← or_panic r.1;
  v ← virt_addr_new stack;
  top ← virt_addr_add v DEPENDENT_STACK_SIZE;
  Done (<[cpu_id := idt_of cpu_id]> idts,
        mkPcr (self_ref p) (pcr_gdt p) (tss_privilege_stack p) top (tss_iomap_base p) (all_ones p) (pcr_cpu_id p),
        r.2).
End Idt.

(** [index_ok] are the vectors the crate lets be indexed. *)
Definition write_idt_gate (index_ok : Z -> bool) (cpu_id entry_index : Z) (h : handler)
    (idts : gmap Z Idt) : outcome (gmap Z Idt) :=
  idt ← or_panic (idts !! cpu_id);
  _ ← rassert (index_ok entry_index);
  let g := match idt !! entry_index with Some g => mkGate h (g_ist g) (g_dpl g) | None => gate h end in
  Done (<[cpu_id := <[entry_index := g]> idt]> idts).

(** The exceptions for which the processor pushes an error code. *)
Definition error_code_vectors : list Z := [8; 10; 11; 12; 13; 14; 17; 21; 29; 30].

(** The handlers fit the vectors: of all gates of the table, those whose
    vector pushes an error code have a handler that takes one off the stack,
    and no other has, except vectors 21 and 29. *)
Theorem idt_error_codes (bsp : bool) :
  let idt := idt_of (if bsp then 0 else 1) in
  map_Forall (fun v g => v ∉ [21; 29] ->
    (handler_macro (g_handler g) = InterruptError <-> v ∈ error_code_vectors)) idt /\
  (forall v, v ∈ [21; 29] -> v ∈ error_code_vectors /\
     exists g, idt !! v = Some g /\ handler_macro (g_handler g) = InterruptStackFast).
Proof.
  split.
  - apply (bool_decide_unpack _). by destruct bsp; vm_compute.
  - intros v Hv. split; [|set_unfold in Hv; destruct Hv as [->|[->|[]]]; by destruct bsp; eexists].
    set_unfold in Hv. destruct Hv as [->|[->|[]]]; by apply (bool_decide_unpack _).
Qed.

(** The state a handler without an error code takes the interrupted program
    to be in when the processor did push one. *)
Definition shifted (u : machine) (sp code : Z) : machine :=
  mkMachine (fun r => if decide (r = RSP) then m_rflags u else m_reg u r) code (m_cs u) (m_rip u)
    (get RSP u) (m_msr u) (m_gdtr u) (store64 (m_mem u) (sp - 8) (m_ss u)).

Lemma shifted_trapped handler sp kcs kss u code :
  160 <= sp < 2 ^ 64 ->
  let d := push_val code (deliver handler sp kcs kss u) in
  trapped (shifted u sp code) (iret_values (shifted u sp code)) (sp - 8) d /\ m_msr d = m_msr u.
Proof.
  intros Hsp. generalize (deliver_trapped handler sp kcs kss u Hsp).
  generalize (deliver handler sp kcs kss u) as d. intros d ([D1 D2 D3] & Hmsr & _).
  destruct (push_val_after code d) as [E1 E2 E3 [_ _ _ _ E4 _]]; [rewrite D2; simpl; lia|].
  cbv zeta. rewrite E4. split; [|done]. split.
  - intros r Hr. rewrite E2, D1 by done. symmetry. unfold shifted, get. simpl. by rewrite decide_False.
  - rewrite E1, D2. simpl. lia.
  - rewrite E3, D3, D2. change (iret_values u) with (m_ss u :: tail (iret_values u)).
    change (pushed (m_ss u :: tail (iret_values u)) sp (m_mem u)) with
      (pushed (tail (iret_values u)) (sp - 8) (store64 (m_mem u) (sp - 8) (m_ss u))).
    change (iret_values (shifted u sp code)) with (tail (iret_values u) ++ [code]).
    rewrite pushed_app. f_equal. simpl. lia.
Qed.

Lemma shifted_range u sp code : state_in_range u -> 0 <= code < 2 ^ 64 -> state_in_range (shifted u sp code).
Proof.
  intros [Hr ? ? ? ?] Hc. split; try done; [|apply Hr]. intros r. unfold get. simpl. case_decide; [done|apply Hr].
Qed.

(** An exception with an error code whose handler is built by
    [interrupt_stack!], as for vectors 21 and 29, does not return to the
    program: execution continues at the error code, with the interrupted
    instruction's address as the code segment. *)
Theorem error_code_becomes_rip handler sp kcs kss u code call :
  state_in_range u -> INT_REGS_SIZE + 8 <= sp < 2 ^ 64 -> 0 <= code < 2 ^ 64 ->
  (forall m, rust_call INT_REGS_SIZE keeps_frame m (call m)) ->
  let m' := interrupt_stack_fast call (push_val code (deliver handler sp kcs kss u)) in
  m_rip m' = code /\ m_cs m' = m_rip u /\ m_rflags m' = m_cs u /\ get RSP m' = m_rflags u.
Proof.
  intros Hr Hsp Hcode Hcall. unfold INT_REGS_SIZE, PRESERVED_SIZE, SCRATCH_SIZE in Hsp.
  pose proof (shifted_range u sp code Hr Hcode) as Hu.
  destruct (shifted_trapped handler sp kcs kss u code ltac:(lia)) as [Hd Hmsr].
  cbv zeta. unfold interrupt_stack_fast, interrupt_stack.
  generalize (interrupt_stack_enters _ (sp - 8) _ Hu ltac:(lia) Hd Hmsr).
  generalize (exec (interrupt_stack_entry swapgs_iff_ring3_fast nop)
    (push_val code (deliver handler sp kcs kss u))) as m. intros m (H1 & H2 & _ & H4).
  destruct (handler_returns _ (sp - 8) m call ltac:(lia) H1 H2 H4 Hcall) as [K1 K2 K3 K4 _ _ _].
  split; [exact K2|]. split; [exact K4|]. split; [exact K3|]. exact (K1 RSP).
Qed.

(** ** Instances *)

Definition list_gdt : Gdt (list Z) := {|
  gdt_new := [0];
  gdt_add_entry g d :=
    if (length g + length (descriptor_entries d) <=? 8)%nat
    then Done (segment_selector (Z.of_nat (length g)) (descriptor_rpl d), g ++ descriptor_entries d)
    else Panic;
  kernel_code_segment := UserSegment 0x00af9b000000ffff;
  kernel_data_segment := UserSegment 0x00cf93000000ffff;
  kernel_code32_segment := UserSegment 0x00cf9b000000ffff;
  user_data_segment := UserSegment 0x00cff3000000ffff;
  user_code_segment := UserSegment 0x00affb000000ffff;
  tss_segment a := SystemSegment a (a + 1)
|}.

Definition list_gdt_spec : GdtSpec (list Z) list_gdt.
Proof.
  refine {| gdt_entries g := g |}; try done.
  - intros g d H. simpl. rewrite (proj2 (Nat.leb_le _ _)) by done. eauto.
  - intros a. by do 2 eexists.
Defined.

#[local] Existing Instance list_gdt.
#[local] Existing Instance list_gdt_spec.
#[local] Existing Instance x86_virt_model.
#[local] Existing Instance x86_virt_model_spec.

Definition blank_pcr : ProcessorControlRegion (list Z) := mkPcr 0 [] 0 0 0 0 0.
Definition blank_tables : CpuTables := mkCpuTables blank_machine 0 0 0 0 0.

Lemma ap_gdt_lacks_user_segments_witness :
  exists p' c', init_gdt (fun _ => list_source) 0x3000 16 200 1 0x90000 blank_pcr
      (mkGdtStatics (Some 24) (Some CS_SEL) (Some SS_SEL)) blank_tables [0x100000] =
      Done (p', mkGdtStatics (Some 24) (Some CS_SEL) (Some SS_SEL), c', []) /\
    ct_tr c' = segment_selector 3 0 /\
    gdt_entries (pcr_gdt p') !! Z.to_nat (SS_SEL / 8) = last (descriptor_entries (tss_segment (0x100000 + 200))) /\
    gdt_entries (pcr_gdt p') !! Z.to_nat (CS_SEL / 8) = None.
Proof.
  apply (ap_gdt_lacks_user_segments (fun _ => list_source) 0x3000 16 200 1 0x90000 blank_pcr 24 CS_SEL SS_SEL
    blank_tables [0x100000] 0x100000 []); [reflexivity|by left].
Defined.

Lemma error_code_becomes_rip_witness :
  let m' := interrupt_stack_fast id (push_val 6 (deliver 0xffff1000 0x90000 8 0 sample_user)) in
  m_rip m' = 6 /\ m_cs m' = 0x400000 /\ m_rflags m' = CS_SEL /\ get RSP m' = 0x202.
Proof.
  apply (error_code_becomes_rip 0xffff1000 0x90000 8 0 sample_user 6 id sample_user_range);
    [done|done|apply identity_call].
Defined.
