(* ===== verification/UserAddrSpace.v ===== *)
(** * User address spaces

    [kernel/src/mem/user_addr_space.rs] and [user_buffer.rs]: the address space
    of a context, its buffers, and their resolution to physical memory.  The
    page tables live in a store they share (KPaging.v); [World] is the part of
    the machine these functions change: the tables, the frame allocator, the
    physical memory (identity mapped in the kernel) and CR3. *)

From S2P Require Import Prelude Platform Shared Vdso Paging KPaging.

Record World (T A : Type) : Type := mkWorld {
  w_tables : T;
  w_frames : A;
  w_mem : Z -> Z;
  w_cr3 : Z
}.
Arguments mkWorld {T A} _ _ _ _.
Arguments w_tables {T A} _.
Arguments w_frames {T A} _.
Arguments w_mem {T A} _ _.
Arguments w_cr3 {T A} _.

(** [user_buffer::UserBuffer]. *)
Record UserBuffer : Type := mkUserBuffer { ub_base : Z; ub_len : Z }.

(** [TrackedPhysFrame]. *)
Record TrackedPhysFrame : Type := mkTracked { tf_frame : Z; tf_index : Z }.

(** [UserAddrSpace]; the page table is named by the frame of its level-4 table. *)
Record UserAddrSpace : Type := mkAddrSpace {
  as_root : Z;
  pte_frames : list Z;
  tracked_large_buffers : list Z;
  tracked_medium_buffers : list TrackedPhysFrame;
  medium_buffer_pointer : Z;
  tracked_small_buffers : list TrackedPhysFrame;
  small_buffer_pointer : Z;
  consumed_page_count : Z;
  base_address : Z
}.

Definition set_pte_frames (l : list Z) (s : UserAddrSpace) : UserAddrSpace :=
  mkAddrSpace (as_root s) l (tracked_large_buffers s) (tracked_medium_buffers s)
    (medium_buffer_pointer s) (tracked_small_buffers s) (small_buffer_pointer s)
    (consumed_page_count s) (base_address s).
Definition set_large (l : list Z) (s : UserAddrSpace) : UserAddrSpace :=
  mkAddrSpace (as_root s) (pte_frames s) l (tracked_medium_buffers s)
    (medium_buffer_pointer s) (tracked_small_buffers s) (small_buffer_pointer s)
    (consumed_page_count s) (base_address s).
Definition set_medium (l : list TrackedPhysFrame) (p : Z) (s : UserAddrSpace) : UserAddrSpace :=
  mkAddrSpace (as_root s) (pte_frames s) (tracked_large_buffers s) l p
    (tracked_small_buffers s) (small_buffer_pointer s) (consumed_page_count s) (base_address s).
Definition set_small (l : list TrackedPhysFrame) (p : Z) (s : UserAddrSpace) : UserAddrSpace :=
  mkAddrSpace (as_root s) (pte_frames s) (tracked_large_buffers s) (tracked_medium_buffers s)
    (medium_buffer_pointer s) l p (consumed_page_count s) (base_address s).
Definition set_consumed (n : Z) (s : UserAddrSpace) : UserAddrSpace :=
  mkAddrSpace (as_root s) (pte_frames s) (tracked_large_buffers s) (tracked_medium_buffers s)
    (medium_buffer_pointer s) (tracked_small_buffers s) (small_buffer_pointer s) n (base_address s).

Definition set_tables {T A} (t : T) (w : World T A) : World T A :=
  mkWorld t (w_frames w) (w_mem w) (w_cr3 w).
Definition set_frames {T A} (a : A) (w : World T A) : World T A :=
  mkWorld (w_tables w) a (w_mem w) (w_cr3 w).
Definition set_mem {T A} (m : Z -> Z) (w : World T A) : World T A :=
  mkWorld (w_tables w) (w_frames w) m (w_cr3 w).
Definition set_cr3 {T A} (c : Z) (w : World T A) : World T A :=
  mkWorld (w_tables w) (w_frames w) (w_mem w) c.

(** ** Bytes of physical memory *)

(** Memory: a byte for every address. *)
Abbreviation memory := (Z -> Z).

(** [rep movsb], [ptr::copy] and [ptr::copy_nonoverlapping] of disjoint blocks. *)
Definition mem_copy (src dst len : Z) (m : Z -> Z) : Z -> Z :=
  fun x => if (dst <=? x) && (x <? dst + len) then m (src + (x - dst)) else m x.

(** [ptr::write_bytes]. *)
Definition mem_fill (dst len byte : Z) (m : Z -> Z) : Z -> Z :=
  fun x => if (dst <=? x) && (x <? dst + len) then byte else m x.

(** [dest.copy_from_slice(src)] at an address. *)
Definition mem_write (dst : Z) (bytes : list Z) (m : Z -> Z) : Z -> Z :=
  fun x => if (dst <=? x) && (x <? dst + Z.of_nat (length bytes))
           then default 0 (bytes !! Z.to_nat (x - dst)) else m x.

Lemma mem_fill_outside dst len b mem x : x < dst \/ dst + len <= x -> mem_fill dst len b mem x = mem x.
Proof.
  intros H. unfold mem_fill. destruct (Z.leb_spec dst x), (Z.ltb_spec x (dst + len)); simpl; done || lia.
Qed.

Lemma mem_write_outside dst bytes m x : x < dst \/ dst + Z.of_nat (length bytes) <= x -> mem_write dst bytes m x = m x.
Proof.
  intros H. unfold mem_write.
  destruct (Z.leb_spec dst x), (Z.ltb_spec x (dst + Z.of_nat (length bytes))); simpl; done || lia.
Qed.

Section UserAddrSpace.
Context {V : X86Virt} {F : PtFlags} {T A : Type} {TS : TableStore T}.
Context (frame_alloc : frame_source A).

Definition user_flags : Z := flags_or (flags_or PT_PRESENT PT_WRITABLE) PT_USER_ACCESSIBLE.

(** [frame_alloc().or_panic(..)]. *)
Definition take_kframe (w : World T A) : outcome (Z * World T A) :=
  r ← frame_alloc (w_frames w);
  f ← or_panic r.1;
  Done (f, set_frames r.2 w).

(** [impl FrameAllocator for UserAddrSpace] and for [TempAllocator]: a frame
    of the global allocator, recorded in [pte_frames]. *)
Definition pte_source : frame_source (list Z * A) := fun s =>
  r ← frame_alloc s.2;
  f ← or_panic r.1;
  Done (Some f, (s.1 ++ [f], r.2)).

(** [self.page_table.map_to(page, frame, flags, self).or_panic(..)]. *)
Definition as_map_to (page frame flags : Z) (s : UserAddrSpace) (w : World T A)
  : outcome (UserAddrSpace * World T A) :=
  r ← ts_map_to pte_source (w_tables w) (as_root s) page frame flags (pte_frames s, w_frames w);
  match r with
  | (inl _, t, (pf, a)) => Done (set_pte_frames pf s, set_tables t (set_frames a w))
  | (inr _, _, _) => Panic
  end.

Definition addrsp_new (base : Z) (w : World T A) : outcome (UserAddrSpace * World T A) :=
  _ ← rassert (base mod PAGE_SIZE =? 0);
  pml4 ← take_kframe w;
  let w := set_tables (ts_new_table (w_tables pml4.2) pml4.1) pml4.2 in
  small ← take_kframe w;
  medium ← take_kframe small.2;
  let s := mkAddrSpace pml4.1 [] [] [mkTracked medium.1 1] 0 [mkTracked small.1 0] 0 2 base in
  b0 ← u64_add base (0 * PAGE_SIZE);
  v0 ← virt_addr_new b0;
  r ← as_map_to (page_containing_address v0) small.1 user_flags s medium.2;
  b1 ← u64_add base (1 * PAGE_SIZE);
  v1 ← virt_addr_new b1;
  as_map_to (page_containing_address v1) medium.1 user_flags r.1 r.2.

(** [pt[i] = kernel_pml4_pt[i].clone()]; the kernel's level-4 table is at
    [kernel_pml4]. *)
Definition share_entry (kernel_pml4 : Z) (s : UserAddrSpace) (i : nat) (t : T) : T :=
  ts_copy_p4 t (as_root s) (Z.of_nat i) kernel_pml4 (Z.of_nat i).

Definition setup_kernel (kernel_pml4 : Z) (s : UserAddrSpace) (w : World T A) : World T A :=
  let copy := share_entry kernel_pml4 s in
  set_tables
    (copy PHYS_MEM_P4 (copy FRAMEBUFFER_P4 (copy KERNEL_STACK_P4
      (copy BOOTSTRAP_BYTES_P4 (copy KERNEL_BYTES_P4 (w_tables w)))))) w.

(** [RwLockUserAddrSpace::new], without the locks. *)
Definition locked_addrsp_new (kernel_pml4 base : Z) (w : World T A)
  : outcome (UserAddrSpace * World T A) :=
  r ← addrsp_new base w;
  Done (r.1, setup_kernel kernel_pml4 r.1 r.2).

(** [translate_addr(..).map(|_| true).unwrap_or(false)]. *)
Definition addr_mapped (s : UserAddrSpace) (w : World T A) (addr : Z) : bool :=
  match ts_translate (w_tables w) (as_root s) addr with
  | Mapped _ _ _ => true
  | NotMapped | InvalidFrameAddress => false
  end.

(** The address of the page with a given index. *)
Definition page_address (s : UserAddrSpace) (index : Z) : outcome Z :=
  o ← u64_mul index PAGE_SIZE;
  b ← u64_add (base_address s) o;
  virt_addr_new b.

Fixpoint next_page_unused (fuel : nat) (s : UserAddrSpace) (w : World T A)
  : outcome (Z * UserAddrSpace) :=
  match fuel with
  | O => OutOfFuel
  | S fuel =>
      virt_addr ← page_address s (consumed_page_count s);
      if addr_mapped s w virt_addr then
        n ← u64_add (consumed_page_count s) 1;
        next_page_unused fuel (set_consumed n s) w
      else Done (consumed_page_count s, s)
  end.

(** A fresh frame at the next unused page, for a small or medium buffer. *)
Definition alloc_tracked_page (fuel : nat) (s : UserAddrSpace) (w : World T A)
  : outcome (TrackedPhysFrame * Z * UserAddrSpace * World T A) :=
  fr ← take_kframe w;
  idx ← next_page_unused fuel s fr.2;
  virt_addr ← page_address idx.2 idx.1;
  r ← as_map_to (page_containing_address virt_addr) fr.1 user_flags idx.2 fr.2;
  Done (mkTracked fr.1 idx.1, virt_addr, r.1, r.2).

Definition alloc_small (fuel : nat) (size : Z) (s : UserAddrSpace) (w : World T A)
  : outcome (UserBuffer * UserAddrSpace * World T A) :=
  total ← u64_add size (small_buffer_pointer s);
  if PAGE_SIZE <? total then
    '(new_frame, virt_addr, s, w) ← alloc_tracked_page fuel s w;
    n ← u64_add (consumed_page_count s) 1;
    Done (mkUserBuffer virt_addr size,
      set_consumed n (set_small (tracked_small_buffers s ++ [new_frame]) size s), w)
  else
    last_frame ← or_panic (last (tracked_small_buffers s));
    virt_addr ← page_address s (tf_index last_frame);
    p ← u64_add (small_buffer_pointer s) size;
    Done (mkUserBuffer virt_addr size, set_small (tracked_small_buffers s) p s, w).

Definition alloc_medium (fuel : nat) (size : Z) (s : UserAddrSpace) (w : World T A)
  : outcome (UserBuffer * UserAddrSpace * World T A) :=
  total ← u64_add size (medium_buffer_pointer s);
  if PAGE_SIZE <? total then
    '(new_frame, virt_addr, s, w) ← alloc_tracked_page fuel s w;
    n ← u64_add (consumed_page_count s) 1;
    Done (mkUserBuffer virt_addr size,
      set_consumed n (set_medium (tracked_medium_buffers s ++ [new_frame]) size s), w)
  else
    last_frame ← or_panic (last (tracked_medium_buffers s));
    virt_addr ← page_address s (tf_index last_frame);
    p ← u64_add (medium_buffer_pointer s) size;
    Done (mkUserBuffer virt_addr size, set_medium (tracked_medium_buffers s) p s, w).

Definition alloc_large_page (s : UserAddrSpace * World T A) (page : Z)
  : outcome (UserAddrSpace * World T A) :=
  fr ← take_kframe s.2;
  r ← as_map_to page fr.1 user_flags s.1 fr.2;
  Done (set_large (tracked_large_buffers r.1 ++ [fr.1]) r.1, r.2).

(** [Page::range] from the start page: [required_pages] pages. *)
Definition alloc_large (fuel : nat) (size : Z) (s : UserAddrSpace) (w : World T A)
  : outcome (UserBuffer * UserAddrSpace * World T A) :=
  let required_pages := - (- size / PAGE_SIZE) in
  idx ← next_page_unused fuel s w;
  virt_addr ← page_address idx.2 idx.1;
  let start_page := page_containing_address virt_addr in
  _ ← page_add start_page required_pages;
  r ← foldM alloc_large_page (idx.2, w) (frame_list start_page (Z.to_nat required_pages));
  n ← u64_add (consumed_page_count r.1) required_pages;
  Done (mkUserBuffer virt_addr size, set_consumed n r.1, r.2).

Definition addrsp_alloc (fuel : nat) (size : Z) (s : UserAddrSpace) (w : World T A)
  : outcome (UserBuffer * UserAddrSpace * World T A) :=
  if size <=? 64 then alloc_small fuel size s w
  else if size <=? 512 then alloc_medium fuel size s w
  else alloc_large fuel size s w.

(** The loop of [resolve]; slices are pairs of a physical address and a length. *)
Fixpoint resolve_loop (fuel : nat) (s : UserAddrSpace) (w : World T A) (buffer : UserBuffer)
    (resolved_len : Z) (result : list (Z * Z)) : outcome (KResult (list (Z * Z))) :=
  match fuel with
  | O => OutOfFuel
  | S fuel =>
      if resolved_len <? ub_len buffer then
        virt_addr ← virt_addr_new (wrap 64 (ub_base buffer + resolved_len));
        let page := page_containing_address virt_addr in
        match ts_translate_page (w_tables w) (as_root s) page with
        | None => Done (inr (mkKError EFAULT))
        | Some translated =>
            let phys_addr := translated + (virt_addr - page) in
            next_page ← page_add page 1;
            let len_till_page_end := next_page - virt_addr in
            let remain_bytes_len := ub_len buffer - resolved_len in
            let n := if len_till_page_end <? remain_bytes_len
                     then len_till_page_end else remain_bytes_len in
            resolve_loop fuel s w buffer (resolved_len + n) (result ++ [(phys_addr, n)])
        end
      else Done (inl result)
  end.

Definition resolve (fuel : nat) (s : UserAddrSpace) (w : World T A) (buffer : UserBuffer)
  : outcome (KResult (list (Z * Z))) :=
  if ub_len buffer <=? 512 then
    virt_addr ← virt_addr_new (ub_base buffer);
    let page := page_containing_address virt_addr in
    match ts_translate_page (w_tables w) (as_root s) page with
    | None => Done (inr (mkKError EFAULT))
    | Some translated => Done (inl [(translated + (virt_addr - page), ub_len buffer)])
    end
  else resolve_loop fuel s w buffer 0 [].

(** One iteration of [alloc_and_copy_from]: the addresses given to [copy_to]
    are the values of the first bytes, and [start] stays 0. *)
Definition copy_slice (src : list Z) (w : World T A) (slice : Z * Z) : outcome (World T A) :=
  _ ← rassert (0 <? slice.2);
  let dst_ptr := w_mem w slice.1 in
  src_ptr ← or_panic (src !! 0%nat);
  Done (set_mem (mem_copy src_ptr dst_ptr slice.2 (w_mem w)) w).

Definition alloc_and_copy_from (fuel : nat) (src : list Z) (s : UserAddrSpace) (w : World T A)
  : outcome (KResult UserBuffer * UserAddrSpace * World T A) :=
  '(allocated, s, w) ← addrsp_alloc fuel (Z.of_nat (length src)) s w;
  resolved ← resolve fuel s w allocated;
  match resolved with
  | inr e => Done (inr e, s, w)
  | inl slices =>
      _ ← rassert (foldr (fun sl n => sl.2 + n) 0 slices =? Z.of_nat (length src));
      w ← foldM (copy_slice src) w slices;
      Done (inl allocated, s, w)
  end.

(** ** Raw operations *)

Definition raw_map_to (page frame flags : Z) (s : UserAddrSpace) (w : World T A)
  : outcome (UserAddrSpace * World T A) :=
  as_map_to page frame (flags_or flags PT_USER_ACCESSIBLE) s w.

(** [frame_dealloc] does nothing. *)
Definition raw_unmap (page : Z) (s : UserAddrSpace) (w : World T A) : outcome (World T A) :=
  let r := ts_unmap (w_tables w) (as_root s) page in
  _ ← or_panic r.1;
  Done (set_tables r.2 w).

Definition raw_translate (s : UserAddrSpace) (w : World T A) (virt_addr : Z) : TranslateResult :=
  ts_translate (w_tables w) (as_root s) virt_addr.

Definition raw_update_flags (page flags : Z) (s : UserAddrSpace) (w : World T A)
  : outcome (World T A) :=
  let r := ts_update_flags (w_tables w) (as_root s) page flags in
  _ ← rassert r.1;
  Done (set_tables r.2 w).

Definition push_tracked_frame (frame : Z) (s : UserAddrSpace) : UserAddrSpace :=
  set_large (tracked_large_buffers s ++ [frame]) s.

Definition validate (s : UserAddrSpace) (w : World T A) : World T A := set_cr3 (as_root s) w.

(** [Drop]: the frames passed to [frame_dealloc], in order. *)
Definition drop_frames (s : UserAddrSpace) : list Z :=
  map tf_frame (tracked_small_buffers s) ++ map tf_frame (tracked_medium_buffers s) ++
  tracked_large_buffers s ++ pte_frames s ++ [as_root s].
End UserAddrSpace.

(** ** Addresses in the first level-4 entry *)

Lemma low_page_p4 page : 0 <= page < 2 ^ 39 -> p4_of page = 0 /\ below_p4 page = page.
Proof.
  intros H. unfold p4_of, below_p4. rewrite Z.div_small, !Z.mod_small by lia. done.
Qed.

Section Spec.
Context {V : X86Virt} {VS : X86VirtSpec V} {F : PtFlags}.
Context {T : Type} {TS : TableStore T} {TSS : TableStoreSpec T TS}.
Context {A : Type} {frame_alloc : frame_source A} {AS : FrameSourceSpec frame_alloc}.
Implicit Types w : World T A.
Implicit Types s : UserAddrSpace.

Lemma take_kframe_ok w f l :
  fs_inv (w_frames w) -> fs_frames (w_frames w) = f :: l ->
  exists a, take_kframe frame_alloc w = Done (f, set_frames a w) /\ fs_frames a = l /\ fs_inv a /\
    (PAGE_SIZE | f).
Proof.
  intros Hinv Hf. destruct (fs_alloc _ Hinv) as (a & Ha & Ht & Hinv'); [by rewrite Hf|]. rewrite Hf in *.
  pose proof (fs_aligned _ Hinv) as Hal. rewrite Hf in Hal. inversion_clear Hal.
  exists a. unfold take_kframe. rewrite Ha. split_and!; done.
Qed.

Lemma pte_allocs pf a fs q' :
  fs_inv a -> allocs (pte_source frame_alloc) (pf, a) fs q' ->
  q'.1 = pf ++ fs /\ fs = take (length fs) (fs_frames a) /\
  fs_frames q'.2 = drop (length fs) (fs_frames a) /\ fs_inv q'.2.
Proof.
  intros Hinv H. remember (pf, a) as q0 eqn:E. revert pf a E Hinv.
  induction H as [q0|q0 f q1 fs q2 Hf H IH]; intros pf a -> Hinv.
  { by rewrite app_nil_r, drop_0. }
  unfold pte_source in Hf. simpl in Hf.
  destruct (fs_frames a) as [|g l] eqn:Hfr; [destruct (fs_none a Hinv Hfr) as (a' & Ha); by rewrite Ha in Hf|].
  destruct (fs_alloc _ Hinv) as (a' & Ha & Ht & Hinv'); [by rewrite Hfr|]. rewrite Ha in Hf. rewrite Hfr in *. simpl in *. injection Hf as -> <-.
  destruct (IH (pf ++ [f]) a' eq_refl Hinv') as (-> & Hfs & -> & ?). rewrite Ht in *.
  split_and!; [by rewrite <- app_assoc|by f_equal|done|done].
Qed.

(** With enough frames the mapping succeeds. *)
Lemma pte_outcome {P : Type} n pf a (ok : P -> Prop) r :
  fs_inv a -> (n <= length (fs_frames a))%nat -> mapping_outcome n (pte_source frame_alloc) (pf, a) ok r ->
  exists k t' a', (k <= n)%nat /\ r = Done (inl tt, t', (pf ++ take k (fs_frames a), a')) /\ ok t' /\
    fs_frames a' = drop k (fs_frames a) /\ fs_inv a'.
Proof.
  intros Hinv Hn [(fs & t' & [pf' a'] & Hl & Hal & -> & Hok)|(fs & [pf' a1] & Hl & Hal & Hbad)].
  - destruct (pte_allocs _ _ _ _ Hinv Hal) as (Hpf & Hfs & Hd & Hi). simpl in *. subst pf'.
    exists (length fs), t', a'. rewrite <- Hfs. done.
  - destruct (pte_allocs _ _ _ _ Hinv Hal) as (_ & _ & Hd & Hi). simpl in *.
    exfalso. destruct (fs_frames a1) as [|f l] eqn:Hfr.
    + apply (f_equal length) in Hd. rewrite length_drop in Hd. simpl in Hd. lia.
    + destruct (fs_alloc _ Hi) as (a2 & Ha & _); [by rewrite Hfr|]. rewrite Hfr in Ha. simpl in Ha. unfold pte_source in Hbad. simpl in Hbad. rewrite Ha in Hbad. simpl in Hbad.
      by destruct Hbad as [(? & ? & [=] & _)|[[[=] _]|[[=] _]]].
Qed.

(** Mapping below a level-4 entry that is present. *)
Lemma as_map_to_present page frame flags s w t :
  fs_inv (w_frames w) -> (2 <= length (fs_frames (w_frames w)))%nat ->
  (PAGE_SIZE | page) -> (PAGE_SIZE | frame) ->
  ts_p4 (w_tables w) (as_root s) (p4_of page) = Some t ->
  ts_pages (w_tables w) t !! below_p4 page = None ->
  ts_gibs (w_tables w) t !! gib_base (below_p4 page) = None ->
  exists k T' a', as_map_to frame_alloc page frame flags s w =
      Done (set_pte_frames (pte_frames s ++ take k (fs_frames (w_frames w))) s,
            set_tables T' (set_frames a' w)) /\ (k <= 2)%nat /\
    (forall r i, ts_p4 T' r i = ts_p4 (w_tables w) r i) /\
    (forall t', ts_pages T' t' = if decide (t' = t)
       then <[below_p4 page := (frame, flags)]> (ts_pages (w_tables w) t) else ts_pages (w_tables w) t') /\
    (forall t', ts_gibs T' t' = ts_gibs (w_tables w) t') /\
    fs_frames a' = drop k (fs_frames (w_frames w)) /\ fs_inv a'.
Proof.
  intros Hinv Hl Hp Hf Hs Hn Hg.
  destruct (pte_outcome 2 (pte_frames s) _ _ _ Hinv Hl
    (ts_map_to_present _ (pte_source frame_alloc) (w_tables w) (as_root s) page frame flags
      (pte_frames s, w_frames w) t Hp Hf Hs Hn Hg)) as (k & T' & a' & Hk & Heq & (H1 & H2 & H3) & Hfr & Hi).
  exists k, T', a'. unfold as_map_to. rewrite Heq. done.
Qed.

(** Mapping below an absent entry: the next frame becomes the level-3 table. *)
Lemma as_map_to_absent page frame flags s w t l :
  fs_inv (w_frames w) -> fs_frames (w_frames w) = t :: l -> (2 <= length l)%nat ->
  (PAGE_SIZE | page) -> (PAGE_SIZE | frame) ->
  ts_p4 (w_tables w) (as_root s) (p4_of page) = None ->
  exists k T' a', as_map_to frame_alloc page frame flags s w =
      Done (set_pte_frames (pte_frames s ++ take k (t :: l)) s, set_tables T' (set_frames a' w)) /\
    (k <= 3)%nat /\
    (forall r i, ts_p4 T' r i = if decide (r = as_root s /\ i = p4_of page) then Some t
       else ts_p4 (w_tables w) r i) /\
    (forall t', ts_pages T' t' = if decide (t' = t)
       then {[ below_p4 page := (frame, flags) ]} else ts_pages (w_tables w) t') /\
    (forall t', ts_gibs T' t' = if decide (t' = t) then ∅ else ts_gibs (w_tables w) t') /\
    fs_frames a' = drop k (t :: l) /\ fs_inv a'.
Proof.
  intros Hinv Hfr Hl Hp Hf Hs.
  destruct (pte_outcome 3 (pte_frames s) _ _ _ Hinv ltac:(rewrite Hfr; simpl; lia)
    (ts_map_to_absent _ (pte_source frame_alloc) (w_tables w) (as_root s) page frame flags
      (pte_frames s, w_frames w) Hp Hf Hs))
    as (k & T' & a' & Hk & Heq & (t' & a1 & Ha1 & H1 & H2 & H3) & Hfr' & Hi).
  assert (t' = t) as ->.
  { unfold pte_source in Ha1. simpl in Ha1. destruct (fs_alloc _ Hinv) as (a2 & Ha2 & _); [by rewrite Hfr|].
    rewrite Ha2, Hfr in Ha1. simpl in Ha1. by injection Ha1. }
  exists k, T', a'. rewrite Hfr in *. unfold as_map_to. rewrite Heq. done.
Qed.

Lemma page_containing_aligned p : 0 <= p -> (PAGE_SIZE | p) -> page_containing_address p = p.
Proof.
  intros Hp Ha. rewrite page_containing_spec by done. apply Z.mod_divide in Ha; [lia|done].
Qed.

Lemma page_address_ok s i :
  0 <= i -> 0 <= base_address s -> canonical (base_address s + i * PAGE_SIZE) ->
  page_address s i = Done (base_address s + i * PAGE_SIZE).
Proof.
  intros Hi Hb Hc. unfold page_address, u64_mul, u64_add.
  assert (base_address s + i * PAGE_SIZE < 2 ^ 64) by (destruct Hc; lia).
  rewrite checked_in, Done_bind, checked_in, Done_bind by page_lia. by apply virt_addr_new_ok.
Qed.

(** What [addrsp_new] leaves behind: a table in the first frame, with the two
    initial pages behind level-4 entry 0. *)
Record fresh_addrsp (base f0 f1 f2 t : Z) w s w' : Prop := {
  fa_root : as_root s = f0;
  fa_base : base_address s = base;
  fa_small : tracked_small_buffers s = [mkTracked f1 0] /\ small_buffer_pointer s = 0;
  fa_medium : tracked_medium_buffers s = [mkTracked f2 1] /\ medium_buffer_pointer s = 0;
  fa_consumed : consumed_page_count s = 2;
  fa_p4 r i : ts_p4 (w_tables w') r i = if decide (r = f0)
    then (if decide (i = 0) then Some t else None) else ts_p4 (w_tables w) r i;
  fa_pages : ts_pages (w_tables w') t =
    <[base + PAGE_SIZE := (f2, user_flags)]> {[ base := (f1, user_flags) ]};
  fa_gibs : ts_gibs (w_tables w') t = ∅;
  fa_other t' : t' ∉ fs_frames (w_frames w) ->
    ts_pages (w_tables w') t' = ts_pages (w_tables w) t' /\
    ts_gibs (w_tables w') t' = ts_gibs (w_tables w) t';
  fa_inv : fs_inv (w_frames w');
  fa_rest : exists k, (k <= 8)%nat /\ fs_frames (w_frames w') = drop k (fs_frames (w_frames w));
  fa_mem : w_mem w' = w_mem w
}.

Lemma addrsp_new_ok base w f0 f1 f2 t l :
  fs_inv (w_frames w) -> fs_frames (w_frames w) = f0 :: f1 :: f2 :: t :: l -> (4 <= length l)%nat ->
  (PAGE_SIZE | base) -> 0 <= base -> base + PAGE_SIZE < 2 ^ 39 ->
  exists s w', addrsp_new frame_alloc base w = Done (s, w') /\ fresh_addrsp base f0 f1 f2 t w s w'.
Proof.
  intros Hinv Hfr Hl Hal Hb Hb2.
  assert (Hnd : NoDup (f0 :: f1 :: f2 :: t :: l)) by (rewrite <- Hfr; by apply (fs_NoDup (w_frames w))).
  destruct (take_kframe_ok w _ _ Hinv Hfr) as (a0 & Ht0 & Hf0 & Hi0 & _).
  set (w1 := set_tables (ts_new_table (w_tables w) f0) (set_frames a0 w)).
  destruct (take_kframe_ok w1 f1 _ Hi0 Hf0) as (a1 & Ht1 & Hf1 & Hi1 & Hal1).
  destruct (take_kframe_ok (set_frames a1 w1) f2 _ Hi1 Hf1) as (a2 & Ht2 & Hf2 & Hi2 & Hal2).
  set (w3 := set_frames a2 (set_frames a1 w1)).
  set (s0 := mkAddrSpace f0 [] [] [mkTracked f2 1] 0 [mkTracked f1 0] 0 2 base).
  destruct (low_page_p4 base) as [Hp0 Hb0]; [page_lia|].
  destruct (low_page_p4 (base + PAGE_SIZE)) as [Hp1 Hb1]; [page_lia|].
  destruct (as_map_to_absent base f1 user_flags s0 w3 t l) as (k & T1 & a3 & Hm1 & Hk & HP & HG & HB & Hf3 & Hi3);
    try done; [lia|rewrite Hp0; simpl; rewrite ts_new_table_p4; by rewrite decide_True|].
  set (s1 := set_pte_frames (pte_frames s0 ++ take k (t :: l)) s0) in *.
  set (w4 := set_tables T1 (set_frames a3 w3)) in *.
  rewrite Hp0, Hb0 in *.
  destruct (as_map_to_present (base + PAGE_SIZE) f2 user_flags s1 w4 t)
    as (k2 & T2 & a4 & Hm2 & Hk2 & HP2 & HG2 & HB2 & Hf4 & Hi4); try done.
  { simpl. rewrite Hf3, length_drop. simpl. lia. }
  { auto with pages. }
  { rewrite Hp1. simpl. rewrite HP. by rewrite decide_True. }
  { rewrite Hb1. simpl. rewrite HG, decide_True by done. apply lookup_singleton_ne. page_lia. }
  { simpl. rewrite HB, decide_True by done. done. }
  rewrite Hb1 in HG2. simpl in HP2, HG2, HB2, Hf4.
  exists (set_pte_frames (pte_frames s1 ++ take k2 (fs_frames (w_frames w4))) s1),
    (set_tables T2 (set_frames a4 w4)). split.
  - unfold addrsp_new.
    rewrite (proj2 (Z.eqb_eq _ _)) by (by apply Z.mod_divide).
    cbn [rassert]. rewrite Done_bind, Ht0, Done_bind. cbn [fst snd w_tables set_frames].
    fold w1. rewrite Ht1, Done_bind. cbn [fst snd]. rewrite Ht2, Done_bind. cbn [fst snd].
    fold w3 s0. unfold u64_add. rewrite Z.mul_0_l, Z.add_0_r, Z.mul_1_l.
    rewrite (checked_in 64 base), Done_bind, (checked_in 64 (base + PAGE_SIZE)) by page_lia.
    rewrite (virt_addr_new_ok base), Done_bind, (page_containing_aligned base), Hm1, !Done_bind
      by (done || left; page_lia). cbn [fst snd].
    rewrite virt_addr_new_ok, Done_bind, page_containing_aligned, Hm2; [done|page_lia| |left; page_lia].
    auto with pages.
  - apply NoDup_cons in Hnd as [Hn0 Hnd]. split; try done; simpl.
    + intros r i. rewrite HP2, HP. cbn [as_root s0 w_tables set_tables set_frames w3 w1].
      rewrite ts_new_table_p4.
      destruct (decide (r = f0)) as [->|]; [|by rewrite decide_False by tauto].
      destruct (decide (i = 0)) as [->|]; [by rewrite decide_True|by rewrite decide_False by tauto].
    + rewrite HG2, decide_True, HG, decide_True by done. done.
    + by rewrite HB2, HB, decide_True.
    + intros t' Ht'. rewrite Hfr in Ht'. rewrite HB2, HB, HG2, (HG t').
      rewrite !decide_False by (intros ->; apply Ht'; set_solver).
      unfold w3, w1. cbn [w_tables set_tables set_frames].
      rewrite ts_new_table_pages, ts_new_table_gibs by (intros ->; apply Ht'; set_solver). done.
    + exists (3 + (k + k2))%nat. split; [lia|]. rewrite Hf4, Hf3, Hfr, drop_drop. done.
Qed.

(** The entries a user address space shares with the kernel. *)
Definition shared_entries : list Z := map Z.of_nat
  [PHYS_MEM_P4; FRAMEBUFFER_P4; KERNEL_STACK_P4; BOOTSTRAP_BYTES_P4; KERNEL_BYTES_P4].

Lemma setup_kernel_own kroot s w i : i ∉ shared_entries ->
  ts_p4 (w_tables (setup_kernel kroot s w)) (as_root s) i = ts_p4 (w_tables w) (as_root s) i.
Proof.
  intros Hi. cbn [shared_entries map] in Hi. rewrite !not_elem_of_cons in Hi.
  destruct Hi as (? & ? & ? & ? & ? & _). unfold setup_kernel, share_entry. cbn [w_tables set_tables].
  rewrite !(proj1 (ts_copy_p4_spec _ _ _ _ _)). by rewrite !decide_False by tauto.
Qed.

Lemma setup_kernel_low kroot s w :
  kroot <> as_root s ->
  ts_p4 (w_tables (setup_kernel kroot s w)) (as_root s) 0 = ts_p4 (w_tables w) kroot 0 /\
  (forall t, ts_pages (w_tables (setup_kernel kroot s w)) t = ts_pages (w_tables w) t) /\
  (forall t, ts_gibs (w_tables (setup_kernel kroot s w)) t = ts_gibs (w_tables w) t) /\
  (forall r i, r <> as_root s -> ts_p4 (w_tables (setup_kernel kroot s w)) r i = ts_p4 (w_tables w) r i).
Proof.
  intros Hne. unfold setup_kernel. cbn [w_tables set_tables].
  assert (Hcp : forall i t r j, r <> as_root s -> ts_p4 (share_entry kroot s i t) r j = ts_p4 t r j).
  { intros i t r j Hr. unfold share_entry. rewrite (proj1 (ts_copy_p4_spec _ _ _ _ _)).
    by rewrite decide_False by tauto. }
  assert (Hpg : forall i t t', ts_pages (share_entry kroot s i t) t' = ts_pages t t' /\
    ts_gibs (share_entry kroot s i t) t' = ts_gibs t t').
  { intros i t t'. unfold share_entry.
    by destruct (ts_copy_p4_spec t (as_root s) (Z.of_nat i) kroot (Z.of_nat i)) as (_ & -> & ->). }
  split; [|split; [|split]].
  - unfold share_entry at 1. rewrite (proj1 (ts_copy_p4_spec _ _ _ _ _)). rewrite decide_True by done.
    by rewrite !Hcp.
  - intros t. by rewrite !(proj1 (Hpg _ _ _)).
  - intros t. by rewrite !(proj2 (Hpg _ _ _)).
  - intros r i Hr. by rewrite !Hcp.
Qed.

(** In an address space as [RwLockUserAddrSpace::new] builds it, with a
    base below 512 GiB and the kernel's mapping of physical memory in
    level-4 entry 0, the pages of the initial buffers are no longer reachable:
    the first small buffer is handed out at the base address, and resolving it
    fails with [EFAULT]. *)
Theorem fresh_space_buffer_faults base kroot t0 w f0 f1 f2 t l size fuel :
  fs_inv (w_frames w) -> fs_frames (w_frames w) = f0 :: f1 :: f2 :: t :: l -> (4 <= length l)%nat ->
  (PAGE_SIZE | base) -> 0 <= base -> base + PAGE_SIZE < 2 ^ 39 ->
  kroot ∉ fs_frames (w_frames w) -> t0 ∉ fs_frames (w_frames w) ->
  ts_p4 (w_tables w) kroot 0 = Some t0 ->
  ts_pages (w_tables w) t0 !! base = None \/ ts_gibs (w_tables w) t0 !! gib_base base <> None ->
  0 <= size <= 64 ->
  exists s w' buf s', locked_addrsp_new frame_alloc kroot base w = Done (s, w') /\
    addrsp_alloc frame_alloc fuel size s w' = Done (buf, s', w') /\
    ub_base buf = base /\ resolve fuel s' w' buf = Done (inr (mkKError EFAULT)).
Proof.
  intros Hinv Hfr Hl Hal Hb Hb2 Hk Ht0 Hp4 Hun Hsize.
  destruct (addrsp_new_ok base w f0 f1 f2 t l) as (s & w1 & Hnew & [Hr Hba [Hs Hsp] _ _ HP _ _ Ho _ _ _]); try done.
  unfold locked_addrsp_new. rewrite Hnew, Done_bind. cbn [fst snd].
  assert (Hkr : kroot <> as_root s) by (rewrite Hr; intros ->; apply Hk; rewrite Hfr; left).
  destruct (setup_kernel_low kroot s w1 Hkr) as (Hlow & Hpg & Hgb & _).
  destruct (low_page_p4 base) as [Hp0 Hb0]; [page_lia|].
  assert (Htr : ts_translate_page (w_tables (setup_kernel kroot s w1)) (as_root s) base = None).
  { rewrite ts_translate_page_spec, Hp0, Hlow, HP, decide_False, Hp4 by (done || by rewrite <- Hr).
    rewrite Hb0, Hpg, Hgb. destruct (Ho t0 Ht0) as [-> ->].
    destruct Hun as [->|Hg]; [by case_match|by destruct (ts_gibs _ _ !! _)]. }
  eexists _, _, (mkUserBuffer base size), _. split; [done|]. split; [|split; [done|]].
  - unfold addrsp_alloc, alloc_small.
    rewrite (proj2 (Z.leb_le size 64)), Hsp, Hs by lia. bind_step.
    rewrite (proj2 (Z.ltb_ge _ _)) by page_lia. cbn [last]. bind_step. cbn [tf_index].
    rewrite page_address_ok, Done_bind by (rewrite ?Hba; unfold canonical; page_lia).
    rewrite Hba, Z.mul_0_l, Z.add_0_r. bind_step. done.
  - unfold resolve. cbn [ub_len ub_base as_root set_small].
    rewrite (proj2 (Z.leb_le size 512)), virt_addr_new_ok, Done_bind by (lia || left; page_lia).
    by rewrite page_containing_aligned, Htr.
Qed.
End Spec.

(** ** Resolving buffers *)

Section Resolve.
Context {V : X86Virt} {VS : X86VirtSpec V} {F : PtFlags}.
Context {T : Type} {TS : TableStore T} {TSS : TableStoreSpec T TS} {A : Type}.
Implicit Types w : World T A.
Implicit Types s : UserAddrSpace.

(** The physical address of a byte of the address space. *)
Definition phys_of s w (v : Z) : option Z :=
  f ← ts_translate_page (w_tables w) (as_root s) (v - v mod PAGE_SIZE);
  Some (f + v mod PAGE_SIZE).

(** The physical addresses of [n] bytes from [v] on. *)
Definition phys_bytes s w (v : Z) (n : Z) : list Z :=
  map (fun k => default 0 (phys_of s w (v + k))) (seqZ 0 n).

(** The addresses the slices consist of, in order. *)
Definition slice_bytes (slices : list (Z * Z)) : list Z :=
  slices ≫= fun sl => map (fun k => sl.1 + k) (seqZ 0 sl.2).

Lemma phys_bytes_app s w v n1 n2 :
  0 <= n1 -> 0 <= n2 -> phys_bytes s w v (n1 + n2) = phys_bytes s w v n1 ++ phys_bytes s w (v + n1) n2.
Proof.
  intros H1 H2. unfold phys_bytes. rewrite seqZ_app, map_app by done. f_equal.
  rewrite Z.add_0_l. rewrite <- (Z.add_0_r n1) at 1. rewrite <- fmap_add_seqZ.
  change (fmap (Z.add n1)) with (map (Z.add n1)). rewrite map_map. apply map_ext. intros k. do 2 f_equal. lia.
Qed.

(** Bytes of one page are contiguous. *)
Lemma phys_bytes_page s w v n f :
  0 <= n -> v mod PAGE_SIZE + n <= PAGE_SIZE ->
  ts_translate_page (w_tables w) (as_root s) (v - v mod PAGE_SIZE) = Some f ->
  phys_bytes s w v n = map (fun k => f + v mod PAGE_SIZE + k) (seqZ 0 n).
Proof.
  intros Hn Hp Hf. unfold phys_bytes. apply map_ext_in. intros k Hk.
  apply list_elem_of_In, elem_of_seqZ in Hk.
  pose proof (Z.mod_pos_bound v PAGE_SIZE eq_refl).
  assert (Hm : (v + k) mod PAGE_SIZE = v mod PAGE_SIZE + k).
  { rewrite Z.add_mod by done. rewrite (Z.mod_small k) by page_lia.
    apply Z.mod_small. page_lia. }
  unfold phys_of. rewrite Hm. replace (v + k - (v mod PAGE_SIZE + k)) with (v - v mod PAGE_SIZE) by lia.
  rewrite Hf. simpl. lia.
Qed.

(** The pages a block of bytes touches. *)
Definition pages_left (v n : Z) : Z := (v + n - 1) / PAGE_SIZE - v / PAGE_SIZE + 1.

Lemma page_split v : v = PAGE_SIZE * (v / PAGE_SIZE) + v mod PAGE_SIZE /\ 0 <= v mod PAGE_SIZE < PAGE_SIZE.
Proof. split; [by apply Z.div_mod|by apply Z.mod_pos_bound]. Qed.

Lemma page_of_offset v k :
  0 <= k -> v mod PAGE_SIZE + k < PAGE_SIZE ->
  v + k - (v + k) mod PAGE_SIZE = v - v mod PAGE_SIZE.
Proof.
  intros Hk Hp. destruct (page_split v) as [_ Hm].
  assert ((v + k) mod PAGE_SIZE = v mod PAGE_SIZE + k) as ->; [|lia].
  rewrite Z.add_mod by done. rewrite (Z.mod_small k) by page_lia. apply Z.mod_small. page_lia.
Qed.

(** One iteration leaves one page less. *)
Lemma pages_left_step base len r n fuel :
  0 <= r < len -> 0 <= base ->
  pages_left (base + r) (len - r) + 1 <= Z.of_nat (S fuel) ->
  n = Z.min (PAGE_SIZE - (base + r) mod PAGE_SIZE) (len - r) ->
  (if r + n <? len then pages_left (base + (r + n)) (len - (r + n)) + 1 else 1) <= Z.of_nat fuel.
Proof.
  intros Hr Hb Hf Hn. unfold pages_left in *.
  destruct (page_split (base + r)) as [H1 H2].
  destruct (page_split (base + r + (len - r) - 1)) as [H3 H4].
  destruct (Z.ltb_spec (r + n) len) as [Hlt|Hge].
  - replace (base + (r + n)) with ((base + r) / PAGE_SIZE * PAGE_SIZE + 1 * PAGE_SIZE) by page_lia.
    rewrite <- Z.mul_add_distr_r, Z.div_mul by done.
    replace (_ + (len - (r + n)) - 1) with (base + r + (len - r) - 1) by page_lia. lia.
  - page_lia.
Qed.

Lemma resolve_loop_spec fuel s w buffer r result :
  0 <= ub_base buffer -> ub_base buffer + ub_len buffer + PAGE_SIZE <= 2 ^ 47 ->
  0 <= r <= ub_len buffer ->
  (if r <? ub_len buffer then pages_left (ub_base buffer + r) (ub_len buffer - r) + 1 else 1) <= Z.of_nat fuel ->
  slice_bytes result = phys_bytes s w (ub_base buffer) r ->
  (exists slices, resolve_loop fuel s w buffer r result = Done (inl slices) /\
     slice_bytes slices = phys_bytes s w (ub_base buffer) (ub_len buffer) /\
     forall k, r <= k < ub_len buffer -> phys_of s w (ub_base buffer + k) <> None) \/
  (resolve_loop fuel s w buffer r result = Done (inr (mkKError EFAULT)) /\
     exists k, r <= k < ub_len buffer /\ phys_of s w (ub_base buffer + k) = None).
Proof.
  intros Hb Hbl. revert r result. induction fuel as [|fuel IH]; intros r result Hr Hfuel Hres.
  { destruct (r <? ub_len buffer) eqn:E; [|lia]. unfold pages_left in Hfuel. exfalso.
    pose proof (Z.div_le_mono (ub_base buffer + r) (ub_base buffer + r + (ub_len buffer - r) - 1) PAGE_SIZE
      eq_refl ltac:(lia)). lia. }
  cbn [resolve_loop]. destruct (Z.ltb_spec r (ub_len buffer)) as [Hlt|Hge].
  2:{ left. exists result. assert (r = ub_len buffer) as -> by lia. split_and!; try done. intros; lia. }
  set (v := ub_base buffer + r) in *.
  unfold wrap. rewrite Z.mod_small, virt_addr_new_ok, Done_bind by (unfold canonical; page_lia).
  destruct (page_split v) as [Hv Hvm]. rewrite page_containing_spec by page_lia.
  destruct (ts_translate_page _ _ (v - v mod PAGE_SIZE)) as [f|] eqn:Htr.
  2:{ right. split; [done|]. exists r. split; [lia|]. unfold phys_of. fold v. by rewrite Htr. }
  rewrite page_add_ok, Done_bind by (unfold canonical; page_lia).
  set (n := if _ <? _ then _ else _).
  assert (Hn : n = Z.min (PAGE_SIZE - v mod PAGE_SIZE) (ub_len buffer - r)).
  { unfold n. destruct (Z.ltb_spec (v - v mod PAGE_SIZE + 1 * PAGE_SIZE - v) (ub_len buffer - r)); lia. }
  clearbody n. replace (v - (v - v mod PAGE_SIZE)) with (v mod PAGE_SIZE) by lia.
  assert (Hpb : phys_bytes s w v n = map (fun k => f + v mod PAGE_SIZE + k) (seqZ 0 n))
    by (apply phys_bytes_page; [lia|lia|done]).
  assert (Hmap : forall k, r <= k < r + n -> phys_of s w (ub_base buffer + k) <> None).
  { intros k Hk. unfold phys_of.
    replace (ub_base buffer + k) with (v + (k - r)) by (unfold v; lia).
    rewrite (page_of_offset v (k - r)), Htr by lia. done. }
  destruct (IH (r + n) (result ++ [(f + v mod PAGE_SIZE, n)])) as [(sl & Hs & Hby & Hall)|(Hs & k & Hk & Hnone)].
  - lia.
  - apply pages_left_step; [lia|lia|by fold v|fold v; lia].
  - unfold slice_bytes in *. rewrite bind_app, Hres, phys_bytes_app by lia. f_equal. fold v. rewrite Hpb.
    simpl. by rewrite app_nil_r.
  - left. exists sl. split_and!; try done. intros k Hk.
    destruct (Z.lt_ge_cases k (r + n)); [apply Hmap; lia|apply Hall; lia].
  - right. split; [done|]. exists k. split; [lia|done].
Qed.
End Resolve.

Section Alloc.
Context {V : X86Virt} {VS : X86VirtSpec V} {F : PtFlags}.
Context {T : Type} {TS : TableStore T} {TSS : TableStoreSpec T TS}.
Context {A : Type} {frame_alloc : frame_source A} {AS : FrameSourceSpec frame_alloc}.
Implicit Types w : World T A.
Implicit Types s : UserAddrSpace.

(** A buffer of at most 512 bytes that goes on in the next page. *)
Definition small_across (buffer : UserBuffer) : Prop :=
  ub_len buffer <= 512 /\ PAGE_SIZE < ub_base buffer mod PAGE_SIZE + ub_len buffer.

(** C13. [resolve] on any buffer below the canonical hole.  It is exact, returning
    slices that are, in order, the physical bytes of the buffer when every byte is
    mapped, and [EFAULT] when one is not, with one exception: of a buffer of at most
    512 bytes that crosses a page only the first page is looked up, and the bytes
    returned go on behind the frame of that page, whatever the next page is mapped
    to. *)
Theorem resolve_correct fuel s w buffer :
  0 <= ub_base buffer -> 0 < ub_len buffer -> ub_base buffer + ub_len buffer + PAGE_SIZE <= 2 ^ 47 ->
  pages_left (ub_base buffer) (ub_len buffer) + 1 <= Z.of_nat fuel ->
  (~ small_across buffer ->
    (exists slices, resolve fuel s w buffer = Done (inl slices) /\
       slice_bytes slices = phys_bytes s w (ub_base buffer) (ub_len buffer) /\
       forall k, 0 <= k < ub_len buffer -> phys_of s w (ub_base buffer + k) <> None) \/
    (resolve fuel s w buffer = Done (inr (mkKError EFAULT)) /\
       exists k, 0 <= k < ub_len buffer /\ phys_of s w (ub_base buffer + k) = None)) /\
  (small_across buffer ->
    resolve fuel s w buffer = match phys_of s w (ub_base buffer) with
                              | Some a => Done (inl [(a, ub_len buffer)])
                              | None => Done (inr (mkKError EFAULT))
                              end).
Proof.
  intros Hb Hl Hbl Hfuel. destruct (page_split (ub_base buffer)) as [Hv Hvm].
  assert (Hres : ub_len buffer <= 512 -> resolve fuel s w buffer = match phys_of s w (ub_base buffer) with
      | Some a => Done (inl [(a, ub_len buffer)]) | None => Done (inr (mkKError EFAULT)) end).
  { intros Hle. unfold resolve, phys_of. rewrite (proj2 (Z.leb_le _ _)), virt_addr_new_ok, Done_bind by (done || (left; page_lia)).
    rewrite page_containing_spec by done. destruct (ts_translate_page _ _ _) as [f|]; [|done]. cbn [mbind option_bind]. do 4 f_equal. lia. }
  split; [|by intros [? _]; apply Hres]. intros Hns. destruct (Z.leb_spec (ub_len buffer) 512) as [Hle|Hgt].
  - assert (Hsmall : ub_base buffer mod PAGE_SIZE + ub_len buffer <= PAGE_SIZE).
    { apply Z.nlt_ge. intros ?. by apply Hns. }
    assert (Hpg : forall k, 0 <= k < ub_len buffer -> phys_of s w (ub_base buffer + k) =
      (f ← ts_translate_page (w_tables w) (as_root s) (ub_base buffer - ub_base buffer mod PAGE_SIZE);
       Some (f + (ub_base buffer + k) mod PAGE_SIZE))).
    { intros k Hk. unfold phys_of. by rewrite page_of_offset by lia. }
    assert (H0 : phys_of s w (ub_base buffer) = f ← ts_translate_page (w_tables w) (as_root s) (ub_base buffer - ub_base buffer mod PAGE_SIZE);
      Some (f + ub_base buffer mod PAGE_SIZE)) by done.
    rewrite Hres, H0 by done. destruct (ts_translate_page _ _ (ub_base buffer - _)) as [f|] eqn:Htr; cbn [mbind option_bind].
    + left. eexists. split; [done|]. split; [|intros k Hk; by rewrite Hpg].
      unfold slice_bytes. simpl. rewrite app_nil_r. by rewrite (phys_bytes_page s w _ _ f) by (done || lia).
    + right. split; [done|]. exists 0. split; [lia|]. by rewrite Hpg by lia.
  - unfold resolve. rewrite (proj2 (Z.leb_gt _ _)) by done.
    destruct (resolve_loop_spec fuel s w buffer 0 [] Hb Hbl) as [H|H]; [lia| | |by left|by right].
    + rewrite (proj2 (Z.ltb_lt _ _)), Z.add_0_r, Z.sub_0_r by lia. done.
    + done.
Qed.

(** Mapping fresh frames to consecutive pages behind level-4 entry 0. *)
Lemma alloc_large_pages n : forall s w p t,
  fs_inv (w_frames w) -> (3 * n <= length (fs_frames (w_frames w)))%nat ->
  (PAGE_SIZE | p) -> 0 <= p -> p + PAGE_SIZE * Z.of_nat n <= 2 ^ 39 ->
  ts_p4 (w_tables w) (as_root s) 0 = Some t ->
  (forall j, (j < n)%nat -> ts_pages (w_tables w) t !! (p + PAGE_SIZE * Z.of_nat j) = None /\
     ts_gibs (w_tables w) t !! gib_base (p + PAGE_SIZE * Z.of_nat j) = None) ->
  exists fr s' w', foldM (alloc_large_page frame_alloc) (s, w) (frame_list p n) = Done (s', w') /\
    length fr = n /\ fr `sublist_of` fs_frames (w_frames w) /\
    tracked_large_buffers s' = tracked_large_buffers s ++ fr /\
    as_root s' = as_root s /\ consumed_page_count s' = consumed_page_count s /\
    (forall r i, ts_p4 (w_tables w') r i = ts_p4 (w_tables w) r i) /\
    (forall t', ts_gibs (w_tables w') t' = ts_gibs (w_tables w) t') /\
    pages_mapped (ts_pages (w_tables w) t) (ts_pages (w_tables w') t) p n
      (fun j => (fr !!! j, user_flags)) /\
    fs_inv (w_frames w').
Proof.
  induction n as [|n IH]; intros s w p t Hinv Hl Hal Hp0 Hp Ht Hfree; cbn [stride foldM].
  { exists [], s, w. rewrite app_nil_r. split_and!; try done; [apply sublist_nil_l|].
    split; [intros; lia|done]. }
  destruct (fs_frames (w_frames w)) as [|f l] eqn:Hfr; [simpl in Hl; lia|]. simpl in Hl.
  destruct (take_kframe_ok w f l Hinv Hfr) as (a1 & Htake & Hf1 & Hi1 & Hfal).
  destruct (Hfree 0%nat ltac:(lia)) as [Hn0 Hg0]. rewrite Z.mul_0_r, Z.add_0_r in Hn0, Hg0.
  destruct (low_page_p4 p) as [Hpp Hpb]; [page_lia|].
  destruct (as_map_to_present p f user_flags s (set_frames a1 w) t)
    as (k & T1 & a2 & Hm & Hk & HP & HG & HB & Hf2 & Hi2); rewrite ?Hpp, ?Hpb; try done.
  { simpl. rewrite Hf1. lia. }
  rewrite Hpb in HG. simpl in HP, HG, HB, Hf2.
  set (s1 := set_pte_frames _ s) in Hm.
  set (w1 := set_tables T1 _) in Hm.
  assert (Hstep : alloc_large_page frame_alloc (s, w) p =
    Done (set_large (tracked_large_buffers s1 ++ [f]) s1, w1)).
  { unfold alloc_large_page. cbn [fst snd]. rewrite Htake, Done_bind. cbn [fst snd]. by rewrite Hm. }
  rewrite Hstep, Done_bind.
  destruct (IH (set_large (tracked_large_buffers s1 ++ [f]) s1) w1 (p + PAGE_SIZE) t)
    as (fr & s' & w' & Hfold & Hlen & Hsub & Htl & Hroot & Hcons & HP' & HB' & Hpm & Hinv'); try done.
  { simpl. rewrite Hf2, Hf1, length_drop. lia. }
  { auto with pages. }
  { page_lia. }
  { page_lia. }
  { simpl. by rewrite HP. }
  { intros j Hj. destruct (Hfree (S j) ltac:(lia)) as [Hn1 Hg1].
    replace (p + PAGE_SIZE + PAGE_SIZE * Z.of_nat j) with (p + PAGE_SIZE * Z.of_nat (S j)) by page_lia.
    simpl. rewrite HB, HG, decide_True by done. split; [|done]. rewrite lookup_insert_ne by page_lia. done. }
  simpl in Hsub, Htl, Hroot, Hcons, HP', HB'.
  exists (f :: fr), s', w'. split; [done|]. split; [simpl; lia|]. split.
  { rewrite Hf2, Hf1 in Hsub. apply sublist_skip. etrans; [exact Hsub|apply sublist_drop]. }
  split; [by rewrite Htl, <- app_assoc|]. split; [done|]. split; [done|].
  split; [intros; by rewrite HP', HP|]. split; [intros; by rewrite HB', HB|]. split; [|done].
  eapply pages_mapped_S; [|exact Hpm]. simpl. by rewrite HG, decide_True.
Qed.

Lemma ceil_pages size : 0 < size -> let n := - (- size / PAGE_SIZE) in
  0 < n /\ size <= PAGE_SIZE * n < size + PAGE_SIZE.
Proof. intros Hs n. unfold n. destruct (page_split (- size)). page_lia. Qed.

(** A page below the level-3 table [t], by itself or in a page of 1 GiB. *)
Definition used_page w (t p : Z) : Prop := is_Some (ts_pages (w_tables w) t !! p) \/ is_Some (ts_gibs (w_tables w) t !! gib_base p).
Definition free_page w (t p : Z) : Prop := ts_pages (w_tables w) t !! p = None /\ ts_gibs (w_tables w) t !! gib_base p = None.

Lemma addr_mapped_used s w t p : (PAGE_SIZE | p) -> 0 <= p < 2 ^ 39 -> ts_p4 (w_tables w) (as_root s) 0 = Some t ->
  (used_page w t p -> addr_mapped s w p = true) /\ (free_page w t p -> addr_mapped s w p = false).
Proof.
  intros Hpa Hp Ht. destruct (low_page_p4 p Hp) as [H4 Hb]. unfold addr_mapped.
  rewrite <- (Z.add_0_r p) at 2 4. rewrite ts_translate_spec by (done || page_lia). rewrite H4, Hb, Ht.
  unfold used_page, free_page. destruct (ts_gibs _ _ !! _) as [[g gf]|], (ts_pages _ _ !! _) as [[q qf]|]; split; try done;
    try (by intros [? ?]); intros [[? ?]|[? ?]]; done.
Qed.

(** The scan passes the used pages and stops at the first free one. *)
Lemma next_page_unused_scan t d : forall fuel s w,
  (PAGE_SIZE | base_address s) -> 0 <= base_address s -> 0 <= consumed_page_count s ->
  base_address s + (consumed_page_count s + Z.of_nat d) * PAGE_SIZE < 2 ^ 39 ->
  ts_p4 (w_tables w) (as_root s) 0 = Some t ->
  (forall j, (j < d)%nat -> used_page w t (base_address s + (consumed_page_count s + Z.of_nat j) * PAGE_SIZE)) ->
  free_page w t (base_address s + (consumed_page_count s + Z.of_nat d) * PAGE_SIZE) -> (d < fuel)%nat ->
  next_page_unused fuel s w = Done (consumed_page_count s + Z.of_nat d, set_consumed (consumed_page_count s + Z.of_nat d) s).
Proof.
  induction d as [|d IH]; intros [|fuel] s w Hal Hb Hc Hlow Ht Hused Hfree Hfuel; try lia; cbn [next_page_unused];
    rewrite page_address_ok, Done_bind by (unfold canonical; page_lia);
    destruct (addr_mapped_used s w t (base_address s + consumed_page_count s * PAGE_SIZE)) as [Hu Hf];
    try (auto with pages; page_lia).
  - rewrite Z.add_0_r in *. rewrite Hf by done. by destruct s.
  - specialize (Hused 0%nat ltac:(lia)) as Hu0. rewrite Z.add_0_r in Hu0. rewrite Hu by done.
    unfold u64_add. rewrite checked_in, Done_bind by page_lia.
    rewrite IH; cbn [base_address consumed_page_count as_root set_consumed]; try done; try lia.
    + replace (consumed_page_count s + 1 + Z.of_nat d) with (consumed_page_count s + Z.of_nat (S d)) by lia. done.
    + intros j Hj. replace (consumed_page_count s + 1 + Z.of_nat j) with (consumed_page_count s + Z.of_nat (S j)) by lia. apply Hused. lia.
    + replace (consumed_page_count s + 1 + Z.of_nat d) with (consumed_page_count s + Z.of_nat (S d)) by lia. done.
Qed.

(** Mapping a page that is in use panics. *)
Lemma alloc_large_used s w t p : fs_inv (w_frames w) -> 0 <= p < 2 ^ 39 ->
  ts_p4 (w_tables w) (as_root s) 0 = Some t -> used_page w t p -> alloc_large_page frame_alloc (s, w) p = Panic.
Proof.
  intros Hinv Hp Ht Hu. destruct (low_page_p4 p Hp) as [H4 Hb]. unfold alloc_large_page. cbn [fst snd].
  destruct (fs_frames (w_frames w)) as [|f l] eqn:Hf.
  { destruct (fs_none _ Hinv Hf) as (a & Ha). unfold take_kframe. by rewrite Ha. }
  destruct (take_kframe_ok w f l Hinv Hf) as (a & Ha & _). rewrite Ha, Done_bind. cbn [fst snd]. unfold as_map_to.
  cbn [w_tables w_frames set_frames]. destruct (ts_gibs (w_tables w) t !! gib_base p) as [x|] eqn:Eg.
  - by rewrite (ts_map_to_gib _ _ _ _ _ _ _ _ t x) by (by rewrite ?H4, ?Hb).
  - destruct Hu as [[x Hx]|[x Hx]]; [|congruence]. by rewrite (ts_map_to_mapped _ _ _ _ _ _ _ _ t x) by (by rewrite ?H4, ?Hb).
Qed.

Lemma frame_list_split p j n : (j <= n)%nat -> frame_list p n = frame_list p j ++ frame_list (p + PAGE_SIZE * Z.of_nat j) (n - j).
Proof.
  revert p n. induction j as [|j IH]; intros p n H; [cbn; f_equal; lia|]. destruct n as [|n]; [lia|]. cbn [stride app].
  rewrite (IH _ n) by lia. do 3 f_equal. lia.
Qed.

(** The bytes of a run of mapped pages behind level-4 entry 0. *)
Lemma run_phys s w t p n (g : nat -> Z * Z) k :
  (PAGE_SIZE | p) -> 0 <= p -> p + PAGE_SIZE * Z.of_nat n <= 2 ^ 39 ->
  ts_p4 (w_tables w) (as_root s) 0 = Some t ->
  (forall j, (j < n)%nat -> ts_pages (w_tables w) t !! (p + PAGE_SIZE * Z.of_nat j) = Some (g j) /\
     ts_gibs (w_tables w) t !! gib_base (p + PAGE_SIZE * Z.of_nat j) = None) ->
  0 <= k < PAGE_SIZE * Z.of_nat n ->
  phys_of s w (p + k) = Some ((g (Z.to_nat (k / PAGE_SIZE))).1 + k mod PAGE_SIZE).
Proof.
  intros Hpa Hp0 Hlow Ht Hrun Hk. destruct (page_split k) as [Hk1 Hk2].
  assert (Hq : 0 <= k / PAGE_SIZE < Z.of_nat n) by page_lia.
  assert (Hm : (p + k) mod PAGE_SIZE = k mod PAGE_SIZE).
  { destruct Hpa as [q ->]. by rewrite Z.add_comm, Z.mod_add. }
  unfold phys_of. rewrite Hm.
  replace (p + k - k mod PAGE_SIZE) with (p + PAGE_SIZE * Z.of_nat (Z.to_nat (k / PAGE_SIZE)))
    by (rewrite Z2Nat.id; lia).
  assert (Hpj : 0 <= p + PAGE_SIZE * Z.of_nat (Z.to_nat (k / PAGE_SIZE)) < 2 ^ 39) by page_lia.
  destruct (low_page_p4 _ Hpj) as [Hp4 Hbl].
  rewrite ts_translate_page_spec by (auto with pages).
  rewrite Hp4, Hbl, Ht. destruct (Hrun (Z.to_nat (k / PAGE_SIZE)) ltac:(lia)) as [-> ->]. done.
Qed.

(** A large buffer whose bytes are all mapped. *)
Lemma large_resolved fuel s w p size (g : Z -> Z) : 512 < size -> (PAGE_SIZE | p) -> 0 <= p -> p + size + PAGE_SIZE <= 2 ^ 47 ->
  - (- size / PAGE_SIZE) + 1 <= Z.of_nat fuel -> (forall k, 0 <= k < size -> phys_of s w (p + k) = Some (g k)) ->
  exists slices, resolve fuel s w (mkUserBuffer p size) = Done (inl slices) /\ slice_bytes slices = map g (seqZ 0 size).
Proof.
  intros Hsize Hpa Hp0 Hend Hfuel Hph. destruct (ceil_pages size) as [Hn0 Hn1]; [lia|].
  destruct (resolve_loop_spec fuel s w (mkUserBuffer p size) 0 [])
    as [(slices & Hres & Hby & _)|(_ & k & Hk & Hnone)]; cbn [ub_base ub_len] in *; try done; try lia.
  { rewrite (proj2 (Z.ltb_lt 0 size)), Z.add_0_r, Z.sub_0_r by lia. unfold pages_left.
    destruct (page_split (p + size - 1)), Hpa as [q Hq]. rewrite Hq, Z.div_mul in * by done. page_lia. }
  2:{ rewrite Hph in Hnone by lia. done. }
  exists slices. split; [unfold resolve; cbn [ub_len]; by rewrite (proj2 (Z.leb_gt _ _)) by lia|].
  rewrite Hby. unfold phys_bytes. apply map_ext_in. intros k Hk. apply list_elem_of_In, elem_of_seqZ in Hk. by rewrite Hph by lia.
Qed.

(** The address space the buffers of a large allocation are in: [i] is the first
    index from the counter on whose page is free, and there are frames for [n]
    pages from it on. *)
Record large_room (fuel n : nat) s w (t i : Z) : Prop := {
  lr_supply : fs_inv (w_frames w) /\ (3 * n <= length (fs_frames (w_frames w)))%nat;
  lr_base : (PAGE_SIZE | base_address s) /\ 0 <= base_address s;
  lr_table : ts_p4 (w_tables w) (as_root s) 0 = Some t;
  lr_first : 0 <= consumed_page_count s <= i;
  lr_used j : consumed_page_count s <= j < i -> used_page w t (base_address s + j * PAGE_SIZE);
  lr_free : free_page w t (base_address s + i * PAGE_SIZE);
  lr_end : base_address s + i * PAGE_SIZE + PAGE_SIZE * Z.of_nat n <= 2 ^ 39;
  lr_fuel : (n + 1 <= fuel)%nat /\ i - consumed_page_count s < Z.of_nat fuel
}.

Lemma large_scan fuel n s w t i : large_room fuel n s w t i -> (0 < n)%nat -> next_page_unused fuel s w = Done (i, set_consumed i s).
Proof.
  intros [_ [L1 L2] L3 L4 L5 L6 L7 [_ L8]] Hn.
  rewrite (next_page_unused_scan t (Z.to_nat (i - consumed_page_count s))); try done; try lia;
    rewrite ?Z2Nat.id by lia; replace (consumed_page_count s + (i - consumed_page_count s)) with i by lia; try done; [page_lia|].
  intros j Hj. apply L5. lia.
Qed.

(** C14. Allocating more than 512 bytes: the scan passes the pages in use from the
    counter on to the first free one.  If the pages needed from there on are free,
    the buffer is at that page and resolves, byte for byte, to fresh distinct
    frames, which the address space records, and the counter moves past it.  If one
    of them is in use, the allocation panics: only the first page is looked at. *)
Theorem alloc_large_resolves fuel s w t size i :
  let p := base_address s + i * PAGE_SIZE in
  let n := Z.to_nat (- (- size / PAGE_SIZE)) in
  512 < size -> large_room fuel n s w t i ->
  ((forall j, (j < n)%nat -> free_page w t (p + PAGE_SIZE * Z.of_nat j)) ->
    exists s' w' fr slices,
      addrsp_alloc frame_alloc fuel size s w = Done (mkUserBuffer p size, s', w') /\
      consumed_page_count s' = i + Z.of_nat n /\
      NoDup fr /\ fr `sublist_of` fs_frames (w_frames w) /\
      tracked_large_buffers s' = tracked_large_buffers s ++ fr /\
      resolve fuel s' w' (mkUserBuffer p size) = Done (inl slices) /\
      slice_bytes slices = map (fun k => fr !!! Z.to_nat (k / PAGE_SIZE) + k mod PAGE_SIZE) (seqZ 0 size)) /\
  (forall j, (0 < j < n)%nat -> (forall j', (j' < j)%nat -> free_page w t (p + PAGE_SIZE * Z.of_nat j')) ->
    used_page w t (p + PAGE_SIZE * Z.of_nat j) -> addrsp_alloc frame_alloc fuel size s w = Panic).
Proof.
  intros p n Hsize Hroom. destruct (ceil_pages size) as [Hn0 Hn1]; [lia|].
  assert (Hnz : Z.of_nat n = - (- size / PAGE_SIZE)) by (unfold n; lia).
  pose proof (large_scan fuel n s w t i Hroom ltac:(lia)) as Hscan.
  destruct Hroom as [[L1 L2] [L3 L4] L5 L6 _ _ L7 [L8 _]]. fold p in L7.
  assert (Hpa : (PAGE_SIZE | p)) by (unfold p; auto with pages). assert (Hp0 : 0 <= p) by (unfold p; page_lia).
  assert (Hrun : addrsp_alloc frame_alloc fuel size s w =
    (r ← foldM (alloc_large_page frame_alloc) (set_consumed i s, w) (frame_list p n);
     c ← u64_add (consumed_page_count r.1) (- (- size / PAGE_SIZE)); Done (mkUserBuffer p size, set_consumed c r.1, r.2))).
  { unfold addrsp_alloc, alloc_large. rewrite !(proj2 (Z.leb_gt _ _)) by lia. rewrite Hscan, Done_bind. cbn [fst snd].
    rewrite page_address_ok, Done_bind by (unfold canonical; cbn [base_address set_consumed]; fold p; page_lia).
    cbn [base_address set_consumed]. fold p. rewrite page_containing_aligned by done.
    by rewrite page_add_ok, Done_bind by (unfold canonical; page_lia). }
  rewrite Hrun. clear Hrun Hscan. split.
  - intros Hfree. destruct (alloc_large_pages n (set_consumed i s) w p t) as
      (fr & s' & w' & Hfold & Hlen & Hsub & Htl & Hroot & Hcons & HP & HB & [Hin Hout] & Hinv'); try done.
    rewrite Hfold, Done_bind. cbn [fst snd]. rewrite Hcons, <- Hnz. cbn [consumed_page_count set_consumed].
    unfold u64_add. rewrite checked_in, Done_bind by (unfold p in *; page_lia). set (s2 := set_consumed _ s').
    assert (Hph : forall k, 0 <= k < size -> phys_of s2 w' (p + k) = Some (fr !!! Z.to_nat (k / PAGE_SIZE) + k mod PAGE_SIZE)).
    { intros k Hk. rewrite (run_phys s2 w' t p n (fun j => (fr !!! j, user_flags))); try done; [| |page_lia].
      - cbn [as_root s2 set_consumed]. by rewrite Hroot, HP.
      - intros j Hj. rewrite Hin, HB by done. split; [done|]. by apply Hfree. }
    destruct (large_resolved fuel s2 w' p size _ Hsize Hpa Hp0 ltac:(page_lia) ltac:(page_lia) Hph) as (slices & Hr & Hby).
    exists s2, w', fr, slices. split_and!; try done. by apply (fs_NoDup (w_frames w)).
  - intros j Hj Hfree Hused. rewrite (frame_list_split p j n), foldM_app by lia.
    destruct (alloc_large_pages j (set_consumed i s) w p t) as
      (fr & s' & w' & Hfold & Hlen & Hsub & Htl & Hroot & Hcons & HP & HB & [Hin Hout] & Hinv'); try done; [lia|page_lia|].
    rewrite Hfold, Done_bind. destruct (n - j)%nat as [|m] eqn:Em; [lia|]. cbn [stride foldM].
    rewrite (alloc_large_used s' w' t); try done; [page_lia|by rewrite Hroot, HP|].
    unfold used_page. rewrite HB, Hout by (intros; page_lia). done.
Qed.

(** While the current small page has room, a small request is answered
    with the first address of that page. *)
Lemma alloc_small_reuses fuel s w size f index rest :
  tracked_small_buffers s = rest ++ [mkTracked f index] -> 0 < size <= 64 ->
  0 <= small_buffer_pointer s -> small_buffer_pointer s + size <= PAGE_SIZE ->
  0 <= index -> 0 <= base_address s -> canonical (base_address s + index * PAGE_SIZE) ->
  addrsp_alloc frame_alloc fuel size s w = Done (mkUserBuffer (base_address s + index * PAGE_SIZE) size,
    set_small (tracked_small_buffers s) (small_buffer_pointer s + size) s, w).
Proof.
  intros Hl H Hp Hroom Hi Hb Hc. unfold addrsp_alloc, alloc_small, u64_add.
  rewrite (proj2 (Z.leb_le size 64)), (checked_in 64 (size + _)), Done_bind by page_lia.
  rewrite (proj2 (Z.ltb_ge _ _)) by page_lia. rewrite Hl, last_snoc. bind_step. cbn [tf_index].
  rewrite page_address_ok, Done_bind by done.
  by rewrite checked_in, Done_bind by page_lia.
Qed.

(** While the current small page has room for both, two consecutive
    small allocations return the same address: the pointer into the page
    is advanced but never added to it, so the buffers overlap. *)
Theorem small_buffers_alias fuel s w size1 size2 f index rest :
  tracked_small_buffers s = rest ++ [mkTracked f index] ->
  0 < size1 <= 64 -> 0 < size2 <= 64 -> 0 <= small_buffer_pointer s ->
  small_buffer_pointer s + size1 + size2 <= PAGE_SIZE ->
  0 <= index -> 0 <= base_address s -> canonical (base_address s + index * PAGE_SIZE) ->
  exists b1 s1 b2 s2,
    addrsp_alloc frame_alloc fuel size1 s w = Done (b1, s1, w) /\
    addrsp_alloc frame_alloc fuel size2 s1 w = Done (b2, s2, w) /\
    ub_base b1 = ub_base b2 /\ small_buffer_pointer s2 = small_buffer_pointer s + size1 + size2.
Proof.
  intros Hlast H1 H2 Hp Hroom Hi Hb Hc.
  do 4 eexists. split; [|split; [|split]].
  - eapply alloc_small_reuses; (done || lia).
  - eapply alloc_small_reuses; cbn [tracked_small_buffers small_buffer_pointer base_address set_small];
      (done || lia).
  - done.
  - done.
Qed.
End Alloc.

(** ** Instances *)

#[local] Existing Instance x86_virt_model.
#[local] Existing Instance x86_virt_model_spec.
#[local] Existing Instance pt_flags_model.
#[local] Existing Instance gmap_store_ops.
#[local] Existing Instance gmap_store_spec.

(** A machine with 64 free frames, whose kernel tables map nothing below
    level-4 entry 0. *)
Definition sample_world : World gmap_store (list Z) :=
  mkWorld (mkStore {[ (0x1000, 0) := 0x2000 ]} ∅ ∅) (frame_list 0x200000 64) (fun _ => 0) 0.

(** An address space over the same tables. *)
Definition sample_space : UserAddrSpace :=
  mkAddrSpace 0x1000 [] [] [] 0 [mkTracked 0x100000 0] 0 2 0x1000.

Lemma fresh_space_buffer_faults_witness :
  exists s w' buf s', locked_addrsp_new list_source 0x1000 0x1000 sample_world = Done (s, w') /\
    addrsp_alloc list_source 1 64 s w' = Done (buf, s', w') /\
    ub_base buf = 0x1000 /\ resolve 1 s' w' buf = Done (inr (mkKError EFAULT)).
Proof.
  apply (fresh_space_buffer_faults (frame_alloc := list_source) 0x1000 0x1000 0x2000 sample_world
    0x200000 0x201000 0x202000 0x203000 (frame_list 0x204000 60) 64 1).
  - apply frame_list_source.
  - reflexivity.
  - cbn. lia.
  - by exists 1.
  - lia.
  - page_lia.
  - by apply (bool_decide_unpack _); vm_compute.
  - by apply (bool_decide_unpack _); vm_compute.
  - reflexivity.
  - by left.
  - lia.
Defined.

(** Tables in which the pages 0x3000, 0x4000 and 0x6000 are in use, and 0x3000 and
    0x4000 are not at consecutive frames. *)
Definition used_world : World gmap_store (list Z) :=
  mkWorld (mkStore {[ (0x1000, 0) := 0x2000 ]}
      {[ 0x2000 := {[ 0x3000 := (0x80000, 7); 0x4000 := (0x50000, 7); 0x6000 := (0x90000, 7) ]} ]} ∅)
    (frame_list 0x200000 64) (fun _ => 0) 0.

Lemma used_world_room fuel n : (1 <= n <= 3)%nat -> (n + 1 <= fuel)%nat -> (3 <= fuel)%nat ->
  large_room (frame_alloc := list_source) fuel n sample_space used_world 0x2000 4.
Proof.
  intros Hn Hf1 Hf2. split; cbn [base_address consumed_page_count sample_space used_world w_frames w_tables as_root].
  - split; [apply frame_list_source|]. change (length (fs_frames _)) with 64%nat. lia.
  - split; [by exists 1|lia].
  - reflexivity.
  - lia.
  - intros j Hj. assert (j = 2 \/ j = 3) as [-> | ->] by lia; left; vm_compute; by eexists.
  - by split; vm_compute.
  - page_lia.
  - lia.
Qed.

(** With the counter at 2, the scan passes 0x3000 and 0x4000 and stops at 0x5000:
    one page is there, and two are not. *)
Lemma alloc_large_resolves_witness :
  (exists s' w' fr slices,
    addrsp_alloc list_source 4 4000 sample_space used_world = Done (mkUserBuffer 0x5000 4000, s', w') /\
    consumed_page_count s' = 5 /\ NoDup fr /\ fr `sublist_of` frame_list 0x200000 64 /\
    tracked_large_buffers s' = [] ++ fr /\
    resolve 4 s' w' (mkUserBuffer 0x5000 4000) = Done (inl slices) /\
    slice_bytes slices = map (fun k => fr !!! Z.to_nat (k / PAGE_SIZE) + k mod PAGE_SIZE) (seqZ 0 4000)) /\
  addrsp_alloc list_source 4 5000 sample_space used_world = Panic.
Proof.
  split.
  - refine (proj1 (alloc_large_resolves (frame_alloc := list_source) 4 sample_space used_world 0x2000 4000 4 _ _) _).
    + lia.
    + apply used_world_room; vm_compute; lia.
    + intros j Hj. assert (j = 0%nat) as -> by (revert Hj; vm_compute; lia). by split; vm_compute.
  - refine (proj2 (alloc_large_resolves (frame_alloc := list_source) 4 sample_space used_world 0x2000 5000 4 _ _) 1%nat _ _ _).
    + lia.
    + apply used_world_room; vm_compute; lia.
    + vm_compute; lia.
    + intros j Hj. assert (j = 0%nat) as -> by lia. by split; vm_compute.
    + left. vm_compute. by eexists.
Defined.

Lemma small_buffers_alias_witness :
  exists b1 s1 b2 s2,
    addrsp_alloc list_source 1 8 sample_space sample_world = Done (b1, s1, sample_world) /\
    addrsp_alloc list_source 1 16 s1 sample_world = Done (b2, s2, sample_world) /\
    ub_base b1 = ub_base b2 /\ small_buffer_pointer s2 = 0 + 8 + 16.
Proof.
  apply (small_buffers_alias 1 sample_space sample_world 8 16 0x100000 0 []); try done.
  left. by vm_compute.
Defined.

(** A buffer of 5000 bytes in two pages resolves to its own bytes, one that goes on
    in an unmapped page is refused, and one of 16 bytes in two pages resolves to
    bytes that are not its own. *)
Lemma resolve_correct_witness :
  (exists slices, resolve 4 sample_space used_world (mkUserBuffer 0x3010 5000) = Done (inl slices) /\
     slice_bytes slices = phys_bytes sample_space used_world 0x3010 5000) /\
  resolve 4 sample_space used_world (mkUserBuffer 0x4010 5000) = Done (inr (mkKError EFAULT)) /\
  resolve 4 sample_space used_world (mkUserBuffer 0x3ff8 16) = Done (inl [(0x80ff8, 16)]) /\
  phys_of sample_space used_world (0x3ff8 + 8) = Some 0x50000.
Proof.
  assert (Hns : forall b, 512 < ub_len b -> ~ small_across b) by (intros b H [? _]; lia).
  split; [|split; [|split]].
  - destruct (proj1 (resolve_correct 4 sample_space used_world (mkUserBuffer 0x3010 5000)
      ltac:(cbn; lia) ltac:(cbn; lia) ltac:(cbn; page_lia) ltac:(by vm_compute))) as [(l & H1 & H2 & _)|[H _]];
      [by apply Hns|by exists l|exfalso; revert H; by vm_compute].
  - destruct (proj1 (resolve_correct 4 sample_space used_world (mkUserBuffer 0x4010 5000)
      ltac:(cbn; lia) ltac:(cbn; lia) ltac:(cbn; page_lia) ltac:(by vm_compute))) as [(l & H1 & _)|[H _]];
      [by apply Hns|exfalso; revert H1; by vm_compute|exact H].
  - refine (proj2 (resolve_correct 4 sample_space used_world (mkUserBuffer 0x3ff8 16)
      ltac:(cbn; lia) ltac:(cbn; lia) ltac:(cbn; page_lia) ltac:(by vm_compute)) _). split; by vm_compute.
  - by vm_compute.
Defined.
