(* ===== verification/Elf.v ===== *)
(** * Loading ELF images

    The part the two loaders have in common, [bootloader-efi/src/kernel.rs]
    for the kernel and [kernel/src/mem/load_elf.rs] for the first program: the
    pass over the program headers, the relocations, the copy on first write,
    and the changes of page flags.  What differs, the page table that is filled
    and how file pages get there, is a class, [LoadTarget]; the parser is the
    [xmas_elf] crate, whose results are data here. *)

From S2P Require Import Prelude Platform Shared Paging Machine UserAddrSpace.

(** ** Results of [xmas_elf] *)

(** [header::Type] and [program::Type]. *)
Inductive EType : Type := Executable | SharedObject | OtherEType (n : Z).
Inductive ShType : Type := ShNull | ShLoad | ShDynamic | ShGnuRelro | ShTls | ShOther (n : Z).

(** [dynamic::Tag] and a [dynamic::Dynamic] entry; [None] is an error. *)
Inductive Tag : Type := TagRela | TagRelaSize | TagRelaEnt | TagOther (n : Z).
Record DynamicEntry : Type := mkDynamic {
  get_tag : option Tag;
  get_ptr : option Z;
  get_val : option Z
}.

Inductive SegmentData : Type := Dynamic64 (data : list DynamicEntry) | OtherData.

Record ProgramHeader : Type := mkProgramHeader {
  get_type : option ShType;
  virtual_addr : Z;
  ph_offset : Z;
  file_size : Z;
  mem_size : Z;
  is_execute : bool;
  is_write : bool;
  get_data : option SegmentData
}.

Record ElfFile : Type := mkElfFile {
  program_iter : list ProgramHeader;
  program_sanity_check : ProgramHeader -> bool;
  header_sanity_check : bool;
  file_type : EType;
  entry_point : Z
}.

(** ** Steps of virtual addresses ([core::iter::Step]) *)

Class X86Step : Type := {
  (** [Step::forward_checked] and [Step::steps_between] for [VirtAddr] *)
  virt_forward_checked : Z -> Z -> option Z;
  virt_steps_between : Z -> Z -> option Z;
  (** [start..=end] for pages *)
  page_steps_inclusive : Z -> Z -> list Z
}.

Class X86StepSpec (S : X86Step) : Prop := {
  virt_forward_ok a n : canonical a -> 0 <= n < 2 ^ 47 -> canonical (a + n) ->
    virt_forward_checked a n = Some (a + n);
  virt_steps_ok a n : canonical a -> 0 <= n < 2 ^ 47 -> canonical (a + n) ->
    virt_steps_between a (a + n) = Some n;
  page_steps_ok s n : canonical s -> (PAGE_SIZE | s) -> canonical (s + n * PAGE_SIZE) -> 0 <= n < 2 ^ 35 ->
    page_steps_inclusive s (s + n * PAGE_SIZE) = frame_list s (Z.to_nat (n + 1))
}.

(** ** The page table that is filled *)

Class LoadTarget (S : Type) : Type := {
  (** [translate] and [raw_translate] *)
  lt_translate : S -> Z -> TranslateResult;
  (** [allocate_frame] and [frame_alloc] *)
  lt_alloc : S -> outcome (option Z * S);
  (** [map_to(..).or_panic(..)] and [raw_map_to]: page, frame, flags *)
  lt_map_to : Z -> Z -> Z -> S -> outcome S;
  (** [unmap(..).or_panic(..)] and [raw_unmap] *)
  lt_unmap : Z -> S -> outcome S;
  (** [update_flags(..).unwrap()] and [raw_update_flags] *)
  lt_update_flags : Z -> Z -> S -> outcome S;
  (** [push_tracked_frame]; the bootloader keeps no such list *)
  lt_track : Z -> S -> S;
  (** memory, as the loader addresses it *)
  lt_mem : S -> Z -> Z;
  lt_set_mem : (Z -> Z) -> S -> S;
  (** what is done with a page of the file: page, original frame, flags *)
  lt_map_file : Z -> Z -> Z -> S -> outcome S;
  (** [mark_range_as_used]; the kernel has no such table *)
  lt_mark_range : Z -> Z -> S -> outcome S
}.

Section Loader.
Context {X : X86Addr} {V : X86Virt} {VT : X86Step} {F : PtFlags} {S : Type} {L : LoadTarget S}.

(** [copy_page_and_remap]. *)
Definition copy_page_and_remap (page : Z) (s : S) : outcome (option Z * S) :=
  match lt_translate s page with
  | Mapped (Frame4KiB curr_frame) _ flags =>
      if flags_contain flags PT_BIT_9 then Done (Some curr_frame, s)
      else
        '(f, s) ← lt_alloc s;
        match f with
        | None => Done (None, s)
        | Some new_frame =>
            let s := lt_track new_frame s in
            let s := lt_set_mem (mem_copy curr_frame new_frame 4096 (lt_mem s)) s in
            s ← lt_unmap page s;
            s ← lt_map_to page new_frame (flags_or flags PT_BIT_9) s;
            Done (Some new_frame, s)
        end
  | _ => Done (None, s)
  end.

(** One iteration of [copy_pages_and_write], for the bytes from [addr] to
    [end_inclusive_addr]. *)
Definition write_page (addr end_inclusive_addr : Z) (buf : list Z) (s : S) (page : Z) : outcome S :=
  '(f, s) ← copy_page_and_remap page s;
  phys_addr ← or_panic f;
  page_end_inclusive ← virt_addr_add page 4095;
  let start_copy_address := Z.max addr page in
  let end_inclusive_copy_address := Z.min end_inclusive_addr page_end_inclusive in
  start_offset_in_frame ← u64_sub start_copy_address page;
  end_inclusive_offset_in_frame ← u64_sub end_inclusive_copy_address page;
  len ← u64_sub end_inclusive_offset_in_frame start_offset_in_frame;
  copy_len ← u64_add len 1;
  start_phys_addr ← phys_addr_add phys_addr start_offset_in_frame;
  start_offset_in_buf ← or_panic (virt_steps_between addr start_copy_address);
  _ ← rassert (start_offset_in_buf + copy_len <=? Z.of_nat (length buf));
  let src := take (Z.to_nat copy_len) (drop (Z.to_nat start_offset_in_buf) buf) in
  Done (lt_set_mem (mem_write start_phys_addr src (lt_mem s)) s).

Definition copy_pages_and_write (addr : Z) (buf : list Z) (s : S) : outcome S :=
  n ← u64_sub (Z.of_nat (length buf)) 1;
  end_inclusive_addr ← or_panic (virt_forward_checked addr n);
  let start_page := page_containing_address addr in
  let end_inclusive_page := page_containing_address end_inclusive_addr in
  foldM (write_page addr end_inclusive_addr buf) s (page_steps_inclusive start_page end_inclusive_page).

(** [update_page_flag] with a flag to clear: [flags & !flag]. *)
Definition update_page (flag : Z) (s : S) (page : Z) : outcome S :=
  match lt_translate s page with
  | Mapped _ _ flags => lt_update_flags page (flags_without flags flag) s
  | _ => Panic
  end.

Definition update_page_flag (range_inclusive : list Z) (flag : Z) (s : S) : outcome S :=
  foldM (update_page flag) s range_inclusive.

(** ** Segments *)

Definition seg_flags (ph : ProgramHeader) : Z :=
  let f := PT_PRESENT in
  let f := if negb (is_execute ph) then flags_or f PT_NO_EXECUTE else f in
  if is_write ph then flags_or f PT_WRITABLE else f.

(** The addresses, frames and pages of a segment that is placed at
    [seg_start_virt_addr]; the ends are inclusive for frames and pages. *)
Record SegmentPlace : Type := mkPlace {
  seg_start_virt_addr : Z;
  seg_mem_end_virt_addr : Z;
  seg_file_end_virt_addr : Z;
  seg_bytes_start_phys_frame : Z;
  seg_bytes_end_phys_frame : Z;
  seg_start_page : Z;
  seg_end_page : Z
}.

Definition place_segment (elf_bytes_phys_addr : Z) (ph : ProgramHeader) (start : Z) : outcome SegmentPlace :=
  seg_bytes_start_addr ← phys_addr_add elf_bytes_phys_addr (ph_offset ph);
  mem_end ← virt_addr_add start (mem_size ph);
  file_end ← virt_addr_add start (file_size ph);
  bytes_end ← phys_addr_add seg_bytes_start_addr (file_size ph);
  bytes_last ← phys_addr_sub bytes_end 1;
  mem_last ← virt_addr_sub mem_end 1;
  Done (mkPlace start mem_end file_end (frame_containing_address seg_bytes_start_addr)
    (frame_containing_address bytes_last) (page_containing_address start) (page_containing_address mem_last)).

Definition map_file_frame (p : SegmentPlace) (flags : Z) (s : S) (original_frame : Z) : outcome S :=
  n ← frame_diff original_frame (seg_bytes_start_phys_frame p);
  seg_page ← page_add (seg_start_page p) n;
  lt_map_file seg_page original_frame flags s.

(** The first, shared page of the zeroed part. *)
Definition clear_bss_start (bss_start : Z) (s : S) : outcome S :=
  let file_end_relative_addr := Z.land bss_start 0xfff in
  if negb (file_end_relative_addr =? 0) then
    last_addr ← virt_addr_sub bss_start 1;
    '(f, s) ← copy_page_and_remap (page_containing_address last_addr) s;
    new_frame ← or_panic f;
    Done (lt_set_mem (mem_fill (new_frame + file_end_relative_addr) (4096 - file_end_relative_addr) 0 (lt_mem s)) s)
  else Done s.

Definition map_bss_page (flags : Z) (s : S) (bss_page : Z) : outcome S :=
  '(f, s) ← lt_alloc s;
  frame ← or_panic f;
  let s := lt_set_mem (mem_fill frame 4096 0 (lt_mem s)) s in
  s ← lt_map_to bss_page frame flags s;
  Done (lt_track frame s).

(** The [ShType::Load] arm. *)
Definition load_segment (ph : ProgramHeader) (p : SegmentPlace) (s : S) : outcome S :=
  let flags := seg_flags ph in
  s ← foldM (map_file_frame p flags) s
    (frame_range_inclusive (seg_bytes_start_phys_frame p) (seg_bytes_end_phys_frame p));
  if mem_size ph <=? file_size ph then Done s
  else
    let bss_start := seg_file_end_virt_addr p in
    let bss_end := seg_mem_end_virt_addr p in
    s ← clear_bss_start bss_start s;
    bss_aligned ← virt_addr_new (align_up bss_start PAGE_SIZE);
    bss_last ← virt_addr_sub bss_end 1;
    foldM (map_bss_page flags) s
      (page_range_inclusive (page_containing_address bss_aligned) (page_containing_address bss_last)).

(** ** Relocations *)

(** [opt.replace(v)], and the panic when there was a value before. *)
Definition replace_once (o : option Z) (v : Z) : outcome (option Z) :=
  match o with Some _ => Panic | None => Done (Some v) end.

Record RelaInfo : Type := mkRelaInfo { ri_rela : option Z; ri_size : option Z; ri_ent : option Z }.

Definition scan_dynamic (r : RelaInfo) (rel : DynamicEntry) : outcome RelaInfo :=
  tag ← or_panic (get_tag rel);
  match tag with
  | TagRela =>
      ptr ← or_panic (get_ptr rel);
      v ← replace_once (ri_rela r) ptr;
      Done (mkRelaInfo v (ri_size r) (ri_ent r))
  | TagRelaSize =>
      val ← or_panic (get_val rel);
      v ← replace_once (ri_size r) val;
      Done (mkRelaInfo (ri_rela r) v (ri_ent r))
  | TagRelaEnt =>
      val ← or_panic (get_val rel);
      v ← replace_once (ri_ent r) val;
      Done (mkRelaInfo (ri_rela r) (ri_size r) v)
  | TagOther _ => Done r
  end.

(** [size_of::<Rela<u64>>()]: the offset, the info word and the addend. *)
Definition RELA_SIZE : Z := 24.
Definition R_X86_64_RELATIVE : Z := 8.

(** [u64::to_ne_bytes]. *)
Definition to_ne_bytes (v : Z) : list Z := map (fun i => (v / 256 ^ i) mod 256) [0; 1; 2; 3; 4; 5; 6; 7].

(** The image's bytes start at [elf_ptr], [elf_len] of them; the lowest address
    of its segments is [elf_start]; [place] gives the address at which an
    address of the file ends up. *)
Context (elf_ptr elf_len elf_start : Z) (place : Z -> outcome Z).

Definition apply_rela (rela_ptr_offset : Z) (s : S) (entry_idx : Z) : outcome S :=
  o ← u64_sub rela_ptr_offset elf_start;
  n ← u64_mul entry_idx RELA_SIZE;
  idx ← u64_add o n;
  _ ← rassert (idx <? elf_len);
  let r_offset := load64 (lt_mem s) (elf_ptr + idx) in
  let r_info := load64 (lt_mem s) (elf_ptr + idx + 8) in
  let r_addend := load64 (lt_mem s) (elf_ptr + idx + 16) in
  if negb (r_info / 2 ^ 32 =? 0) then Panic
  else if wrap 32 r_info =? R_X86_64_RELATIVE then
    offset ← place r_offset;
    attend ← place r_addend;
    copy_pages_and_write offset (to_ne_bytes attend) s
  else Panic.

(** The [ShType::Dynamic] arm. *)
Definition load_dynamic (ph : ProgramHeader) (s : S) : outcome S :=
  data ← or_panic (get_data ph);
  match data with
  | OtherData => Panic
  | Dynamic64 data =>
      r ← foldM scan_dynamic (mkRelaInfo None None None) data;
      match ri_rela r with
      | None => Done s
      | Some rela_ptr_offset =>
          total_size ← or_panic (ri_size r);
          entry_size ← or_panic (ri_ent r);
          if negb (entry_size =? RELA_SIZE) then Panic
          else
            foldM (apply_rela rela_ptr_offset) s (seqZ 0 (total_size / entry_size))
      end
  end.

(** ** The passes over the program headers *)

(** One program header of the first pass, with the template of the thread
    local storage. *)
Definition load_header (st : S * option TlsTemplate) (ph : ProgramHeader) : outcome (S * option TlsTemplate) :=
  let s := st.1 in
  let tls := st.2 in
  if mem_size ph <=? 0 then Done (s, tls)
  else
    start ← place (virtual_addr ph);
    p ← place_segment elf_ptr ph start;
    s ← lt_mark_range (seg_start_virt_addr p) (seg_mem_end_virt_addr p) s;
    match default ShNull (get_type ph) with
    | ShLoad => s ← load_segment ph p s; Done (s, tls)
    | ShDynamic => s ← load_dynamic ph s; Done (s, tls)
    | ShGnuRelro =>
        s ← update_page_flag (page_range_inclusive (seg_start_page p) (seg_end_page p)) PT_WRITABLE s;
        Done (s, tls)
    | ShTls => Done (s, Some (mkTlsTemplate (seg_start_virt_addr p) (mem_size ph) (file_size ph)))
    | _ => Done (s, tls)
    end.

(** One of the second pass, which removes [BIT_9]. *)
Definition unmark_header (s : S) (ph : ProgramHeader) : outcome S :=
  if mem_size ph <=? 0 then Done s
  else
    match default ShNull (get_type ph) with
    | ShLoad =>
        start ← place (virtual_addr ph);
        mem_end ← virt_addr_add start (mem_size ph);
        last ← virt_addr_sub mem_end 1;
        update_page_flag (page_range_inclusive (page_containing_address start) (page_containing_address last))
          PT_BIT_9 s
    | _ => Done s
    end.
End Loader.

(** The lowest address of the loadable segments and the end of the highest. *)
Definition widen (m : Z * Z) (ph : ProgramHeader) : outcome (Z * Z) :=
  match get_type ph with
  | Some ShLoad =>
      ph_right ← u64_add (virtual_addr ph) (mem_size ph);
      let max_virt_addr := if m.2 <? ph_right then ph_right else m.2 in
      let min_virt_addr := if virtual_addr ph <? m.1 then virtual_addr ph else m.1 in
      Done (min_virt_addr, max_virt_addr)
  | _ => Done m
  end.

(** The lowest address, and the size of the address space the image needs. *)
Definition virt_extent (elf : ElfFile) : outcome (Z * Z) :=
  match file_type elf with
  | Executable | SharedObject =>
      m ← foldM widen (2 ^ 64 - 1, 0) (program_iter elf);
      size ← u64_sub m.2 m.1;
      Done (m.1, size)
  | OtherEType _ => Panic
  end.

(** The bytes of a slice. *)
Definition file_bytes (mem : Z -> Z) (ptr len : Z) : list Z := map mem (seqZ ptr len).

Definition sanity_checked (elf : ElfFile) : outcome unit :=
  _ ← rassert (forallb (program_sanity_check elf) (program_iter elf));
  rassert (header_sanity_check elf).
