(* ===== verification/ElfImage.v ===== *)
(** * What the ELF loaders produce

    The pass over the headers (Elf.v), against what a page table promises to
    the loader: the program sees the image of the file, with the relocations
    applied, and the pages have the permissions of the headers.  The file ends
    with the two passes together; LoadElf.v and LoadKernel.v supply the page
    tables. *)

From S2P Require Import Prelude Platform Shared Paging Machine UserAddrSpace Elf.

(** ** What a page table promises to the loader *)

(** The page of an address. *)
Definition page_of (v : Z) : Z := v - v mod PAGE_SIZE.

(** The pages of the level-4 entry whose addresses start at [base]. *)
Definition slot_page (base p : Z) : Prop := (PAGE_SIZE | p) /\ base <= p < base + 2 ^ 39.

(** A 4 KiB frame of physical memory. *)
Definition frame_ok (f : Z) : Prop := (PAGE_SIZE | f) /\ 0 <= f /\ f + PAGE_SIZE <= 2 ^ 52.

(** The first address of a level-4 entry. *)
Definition p4_base (i : Z) : Z := i * 2 ^ 39 + (if 256 <=? i then 2 ^ 64 - 2 ^ 48 else 0).

Lemma p4_base_ok i : 0 <= i < 512 ->
  (2 ^ 39 | p4_base i) /\ canonical (p4_base i) /\ canonical (p4_base i + 2 ^ 39 - 1).
Proof.
  intros Hi. unfold p4_base, canonical. destruct (Z.leb_spec 256 i).
  - split; [exists (i + 2 ^ 25 - 2 ^ 9); lia|]. lia.
  - split; [exists i; lia|]. lia.
Qed.

(** The frames of a slice: from the first to behind the last. *)
Definition slice_lo (ptr : Z) : Z := page_of ptr.
Definition slice_hi (ptr len : Z) : Z := page_of (ptr + len - 1) + PAGE_SIZE.

(** The laws concern the pages of one level-4 entry, whose addresses start at
    [lt_base]. *)
Class LoadTargetSpec {F : PtFlags} (S : Type) (L : LoadTarget S) : Type := {
  lt_base : Z;
  lt_base_ok : (2 ^ 39 | lt_base) /\ canonical lt_base /\ canonical (lt_base + 2 ^ 39 - 1);
  (** flags every mapping has *)
  lt_extra : Z;
  lt_extra_ok : Z.land lt_extra PT_BIT_9 = 0 /\ Z.land lt_extra PT_WRITABLE = 0;
  lt_inv : S -> Prop;
  (** frame and flags of a page *)
  lt_page : S -> Z -> option (Z * Z);
  (** frames to be handed out *)
  lt_frames : S -> list Z;
  (** what is known of every frame that is handed out *)
  lt_own : Z -> Prop;
  lt_own_ok s : lt_inv s -> Forall lt_own (lt_frames s);
  lt_frames_ok s : lt_inv s -> Forall frame_ok (lt_frames s) /\
    StronglySorted (fun f g => f + PAGE_SIZE <= g) (lt_frames s);
  lt_translate_spec s p : lt_inv s -> slot_page lt_base p ->
    lt_translate s p = match lt_page s p with
                       | Some (f, fl) => Mapped (Frame4KiB f) 0 fl
                       | None => NotMapped
                       end;
  lt_alloc_spec s : lt_inv s -> lt_frames s <> [] -> exists s', lt_alloc s = Done (head (lt_frames s), s') /\
    lt_frames s' = tail (lt_frames s) /\ (forall p, slot_page lt_base p -> lt_page s' p = lt_page s p) /\
    lt_mem s' = lt_mem s /\ lt_inv s';
  lt_map_to_spec s p f fl : lt_inv s -> slot_page lt_base p -> (PAGE_SIZE | f) -> lt_own f -> lt_page s p = None ->
    (3 <= length (lt_frames s))%nat ->
    exists s' k, (k <= 3)%nat /\ lt_map_to p f fl s = Done s' /\ lt_frames s' = drop k (lt_frames s) /\
      (forall q, slot_page lt_base q -> lt_page s' q = if decide (q = p) then Some (f, flags_or fl lt_extra) else lt_page s q) /\
      lt_mem s' = lt_mem s /\ lt_inv s';
  lt_unmap_spec s p x : lt_inv s -> slot_page lt_base p -> lt_page s p = Some x ->
    exists s', lt_unmap p s = Done s' /\ lt_frames s' = lt_frames s /\
      (forall q, slot_page lt_base q -> lt_page s' q = if decide (q = p) then None else lt_page s q) /\
      lt_mem s' = lt_mem s /\ lt_inv s';
  lt_update_flags_spec s p f fl fl' : lt_inv s -> slot_page lt_base p -> lt_page s p = Some (f, fl) ->
    exists s', lt_update_flags p fl' s = Done s' /\ lt_frames s' = lt_frames s /\
      (forall q, slot_page lt_base q -> lt_page s' q = if decide (q = p) then Some (f, fl') else lt_page s q) /\
      lt_mem s' = lt_mem s /\ lt_inv s';
  lt_track_spec s f : lt_inv s -> lt_frames (lt_track f s) = lt_frames s /\
    (forall p, slot_page lt_base p -> lt_page (lt_track f s) p = lt_page s p) /\
    lt_mem (lt_track f s) = lt_mem s /\ lt_inv (lt_track f s);
  lt_set_mem_spec s m : lt_inv s -> lt_frames (lt_set_mem m s) = lt_frames s /\
    (forall p, slot_page lt_base p -> lt_page (lt_set_mem m s) p = lt_page s p) /\
    lt_mem (lt_set_mem m s) = m /\ lt_inv (lt_set_mem m s);
  (** the page shows the original frame or a copy of it in a new frame *)
  lt_map_file_spec s p orig fl : lt_inv s -> slot_page lt_base p -> (PAGE_SIZE | orig) -> lt_page s p = None ->
    (4 <= length (lt_frames s))%nat ->
    exists s' f k, (k <= 4)%nat /\ lt_map_file p orig fl s = Done s' /\ lt_frames s' = drop k (lt_frames s) /\
      (forall q, slot_page lt_base q -> lt_page s' q = if decide (q = p) then Some (f, flags_or fl lt_extra) else lt_page s q) /\
      (f = orig /\ lt_mem s' = lt_mem s \/
       f ∈ take k (lt_frames s) /\ lt_mem s' = mem_copy orig f PAGE_SIZE (lt_mem s)) /\ lt_inv s';
  lt_mark_range_spec s lo hi : lt_inv s -> lt_base <= lo < hi -> hi < lt_base + 2 ^ 39 ->
    exists s', lt_mark_range lo hi s = Done s' /\ lt_frames s' = lt_frames s /\
      (forall p, slot_page lt_base p -> lt_page s' p = lt_page s p) /\ lt_mem s' = lt_mem s /\ lt_inv s'
}.

Lemma flags_contain_or fl b : flags_contain (flags_or fl b) b = true.
Proof.
  unfold flags_contain, flags_or. apply Z.eqb_eq, Z.bits_inj'. intros n Hn.
  rewrite Z.land_spec, Z.lor_spec. by destruct (Z.testbit fl n), (Z.testbit b n).
Qed.

Lemma flags_without_or fl b : flags_without (flags_or fl b) b = flags_without fl b.
Proof.
  unfold flags_without, flags_or. apply Z.bits_inj'. intros n Hn.
  rewrite !Z.ldiff_spec, Z.lor_spec. by destruct (Z.testbit fl n), (Z.testbit b n).
Qed.

Lemma page_of_aligned p : (PAGE_SIZE | p) -> page_of p = p.
Proof. intros [k ->]. unfold page_of. rewrite Z.mod_mul by done. lia. Qed.

Lemma page_of_bounds v : (PAGE_SIZE | page_of v) /\ page_of v <= v < page_of v + PAGE_SIZE.
Proof.
  unfold page_of. pose proof (Z.mod_pos_bound v PAGE_SIZE eq_refl). split; [|lia].
  exists (v / PAGE_SIZE). pose proof (Z.div_mod v PAGE_SIZE ltac:(done)). lia.
Qed.

Lemma page_of_mod v : v mod PAGE_SIZE = v - page_of v.
Proof. unfold page_of. lia. Qed.

(** The page that contains an address is determined by its bounds. *)
Lemma page_of_unique v p : (PAGE_SIZE | p) -> p <= v < p + PAGE_SIZE -> page_of v = p.
Proof.
  intros [k ->] H. destruct (page_of_bounds v) as [[j Hj] H2]. rewrite Hj in *. unfold PAGE_SIZE in *.
  assert (j = k) by lia. by subst.
Qed.

Lemma aligned_apart f g : (PAGE_SIZE | f) -> (PAGE_SIZE | g) -> f <> g -> f + PAGE_SIZE <= g \/ g + PAGE_SIZE <= f.
Proof. intros [i ->] [j ->] H. unfold PAGE_SIZE in *. assert (i <> j) by congruence. lia. Qed.

Section Loading.
Context {X : X86Addr} {XS : X86AddrSpec X} {V : X86Virt} {VS : X86VirtSpec V} {VT : X86Step} {VTS : X86StepSpec VT}.
Context {F : PtFlags} {FS : PtFlagsSpec F} {S : Type} {L : LoadTarget S} {LS : LoadTargetSpec S L}.
(** The frames of the file, with its bytes in [mem0], and other addresses that
    are to be left alone, as in [was]. *)
Context (lo hi : Z) (kept : Z -> Prop) (was mem0 : Z -> Z) (Hbounds : 0 <= lo /\ hi <= 2 ^ 52).
Context (Hwas : forall x, lo <= x < hi -> was x = mem0 x).

Abbreviation slot := (slot_page lt_base).

(** The byte a program sees at an address. *)
Definition read (s : S) (v : Z) : option Z :=
  match lt_page s (page_of v) with
  | Some (f, _) => Some (lt_mem s (f + v mod PAGE_SIZE))
  | None => None
  end.

(** The flags of a page, without the loader's own mark. *)
Definition attr (s : S) (p : Z) : option Z := (fun x => flags_without x.2 PT_BIT_9) <$> lt_page s p.

Definition untouched (x : Z) : Prop := lo <= x < hi \/ kept x.
Definition apart (f : Z) : Prop := (f + PAGE_SIZE <= lo \/ hi <= f) /\ forall x, f <= x < f + PAGE_SIZE -> ~ kept x.

Lemma apart_untouched f x : apart f -> untouched x -> x < f \/ f + PAGE_SIZE <= x.
Proof. intros [H1 H2] [Hx|Hx]; [lia|]. destruct (Z.lt_ge_cases x f), (Z.lt_ge_cases x (f + PAGE_SIZE)); try lia. by destruct (H2 x). Qed.

(** Mapped frames are used up; a page with the mark has a frame of its own,
    apart from the file and the kept addresses, which are as they were. *)
Record loading (s : S) : Prop := {
  li_inv : lt_inv s;
  li_fresh p f fl : slot p -> lt_page s p = Some (f, fl) -> frame_ok f /\ f ∉ lt_frames s;
  li_extra p f fl : slot p -> lt_page s p = Some (f, fl) -> flags_or fl lt_extra = fl;
  li_unique p q f fl gl : slot p -> slot q -> p <> q -> lt_page s p = Some (f, fl) ->
    lt_page s q = Some (f, gl) -> flags_contain fl PT_BIT_9 = false;
  li_owned p f fl : slot p -> lt_page s p = Some (f, fl) -> flags_contain fl PT_BIT_9 = true -> apart f;
  li_src x : untouched x -> lt_mem s x = was x;
  li_apart : Forall apart (lt_frames s)
}.

Lemma supply_cons s g l : lt_inv s -> lt_frames s = g :: l -> frame_ok g /\ lt_own g /\ g ∉ l.
Proof.
  intros Hi E. destruct (lt_frames_ok s Hi) as [Ha Hs]. pose proof (lt_own_ok s Hi) as Ho. rewrite E in *.
  apply Forall_cons in Ha as [Ha _]. apply Forall_cons in Ho as [Ho _]. apply StronglySorted_inv in Hs as [_ Hs].
  split; [done|]. split; [done|]. intros Hin. rewrite Forall_forall in Hs. specialize (Hs _ Hin). page_lia.
Qed.

(** The invariant depends on the mappings, the frames left and the file. *)
Lemma loading_ext s s' k : loading s -> lt_inv s' -> lt_frames s' = drop k (lt_frames s) ->
  (forall p, slot p -> lt_page s' p = lt_page s p) -> (forall x, untouched x -> lt_mem s' x = lt_mem s x) ->
  loading s'.
Proof.
  intros [I1 I2 I3 I4 I5 I6 I7] Hi Hf Hp Hm. split; try done.
  - intros p f fl Hs. rewrite Hp by done. intros Hpg. destruct (I2 _ _ _ Hs Hpg) as [? Hnin].
    split; [done|]. rewrite Hf. intros Hin. by apply Hnin, (subseteq_drop k).
  - intros p f fl Hs. rewrite Hp by done. by apply I3.
  - intros p q f fl gl Hs Hq Hne. rewrite !Hp by done. by apply I4.
  - intros p f fl Hs. rewrite Hp by done. by apply I5.
  - intros x Hx. rewrite Hm by done. by apply I6.
  - rewrite Hf. by apply Forall_drop.
Qed.

Lemma li_alloc s : loading s -> (1 <= length (lt_frames s))%nat ->
  exists g s', lt_alloc s = Done (Some g, s') /\ lt_frames s = g :: lt_frames s' /\ loading s' /\
    (forall p, slot p -> lt_page s' p = lt_page s p) /\ lt_mem s' = lt_mem s /\
    frame_ok g /\ lt_own g /\ (g ∉ lt_frames s') /\ apart g /\
    (forall p f fl, slot p -> lt_page s p = Some (f, fl) -> f <> g).
Proof.
  intros Hload Hl. pose proof (li_inv s Hload) as Hi. destruct (lt_alloc_spec s Hi) as (s' & E & Hf & Hp & Hm & Hi'); [by destruct (lt_frames s); simpl in Hl; [lia|]|].
  destruct (lt_frames s) as [|g l] eqn:El; [simpl in Hl; lia|]. simpl in E, Hf.
  destruct (supply_cons s g l Hi El) as (Ha & Ho & Hn). pose proof (li_apart s Hload) as Hap. rewrite El in Hap.
  apply Forall_cons in Hap as [Hap _].
  exists g, s'. split; [done|]. split; [by rewrite Hf|]. split; [|split_and!; rewrite ?Hf; try done].
  - apply (loading_ext s s' 1); try done. { by rewrite El, Hf. } intros x _. by rewrite Hm.
  - intros p f fl Hs Hpg ->. destruct (li_fresh s Hload _ _ _ Hs Hpg) as [_ Hnin].
    apply Hnin. rewrite El. left.
Qed.

(** Memory that changes only in the frame at [g]. *)
Definition changed_at (g : Z) (m m' : Z -> Z) : Prop := forall x, x < g \/ g + PAGE_SIZE <= x -> m' x = m x.

Lemma li_set_mem s m g : loading s -> changed_at g (lt_mem s) m -> apart g ->
  loading (lt_set_mem m s) /\ lt_frames (lt_set_mem m s) = lt_frames s /\
  (forall p, slot p -> lt_page (lt_set_mem m s) p = lt_page s p) /\ lt_mem (lt_set_mem m s) = m.
Proof.
  intros Hl Hc Hap. destruct (lt_set_mem_spec s m (li_inv s Hl)) as (Hf & Hp & Hm & Hi).
  split; [|done]. apply (loading_ext s _ 0); try done. intros x Hx. rewrite Hm. apply Hc. by apply apart_untouched.
Qed.

Lemma li_track s f : loading s -> loading (lt_track f s) /\ lt_frames (lt_track f s) = lt_frames s /\
  (forall p, slot p -> lt_page (lt_track f s) p = lt_page s p) /\ lt_mem (lt_track f s) = lt_mem s.
Proof.
  intros Hl. destruct (lt_track_spec s f (li_inv s Hl)) as (Hf & Hp & Hm & Hi).
  split; [|done]. apply (loading_ext s _ 0); try done. intros x Hx. by rewrite Hm.
Qed.

(** A page that is mapped or changed: [f] is used up, and shared only without
    the mark. *)
Definition may_map (left : list Z) (s : S) (p f fl : Z) : Prop :=
  frame_ok f /\ (f ∉ left) /\ flags_or fl lt_extra = fl /\
  (forall q gl, slot q -> q <> p -> lt_page s q = Some (f, gl) ->
     flags_contain gl PT_BIT_9 = false /\ flags_contain fl PT_BIT_9 = false) /\
  (flags_contain fl PT_BIT_9 = true -> apart f).

Lemma loading_map s s' k p f fl : loading s -> slot p -> may_map (lt_frames s') s p f fl ->
  lt_inv s' -> lt_frames s' = drop k (lt_frames s) ->
  (forall q, slot q -> lt_page s' q = if decide (q = p) then Some (f, fl) else lt_page s q) ->
  (forall x, untouched x -> lt_mem s' x = lt_mem s x) -> loading s'.
Proof.
  intros [I1 I2 I3 I4 I5 I6 I7] Hp (M1 & M2 & M3 & M4 & M5) Hi Hf Hpg Hm. split; try done.
  - intros q g gl Hq. rewrite Hpg by done. rewrite Hf. case_decide as Hd.
    + intros [= <- <-]. split; [done|]. by rewrite <- Hf.
    + intros Hpq. destruct (I2 _ _ _ Hq Hpq) as [? Hnin]. split; [done|].
      intros Hin. by apply Hnin, (subseteq_drop k).
  - intros q g gl Hq. rewrite Hpg by done. case_decide as Hd; [by intros [= <- <-]|by apply I3].
  - intros q r g gl hl Hq Hr Hne. rewrite !Hpg by done.
    case_decide as Hd1; case_decide as Hd2; subst; try done.
    + intros [= <- <-] Hpr. by destruct (M4 r hl Hr).
    + intros Hpq [= -> ->]. by destruct (M4 q gl Hq).
    + by apply I4.
  - intros q g gl Hq. rewrite Hpg by done. case_decide as Hd; [intros [= <- <-]; apply M5|by apply I5].
  - intros x Hx. rewrite Hm by done. by apply I6.
  - rewrite Hf. by apply Forall_drop.
Qed.

Lemma or_extra fl : flags_or (flags_or fl lt_extra) lt_extra = flags_or fl lt_extra.
Proof. unfold flags_or. by rewrite <- Z.lor_assoc, Z.lor_diag. Qed.

Lemma li_map_to s p f fl : loading s -> slot p -> lt_own f -> lt_page s p = None ->
  may_map (lt_frames s) s p f (flags_or fl lt_extra) -> (3 <= length (lt_frames s))%nat ->
  exists s' k, (k <= 3)%nat /\ lt_map_to p f fl s = Done s' /\ lt_frames s' = drop k (lt_frames s) /\ loading s' /\
    (forall q, slot q -> lt_page s' q = if decide (q = p) then Some (f, flags_or fl lt_extra) else lt_page s q) /\
    lt_mem s' = lt_mem s.
Proof.
  intros Hl Hp Ho Hn Hmay Hlen.
  destruct (lt_map_to_spec s p f fl (li_inv s Hl) Hp (proj1 (proj1 Hmay)) Ho Hn Hlen) as (s' & k & Hk & E & Hf & Hpg & Hm & Hi).
  exists s', k. split; [done|]. split; [done|]. split; [done|]. split; [|done].
  eapply loading_map; try done; [|intros x _; by rewrite Hm].
  destruct Hmay as (M1 & M2 & M3). split; [done|]. split; [|done]. rewrite Hf. intros Hin.
  by apply M2, (subseteq_drop k).
Qed.

Lemma li_unmap s p x : loading s -> slot p -> lt_page s p = Some x ->
  exists s', lt_unmap p s = Done s' /\ lt_frames s' = lt_frames s /\ loading s' /\
    (forall q, slot q -> lt_page s' q = if decide (q = p) then None else lt_page s q) /\ lt_mem s' = lt_mem s.
Proof.
  intros Hl Hp Hx. destruct (lt_unmap_spec s p x (li_inv s Hl) Hp Hx) as (s' & E & Hf & Hpg & Hm & Hi).
  exists s'. split; [done|]. split; [done|]. split; [|done]. destruct Hl as [I1 I2 I3 I4 I5 I6 I7].
  assert (Hsub : forall q y, slot q -> lt_page s' q = Some y -> lt_page s q = Some y).
  { intros q y Hq. rewrite Hpg by done. by case_decide. }
  split; try done.
  - intros q g gl Hq Hg%Hsub; [|done]. rewrite Hf. by apply (I2 q g gl).
  - intros q g gl Hq Hg%Hsub; [|done]. by apply (I3 q g gl).
  - intros q r g gl hl Hq Hr Hne Hg%Hsub Hh%Hsub; [|done..]. by apply (I4 q r g gl hl).
  - intros q g gl Hq Hg%Hsub; [|done]. by apply (I5 q g gl).
  - intros y Hy. rewrite Hm. by apply I6.
  - by rewrite Hf.
Qed.

Lemma read_same s s' v : lt_page s' (page_of v) = lt_page s (page_of v) ->
  (forall f fl, lt_page s (page_of v) = Some (f, fl) -> lt_mem s' (f + v mod PAGE_SIZE) = lt_mem s (f + v mod PAGE_SIZE)) ->
  read s' v = read s v.
Proof.
  intros Hp Hm. unfold read. rewrite Hp. destruct (lt_page s (page_of v)) as [[f fl]|]; [|done].
  f_equal. by eapply Hm.
Qed.

(** Two frames apart, one byte in each. *)
Lemma frame_offset_apart f g v : frame_ok f -> frame_ok g -> f <> g ->
  f + v mod PAGE_SIZE < g \/ g + PAGE_SIZE <= f + v mod PAGE_SIZE.
Proof.
  intros [Hf _] [Hg _] Hne. pose proof (aligned_apart f g Hf Hg Hne). pose proof (Z.mod_pos_bound v PAGE_SIZE eq_refl). lia.
Qed.

Lemma mem_copy_at src dst m v : mem_copy src dst PAGE_SIZE m (dst + v mod PAGE_SIZE) = m (src + v mod PAGE_SIZE).
Proof.
  pose proof (Z.mod_pos_bound v PAGE_SIZE eq_refl). unfold mem_copy.
  rewrite (proj2 (Z.leb_le _ _)), (proj2 (Z.ltb_lt _ _)) by lia. simpl. f_equal. lia.
Qed.

Lemma mem_copy_changed src dst m : changed_at dst m (mem_copy src dst PAGE_SIZE m).
Proof.
  intros x Hx. unfold mem_copy.
  destruct (Z.leb_spec dst x), (Z.ltb_spec x (dst + PAGE_SIZE)); simpl; done || lia.
Qed.

(** [copy_page_and_remap] leaves what the program sees as it is; afterwards
    the page has a frame of its own. *)
Lemma copy_page_spec s p f fl : loading s -> slot p -> lt_page s p = Some (f, fl) ->
  (4 <= length (lt_frames s))%nat ->
  exists g gl s' k, (k <= 4)%nat /\ copy_page_and_remap p s = Done (Some g, s') /\ loading s' /\
    lt_frames s' = drop k (lt_frames s) /\ lt_page s' p = Some (g, gl) /\ flags_contain gl PT_BIT_9 = true /\
    flags_without gl PT_BIT_9 = flags_without fl PT_BIT_9 /\
    (forall q, slot q -> q <> p -> lt_page s' q = lt_page s q) /\
    (forall v, slot (page_of v) -> read s' v = read s v).
Proof.
  intros Hl Hp Hpg Hlen. unfold copy_page_and_remap. rewrite (lt_translate_spec s p (li_inv s Hl) Hp), Hpg.
  destruct (flags_contain fl PT_BIT_9) eqn:Hb.
  { exists f, fl, s, 0%nat. split; [lia|]. done. }
  destruct (li_alloc s Hl ltac:(lia)) as (g & s1 & E1 & Hf1 & L1 & P1 & M1 & Ga & Go & Gn & Gap & Gne).
  step E1.
  destruct (li_track s1 g L1) as (L2 & F2 & P2 & M2). change 4096 with PAGE_SIZE.
  destruct (li_set_mem (lt_track g s1) (mem_copy f g PAGE_SIZE (lt_mem (lt_track g s1))) g L2
    (mem_copy_changed _ _ _) Gap) as (L3 & F3 & P3 & M3).
  set (s3 := lt_set_mem _ _) in *.
  assert (P13 : forall q, slot q -> lt_page s3 q = lt_page s q) by (intros; by rewrite P3, P2, P1).
  destruct (li_unmap s3 p (f, fl) L3 Hp ltac:(by rewrite P13)) as (s4 & -> & F4 & L4 & P4 & M4).
  rewrite Done_bind.
  assert (Fr4 : lt_frames s4 = lt_frames s1) by (by rewrite F4, F3, F2).
  assert (Hex : flags_or (flags_or fl PT_BIT_9) lt_extra = flags_or fl PT_BIT_9).
  { pose proof (li_extra s Hl _ _ _ Hp Hpg) as He. unfold flags_or in *.
    by rewrite <- Z.lor_assoc, (Z.lor_comm PT_BIT_9), Z.lor_assoc, He. }
  destruct (li_map_to s4 p g (flags_or fl PT_BIT_9) L4 Hp Go) as (s5 & k & Hk & -> & F5 & L5 & P5 & M5).
  { rewrite P4 by done. by rewrite decide_True. }
  { rewrite Hex. split; [done|]. split; [by rewrite Fr4|]. split; [done|]. split; [|done].
    intros q gl Hq Hne. rewrite P4, decide_False, P13 by done. intros Hgl. by destruct (Gne q g gl Hq Hgl). }
  { rewrite Fr4. rewrite Hf1 in Hlen. simpl in Hlen. lia. }
  rewrite Done_bind, Hex in *.
  exists g, (flags_or fl PT_BIT_9), s5, (Datatypes.S k). split; [lia|]. split; [done|]. split; [done|].
  split; [by rewrite F5, Fr4, Hf1|]. split; [rewrite P5 by done; by rewrite decide_True|].
  split; [apply flags_contain_or|]. split; [apply flags_without_or|].
  assert (P6 : forall q, slot q -> q <> p -> lt_page s5 q = lt_page s q).
  { intros q Hq Hne. by rewrite P5, decide_False, P4, decide_False, P13 by done. }
  split; [done|]. intros v Hv.
  assert (Hmem : lt_mem s5 = mem_copy f g PAGE_SIZE (lt_mem s)) by (by rewrite M5, M4, M3, M2, M1).
  destruct (decide (page_of v = p)) as [Hvp|Hne].
  - unfold read. rewrite Hvp, Hpg, P5, decide_True, Hmem by done. f_equal. apply mem_copy_at.
  - apply read_same; [by apply P6|]. intros f' fl' Hf'. rewrite Hmem. apply mem_copy_changed.
    apply frame_offset_apart; [|done|by eapply Gne]. by eapply (li_fresh s Hl).
Qed.

(** Writing into the frame a page has for itself. *)
Lemma write_owned s p g gl m : loading s -> slot p -> lt_page s p = Some (g, gl) ->
  flags_contain gl PT_BIT_9 = true -> changed_at g (lt_mem s) m ->
  loading (lt_set_mem m s) /\ lt_frames (lt_set_mem m s) = lt_frames s /\
  (forall q, slot q -> lt_page (lt_set_mem m s) q = lt_page s q) /\
  (forall v, slot (page_of v) -> read (lt_set_mem m s) v =
     if decide (page_of v = p) then Some (m (g + v mod PAGE_SIZE)) else read s v).
Proof.
  intros Hl Hp Hpg Hb Hc.
  destruct (li_set_mem s m g Hl Hc (li_owned s Hl _ _ _ Hp Hpg Hb)) as (L' & F' & P' & M').
  split; [done|]. split; [done|]. split; [done|]. intros v Hv. case_decide as Hd.
  - unfold read. by rewrite Hd, P', Hpg, M'.
  - apply read_same; [by apply P'|]. intros f fl Hf. rewrite M'. apply Hc.
    apply frame_offset_apart; [apply (li_fresh s Hl _ _ _ Hv Hf)|apply (li_fresh s Hl _ _ _ Hp Hpg)|].
    intros ->. assert (flags_contain gl PT_BIT_9 = false); [|congruence].
    eapply (li_unique s Hl p (page_of v)); [done|done|congruence|done..].
Qed.

(** ** Filling runs of pages *)

Definition grows (n : nat) (s s' : S) : Prop :=
  loading s' /\ exists k, (k <= n)%nat /\ lt_frames s' = drop k (lt_frames s).

Lemma grows_refl n s : loading s -> grows n s s.
Proof. split; [done|]. exists 0%nat. split; [lia|done]. Qed.

Lemma grows_trans n m s1 s2 s3 : grows n s1 s2 -> grows m s2 s3 -> grows (n + m) s1 s3.
Proof.
  intros [_ (k & Hk & E)] [Hld (j & Hj & E')]. split; [done|]. exists (k + j)%nat. split; [lia|].
  by rewrite E', E, drop_drop.
Qed.

Lemma grows_length n s s' : grows n s s' -> (length (lt_frames s) <= n + length (lt_frames s'))%nat.
Proof. intros [_ (k & Hk & E)]. rewrite E, length_drop. lia. Qed.

(** [s'] is [s] with the [n] pages from [a] on mapped with the flags [fl] and
    the bytes [img]. *)
Record filled (a : Z) (n cost : nat) (fl : Z) (img : Z -> Z) (s s' : S) : Prop := {
  fl_grows : grows cost s s';
  fl_out q : slot q -> ~ a <= q < a + PAGE_SIZE * Z.of_nat n -> lt_page s' q = lt_page s q;
  fl_attr q : slot q -> a <= q < a + PAGE_SIZE * Z.of_nat n -> attr s' q = Some fl;
  fl_read v : slot (page_of v) -> read s' v =
    if decide (a <= v < a + PAGE_SIZE * Z.of_nat n) then Some (img v) else read s v
}.

Lemma filled_nil a fl img s : loading s -> filled a 0 0 fl img s s.
Proof.
  intros Hl. split; try done.
  - split; [done|]. exists 0%nat. done.
  - intros q _ H. simpl in H. page_lia.
  - intros v _. rewrite decide_False by (simpl; page_lia). done.
Qed.

Lemma filled_ext a n cost cost' fl img img' s s' : (cost <= cost')%nat ->
  (forall v, a <= v < a + PAGE_SIZE * Z.of_nat n -> img v = img' v) ->
  filled a n cost fl img s s' -> filled a n cost' fl img' s s'.
Proof.
  intros Hc Hi [[Hld (k & Hk & E)] F2 F3 F4]. split; try done.
  - split; [done|]. exists k. split; [lia|done].
  - intros v Hv. rewrite F4 by done. case_decide; [|done]. by rewrite Hi.
Qed.

Lemma filled_app a n m cost cost' fl img s1 s2 s3 :
  filled a n cost fl img s1 s2 -> filled (a + PAGE_SIZE * Z.of_nat n) m cost' fl img s2 s3 ->
  filled a (n + m) (cost + cost') fl img s1 s3.
Proof.
  intros [F1 F2 F3 F4] [G1 G2 G3 G4]. rewrite <- Z.add_assoc, <- Z.mul_add_distr_l, <- Nat2Z.inj_add in *.
  split.
  - by eapply grows_trans.
  - intros q Hq Hout. rewrite G2, F2 by (done || page_lia). done.
  - intros q Hq Hin. destruct (Z.lt_ge_cases q (a + PAGE_SIZE * Z.of_nat n)).
    + unfold attr in *. rewrite G2 by (done || page_lia). apply F3; [done|page_lia].
    + apply G3; [done|page_lia].
  - intros v Hv. rewrite G4, F4 by done. repeat case_decide; done || page_lia.
Qed.

Definition no_mark (fl : Z) : Prop := flags_contain (flags_or fl lt_extra) PT_BIT_9 = false.
Definition stored_flags (fl : Z) : Z := flags_without (flags_or fl lt_extra) PT_BIT_9.

(** One page, given what happened to memory. *)
Lemma filled_page s s' k p f fl (img : Z -> Z) : loading s' -> slot p ->
  lt_frames s' = drop k (lt_frames s) -> (k <= 4)%nat ->
  (forall q, slot q -> lt_page s' q = if decide (q = p) then Some (f, flags_or fl lt_extra) else lt_page s q) ->
  (forall q g gl v, slot q -> lt_page s q = Some (g, gl) ->
     lt_mem s' (g + v mod PAGE_SIZE) = lt_mem s (g + v mod PAGE_SIZE)) ->
  (forall v, page_of v = p -> lt_mem s' (f + v mod PAGE_SIZE) = img v) ->
  filled p 1 4 (stored_flags fl) img s s'.
Proof.
  intros Hl Hp Hf Hk Hpg Hm Hi.
  assert (Hin : forall v, page_of v = p <-> p <= v < p + PAGE_SIZE * Z.of_nat 1).
  { intros v. split; [intros <-; pose proof (page_of_bounds v); lia|].
    intros. apply page_of_unique; [apply Hp|lia]. }
  split.
  - split; [done|]. by exists k.
  - intros q Hq Hout. rewrite Hpg, decide_False; [done| |done]. intros ->. page_lia.
  - intros q Hq Hin'. apply Hin in Hin'. rewrite page_of_aligned in Hin' by apply Hq. subst q.
    unfold attr. rewrite Hpg, decide_True by done. done.
  - intros v Hv. case_decide as Hd.
    + apply Hin in Hd. unfold read. rewrite Hpg, decide_True by done. f_equal. by apply Hi.
    + apply read_same.
      * rewrite Hpg, decide_False; [done| |done]. intros E. by apply Hd, Hin.
      * intros g gl Hg. by eapply Hm.
Qed.

Lemma fill_file_page s p orig fl : loading s -> slot p -> lt_page s p = None -> (PAGE_SIZE | orig) ->
  lo <= orig -> orig + PAGE_SIZE <= hi -> no_mark fl -> (4 <= length (lt_frames s))%nat ->
  exists s', lt_map_file p orig fl s = Done s' /\
    filled p 1 4 (stored_flags fl) (fun v => mem0 (orig + (v - p))) s s'.
Proof.
  intros Hl Hp Hn Ha Hlo Hhi Hmark Hlen. pose proof (li_inv s Hl) as Hi.
  destruct (lt_map_file_spec s p orig fl Hi Hp Ha Hn Hlen) as (s' & f & k & Hk & E & Hf & Hpg & Hcase & Hi').
  assert (Hoff : forall v, page_of v = p -> v mod PAGE_SIZE = v - p) by (intros v <-; apply page_of_mod).
  assert (Hsrc : forall o, 0 <= o < PAGE_SIZE -> lt_mem s (orig + o) = mem0 (orig + o)).
  { intros o Ho. rewrite <- Hwas by lia. apply (li_src s Hl). left. lia. }
  assert (Hfo : frame_ok orig) by (split; [done|lia]).
  exists s'. split; [done|].
  destruct Hcase as [[-> Hm]|[Hin Hm]].
  - apply (filled_page s s' k p orig); try done.
    + apply (loading_map s s' k p orig (flags_or fl lt_extra)); try done.
      * split; [done|]. split; [|split; [apply or_extra|split; [|by rewrite Hmark]]].
        -- rewrite Hf. intros Hin%subseteq_drop. pose proof (li_apart s Hl) as Hap.
           rewrite Forall_forall in Hap. destruct (Hap _ Hin) as [Hap' _]. page_lia.
        -- intros q gl Hq _ Hgl. split; [|done]. destruct (flags_contain gl PT_BIT_9) eqn:Eb; [|done].
           destruct (li_owned s Hl _ _ _ Hq Hgl Eb) as [Hap _]. page_lia.
      * intros x _. by rewrite Hm.
    + intros. by rewrite Hm.
    + intros v Hv. pose proof (Z.mod_pos_bound v PAGE_SIZE eq_refl). rewrite Hm, Hsrc, (Hoff v Hv) by done. done.
  - assert (Hfr : f ∈ lt_frames s) by by eapply subseteq_take.
    destruct (lt_frames_ok s Hi) as [Hal _]. rewrite Forall_forall in Hal. pose proof (Hal _ Hfr) as Hfa.
    pose proof (li_apart s Hl) as Hap. rewrite Forall_forall in Hap. specialize (Hap _ Hfr). simpl in Hap.
    assert (Hnot : forall q g gl, slot q -> lt_page s q = Some (g, gl) -> g <> f).
    { intros q g gl Hq Hg ->. by apply (li_fresh s Hl _ _ _ Hq Hg). }
    apply (filled_page s s' k p f); try done.
    + apply (loading_map s s' k p f (flags_or fl lt_extra)); try done.
      * split; [done|]. split; [|split; [apply or_extra|split; [|by rewrite Hmark]]].
        -- rewrite Hf. intros Hin'. destruct (lt_frames_ok s Hi) as [_ Hs].
           rewrite <- (take_drop k (lt_frames s)) in Hs.
           pose proof (StronglySorted_app_1_elem_of _ _ _ f f Hs Hin Hin'). page_lia.
        -- intros q gl Hq _ Hgl. by destruct (Hnot _ _ _ Hq Hgl).
      * intros x Hx. rewrite Hm. apply mem_copy_changed. by apply apart_untouched.
    + intros q g gl v Hq Hg. rewrite Hm. apply mem_copy_changed.
      apply frame_offset_apart; [apply (li_fresh s Hl _ _ _ Hq Hg)|done|by eapply Hnot].
    + intros v Hv. pose proof (Z.mod_pos_bound v PAGE_SIZE eq_refl).
      rewrite Hm, mem_copy_at, Hsrc, (Hoff v Hv) by done. done.
Qed.

Lemma mem_fill_changed g m : changed_at g m (mem_fill g PAGE_SIZE 0 m).
Proof.
  intros x Hx. unfold mem_fill. destruct (Z.leb_spec g x), (Z.ltb_spec x (g + PAGE_SIZE)); simpl; done || lia.
Qed.

Lemma fill_bss_page s p fl : loading s -> slot p -> lt_page s p = None -> no_mark fl ->
  (4 <= length (lt_frames s))%nat ->
  exists s', map_bss_page fl s p = Done s' /\ filled p 1 4 (stored_flags fl) (fun _ => 0) s s'.
Proof.
  intros Hl Hp Hn Hmark Hlen. unfold map_bss_page.
  destruct (li_alloc s Hl ltac:(lia)) as (g & s1 & E1 & Hf1 & L1 & P1 & M1 & Ga & Go & Gn & Gap & Gne).
  step E1. cbn [or_panic]. rewrite Done_bind. change 4096 with PAGE_SIZE.
  destruct (li_set_mem s1 (mem_fill g PAGE_SIZE 0 (lt_mem s1)) g L1 (mem_fill_changed _ _) Gap) as (L2 & F2 & P2 & M2).
  set (s2 := lt_set_mem _ _) in *.
  destruct (li_map_to s2 p g fl L2 Hp Go) as (s3 & k & Hk & -> & F3 & L3 & P3 & M3).
  { by rewrite P2, P1. }
  { split; [done|]. split; [by rewrite F2|]. split; [apply or_extra|]. split; [|by rewrite Hmark].
    intros q gl Hq _. rewrite P2, P1 by done. intros Hgl. by destruct (Gne _ _ _ Hq Hgl). }
  { rewrite F2. rewrite Hf1 in Hlen. simpl in Hlen. lia. }
  rewrite Done_bind. destruct (li_track s3 g L3) as (L4 & F4 & P4 & M4). eexists. split; [done|].
  apply (filled_page s _ (Datatypes.S k) p g); try done; try lia.
  - by rewrite F4, F3, F2, Hf1.
  - intros q Hq. rewrite P4, P3 by done. case_decide; [done|]. by rewrite P2, P1.
  - intros q f gl v Hq Hgl. rewrite M4, M3, M2, M1. apply mem_fill_changed.
    apply frame_offset_apart; [apply (li_fresh s Hl _ _ _ Hq Hgl)|done|by eapply Gne].
  - intros v Hv. rewrite M4, M3, M2. unfold mem_fill. pose proof (Z.mod_pos_bound v PAGE_SIZE eq_refl).
    rewrite (proj2 (Z.leb_le _ _)), (proj2 (Z.ltb_lt _ _)) by lia. done.
Qed.

(** A loop over consecutive pages; the loop variable is the page moved by [d]. *)
Lemma fill_run (body : S -> Z -> outcome S) d fl img n : forall a s, loading s ->
  (forall p, (PAGE_SIZE | p) -> a <= p < a + PAGE_SIZE * Z.of_nat n -> slot p /\ lt_page s p = None) ->
  (PAGE_SIZE | a) -> (4 * n <= length (lt_frames s))%nat ->
  (forall s p, loading s -> slot p -> a <= p < a + PAGE_SIZE * Z.of_nat n -> lt_page s p = None ->
     (4 <= length (lt_frames s))%nat -> exists s', body s (p + d) = Done s' /\ filled p 1 4 fl img s s') ->
  exists s', foldM body s (frame_list (a + d) n) = Done s' /\ filled a n (4 * n) fl img s s'.
Proof.
  induction n as [|n IH]; intros a s Hl Hfree Ha Hlen Hbody.
  { exists s. split; [done|]. by apply filled_nil. }
  destruct (Hfree a Ha ltac:(page_lia)) as [Hs Hn].
  destruct (Hbody s a Hl Hs ltac:(page_lia) Hn ltac:(lia)) as (s1 & E1 & F1).
  pose proof (grows_length _ _ _ (fl_grows _ _ _ _ _ _ _ F1)) as Hlen1.
  destruct (IH (a + PAGE_SIZE) s1) as (s2 & E2 & F2).
  - apply (fl_grows _ _ _ _ _ _ _ F1).
  - intros p Hp Hin. destruct (Hfree p Hp ltac:(page_lia)) as [Hs' Hn']. split; [done|].
    rewrite (fl_out _ _ _ _ _ _ _ F1) by (done || page_lia). done.
  - auto with pages.
  - lia.
  - intros s' p Hl' Hp' Hin. apply Hbody; [done..|page_lia].
  - exists s2. cbn [stride foldM]. rewrite E1, Done_bind.
    replace (a + d + PAGE_SIZE) with (a + PAGE_SIZE + d) by lia. split; [done|].
    replace (Datatypes.S n) with (1 + n)%nat by lia. replace (4 * (1 + n))%nat with (4 + 4 * n)%nat by lia.
    apply filled_app with s1; [done|]. by replace (a + PAGE_SIZE * Z.of_nat 1) with (a + PAGE_SIZE) by lia.
Qed.

(** Clearing the rest of a page that is already filled. *)
Lemma filled_clear a n cost fl img s s1 p g gl m s2 b :
  filled a n cost fl img s s1 -> slot p -> a <= p -> p + PAGE_SIZE = a + PAGE_SIZE * Z.of_nat n ->
  grows 4 s1 s2 -> lt_page s2 p = Some (g, gl) -> flags_contain gl PT_BIT_9 = true ->
  (forall q, slot q -> q <> p -> lt_page s2 q = lt_page s1 q) -> attr s2 p = attr s1 p ->
  (forall v, slot (page_of v) -> read s2 v = read s1 v) ->
  p <= b < p + PAGE_SIZE -> m = mem_fill (g + (b - p)) (PAGE_SIZE - (b - p)) 0 (lt_mem s2) ->
  filled a n (cost + 4) fl (fun v => if v <? b then img v else 0) s (lt_set_mem m s2).
Proof.
  intros [F1 F2 F3 F4] Hp Hap Hend Hg Hpg Hb Hq Hat Hr Hbp ->.
  destruct (write_owned s2 p g gl (mem_fill (g + (b - p)) (PAGE_SIZE - (b - p)) 0 (lt_mem s2)) (proj1 Hg) Hp Hpg Hb)
    as (L2 & Fr2 & P2 & R2).
  { intros x Hx. unfold mem_fill.
    destruct (Z.leb_spec (g + (b - p)) x), (Z.ltb_spec x (g + (b - p) + (PAGE_SIZE - (b - p)))); simpl; done || lia. }
  split.
  - eapply grows_trans; [exact F1|]. destruct Hg as [_ (k & Hk & E)]. split; [done|]. exists k. by rewrite Fr2.
  - intros q Hs Hout. rewrite P2, Hq, F2 by (done || (intros ->; page_lia)). done.
  - intros q Hs Hin. rewrite <- (F3 q) by done. destruct (decide (q = p)) as [->|Hne].
    + rewrite <- Hat. unfold attr. by rewrite P2.
    + unfold attr. by rewrite P2, Hq.
  - intros v Hv. rewrite R2, Hr, F4 by done. case_decide as Hd.
    + pose proof (page_of_bounds v) as [_ Hb']. rewrite Hd in Hb'.
      rewrite decide_True by page_lia. f_equal. rewrite page_of_mod, Hd. unfold mem_fill.
      destruct (Z.ltb_spec v b).
      * rewrite (proj2 (Z.leb_gt _ _)) by lia. cbn [andb].
        specialize (Hr v Hv). rewrite F4, decide_True in Hr by (done || page_lia). unfold read in Hr.
        rewrite Hd, Hpg, page_of_mod, Hd in Hr. by injection Hr.
      * rewrite (proj2 (Z.leb_le _ _)), (proj2 (Z.ltb_lt _ _)) by page_lia. done.
    + case_decide as Hd2; [|done]. destruct (Z.ltb_spec v b); [done|].
      destruct Hd. apply page_of_unique; [apply Hp|page_lia].
Qed.

(** ** A loadable segment *)

Lemma slot_canonical v : lt_base <= v < lt_base + 2 ^ 39 -> canonical v.
Proof.
  destruct lt_base_ok as ([k Hk] & Hc1 & Hc2). unfold canonical in *. rewrite Hk in *. lia.
Qed.

Lemma slot_nonneg : 0 <= lt_base.
Proof. destruct lt_base_ok as (_ & Hc & _). unfold canonical in Hc. lia. Qed.

Lemma page_of_slot v : lt_base <= v < lt_base + 2 ^ 39 -> slot (page_of v).
Proof.
  intros Hv. destruct (page_of_bounds v) as [Hd Hb]. split; [done|]. split; [|lia].
  destruct lt_base_ok as ([k Hk] & _). destruct Hd as [j Hj]. rewrite Hk, Hj in *. page_lia.
Qed.

Lemma frame_containing_page a : 0 <= a -> frame_containing_address a = page_of a.
Proof.
  intros Ha. symmetry. apply page_of_unique; [by apply frame_containing_aligned|by apply frame_containing_bounds].
Qed.

Lemma page_containing_page a : 0 <= a -> page_containing_address a = page_of a.
Proof. intros. by rewrite page_containing_spec. Qed.

(** Addresses that differ by whole pages. *)
Lemma page_of_shift v d : (PAGE_SIZE | d) -> page_of (v + d) = page_of v + d.
Proof.
  intros Hd. destruct (page_of_bounds v) as [H1 H2]. apply page_of_unique; [by apply Z.divide_add_r|lia].
Qed.

Lemma no_mark_seg ph : no_mark (seg_flags ph).
Proof.
  unfold no_mark, flags_contain, flags_or.
  assert (H : Z.land (seg_flags ph) PT_BIT_9 = 0).
  { unfold seg_flags, flags_or. rewrite PT_BIT_9_bit, PT_PRESENT_bit, PT_NO_EXECUTE_bit, PT_WRITABLE_bit.
    by destruct (is_execute ph), (is_write ph). }
  rewrite Z.land_lor_distr_l, H, (proj1 lt_extra_ok), PT_BIT_9_bit. done.
Qed.

(** A segment whose bytes start at [src] and which is placed at [st]. *)
Record placeable (ph : ProgramHeader) (src st : Z) : Prop := {
  so_file : 0 <= file_size ph <= mem_size ph;
  so_mem : 0 < mem_size ph;
  so_virt : lt_base <= st /\ st + mem_size ph + PAGE_SIZE <= lt_base + 2 ^ 39;
  so_src : 0 <= src /\ 0 < src + file_size ph /\ src + file_size ph < 2 ^ 52
}.

(** One that is loaded: the bytes are in the file, at the same offset in a page. *)
Record segment_ok (ph : ProgramHeader) (src st : Z) : Prop := {
  so_place : placeable ph src st;
  so_align : (PAGE_SIZE | src - st);
  so_bytes : lo <= page_of src /\ page_of src + PAGE_SIZE <= hi /\ page_of (src + file_size ph - 1) + PAGE_SIZE <= hi
}.

Definition seg_pages (ph : ProgramHeader) (st : Z) : nat :=
  Z.to_nat ((page_of (st + mem_size ph - 1) - page_of st) / PAGE_SIZE + 1).

Lemma place_segment_ok elf_ptr ph src st :
  placeable ph src st -> src = elf_ptr + ph_offset ph -> 0 <= elf_ptr -> 0 <= ph_offset ph ->
  place_segment elf_ptr ph st = Done (mkPlace st (st + mem_size ph) (st + file_size ph) (page_of src)
    (page_of (src + file_size ph - 1)) (page_of st) (page_of (st + mem_size ph - 1))).
Proof.
  intros [H1 H2 H3 H4] -> He Ho. pose proof slot_nonneg. unfold PAGE_SIZE in H3. unfold place_segment.
  rewrite phys_addr_add_ok, Done_bind by lia.
  rewrite !virt_addr_add_ok, !Done_bind by (apply slot_canonical || lia; lia).
  rewrite phys_addr_add_ok, Done_bind, phys_addr_sub_ok, Done_bind by lia.
  rewrite virt_addr_sub_ok, Done_bind by (apply slot_canonical || lia; lia).
  by rewrite !frame_containing_page, !page_containing_page by lia.
Qed.

Lemma seg_pages_end ph src st : placeable ph src st ->
  page_of st + PAGE_SIZE * Z.of_nat (seg_pages ph st) = page_of (st + mem_size ph - 1) + PAGE_SIZE.
Proof.
  intros [H1 H2 H3 _]. unfold PAGE_SIZE in H3. unfold seg_pages.
  pose proof (page_of_bounds st) as [[i Hi] Hb1]. pose proof (page_of_bounds (st + mem_size ph - 1)) as [[j Hj] Hb2].
  rewrite Hi, Hj in *. rewrite <- Z.mul_sub_distr_r, Z.div_mul by done. rewrite Z2Nat.id by page_lia. lia.
Qed.

Lemma seg_page_slot ph src st p : placeable ph src st -> (PAGE_SIZE | p) ->
  page_of st <= p < page_of st + PAGE_SIZE * Z.of_nat (seg_pages ph st) -> slot p.
Proof.
  intros Hok. rewrite (seg_pages_end ph src st Hok). destruct Hok as [H1 H2 H3 _]. unfold PAGE_SIZE in H3. intros Hp Hin.
  pose proof (page_of_slot st ltac:(lia)) as [_ Hs1]. pose proof (page_of_slot (st + mem_size ph - 1) ltac:(lia)) as [Hd Hs2].
  split; [done|]. split; [lia|].
  destruct Hp as [i ->], Hd as [j Hj]. rewrite Hj in *. page_lia.
Qed.

(** The pages of a segment as the code enumerates them. *)
Lemma seg_page_range ph src st : placeable ph src st ->
  page_range_inclusive (page_of st) (page_of (st + mem_size ph - 1)) = frame_list (page_of st) (seg_pages ph st).
Proof.
  intros [H1 H2 H3 _]. unfold PAGE_SIZE in H3. pose proof slot_nonneg. pose proof (page_of_slot st ltac:(lia)) as [Hd Hs].
  rewrite page_range_inclusive_spec; [done|lia|done|apply page_of_bounds].
Qed.

Section Segment.
Context (ph : ProgramHeader) (src st : Z) (Hok : segment_ok ph src st).

Definition seg_place : SegmentPlace :=
  mkPlace st (st + mem_size ph) (st + file_size ph) (page_of src) (page_of (src + file_size ph - 1))
    (page_of st) (page_of (st + mem_size ph - 1)).

(** The number of pages with bytes of the file. *)
Definition file_pages : nat := Z.to_nat ((page_of (src + file_size ph - 1) - page_of src) / PAGE_SIZE + 1).

Lemma src_page : page_of src = page_of st + (src - st).
Proof. rewrite <- page_of_shift by apply Hok. f_equal. lia. Qed.

Lemma src_end_page : page_of (src + file_size ph - 1) = page_of (st + file_size ph - 1) + (src - st).
Proof. rewrite <- page_of_shift by apply Hok. f_equal. lia. Qed.

Lemma file_pages_end : page_of st + PAGE_SIZE * Z.of_nat file_pages = page_of (st + file_size ph - 1) + PAGE_SIZE.
Proof.
  destruct Hok as [[H1 H2 H3 H4] H5 _]. unfold PAGE_SIZE in H3. unfold file_pages.
  rewrite src_page, src_end_page.
  pose proof (page_of_bounds st) as [[i Hi] Hb1]. pose proof (page_of_bounds (st + file_size ph - 1)) as [[j Hj] Hb2].
  rewrite Hi, Hj in *. replace (j * PAGE_SIZE + (src - st) - (i * PAGE_SIZE + (src - st))) with ((j - i) * PAGE_SIZE) by lia.
  rewrite Z.div_mul by done. rewrite Z2Nat.id by page_lia. lia.
Qed.

Lemma file_pages_le : (file_pages <= seg_pages ph st)%nat.
Proof.
  destruct Hok as [[H1 H2 H3 _] _ _]. unfold PAGE_SIZE in H3.
  pose proof (page_of_bounds (st + file_size ph - 1)) as [[i Hi] Hb1].
  pose proof (page_of_bounds (st + mem_size ph - 1)) as [[j Hj] Hb2].
  pose proof file_pages_end as E1. pose proof (seg_pages_end ph src st (so_place _ _ _ Hok)) as E2. rewrite Hi, Hj in *. page_lia.
Qed.

Definition seg_free (s : S) : Prop :=
  forall p, (PAGE_SIZE | p) -> page_of st <= p < page_of st + PAGE_SIZE * Z.of_nat (seg_pages ph st) -> lt_page s p = None.

Lemma fill_file_pages s : loading s -> seg_free s -> (4 * file_pages <= length (lt_frames s))%nat ->
  exists s', foldM (map_file_frame seg_place (seg_flags ph)) s
      (frame_range_inclusive (page_of src) (page_of (src + file_size ph - 1))) = Done s' /\
    filled (page_of st) file_pages (4 * file_pages) (stored_flags (seg_flags ph)) (fun v => mem0 (v + (src - st))) s s'.
Proof.
  intros Hl Hfree Hlen. pose proof Hok as [[H1 H2 H3 H4] H5 H6]. unfold PAGE_SIZE in H3. pose proof slot_nonneg as Hb0.
  pose proof file_pages_le as Hle. pose proof file_pages_end as Hend.
  pose proof src_page as Hsrc. pose proof src_end_page as Hsrc'.
  pose proof (page_of_bounds src) as [Hd1 Hb1]. pose proof (page_of_bounds (src + file_size ph - 1)) as [Hd2 Hb2].
  assert (Hpos : 0 <= page_of src) by (destruct Hd1 as [i Hi]; rewrite Hi in *; page_lia).
  rewrite frame_range_inclusive_spec by done.
  fold file_pages. rewrite Hsrc.
  apply (fill_run _ (src - st)); try done.
  - intros p Hp Hin. split; [apply (seg_page_slot ph src st p (so_place _ _ _ Hok)); [done|page_lia]|apply Hfree; [done|page_lia]].
  - apply page_of_bounds.
  - intros s1 p L1 Hp Hin Hn Hlen1. unfold map_file_frame. cbn [seg_place seg_bytes_start_phys_frame seg_start_page].
    destruct Hp as [Hpa Hpb].
    rewrite Hsrc, frame_diff_ok, Done_bind by lia.
    replace (p + (src - st) - (page_of st + (src - st))) with (p - page_of st) by lia.
    pose proof (page_of_bounds st) as [[i Hi] _]. pose proof Hpa as [j Hj].
    assert (Hdiv : page_of st + (p - page_of st) / PAGE_SIZE * PAGE_SIZE = p).
    { rewrite Hi, Hj, <- Z.mul_sub_distr_r, Z.div_mul by done. lia. }
    rewrite page_add_ok, Done_bind, Hdiv.
    2:{ apply slot_canonical. pose proof (page_of_slot st ltac:(lia)) as [_ ?]. lia. }
    2:{ apply Z.div_pos; [lia|done]. }
    2:{ rewrite Hdiv. by apply slot_canonical. }
    destruct (fill_file_page s1 p (p + (src - st)) (seg_flags ph)) as (s2 & E & F2); try done.
    + by apply Z.divide_add_r.
    + lia.
    + assert (Hle2 : p + PAGE_SIZE <= page_of (st + file_size ph - 1) + PAGE_SIZE).
      { pose proof (page_of_bounds (st + file_size ph - 1)) as [[q Hq] _]. rewrite Hq, Hj in *. page_lia. }
      lia.
    + apply no_mark_seg.
    + exists s2. split; [done|]. eapply filled_ext; [done| |exact F2]. intros v _. simpl. f_equal. lia.
Qed.

(** The zeroed part of the last page of the file. *)
Lemma clear_bss_ok s s1 : loading s -> file_size ph < mem_size ph -> (4 <= length (lt_frames s1))%nat ->
  filled (page_of st) file_pages (4 * file_pages) (stored_flags (seg_flags ph)) (fun v => mem0 (v + (src - st))) s s1 ->
  exists s', clear_bss_start (st + file_size ph) s1 = Done s' /\
    filled (page_of st) file_pages (4 * file_pages + 4) (stored_flags (seg_flags ph))
      (fun v => if v <? st + file_size ph then mem0 (v + (src - st)) else 0) s s'.
Proof.
  intros Hl Hbss Hlen Hfill. pose proof Hok as [[H1 H2 H3 H4] H5 _]. unfold PAGE_SIZE in H3. pose proof slot_nonneg as Hb0.
  pose proof file_pages_end as Hend. pose proof file_pages_le as Hle.
  assert (Hmod : Z.land (st + file_size ph) 0xfff = (st + file_size ph) mod PAGE_SIZE).
  { change 0xfff with (Z.ones 12). by rewrite Z.land_ones by done. }
  unfold clear_bss_start. rewrite Hmod.
  pose proof (Z.mod_pos_bound (st + file_size ph) PAGE_SIZE eq_refl) as Hm.
  pose proof (page_of_bounds (st + file_size ph)) as [Hd Hb]. pose proof (page_of_mod (st + file_size ph)) as Hoff.
  pose proof (page_of_bounds (st + file_size ph - 1)) as [Hd1 Hb1].
  destruct (Z.eqb_spec ((st + file_size ph) mod PAGE_SIZE) 0) as [Hz|Hnz]; cbn [negb].
  { exists s1. split; [done|]. eapply filled_ext; [| |exact Hfill]; [lia|]. intros v Hv. cbv beta.
    rewrite (proj2 (Z.ltb_lt _ _)); [done|]. destruct Hd as [i Hi], Hd1 as [j Hj]. rewrite Hi, Hj in *. page_lia. }
  assert (Hp : page_of (st + file_size ph - 1) = page_of (st + file_size ph)).
  { apply page_of_unique; [done|lia]. }
  assert (Hslot : slot (page_of (st + file_size ph))) by (apply page_of_slot; lia). pose proof Hslot as [_ Hsb].
  rewrite virt_addr_sub_ok, Done_bind, page_containing_page, Hp by (apply slot_canonical || lia; lia).
  set (p := page_of (st + file_size ph)) in *.
  assert (Hpst : page_of st <= p).
  { pose proof (page_of_bounds st) as [[i Hi] Hbs]. destruct Hd as [j Hj]. rewrite Hi, Hj in *. page_lia. }
  pose proof (fl_attr _ _ _ _ _ _ _ Hfill p Hslot ltac:(lia)) as Hat. unfold attr in Hat.
  destruct (lt_page s1 p) as [[f fl]|] eqn:Ep; [|done].
  destruct (copy_page_spec s1 p f fl (proj1 (fl_grows _ _ _ _ _ _ _ Hfill)) Hslot Ep Hlen)
    as (g & gl & s2 & k & Hk & -> & L2 & F2 & P2 & B2 & W2 & Q2 & R2).
  rewrite Done_bind. cbn [or_panic]. rewrite Done_bind. eexists. split; [done|].
  eapply (filled_clear _ _ _ _ _ s s1 p g gl _ s2 (st + file_size ph)); try done.
  - rewrite Hend, Hp. lia.
  - split; [done|]. exists k. done.
  - unfold attr. rewrite P2, Ep. simpl. by rewrite W2.
  - rewrite Hoff. done.
Qed.

Lemma fill_bss_pages s : loading s -> file_size ph < mem_size ph ->
  (forall p, (PAGE_SIZE | p) -> page_of st + PAGE_SIZE * Z.of_nat file_pages <= p ->
     p < page_of st + PAGE_SIZE * Z.of_nat (seg_pages ph st) -> lt_page s p = None) ->
  (4 * (seg_pages ph st - file_pages) <= length (lt_frames s))%nat ->
  exists s', foldM (map_bss_page (seg_flags ph)) s
      (page_range_inclusive (page_of st + PAGE_SIZE * Z.of_nat file_pages) (page_of (st + mem_size ph - 1))) = Done s' /\
    filled (page_of st + PAGE_SIZE * Z.of_nat file_pages) (seg_pages ph st - file_pages)
      (4 * (seg_pages ph st - file_pages)) (stored_flags (seg_flags ph)) (fun _ => 0) s s'.
Proof.
  intros Hl Hbss Hfree Hlen. pose proof Hok as [[H1 H2 H3 _] _ _]. unfold PAGE_SIZE in H3. pose proof slot_nonneg as Hb0.
  pose proof file_pages_le as Hle. pose proof (seg_pages_end ph src st (so_place _ _ _ Hok)) as Hend.
  set (a := page_of st + PAGE_SIZE * Z.of_nat file_pages) in *.
  assert (Ha : (PAGE_SIZE | a)) by (apply Z.divide_add_r; [apply page_of_bounds|apply Z.divide_factor_l]).
  pose proof (page_of_slot st ltac:(lia)) as [_ Hs].
  rewrite page_range_inclusive_spec by (try apply page_of_bounds; done || page_lia).
  replace (Z.to_nat _) with (seg_pages ph st - file_pages)%nat.
  2:{ replace (page_of (st + mem_size ph - 1) - a) with ((Z.of_nat (seg_pages ph st) - Z.of_nat file_pages - 1) * PAGE_SIZE).
      - rewrite Z.div_mul by done. lia.
      - subst a. page_lia. }
  destruct (fill_run (map_bss_page (seg_flags ph)) 0 (stored_flags (seg_flags ph)) (fun _ => 0)
    (seg_pages ph st - file_pages) a s) as (s' & E & Hf); try done.
  - intros p Hp Hin. assert (Hin' : page_of st <= p < page_of st + PAGE_SIZE * Z.of_nat (seg_pages ph st)) by (subst a; page_lia).
    split; [by apply (seg_page_slot ph src st p (so_place _ _ _ Hok))|]. apply Hfree; [done|page_lia|page_lia].
  - intros s1 p L1 Hp Hin Hn Hlen1. rewrite Z.add_0_r. apply fill_bss_page; try done. apply no_mark_seg.
  - exists s'. by rewrite Z.add_0_r in E.
Qed.

(** The contents of a segment. *)
Definition seg_byte (v : Z) : Z := if v <? st + file_size ph then mem0 (v + (src - st)) else 0.

Lemma load_segment_ok s : loading s -> seg_free s -> (4 * (seg_pages ph st + 1) <= length (lt_frames s))%nat ->
  exists s' img, load_segment ph seg_place s = Done s' /\
    filled (page_of st) (seg_pages ph st) (4 * (seg_pages ph st + 1)) (stored_flags (seg_flags ph)) img s s' /\
    forall v, v < st + mem_size ph -> img v = seg_byte v.
Proof.
  intros Hl Hfree Hlen. pose proof Hok as [[H1 H2 H3 _] _ _]. unfold PAGE_SIZE in H3. pose proof slot_nonneg as Hb0.
  pose proof file_pages_le as Hle. pose proof file_pages_end as Hfe. pose proof (seg_pages_end ph src st (so_place _ _ _ Hok)) as Hse.
  unfold load_segment. cbn [seg_place seg_bytes_start_phys_frame seg_bytes_end_phys_frame seg_file_end_virt_addr seg_mem_end_virt_addr].
  destruct (fill_file_pages s Hl Hfree ltac:(lia)) as (s1 & -> & F1). rewrite Done_bind.
  destruct (Z.leb_spec (mem_size ph) (file_size ph)) as [Hc|Hc].
  { assert (Heq : file_size ph = mem_size ph) by lia. rewrite Heq in Hfe.
    assert (En : file_pages = seg_pages ph st) by page_lia. rewrite En in *.
    exists s1, (fun v => mem0 (v + (src - st))). split; [done|]. split; [eapply filled_ext; [| |exact F1]; [lia|done]|].
    intros v Hv. unfold seg_byte. by rewrite (proj2 (Z.ltb_lt _ _)) by lia. }
  pose proof (grows_length _ _ _ (fl_grows _ _ _ _ _ _ _ F1)) as Hlen1.
  destruct (clear_bss_ok s s1 Hl Hc ltac:(lia) F1) as (s2 & -> & F2). rewrite Done_bind.
  pose proof (grows_length _ _ _ (fl_grows _ _ _ _ _ _ _ F2)) as Hlen2.
  assert (Hup : align_up (st + file_size ph) PAGE_SIZE = page_of st + PAGE_SIZE * Z.of_nat file_pages).
  { change PAGE_SIZE with (2 ^ 12) at 1. rewrite align_up_spec; [|lia|lia|].
    - change (2 ^ 12) with PAGE_SIZE. rewrite Hfe.
      destruct (page_of_bounds (st + file_size ph - 1)) as [[j Hj] Hb]. rewrite Hj in *.
      assert (- (st + file_size ph) / PAGE_SIZE = - (j + 1)); [|page_lia].
      symmetry. apply (Z.div_unique _ _ _ (- (st + file_size ph) + (j + 1) * PAGE_SIZE)); page_lia.
    - destruct lt_base_ok as (_ & _ & Hc2). unfold canonical in Hc2. lia. }
  rewrite Hup. set (a := page_of st + PAGE_SIZE * Z.of_nat file_pages) in *.
  pose proof (page_of_slot st ltac:(lia)) as [_ Hsb]. pose proof (page_of_bounds (st + mem_size ph - 1)) as [_ Hmb].
  assert (Ha : (PAGE_SIZE | a)) by (apply Z.divide_add_r; [apply page_of_bounds|apply Z.divide_factor_l]).
  assert (Hah : a <= page_of (st + mem_size ph - 1) + PAGE_SIZE) by (subst a; page_lia).
  rewrite virt_addr_new_ok, Done_bind by (apply slot_canonical; subst a; page_lia).
  rewrite virt_addr_sub_ok, Done_bind, !page_containing_page, (page_of_aligned a Ha) by
    (apply slot_canonical || done || (subst a; page_lia); subst a; page_lia).
  destruct (fill_bss_pages s2) as (s3 & E3 & F3); try done.
  - apply (fl_grows _ _ _ _ _ _ _ F2).
  - intros p Hp Hge Hlt. rewrite (fl_out _ _ _ _ _ _ _ F2); [apply Hfree; [done|subst a; page_lia]| |subst a; lia].
    apply (seg_page_slot ph src st p (so_place _ _ _ Hok)); [done|subst a; page_lia].
  - lia.
  - fold a in E3, F3. rewrite E3. exists s3, seg_byte. split; [done|]. split; [|done].
    replace (seg_pages ph st) with (file_pages + (seg_pages ph st - file_pages))%nat at 1 by lia.
    eapply filled_ext; [|done|eapply filled_app; [exact F2|]].
    2:{ apply (filled_ext _ _ (4 * (seg_pages ph st - file_pages)) (4 * (seg_pages ph st - file_pages)) _ (fun _ => 0)); [done| |exact F3]. intros v Hv. unfold seg_byte.
        rewrite (proj2 (Z.ltb_ge _ _)); [done|]. pose proof (page_of_bounds (st + file_size ph - 1)). subst a. page_lia. }
    lia.
Qed.
End Segment.

(** ** Flags *)

(** Clearing a flag other than the mark, or the mark itself. *)
Lemma update_page_ok flag s p f fl : loading s -> slot p -> lt_page s p = Some (f, fl) ->
  flags_or (flags_without fl flag) lt_extra = flags_without fl flag ->
  (flags_contain (flags_without fl flag) PT_BIT_9 = true -> flags_contain fl PT_BIT_9 = true) ->
  exists s', update_page flag s p = Done s' /\ loading s' /\ lt_frames s' = lt_frames s /\
    (forall q, slot q -> lt_page s' q = if decide (q = p) then Some (f, flags_without fl flag) else lt_page s q) /\
    (forall v, slot (page_of v) -> read s' v = read s v).
Proof.
  intros Hl Hp Hpg Hex Hb. unfold update_page. rewrite (lt_translate_spec s p (li_inv s Hl) Hp), Hpg.
  destruct (lt_update_flags_spec s p f fl (flags_without fl flag) (li_inv s Hl) Hp Hpg) as (s' & E & Hf & Hq & Hm & Hi).
  exists s'. split; [done|]. split; [|split; [done|split; [done|]]].
  - apply (loading_map s s' 0 p f (flags_without fl flag)); try done; [|intros x _; by rewrite Hm].
    destruct (li_fresh s Hl _ _ _ Hp Hpg) as [Hfo Hnin]. split; [done|]. split; [by rewrite Hf|]. split; [done|]. split.
    + intros q gl Hqs Hne Hgl. split; [by eapply (li_unique s Hl q p)|].
      destruct (flags_contain (flags_without fl flag) PT_BIT_9) eqn:E1; [|done].
      assert (flags_contain fl PT_BIT_9 = false) by (eapply (li_unique s Hl p q); [done|done|congruence|done..]).
      rewrite Hb in * by done. done.
    + intros E1. eapply (li_owned s Hl); [done..|]. by apply Hb.
  - intros v Hv. unfold read. rewrite Hq by done. case_decide as Hd; [by rewrite Hd, Hpg, Hm|].
    by rewrite Hm.
Qed.

Lemma flags_without_contain fl flag b : flags_contain (flags_without fl flag) b = true -> flags_contain fl b = true.
Proof.
  unfold flags_contain, flags_without. rewrite !Z.eqb_eq. intros H. apply Z.bits_inj'. intros n Hn.
  apply (f_equal (fun z => Z.testbit z n)) in H. rewrite Z.land_spec, Z.ldiff_spec in H. rewrite Z.land_spec.
  destruct (Z.testbit fl n), (Z.testbit flag n), (Z.testbit b n); done.
Qed.

(** Flags that are not among the ones every mapping has can be cleared. *)
Lemma flags_without_extra fl flag : Z.land lt_extra flag = 0 -> flags_or fl lt_extra = fl ->
  flags_or (flags_without fl flag) lt_extra = flags_without fl flag.
Proof.
  unfold flags_or, flags_without. intros Hd He. apply Z.bits_inj'. intros n Hn.
  apply (f_equal (fun z => Z.testbit z n)) in Hd, He. rewrite Z.land_spec, Z.bits_0 in Hd. rewrite Z.lor_spec in He.
  rewrite Z.lor_spec, Z.ldiff_spec. destruct (Z.testbit fl n), (Z.testbit flag n), (Z.testbit lt_extra n); done.
Qed.

(** A run of pages. *)
Lemma update_pages_ok flag n : Z.land lt_extra flag = 0 -> forall a s, loading s -> (PAGE_SIZE | a) ->
  (forall p, (PAGE_SIZE | p) -> a <= p < a + PAGE_SIZE * Z.of_nat n -> slot p /\ is_Some (lt_page s p)) ->
  exists s', update_page_flag (frame_list a n) flag s = Done s' /\ grows 0 s s' /\
    (forall q, slot q -> lt_page s' q =
       if decide (a <= q < a + PAGE_SIZE * Z.of_nat n) then (fun x => (x.1, flags_without x.2 flag)) <$> lt_page s q
       else lt_page s q) /\
    (forall v, slot (page_of v) -> read s' v = read s v).
Proof.
  intros Hflag. unfold update_page_flag. induction n as [|n IH]; intros a s Hl Ha Hpages.
  { exists s. split; [done|]. split; [split; [done|by exists 0%nat]|]. split; [|done].
    intros q Hq. rewrite decide_False by (simpl; page_lia). done. }
  destruct (Hpages a Ha ltac:(page_lia)) as [Hs [[f fl] Hpg]]. cbn [stride foldM].
  destruct (update_page_ok flag s a f fl Hl Hs Hpg) as (s1 & -> & L1 & F1 & P1 & R1).
  { apply flags_without_extra; [done|]. by eapply (li_extra s Hl). }
  { apply flags_without_contain. }
  rewrite Done_bind.
  destruct (IH (a + PAGE_SIZE) s1 L1) as (s2 & -> & G2 & P2 & R2).
  { auto with pages. }
  { intros p Hp Hin. destruct (Hpages p Hp ltac:(page_lia)) as [Hs' Hsome]. split; [done|].
    rewrite P1, decide_False by (done || page_lia). done. }
  exists s2. split; [done|]. split.
  { destruct G2 as [L2 (k & Hk & E)]. split; [done|]. exists k. by rewrite E, F1. }
  split; [|intros v Hv; by rewrite R2, R1].
  intros q Hq. rewrite P2, P1 by done. destruct (decide (q = a)) as [->|Hne].
  - rewrite (decide_False (P := _ <= _ < _)), decide_True by page_lia. by rewrite Hpg.
  - assert (Hiff : a + PAGE_SIZE <= q < a + PAGE_SIZE + PAGE_SIZE * Z.of_nat n <->
      a <= q < a + PAGE_SIZE * Z.of_nat (Datatypes.S n)).
    { destruct Hq as [[i ->] _], Ha as [j ->]. assert (i <> j) by congruence. page_lia. }
    repeat case_decide; try done; tauto.
Qed.

(** ** Writes *)

(** [s'] is [s] with the bytes [buf] at [addr], as far as they lie in the pages
    from [a] to [b]. *)
Record written (addr : Z) (buf : list Z) (a b : Z) (cost : nat) (s s' : S) : Prop := {
  wr_grows : grows cost s s';
  wr_attr q : slot q -> attr s' q = attr s q;
  wr_read v : slot (page_of v) -> read s' v =
    if decide (addr <= v < addr + Z.of_nat (length buf) /\ a <= v < b)
    then buf !! Z.to_nat (v - addr) else read s v
}.

Lemma mem_write_inside dst bytes m x : dst <= x < dst + Z.of_nat (length bytes) ->
  Some (mem_write dst bytes m x) = bytes !! Z.to_nat (x - dst).
Proof.
  intros H. unfold mem_write. rewrite (proj2 (Z.leb_le _ _)), (proj2 (Z.ltb_lt _ _)) by lia. simpl.
  destruct (bytes !! Z.to_nat (x - dst)) eqn:E; [done|]. apply lookup_ge_None in E. lia.
Qed.

Lemma write_page_ok addr buf s p : loading s -> slot p -> is_Some (lt_page s p) ->
  lt_base <= addr -> addr + Z.of_nat (length buf) <= lt_base + 2 ^ 39 -> addr < p + PAGE_SIZE ->
  p < addr + Z.of_nat (length buf) -> (1 <= length buf)%nat -> (4 <= length (lt_frames s))%nat ->
  exists s', write_page addr (addr + Z.of_nat (length buf) - 1) buf s p = Done s' /\
    written addr buf p (p + PAGE_SIZE) 4 s s'.
Proof.
  intros Hl Hp [[f fl] Hpg] Hb Hhi H1 H2 Hbuf Hlen. pose proof slot_nonneg as Hb0. unfold write_page.
  destruct (copy_page_spec s p f fl Hl Hp Hpg Hlen) as (g & gl & s1 & k & Hk & -> & L1 & F1 & P1 & B1 & W1 & Q1 & R1).
  rewrite Done_bind. cbn [or_panic]. rewrite Done_bind. pose proof Hp as [Hpa Hps].
  destruct (li_fresh s1 L1 _ _ _ Hp P1) as [(Hga & Hg0 & Hg52) _].
  assert (Hpe : p + PAGE_SIZE <= lt_base + 2 ^ 39).
  { destruct lt_base_ok as ([i Hi] & _), Hpa as [j Hj]. rewrite Hi, Hj in *. page_lia. }
  change 4095 with (PAGE_SIZE - 1).
  rewrite virt_addr_add_ok, Done_bind by ((apply slot_canonical; page_lia) || page_lia).
  set (e := addr + Z.of_nat (length buf) - 1) in *.
  cbv zeta. set (sc := Z.max addr p). set (ec := Z.min e (p + (PAGE_SIZE - 1))).
  assert (Hsc : p <= sc <= ec /\ ec < p + PAGE_SIZE /\ addr <= sc) by (subst sc ec e; page_lia).
  assert (H64 : lt_base + 2 ^ 39 <= 2 ^ 64).
  { destruct lt_base_ok as (_ & _ & Hc). unfold canonical in Hc. lia. }
  unfold u64_sub, u64_add. rewrite (checked_in 64 (sc - p)), (checked_in 64 (ec - p)), !Done_bind by page_lia.
  rewrite checked_in, Done_bind, checked_in, Done_bind by page_lia.
  rewrite phys_addr_add_ok, Done_bind by page_lia.
  replace (virt_steps_between addr sc) with (Some (sc - addr)).
  2:{ replace sc with (addr + (sc - addr)) at 2 by lia.
      symmetry. apply virt_steps_ok; (apply slot_canonical; page_lia) || page_lia. }
  cbn [or_panic]. rewrite Done_bind.
  rewrite (proj2 (Z.leb_le _ _)) by (subst sc ec e; page_lia). cbn [rassert]. rewrite Done_bind.
  set (bytes := take _ (drop _ buf)).
  assert (Hbl : Z.of_nat (length bytes) = ec - sc + 1).
  { subst bytes. rewrite length_take, length_drop. subst sc ec e. page_lia. }
  destruct (write_owned s1 p g gl (mem_write (g + (sc - p)) bytes (lt_mem s1)) L1 Hp P1 B1) as (L2 & F2 & P2 & R2).
  { intros x Hx. apply mem_write_outside. lia. }
  eexists. split; [done|]. split.
  - split; [done|]. exists k. by rewrite F2.
  - intros q Hq. unfold attr. rewrite P2 by done. destruct (decide (q = p)) as [->|Hne]; [|by rewrite Q1].
    rewrite P1, Hpg. simpl. by rewrite W1.
  - intros v Hv. rewrite R2 by done. pose proof (page_of_bounds v) as [_ Hvb].
    assert (Hvp : page_of v = p <-> p <= v < p + PAGE_SIZE).
    { split; [intros <-; lia|]. by apply page_of_unique. }
    destruct (decide (addr <= v < addr + Z.of_nat (length buf) /\ p <= v < p + PAGE_SIZE)) as [[Hin Hin']|Hout].
    + rewrite decide_True by tauto. rewrite page_of_mod, (proj2 Hvp) by done.
      rewrite mem_write_inside by (subst sc ec e; page_lia). subst bytes.
      rewrite lookup_take_lt, lookup_drop by (subst sc ec e; page_lia). f_equal. subst sc ec e. page_lia.
    + case_decide as Hd; [|by apply R1]. rewrite <- R1 by done. unfold read. rewrite Hd, P1. f_equal.
      rewrite page_of_mod, Hd. apply mem_write_outside. apply Hvp in Hd. subst sc ec e. page_lia.
Qed.

Lemma written_trans addr buf a b c n m s1 s2 s3 : a <= b <= c ->
  written addr buf a b n s1 s2 -> written addr buf b c m s2 s3 -> written addr buf a c (n + m) s1 s3.
Proof.
  intros Hab [W1 W2 W3] [V1 V2 V3]. split.
  - by eapply grows_trans.
  - intros q Hq. by rewrite V2, W2.
  - intros v Hv. rewrite V3, W3 by done. repeat case_decide; done || lia.
Qed.

Lemma attr_mapped s q : is_Some (attr s q) <-> is_Some (lt_page s q).
Proof. unfold attr. apply fmap_is_Some. Qed.

Lemma write_pages_ok addr buf n : lt_base <= addr -> addr + Z.of_nat (length buf) <= lt_base + 2 ^ 39 ->
  (1 <= length buf)%nat -> forall a s, loading s -> (PAGE_SIZE | a) -> addr < a + PAGE_SIZE ->
  (forall p, (PAGE_SIZE | p) -> a <= p < a + PAGE_SIZE * Z.of_nat n -> slot p /\ is_Some (lt_page s p)) ->
  a + PAGE_SIZE * (Z.of_nat n - 1) < addr + Z.of_nat (length buf) -> (4 * n <= length (lt_frames s))%nat ->
  exists s', foldM (write_page addr (addr + Z.of_nat (length buf) - 1) buf) s (frame_list a n) = Done s' /\
    written addr buf a (a + PAGE_SIZE * Z.of_nat n) (4 * n) s s'.
Proof.
  intros Hlo Hhi Hbuf. induction n as [|n IH]; intros a s Hl Ha Hst Hpages Hend Hlen.
  { exists s. split; [done|]. split; [split; [done|by exists 0%nat]|done|].
    intros v Hv. rewrite decide_False by (simpl; page_lia). done. }
  destruct (Hpages a Ha ltac:(page_lia)) as [Hs Hsome]. cbn [stride foldM].
  destruct (write_page_ok addr buf s a) as (s1 & -> & W1); try done; try lia; [page_lia|].
  rewrite Done_bind. pose proof (grows_length _ _ _ (wr_grows _ _ _ _ _ _ _ W1)) as Hlen1.
  destruct (IH (a + PAGE_SIZE) s1) as (s2 & -> & W2).
  - apply (wr_grows _ _ _ _ _ _ _ W1).
  - auto with pages.
  - page_lia.
  - intros p Hp Hin. destruct (Hpages p Hp ltac:(page_lia)) as [Hs' Hsome']. split; [done|].
    apply attr_mapped. rewrite (wr_attr _ _ _ _ _ _ _ W1) by done. by apply attr_mapped.
  - page_lia.
  - lia.
  - exists s2. split; [done|]. replace (4 * Datatypes.S n)%nat with (4 + 4 * n)%nat by lia.
    replace (a + PAGE_SIZE * Z.of_nat (Datatypes.S n)) with (a + PAGE_SIZE + PAGE_SIZE * Z.of_nat n) by lia.
    eapply written_trans; [|exact W1|exact W2]. page_lia.
Qed.

(** The eight bytes of a relocation, which lie in one page or two. *)
Lemma copy_pages_and_write_ok addr buf s : loading s -> lt_base <= addr ->
  addr + Z.of_nat (length buf) <= lt_base + 2 ^ 39 -> (1 <= length buf <= 8)%nat ->
  (forall v, addr <= v < addr + Z.of_nat (length buf) -> is_Some (lt_page s (page_of v))) ->
  (8 <= length (lt_frames s))%nat ->
  exists s', copy_pages_and_write addr buf s = Done s' /\ grows 8 s s' /\
    (forall q, slot q -> attr s' q = attr s q) /\
    (forall v, slot (page_of v) -> read s' v =
       if decide (addr <= v < addr + Z.of_nat (length buf)) then buf !! Z.to_nat (v - addr) else read s v).
Proof.
  intros Hl Hlo Hhi Hbuf Hmap Hlen. pose proof slot_nonneg as Hb0. unfold copy_pages_and_write.
  unfold u64_sub. rewrite checked_in, Done_bind by lia.
  rewrite virt_forward_ok by ((apply slot_canonical; lia) || lia). cbn [or_panic]. rewrite Done_bind.
  rewrite !page_containing_page by lia.
  replace (addr + (Z.of_nat (length buf) - 1)) with (addr + Z.of_nat (length buf) - 1) by lia.
  set (e := addr + Z.of_nat (length buf) - 1) in *.
  pose proof (page_of_bounds addr) as [Ha Hab]. pose proof (page_of_bounds e) as [He Heb].
  assert (Hn : exists n, (0 <= n <= 1) /\ page_of e = page_of addr + n * PAGE_SIZE).
  { destruct Ha as [i Hi], He as [j Hj]. exists (j - i). rewrite Hi, Hj in *. split; [page_lia|lia]. }
  destruct Hn as (n & Hn & En). rewrite En.
  pose proof (page_of_slot addr ltac:(lia)) as [_ Hs1]. pose proof (page_of_slot e ltac:(lia)) as [_ Hs2].
  rewrite page_steps_ok by (done || (apply slot_canonical; lia) || lia).
  destruct (write_pages_ok addr buf (Z.to_nat (n + 1)) Hlo Hhi ltac:(lia) (page_of addr) s Hl Ha) as (s' & E & [W1 W2 W3]).
  - lia.
  - intros p Hp Hin. assert (Hcase : p = page_of addr \/ p = page_of e).
    { destruct Ha as [i Hi], Hp as [j ->]. rewrite En, Hi in *. assert (j = i \/ j = i + 1) by page_lia.
      assert (n = 0 \/ n = 1) as [->| ->] by lia; page_lia. }
    split; [destruct Hcase as [-> | ->]; apply page_of_slot; lia|].
    destruct Hcase as [-> | ->]; apply Hmap; lia.
  - rewrite Z2Nat.id by lia. lia.
  - lia.
  - exists s'. split; [exact E|]. split; [|split; [done|]].
    + destruct W1 as [? (k & Hk & ?)]. split; [done|]. exists k. split; [lia|done].
    + intros v Hv. rewrite W3 by done. rewrite Z2Nat.id by lia. repeat case_decide; done || lia.
Qed.

(** ** The image of a file

    What a program should see: the bytes of the segments in the order of the
    headers, with the relocations applied, and the permissions of the pages. *)

Context (elf_ptr elf_len elf_start off : Z) (place : Z -> outcome Z).
Context (Hplace : forall v, lt_base <= v + off < lt_base + 2 ^ 39 -> place v = Done (v + off)).
Context (Helf : 0 <= elf_ptr /\ lo <= elf_ptr /\ elf_ptr + elf_len <= hi).

Definition seg_start (ph : ProgramHeader) : Z := virtual_addr ph + off.
Definition seg_src (ph : ProgramHeader) : Z := elf_ptr + ph_offset ph.

(** The word at an index of the file, in an entry of the relocation table. *)
Definition rela_word (rela i k : Z) : Z := load64 mem0 (elf_ptr + (rela - elf_start + i * RELA_SIZE) + 8 * k).

Definition image_rela (rela : Z) (img : Z -> option Z) (i : Z) : Z -> option Z := fun v =>
  let o := rela_word rela i 0 + off in
  if decide (o <= v < o + 8) then to_ne_bytes (rela_word rela i 2 + off) !! Z.to_nat (v - o) else img v.

(** The relocation table of a dynamic segment: its address and the number of
    entries, none without a table. *)
Definition rela_table (ph : ProgramHeader) : Z * Z :=
  match get_data ph with
  | Some (Dynamic64 data) =>
      match foldM scan_dynamic (mkRelaInfo None None None) data with
      | Done r => (default 0 (ri_rela r),
                   match ri_rela r with
                   | Some _ => default 0 (ri_size r) / default 1 (ri_ent r)
                   | None => 0
                   end)
      | _ => (0, 0)
      end
  | _ => (0, 0)
  end.

Definition header_type (ph : ProgramHeader) : ShType :=
  if mem_size ph <=? 0 then ShNull else default ShNull (get_type ph).

Definition image_header (img : Z -> option Z) (ph : ProgramHeader) : Z -> option Z :=
  match header_type ph with
  | ShLoad => fun v =>
      if decide (seg_start ph <= v < seg_start ph + mem_size ph)
      then Some (seg_byte ph (seg_src ph) (seg_start ph) v) else img v
  | ShDynamic => let t := rela_table ph in fold_left (image_rela t.1) (seqZ 0 t.2) img
  | _ => img
  end.

Definition image (phs : list ProgramHeader) : Z -> option Z := fold_left image_header phs (fun _ => None).

(** The thread local storage described by the headers, the last one counts. *)
Definition tls_header (tls : option TlsTemplate) (ph : ProgramHeader) : option TlsTemplate :=
  match header_type ph with
  | ShTls => Some (mkTlsTemplate (seg_start ph) (mem_size ph) (file_size ph))
  | _ => tls
  end.

Definition image_tls : list ProgramHeader -> option TlsTemplate := fun phs => fold_left tls_header phs None.

Definition in_segment (ph : ProgramHeader) (q : Z) : Prop :=
  page_of (seg_start ph) <= q < page_of (seg_start ph) + PAGE_SIZE * Z.of_nat (seg_pages ph (seg_start ph)).

#[local] Instance in_segment_dec ph q : Decision (in_segment ph q).
Proof. unfold in_segment. apply _. Defined.

Definition perm_header (perm : Z -> option Z) (ph : ProgramHeader) : Z -> option Z := fun q =>
  match header_type ph with
  | ShLoad => if decide (in_segment ph q) then Some (stored_flags (seg_flags ph)) else perm q
  | ShGnuRelro =>
      if decide (in_segment ph q) then (fun fl => flags_without fl PT_WRITABLE) <$> perm q else perm q
  | _ => perm q
  end.

Definition perms (phs : list ProgramHeader) : Z -> option Z := fold_left perm_header phs (fun _ => None).

(** What the loader needs of a header, given the permissions of the pages
    loaded before. *)
Record rela_ok (perm : Z -> option Z) (rela i : Z) : Prop := {
  ro_info : rela_word rela i 1 = R_X86_64_RELATIVE;
  ro_target : lt_base <= rela_word rela i 0 + off /\ rela_word rela i 0 + off + 8 <= lt_base + 2 ^ 39;
  ro_addend : lt_base <= rela_word rela i 2 + off < lt_base + 2 ^ 39;
  ro_loaded v : rela_word rela i 0 + off <= v < rela_word rela i 0 + off + 8 -> is_Some (perm (page_of v))
}.

Definition dynamic_ok (perm : Z -> option Z) (ph : ProgramHeader) : Prop :=
  exists data r, get_data ph = Some (Dynamic64 data) /\
    foldM scan_dynamic (mkRelaInfo None None None) data = Done r /\
    match ri_rela r with
    | None => True
    | Some rela => exists total, ri_size r = Some total /\ ri_ent r = Some RELA_SIZE /\ 0 <= total /\
        elf_start <= rela < 2 ^ 64 /\ 0 <= elf_start /\ rela - elf_start + total <= elf_len /\ elf_len < 2 ^ 64 /\
        forall i, 0 <= i < total / RELA_SIZE -> rela_ok perm rela i
    end.

Definition header_ok (perm : Z -> option Z) (ph : ProgramHeader) : Prop :=
  0 < mem_size ph ->
  placeable ph (seg_src ph) (seg_start ph) /\ 0 <= ph_offset ph /\
  match default ShNull (get_type ph) with
  | ShLoad => segment_ok ph (seg_src ph) (seg_start ph) /\ forall q, in_segment ph q -> perm q = None
  | ShDynamic => dynamic_ok perm ph
  | ShGnuRelro => forall q, (PAGE_SIZE | q) -> in_segment ph q -> is_Some (perm q)
  | _ => True
  end.

Definition headers_ok (phs : list ProgramHeader) : Prop :=
  forall k ph, phs !! k = Some ph -> header_ok (perms (take k phs)) ph.

(** The frames that are enough for a header. *)
Definition header_cost (ph : ProgramHeader) : nat :=
  match header_type ph with
  | ShLoad => 4 * (seg_pages ph (seg_start ph) + 1)
  | ShDynamic => 8 * Z.to_nat (rela_table ph).2
  | _ => 0
  end.

Definition total_cost (phs : list ProgramHeader) : nat := foldr (fun ph n => header_cost ph + n)%nat 0%nat phs.

(** [s] shows the image and has its permissions. *)
Record shows (phs : list ProgramHeader) (s : S) : Prop := {
  sh_loading : loading s;
  sh_attr q : slot q -> attr s q = perms phs q;
  sh_read v b : image phs v = Some b -> slot (page_of v) /\ read s v = Some b
}.

Definition shown (img : Z -> option Z) (s : S) : Prop :=
  forall v b, img v = Some b -> slot (page_of v) /\ read s v = Some b.

Lemma src_word s a : loading s -> lo <= a -> a + 8 <= hi -> load64 (lt_mem s) a = load64 mem0 a.
Proof. intros Hl H1 H2. apply load64_outside. intros x Hx. rewrite <- Hwas by lia. apply (li_src s Hl). left. lia. Qed.

(** One relocation. *)
Lemma apply_rela_ok perm rela total img i s : loading s -> shown img s -> (forall q, slot q -> attr s q = perm q) ->
  0 <= i < total / RELA_SIZE -> elf_start <= rela < 2 ^ 64 -> 0 <= elf_start -> rela - elf_start + total <= elf_len ->
  elf_len < 2 ^ 64 -> rela_ok perm rela i -> (8 <= length (lt_frames s))%nat ->
  exists s', apply_rela elf_ptr elf_len elf_start place rela s i = Done s' /\ grows 8 s s' /\
    (forall q, slot q -> attr s' q = perm q) /\ shown (image_rela rela img i) s'.
Proof.
  intros Hl Hshow Hat Hi Hrela Hst Hsize H64 [R1 R2 R3 R4] Hlen. unfold RELA_SIZE in *.
  assert (Hidx : i * 24 + 24 <= total).
  { pose proof (Z.mul_div_le total 24 ltac:(lia)). lia. }
  unfold apply_rela, u64_sub, u64_mul, u64_add, RELA_SIZE.
  rewrite (checked_in 64 (rela - elf_start)), (checked_in 64 (i * 24)), !Done_bind by lia.
  rewrite checked_in, Done_bind by lia.
  rewrite (proj2 (Z.ltb_lt _ _)) by lia. cbn [rassert]. rewrite Done_bind.
  set (a := elf_ptr + (rela - elf_start + i * 24)).
  assert (W : forall k, 0 <= k <= 2 -> load64 (lt_mem s) (a + 8 * k) = rela_word rela i k).
  { intros k Hk. unfold rela_word, RELA_SIZE. apply src_word; [done|subst a; lia|subst a; lia]. }
  pose proof (W 0 ltac:(lia)) as W0. pose proof (W 1 ltac:(lia)) as W1. pose proof (W 2 ltac:(lia)) as W2.
  rewrite Z.mul_0_r, Z.add_0_r in W0. change (8 * 1) with 8 in W1. change (8 * 2) with 16 in W2.
  rewrite W0, W1, W2, R1. cbn [Z.eqb negb]. change (R_X86_64_RELATIVE / 2 ^ 32 =? 0) with true.
  change (wrap 32 R_X86_64_RELATIVE =? R_X86_64_RELATIVE) with true. cbn [negb].
  rewrite (Hplace (rela_word rela i 0)), (Hplace (rela_word rela i 2)), !Done_bind by lia.
  destruct (copy_pages_and_write_ok (rela_word rela i 0 + off) (to_ne_bytes (rela_word rela i 2 + off)) s Hl)
    as (s' & -> & G & At & Rd); try (simpl; lia).
  { intros v Hv. apply attr_mapped. rewrite Hat; [by apply R4|]. apply page_of_slot. simpl in Hv. lia. }
  exists s'. split; [done|]. split; [done|]. split; [intros q Hq; by rewrite At, Hat|].
  intros v b Hv. unfold image_rela in Hv. change (Z.of_nat (length (to_ne_bytes _))) with 8 in Rd.
  case_decide as Hd.
  - assert (Hs : slot (page_of v)) by (apply page_of_slot; lia). split; [done|].
    rewrite Rd by done. by rewrite decide_True by lia.
  - destruct (Hshow v b Hv) as [Hs Hr]. split; [done|]. rewrite Rd, decide_False by (done || lia). done.
Qed.

Lemma apply_relas_ok perm rela total n : elf_start <= rela < 2 ^ 64 -> 0 <= elf_start ->
  rela - elf_start + total <= elf_len -> elf_len < 2 ^ 64 -> forall i img s,
  loading s -> shown img s -> (forall q, slot q -> attr s q = perm q) -> 0 <= i ->
  i + Z.of_nat n = total / RELA_SIZE -> (forall j, 0 <= j < total / RELA_SIZE -> rela_ok perm rela j) ->
  (8 * n <= length (lt_frames s))%nat ->
  exists s', foldM (apply_rela elf_ptr elf_len elf_start place rela) s (seqZ i (Z.of_nat n)) = Done s' /\
    grows (8 * n) s s' /\ (forall q, slot q -> attr s' q = perm q) /\
    shown (fold_left (image_rela rela) (seqZ i (Z.of_nat n)) img) s'.
Proof.
  intros H1 H2 H3 H4. induction n as [|n IH]; intros i img s Hl Hshow Hat Hi Hn Hok Hlen.
  { exists s. split; [done|]. split; [split; [done|by exists 0%nat]|]. done. }
  rewrite seqZ_cons by lia. cbn [foldM fold_left].
  destruct (apply_rela_ok perm rela total img i s Hl Hshow Hat ltac:(lia) H1 H2 H3 H4 (Hok i ltac:(lia)) ltac:(lia))
    as (s1 & -> & G1 & A1 & S1).
  rewrite Done_bind. pose proof (grows_length _ _ _ G1) as Hlen1.
  replace (Z.pred (Z.of_nat (Datatypes.S n))) with (Z.of_nat n) by lia.
  destruct (IH (Z.succ i) (image_rela rela img i) s1 (proj1 G1) S1 A1) as (s2 & -> & G2 & A2 & S2); try done; try lia.
  exists s2. split; [done|]. split; [|done].
  replace (8 * Datatypes.S n)%nat with (8 + 8 * n)%nat by lia. by eapply grows_trans.
Qed.

Lemma image_snoc phs ph : image (phs ++ [ph]) = image_header (image phs) ph.
Proof. unfold image. by rewrite fold_left_app. Qed.

Lemma perms_snoc phs ph : perms (phs ++ [ph]) = perm_header (perms phs) ph.
Proof. unfold perms. by rewrite fold_left_app. Qed.

(** A state with the same mappings, frames and memory. *)
Lemma shows_same phs s s' : shows phs s -> lt_inv s' -> lt_frames s' = lt_frames s ->
  (forall p, slot p -> lt_page s' p = lt_page s p) -> lt_mem s' = lt_mem s -> shows phs s'.
Proof.
  intros [H1 H2 H3] Hi Hf Hp Hm. split.
  - apply (loading_ext s s' 0); try done. intros x _. by rewrite Hm.
  - intros q Hq. unfold attr. rewrite Hp by done. by apply H2.
  - intros v b Hv. destruct (H3 v b Hv) as [Hs Hr]. split; [done|]. rewrite <- Hr.
    apply read_same; [by apply Hp|]. intros. by rewrite Hm.
Qed.

Lemma load_case phs ph s : shows phs s -> header_type ph = ShLoad ->
  segment_ok ph (seg_src ph) (seg_start ph) -> (forall q, in_segment ph q -> perms phs q = None) ->
  (header_cost ph <= length (lt_frames s))%nat ->
  exists s', load_segment ph (seg_place ph (seg_src ph) (seg_start ph)) s = Done s' /\
    grows (header_cost ph) s s' /\ shows (phs ++ [ph]) s'.
Proof.
  intros [H1 H2 H3] Ht Hok Hfree Hlen. unfold header_cost in *. rewrite Ht in *.
  destruct (load_segment_ok ph (seg_src ph) (seg_start ph) Hok s H1) as (s' & img & E & [F1 F2 F3 F4] & Himg); [|done|].
  { intros p Hp Hin. pose proof (seg_page_slot _ _ _ p (so_place _ _ _ Hok) Hp Hin) as Hs.
    specialize (H2 p Hs). rewrite Hfree in H2 by done. unfold attr in H2. by destruct (lt_page s p). }
  exists s'. split; [done|]. split; [done|]. split.
  - apply F1.
  - intros q Hq. rewrite perms_snoc. unfold perm_header. rewrite Ht. case_decide as Hd.
    + by apply F3.
    + unfold attr in *. rewrite F2 by done. by apply H2.
  - rewrite image_snoc. unfold image_header. rewrite Ht. intros v b.
    destruct (so_place _ _ _ Hok) as [P1 P2 P3 P4]. unfold PAGE_SIZE in P3.
    pose proof (page_of_bounds (seg_start ph)) as [_ Hb1].
    pose proof (page_of_bounds (seg_start ph + mem_size ph - 1)) as [_ Hb2].
    pose proof (seg_pages_end _ _ _ (so_place _ _ _ Hok)) as Hend. case_decide as Hd.
    + intros [= <-]. assert (Hs : slot (page_of v)) by (apply page_of_slot; lia). split; [done|].
      rewrite F4 by done. rewrite decide_True by lia. by rewrite Himg by lia.
    + intros Hv. destruct (H3 v b Hv) as [Hs Hr]. split; [done|]. rewrite F4 by done. case_decide as Hd2; [|done].
      exfalso. unfold read in Hr. specialize (H2 _ Hs). rewrite Hfree in H2.
      * unfold attr in H2. by destruct (lt_page s (page_of v)).
      * pose proof (page_of_bounds v) as [[j Hj] Hb3]. pose proof (page_of_bounds (seg_start ph)) as [[i Hi] _].
        unfold in_segment. rewrite Hi, Hj in *. page_lia.
Qed.

Lemma relro_case phs ph s : shows phs s -> header_type ph = ShGnuRelro ->
  placeable ph (seg_src ph) (seg_start ph) ->
  (forall q, (PAGE_SIZE | q) -> in_segment ph q -> is_Some (perms phs q)) ->
  exists s', update_page_flag (frame_list (page_of (seg_start ph)) (seg_pages ph (seg_start ph))) PT_WRITABLE s = Done s' /\
    grows 0 s s' /\ shows (phs ++ [ph]) s'.
Proof.
  intros [H1 H2 H3] Ht Hok Hload.
  destruct (update_pages_ok PT_WRITABLE (seg_pages ph (seg_start ph)) (proj2 lt_extra_ok) (page_of (seg_start ph)) s H1)
    as (s' & E & G & P & R).
  { apply page_of_bounds. }
  { intros p Hp Hin. pose proof (seg_page_slot _ _ _ p Hok Hp Hin) as Hs. split; [done|].
    apply attr_mapped. rewrite H2 by done. by apply Hload. }
  exists s'. split; [done|]. split; [done|]. split.
  - apply G.
  - intros q Hq. rewrite perms_snoc. unfold perm_header. rewrite Ht. rewrite <- H2 by done.
    unfold attr. rewrite P by done. unfold in_segment. case_decide as Hd.
    + rewrite (decide_True (P := page_of _ <= _ < _)) by done.
      destruct (lt_page s q) as [[f fl]|]; [|done]. simpl. f_equal. unfold flags_without.
      apply Z.bits_inj'. intros n Hn. rewrite !Z.ldiff_spec.
      by destruct (Z.testbit fl n), (Z.testbit PT_WRITABLE n), (Z.testbit PT_BIT_9 n).
    + by rewrite decide_False.
  - rewrite image_snoc. unfold image_header. rewrite Ht. intros v b Hv. destruct (H3 v b Hv) as [Hs Hr].
    split; [done|]. by rewrite R.
Qed.

Lemma dynamic_case phs ph s : shows phs s -> header_type ph = ShDynamic -> dynamic_ok (perms phs) ph ->
  (header_cost ph <= length (lt_frames s))%nat ->
  exists s', load_dynamic elf_ptr elf_len elf_start place ph s = Done s' /\
    grows (header_cost ph) s s' /\ shows (phs ++ [ph]) s'.
Proof.
  intros [H1 H2 H3] Ht (data & r & Hd & Hr & Hok) Hlen. unfold header_cost, rela_table in *. rewrite Ht, Hd, Hr in *.
  assert (Hsnoc : forall s' t, t = rela_table ph -> loading s' -> (forall q, slot q -> attr s' q = perms phs q) ->
    shown (fold_left (image_rela t.1) (seqZ 0 t.2) (image phs)) s' -> shows (phs ++ [ph]) s').
  { intros s' t -> L' A' S'. split; [done| |].
    - intros q Hq. rewrite perms_snoc. unfold perm_header. rewrite Ht. by apply A'.
    - rewrite image_snoc. unfold image_header. by rewrite Ht. }
  unfold rela_table in Hsnoc. rewrite Hd, Hr in Hsnoc.
  unfold load_dynamic. rewrite Hd. cbn [or_panic]. rewrite Done_bind, Hr, Done_bind. cbn [fst snd] in Hlen |- *.
  destruct (ri_rela r) as [rela|]; cbn [default fst snd] in *.
  2:{ exists s. split; [done|]. split; [split; [done|by exists 0%nat]|]. by apply (Hsnoc s _ eq_refl). }
  destruct Hok as (total & Es & Ee & Ht0 & Hrela & Hst & Hsize & H64 & Hall). rewrite Es, Ee in *. cbn [default or_panic] in *.
  rewrite !Done_bind. rewrite Z.eqb_refl. cbn [negb].
  destruct (apply_relas_ok (perms phs) rela total (Z.to_nat (total / RELA_SIZE)) Hrela Hst Hsize H64 0 (image phs) s H1 H3 H2)
    as (s' & E & G & A & Sh); try done.
  { rewrite Z2Nat.id; [lia|]. apply Z.div_pos; [lia|done]. }
  rewrite Z2Nat.id in E, Sh by (apply Z.div_pos; [lia|done]).
  exists s'. split; [done|]. split; [done|]. by apply (Hsnoc s' _ eq_refl (proj1 G)).
Qed.

(** Headers that leave the image as it is. *)
Lemma shows_other phs ph s : shows phs s ->
  header_type ph <> ShLoad -> header_type ph <> ShDynamic -> header_type ph <> ShGnuRelro -> shows (phs ++ [ph]) s.
Proof.
  intros [H1 H2 H3] T1 T2 T3. split; [done| |].
  - intros q Hq. rewrite perms_snoc. unfold perm_header. destruct (header_type ph); try done; by apply H2.
  - rewrite image_snoc. unfold image_header. by destruct (header_type ph).
Qed.

Lemma load_header_ok phs ph s tls : shows phs s -> header_ok (perms phs) ph ->
  (header_cost ph <= length (lt_frames s))%nat ->
  exists s', load_header elf_ptr elf_len elf_start place (s, tls) ph = Done (s', tls_header tls ph) /\
    grows (header_cost ph) s s' /\ shows (phs ++ [ph]) s'.
Proof.
  intros Hsh Hok Hlen. unfold load_header, tls_header. cbn [fst snd].
  assert (Hty : header_type ph = if mem_size ph <=? 0 then ShNull else default ShNull (get_type ph)) by done.
  destruct (Z.leb_spec (mem_size ph) 0) as [Hz|Hpos].
  { exists s. rewrite Hty. split; [done|]. split; [split; [apply Hsh|exists 0%nat; split; [lia|done]]|].
    apply shows_other; [done|by rewrite Hty..]. }
  destruct (Hok Hpos) as (Hpl & Hoff & Hcase). pose proof Hpl as [P1 P2 P3 P4]. unfold PAGE_SIZE in P3.
  unfold seg_start in P3. rewrite (Hplace (virtual_addr ph)), Done_bind by lia. fold (seg_start ph) in *.
  rewrite (place_segment_ok elf_ptr ph (seg_src ph)), Done_bind by (done || lia).
  fold (seg_place ph (seg_src ph) (seg_start ph)). cbn [seg_start_virt_addr seg_mem_end_virt_addr seg_place].
  destruct (lt_mark_range_spec s (seg_start ph) (seg_start ph + mem_size ph) (li_inv s (sh_loading _ _ Hsh)))
    as (s1 & -> & F1 & G1 & M1 & I1); [lia|lia|].
  rewrite Done_bind. pose proof (shows_same phs s s1 Hsh I1 F1 G1 M1) as Hsh1. rewrite <- F1 in Hlen.
  assert (Hg : forall n s', grows n s1 s' -> grows n s s').
  { intros n s' [L' (k & Hk & E)]. split; [done|]. exists k. by rewrite <- F1. }
  assert (Hskip : header_type ph <> ShLoad -> header_type ph <> ShDynamic -> header_type ph <> ShGnuRelro ->
    grows (header_cost ph) s s1 /\ shows (phs ++ [ph]) s1).
  { intros T1 T2 T3. split; [|by apply shows_other]. apply Hg. split; [apply Hsh1|]. exists 0%nat. split; [lia|done]. }
  rewrite Hty. destruct (default ShNull (get_type ph)) eqn:Et.
  - exists s1. split; [done|]. apply Hskip; by rewrite Hty.
  - destruct Hcase as [Hseg Hfree]. destruct (load_case phs ph s1 Hsh1 Hty Hseg Hfree Hlen) as (s2 & -> & G2 & S2).
    rewrite Done_bind. exists s2. split; [done|]. split; [by apply Hg|done].
  - destruct (dynamic_case phs ph s1 Hsh1 Hty Hcase Hlen) as (s2 & -> & G2 & S2).
    rewrite Done_bind. exists s2. split; [done|]. split; [by apply Hg|done].
  - cbn [seg_start_page seg_end_page seg_place]. rewrite (seg_page_range ph (seg_src ph)) by done.
    destruct (relro_case phs ph s1 Hsh1 Hty Hpl Hcase) as (s2 & -> & G2 & S2).
    rewrite Done_bind. exists s2. split; [done|]. split; [|done]. apply Hg.
    destruct G2 as [L2 (k & Hk & E)]. split; [done|]. exists k. split; [lia|done].
  - exists s1. split; [done|]. apply Hskip; by rewrite Hty.
  - exists s1. split; [done|]. apply Hskip; by rewrite Hty.
Qed.

Lemma load_headers_ok phs : headers_ok phs -> forall n s tls, (n <= length phs)%nat ->
  shows (take (length phs - n) phs) s -> (total_cost (drop (length phs - n) phs) <= length (lt_frames s))%nat ->
  exists s', foldM (load_header elf_ptr elf_len elf_start place) (s, tls) (drop (length phs - n) phs) =
      Done (s', fold_left tls_header (drop (length phs - n) phs) tls) /\
    grows (total_cost (drop (length phs - n) phs)) s s' /\ shows phs s'.
Proof.
  intros Hok. induction n as [|n IH]; intros s tls Hn Hsh Hlen.
  { rewrite Nat.sub_0_r, drop_all, firstn_all in *. exists s. split; [done|]. split; [|done]. apply grows_refl, Hsh. }
  set (k := (length phs - Datatypes.S n)%nat) in *.
  destruct (lookup_lt_is_Some_2 phs k ltac:(lia)) as [ph Hk].
  rewrite (drop_S phs ph k Hk) in *. cbn [foldM fold_left total_cost foldr] in *.
  destruct (load_header_ok (take k phs) ph s tls Hsh (Hok k ph Hk) ltac:(lia)) as (s1 & -> & G1 & S1).
  rewrite Done_bind. pose proof (grows_length _ _ _ G1) as Hlen1.
  rewrite <- take_S_r in S1 by done.
  replace (Datatypes.S k) with (length phs - n)%nat in * by lia.
  destruct (IH s1 (tls_header tls ph)) as (s2 & E2 & G2 & S2); [lia|done|unfold total_cost; lia|].
  exists s2. split; [done|]. split; [|done]. by eapply grows_trans.
Qed.

(** ** The second pass *)

Lemma perms_app_mono l l' q : is_Some (perms l q) -> is_Some (perms (l ++ l') q).
Proof.
  revert l. induction l' as [|ph l' IH]; intros l H; [by rewrite app_nil_r|].
  rewrite cons_middle, app_assoc. apply IH. rewrite perms_snoc. unfold perm_header.
  destruct (header_type ph); try done; case_decide; try done. by apply fmap_is_Some.
Qed.

Lemma perms_load phs k ph q : phs !! k = Some ph -> header_type ph = ShLoad -> in_segment ph q -> is_Some (perms phs q).
Proof.
  intros Hk Ht Hq. rewrite <- (take_drop (Datatypes.S k) phs). apply perms_app_mono.
  rewrite (take_S_r _ _ _ Hk), perms_snoc. unfold perm_header. rewrite Ht, decide_True by done. done.
Qed.

Lemma perms_some phs q : is_Some (perms phs q) -> exists ph, ph ∈ phs /\ header_type ph = ShLoad /\ in_segment ph q.
Proof.
  induction phs as [|ph phs IH] using rev_ind; [by intros [x [=]]|].
  rewrite perms_snoc. unfold perm_header. intros H.
  assert (Hrec : is_Some (perms phs q) -> exists ph', ph' ∈ phs ++ [ph] /\ header_type ph' = ShLoad /\ in_segment ph' q).
  { intros (ph' & Hin & ?)%IH. exists ph'. split; [apply elem_of_app; by left|done]. }
  destruct (header_type ph) eqn:Et; try (by apply Hrec).
  - case_decide as Hd; [|by apply Hrec]. exists ph. split; [apply elem_of_app; right; left|done].
  - case_decide as Hd; [|by apply Hrec]. apply Hrec. by apply fmap_is_Some in H.
Qed.

(** The pages of the headers [l] have lost the mark. *)
Definition unmarked (l : list ProgramHeader) (s : S) : Prop :=
  forall ph q f fl, ph ∈ l -> header_type ph = ShLoad -> in_segment ph q -> slot q ->
    lt_page s q = Some (f, fl) -> flags_without fl PT_BIT_9 = fl.

Lemma flags_without_idem fl b : flags_without (flags_without fl b) b = flags_without fl b.
Proof.
  unfold flags_without. apply Z.bits_inj'. intros n Hn. rewrite !Z.ldiff_spec.
  by destruct (Z.testbit fl n), (Z.testbit b n).
Qed.

Lemma unmark_header_ok phs k ph s : headers_ok phs -> phs !! k = Some ph -> shows phs s -> unmarked (take k phs) s ->
  exists s', unmark_header place s ph = Done s' /\ grows 0 s s' /\ shows phs s' /\
    unmarked (take (Datatypes.S k) phs) s'.
Proof.
  intros Hok Hk Hsh Hun. unfold unmark_header. rewrite (take_S_r _ _ _ Hk).
  assert (Hsame : header_type ph <> ShLoad -> unmarked (take k phs ++ [ph]) s).
  { intros Ht ph' q f fl [Hin|Hin]%elem_of_app Ht'; [by apply (Hun ph')|]. apply list_elem_of_singleton in Hin. by subst. }
  assert (Hty : header_type ph = if mem_size ph <=? 0 then ShNull else default ShNull (get_type ph)) by done.
  destruct (Z.leb_spec (mem_size ph) 0) as [Hz|Hpos]; [exists s; split_and!; [done|apply grows_refl, Hsh|done|by apply Hsame; rewrite Hty]|].
  destruct (default ShNull (get_type ph)) eqn:Et;
    try (exists s; split_and!; [done|apply grows_refl, Hsh|done|by apply Hsame; rewrite Hty]).
  destruct (Hok k ph Hk Hpos) as (Hpl & _ & _). pose proof Hpl as [P1 P2 P3 P4]. unfold PAGE_SIZE in P3.
  unfold seg_start in P3. pose proof slot_nonneg. rewrite (Hplace (virtual_addr ph)), Done_bind by lia.
  fold (seg_start ph) in *.
  rewrite virt_addr_add_ok, Done_bind by ((apply slot_canonical; lia) || lia).
  rewrite virt_addr_sub_ok, Done_bind, !page_containing_page by ((apply slot_canonical; lia) || lia).
  rewrite (seg_page_range ph (seg_src ph)) by done.
  destruct (update_pages_ok PT_BIT_9 (seg_pages ph (seg_start ph)) (proj1 lt_extra_ok) (page_of (seg_start ph)) s
    (sh_loading _ _ Hsh)) as (s' & -> & G & P & R).
  { apply page_of_bounds. }
  { intros p Hp Hin. pose proof (seg_page_slot _ _ _ p Hpl Hp Hin) as Hs. split; [done|].
    apply attr_mapped. rewrite (sh_attr _ _ Hsh) by done. by eapply perms_load. }
  exists s'. split; [done|]. split; [done|]. split.
  - split; [apply G| |].
    + intros q Hq. rewrite <- (sh_attr _ _ Hsh) by done. unfold attr. rewrite P by done. case_decide; [|done].
      destruct (lt_page s q) as [[f fl]|]; [|done]. simpl. by rewrite flags_without_idem.
    + intros v b Hv. destruct (sh_read _ _ Hsh v b Hv) as [Hs Hr]. split; [done|]. by rewrite R.
  - intros ph' q f fl Hin Ht' Hq Hs. rewrite P by done. case_decide as Hd.
    + destruct (lt_page s q) as [[g gl]|]; [|done]. simpl. intros [= <- <-]. apply flags_without_idem.
    + apply elem_of_app in Hin as [Hin|Hin]; [by apply (Hun ph')|]. apply list_elem_of_singleton in Hin. subst. by destruct Hd.
Qed.

Lemma unmark_headers_ok phs : headers_ok phs -> forall n s, (n <= length phs)%nat -> shows phs s ->
  unmarked (take (length phs - n) phs) s ->
  exists s', foldM (unmark_header place) s (drop (length phs - n) phs) = Done s' /\
    grows 0 s s' /\ shows phs s' /\ unmarked phs s'.
Proof.
  intros Hok. induction n as [|n IH]; intros s Hn Hsh Hun.
  { rewrite Nat.sub_0_r, drop_all, firstn_all in *. exists s. split_and!; try done. apply grows_refl, Hsh. }
  set (k := (length phs - Datatypes.S n)%nat) in *.
  destruct (lookup_lt_is_Some_2 phs k ltac:(lia)) as [ph Hk]. rewrite (drop_S phs ph k Hk). cbn [foldM].
  destruct (unmark_header_ok phs k ph s Hok Hk Hsh Hun) as (s1 & -> & G1 & S1 & U1). rewrite Done_bind.
  replace (Datatypes.S k) with (length phs - n)%nat in * by lia.
  destruct (IH s1) as (s2 & E2 & G2 & R2); [lia|done|done|]. exists s2. split; [done|]. split; [|done].
  by apply (grows_trans 0 0 s s1 s2).
Qed.

(** ** Both passes *)

Lemma shows_nil s : loading s -> (forall p, slot p -> lt_page s p = None) -> shows [] s.
Proof. intros Hl He. split; [done| |done]. intros q Hq. unfold attr. by rewrite He. Qed.

(** Loading a file into an empty level-4 entry: every byte of the image is
    visible at its address, and every page of the entry has exactly the
    permissions the headers give it. *)
Lemma load_image_ok phs s : headers_ok phs -> loading s -> (forall p, slot p -> lt_page s p = None) ->
  (total_cost phs <= length (lt_frames s))%nat ->
  exists s1 s2, foldM (load_header elf_ptr elf_len elf_start place) (s, None) phs = Done (s1, image_tls phs) /\
    foldM (unmark_header place) s1 phs = Done s2 /\ grows (total_cost phs) s s2 /\
    (forall v b, image phs v = Some b -> slot (page_of v) /\ read s2 v = Some b) /\
    (forall q, slot q -> snd <$> lt_page s2 q = perms phs q).
Proof.
  intros Hok Hl He Hlen.
  destruct (load_headers_ok phs Hok (length phs) s None) as (s1 & E1 & G1 & S1); rewrite ?Nat.sub_diag; try done.
  { by apply shows_nil. }
  rewrite Nat.sub_diag in E1. exists s1.
  destruct (unmark_headers_ok phs Hok (length phs) s1) as (s2 & E2 & G2 & S2 & U2); rewrite ?Nat.sub_diag; try done.
  { intros ph q f fl Hin. by apply not_elem_of_nil in Hin. }
  rewrite Nat.sub_diag in E2, G1. exists s2. split; [done|]. split; [done|]. split.
  { rewrite <- (Nat.add_0_r (total_cost phs)). by apply (grows_trans _ _ s s1 s2). }
  split; [intros v b Hv; by apply S2|].
  intros q Hq. rewrite <- (sh_attr _ _ S2) by done. unfold attr.
  destruct (lt_page s2 q) as [[f fl]|] eqn:Ep; [|done]. simpl. f_equal. symmetry.
  assert (Hs : is_Some (perms phs q)) by (rewrite <- (sh_attr _ _ S2) by done; unfold attr; by rewrite Ep).
  apply perms_some in Hs as (ph & Hin & Ht & Hseg). by eapply (U2 ph q).
Qed.
End Loading.

(** What is asked of the headers depends on the base and the extra flags of the
    target only. *)
Section SameTarget.
Context {F : PtFlags} {S S' : Type} {L : LoadTarget S} {L' : LoadTarget S'}.
Context (LS : LoadTargetSpec S L) (LS' : LoadTargetSpec S' L').
Context (Hbase : lt_base (LoadTargetSpec := LS') = lt_base (LoadTargetSpec := LS)).
Context (Hextra : lt_extra (LoadTargetSpec := LS') = lt_extra (LoadTargetSpec := LS)).

Lemma perms_same off phs : perms (LS := LS') off phs = perms (LS := LS) off phs.
Proof. unfold perms, perm_header, stored_flags. by rewrite Hextra. Qed.

Lemma headers_ok_same lo hi mem ptr len start off phs :
  headers_ok (LS := LS) lo hi mem ptr len start off phs -> headers_ok (LS := LS') lo hi mem ptr len start off phs.
Proof.
  intros Hok. assert (HP : forall ph src st, placeable (LS := LS) ph src st -> placeable (LS := LS') ph src st).
  { intros ph src st [P1 P2 P3 P4]. split; rewrite ?Hbase; done. }
  intros k ph Hk Hpos. destruct (Hok k ph Hk Hpos) as (P & O & C). rewrite perms_same.
  split; [by apply HP|]. split; [done|]. destruct (default ShNull (get_type ph)); try exact C.
  - destruct C as [[S1 S2 S3] Hq]. split; [split; [by apply HP|done|done]|exact Hq].
  - destruct C as (data & r & G1 & G2 & C). exists data, r. split; [done|]. split; [done|].
    destruct (ri_rela r) as [rela|]; [|done]. destruct C as (total & T1 & T2 & T3 & T4 & T5 & T6 & T7 & Hr).
    exists total. do 7 (split; [done|]). intros i Hi. destruct (Hr i Hi) as [R1 R2 R3 R4].
    split; rewrite ?Hbase; done.
Qed.
End SameTarget.

(** ** An instance *)

Definition x86_step_model : X86Step := {|
  virt_forward_checked a n := Some (a + n);
  virt_steps_between a b := Some (b - a);
  page_steps_inclusive s e := frame_list s (Z.to_nat ((e - s) / PAGE_SIZE + 1))
|}.

Lemma x86_step_model_spec : X86StepSpec x86_step_model.
Proof.
  constructor; intros; simpl; try done.
  - f_equal. lia.
  - do 3 f_equal. replace (s + n * PAGE_SIZE - s) with (n * PAGE_SIZE) by lia. by rewrite Z.div_mul.
Qed.
