(* ===== verification/LoadElf.v ===== *)
(** * Loading the first program

    [kernel/src/mem/load_elf.rs]: [elf_copy_to_addrsp] fills a user address
    space from an ELF file in memory.  The parts it shares with the
    bootloader's loader are in Elf.v; here are the page table operations of
    [UserAddrSpace] as the target of the loader, with their laws. *)

From S2P Require Import Prelude Platform Shared Vdso Paging KPaging Machine UserAddrSpace Elf ElfImage.

Section LoadElf.
Context {X : X86Addr} {V : X86Virt} {VT : X86Step} {F : PtFlags} {T A : Type} {TS : TableStore T}.
Context (frame_alloc : frame_source A).
(** [ElfFile::new] *)
Context (elf_file_new : list Z -> option ElfFile).

(** Lines 95-109: a file page is copied to a new frame. *)
Definition copy_file_page (seg_page original_frame seg_flags : Z) (s : UserAddrSpace * World T A)
  : outcome (UserAddrSpace * World T A) :=
  '(new_frame, w) ← take_kframe frame_alloc s.2;
  let w := set_mem (mem_copy original_frame new_frame PAGE_SIZE (w_mem w)) w in
  '(a, w) ← raw_map_to frame_alloc seg_page new_frame seg_flags s.1 w;
  Done (push_tracked_frame new_frame a, w).

#[export] Instance addrsp_target : LoadTarget (UserAddrSpace * World T A) := {|
  lt_translate s := raw_translate s.1 s.2;
  lt_alloc s := r ← frame_alloc (w_frames s.2); Done (r.1, (s.1, set_frames r.2 s.2));
  lt_map_to page frame flags s := raw_map_to frame_alloc page frame flags s.1 s.2;
  lt_unmap page s := w ← raw_unmap page s.1 s.2; Done (s.1, w);
  lt_update_flags page flags s := w ← raw_update_flags page flags s.1 s.2; Done (s.1, w);
  lt_track frame s := (push_tracked_frame frame s.1, s.2);
  lt_mem s := w_mem s.2;
  lt_set_mem m s := (s.1, set_mem m s.2);
  lt_map_file := copy_file_page;
  lt_mark_range _ _ s := Done s
|}.

(** [elf_copy_to_addrsp] on the slice of [elf_len] bytes at [elf_ptr]: the
    entry point, and the address space. *)
Definition elf_copy_to_addrsp (elf_ptr elf_len : Z) (a : UserAddrSpace) (w : World T A)
  : outcome (Z * UserAddrSpace * World T A) :=
  elf_file ← or_panic (elf_file_new (file_bytes (w_mem w) elf_ptr elf_len));
  _ ← rassert (0 <? elf_len);
  elf_bytes_phys_addr ← phys_addr_new elf_ptr;
  _ ← sanity_checked elf_file;
  '(elf_start_virt_addr, _) ← virt_extent elf_file;
  '(s, _) ← foldM (load_header elf_bytes_phys_addr elf_len elf_start_virt_addr virt_addr_new) ((a, w), None)
    (program_iter elf_file);
  s ← foldM (unmark_header virt_addr_new) s (program_iter elf_file);
  entry ← virt_addr_new (entry_point elf_file);
  Done (entry, s.1, s.2).
End LoadElf.

(** ** The laws of the target *)

Lemma slot_p4 i p : 0 <= i < 512 -> slot_page (p4_base i) p -> p4_of p = i /\ below_p4 p = p - p4_base i.
Proof.
  intros Hi [_ Hp]. unfold p4_of, below_p4.
  set (q := if 256 <=? i then i + 2 ^ 25 - 2 ^ 9 else i).
  assert (Hb : p4_base i = q * 2 ^ 39) by (unfold p4_base, q; destruct (256 <=? i); lia).
  rewrite Hb in *. assert (Hd : p / 2 ^ 39 = q).
  { symmetry. apply (Z.div_unique _ _ _ (p - q * 2 ^ 39)); lia. }
  split.
  - rewrite Hd. unfold q. destruct (Z.leb_spec 256 i).
    + replace (i + 2 ^ 25 - 2 ^ 9) with (i + (2 ^ 16 - 1) * 512) by lia. rewrite Z.mod_add by lia. apply Z.mod_small. lia.
    + apply Z.mod_small. lia.
  - rewrite Z.mod_eq, Hd by lia. lia.
Qed.

(** Level-4 entries and level-3 tables that are to stay as they are, and
    what is known of the free frames. *)
Record Fixed : Type := mkFixed {
  fx_entries : Z -> option (option Z);
  fx_tables : Z -> option (gmap Z (Z * Z) * gmap Z (Z * Z));
  fx_frames : Z -> Prop
}.
Definition nothing_fixed : Fixed := mkFixed (fun _ => None) (fun _ => None) (fun _ => True).

Section Target.
Context {F : PtFlags} {FS : PtFlagsSpec F} {T A : Type} {TS : TableStore T} {TSS : TableStoreSpec T TS}.
Context (frame_alloc : frame_source A) {AS : FrameSourceSpec frame_alloc}.
(** The level-4 table and the entry that is filled. *)
Context (root slot : Z) (Hslot : 0 <= slot < 512) (fixed : Fixed).

Definition slot_lookup (s : UserAddrSpace * World T A) (p : Z) : option (Z * Z) :=
  t3 ← ts_p4 (w_tables s.2) root slot; ts_pages (w_tables s.2) t3 !! (p - p4_base slot).

Abbreviation target := (addrsp_target frame_alloc).

Abbreviation in_slot := (slot_page (p4_base slot)).

Record slot_inv (s : UserAddrSpace * World T A) : Prop := {
  si_root : as_root s.1 = root;
  si_frames : fs_inv (w_frames s.2);
  si_bounded : Forall frame_ok (fs_frames (w_frames s.2));
  si_gibs t3 : ts_p4 (w_tables s.2) root slot = Some t3 -> ts_gibs (w_tables s.2) t3 = ∅;
  si_entry i e : fx_entries fixed i = Some e -> i <> slot -> ts_p4 (w_tables s.2) root i = e;
  si_table t x : fx_tables fixed t = Some x -> (t ∉ fs_frames (w_frames s.2)) /\
    ts_p4 (w_tables s.2) root slot <> Some t /\
    ts_pages (w_tables s.2) t = x.1 /\ ts_gibs (w_tables s.2) t = x.2;
  si_own : Forall (fx_frames fixed) (fs_frames (w_frames s.2));
  si_mapped p f fl : in_slot p -> slot_lookup s p = Some (f, fl) -> fx_frames fixed f
}.

(** A change of the tables within the entry, with new tables in [fr]. *)
Record confined (fr : list Z) (t t' : T) : Prop := {
  cf_p4 i : i <> slot -> ts_p4 t' root i = ts_p4 t root i;
  cf_slot : ts_p4 t' root slot = ts_p4 t root slot \/ exists f, f ∈ fr /\ ts_p4 t' root slot = Some f;
  cf_tables t3 : t3 ∉ fr -> ts_p4 t root slot <> Some t3 ->
    ts_pages t' t3 = ts_pages t t3 /\ ts_gibs t' t3 = ts_gibs t t3
}.

Lemma confined_within fr t t' t3 : ts_p4 t root slot = Some t3 -> (forall r i, ts_p4 t' r i = ts_p4 t r i) ->
  (forall s, s <> t3 -> ts_pages t' s = ts_pages t s) -> (forall s, ts_gibs t' s = ts_gibs t s) -> confined fr t t'.
Proof. intros H1 H2 H3 H4. split; [done|by left|]. intros s _ Hs. split; [apply H3; congruence|done]. Qed.

Lemma slot_sub p q : in_slot p -> in_slot q -> q <> p -> q - p4_base slot <> p - p4_base slot.
Proof. lia. Qed.

(** A state that differs in the tables and in the allocator. *)
Lemma slot_inv_tables s w' a' t' k : slot_inv s -> as_root a' = root ->
  w_tables w' = t' -> fs_frames (w_frames w') = drop k (fs_frames (w_frames s.2)) -> fs_inv (w_frames w') ->
  (forall t3, ts_p4 t' root slot = Some t3 -> ts_gibs t' t3 = ∅) ->
  confined (fs_frames (w_frames s.2)) (w_tables s.2) t' ->
  (forall p f fl, in_slot p -> slot_lookup (a', w') p = Some (f, fl) -> slot_lookup s p <> Some (f, fl) ->
     fx_frames fixed f \/ exists gl, slot_lookup s p = Some (f, gl)) -> slot_inv (a', w').
Proof.
  intros [H1 H2 H3 H4 H5 H6 H7 H8] Hr Ht Hf Hi Hg [C1 C2 C3] Ho. split; cbn [fst snd]; rewrite ?Ht; try done.
  - rewrite Hf. by apply Forall_drop.
  - intros i e He Hne. rewrite C1 by done. by apply H5.
  - intros t x Hx. destruct (H6 t x Hx) as (K1 & K2 & K3 & K4). rewrite Hf. split; [by intros ?%subseteq_drop|].
    destruct (C3 t K1 K2) as [-> ->]. split; [|done]. destruct C2 as [->|(f & Hin & ->)]; [done|]. by intros [= ->].
  - rewrite Hf. by apply Forall_drop.
  - intros p f fl Hp Hl. destruct (decide (slot_lookup s p = Some (f, fl))) as [Hd|Hd]; [by eapply H8|].
    destruct (Ho p f fl Hp Hl Hd) as [?|[gl Hgl]]; [done|]. by eapply H8.
Qed.

(** A page mapped to a frame of the free ones, or with other flags. *)
Lemma mapped_own s s' p f fl : slot_inv s -> fx_frames fixed f \/ (exists gl, slot_lookup s p = Some (f, gl)) ->
  (forall q, in_slot q -> slot_lookup s' q = if decide (q = p) then Some (f, fl) else slot_lookup s q) ->
  forall q g gl, in_slot q -> slot_lookup s' q = Some (g, gl) -> slot_lookup s q <> Some (g, gl) ->
  fx_frames fixed g \/ exists hl, slot_lookup s q = Some (g, hl).
Proof.
  intros Hi Ho Hl q g gl Hq. rewrite Hl by done. case_decide as Hd; [|done]. subst. by intros [= <- <-].
Qed.

Lemma target_map_to s p f fl : slot_inv s -> in_slot p -> (PAGE_SIZE | f) -> fx_frames fixed f -> slot_lookup s p = None ->
  (3 <= length (fs_frames (w_frames s.2)))%nat ->
  exists s' k, (k <= 3)%nat /\ lt_map_to (LoadTarget := target) p f fl s = Done s' /\
    fs_frames (w_frames s'.2) = drop k (fs_frames (w_frames s.2)) /\
    (forall q, in_slot q -> slot_lookup s' q =
       if decide (q = p) then Some (f, flags_or fl PT_USER_ACCESSIBLE) else slot_lookup s q) /\
    w_mem s'.2 = w_mem s.2 /\ slot_inv s'.
Proof.
  intros Hinv Hp Hf Ho Hn Hlen. destruct (slot_p4 slot p Hslot Hp) as [P1 P2].
  destruct s as [a w]. pose proof (si_root _ Hinv) as H1. pose proof (si_frames _ Hinv) as H2.
  pose proof (si_gibs _ Hinv) as H4. unfold slot_lookup in Hn. cbn [fst snd] in *.
  cbn [lt_map_to addrsp_target]. unfold raw_map_to. cbn [fst snd].
  destruct (ts_p4 (w_tables w) root slot) as [t3|] eqn:E3; cbn [mbind option_bind] in Hn.
  - destruct (as_map_to_present p f (flags_or fl PT_USER_ACCESSIBLE) a w t3) as (k & T' & a' & -> & Hk & K1 & K2 & K3 & K4 & K5);
      rewrite ?H1, ?P1, ?P2; try done; try lia; [apply Hp|by rewrite H4|].
    set (s1 := set_pte_frames _ a). set (w1 := set_tables T' _).
    assert (Hlk : forall q, in_slot q -> slot_lookup (s1, w1) q =
      if decide (q = p) then Some (f, flags_or fl PT_USER_ACCESSIBLE) else slot_lookup (a, w) q).
    { intros q Hq. unfold slot_lookup. cbn [snd w1 w_tables set_tables]. rewrite K1, E3. cbn [mbind option_bind].
      rewrite K2, decide_True, P2 by done.
      case_decide as Hd; [subst; apply lookup_insert_eq|]. apply lookup_insert_ne. lia. }
    exists (s1, w1), k. split; [lia|]. split; [done|]. split; [done|]. split; [done|]. split; [done|].
    eapply (slot_inv_tables (a, w) _ _ T' k); try done.
    + intros t. rewrite K1, E3, K3. intros [= <-]. by apply H4.
    + apply (confined_within _ _ _ t3); try done. intros t Ht. by rewrite K2, decide_False.
    + apply (mapped_own _ _ p f (flags_or fl PT_USER_ACCESSIBLE)); auto.
  - destruct (fs_frames (w_frames w)) as [|t l] eqn:El; [simpl in Hlen; lia|]. simpl in Hlen.
    destruct (as_map_to_absent p f (flags_or fl PT_USER_ACCESSIBLE) a w t l) as (k & T' & a' & -> & Hk & K1 & K2 & K3 & K4 & K5);
      rewrite ?H1, ?P1, ?P2; try done; try lia; [apply Hp|].
    rewrite H1, P1 in K1. set (s1 := set_pte_frames _ a). set (w1 := set_tables T' _).
    assert (Hlk : forall q, in_slot q -> slot_lookup (s1, w1) q =
      if decide (q = p) then Some (f, flags_or fl PT_USER_ACCESSIBLE) else slot_lookup (a, w) q).
    { intros q Hq. unfold slot_lookup. cbn [snd w1 w_tables set_tables]. rewrite K1, E3, decide_True by done.
      cbn [mbind option_bind]. rewrite K2, decide_True, P2 by done.
      case_decide as Hd; [subst; apply lookup_singleton_eq|]. apply lookup_singleton_ne. lia. }
    exists (s1, w1), k. split; [lia|]. split; [done|]. split; [done|]. split; [done|]. split; [done|].
    eapply (slot_inv_tables (a, w) _ _ T' k); try done; cbn [snd]; rewrite ?El.
    + done.
    + intros t'. rewrite K1, decide_True by done. intros [= <-]. by rewrite K3, decide_True.
    + split.
      * intros i Hi. rewrite K1, decide_False by tauto. done.
      * right. exists t. rewrite K1, decide_True by done. split; [left|done].
      * intros t' [Hne _]%not_elem_of_cons _. by rewrite K2, K3, !decide_False.
    + apply (mapped_own _ _ p f (flags_or fl PT_USER_ACCESSIBLE)); auto.
Qed.

Lemma target_unmap s p x : slot_inv s -> in_slot p -> slot_lookup s p = Some x ->
  exists s', lt_unmap (LoadTarget := target) p s = Done s' /\ fs_frames (w_frames s'.2) = fs_frames (w_frames s.2) /\
    (forall q, in_slot q -> slot_lookup s' q = if decide (q = p) then None else slot_lookup s q) /\
    w_mem s'.2 = w_mem s.2 /\ slot_inv s'.
Proof.
  intros Hinv Hp Hx. destruct (slot_p4 slot p Hslot Hp) as [P1 P2].
  destruct s as [a w], x as [f fl]. pose proof (si_root _ Hinv) as H1. pose proof (si_gibs _ Hinv) as H4.
  unfold slot_lookup in Hx. cbn [fst snd] in *.
  destruct (ts_p4 (w_tables w) root slot) as [t3|] eqn:E3; cbn [mbind option_bind] in Hx; [|done].
  destruct (ts_unmap_spec (w_tables w) (as_root a) p t3 f fl) as (t' & E & K1 & K2 & K3).
  { by rewrite H1, P1. } { by rewrite H4. } { by rewrite P2. }
  cbn [lt_unmap addrsp_target]. unfold raw_unmap. cbn [fst snd]. rewrite E. cbn [or_panic fst snd]. rewrite Done_bind.
  set (w1 := set_tables t' w).
  assert (Hlk : forall q, in_slot q -> slot_lookup (a, w1) q = if decide (q = p) then None else slot_lookup (a, w) q).
  { intros q Hq. unfold slot_lookup. cbn [snd w1 w_tables set_tables]. rewrite K1, E3. cbn [mbind option_bind].
    rewrite K2, decide_True, P2 by done.
    case_decide as Hd; [subst; apply lookup_delete_eq|]. apply lookup_delete_ne. lia. }
  exists (a, w1). split; [done|]. split; [done|]. split; [done|]. split; [done|].
  eapply (slot_inv_tables (a, w) _ _ t' 0); try done; [by apply (si_frames _ Hinv)|..].
  - intros t. rewrite K1, E3, K3. intros [= <-]. by apply H4.
  - apply (confined_within _ _ _ t3); try done. intros t Ht. by rewrite K2, decide_False.
  - intros q g gl Hq. rewrite Hlk by done. by case_decide.
Qed.

Lemma target_update_flags s p f fl fl' : slot_inv s -> in_slot p -> slot_lookup s p = Some (f, fl) ->
  exists s', lt_update_flags (LoadTarget := target) p fl' s = Done s' /\ fs_frames (w_frames s'.2) = fs_frames (w_frames s.2) /\
    (forall q, in_slot q -> slot_lookup s' q = if decide (q = p) then Some (f, fl') else slot_lookup s q) /\
    w_mem s'.2 = w_mem s.2 /\ slot_inv s'.
Proof.
  intros Hinv Hp Hx. destruct (slot_p4 slot p Hslot Hp) as [P1 P2].
  destruct s as [a w]. pose proof (si_root _ Hinv) as H1. pose proof (si_gibs _ Hinv) as H4.
  pose proof Hx as Hx'. unfold slot_lookup in Hx. cbn [fst snd] in *.
  destruct (ts_p4 (w_tables w) root slot) as [t3|] eqn:E3; cbn [mbind option_bind] in Hx; [|done].
  destruct (ts_update_flags_spec (w_tables w) (as_root a) p t3 f fl fl') as (t' & E & K1 & K2 & K3).
  { by rewrite H1, P1. } { by rewrite H4. } { by rewrite P2. }
  cbn [lt_update_flags addrsp_target]. unfold raw_update_flags. cbn [fst snd]. rewrite E. cbn [rassert fst snd]. rewrite Done_bind.
  set (w1 := set_tables t' w).
  assert (Hlk : forall q, in_slot q -> slot_lookup (a, w1) q = if decide (q = p) then Some (f, fl') else slot_lookup (a, w) q).
  { intros q Hq. unfold slot_lookup. cbn [snd w1 w_tables set_tables]. rewrite K1, E3. cbn [mbind option_bind].
    rewrite K2, decide_True, P2 by done.
    case_decide as Hd; [subst; apply lookup_insert_eq|]. apply lookup_insert_ne. lia. }
  exists (a, w1). split; [done|]. split; [done|]. split; [done|]. split; [done|].
  eapply (slot_inv_tables (a, w) _ _ t' 0); try done; [by apply (si_frames _ Hinv)|..].
  - intros t. rewrite K1, E3, K3. intros [= <-]. by apply H4.
  - apply (confined_within _ _ _ t3); try done. intros t Ht. by rewrite K2, decide_False.
  - apply (mapped_own _ _ p f fl'); eauto.
Qed.

Lemma target_translate s p : slot_inv s -> in_slot p ->
  lt_translate (LoadTarget := target) s p = match slot_lookup s p with
                     | Some (f, fl) => Mapped (Frame4KiB f) 0 fl
                     | None => NotMapped
                     end.
Proof.
  intros [H1 H2 H3 H4 _ _ _ _] Hp. destruct (slot_p4 slot p Hslot Hp) as [P1 P2]. destruct s as [a w]. cbn [fst snd] in *.
  cbn [lt_translate addrsp_target]. unfold raw_translate, slot_lookup. cbn [fst snd].
  rewrite <- (Z.add_0_r p) at 1. rewrite ts_translate_spec by (apply Hp || (unfold PAGE_SIZE; lia)).
  rewrite H1, P1. destruct (ts_p4 (w_tables w) root slot) as [t3|] eqn:E3; [|done]. cbn [mbind option_bind].
  by rewrite (H4 t3 eq_refl), lookup_empty, P2.
Qed.

Lemma target_alloc s : slot_inv s -> fs_frames (w_frames s.2) <> [] -> exists s', lt_alloc (LoadTarget := target) s = Done (head (fs_frames (w_frames s.2)), s') /\
  fs_frames (w_frames s'.2) = tail (fs_frames (w_frames s.2)) /\
  (forall p, in_slot p -> slot_lookup s' p = slot_lookup s p) /\ w_mem s'.2 = w_mem s.2 /\ slot_inv s'.
Proof.
  intros Hinv Hne. pose proof Hinv as [H1 H2 H3 H4 _ _ _ _]. destruct s as [a w]. cbn [fst snd] in *.
  destruct (fs_alloc (w_frames w) H2 Hne) as (a' & E & Hf & Hi). cbn [lt_alloc addrsp_target]. cbn [fst snd]. rewrite E, Done_bind.
  eexists. split; [done|]. split; [done|]. split; [done|]. split; [done|].
  eapply (slot_inv_tables (a, w) _ _ (w_tables w) 1); try done. split; [done|by left|done].
Qed.

Lemma target_map_file s p orig fl : slot_inv s -> in_slot p -> (PAGE_SIZE | orig) -> slot_lookup s p = None ->
  (4 <= length (fs_frames (w_frames s.2)))%nat ->
  exists s' f k, (k <= 4)%nat /\ lt_map_file (LoadTarget := target) p orig fl s = Done s' /\
    fs_frames (w_frames s'.2) = drop k (fs_frames (w_frames s.2)) /\
    (forall q, in_slot q -> slot_lookup s' q =
       if decide (q = p) then Some (f, flags_or fl PT_USER_ACCESSIBLE) else slot_lookup s q) /\
    (f = orig /\ w_mem s'.2 = w_mem s.2 \/
     f ∈ take k (fs_frames (w_frames s.2)) /\ w_mem s'.2 = mem_copy orig f PAGE_SIZE (w_mem s.2)) /\ slot_inv s'.
Proof.
  intros Hinv Hp Ha Hn Hlen. destruct (target_alloc s Hinv) as (s1 & E1 & F1 & P1 & M1 & I1); [by destruct (fs_frames (w_frames s.2)); simpl in Hlen; [lia|]|].
  cbn [lt_map_file addrsp_target]. unfold copy_file_page, take_kframe. cbn [lt_alloc addrsp_target] in E1.
  destruct (fs_frames (w_frames s.2)) as [|g l] eqn:El; [simpl in Hlen; lia|]. simpl in Hlen, F1. cbn [head] in E1.
  destruct (frame_alloc (w_frames s.2)) as [[o a']| |] eqn:Ef; cbn [mbind outcome_bind] in E1; try done.
  cbn [fst snd] in E1. injection E1 as -> <-. cbn [fst snd] in *.
  cbn [mbind outcome_bind or_panic fst snd].
  set (s2 := (s.1, set_mem (mem_copy orig g PAGE_SIZE (w_mem (set_frames a' s.2))) (set_frames a' s.2))).
  assert (I2 : slot_inv s2) by (by destruct I1).
  assert (Hga : (PAGE_SIZE | g)).
  { pose proof (si_bounded s Hinv) as Hb. rewrite El in Hb. by apply Forall_cons in Hb as [[? _] _]. }
  assert (Hgo : fx_frames fixed g).
  { pose proof (si_own s Hinv) as Hb. rewrite El in Hb. by apply Forall_cons in Hb as [? _]. }
  destruct (target_map_to s2 p g fl I2 Hp Hga Hgo) as (s3 & k & Hk & E3 & F3 & P3 & M3 & I3).
  { rewrite <- Hn. by apply P1. }
  { cbn [snd s2 w_frames set_mem]. cbn [w_frames set_frames] in F1 |- *. rewrite F1. lia. }
  cbn [lt_map_to addrsp_target s2 fst snd] in E3. rewrite E3. destruct s3 as [a3 w3]. cbn [mbind outcome_bind fst snd] in *.
  eexists _, g, (Datatypes.S k). split; [lia|]. split; [done|]. cbn [snd].
  split; [|split; [|split]].
  - rewrite F3. cbn [snd s2 w_frames set_mem]. cbn [w_frames set_frames] in F1 |- *. by rewrite F1.
  - intros q Hq. change (slot_lookup (push_tracked_frame g a3, w3) q) with (slot_lookup (a3, w3) q).
    rewrite P3 by done. case_decide; [done|]. by apply P1.
  - right. split; [left|]. rewrite M3. done.
  - by destruct I3.
Qed.

#[export] Instance addrsp_target_spec : LoadTargetSpec (UserAddrSpace * World T A) target.
Proof.
  refine {| lt_base := p4_base slot; lt_extra := PT_USER_ACCESSIBLE; lt_inv := slot_inv; lt_page := slot_lookup;
    lt_frames s := fs_frames (w_frames s.2); lt_own := fx_frames fixed |}.
  - by apply p4_base_ok.
  - rewrite PT_USER_ACCESSIBLE_bit, PT_BIT_9_bit, PT_WRITABLE_bit. done.
  - by intros s [].
  - intros s [H1 H2 H3 H4 _ _ _ _]. split; [done|]. by apply fs_increasing.
  - apply target_translate.
  - apply target_alloc.
  - apply target_map_to.
  - apply target_unmap.
  - apply target_update_flags.
  - intros [a w] f [H1 H2 H3 H4 H5 H6 H7 H8]. split; [done|]. split; [done|]. split; [done|]. done.
  - intros [a w] m [H1 H2 H3 H4 H5 H6 H7 H8]. split; [done|]. split; [done|]. split; [done|]. done.
  - apply target_map_file.
  - intros s lo hi Hi _ _. exists s. done.
Defined.
End Target.

(** ** The loaded program *)

(** The byte a program of the address space reads at an address. *)
Definition user_byte {T A} {TS : TableStore T} (a : UserAddrSpace) (w : World T A) (v : Z) : option Z :=
  match raw_translate a w v with
  | Mapped (Frame4KiB f) o _ => Some (w_mem w (f + o))
  | _ => None
  end.

(** The flags of the page at an address. *)
Definition user_flags_at {T A} {TS : TableStore T} (a : UserAddrSpace) (w : World T A) (v : Z) : option Z :=
  match raw_translate a w v with
  | Mapped (Frame4KiB _) _ fl => Some fl
  | _ => None
  end.

Section Program.
Context {X : X86Addr} {XS : X86AddrSpec X} {V : X86Virt} {VS : X86VirtSpec V} {VT : X86Step} {VTS : X86StepSpec VT}.
Context {F : PtFlags} {FS : PtFlagsSpec F} {T A : Type} {TS : TableStore T} {TSS : TableStoreSpec T TS}.
Context (frame_alloc : frame_source A) {AS : FrameSourceSpec frame_alloc}.
Context (elf_file_new : list Z -> option ElfFile).
(** The level-4 table and the entry in which the program lies. *)
Context (root slot : Z) (Hslot : 0 <= slot < 512).

Abbreviation spec := (addrsp_target_spec frame_alloc root slot Hslot nothing_fixed).

(** A file that can be loaded from the slice of [len] bytes at [ptr]: it
    passes the checks of the parser, its segments and relocations lie in the
    entry, and the slice holds the bytes they need. *)
Record loadable (elf : ElfFile) (ptr len start : Z) (mem : Z -> Z) : Prop := {
  lb_parsed : elf_file_new (file_bytes mem ptr len) = Some elf;
  lb_slice : 0 < len /\ 0 <= ptr /\ ptr + len + PAGE_SIZE <= 2 ^ 52;
  lb_checked : sanity_checked elf = Done tt;
  lb_extent : exists size, virt_extent elf = Done (start, size);
  lb_headers : headers_ok (LS := spec) (slice_lo ptr) (slice_hi ptr len) mem ptr len start 0 (program_iter elf);
  lb_entry : canonical (entry_point elf)
}.

(** An address space whose entry is empty, with enough frames, away from the
    slice. *)
Record room_for (elf : ElfFile) (ptr len : Z) (a : UserAddrSpace) (w : World T A) : Prop := {
  rf_root : as_root a = root;
  rf_empty : ts_p4 (w_tables w) root slot = None;
  rf_frames : fs_inv (w_frames w) /\ Forall frame_ok (fs_frames (w_frames w));
  rf_apart : Forall (fun f => f + PAGE_SIZE <= slice_lo ptr \/ slice_hi ptr len <= f) (fs_frames (w_frames w));
  rf_enough : (total_cost 0 (program_iter elf) <= length (fs_frames (w_frames w)))%nat
}.

Lemma slot_translate fixed s v : slot_inv frame_alloc root slot fixed s -> slot_page (p4_base slot) (page_of v) ->
  raw_translate s.1 s.2 v = match slot_lookup root slot s (page_of v) with
                            | Some (f, fl) => Mapped (Frame4KiB f) (v mod PAGE_SIZE) fl
                            | None => NotMapped
                            end.
Proof.
  intros [H1 H2 H3 H4 _ _ _ _] Hp. destruct (slot_p4 slot _ Hslot Hp) as [P1 P2]. destruct s as [a w]. cbn [fst snd] in *.
  unfold raw_translate, slot_lookup. cbn [fst snd].
  replace v with (page_of v + v mod PAGE_SIZE) at 1 by (unfold page_of; lia).
  rewrite ts_translate_spec by (apply Hp || (by apply Z.mod_pos_bound)).
  rewrite H1, P1. destruct (ts_p4 (w_tables w) root slot) as [t3|] eqn:E3; [|done]. cbn [mbind option_bind].
  by rewrite (H4 t3 eq_refl), lookup_empty, P2.
Qed.

(** Loading with what it leaves alone: addresses away from the file's slice
    and from the free frames keep their bytes, the entries and tables of
    [fixed] stay, and the frames that are left are a tail of the free ones.  The
    file's bytes are those of [mem]. *)
Lemma elf_copy_ok fixed (kept : Z -> Prop) mem elf ptr len start a w :
  loadable elf ptr len start mem -> room_for elf ptr len a w ->
  (forall x, slice_lo ptr <= x < slice_hi ptr len -> w_mem w x = mem x) ->
  Forall (fun f => forall x, f <= x < f + PAGE_SIZE -> ~ kept x) (fs_frames (w_frames w)) ->
  (forall i e, fx_entries fixed i = Some e -> i <> slot -> ts_p4 (w_tables w) root i = e) ->
  (forall t x, fx_tables fixed t = Some x -> (t ∉ fs_frames (w_frames w)) /\
     ts_pages (w_tables w) t = x.1 /\ ts_gibs (w_tables w) t = x.2) ->
  Forall (fx_frames fixed) (fs_frames (w_frames w)) ->
  exists a' w' k, elf_copy_to_addrsp frame_alloc elf_file_new ptr len a w = Done (entry_point elf, a', w') /\
    slot_inv frame_alloc root slot fixed (a', w') /\
    (k <= total_cost 0 (program_iter elf))%nat /\ fs_frames (w_frames w') = drop k (fs_frames (w_frames w)) /\
    (forall x, kept x -> w_mem w' x = w_mem w x) /\
    (forall v b, image mem ptr start 0 (program_iter elf) v = Some b ->
       slot_page (p4_base slot) (page_of v) /\ user_byte a' w' v = Some b) /\
    (forall v, p4_base slot <= v < p4_base slot + 2 ^ 39 ->
       user_flags_at a' w' v = perms (LS := spec) 0 (program_iter elf) (page_of v)).
Proof.
  intros [B1 B2 B3 (size & B4) B5 B6] [R1 R2 [R3 R3'] R4 R5] Hmem Hkept Hfe Hft Hfo.
  pose proof (page_of_bounds ptr) as [Hd1 Hb1]. pose proof (page_of_bounds (ptr + len - 1)) as [Hd2 Hb2].
  assert (Hempty : forall p, slot_lookup root slot (a, w) p = None) by (intros; unfold slot_lookup; cbn [snd]; by rewrite R2).
  assert (Hinv : slot_inv frame_alloc root slot fixed (a, w)).
  { split; try done; cbn [snd]; rewrite ?R2; [done| |].
    - intros t x Hx. by destruct (Hft t x Hx) as (? & ? & ?).
    - intros p f fl _. by rewrite Hempty. }
  set (spec' := addrsp_target_spec frame_alloc root slot Hslot fixed).
  edestruct (load_image_ok (LS := spec') (slice_lo ptr) (slice_hi ptr len) kept (w_mem w) mem) with
    (elf_ptr := ptr) (elf_len := len) (elf_start := start) (off := 0) (place := virt_addr_new) (s := (a, w))
    as (s1 & s2 & E1 & E2 & L2 & Hread & Hperm).
  - unfold slice_lo, slice_hi. destruct Hd1 as [i Hi]. rewrite Hi in *. page_lia.
  - exact Hmem.
  - intros v Hv. rewrite Z.add_0_r in *. apply virt_addr_new_ok. by apply (slot_canonical (LS := spec')).
  - unfold slice_lo, slice_hi. page_lia.
  - by apply (headers_ok_same spec spec').
  - split; try done; cbn [lt_page addrsp_target_spec spec']; try (intros *; by rewrite Hempty).
    apply Forall_and. by split.
  - intros p _. apply Hempty.
  - exact R5.
  - destruct L2 as (LL & k & Hk & Hfr). pose proof (li_inv _ _ _ _ _ LL) as I2.
    assert (Hbytes : file_bytes (w_mem w) ptr len = file_bytes mem ptr len).
    { apply map_ext_in. intros x [? ?]%list_elem_of_In%elem_of_seqZ. apply Hmem. unfold slice_lo, slice_hi. page_lia. }
    unfold elf_copy_to_addrsp. rewrite Hbytes, B1. cbn [or_panic]. rewrite Done_bind.
    rewrite (proj2 (Z.ltb_lt _ _)) by lia. cbn [rassert]. rewrite Done_bind.
    rewrite phys_addr_new_ok, Done_bind, B3, Done_bind, B4, Done_bind by page_lia. cbv beta iota.
    step E1. rewrite E2, Done_bind, virt_addr_new_ok, Done_bind by done.
    exists s2.1, s2.2, k. split; [done|]. split; [by destruct s2|]. split; [done|]. split; [exact Hfr|].
    assert (Hs : forall v, p4_base slot <= v < p4_base slot + 2 ^ 39 -> slot_page (p4_base slot) (page_of v)).
    { intros v Hv. by apply (page_of_slot (LS := spec')). }
    split; [|split].
    + intros x Hx. apply (li_src _ _ _ _ _ LL x). by right.
    + intros v b Hv. destruct (Hread v b Hv) as [Hsv Hr]. split; [done|]. unfold user_byte. rewrite (slot_translate fixed s2 v I2 Hsv).
      unfold read in Hr. cbn [lt_page addrsp_target_spec lt_mem addrsp_target spec'] in Hr.
      by destruct (slot_lookup root slot s2 (page_of v)) as [[f fl]|].
    + intros v Hv. specialize (Hperm _ (Hs v Hv)). unfold user_flags_at. rewrite (slot_translate fixed s2 v I2 (Hs v Hv)).
      rewrite <- (perms_same spec spec'), <- Hperm by done. cbn [lt_page addrsp_target_spec spec']. by destruct (slot_lookup root slot s2 (page_of v)) as [[f fl]|].
Qed.

(** C32. Loading the first program: [elf_copy_to_addrsp] returns its entry
    point, and in the address space every byte of the file's image, with zeroed
    tails and relocations applied, is visible at its address; the pages of the
    entry have exactly the permissions of the program headers and are
    accessible from user mode. *)
Theorem elf_copy_to_addrsp_loads elf ptr len start a w :
  loadable elf ptr len start (w_mem w) -> room_for elf ptr len a w ->
  exists a' w', elf_copy_to_addrsp frame_alloc elf_file_new ptr len a w = Done (entry_point elf, a', w') /\
    as_root a' = root /\
    (forall v b, image (w_mem w) ptr start 0 (program_iter elf) v = Some b -> user_byte a' w' v = Some b) /\
    (forall v, p4_base slot <= v < p4_base slot + 2 ^ 39 ->
       user_flags_at a' w' v = perms (LS := spec) 0 (program_iter elf) (page_of v)).
Proof.
  intros Hl Hr. destruct (elf_copy_ok nothing_fixed (fun _ => False) (w_mem w) elf ptr len start a w Hl Hr) as (a' & w' & k & H1 & [H2 _ _ _ _ _ _ _] & _ & _ & _ & H3 & H4).
  - done.
  - apply Forall_forall. by intros f _ x _ [].
  - done.
  - done.
  - apply Forall_forall. by intros.
  - exists a', w'. split; [done|]. split; [done|]. split; [|done]. intros v b Hv. by apply H3.
Qed.
End Program.

(** Whether a file can be loaded does not depend on the level-4 table or on the
    allocator. *)
Lemma loadable_any {V : X86Virt} {F : PtFlags} {FS : PtFlagsSpec F} {T A A' : Type} {TS : TableStore T}
    {TSS : TableStoreSpec T TS} (alloc : frame_source A) {AS : FrameSourceSpec alloc} (alloc' : frame_source A')
    {AS' : FrameSourceSpec alloc'} elf_file_new root root' slot Hslot elf ptr len start mem :
  loadable alloc elf_file_new root slot Hslot elf ptr len start mem ->
  loadable alloc' elf_file_new root' slot Hslot elf ptr len start mem.
Proof.
  intros [B1 B2 B3 B4 B5 B6]. split; try done.
  by apply (headers_ok_same (addrsp_target_spec alloc root slot Hslot nothing_fixed)).
Qed.

(** ** An instance: a program with a zeroed tail and a relocation that crosses
    a page *)

#[local] Existing Instance x86_addr_model.
#[local] Existing Instance x86_addr_model_spec.
#[local] Existing Instance x86_virt_model.
#[local] Existing Instance x86_virt_model_spec.
#[local] Existing Instance pt_flags_model.
#[local] Existing Instance pt_flags_model_spec.
#[local] Existing Instance gmap_store_ops.
#[local] Existing Instance gmap_store_spec.

#[local] Existing Instance x86_step_model.
#[local] Existing Instance x86_step_model_spec.

Definition PROGRAM_BASE : Z := 0xffff800000000000.
Definition PROGRAM_PTR : Z := 0x7fc0000000.

Definition sample_load : ProgramHeader :=
  mkProgramHeader (Some ShLoad) PROGRAM_BASE 0 0x1100 0x2200 true true None.
Definition sample_dynamic : ProgramHeader :=
  mkProgramHeader (Some ShDynamic) (PROGRAM_BASE + 0x100) 0x100 0x30 0x30 false true
    (Some (Dynamic64 [mkDynamic (Some TagRela) (Some (PROGRAM_BASE + 0x200)) None;
                      mkDynamic (Some TagRelaSize) None (Some 24);
                      mkDynamic (Some TagRelaEnt) None (Some 24)])).
Definition sample_relro : ProgramHeader :=
  mkProgramHeader (Some ShGnuRelro) PROGRAM_BASE 0 0x1000 0x1000 false false None.

Definition sample_elf : ElfFile :=
  mkElfFile [sample_load; sample_dynamic; sample_relro] (fun _ => true) true SharedObject (PROGRAM_BASE + 0x40).

(** The relocation stores PROGRAM_BASE + 0x40 at PROGRAM_BASE + 0xffc. *)
Definition sample_bytes : Z -> Z :=
  store64 (store64 (store64 (fun _ => 7) (PROGRAM_PTR + 0x200) (PROGRAM_BASE + 0xffc))
    (PROGRAM_PTR + 0x208) 8) (PROGRAM_PTR + 0x210) (PROGRAM_BASE + 0x40).

Definition sample_space : UserAddrSpace := mkAddrSpace 0x1000 [] [] [] 0 [] 0 0 0x1000.
Definition sample_world : World gmap_store (list Z) :=
  mkWorld (mkStore ∅ ∅ ∅) (frame_list 0x200000 100) sample_bytes 0x1000.

Lemma slot_256 : 0 <= 256 < 512.
Proof. done. Qed.

Abbreviation sample_spec := (addrsp_target_spec list_source 0x1000 256 slot_256 nothing_fixed).

Lemma sample_in_load q : in_segment 0 sample_load q <-> PROGRAM_BASE <= q < PROGRAM_BASE + 0x3000.
Proof.
  unfold in_segment. replace (page_of (seg_start 0 sample_load)) with PROGRAM_BASE by (by vm_compute).
  replace (seg_pages sample_load (seg_start 0 sample_load)) with 3%nat by (by vm_compute). page_lia.
Qed.

Lemma sample_perms q k : (1 <= k)%nat -> PROGRAM_BASE <= q < PROGRAM_BASE + 0x3000 ->
  is_Some (perms (LS := sample_spec) 0 (take k (program_iter sample_elf)) q).
Proof.
  intros Hk Hq. destruct k; [lia|]. eapply (perms_load _ _ 0%nat sample_load); [done|done|].
  by apply sample_in_load.
Qed.

Lemma sample_loadable : loadable list_source (fun _ => Some sample_elf) 0x1000 256 slot_256 sample_elf PROGRAM_PTR 0x2000
  PROGRAM_BASE sample_bytes.
Proof.
  split; try done; [by exists 0x2200| |by right].
  intros k ph Hk Hpos.
  assert (Hpl : placeable (LS := sample_spec) ph (seg_src PROGRAM_PTR ph) (seg_start 0 ph) /\ 0 <= ph_offset ph).
  { destruct k as [|[|[|k]]]; simpl in Hk; try discriminate Hk; injection Hk as <-; (split; [split|]); done. }
  destruct Hpl as [Hpl Hoff]. split; [done|]. split; [done|].
  destruct k as [|[|[|k]]]; simpl in Hk; try discriminate Hk; injection Hk as <-; cbn [get_type default from_option].
  - split; [|done]. split; [done|by apply Z.mod_divide|done].
  - eexists _, _. split; [done|]. split; [done|]. cbn [ri_rela]. exists 24.
    repeat (split; [done|]). intros i Hi. change (24 / RELA_SIZE) with 1 in Hi. assert (i = 0) as -> by lia.
    split; [by vm_compute|by vm_compute|by vm_compute|].
    intros v Hv. apply sample_perms; [done|].
    assert (E : rela_word sample_bytes PROGRAM_PTR PROGRAM_BASE (PROGRAM_BASE + 0x200) 0 0 = PROGRAM_BASE + 0xffc) by (by vm_compute).
    rewrite E in Hv. pose proof (page_of_bounds v) as [[j Hj] Hb]. rewrite Hj in *. unfold PROGRAM_BASE in *. page_lia.
  - intros q Hq Hin. apply sample_perms; [lia|]. unfold in_segment in Hin.
    replace (page_of (seg_start 0 sample_relro)) with PROGRAM_BASE in Hin by (by vm_compute).
    replace (seg_pages sample_relro (seg_start 0 sample_relro)) with 1%nat in Hin by (by vm_compute). page_lia.
Qed.

Lemma sample_room : room_for list_source 0x1000 256 sample_elf PROGRAM_PTR 0x2000 sample_space sample_world.
Proof.
  split; try done.
  - split; [apply frame_list_source|]. apply Forall_forall. intros f (i & Hi & ->)%elem_of_stride.
    split; [apply Z.divide_add_r; [by exists 512|apply Z.divide_factor_l]|page_lia].
  - apply Forall_forall. intros f (i & Hi & ->)%elem_of_stride. left.
    replace (slice_lo PROGRAM_PTR) with PROGRAM_PTR by (by vm_compute). unfold PROGRAM_PTR. page_lia.
  - apply (bool_decide_unpack _). by vm_compute.
Qed.

Lemma elf_copy_to_addrsp_loads_witness :
  exists a' w', elf_copy_to_addrsp list_source (fun _ => Some sample_elf) PROGRAM_PTR 0x2000 sample_space sample_world =
      Done (PROGRAM_BASE + 0x40, a', w') /\
    user_byte a' w' (PROGRAM_BASE + 0xffc) = Some 0x40 /\ user_byte a' w' (PROGRAM_BASE + 0x1003) = Some 0xff /\
    user_byte a' w' (PROGRAM_BASE + 0x10ff) = Some 7 /\ user_byte a' w' (PROGRAM_BASE + 0x1100) = Some 0 /\
    user_flags_at a' w' (PROGRAM_BASE + 0x123) = Some 5 /\ user_flags_at a' w' (PROGRAM_BASE + 0x1000) = Some 7.
Proof.
  destruct (elf_copy_to_addrsp_loads list_source (fun _ => Some sample_elf) 0x1000 256 slot_256 sample_elf PROGRAM_PTR
    0x2000 PROGRAM_BASE sample_space sample_world sample_loadable sample_room) as (a' & w' & E & _ & Hb & Hf).
  exists a', w'. split; [exact E|].
  split; [apply Hb; by vm_compute|]. split; [apply Hb; by vm_compute|]. split; [apply Hb; by vm_compute|].
  split; [apply Hb; by vm_compute|]. rewrite (Hf (PROGRAM_BASE + 0x123) ltac:(by split)), (Hf (PROGRAM_BASE + 0x1000) ltac:(by split)).
  split; by vm_compute.
Defined.
