(* ===== verification/Context.v ===== *)
(** * Contexts

    [kernel/src/context/mod.rs], [list.rs], [status.rs], [signal.rs] and
    [mem/user_buffer.rs]: the context of a task, the storage of all contexts
    with its id allocator, and the creation of a context by [spawn].  The
    kernel's locks are taken by one processor at a time here, and by several in
    Locks.v; what they guard is explicit state.  An [Arc<RwLockUserAddrSpace>] is an index into the
    list of address spaces, which gives [Arc::ptr_eq] and sharing. *)

From S2P Require Import Prelude Platform Shared Vdso Paging KPaging Machine Interrupts UserAddrSpace.

(** ** Status and signals *)

Inductive HardBlockedReason : Type := NotYetStarted.

Inductive Status : Type :=
| Runnable
| SoftBlocked (reason : string)
| HardBlocked (reason : HardBlockedReason)
| Stopped (n : Z)
| Existed (n : Z).

Definition is_runnable (s : Status) : bool := match s with Runnable => true | _ => false end.
Definition is_soft_blocked (s : Status) : bool := match s with SoftBlocked _ => true | _ => false end.

Record SignalState : Type := mkSignal { pending : Z; procmask : Z }.

(** The complement of a [u64]. *)
Definition not64 (v : Z) : Z := Z.lxor v (Z.ones 64).

Definition CANT_BLOCK : Z := Z.lor (Z.shiftl 1 (SIGKILL - 1)) (Z.shiftl 1 (SIGSTOP - 1)).
Definition deliverable (s : SignalState) : Z := Z.land (pending s) (Z.lor CANT_BLOCK (not64 (procmask s))).

(** ** The context *)

Record ContextRegisters : Type := mkCtxRegs {
  cr_rflags : Z; cr_rbx : Z; cr_r12 : Z; cr_r13 : Z; cr_r14 : Z; cr_r15 : Z; cr_rbp : Z; cr_rsp : Z;
  cr_fsbase : Z; cr_gsbase : Z; userspace_io_allowed : bool
}.

Definition ContextRegisters_new : ContextRegisters := mkCtxRegs 0 0 0 0 0 0 0 0 0 0 false.

Definition ctx_set_stack_pointer (address : Z) (r : ContextRegisters) : ContextRegisters :=
  mkCtxRegs (cr_rflags r) (cr_rbx r) (cr_r12 r) (cr_r13 r) (cr_r14 r) (cr_r15 r) (cr_rbp r) address
    (cr_fsbase r) (cr_gsbase r) (userspace_io_allowed r).

(** [kstack] is an address and a length, [addrsp] the identity of a space. *)
Record Context : Type := mkContext {
  c_id : Z;
  c_running : bool;
  c_cpu_id : option Z;
  c_inside_syscall : bool;
  c_kstack : option (Z * Z);
  c_status : Status;
  c_signal : SignalState;
  c_regs : ContextRegisters;
  c_userspace : bool;
  c_addrsp : option nat
}.

Definition Context_new (id : Z) : Context :=
  mkContext id false None false None (HardBlocked NotYetStarted) (mkSignal 0 (not64 0))
    ContextRegisters_new false None.

Definition set_status (s : Status) (c : Context) : Context :=
  mkContext (c_id c) (c_running c) (c_cpu_id c) (c_inside_syscall c) (c_kstack c) s (c_signal c)
    (c_regs c) (c_userspace c) (c_addrsp c).
Definition set_running (b : bool) (c : Context) : Context :=
  mkContext (c_id c) b (c_cpu_id c) (c_inside_syscall c) (c_kstack c) (c_status c) (c_signal c)
    (c_regs c) (c_userspace c) (c_addrsp c).
Definition set_cpu_id (i : option Z) (c : Context) : Context :=
  mkContext (c_id c) (c_running c) i (c_inside_syscall c) (c_kstack c) (c_status c) (c_signal c)
    (c_regs c) (c_userspace c) (c_addrsp c).
Definition set_inside_syscall (b : bool) (c : Context) : Context :=
  mkContext (c_id c) (c_running c) (c_cpu_id c) b (c_kstack c) (c_status c) (c_signal c)
    (c_regs c) (c_userspace c) (c_addrsp c).
Definition set_ctx_regs (r : ContextRegisters) (c : Context) : Context :=
  mkContext (c_id c) (c_running c) (c_cpu_id c) (c_inside_syscall c) (c_kstack c) (c_status c) (c_signal c)
    r (c_userspace c) (c_addrsp c).
Definition set_addrsp (a : option nat) (c : Context) : Context :=
  mkContext (c_id c) (c_running c) (c_cpu_id c) (c_inside_syscall c) (c_kstack c) (c_status c) (c_signal c)
    (c_regs c) (c_userspace c) a.

Definition soft_block (reason : string) (c : Context) : bool * Context :=
  if is_runnable (c_status c) then (true, set_status (SoftBlocked reason) c) else (false, c).

Definition hard_block (reason : HardBlockedReason) (c : Context) : bool * Context :=
  if is_runnable (c_status c) then (true, set_status (HardBlocked reason) c) else (false, c).

Definition unblock_no_ipi (c : Context) : bool * Context :=
  if is_soft_blocked (c_status c) then (true, set_status Runnable c) else (false, c).

(** [unblock]: the wake-up of another processor is commented out. *)
Definition unblock (c : Context) : bool * Context :=
  let r := unblock_no_ipi c in if r.1 then (true, r.2) else (false, r.2).

Definition can_access_regs (c : Context) : bool := c_userspace c.

(** [regs] and [regs_mut]: the address of the frame at the top of the stack. *)
Definition regs (c : Context) : option Z :=
  if can_access_regs c then
    match c_kstack c with
    | Some (base, len) => if INT_REGS_SIZE <=? len then Some (base + (len - INT_REGS_SIZE)) else None
    | None => None
    end
  else None.

(** ** Identifiers *)

Record ContextIdAllocator : Type := mkIdAlloc { head : Z; recycled : list Z }.

Definition id_allocator_new (init_id_exclusive : Z) : ContextIdAllocator := mkIdAlloc init_id_exclusive [].

Definition id_dealloc (id : Z) (al : ContextIdAllocator) : Z * ContextIdAllocator :=
  if decide (id ∈ recycled al) then (0, al) else (id, mkIdAlloc (head al) (recycled al ++ [id])).

Definition id_alloc (al : ContextIdAllocator) : outcome (Z * ContextIdAllocator) :=
  match recycled al with
  | [] => h ← u64_add (head al) 1; Done (h, mkIdAlloc h [])
  | id :: rest => Done (id, mkIdAlloc (head al) rest)
  end.

(** ** The storage *)

Record ContextStorage : Type := mkStorage { st_map : gmap Z Context; id_allocator : ContextIdAllocator }.

Definition storage_new (init_id_exclusive : Z) : ContextStorage :=
  mkStorage ∅ (id_allocator_new init_id_exclusive).

Definition set_map (m : gmap Z Context) (s : ContextStorage) : ContextStorage := mkStorage m (id_allocator s).

(** The entry is replaced also when the result is an error. *)
Definition insert_context (id : Z) (s : ContextStorage) : outcome ((Z + Z) * ContextStorage) :=
  let old := st_map s !! id in
  let s := set_map (<[id := Context_new id]> (st_map s)) s in
  match old with
  | Some _ => Done (inr EAGAIN, s)
  | None => _ ← or_panic (st_map s !! id); Done (inl id, s)
  end.

Definition storage_remove (id : Z) (s : ContextStorage) : option Context * ContextStorage :=
  (st_map s !! id, set_map (delete id (st_map s)) s).

Definition new_context (s : ContextStorage) : outcome ((Z + Z) * ContextStorage) :=
  r ← id_alloc (id_allocator s);
  insert_context r.1 (mkStorage (st_map s) r.2).

(** [storage[id]] *)
Definition storage_index (id : Z) (s : ContextStorage) : outcome Context := or_panic (st_map s !! id).

(** The keys in the order of the [BTreeMap]. *)
Definition ordered_ids (s : ContextStorage) : list Z := merge_sort Z.le (map fst (map_to_list (st_map s))).

Definition storage_iter (s : ContextStorage) : list (Z * Context) :=
  omap (fun i => c ← st_map s !! i; Some (i, c)) (ordered_ids s).

(** [range] over the ids that satisfy the bounds. *)
Definition storage_range (bounds : Z -> bool) (s : ContextStorage) : list (Z * Context) :=
  List.filter (fun ic => bounds ic.1) (storage_iter s).

(** ** The state of a processor and of the kernel *)

(** [ContextSwitchPercpu]; a [SwitchResultInner] holds the guards of the
    previous and the next context, here their ids. *)
Record ContextSwitchPercpu : Type := mkSwitchPercpu {
  switch_result : option (Z * Z);
  pit_ticks : Z;
  cs_context_id : Z;
  cs_idle_id : Z;
  switch_signal : bool
}.

Record PercpuBlock : Type := mkPercpu {
  pb_cpu_id : Z;
  context_switch : ContextSwitchPercpu;
  pb_inside_syscall : bool
}.

Definition set_context_id (new : Z) (s : ContextSwitchPercpu) : ContextSwitchPercpu :=
  mkSwitchPercpu (switch_result s) (pit_ticks s) new (cs_idle_id s) (switch_signal s).
Definition set_idle_id (new : Z) (s : ContextSwitchPercpu) : ContextSwitchPercpu :=
  mkSwitchPercpu (switch_result s) (pit_ticks s) (cs_context_id s) new (switch_signal s).

(** The kernel as one processor sees it: the machine's tables, frames and
    memory, the address spaces, the contexts, the processor's own block, and
    the address of the kernel's level-4 table. *)
Record Kernel (T A : Type) : Type := mkKernel {
  k_world : World T A;
  k_spaces : list UserAddrSpace;
  k_storage : ContextStorage;
  k_percpu : PercpuBlock;
  k_root : Z
}.
Arguments mkKernel {T A} _ _ _ _ _.
Arguments k_world {T A} _.
Arguments k_spaces {T A} _.
Arguments k_storage {T A} _.
Arguments k_percpu {T A} _.
Arguments k_root {T A} _.

Definition set_world {T A} (w : World T A) (k : Kernel T A) : Kernel T A :=
  mkKernel w (k_spaces k) (k_storage k) (k_percpu k) (k_root k).
Definition set_spaces {T A} (l : list UserAddrSpace) (k : Kernel T A) : Kernel T A :=
  mkKernel (k_world k) l (k_storage k) (k_percpu k) (k_root k).
Definition set_storage {T A} (s : ContextStorage) (k : Kernel T A) : Kernel T A :=
  mkKernel (k_world k) (k_spaces k) s (k_percpu k) (k_root k).
Definition set_percpu {T A} (p : PercpuBlock) (k : Kernel T A) : Kernel T A :=
  mkKernel (k_world k) (k_spaces k) (k_storage k) p (k_root k).
(** Writing through the lock of a context. *)
Definition put_context {T A} (id : Z) (c : Context) (k : Kernel T A) : Kernel T A :=
  set_storage (set_map (<[id := c]> (st_map (k_storage k))) (k_storage k)) k.

Definition context_id {T A} (k : Kernel T A) : Z := cs_context_id (context_switch (k_percpu k)).
Definition current {T A} (k : Kernel T A) : option Context := st_map (k_storage k) !! context_id k.

Definition KSTACK_VIRT : Z := 0x7f80000000.
Definition KSTACK_PAGES : Z := 64.

Section Kernel.
Context {V : X86Virt} {X : X86Addr} {F : PtFlags} {T A : Type} {TS : TableStore T}.
Context (frame_alloc_n : Z -> frame_source A).
(** The addresses of [enter_usermode], and the selectors of user mode. *)
Context (enter_usermode_addr : Z) (user_code user_data : option Z).

(** [UserBuffer::resolve_by_current] *)
Definition resolve_by_current (fuel : nat) (buffer : UserBuffer) (k : Kernel T A)
  : outcome (KResult (list (Z * Z))) :=
  match current k with
  | None => Done (inr (mkKError ESRCH))
  | Some c =>
      match c_addrsp c with
      | None => Done (inr (mkKError ENOMEM))
      | Some i => s ← or_panic (k_spaces k !! i); resolve fuel s (k_world k) buffer
      end
  end.

(** [Context::set_addr_space] on the context [c]; returns the previous space,
    or the new one when both are the same. *)
Definition set_addr_space (addrsp : option nat) (c : Context) (k : Kernel T A)
  : outcome (option nat * Context * Kernel T A) :=
  let same := match c_addrsp c, addrsp with Some o, Some n => Nat.eqb o n | _, _ => false end in
  if same then Done (addrsp, c, k)
  else
    k ← (if c_id c =? context_id k then
           match addrsp with
           | Some n => s ← or_panic (k_spaces k !! n); Done (set_world (validate s (k_world k)) k)
           | None =>
               phys_addr ← phys_addr_new (k_root k);
               Done (set_world (set_cr3 (frame_containing_address phys_addr) (k_world k)) k)
           end
         else _ ← rassert (negb (c_running c)); Done k);
    Done (c_addrsp c, set_addrsp addrsp c, k).

Definition kstack_flags : Z :=
  flags_or (flags_or (flags_or PT_PRESENT PT_USER_ACCESSIBLE) PT_WRITABLE) PT_NO_EXECUTE.

(** One iteration of the loop that maps the kernel stack for user space. *)
Definition map_kstack_page (start_page start_frame : Z) (s : UserAddrSpace * World T A) (page : Z)
  : outcome (UserAddrSpace * World T A) :=
  f ← frame_add start_frame ((page - start_page) / PAGE_SIZE);
  raw_map_to (frame_alloc_n 1) page f kstack_flags s.1 s.2.

Definition map_kstack (stack : Z) (s : UserAddrSpace) (w : World T A) : outcome (UserAddrSpace * World T A) :=
  v ← virt_addr_new KSTACK_VIRT;
  let kstack_start_page := page_containing_address v in
  p ← phys_addr_new stack;
  let kstack_start_frame := frame_containing_address p in
  _ ← page_add kstack_start_page KSTACK_PAGES;
  foldM (map_kstack_page kstack_start_page kstack_start_frame) (s, w)
    (frame_list kstack_start_page (Z.to_nat KSTACK_PAGES)).

(** The words [spawn] writes at the top of the stack, and the stack pointer. *)
Definition prepare_stack (userspace_allowed : bool) (func stack : Z) (mem : Z -> Z) : outcome ((Z -> Z) * Z) :=
  let stack_top := stack + PAGE_SIZE * KSTACK_PAGES in
  '(mem, stack_top) ← (if userspace_allowed then
      let stack_top := stack_top - INT_REGS_SIZE in
      let mem := mem_fill stack_top INT_REGS_SIZE 0 mem in
      mem ← stack_init user_code user_data stack_top mem;
      let rsp_field_offset := IRET_OFFSET + 24 in
      let mem := set_stack_pointer (KSTACK_VIRT + PAGE_SIZE * KSTACK_PAGES - INT_REGS_SIZE + rsp_field_offset + 8)
        stack_top mem in
      let stack_top := stack_top - 8 in
      Done (store64 mem stack_top enter_usermode_addr, stack_top)
    else Done (mem, stack_top));
  let stack_top := stack_top - 8 in
  Done (store64 mem stack_top func, stack_top).

(** [ContextStorage::spawn]: the id of the new context or an error number. *)
Definition spawn (userspace_allowed : bool) (func : Z) (k : Kernel T A) : outcome ((Z + Z) * Kernel T A) :=
  r ← frame_alloc_n KSTACK_PAGES (w_frames (k_world k));
  let w := set_frames r.2 (k_world k) in
  match r.1 with
  | None => Done (inr ENOMEM, set_world w k)
  | Some stack =>
      let w := set_mem (mem_fill stack (PAGE_SIZE * KSTACK_PAGES) 0 (w_mem w)) w in
      '(res, st) ← new_context (k_storage k);
      let k := set_storage st (set_world w k) in
      match res with
      | inr e => Done (inr e, k)
      | inl id =>
          new_context ← storage_index id st;
          '(addrsp, w) ← locked_addrsp_new (frame_alloc_n 1) (k_root k) 0x1000 (k_world k);
          '(addrsp, w) ← map_kstack stack addrsp w;
          let n := length (k_spaces k) in
          let k := set_spaces (k_spaces k ++ [addrsp]) (set_world w k) in
          '(_, new_context, k) ← set_addr_space (Some n) new_context k;
          '(mem, stack_top) ← prepare_stack userspace_allowed func stack (w_mem (k_world k));
          let k := set_world (set_mem mem (k_world k)) k in
          let new_context :=
            mkContext (c_id new_context) (c_running new_context) (c_cpu_id new_context)
              (c_inside_syscall new_context) (Some (stack, PAGE_SIZE * KSTACK_PAGES)) (c_status new_context)
              (c_signal new_context) (ctx_set_stack_pointer stack_top (c_regs new_context))
              userspace_allowed (c_addrsp new_context) in
          Done (inl id, put_context id new_context k)
      end
  end.

(** [init_context], for the context the processor is running. *)
Definition init_context (k : Kernel T A) : outcome (Kernel T A) :=
  let cpu := pb_cpu_id (k_percpu k) in
  '(res, st) ← insert_context cpu (k_storage k);
  match res with
  | inr _ => Panic
  | inl id =>
      c ← storage_index id st;
      let c := mkContext (c_id c) true (Some cpu) (c_inside_syscall c) (c_kstack c) Runnable
        (mkSignal (pending (c_signal c)) 0) (c_regs c) (c_userspace c) (c_addrsp c) in
      let sw := set_idle_id (c_id c) (set_context_id (c_id c) (context_switch (k_percpu k))) in
      Done (set_percpu (mkPercpu cpu sw (pb_inside_syscall (k_percpu k)))
        (put_context id c (set_storage st k)))
  end.
End Kernel.

(** ** Identifiers are unique *)

(** Allocations, and releases of ids in use; the second component is the set
    of ids in use. *)
Inductive id_step : ContextIdAllocator * gset Z -> ContextIdAllocator * gset Z -> Prop :=
| id_step_alloc al al' live id :
    id_alloc al = Done (id, al') -> id_step (al, live) (al', {[ id ]} ∪ live)
| id_step_dealloc al al' live id r :
    id ∈ live -> id_dealloc id al = (r, al') -> id_step (al, live) (al', live ∖ {[ id ]}).

Record id_inv (n : Z) (s : ContextIdAllocator * gset Z) : Prop := {
  ii_nodup : NoDup (recycled s.1);
  ii_free i : i ∈ recycled s.1 -> i ∉ s.2;
  ii_range i : i ∈ recycled s.1 \/ i ∈ s.2 -> n < i <= head s.1
}.

Lemma id_alloc_spec n al live id al' :
  id_inv n (al, live) -> n <= head al -> id_alloc al = Done (id, al') ->
  (id ∉ live) /\ n < id /\ id_inv n (al', {[ id ]} ∪ live) /\ n <= head al'.
Proof.
  intros [Hnd Hfree Hr] Hn H. unfold id_alloc in H. simpl in *.
  destruct (recycled al) as [|i rest] eqn:E; inv_done; simpl.
  - assert (head al + 1 ∉ live) by (intros Hin; pose proof (Hr _ (or_intror Hin)); lia).
    split; [done|]. split; [lia|]. split; [|lia]. split; simpl.
    + constructor.
    + intros i Hi. by apply not_elem_of_nil in Hi.
    + intros i [Hi|Hi]; [by apply not_elem_of_nil in Hi|].
      apply elem_of_union in Hi as [->%elem_of_singleton|Hi]; [lia|].
      pose proof (Hr _ (or_intror Hi)). lia.
  - apply NoDup_cons in Hnd as [Hni Hnd]. pose proof (Hr id (or_introl (list_elem_of_here _ _))) as Hri.
    split; [apply Hfree; constructor|]. split; [lia|]. split; [|done]. split; simpl.
    + done.
    + intros j Hj [->%elem_of_singleton|Hin]%elem_of_union; [done|]. by apply (Hfree j); [right|].
    + intros j [Hj|Hj]; [by apply Hr; left; right|].
      apply elem_of_union in Hj as [->%elem_of_singleton|Hj]; [done|]. by apply Hr; right.
Qed.

Lemma id_step_inv n s s' : id_inv n s -> n <= head s.1 -> id_step s s' -> id_inv n s' /\ n <= head s'.1.
Proof.
  intros Hi Hn Hs. destruct Hs as [al al' live id H|al al' live id r Hin H].
  { destruct (id_alloc_spec n al live id al' Hi Hn H) as (_ & _ & ? & ?). done. }
  destruct Hi as [Hnd Hfree Hr]. unfold id_dealloc in H. simpl in *.
  case_decide as Hd; injection H as <- <-; [by exfalso; apply (Hfree id)|].
  split; [|done]. split; simpl.
  - apply NoDup_app. split_and!; [done| |apply NoDup_singleton].
    intros x Hx ->%list_elem_of_singleton. done.
  - intros i Hi [H1 H2]%elem_of_difference. apply elem_of_app in Hi as [Hi| ->%list_elem_of_singleton].
    + by apply (Hfree i).
    + by apply H2, elem_of_singleton.
  - intros i [Hi|[Hi _]%elem_of_difference]; [|by apply Hr; right].
    apply elem_of_app in Hi as [Hi| ->%list_elem_of_singleton]; apply Hr; auto.
Qed.

(** C28. However contexts come and go, an id that [alloc] hands out is not in
    use, as long as only ids in use are released. *)
Theorem id_alloc_fresh n al live id al' :
  rtc id_step (id_allocator_new n, ∅) (al, live) -> id_alloc al = Done (id, al') ->
  (id ∉ live) /\ n < id.
Proof.
  intros Hreach H.
  assert (Hinv : id_inv n (al, live) /\ n <= head al).
  { revert Hreach. apply (rtc_ind_r (fun s => id_inv n s /\ n <= head s.1) (id_allocator_new n, ∅)).
    - split; [|done]. split; simpl; [constructor|by intros ? ?%not_elem_of_nil|].
      by intros i [?%not_elem_of_nil|?%not_elem_of_empty].
    - intros s s' _ Hs [Hi Hn]. by eapply id_step_inv. }
  destruct Hinv as [Hi Hn]. destruct (id_alloc_spec n al live id al' Hi Hn H) as (? & ? & _). done.
Qed.

(** [dealloc] does not check that the id was ever handed out: releasing
    the next id makes two allocations return it. *)
Theorem dealloc_unallocated_duplicates h :
  0 <= h -> h + 1 < 2 ^ 64 ->
  let al := (id_dealloc (h + 1) (mkIdAlloc h [])).2 in
  (id_dealloc (h + 1) (mkIdAlloc h [])).1 = h + 1 /\
  exists al1 al2, id_alloc al = Done (h + 1, al1) /\ id_alloc al1 = Done (h + 1, al2).
Proof.
  intros H0 H1. unfold id_dealloc. rewrite decide_False by apply not_elem_of_nil. split; [done|].
  exists (mkIdAlloc h []), (mkIdAlloc (h + 1) []). split; [done|]. unfold id_alloc, u64_add.
  cbn [recycled head]. rewrite (checked_in 64 (h + 1)) by lia. done.
Qed.

Lemma id_alloc_fresh_witness : (2 ∉ ({[ 1 ]} : gset Z)) /\ 0 < 2.
Proof.
  apply (id_alloc_fresh 0 (mkIdAlloc 1 []) {[ 1 ]} 2 (mkIdAlloc 2 [])); [|reflexivity].
  apply rtc_once. replace ({[ 1 ]} : gset Z) with ({[ 1 ]} ∪ ∅ : gset Z) by apply (right_id_L ∅ (∪)).
  by constructor.
Defined.

Lemma dealloc_unallocated_duplicates_witness :
  let al := (id_dealloc 10 (mkIdAlloc 9 [])).2 in
  (id_dealloc 10 (mkIdAlloc 9 [])).1 = 10 /\
  exists al1 al2, id_alloc al = Done (10, al1) /\ id_alloc al1 = Done (10, al2).
Proof. apply (dealloc_unallocated_duplicates 9); lia. Defined.

(** *** The test of the source *)

(** The calls of [test_context_id_allocator], each with the result it expects. *)
Inductive IdCall : Type := CallAlloc (expected : Z) | CallDealloc (id expected : Z).

Definition test_context_id_allocator : list IdCall :=
  map CallAlloc [1; 2; 3; 4; 5; 6; 7; 8; 9] ++
  [CallDealloc 10 0; CallDealloc 3 3; CallDealloc 4 5; CallDealloc 4 5] ++
  map CallAlloc [3; 4; 5; 10].

(** [assert_eq!] on a call. *)
Definition check_id_call (al : ContextIdAllocator) (c : IdCall) : outcome ContextIdAllocator :=
  match c with
  | CallAlloc expected => '(id, al) ← id_alloc al; _ ← rassert (id =? expected); Done al
  | CallDealloc id expected => let '(r, al) := id_dealloc id al in _ ← rassert (r =? expected); Done al
  end.

(** The test fails: it passes the nine allocations, and then expects that an id
    that was never handed out is not taken back. *)
Theorem test_context_id_allocator_fails :
  foldM check_id_call (id_allocator_new 0) (take 9 test_context_id_allocator) = Done (mkIdAlloc 9 []) /\
  foldM check_id_call (id_allocator_new 0) (take 10 test_context_id_allocator) = Panic.
Proof. split; by vm_compute. Qed.

(** ** Creating a context *)

Lemma load64_fill mem dst len a : dst <= a -> a + 8 <= dst + len -> load64 (mem_fill dst len 0 mem) a = 0.
Proof.
  intros H1 H2. rewrite (load64_outside _ (fun _ => 0)); [done|].
  intros x Hx. unfold mem_fill. by rewrite (proj2 (Z.leb_le _ _)), (proj2 (Z.ltb_lt _ _)) by lia.
Qed.

(** The frame a new context starts user mode with. *)
Definition KSTACK_TOP : Z := PAGE_SIZE * KSTACK_PAGES.
Definition new_frame (cs ss : Z) : InterruptStack :=
  regs_frame (fun _ => 0) (mkIret 0 cs INTERRUPT_FLAG (KSTACK_VIRT + KSTACK_TOP - 8) ss).

Ltac mem_words := repeat first
  [ rewrite load64_store_ne by lia | rewrite load64_store64 by done | rewrite load64_fill by lia ].

Lemma prepare_stack_user enter cs ss func stack mem :
  0 <= enter < 2 ^ 64 -> 0 <= func < 2 ^ 64 -> 0 <= cs < 2 ^ 64 -> 0 <= ss < 2 ^ 64 ->
  let top := stack + KSTACK_TOP in
  exists mem', prepare_stack enter (Some cs) (Some ss) true func stack mem = Done (mem', top - 176) /\
    load64 mem' (top - 176) = func /\ load64 mem' (top - 168) = enter /\
    read_stack mem' (top - 160) = new_frame cs ss /\ 0 <= mem' (top - 160 + 8 * 17) < 256 /\
    forall x, x < top - 176 \/ top <= x -> mem' x = mem x.
Proof.
  intros He Hf Hc Hs top. set (a := top - 160).
  set (frame := set_stack_pointer (KSTACK_VIRT + KSTACK_TOP - 8) a
    (store64 (store64 (store64 (mem_fill a 160 0 mem) (a + 136) INTERRUPT_FLAG) (a + 128) cs) (a + 152) ss)).
  exists (store64 (store64 frame (a - 8) enter) (a - 16) func).
  assert (Hu : 0 <= KSTACK_VIRT + KSTACK_TOP - 8 < 2 ^ 64) by done.
  split.
  { unfold prepare_stack, stack_init. cbn [or_panic]. rewrite !Done_bind. unfold frame, set_stack_pointer.
    replace (stack + PAGE_SIZE * KSTACK_PAGES - INT_REGS_SIZE) with a by (unfold a, top; reflexivity).
    unfold IRET_OFFSET, PRESERVED_SIZE, SCRATCH_SIZE. rewrite <- !Z.add_assoc.
    replace (a - 8 - 8) with (a - 16) by lia. replace (top - 176) with (a - 16) by (unfold a; lia). done. }
  replace (top - 176) with (a - 16) by (unfold a; lia). replace (top - 168) with (a - 8) by (unfold a; lia).
  replace top with (a + 160) by (unfold a; lia). clearbody a. unfold frame, set_stack_pointer.
  unfold IRET_OFFSET, PRESERVED_SIZE, SCRATCH_SIZE. unfold store64.
  split; [by apply load64_store64|]. split; [rewrite load64_store_ne by lia; by apply load64_store64|].
  split; [|split].
  - unfold read_stack, new_frame, regs_frame. f_equal; f_equal; mem_words; try done.
    rewrite <- Z.add_assoc. by apply load64_store64.
  - do 3 (rewrite store_bytes_outside by lia). do 2 (rewrite store_bytes_outside by lia).
    unfold store_bytes. case_match; [by apply Z.mod_pos_bound|].
    unfold mem_fill. rewrite (proj2 (Z.leb_le _ _)), (proj2 (Z.ltb_lt _ _)) by lia. done.
  - intros x Hx. do 6 (rewrite store_bytes_outside by lia). apply mem_fill_outside. lia.
Qed.

Section Spawn.
Context {V : X86Virt} {VS : X86VirtSpec V} {X : X86Addr} {XS : X86AddrSpec X} {F : PtFlags}.
Context {T : Type} {TS : TableStore T} {TSS : TableStoreSpec T TS} {A : Type}.
Context {frame_alloc_n : Z -> frame_source A} {AS : FrameSourceSpec (frame_alloc_n 1)}.
Implicit Types w : World T A.
Implicit Types s : UserAddrSpace.

Definition kstack_user_flags : Z := flags_or kstack_flags PT_USER_ACCESSIBLE.

(** [w'] is [w] after mappings below the table [t] that used at most [n] frames. *)
Record kept_below (n : nat) (t : Z) w w' : Prop := {
  kb_p4 r i : ts_p4 (w_tables w') r i = ts_p4 (w_tables w) r i;
  kb_gibs t' : ts_gibs (w_tables w') t' = ts_gibs (w_tables w) t';
  kb_pages t' : t' <> t -> ts_pages (w_tables w') t' = ts_pages (w_tables w) t';
  kb_inv : fs_inv (w_frames w');
  kb_frames : exists k, (k <= n)%nat /\ fs_frames (w_frames w') = drop k (fs_frames (w_frames w))
}.

(** The loop, from the page with index [i] on. *)
Lemma map_kstack_pages n : forall i s w p f t,
  fs_inv (w_frames w) -> (2 * n <= length (fs_frames (w_frames w)))%nat ->
  (PAGE_SIZE | p) -> 0 <= p -> (PAGE_SIZE | f) -> 0 <= f -> 0 <= i ->
  p + PAGE_SIZE * (i + Z.of_nat n) <= 2 ^ 39 -> f + PAGE_SIZE * (i + Z.of_nat n) <= 2 ^ 52 ->
  ts_p4 (w_tables w) (as_root s) 0 = Some t ->
  (forall j, (j < n)%nat -> ts_pages (w_tables w) t !! (p + PAGE_SIZE * i + PAGE_SIZE * Z.of_nat j) = None /\
     ts_gibs (w_tables w) t !! gib_base (p + PAGE_SIZE * i + PAGE_SIZE * Z.of_nat j) = None) ->
  exists s' w', foldM (map_kstack_page frame_alloc_n p f) (s, w) (frame_list (p + PAGE_SIZE * i) n) = Done (s', w') /\
    as_root s' = as_root s /\ w_mem w' = w_mem w /\ kept_below (2 * n) t w w' /\
    pages_mapped (ts_pages (w_tables w) t) (ts_pages (w_tables w') t) (p + PAGE_SIZE * i) n
      (fun j => (f + PAGE_SIZE * (i + Z.of_nat j), kstack_user_flags)).
Proof.
  induction n as [|n IH]; intros i s w p f t Hinv Hl Hal Hp0 Hfal Hf0 Hi Hp Hf Ht Hfree; cbn [stride foldM].
  { exists s, w. do 3 (split; [done|]). split; [|split; [intros j Hj; lia|done]]. split; try done. by exists 0%nat. }
  destruct (Hfree 0%nat ltac:(lia)) as [Hn0 Hg0]. rewrite Z.mul_0_r, Z.add_0_r in Hn0, Hg0.
  set (p1 := p + PAGE_SIZE * i) in *.
  assert (Hal1 : (PAGE_SIZE | p1)) by (unfold p1; auto with pages).
  destruct (low_page_p4 p1) as [Hpp Hpb]; [unfold p1; page_lia|].
  assert (Hfal1 : (PAGE_SIZE | f + i * PAGE_SIZE)) by (auto with pages).
  destruct (as_map_to_present p1 (f + i * PAGE_SIZE) kstack_user_flags s w t)
    as (k & T1 & a2 & Hm & Hk & HP & HG & HB & Hf2 & Hi2); rewrite ?Hpp, ?Hpb; try done; [lia|].
  rewrite Hpb in HG. set (s1 := set_pte_frames _ s) in Hm. set (w1 := set_tables T1 _) in Hm.
  assert (Hstep : map_kstack_page frame_alloc_n p f (s, w) p1 = Done (s1, w1)).
  { unfold map_kstack_page, p1. replace (p + PAGE_SIZE * i - p) with (i * PAGE_SIZE) by lia.
    rewrite Z.div_mul by done. rewrite frame_add_ok, Done_bind by page_lia. exact Hm. }
  rewrite Hstep, Done_bind.
  assert (Hnext : p1 + PAGE_SIZE = p + PAGE_SIZE * (i + 1)) by (unfold p1; lia).
  destruct (IH (i + 1) s1 w1 p f t) as (s' & w' & Hfold & Hroot & Hmem & [HP' HB' HO' Hi' (k' & Hk' & Hf')] & Hpm);
    rewrite <- ?Hnext; try done; try lia.
  { simpl. rewrite Hf2, length_drop. lia. }
  { simpl. by rewrite HP. }
  { intros j Hj. destruct (Hfree (S j) ltac:(lia)) as [Hn1 Hg1].
    replace (p1 + PAGE_SIZE + PAGE_SIZE * Z.of_nat j) with (p1 + PAGE_SIZE * Z.of_nat (S j)) by page_lia.
    simpl. rewrite HB, HG, decide_True by done. split; [|done]. rewrite lookup_insert_ne by page_lia. done. }
  rewrite <- Hnext in Hfold, Hpm. simpl in HP', HB', HO', Hf'. exists s', w'. split; [exact Hfold|].
  split; [done|]. split; [done|]. split.
  { split; [intros; by rewrite HP', HP|intros; by rewrite HB', HB| |done|].
    - intros t' Ht'. by rewrite HO', HG, decide_False.
    - exists (k + k')%nat. split; [lia|]. by rewrite Hf', Hf2, drop_drop. }
  eapply pages_mapped_S; [|eapply pages_mapped_ext; [|exact Hpm]].
  - simpl. rewrite HG, decide_True by done. f_equal. f_equal. lia.
  - intros j. cbn beta. f_equal. lia.
Qed.

(** A new address space shares the kernel's level-4 entry 0. *)
Lemma locked_space_low kroot t0 w :
  fs_inv (w_frames w) -> (8 <= length (fs_frames (w_frames w)))%nat ->
  kroot ∉ fs_frames (w_frames w) -> t0 ∉ fs_frames (w_frames w) -> ts_p4 (w_tables w) kroot 0 = Some t0 ->
  exists s w', locked_addrsp_new (frame_alloc_n 1) kroot 0x1000 w = Done (s, w') /\
    as_root s ∈ fs_frames (w_frames w) /\
    ts_p4 (w_tables w') (as_root s) 0 = Some t0 /\
    (forall i, i ∉ shared_entries -> ts_p4 (w_tables w') (as_root s) i = None) /\
    (forall i, ts_p4 (w_tables w') kroot i = ts_p4 (w_tables w) kroot i) /\
    (forall t, t ∉ fs_frames (w_frames w) ->
       ts_pages (w_tables w') t = ts_pages (w_tables w) t /\ ts_gibs (w_tables w') t = ts_gibs (w_tables w) t) /\
    fs_inv (w_frames w') /\ w_mem w' = w_mem w /\
    exists k, (k <= 8)%nat /\ fs_frames (w_frames w') = drop k (fs_frames (w_frames w)).
Proof.
  intros Hinv Hl Hk Ht0 Hp4. destruct (fs_frames (w_frames w)) as [|f0 [|f1 [|f2 [|t l]]]] eqn:Hfr;
    try (simpl in Hl; lia).
  destruct (addrsp_new_ok 0x1000 w f0 f1 f2 t l) as (s & w1 & Hnew & [Hr _ _ _ _ HP _ _ Ho Hi Hrest Hm]);
    [done|done|simpl in Hl; lia|by exists 1|done|done|].
  assert (Hne : kroot <> as_root s) by (rewrite Hr; intros ->; apply Hk; left).
  destruct (setup_kernel_low kroot s w1 Hne) as (Hlow & Hpg & Hgb & Hroots).
  exists s, (setup_kernel kroot s w1). unfold locked_addrsp_new. rewrite Hnew.
  assert (Hk0 : forall i, ts_p4 (w_tables w1) kroot i = ts_p4 (w_tables w) kroot i).
  { intros i. rewrite HP, decide_False by (intros ->; apply Hk; left). done. }
  split; [done|]. rewrite Hfr in Ho, Hrest. split; [rewrite Hr; left|]. split; [by rewrite Hlow, Hk0|].
  split; [|split; [|split]]; [..|done].
  - intros i Hni. rewrite setup_kernel_own, HP, decide_True, decide_False by (done || intros ->; apply Hni; left). done.
  - intros i. by rewrite Hroots.
  - intros t' Ht'. rewrite Hpg, Hgb. by apply Ho.
Qed.

(** What a spawn needs: a run of 64 frames, more frames for page tables, a new
    id, the kernel's level-3 table [t0] behind entry 0. *)
Record spawn_supply (k : Kernel T A) (stack t0 id : Z) (al : ContextIdAllocator) (a : A) : Prop := {
  sp_alloc : frame_alloc_n KSTACK_PAGES (w_frames (k_world k)) = Done (Some stack, a);
  sp_inv : fs_inv a;
  sp_frames : (136 <= length (fs_frames a))%nat;
  sp_stack : (PAGE_SIZE | stack) /\ 0 <= stack /\ stack + KSTACK_TOP < 2 ^ 52;
  sp_id : id_alloc (id_allocator (k_storage k)) = Done (id, al);
  sp_new : st_map (k_storage k) !! id = None;
  sp_other : id <> context_id k;
  sp_root : k_root k ∉ fs_frames a;
  sp_t0 : t0 ∉ fs_frames a;
  sp_p4 : ts_p4 (w_tables (k_world k)) (k_root k) 0 = Some t0
}.

(** The new context. *)
Definition spawned_context (id stack : Z) (space : nat) : Context :=
  mkContext id false None false (Some (stack, KSTACK_TOP)) (HardBlocked NotYetStarted) (mkSignal 0 (not64 0))
    (ctx_set_stack_pointer (stack + KSTACK_TOP - 176) ContextRegisters_new) true (Some space).

(** What a spawn leaves as it was in the tables, and of the frames; the
    address space [s] has no entries but those it shares with the kernel. *)
Record spawn_kept (n : nat) (t0 : Z) (k : Kernel T A) (a : A) w s : Prop := {
  sk_own i : i ∉ shared_entries -> ts_p4 (w_tables w) (as_root s) i = None;
  sk_p4 i : ts_p4 (w_tables w) (k_root k) i = ts_p4 (w_tables (k_world k)) (k_root k) i;
  sk_tables t : t ∉ fs_frames a -> ts_gibs (w_tables w) t = ts_gibs (w_tables (k_world k)) t /\
    (t <> t0 -> ts_pages (w_tables w) t = ts_pages (w_tables (k_world k)) t);
  sk_inv : fs_inv (w_frames w);
  sk_frames : exists m, (m <= n)%nat /\ fs_frames (w_frames w) = drop m (fs_frames a)
}.

(** [spawn] up to the mapping of the kernel stack. *)
Lemma spawn_prefix enter uc ud allowed func k stack t0 id al a :
  spawn_supply k stack t0 id al a ->
  exists s w, as_root s ∈ fs_frames a /\
    ts_p4 (w_tables w) (as_root s) 0 = Some t0 /\ ts_pages (w_tables w) t0 = ts_pages (w_tables (k_world k)) t0 /\
    spawn_kept 8 t0 k a w s /\ (128 <= length (fs_frames (w_frames w)))%nat /\
    w_mem w = mem_fill stack KSTACK_TOP 0 (w_mem (k_world k)) /\
    spawn frame_alloc_n enter uc ud allowed func k =
      ('(addrsp, w) ← map_kstack frame_alloc_n stack s w;
       '(mem, stack_top) ← prepare_stack enter uc ud allowed func stack (w_mem w);
       let k' := mkKernel (set_mem mem w) (k_spaces k ++ [addrsp])
         (mkStorage (<[id := Context_new id]> (st_map (k_storage k))) al) (k_percpu k) (k_root k) in
       Done (inl id, put_context id (mkContext id false None false (Some (stack, KSTACK_TOP))
         (HardBlocked NotYetStarted) (mkSignal 0 (not64 0)) (ctx_set_stack_pointer stack_top ContextRegisters_new)
         allowed (Some (length (k_spaces k)))) k')).
Proof.
  intros [Ha Hinv Hl Hst Hid Hnew Hne Hroot Ht0 Hp4].
  set (w0 := set_mem (mem_fill stack KSTACK_TOP 0 (w_mem (k_world k))) (set_frames a (k_world k))).
  destruct (locked_space_low (k_root k) t0 w0) as (s & w & Hnw & Hr & H1 & H2 & H3 & H4 & H5 & H6 & n & Hn & H7);
    [done|simpl; lia|done..|].
  exists s, w. split; [done|]. split; [done|]. split; [by apply H4|]. split.
  { split; try done; [|by exists n]. intros t Ht. by destruct (H4 t Ht) as [-> ->]. }
  split; [rewrite H7, length_drop; simpl; lia|]. split; [done|].
  unfold spawn. rewrite Ha, Done_bind. cbn [fst snd]. unfold new_context. rewrite Hid, Done_bind.
  unfold insert_context. cbn [fst snd st_map set_map]. rewrite Hnew, lookup_insert_eq. cbn [or_panic].
  rewrite !Done_bind. cbv beta iota. unfold storage_index. cbn [st_map set_map]. rewrite lookup_insert_eq. cbn [or_panic].
  rewrite Done_bind. cbn [k_root k_world set_storage set_world].
  change (set_mem _ (set_frames a (k_world k))) with w0. rewrite Hnw, Done_bind.
  cbv beta iota. destruct (map_kstack frame_alloc_n stack s w) as [[s' w']| |]; [|done|done].
  rewrite !Done_bind. unfold set_addr_space.
  cbn [c_addrsp Context_new c_id c_running context_id k_percpu set_spaces set_world set_storage context_switch].
  rewrite (proj2 (Z.eqb_neq _ _)) by exact Hne. cbn [negb rassert]. rewrite !Done_bind. cbv beta iota.
  cbn [k_world set_spaces set_world set_storage].
  destruct (prepare_stack _ _ _ _ _ _ _) as [[]| |]; done.
Qed.

Lemma kstack_gib j : (j < 64)%nat -> gib_base (KSTACK_VIRT + PAGE_SIZE * Z.of_nat j) = KSTACK_VIRT.
Proof.
  intros Hj. unfold gib_base. rewrite (aligned_offset (2 ^ 30)); [lia|done|by exists 510|page_lia].
Qed.

Lemma map_kstack_ok stack s w t0 :
  fs_inv (w_frames w) -> (128 <= length (fs_frames (w_frames w)))%nat ->
  (PAGE_SIZE | stack) -> 0 <= stack -> stack + KSTACK_TOP < 2 ^ 52 ->
  ts_p4 (w_tables w) (as_root s) 0 = Some t0 ->
  (forall j, (j < 64)%nat -> ts_pages (w_tables w) t0 !! (KSTACK_VIRT + PAGE_SIZE * Z.of_nat j) = None) ->
  ts_gibs (w_tables w) t0 !! KSTACK_VIRT = None ->
  exists s' w', map_kstack frame_alloc_n stack s w = Done (s', w') /\ as_root s' = as_root s /\
    w_mem w' = w_mem w /\ kept_below 128 t0 w w' /\
    pages_mapped (ts_pages (w_tables w) t0) (ts_pages (w_tables w') t0) KSTACK_VIRT 64
      (fun j => (stack + PAGE_SIZE * Z.of_nat j, kstack_user_flags)).
Proof.
  intros Hinv Hl Hal H0 Hst Ht Hfree Hg. unfold map_kstack.
  rewrite virt_addr_new_ok, Done_bind by (by left). rewrite page_containing_aligned by (done || by exists 0x7f80000).
  change KSTACK_TOP with (PAGE_SIZE * 64) in Hst. rewrite phys_addr_new_ok, Done_bind by page_lia.
  rewrite frame_containing_of_aligned, page_add_ok, Done_bind by (done || by left).
  destruct (map_kstack_pages 64 0 s w KSTACK_VIRT stack t0) as (s' & w' & Hfold & Hr & Hm & HK & Hpm);
    try done; try page_lia.
  { by exists 0x7f80000. }
  { intros j Hj. rewrite Z.mul_0_r, Z.add_0_r, kstack_gib by done. split; [by apply Hfree|done]. }
  rewrite Z.mul_0_r, Z.add_0_r in Hfold, Hpm. by exists s', w'.
Qed.

(** The first page is already mapped. *)
Lemma map_kstack_mapped stack s w t0 x :
  (PAGE_SIZE | stack) -> 0 <= stack -> stack + KSTACK_TOP < 2 ^ 52 ->
  ts_p4 (w_tables w) (as_root s) 0 = Some t0 ->
  ts_pages (w_tables w) t0 !! KSTACK_VIRT = Some x -> ts_gibs (w_tables w) t0 !! KSTACK_VIRT = None ->
  map_kstack frame_alloc_n stack s w = Panic.
Proof.
  intros Hal H0 Hst Ht Hx Hg. unfold map_kstack.
  rewrite virt_addr_new_ok, Done_bind by (by left). rewrite page_containing_aligned by (done || by exists 0x7f80000).
  change KSTACK_TOP with (PAGE_SIZE * 64) in Hst. rewrite phys_addr_new_ok, Done_bind by page_lia.
  rewrite frame_containing_of_aligned, page_add_ok, Done_bind by (done || by left).
  change (frame_list KSTACK_VIRT (Z.to_nat KSTACK_PAGES)) with
    (KSTACK_VIRT :: frame_list (KSTACK_VIRT + PAGE_SIZE) 63). cbn [foldM].
  assert (Hstep : map_kstack_page frame_alloc_n KSTACK_VIRT stack (s, w) KSTACK_VIRT = Panic); [|by rewrite Hstep].
  unfold map_kstack_page. rewrite Z.sub_diag, Z.div_0_l, frame_add_ok, Done_bind by page_lia.
  unfold raw_map_to, as_map_to. cbn [fst snd]. destruct (low_page_p4 KSTACK_VIRT) as [Hp Hb]; [done|].
  erewrite ts_map_to_mapped; [done| | |]; rewrite ?Hp, ?Hb; try done.
Qed.

(** [k'] is [k] with a new user context: the storage has one context more, not
    yet started, on the stack [stack] of 64 pages.  The top of the stack holds,
    from the saved stack pointer up, the function to call, the entry to user
    mode, and the frame user mode starts with; the pages of the stack are
    mapped in the new address space, which shares the table [t0] with the
    kernel. *)
Record user_spawned (enter cs ss func : Z) (k : Kernel T A) (stack t0 id : Z) (k' : Kernel T A)
    (s : UserAddrSpace) : Prop := {
  us_spaces : k_spaces k' = k_spaces k ++ [s];
  us_percpu : k_percpu k' = k_percpu k;
  us_root : k_root k' = k_root k;
  us_map : st_map (k_storage k') =
    <[id := spawned_context id stack (length (k_spaces k))]> (st_map (k_storage k));
  us_func : load64 (w_mem (k_world k')) (stack + KSTACK_TOP - 176) = func;
  us_enter : load64 (w_mem (k_world k')) (stack + KSTACK_TOP - 168) = enter;
  us_frame : read_stack (w_mem (k_world k')) (stack + KSTACK_TOP - 160) = new_frame cs ss;
  us_byte : 0 <= w_mem (k_world k') (stack + KSTACK_TOP - 160 + 8 * 17) < 256;
  us_mem x : x < stack \/ stack + KSTACK_TOP <= x -> w_mem (k_world k') x = w_mem (k_world k) x;
  us_shared : ts_p4 (w_tables (k_world k')) (as_root s) 0 = Some t0;
  us_kernel : ts_p4 (w_tables (k_world k')) (k_root k) 0 = Some t0;
  us_gibs : ts_gibs (w_tables (k_world k')) t0 = ts_gibs (w_tables (k_world k)) t0;
  us_pages j : (j < 64)%nat ->
    ts_pages (w_tables (k_world k')) t0 !! (KSTACK_VIRT + PAGE_SIZE * Z.of_nat j) =
      Some (stack + PAGE_SIZE * Z.of_nat j, kstack_user_flags)
}.

(** The pages from 0x7f80000000 on are free below the table [t0]. *)
Definition kstack_free (t : T) (t0 : Z) : Prop :=
  (forall j, (j < 64)%nat -> ts_pages t t0 !! (KSTACK_VIRT + PAGE_SIZE * Z.of_nat j) = None) /\
  ts_gibs t t0 !! KSTACK_VIRT = None.

Lemma spawn_user_full enter cs ss func k stack t0 id al a :
  spawn_supply k stack t0 id al a ->
  0 <= enter < 2 ^ 64 -> 0 <= func < 2 ^ 64 -> 0 <= cs < 2 ^ 64 -> 0 <= ss < 2 ^ 64 ->
  kstack_free (w_tables (k_world k)) t0 ->
  exists k' s, spawn frame_alloc_n enter (Some cs) (Some ss) true func k = Done (inl id, k') /\
    user_spawned enter cs ss func k stack t0 id k' s /\ spawn_kept 136 t0 k a (k_world k') s.
Proof.
  intros Hsup He Hf Hc Hs [Hfree Hg]. pose proof (sp_stack _ _ _ _ _ _ Hsup) as (Hal & H0 & Hst).
  destruct (spawn_prefix enter (Some cs) (Some ss) true func k stack t0 id al a Hsup)
    as (s & w & _ & Hp & Hpg & [Hown Hk Hgb Hinv (m & Hm0 & Hfm)] & Hl & Hm & ->).
  destruct (Hgb t0 (sp_t0 _ _ _ _ _ _ Hsup)) as [Hgb0 _].
  destruct (map_kstack_ok stack s w t0) as (s' & w' & -> & Hr & Hm' & [HP HB HO Hi' (m' & Hm1 & Hf')] & Hpm);
    rewrite ?Hpg, ?Hgb0; try done.
  destruct (prepare_stack_user enter cs ss func stack (w_mem w') He Hf Hc Hs)
    as (mem & Hprep & M1 & M2 & M3 & M4 & M5).
  rewrite Done_bind. cbv beta iota. rewrite Hprep, Done_bind. cbv beta iota zeta.
  eexists _, s'. split; [done|]. split.
  2: { split; cbn [put_context set_storage k_world set_mem w_tables w_frames]; rewrite ?Hr.
       - intros i Hi. rewrite HP. by apply Hown.
       - intros i. by rewrite HP.
       - intros t Ht. destruct (Hgb t Ht) as [K1 K2]. rewrite HB. split; [done|]. intros Hne. by rewrite HO, K2.
       - done.
       - exists (m + m')%nat. split; [lia|]. by rewrite Hf', Hfm, drop_drop. }
  split; cbn [k_spaces put_context set_storage k_percpu k_storage st_map set_map k_world w_mem set_mem w_tables];
    try done.
  - by rewrite insert_insert_eq.
  - intros x Hx. change KSTACK_TOP with (PAGE_SIZE * 64) in *.
    rewrite M5 by page_lia. rewrite Hm', Hm. apply mem_fill_outside. exact Hx.
  - by rewrite Hr, HP.
  - rewrite HP, Hk. apply (sp_p4 _ _ _ _ _ _ Hsup).
  - by rewrite HB.
  - apply Hpm.
Qed.

Lemma spawn_user_ok enter cs ss func k stack t0 id al a :
  spawn_supply k stack t0 id al a ->
  0 <= enter < 2 ^ 64 -> 0 <= func < 2 ^ 64 -> 0 <= cs < 2 ^ 64 -> 0 <= ss < 2 ^ 64 ->
  kstack_free (w_tables (k_world k)) t0 ->
  exists k' s, spawn frame_alloc_n enter (Some cs) (Some ss) true func k = Done (inl id, k') /\
    user_spawned enter cs ss func k stack t0 id k' s.
Proof.
  intros H1 H2 H3 H4 H5 H6. destruct (spawn_user_full enter cs ss func k stack t0 id al a) as (k' & s & E & Hu & _); [done..|].
  by exists k', s.
Qed.

(** C27. Spawning a user context succeeds when there are frames to spare and
    the pages from 0x7f80000000 on are free below the kernel's level-4 entry 0:
    the storage gets one new context, not yet started, whose stack and address
    space are prepared to enter user mode. *)
Theorem spawn_user_context enter cs ss func k stack t0 id al a :
  spawn_supply k stack t0 id al a ->
  0 <= enter < 2 ^ 64 -> 0 <= func < 2 ^ 64 -> 0 <= cs < 2 ^ 64 -> 0 <= ss < 2 ^ 64 ->
  kstack_free (w_tables (k_world k)) t0 ->
  exists k' s, spawn frame_alloc_n enter (Some cs) (Some ss) true func k = Done (inl id, k') /\
    user_spawned enter cs ss func k stack t0 id k' s.
Proof. apply spawn_user_ok. Qed.

(** C31. The stack is mapped at the same address for every context, below a
    table all address spaces share: after one user context was spawned,
    spawning another panics. *)
Theorem second_spawn_panics enter cs ss func k stack t0 id al a k' allowed func2 stack2 id2 al2 a2 :
  spawn_supply k stack t0 id al a ->
  0 <= enter < 2 ^ 64 -> 0 <= func < 2 ^ 64 -> 0 <= cs < 2 ^ 64 -> 0 <= ss < 2 ^ 64 ->
  kstack_free (w_tables (k_world k)) t0 ->
  spawn frame_alloc_n enter (Some cs) (Some ss) true func k = Done (inl id, k') ->
  spawn_supply k' stack2 t0 id2 al2 a2 ->
  spawn frame_alloc_n enter (Some cs) (Some ss) allowed func2 k' = Panic.
Proof.
  intros Hsup He Hf Hc Hs [Hfree Hg] Hsp Hsup2.
  destruct (spawn_user_ok enter cs ss func k stack t0 id al a) as (k1 & s & Hk1 & Hus); [done..|].
  rewrite Hsp in Hk1. injection Hk1 as <-. pose proof (us_pages _ _ _ _ _ _ _ _ _ _ Hus 0%nat ltac:(lia)) as Hmap.
  rewrite Z.mul_0_r, Z.add_0_r in Hmap. rewrite <- (us_gibs _ _ _ _ _ _ _ _ _ _ Hus) in Hg.
  destruct (sp_stack _ _ _ _ _ _ Hsup2) as (Hal & H0 & Hst).
  destruct (spawn_prefix enter (Some cs) (Some ss) allowed func2 k' stack2 t0 id2 al2 a2 Hsup2)
    as (s2 & w & _ & Hp & Hpg & [_ _ Hgb _ _] & _ & _ & ->).
  rewrite (map_kstack_mapped stack2 s2 w t0 (stack + PAGE_SIZE * Z.of_nat 0, kstack_user_flags)); try done.
  - by rewrite Hpg.
  - by rewrite (proj1 (Hgb t0 (sp_t0 _ _ _ _ _ _ Hsup2))).
Qed.
End Spawn.

(** ** Instances *)

#[local] Existing Instance x86_virt_model.
#[local] Existing Instance x86_virt_model_spec.
#[local] Existing Instance x86_addr_model.
#[local] Existing Instance x86_addr_model_spec.
#[local] Existing Instance pt_flags_model.
#[local] Existing Instance gmap_store_ops.
#[local] Existing Instance gmap_store_spec.

(** Runs of frames of a list. *)
Definition list_source_n (n : Z) : frame_source (list Z) := fun l =>
  Done (if (Z.to_nat n <=? length l)%nat then List.head l else None, drop (Z.to_nat n) l).

#[local] Instance list_source_n_spec : FrameSourceSpec (list_source_n 1).
Proof.
  refine {| fs_inv l := Forall (fun f => (PAGE_SIZE | f)) l /\
      StronglySorted (fun f g => f + PAGE_SIZE <= g) l; fs_frames l := l |}.
  - intros l [Ha Hs] Hne. exists (tail l). destruct l; [done|]. split; [done|]. split; [done|].
    split; [by inversion Ha|by inversion Hs].
  - intros l _ ->. by eexists.
  - by intros l [].
  - by intros l [].
Defined.

(** A kernel with 600 free frames whose current context is 0. *)
Definition sample_kernel : Kernel gmap_store (list Z) :=
  mkKernel (mkWorld (mkStore {[ (0x1000, 0) := 0x2000 ]} ∅ ∅) (frame_list 0x200000 600) (fun _ => 0) 0)
    [] (storage_new 1) (mkPercpu 0 (mkSwitchPercpu None 0 0 0 false) false) 0x1000.

Lemma sample_supply :
  spawn_supply (frame_alloc_n := list_source_n) sample_kernel 0x200000 0x2000 2 (mkIdAlloc 2 [])
    (frame_list 0x240000 536).
Proof.
  split; try done.
  - split; [|by apply stride_sorted]. apply Forall_forall. intros f Hf.
    apply elem_of_stride in Hf as (i & _ & ->). apply Z.divide_add_r; [by exists 576|apply Z.divide_factor_l].
  - cbn [fs_frames list_source_n_spec]. rewrite length_stride. lia.
  - split; [by exists 512|done].
  - by apply (bool_decide_unpack _); vm_compute.
  - by apply (bool_decide_unpack _); vm_compute.
Qed.

Lemma spawn_user_context_witness :
  exists k' s, spawn list_source_n 0xffff2000 (Some CS_SEL) (Some SS_SEL) true 0xffff3000 sample_kernel =
      Done (inl 2, k') /\
    user_spawned 0xffff2000 CS_SEL SS_SEL 0xffff3000 sample_kernel 0x200000 0x2000 2 k' s.
Proof.
  apply (spawn_user_context 0xffff2000 CS_SEL SS_SEL 0xffff3000 sample_kernel 0x200000 0x2000 2
    (mkIdAlloc 2 []) (frame_list 0x240000 536)); [apply sample_supply|done..].
Defined.

(** The kernel after that. *)
Definition sample_kernel2 : Kernel gmap_store (list Z) :=
  match spawn list_source_n 0xffff2000 (Some CS_SEL) (Some SS_SEL) true 0xffff3000 sample_kernel with
  | Done (_, k) => k
  | _ => sample_kernel
  end.

Lemma sample_spawn :
  spawn list_source_n 0xffff2000 (Some CS_SEL) (Some SS_SEL) true 0xffff3000 sample_kernel =
    Done (inl 2, sample_kernel2).
Proof.
  assert (H : match spawn list_source_n 0xffff2000 (Some CS_SEL) (Some SS_SEL) true 0xffff3000 sample_kernel with
    | Done (inl i, _) => i =? 2 | _ => false end = true) by (by vm_compute).
  unfold sample_kernel2. destruct (spawn _ _ _ _ _ _ _) as [[[i|e] k]| |]; [|done..].
  by apply Z.eqb_eq in H as ->.
Qed.

Lemma sample_supply2 :
  spawn_supply (frame_alloc_n := list_source_n) sample_kernel2 0x244000 0x2000 3 (mkIdAlloc 3 [])
    (frame_list 0x284000 468).
Proof.
  split.
  - by vm_compute.
  - split; [|by apply stride_sorted]. apply Forall_forall. intros f Hf.
    apply elem_of_stride in Hf as (i & _ & ->). apply Z.divide_add_r; [by exists 644|apply Z.divide_factor_l].
  - cbn [fs_frames list_source_n_spec]. rewrite length_stride. lia.
  - split; [by exists 580|done].
  - by vm_compute.
  - by vm_compute.
  - by vm_compute.
  - by apply (bool_decide_unpack _); vm_compute.
  - by apply (bool_decide_unpack _); vm_compute.
  - by vm_compute.
Qed.

Lemma second_spawn_panics_witness :
  spawn list_source_n 0xffff2000 (Some CS_SEL) (Some SS_SEL) true 0xffff3000 sample_kernel2 = Panic.
Proof.
  apply (second_spawn_panics 0xffff2000 CS_SEL SS_SEL 0xffff3000 sample_kernel 0x200000 0x2000 2
    (mkIdAlloc 2 []) (frame_list 0x240000 536) sample_kernel2 true 0xffff3000 0x244000 3
    (mkIdAlloc 3 []) (frame_list 0x284000 468)); [apply sample_supply|done..|apply sample_spawn|apply sample_supply2].
Defined.
