(* ===== verification/Scheduler.v ===== *)
(** * Switching between contexts

    [kernel/src/context/switch.rs]: the choice of the next context, the change
    of the processor's state, and the hook that runs on the new stack.  A
    switch ends in another context, so the model's result is the state at the
    [ret] of [post_switch_context]. *)

From S2P Require Import Prelude Platform Shared Vdso Paging KPaging Machine Interrupts Descriptors UserAddrSpace Context.

(** The processor: the kernel state it sees, its registers, its control region
    and [CONTEXT_SWITCH_LOCK]. *)
Record Cpu (G T A : Type) : Type := mkCpu {
  cpu_kernel : Kernel T A;
  cpu_machine : machine;
  cpu_pcr : ProcessorControlRegion G;
  switch_lock : bool
}.
Arguments mkCpu {G T A} _ _ _ _.
Arguments cpu_kernel {G T A} _.
Arguments cpu_machine {G T A} _.
Arguments cpu_pcr {G T A} _.
Arguments switch_lock {G T A} _.

Inductive SwitchResult : Type :=
| Switched (signal : bool)
| AllContextsIdle.

(** [Ok(signal)] is [Some signal]; the context may be unblocked on the way. *)
Definition upgrade_runnable (c : Context) (cpu_id : Z) : option bool * Context :=
  if c_running c then (None, c)
  else if negb (match c_cpu_id c with None => true | Some x => x =? cpu_id end) then (None, c)
  else
    let signal_deliverable := negb (deliverable (c_signal c) =? 0) in
    let c := if is_soft_blocked (c_status c) && signal_deliverable then (unblock_no_ipi c).2 else c in
    if is_runnable (c_status c) then (Some signal_deliverable, c) else (None, c).

(** The contexts in the order they are tried. *)
Definition candidates (prev_id idle_id : Z) (s : ContextStorage) : list (Z * Context) :=
  storage_range (fun i => prev_id <? i) s ++ storage_range (fun i => i <? prev_id) s ++
  storage_range (fun i => (idle_id <=? i) && (i <? idle_id)) s.

(** The loop over them: the context chosen, with the signal flag. *)
Fixpoint select (cpu_id idle_id : Z) (skip_idle : bool) (l : list (Z * Context)) : option (Z * bool * Context) :=
  match l with
  | [] => None
  | (cid, ctx) :: l =>
      if (cid =? idle_id) && skip_idle then select cpu_id idle_id false l
      else match upgrade_runnable ctx cpu_id with
           | (Some signal, ctx) => Some (cid, signal, ctx)
           | (None, _) => select cpu_id idle_id skip_idle l
           end
  end.

(** ** Registers *)

(** The assembly that saves and loads one base register: [rdmsr] gives 64 bits,
    of which the low half is stored in the field. *)
Definition switch_base (msr prev_field next_field : Z) (m : machine) : Z * machine :=
  let m := exec [mov_imm RCX msr; rdmsr] m in
  let prev_field := prev_field - wrap 32 prev_field + wrap 32 (get RAX m) in
  (prev_field, exec [mov_imm RDX next_field; mov32 RAX RDX; shr_imm RDX 32; wrmsr] m).

Definition switch_bases (prev next : ContextRegisters) (m : machine) : ContextRegisters * machine :=
  let r := switch_base IA32_FS_BASE (cr_fsbase prev) (cr_fsbase next) m in
  let r' := switch_base IA32_KERNEL_GS_BASE (cr_gsbase prev) (cr_gsbase next) r.2 in
  (mkCtxRegs (cr_rflags prev) (cr_rbx prev) (cr_r12 prev) (cr_r13 prev) (cr_r14 prev) (cr_r15 prev)
     (cr_rbp prev) (cr_rsp prev) r.1 r'.1 (userspace_io_allowed prev), r'.2).

(** [switch_context_inner] up to the jump; the two structs are distinct. *)
Definition switch_context_inner (prev next : ContextRegisters) (m : machine) : ContextRegisters * machine :=
  let prev := mkCtxRegs (cr_rflags prev) (get RBX m) (get R12 m) (get R13 m) (get R14 m) (get R15 m)
    (get RBP m) (get RSP m) (cr_fsbase prev) (cr_gsbase prev) (userspace_io_allowed prev) in
  let m := set RBX (cr_rbx next) m in
  let m := set R12 (cr_r12 next) m in
  let m := set R13 (cr_r13 next) m in
  let m := set R14 (cr_r14 next) m in
  let m := set R15 (cr_r15 next) m in
  let m := set RBP (cr_rbp next) m in
  let m := set RSP (cr_rsp next) m in
  let m := pushfq m in
  let rflags := load64 (m_mem m) (get RSP m) in
  let m := set RSP (wrap 64 (get RSP m + 8)) m in
  let prev := mkCtxRegs rflags (cr_rbx prev) (cr_r12 prev) (cr_r13 prev) (cr_r14 prev) (cr_r15 prev)
    (cr_rbp prev) (cr_rsp prev) (cr_fsbase prev) (cr_gsbase prev) (userspace_io_allowed prev) in
  (prev, popfq (push_val (cr_rflags next) m)).

Section Switch.
Context {V : X86Virt} {G T A : Type}.
(** [size_of::<TaskStateSegment>()] *)
Context (tss_size : Z).

Definition set_switch (sw : ContextSwitchPercpu) (inside : bool) (k : Kernel T A) : Kernel T A :=
  set_percpu (mkPercpu (pb_cpu_id (k_percpu k)) sw inside) k.

Definition post_switch_context (c : Cpu G T A) : outcome (Cpu G T A) :=
  let k := cpu_kernel c in
  let sw := context_switch (k_percpu k) in
  let result := switch_result sw in
  let k := set_switch (mkSwitchPercpu None (pit_ticks sw) (cs_context_id sw) (cs_idle_id sw) (switch_signal sw))
    (pb_inside_syscall (k_percpu k)) k in
  let c := mkCpu k (cpu_machine c) (cpu_pcr c) false in
  match result with
  | None => Done c
  | Some (prev, next) =>
      prev_ctx ← or_panic (st_map (k_storage k) !! prev);
      next_ctx ← or_panic (st_map (k_storage k) !! next);
      let cmp := match c_addrsp prev_ctx, c_addrsp next_ctx with
                 | Some p, Some n => Nat.eqb p n
                 | None, None => true
                 | _, _ => false
                 end in
      if cmp then Done c
      else match c_addrsp next_ctx with
           | None => Done c
           | Some n =>
               s ← or_panic (k_spaces k !! n);
               Done (mkCpu (set_world (validate s (k_world k)) k) (cpu_machine c) (cpu_pcr c) false)
           end
  end.

(** The part of [switch_context] after the choice: [prev] is the current
    context, [next] the chosen one as the loop left it. *)
Definition switch_to (prev next : Context) (signal : bool) (c : Cpu G T A) : outcome (SwitchResult * Cpu G T A) :=
  let k := cpu_kernel c in
  let sw := context_switch (k_percpu k) in
  let cpu_id := pb_cpu_id (k_percpu k) in
  let prev := set_running false prev in
  let next := set_cpu_id (Some cpu_id) (set_running true next) in
  let sw := mkSwitchPercpu (Some (c_id prev, c_id next)) (pit_ticks sw) (c_id next) (cs_idle_id sw) signal in
  let prev := set_inside_syscall (pb_inside_syscall (k_percpu k)) prev in
  let inside := c_inside_syscall next in
  pcr ← (match c_kstack next with
         | Some (ptr, len) => set_tss_stack (ptr + len) (cpu_pcr c)
         | None => Done (cpu_pcr c)
         end);
  pcr ← set_userspace_io_allowed tss_size (userspace_io_allowed (c_regs next)) pcr;
  let bases := switch_bases (c_regs prev) (c_regs next) (set_memory (w_mem (k_world k)) (cpu_machine c)) in
  let r := switch_context_inner bases.1 (c_regs next) bases.2 in
  let k := put_context (c_id next) next (put_context (c_id prev) (set_ctx_regs r.1 prev) k) in
  let k := set_world (set_mem (m_mem r.2) (k_world k)) (set_switch sw inside k) in
  c ← post_switch_context (mkCpu k r.2 pcr (switch_lock c));
  Done (Switched (switch_signal (context_switch (k_percpu (cpu_kernel c)))), c).

(** [switch_context]: with the lock taken the processor spins. *)
Definition switch_context (c : Cpu G T A) : outcome (SwitchResult * Cpu G T A) :=
  let k := cpu_kernel c in
  let sw := context_switch (k_percpu k) in
  let sw := mkSwitchPercpu (switch_result sw) 0 (cs_context_id sw) (cs_idle_id sw) (switch_signal sw) in
  let k := set_switch sw (pb_inside_syscall (k_percpu k)) k in
  if switch_lock c then OutOfFuel
  else
    prev ← or_panic (current k);
    let c := mkCpu k (cpu_machine c) (cpu_pcr c) true in
    match select (pb_cpu_id (k_percpu k)) (cs_idle_id sw) false
            (candidates (c_id prev) (cs_idle_id sw) (k_storage k)) with
    | Some (_, signal, next) => switch_to prev next signal c
    | None => Done (AllContextsIdle, mkCpu k (cpu_machine c) (cpu_pcr c) false)
    end.
End Switch.

(** ** The choice *)

(** A context the processor may run. *)
Definition ready (cpu_id : Z) (c : Context) : bool :=
  negb (c_running c) && (match c_cpu_id c with None => true | Some x => x =? cpu_id end) &&
  (is_runnable (c_status c) || (is_soft_blocked (c_status c) && negb (deliverable (c_signal c) =? 0))).

Lemma upgrade_runnable_spec c cpu_id :
  upgrade_runnable c cpu_id =
    if ready cpu_id c then (Some (negb (deliverable (c_signal c) =? 0)), set_status Runnable c)
    else (None, c).
Proof.
  unfold upgrade_runnable, ready.
  destruct (c_running c); [done|]. destruct (match c_cpu_id c with None => _ | _ => _ end); [|done]. simpl.
  unfold unblock_no_ipi. destruct c as [? ? ? ? ? st ? ? ? ?]. simpl.
  destruct st; simpl; try done. by destruct (negb _).
Qed.

Lemma elem_of_iter s i c : (i, c) ∈ storage_iter s <-> st_map s !! i = Some c.
Proof.
  unfold storage_iter, ordered_ids. rewrite list_elem_of_omap. split.
  - intros (j & _ & Hj). destruct (st_map s !! j) as [c'|] eqn:E; simpl in Hj; [|done]. by injection Hj as -> ->.
  - intros Hi. exists i. split; [|by rewrite Hi].
    rewrite merge_sort_Permutation. apply list_elem_of_fmap.
    exists (i, c). split; [done|]. by apply elem_of_map_to_list.
Qed.

Lemma ordered_ids_sorted s : StronglySorted Z.le (ordered_ids s).
Proof. apply Sorted_StronglySorted; [apply _|]. apply Sorted_merge_sort. apply _. Qed.

(** The list of one half is in increasing order. *)
Lemma storage_range_sorted b s : StronglySorted (fun x y : Z * Context => x.1 <= y.1) (storage_range b s).
Proof.
  unfold storage_range, storage_iter. induction (ordered_ids_sorted s) as [|i l Hs IH Hall]; [constructor|].
  cbn [omap list_omap]. destruct (st_map s !! i) as [c|] eqn:E; simpl; [|done].
  destruct (b i); [|done]. constructor; [done|].
  apply Forall_forall. intros [j c'] Hj. apply list_elem_of_In, filter_In in Hj as [Hj _].
  apply list_elem_of_In, list_elem_of_omap in Hj as (j' & Hj' & E').
  destruct (st_map s !! j'); simpl in E'; [|done]. injection E' as -> ->.
  rewrite Forall_forall in Hall. simpl. by apply Hall.
Qed.

Lemma elem_of_range b s i c : (i, c) ∈ storage_range b s <-> st_map s !! i = Some c /\ b i = true.
Proof.
  unfold storage_range. rewrite list_elem_of_In, filter_In, <- list_elem_of_In, elem_of_iter. done.
Qed.

(** The place of an id in the turn that starts after [p]. *)
Definition turn (p i : Z) : Z := wrap 64 (i - p).

Lemma turn_above p i : fits 64 p -> fits 64 i -> p <= i -> turn p i = i - p.
Proof. unfold turn, wrap, fits. intros. apply Z.mod_small. lia. Qed.

Lemma turn_below p i : fits 64 p -> fits 64 i -> i < p -> turn p i = i - p + 2 ^ 64.
Proof.
  unfold turn, wrap, fits. intros. rewrite <- (Z_mod_plus_full _ 1). apply Z.mod_small. lia.
Qed.

Lemma turn_cases p i : fits 64 p -> fits 64 i ->
  (p <= i /\ turn p i = i - p) \/ (i < p /\ turn p i = i - p + 2 ^ 64).
Proof.
  intros. destruct (Z.le_gt_cases p i); [left|right]; (split; [done|]); [by apply turn_above|by apply turn_below].
Qed.

Definition ids_fit (s : ContextStorage) : Prop := forall i c, st_map s !! i = Some c -> fits 64 i /\ c_id c = i.

Lemma empty_range p s : storage_range (fun i => (p <=? i) && (i <? p)) s = [].
Proof.
  destruct (storage_range _ s) as [|[i c] l] eqn:E; [done|].
  assert (H : (i, c) ∈ storage_range (fun i => (p <=? i) && (i <? p)) s) by (rewrite E; left).
  apply elem_of_range in H as [_ H]. lia.
Qed.

Lemma elem_of_candidates p idle s i c :
  (i, c) ∈ candidates p idle s <-> st_map s !! i = Some c /\ i <> p.
Proof.
  unfold candidates. rewrite empty_range, app_nil_r, elem_of_app, !elem_of_range.
  split; [intros [[? ?]|[? ?]]; split; [done|lia|done|lia]|].
  intros [? ?]. destruct (Z.lt_ge_cases p i); [left|right]; split; [done|lia|done|lia].
Qed.

Lemma sorted_weaken {A} (R R' : A -> A -> Prop) l :
  (forall x y, x ∈ l -> y ∈ l -> R x y -> R' x y) -> StronglySorted R l -> StronglySorted R' l.
Proof.
  intros H Hs. induction Hs as [|x l Hs IH Hall]; constructor.
  - apply IH. intros y z ??. apply H; by right.
  - rewrite Forall_forall in Hall |- *. intros y Hy. apply H; [left|by right|by apply Hall].
Qed.

Lemma candidates_sorted p idle s : ids_fit s -> fits 64 p ->
  StronglySorted (fun x y : Z * Context => turn p x.1 <= turn p y.1) (candidates p idle s).
Proof.
  intros Hf Hp. unfold candidates. rewrite empty_range, app_nil_r.
  assert (Hin : forall b x, x ∈ storage_range b s -> fits 64 x.1 /\ b x.1 = true).
  { intros b [i c] [Hi Hb]%elem_of_range. split; [by eapply Hf|done]. }
  apply StronglySorted_app_2.
  - intros x y [Fx Bx]%Hin [Fy By]%Hin. destruct Fx, Fy.
    rewrite (turn_above p x.1), (turn_below p y.1) by (done || lia). lia.
  - eapply sorted_weaken, storage_range_sorted. intros x y [Fx Bx]%Hin [Fy By]%Hin H.
    rewrite !turn_above by (done || lia). lia.
  - eapply sorted_weaken, storage_range_sorted. intros x y [Fx Bx]%Hin [Fy By]%Hin H.
    rewrite !turn_below by (done || lia). lia.
Qed.

(** The loop stops at the first context it may run. *)
Lemma select_spec cpu idle l :
  match select cpu idle false l with
  | Some (i, signal, c') =>
      exists l1 c l2, l = l1 ++ (i, c) :: l2 /\ ready cpu c = true /\ c' = set_status Runnable c /\
        signal = negb (deliverable (c_signal c) =? 0) /\ Forall (fun x => ready cpu x.2 = false) l1
  | None => Forall (fun x => ready cpu x.2 = false) l
  end.
Proof.
  induction l as [|[i c] l IH]; cbn [select]; [constructor|].
  rewrite andb_false_r, upgrade_runnable_spec. destruct (ready cpu c) eqn:E.
  - exists [], c, l. repeat split; done || constructor.
  - destruct (select _ _ _ _) as [[[i' sg] c']|]; [|by constructor].
    destruct IH as (l1 & c0 & l2 & -> & ? & ? & ? & ?). exists ((i, c) :: l1), c0, l2.
    repeat split; try done. by constructor.
Qed.

Lemma select_first cpu idle p s : ids_fit s -> fits 64 p ->
  match select cpu idle false (candidates p idle s) with
  | Some (i, signal, c') =>
      exists c, st_map s !! i = Some c /\ i <> p /\ ready cpu c = true /\ c' = set_status Runnable c /\
        signal = negb (deliverable (c_signal c) =? 0) /\
        forall j cj, st_map s !! j = Some cj -> j <> p -> ready cpu cj = true -> turn p i <= turn p j
  | None => forall j cj, st_map s !! j = Some cj -> j <> p -> ready cpu cj = false
  end.
Proof.
  intros Hf Hp. pose proof (select_spec cpu idle (candidates p idle s)) as H.
  pose proof (candidates_sorted p idle s Hf Hp) as Hs.
  destruct (select _ _ _ _) as [[[i sg] c']|].
  - destruct H as (l1 & c & l2 & E & Hc & -> & -> & Hl1).
    assert (Hi : (i, c) ∈ candidates p idle s) by (rewrite E; set_solver).
    apply elem_of_candidates in Hi as [Hi Hne]. exists c. repeat split; try done.
    intros j cj Hj Hjp Hr.
    assert (Hin : (j, cj) ∈ candidates p idle s) by by apply elem_of_candidates.
    rewrite E in Hin, Hs. apply StronglySorted_app_1_r in Hs.
    apply elem_of_app in Hin as [Hin|[Hin|Hin]%elem_of_cons].
    + rewrite Forall_forall in Hl1. apply Hl1 in Hin. simpl in Hin. congruence.
    + injection Hin as -> ->. lia.
    + apply StronglySorted_inv in Hs as [_ Hs]. rewrite Forall_forall in Hs. by apply (Hs _ Hin).
  - intros j cj Hj Hne. rewrite Forall_forall in H. apply (H (j, cj)). by apply elem_of_candidates.
Qed.

(** ** The registers of a context *)

Lemma put_flag_fits i b f : 0 <= i < 64 -> fits 64 f -> fits 64 (put_flag i b f).
Proof.
  intros Hi Hf. unfold put_flag. assert (Hn : 0 <= 2 ^ i) by (apply Z.pow_nonneg; lia).
  assert (Hb : forall v, 0 <= v -> (forall j, 64 <= j -> Z.testbit v j = false) -> fits 64 v).
  { intros v Hv Hj. assert (Hm : v = v mod 2 ^ 64).
    { apply Z.bits_inj'. intros j Hj'. destruct (Z.lt_ge_cases j 64).
      - by rewrite Z.mod_pow2_bits_low.
      - rewrite Z.mod_pow2_bits_high by lia. by apply Hj. }
    unfold fits. rewrite Hm. apply Z.mod_pos_bound. done. }
  apply Hb.
  - destruct b; unfold Z.setbit, Z.clearbit; rewrite ?Z.lor_nonneg, ?Z.ldiff_nonneg, ?Z.shiftl_1_l; unfold fits in Hf; lia.
  - intros j Hj. change (Z.testbit (put_flag i b f) j = false).
    rewrite testbit_put_flag, decide_False by lia. by apply (testbit_above 64).
Qed.

(** What an instruction sequence that is part of a switch leaves alone. *)
Record quiet (touched : list reg) (m m' : machine) : Prop := {
  q_regs r : r ∉ touched -> get r m' = get r m;
  q_mem : m_mem m' = m_mem m;
  q_rip : m_rip m' = m_rip m;
  q_cs : m_cs m' = m_cs m;
  q_ss : m_ss m' = m_ss m;
  q_gdtr : m_gdtr m' = m_gdtr m;
  q_if : Z.testbit (m_rflags m') IF = Z.testbit (m_rflags m) IF;
  q_flags : fits 64 (m_rflags m) -> fits 64 (m_rflags m')
}.

Lemma quiet_trans l m1 m2 m3 : quiet l m1 m2 -> quiet l m2 m3 -> quiet l m1 m3.
Proof.
  intros [A1 A2 A3 A4 A5 A6 A7 A8] [B1 B2 B3 B4 B5 B6 B7 B8].
  split; [|etrans; eassumption..|auto]. intros r Hr. by rewrite B1, A1.
Qed.

(** [v] with its low half replaced. *)
Definition low_half_of (old v : Z) : Z := old - wrap 32 old + wrap 32 v.

Lemma get_set_rflags r f m : get r (set_rflags f m) = get r m.
Proof. done. Qed.

(** The second half of the sequence writes the 64-bit value. *)
Lemma load_base_spec v m : fits 64 v -> fits 32 (get RCX m) ->
  let m' := exec [mov_imm RDX v; mov32 RAX RDX; shr_imm RDX 32; wrmsr] m in
  (forall j, m_msr m' j = if decide (j = get RCX m) then v else m_msr m j) /\ quiet [RAX; RCX; RDX] m m'.
Proof.
  intros [V1 V2] Hc. cbv zeta. unfold exec, wrmsr, shr_imm, mov32, mov_imm. cbn [fold_left].
  split; [intros j; unfold set_msr; cbn [m_msr]|split].
  - rewrite !get_set_rflags, (get_set_ne RCX), (get_set_ne RCX), (get_set_ne RCX) by done.
    rewrite (get_set_ne RAX), !get_set_eq, (get_set_ne RDX), get_set_eq by done.
    assert (E : wrap 32 (Z.shiftr v 32) * 2 ^ 32 + wrap 32 (wrap 32 v) = v).
    { unfold wrap. rewrite Z.mod_mod, Z.shiftr_div_pow2, (Z.mod_small (v / 2 ^ 32)) by
        (try split; lia || (apply Z.div_pos; lia) || (apply Z.div_lt_upper_bound; lia)).
      rewrite Z.mul_comm. symmetry. apply Z.div_mod. lia. }
    rewrite E. unfold wrap. by rewrite Z.mod_small by done.
  - intros r Hr. unfold get, set_msr. cbn [m_reg].
    change (get r (set RDX (get RDX (set RAX (wrap 32 (get RDX (set RDX v m))) (set RDX v m)) ≫ 32)
      (set RAX (wrap 32 (get RDX (set RDX v m))) (set RDX v m))) = get r m).
    rewrite !get_set_ne by set_solver. done.
  - done.
  - done.
  - done.
  - done.
  - done.
  - unfold set_msr, set_rflags, result_flags. cbn [m_rflags].
    by rewrite !testbit_put_flag, !decide_False by done.
  - intros Hf. unfold set_msr, set_rflags, result_flags. cbn [m_rflags].
    by repeat apply put_flag_fits.
Qed.

Lemma switch_base_spec msr pf nf m : fits 32 msr -> fits 64 nf ->
  let r := switch_base msr pf nf m in
  r.1 = low_half_of pf (m_msr m msr) /\
  (forall j, m_msr r.2 j = if decide (j = msr) then nf else m_msr m j) /\
  quiet [RAX; RCX; RDX] m r.2.
Proof.
  intros Hm Hn. assert (Hw : wrap 32 msr = msr) by (by apply Z.mod_small).
  set (m1 := exec [mov_imm RCX msr; rdmsr] m).
  assert (E1 : get RCX m1 = msr).
  { subst m1. unfold exec, rdmsr, mov_imm. cbn [fold_left]. rewrite !get_set_ne by done. apply get_set_eq. }
  assert (E2 : get RAX m1 = wrap 32 (m_msr m msr)).
  { subst m1. unfold exec, rdmsr, mov_imm. cbn [fold_left].
    by rewrite get_set_ne, get_set_eq, get_set_eq, Hw by done. }
  assert (E3 : quiet [RAX; RCX; RDX] m m1 /\ m_msr m1 = m_msr m).
  { split; [split|]; try done. intros r Hr. subst m1. unfold exec, rdmsr, mov_imm. cbn [fold_left].
    by rewrite !get_set_ne by set_solver. }
  destruct E3 as [E3 E4]. destruct (load_base_spec nf m1 Hn) as [K1 K2]; [by rewrite E1|].
  unfold switch_base. fold m1. cbv zeta. cbn [fst snd]. split; [|split].
  - rewrite E2. unfold low_half_of, wrap. by rewrite Z.mod_mod.
  - intros j. by rewrite K1, E1, E4.
  - by eapply quiet_trans.
Qed.

Lemma switch_bases_spec prev next m : fits 64 (cr_fsbase next) -> fits 64 (cr_gsbase next) ->
  let r := switch_bases prev next m in
  r.1 = mkCtxRegs (cr_rflags prev) (cr_rbx prev) (cr_r12 prev) (cr_r13 prev) (cr_r14 prev) (cr_r15 prev)
     (cr_rbp prev) (cr_rsp prev) (low_half_of (cr_fsbase prev) (m_msr m IA32_FS_BASE))
     (low_half_of (cr_gsbase prev) (m_msr m IA32_KERNEL_GS_BASE)) (userspace_io_allowed prev) /\
  (forall j, m_msr r.2 j = if decide (j = IA32_KERNEL_GS_BASE) then cr_gsbase next
     else if decide (j = IA32_FS_BASE) then cr_fsbase next else m_msr m j) /\
  quiet [RAX; RCX; RDX] m r.2.
Proof.
  intros Hf Hg. cbv zeta. unfold switch_bases.
  generalize (switch_base_spec IA32_FS_BASE (cr_fsbase prev) (cr_fsbase next) m ltac:(done) Hf).
  cbv zeta. generalize (switch_base IA32_FS_BASE (cr_fsbase prev) (cr_fsbase next) m).
  intros [f m1] (A1 & A2 & A3). cbn [fst snd] in *.
  generalize (switch_base_spec IA32_KERNEL_GS_BASE (cr_gsbase prev) (cr_gsbase next) m1 ltac:(done) Hg).
  cbv zeta. generalize (switch_base IA32_KERNEL_GS_BASE (cr_gsbase prev) (cr_gsbase next) m1).
  intros [g m2] (B1 & B2 & B3). cbn [fst snd] in *. split; [|split].
  - rewrite A1, B1, A2, decide_False by done. done.
  - intros j. by rewrite B2, A2.
  - by eapply quiet_trans.
Qed.

(** The registers of [next] are in the machine; one word below its stack
    pointer is overwritten. *)
Record loaded (next : ContextRegisters) (m m' : machine) : Prop := {
  ld_rbx : get RBX m' = cr_rbx next;
  ld_r12 : get R12 m' = cr_r12 next;
  ld_r13 : get R13 m' = cr_r13 next;
  ld_r14 : get R14 m' = cr_r14 next;
  ld_r15 : get R15 m' = cr_r15 next;
  ld_rbp : get RBP m' = cr_rbp next;
  ld_rsp : get RSP m' = cr_rsp next;
  ld_rflags : m_rflags m' = cr_rflags next;
  ld_mem x : x < cr_rsp next - 8 \/ cr_rsp next <= x -> m_mem m' x = m_mem m x;
  ld_msr : m_msr m' = m_msr m;
  ld_rip : m_rip m' = m_rip m;
  ld_cs : m_cs m' = m_cs m;
  ld_ss : m_ss m' = m_ss m;
  ld_gdtr : m_gdtr m' = m_gdtr m
}.

Definition saved_regs (prev : ContextRegisters) (m : machine) : ContextRegisters :=
  mkCtxRegs (m_rflags m) (get RBX m) (get R12 m) (get R13 m) (get R14 m) (get R15 m) (get RBP m) (get RSP m)
    (cr_fsbase prev) (cr_gsbase prev) (userspace_io_allowed prev).

Lemma switch_context_inner_spec prev next m :
  8 <= cr_rsp next < 2 ^ 64 -> fits 64 (cr_rflags next) -> fits 64 (m_rflags m) ->
  let r := switch_context_inner prev next m in r.1 = saved_regs prev m /\ loaded next m r.2.
Proof.
  intros Hsp Hf Hm. cbv zeta. unfold switch_context_inner.
  set (m1 := set RBP (cr_rbp next) _).
  assert (H1 : same_control m m1 /\ m_mem m1 = m_mem m /\ get RBX m1 = cr_rbx next /\ get R12 m1 = cr_r12 next /\
    get R13 m1 = cr_r13 next /\ get R14 m1 = cr_r14 next /\ get R15 m1 = cr_r15 next /\ get RBP m1 = cr_rbp next).
  { subst m1. repeat split. }
  generalize dependent m1. intros m1 ([C1 C2 C3 C4 C5 C6] & M & R1 & R2 & R3 & R4 & R5 & R6).
  set (m2 := set RSP (cr_rsp next) m1).
  assert (S2 : get RSP m2 = cr_rsp next) by apply get_set_eq.
  pose proof (push_val_after (m_rflags m2) m2 ltac:(by rewrite S2)) as [P1 P2 P3 [P4 P5 P6 P7 P8 P9]].
  unfold pushfq. generalize dependent (push_val (m_rflags m2) m2). intros m3 P1 P2 P3 P4 P5 P6 P7 P8 P9.
  simpl length in P1. rewrite S2 in P1, P3.
  assert (S3 : wrap 64 (get RSP m3 + 8) = cr_rsp next) by (rewrite P1, wrap_small; lia).
  rewrite S3. set (m4 := set RSP (cr_rsp next) m3).
  assert (S4 : get RSP m4 = cr_rsp next) by apply get_set_eq.
  pose proof (push_val_after (cr_rflags next) m4 ltac:(by rewrite S4)) as [Q1 Q2 Q3 [Q4 Q5 Q6 Q7 Q8 Q9]].
  generalize dependent (push_val (cr_rflags next) m4). intros m5 Q1 Q2 Q3 Q4 Q5 Q6 Q7 Q8 Q9.
  simpl length in Q1. rewrite S4 in Q1, Q3. cbn [pushed] in P3, Q3.
  cbn [fst snd]. split.
  - unfold saved_regs. f_equal. rewrite P3, P1. replace (cr_rsp next - 8 * Z.of_nat 1) with (cr_rsp next - 8) by lia.
    rewrite load64_store64; [by rewrite <- C2|]. subst m2. by rewrite <- C2 in Hm.
  - assert (Hg : forall r, r <> RSP -> get r (popfq m5) = get r m1).
    { intros r Hr. unfold popfq. rewrite get_set_rflags, get_set_ne, Q2 by done.
      subst m4. rewrite get_set_ne, P2 by done. subst m2. by rewrite get_set_ne. }
    assert (Hc : m_mem (popfq m5) = m_mem m5) by done.
    split; rewrite ?Hg by done; try done.
    + unfold popfq. rewrite get_set_rflags, get_set_eq, Q1, wrap_small; lia.
    + unfold popfq. cbn [m_rflags set_rflags].
      rewrite Q3, Q1. replace (cr_rsp next - 8 * Z.of_nat 1) with (cr_rsp next - 8) by lia.
      by apply load64_store64.
    + intros x Hx. rewrite Hc, Q3. unfold store64. rewrite store_bytes_outside by lia.
      subst m4. cbn [m_mem set]. rewrite P3. unfold store64. rewrite store_bytes_outside by lia. by rewrite <- M.
    + change (m_msr (popfq m5)) with (m_msr m5). rewrite Q8. subst m4. cbn [m_msr set]. rewrite P8. exact C5.
    + change (m_rip (popfq m5)) with (m_rip m5). rewrite Q4. subst m4. cbn [m_rip set]. rewrite P4. exact C1.
    + change (m_cs (popfq m5)) with (m_cs m5). rewrite Q6. subst m4. cbn [m_cs set]. rewrite P6. exact C3.
    + change (m_ss (popfq m5)) with (m_ss m5). rewrite Q7. subst m4. cbn [m_ss set]. rewrite P7. exact C4.
    + change (m_gdtr (popfq m5)) with (m_gdtr m5). rewrite Q9. subst m4. cbn [m_gdtr set]. rewrite P9. exact C6.
Qed.

(** ** The invariant *)

Section Invariant.
Context {V : X86Virt} {G T A : Type} (tss_size : Z).

(** The saved registers of a context that is not running. *)
Definition resumable (r : ContextRegisters) : Prop := 8 <= cr_rsp r < 2 ^ 64 /\ fits 64 (cr_rflags r).

Record context_ok (k : Kernel T A) (i : Z) (x : Context) : Prop := {
  ok_id : fits 64 i /\ c_id x = i;
  ok_bases : fits 64 (cr_fsbase (c_regs x)) /\ fits 64 (cr_gsbase (c_regs x));
  ok_resumable : c_running x = false -> resumable (c_regs x);
  ok_stack p l : c_kstack x = Some (p, l) -> virt_addr_new (p + l) = Done (p + l);
  ok_space n : c_addrsp x = Some n -> is_Some (k_spaces k !! n)
}.

(** The invariant of a processor outside a switch: the current context is
    there, marked as running here, and is the only one; CR3 holds the table of
    its address space; the lock is free and no switch is pending. *)
Record sched_inv (c : Cpu G T A) : Prop := {
  inv_contexts i x : st_map (k_storage (cpu_kernel c)) !! i = Some x -> context_ok (cpu_kernel c) i x;
  inv_current : exists x, current (cpu_kernel c) = Some x /\ c_running x = true /\
    c_cpu_id x = Some (pb_cpu_id (k_percpu (cpu_kernel c)));
  inv_single i x : st_map (k_storage (cpu_kernel c)) !! i = Some x -> c_running x = true ->
    c_cpu_id x = Some (pb_cpu_id (k_percpu (cpu_kernel c))) -> i = context_id (cpu_kernel c);
  inv_space x n s : current (cpu_kernel c) = Some x -> c_addrsp x = Some n ->
    k_spaces (cpu_kernel c) !! n = Some s -> w_cr3 (k_world (cpu_kernel c)) = as_root s;
  inv_unlocked : switch_lock c = false;
  inv_result : switch_result (context_switch (k_percpu (cpu_kernel c))) = None;
  inv_machine : 8 <= get RSP (cpu_machine c) < 2 ^ 64 /\ fits 64 (m_rflags (cpu_machine c))
}.

(** The registers a switch saves, given the flags it pushes. *)
Definition saved_by (flags : Z) (m : machine) (r : ContextRegisters) : ContextRegisters :=
  mkCtxRegs flags (get RBX m) (get R12 m) (get R13 m) (get R14 m) (get R15 m) (get RBP m) (get RSP m)
    (low_half_of (cr_fsbase r) (m_msr m IA32_FS_BASE))
    (low_half_of (cr_gsbase r) (m_msr m IA32_KERNEL_GS_BASE)) (userspace_io_allowed r).

(** The contexts [prev] and [next] as the switch leaves them. *)
Definition left_context (inside : bool) (r : ContextRegisters) (prev : Context) : Context :=
  set_ctx_regs r (set_inside_syscall inside (set_running false prev)).
Definition entered_context (cpu_id : Z) (next : Context) : Context :=
  set_cpu_id (Some cpu_id) (set_running true (set_status Runnable next)).

(** CR3 after the switch. *)
Definition cr3_for (k : Kernel T A) (prev next : Context) : Z :=
  match c_addrsp next with
  | None => w_cr3 (k_world k)
  | Some n => if decide (c_addrsp prev = Some n) then w_cr3 (k_world k)
              else from_option as_root 0 (k_spaces k !! n)
  end.

(** [c'] is [c] after the switch from [prev] to [next]. *)
Record switched (c : Cpu G T A) (prev next : Context) (flags : Z) (c' : Cpu G T A) : Prop := {
  sw_percpu : k_percpu (cpu_kernel c') =
    mkPercpu (pb_cpu_id (k_percpu (cpu_kernel c)))
      (mkSwitchPercpu None 0 (c_id next) (cs_idle_id (context_switch (k_percpu (cpu_kernel c))))
         (negb (deliverable (c_signal next) =? 0)))
      (c_inside_syscall next);
  sw_map : st_map (k_storage (cpu_kernel c')) =
    <[c_id next := entered_context (pb_cpu_id (k_percpu (cpu_kernel c))) next]>
      (<[c_id prev := left_context (pb_inside_syscall (k_percpu (cpu_kernel c)))
           (saved_by flags (cpu_machine c) (c_regs prev)) prev]> (st_map (k_storage (cpu_kernel c))));
  sw_flags : fits 64 flags /\ Z.testbit flags IF = Z.testbit (m_rflags (cpu_machine c)) IF;
  sw_machine : exists m1, quiet [RAX; RCX; RDX] (set_memory (w_mem (k_world (cpu_kernel c))) (cpu_machine c)) m1 /\
    (forall j, m_msr m1 j = if decide (j = IA32_KERNEL_GS_BASE) then cr_gsbase (c_regs next)
       else if decide (j = IA32_FS_BASE) then cr_fsbase (c_regs next) else m_msr (cpu_machine c) j) /\
    loaded (c_regs next) m1 (cpu_machine c');
  sw_mem : w_mem (k_world (cpu_kernel c')) = m_mem (cpu_machine c');
  sw_world : w_tables (k_world (cpu_kernel c')) = w_tables (k_world (cpu_kernel c)) /\
    w_frames (k_world (cpu_kernel c')) = w_frames (k_world (cpu_kernel c)) /\
    w_cr3 (k_world (cpu_kernel c')) = cr3_for (cpu_kernel c) prev next;
  sw_kernel : k_spaces (cpu_kernel c') = k_spaces (cpu_kernel c) /\ k_root (cpu_kernel c') = k_root (cpu_kernel c);
  sw_tss p l : c_kstack next = Some (p, l) -> tss_privilege_stack (cpu_pcr c') = p + l;
  sw_iomap : tss_iomap_base (cpu_pcr c') = if userspace_io_allowed (c_regs next) then tss_size else 0xffff;
  sw_lock : switch_lock c' = false
}.

Lemma post_switch_ok (k : Kernel T A) m pcr prev next pid nid lock :
  switch_result (context_switch (k_percpu k)) = Some (pid, nid) ->
  st_map (k_storage k) !! pid = Some prev -> st_map (k_storage k) !! nid = Some next ->
  (forall n, c_addrsp next = Some n -> is_Some (k_spaces k !! n)) ->
  let sw := context_switch (k_percpu k) in
  post_switch_context (G := G) (mkCpu k m pcr lock) =
    Done (mkCpu (set_world (set_cr3 (cr3_for k prev next) (k_world k))
      (set_switch (mkSwitchPercpu None (pit_ticks sw) (cs_context_id sw) (cs_idle_id sw) (switch_signal sw))
        (pb_inside_syscall (k_percpu k)) k)) m pcr false).
Proof.
  intros Hr Hp Hn Hs. cbv zeta. unfold post_switch_context. cbn [cpu_kernel cpu_machine cpu_pcr].
  rewrite Hr. cbv beta iota zeta. cbn [k_storage set_switch set_percpu].
  rewrite Hp, Hn. cbn [or_panic]. rewrite !Done_bind. unfold cr3_for.
  destruct k as [[] ? ? ? ?]. cbn in *.
  destruct (c_addrsp next) as [n|] eqn:En.
  - destruct (Hs n eq_refl) as [s Es]. rewrite Es. cbn.
    destruct (c_addrsp prev) as [p|]; [|by rewrite decide_False by done].
    destruct (Nat.eqb_spec p n) as [->|Hne]; [by rewrite decide_True|].
    by rewrite decide_False by congruence.
  - by destruct (c_addrsp prev).
Qed.

Lemma switch_to_ok c prev next :
  context_ok (cpu_kernel c) (c_id prev) prev -> context_ok (cpu_kernel c) (c_id next) next ->
  c_id prev <> c_id next -> c_running next = false -> fits 16 tss_size ->
  pit_ticks (context_switch (k_percpu (cpu_kernel c))) = 0 ->
  8 <= get RSP (cpu_machine c) < 2 ^ 64 /\ fits 64 (m_rflags (cpu_machine c)) ->
  let signal := negb (deliverable (c_signal next) =? 0) in
  exists flags c', switch_to tss_size prev (set_status Runnable next) signal c = Done (Switched signal, c') /\
    switched c prev next flags c'.
Proof.
  intros Hp [_ [Hf Hg] Hr Hk Hs] Hne Hrun Htss Ht [Hm1 Hm2]. destruct (Hr Hrun) as [Hsp Hfl]. cbv zeta.
  assert (Hpcr : exists pcr, (match c_kstack next with
         | Some (ptr, len) => set_tss_stack (ptr + len) (cpu_pcr c)
         | None => Done (cpu_pcr c) end) = Done pcr /\
    forall p l, c_kstack next = Some (p, l) -> tss_privilege_stack pcr = p + l).
  { destruct (c_kstack next) as [[p l]|]; [|by exists (cpu_pcr c)].
    unfold set_tss_stack. rewrite (Hk p l) by done. eexists. split; [done|]. by intros ? ? [= -> ->]. }
  destruct Hpcr as (pcr & Epcr & Hpcr).
  assert (Hio : exists pcr', set_userspace_io_allowed tss_size (userspace_io_allowed (c_regs next)) pcr = Done pcr' /\
    tss_privilege_stack pcr' = tss_privilege_stack pcr /\
    tss_iomap_base pcr' = if userspace_io_allowed (c_regs next) then tss_size else 0xffff).
  { unfold set_userspace_io_allowed. destruct (userspace_io_allowed _); [rewrite checked_in by done|]; by eexists. }
  destruct Hio as (pcr' & Eio & Hio1 & Hio2).
  unfold switch_to. cbn [c_kstack c_regs set_status set_running set_cpu_id set_inside_syscall].
  rewrite Epcr, Done_bind, Eio, Done_bind.
  generalize (switch_bases_spec (c_regs prev) (c_regs next)
    (set_memory (w_mem (k_world (cpu_kernel c))) (cpu_machine c)) Hf Hg).
  cbv zeta. generalize (switch_bases (c_regs prev) (c_regs next)
    (set_memory (w_mem (k_world (cpu_kernel c))) (cpu_machine c))).
  intros [r1 m1] (B1 & B2 & B3). cbn [fst snd] in *.
  generalize (switch_context_inner_spec r1 (c_regs next) m1 Hsp Hfl (q_flags _ _ _ B3 Hm2)).
  cbv zeta. generalize (switch_context_inner r1 (c_regs next) m1).
  intros [r2 m2] (L1 & L2). cbn [fst snd] in *.
  rewrite (post_switch_ok _ _ _ (left_context (pb_inside_syscall (k_percpu (cpu_kernel c))) r2 prev)
    (entered_context (pb_cpu_id (k_percpu (cpu_kernel c))) next) (c_id prev) (c_id next)).
  - rewrite Done_bind. exists (m_rflags m1). eexists. split; [done|]. split.
    + cbn. by rewrite Ht.
    + cbn. unfold saved_by. rewrite L1, B1. unfold saved_regs, left_context. cbn.
      by rewrite !(q_regs _ _ _ B3) by (by apply (bool_decide_unpack _)).
    + split; [by apply (q_flags _ _ _ B3)|apply (q_if _ _ _ B3)].
    + by exists m1.
    + done.
    + split; [done|split; done].
    + done.
    + intros p l Hpl. cbn. rewrite Hio1. by apply Hpcr.
    + exact Hio2.
    + done.
  - done.
  - cbn. rewrite lookup_insert_ne by done. apply lookup_insert_eq.
  - apply lookup_insert_eq.
  - exact Hs.
Qed.
(** The processor with its tick counter reset. *)
Definition idled (c : Cpu G T A) : Cpu G T A :=
  let k := cpu_kernel c in
  let sw := context_switch (k_percpu k) in
  mkCpu (set_switch (mkSwitchPercpu (switch_result sw) 0 (cs_context_id sw) (cs_idle_id sw) (switch_signal sw))
    (pb_inside_syscall (k_percpu k)) k) (cpu_machine c) (cpu_pcr c) false.

Lemma sched_inv_ids c : sched_inv c -> ids_fit (k_storage (cpu_kernel c)).
Proof. intros H i x Hi. by apply (inv_contexts c H i x Hi). Qed.

Lemma switch_context_unfold c prev :
  switch_lock c = false -> current (cpu_kernel c) = Some prev ->
  switch_context tss_size c =
    match select (pb_cpu_id (k_percpu (cpu_kernel c))) (cs_idle_id (context_switch (k_percpu (cpu_kernel c)))) false
            (candidates (c_id prev) (cs_idle_id (context_switch (k_percpu (cpu_kernel c))))
              (k_storage (cpu_kernel c))) with
    | Some (_, signal, next) =>
        switch_to tss_size prev next signal (mkCpu (cpu_kernel (idled c)) (cpu_machine c) (cpu_pcr c) true)
    | None => Done (AllContextsIdle, idled c)
    end.
Proof.
  destruct c as [k m p l]. cbn [switch_lock cpu_kernel cpu_machine cpu_pcr]. intros -> Hcur.
  unfold switch_context. cbn [cpu_kernel switch_lock].
  set (k' := set_switch _ _ k). replace (current k') with (Some prev) by (symmetry; exact Hcur).
  cbn [or_panic]. by rewrite Done_bind.
Qed.

(** What a switch does: it goes to the first context in turn that is ready. *)
Lemma switch_context_spec c prev :
  sched_inv c -> fits 16 tss_size -> current (cpu_kernel c) = Some prev ->
  let cpu := pb_cpu_id (k_percpu (cpu_kernel c)) in
  let m := st_map (k_storage (cpu_kernel c)) in
  (switch_context tss_size c = Done (AllContextsIdle, idled c) /\
   forall j x, m !! j = Some x -> j <> c_id prev -> ready cpu x = false) \/
  exists next flags c', m !! c_id next = Some next /\ c_id next <> c_id prev /\ ready cpu next = true /\
    (forall j x, m !! j = Some x -> j <> c_id prev -> ready cpu x = true ->
       turn (c_id prev) (c_id next) <= turn (c_id prev) j) /\
    switch_context tss_size c = Done (Switched (negb (deliverable (c_signal next) =? 0)), c') /\
    switched c prev next flags c'.
Proof.
  intros Hinv Htss Hcur. cbv zeta. pose proof (inv_contexts c Hinv _ _ Hcur) as Hp.
  destruct (ok_id _ _ _ Hp) as [Hfit Hid]. rewrite <- Hid in Hfit, Hp.
  pose proof (select_first (pb_cpu_id (k_percpu (cpu_kernel c)))
    (cs_idle_id (context_switch (k_percpu (cpu_kernel c)))) (c_id prev) _ (sched_inv_ids c Hinv) Hfit) as Hsel.
  rewrite (switch_context_unfold c prev (inv_unlocked c Hinv) Hcur).
  destruct (select _ _ _ _) as [[[i sg] n']|]; [right|left; done].
  destruct Hsel as (next & Hi & Hne & Hr & -> & -> & Hmin).
  pose proof (inv_contexts c Hinv _ _ Hi) as Hn. pose proof (proj2 (ok_id _ _ _ Hn)) as <-.
  assert (Hrun : c_running next = false).
  { unfold ready in Hr. by destruct (c_running next). }
  edestruct (switch_to_ok (mkCpu (cpu_kernel (idled c)) (cpu_machine c) (cpu_pcr c) true) prev next)
    as (flags & c' & E & Hsw); try done.
  - by destruct Hp.
  - by destruct Hn.
  - apply (inv_machine c Hinv).
  - exists next, flags, c'. split; [done|]. split; [done|]. split; [done|]. split; [done|]. split; [exact E|].
    destruct Hsw. by split.
Qed.

Lemma ready_not_running cpu x : ready cpu x = true -> c_running x = false.
Proof. unfold ready. by destruct (c_running x). Qed.

Lemma low_half_fits old v : fits 64 old -> fits 64 (low_half_of old v).
Proof.
  unfold fits, low_half_of, wrap. intros H.
  pose proof (Z.mod_pos_bound v (2 ^ 32) ltac:(lia)). pose proof (Z.div_mod old (2 ^ 32) ltac:(lia)).
  assert (old / 2 ^ 32 < 2 ^ 32) by (apply Z.div_lt_upper_bound; lia).
  assert (0 <= old / 2 ^ 32) by (apply Z.div_pos; lia). lia.
Qed.

Section Switched.
Context (c : Cpu G T A) (prev next : Context) (flags : Z) (c' : Cpu G T A).
Context (Hinv : sched_inv c) (Hcur : current (cpu_kernel c) = Some prev).
Context (Hnext : st_map (k_storage (cpu_kernel c)) !! c_id next = Some next) (Hne : c_id next <> c_id prev).
Context (Hready : ready (pb_cpu_id (k_percpu (cpu_kernel c))) next = true).
Context (Hsw : switched c prev next flags c').

Lemma prev_id : context_id (cpu_kernel c) = c_id prev.
Proof. symmetry. by apply (inv_contexts c Hinv _ _ Hcur). Qed.

Lemma switched_cases j x : st_map (k_storage (cpu_kernel c')) !! j = Some x ->
  (j = c_id next /\ x = entered_context (pb_cpu_id (k_percpu (cpu_kernel c))) next) \/
  (j = c_id prev /\ x = left_context (pb_inside_syscall (k_percpu (cpu_kernel c)))
     (saved_by flags (cpu_machine c) (c_regs prev)) prev) \/
  (j <> c_id next /\ j <> c_id prev /\ st_map (k_storage (cpu_kernel c)) !! j = Some x).
Proof.
  rewrite (sw_map _ _ _ _ _ Hsw). intros [[<- <-]|[H1 [[<- <-]|[H2 H3]]%lookup_insert_Some]]%lookup_insert_Some; auto.
Qed.

Lemma switched_current : current (cpu_kernel c') = Some (entered_context (pb_cpu_id (k_percpu (cpu_kernel c))) next).
Proof.
  unfold current, context_id. rewrite (sw_percpu _ _ _ _ _ Hsw), (sw_map _ _ _ _ _ Hsw). apply lookup_insert_eq.
Qed.

Lemma switched_context_ok j x :
  st_map (k_storage (cpu_kernel c')) !! j = Some x -> context_ok (cpu_kernel c') j x.
Proof.
  pose proof (proj1 (sw_kernel _ _ _ _ _ Hsw)) as Hsp.
  destruct (inv_contexts c Hinv _ _ Hcur) as [P1 P2 P3 P4 P5].
  intros [[-> ->]|[[-> ->]|(_ & _ & Hj)]]%switched_cases.
  - destruct (inv_contexts c Hinv _ _ Hnext) as [Q1 Q2 Q3 Q4 Q5]. split; try done.
    intros n Hn. rewrite Hsp. by apply Q5.
  - split; cbn -[low_half_of fits Z.pow]; [|split; apply low_half_fits; apply P2|intros _; split; [apply (inv_machine c Hinv)|apply (sw_flags _ _ _ _ _ Hsw)]|done|].
    + split; [rewrite <- prev_id; apply P1|done].
    + intros n Hn. rewrite Hsp. by apply P5.
  - destruct (inv_contexts c Hinv _ _ Hj) as [Q1 Q2 Q3 Q4 Q5]. split; try done.
    intros n Hn. rewrite Hsp. by apply Q5.
Qed.

Lemma switched_inv : sched_inv c'.
Proof.
  pose proof (inv_contexts c Hinv _ _ Hnext) as Hok.
  split.
  - apply switched_context_ok.
  - eexists. split; [exact switched_current|]. split; [done|]. by rewrite (sw_percpu _ _ _ _ _ Hsw).
  - unfold context_id. rewrite (sw_percpu _ _ _ _ _ Hsw).
    intros j x [[-> ->]|[[-> ->]|(_ & Hj & Hx)]]%switched_cases Hr Hc; [done|done|].
    by rewrite (inv_single c Hinv _ _ Hx Hr Hc), prev_id in Hj.
  - intros x n s. rewrite switched_current. intros [= <-]. cbn.
    rewrite (proj1 (sw_kernel _ _ _ _ _ Hsw)). intros Hn Hs.
    rewrite (proj2 (proj2 (sw_world _ _ _ _ _ Hsw))). unfold cr3_for. rewrite Hn.
    case_decide as Hd; [by eapply (inv_space c Hinv)|]. by rewrite Hs.
  - apply (sw_lock _ _ _ _ _ Hsw).
  - by rewrite (sw_percpu _ _ _ _ _ Hsw).
  - destruct (sw_machine _ _ _ _ _ Hsw) as (m1 & _ & _ & Hl).
    rewrite (ld_rsp _ _ _ Hl), (ld_rflags _ _ _ Hl).
    apply (ok_resumable _ _ _ Hok), (ready_not_running _ _ Hready).
Qed.
End Switched.

Lemma idled_inv c : sched_inv c -> sched_inv (idled c).
Proof. destruct c. intros [H1 H2 H3 H4 H5 H6 H7]. split; try done. intros i x Hx. by destruct (H1 i x Hx). Qed.

(** C23. A switch always returns, to the same or to another context, and
    keeps the invariant of the processor: the context its block names is in the
    storage, is the only one marked as running on it, is saved nowhere else,
    and has its address space in CR3; every other context can be resumed. *)
Theorem switch_keeps_invariant c : sched_inv c -> fits 16 tss_size ->
  exists r c', switch_context tss_size c = Done (r, c') /\ sched_inv c'.
Proof.
  intros Hinv Htss. destruct (inv_current c Hinv) as (prev & Hcur & _).
  destruct (switch_context_spec c prev Hinv Htss Hcur) as [[E _]|(next & fl & c' & Hn & Hne & Hr & _ & E & Hsw)].
  - eexists _, _. split; [exact E|]. by apply idled_inv.
  - eexists _, c'. split; [exact E|]. by eapply switched_inv.
Qed.

(** The result of a switch that returned, as a case of the specification. *)
Lemma switch_context_inv c prev signal c' :
  sched_inv c -> fits 16 tss_size -> current (cpu_kernel c) = Some prev ->
  switch_context tss_size c = Done (Switched signal, c') ->
  exists next flags, st_map (k_storage (cpu_kernel c)) !! c_id next = Some next /\ c_id next <> c_id prev /\
    ready (pb_cpu_id (k_percpu (cpu_kernel c))) next = true /\ switched c prev next flags c'.
Proof.
  intros Hinv Htss Hcur E.
  destruct (switch_context_spec c prev Hinv Htss Hcur) as [[E' _]|(next & fl & c1 & Hn & Hne & Hr & _ & E' & Hsw)].
  - rewrite E in E'. discriminate.
  - rewrite E in E'. injection E' as _ <-. by exists next, fl.
Qed.

Lemma low_half_same old v : fits 64 v -> (low_half_of old v = v <-> old / 2 ^ 32 = v / 2 ^ 32).
Proof.
  intros _. unfold low_half_of, wrap.
  pose proof (Z.div_mod old (2 ^ 32) ltac:(lia)). pose proof (Z.div_mod v (2 ^ 32) ltac:(lia)). lia.
Qed.

(** C25. A switch picks the ready context that comes next in turn, in the
    cyclic order of the ids after the current one, and returns
    [AllContextsIdle] only when no other context is ready.  The task state
    segment gets the top of the new context's kernel stack and its permission
    for I/O.  The idle context takes its turn like every other: the flag that would
    skip it the first time it shows up is never set. *)
Theorem switch_picks_next_in_turn c prev :
  sched_inv c -> fits 16 tss_size -> current (cpu_kernel c) = Some prev ->
  let cpu := pb_cpu_id (k_percpu (cpu_kernel c)) in
  let m := st_map (k_storage (cpu_kernel c)) in
  exists r c', switch_context tss_size c = Done (r, c') /\
  match r with
  | AllContextsIdle =>
      (forall j x, m !! j = Some x -> j <> c_id prev -> ready cpu x = false) /\
      current (cpu_kernel c') = Some prev /\ cpu_machine c' = cpu_machine c
  | Switched signal => exists next,
      m !! c_id next = Some next /\ c_id next <> c_id prev /\ ready cpu next = true /\
      (forall j x, m !! j = Some x -> j <> c_id prev -> ready cpu x = true ->
         turn (c_id prev) (c_id next) <= turn (c_id prev) j) /\
      signal = negb (deliverable (c_signal next) =? 0) /\
      current (cpu_kernel c') = Some (entered_context cpu next) /\
      (forall p l, c_kstack next = Some (p, l) -> tss_privilege_stack (cpu_pcr c') = p + l) /\
      tss_iomap_base (cpu_pcr c') = (if userspace_io_allowed (c_regs next) then tss_size else 0xffff)
  end.
Proof.
  intros Hinv Htss Hcur. cbv zeta.
  destruct (switch_context_spec c prev Hinv Htss Hcur) as [[E H]|(next & fl & c' & Hn & Hne & Hr & Hmin & E & Hsw)].
  - eexists _, _. split; [exact E|]. done.
  - eexists _, c'. split; [exact E|]. exists next. repeat (split; [done|]).
    split; [by eapply switched_current|]. split; [apply (sw_tss _ _ _ _ _ Hsw)|apply (sw_iomap _ _ _ _ _ Hsw)].
Qed.

(** C26. A context that is switched away from and later switched back to
    resumes where it was: the registers a call preserves, the stack pointer and
    the interrupt flag are the ones it had.  Of the FS base and of the user GS
    base only the low half is saved; the upper half is the one of the field, so
    that the base comes back exactly when the field's upper half was already
    that of the base. *)
Theorem switch_roundtrip c prev s1 c1 p1 c2 p2 s2 c3 :
  sched_inv c -> fits 16 tss_size -> current (cpu_kernel c) = Some prev ->
  switch_context tss_size c = Done (Switched s1, c1) ->
  st_map (k_storage (cpu_kernel c1)) !! c_id prev = Some p1 ->
  sched_inv c2 -> st_map (k_storage (cpu_kernel c2)) !! c_id prev = Some p2 -> c_regs p2 = c_regs p1 ->
  switch_context tss_size c2 = Done (Switched s2, c3) -> context_id (cpu_kernel c3) = c_id prev ->
  (forall r, r ∈ [RBX; R12; R13; R14; R15; RBP; RSP] -> get r (cpu_machine c3) = get r (cpu_machine c)) /\
  Z.testbit (m_rflags (cpu_machine c3)) IF = Z.testbit (m_rflags (cpu_machine c)) IF /\
  (forall i field, (i, field) ∈ [(IA32_FS_BASE, cr_fsbase (c_regs prev)); (IA32_KERNEL_GS_BASE, cr_gsbase (c_regs prev))] ->
     fits 64 (m_msr (cpu_machine c) i) ->
     m_msr (cpu_machine c3) i = low_half_of field (m_msr (cpu_machine c) i) /\
     (m_msr (cpu_machine c3) i = m_msr (cpu_machine c) i <-> field / 2 ^ 32 = m_msr (cpu_machine c) i / 2 ^ 32)).
Proof.
  intros Hinv Htss Hcur E1 Hp1 Hinv2 Hp2 Hregs E2 Hback.
  destruct (switch_context_inv c prev s1 c1 Hinv Htss Hcur E1) as (next & fl & Hn & Hne & Hr & Hsw).
  rewrite (sw_map _ _ _ _ _ Hsw), lookup_insert_ne, lookup_insert_eq in Hp1 by done. injection Hp1 as <-.
  destruct (inv_current c2 Hinv2) as (prev2 & Hcur2 & _).
  destruct (switch_context_inv c2 prev2 s2 c3 Hinv2 Htss Hcur2 E2) as (next2 & fl2 & Hn2 & _ & _ & Hsw2).
  unfold context_id in Hback. rewrite (sw_percpu _ _ _ _ _ Hsw2) in Hback. cbn in Hback.
  rewrite Hback, Hp2 in Hn2. injection Hn2 as <-.
  destruct (sw_machine _ _ _ _ _ Hsw2) as (m1 & _ & Hmsr & Hl). rewrite Hregs in Hmsr, Hl.
  split; [|split].
  - intros r Hr'. repeat (apply elem_of_cons in Hr' as [->|Hr']); [destruct Hl; assumption..|by apply not_elem_of_nil in Hr'].
  - rewrite (ld_rflags _ _ _ Hl). apply (sw_flags _ _ _ _ _ Hsw).
  - intros i field Hi Hf. rewrite (ld_msr _ _ _ Hl), Hmsr.
    apply elem_of_cons in Hi as [[= -> ->]|[[= -> ->]|Hi%not_elem_of_nil]%elem_of_cons]; [| |done].
    + rewrite decide_False, decide_True by done. split; [done|by apply low_half_same].
    + rewrite decide_True by done. split; [done|by apply low_half_same].
Qed.


(** ** Every ready context gets its turn *)

(** The contexts that come before [t] in the turn that starts after [p]. *)
Definition ahead (p t : Z) (m : gmap Z Context) : gset Z :=
  filter (fun j => j <> p /\ turn p j < turn p t) (dom m).

Lemma ahead_shrinks p i t (m : gmap Z Context) :
  (forall j, j ∈ dom m -> fits 64 j) -> fits 64 p -> fits 64 i -> fits 64 t ->
  i <> p -> t <> p -> i <> t -> i ∈ dom m -> turn p i <= turn p t ->
  ahead i t m ⊂ ahead p t m.
Proof.
  intros Hf Hp Hi Ht Hip Htp Hit Hin Hle. unfold fits in Hp, Hi, Ht.
  pose proof (turn_cases p i Hp Hi) as Ci. pose proof (turn_cases p t Hp Ht) as Ct.
  pose proof (turn_cases i t Hi Ht) as Cit.
  split.
  - intros j [[Hji Hlt] Hj]%elem_of_filter. apply elem_of_filter. split; [|done].
    pose proof (Hf j Hj) as Fj. pose proof (turn_cases p j Hp Fj) as Cj. pose proof (turn_cases i j Hi Fj) as Cij.
    unfold fits in Fj. lia.
  - intros E. assert (Hia : i ∈ ahead p t m) by (apply elem_of_filter; split; [lia|done]).
    apply E, elem_of_filter in Hia as [[? _] _]. done.
Qed.

(** What the current context does between two switches: it keeps the
    invariant, starts and ends no context, and leaves [t] ready. *)
Record between_switches (t : Z) (run : Cpu G T A -> Cpu G T A) : Prop := {
  bs_inv c : sched_inv c -> sched_inv (run c);
  bs_context c : context_id (cpu_kernel (run c)) = context_id (cpu_kernel c);
  bs_cpu c : pb_cpu_id (k_percpu (cpu_kernel (run c))) = pb_cpu_id (k_percpu (cpu_kernel c));
  bs_dom c : dom (st_map (k_storage (cpu_kernel (run c)))) = dom (st_map (k_storage (cpu_kernel c)));
  bs_ready c x : st_map (k_storage (cpu_kernel c)) !! t = Some x ->
    ready (pb_cpu_id (k_percpu (cpu_kernel c))) x = true ->
    exists x', st_map (k_storage (cpu_kernel (run c))) !! t = Some x' /\
      ready (pb_cpu_id (k_percpu (cpu_kernel c))) x' = true
}.

(** [n] switches, with what happens after each. *)
Fixpoint turns (run : Cpu G T A -> Cpu G T A) (n : nat) (c : Cpu G T A) : outcome (Cpu G T A) :=
  match n with
  | O => Done c
  | S n => '(_, c) ← switch_context tss_size c; turns run n (run c)
  end.

(** One switch reaches [t] or brings it nearer. *)
Lemma one_turn t c x : sched_inv c -> fits 16 tss_size -> st_map (k_storage (cpu_kernel c)) !! t = Some x ->
  ready (pb_cpu_id (k_percpu (cpu_kernel c))) x = true ->
  exists r c1, switch_context tss_size c = Done (r, c1) /\ sched_inv c1 /\
    pb_cpu_id (k_percpu (cpu_kernel c1)) = pb_cpu_id (k_percpu (cpu_kernel c)) /\
    (context_id (cpu_kernel c1) = t \/
     st_map (k_storage (cpu_kernel c1)) !! t = Some x /\
     dom (st_map (k_storage (cpu_kernel c1))) = dom (st_map (k_storage (cpu_kernel c))) /\
     ahead (context_id (cpu_kernel c1)) t (st_map (k_storage (cpu_kernel c))) ⊂
       ahead (context_id (cpu_kernel c)) t (st_map (k_storage (cpu_kernel c)))).
Proof.
  intros Hinv Htss Hx Hready. destruct (inv_current c Hinv) as (prev & Hcur & Hprun & _).
  pose proof (prev_id c prev Hinv Hcur) as Hpid. pose proof (sched_inv_ids c Hinv) as Hids.
  destruct (Hids _ _ Hx) as [Ft It]. destruct (Hids _ _ Hcur) as [Fp _]. unfold current in Hcur. rewrite Hpid in *.
  assert (Htp : t <> c_id prev).
  { intros ->. rewrite Hx in Hcur. injection Hcur as ->. apply ready_not_running in Hready. congruence. }
  assert (Hcur' : current (cpu_kernel c) = Some prev) by (unfold current; by rewrite Hpid).
  destruct (switch_context_spec c prev Hinv Htss Hcur') as [[_ H]|(next & fl & c1 & Hn & Hne & Hr & Hmin & E & Hsw)].
  { rewrite (H t x) in Hready; done. }
  eexists _, c1. split; [exact E|]. split; [by eapply switched_inv|].
  split; [by rewrite (sw_percpu _ _ _ _ _ Hsw)|].
  unfold context_id. rewrite (sw_percpu _ _ _ _ _ Hsw), (sw_map _ _ _ _ _ Hsw). cbn [context_switch cs_context_id].
  destruct (decide (c_id next = t)) as [Heq|Hnt]; [by left|right].
  rewrite !lookup_insert_ne by done. split; [done|]. split.
  - apply set_eq. intros j. rewrite !dom_insert, !elem_of_union, !elem_of_singleton, !elem_of_dom.
    split; [intros [->|[->|?]]; eauto|tauto].
  - apply ahead_shrinks; try done.
    + intros j [y Hy]%elem_of_dom. by apply (Hids j y).
    + by apply (Hids _ _ Hn).
    + by eapply elem_of_dom_2.
    + by eapply Hmin.
Qed.

Lemma turns_reach run t : between_switches t run -> fits 16 tss_size -> forall n c x,
  sched_inv c -> st_map (k_storage (cpu_kernel c)) !! t = Some x ->
  ready (pb_cpu_id (k_percpu (cpu_kernel c))) x = true ->
  (size (ahead (context_id (cpu_kernel c)) t (st_map (k_storage (cpu_kernel c)))) < n)%nat ->
  exists k c', (1 <= k <= n)%nat /\ turns run k c = Done c' /\ sched_inv c' /\ context_id (cpu_kernel c') = t.
Proof.
  intros Hrun Htss. induction n as [|n IH]; intros c x Hinv Hx Hready Hsize; [lia|].
  destruct (one_turn t c x Hinv Htss Hx Hready) as (r & c1 & E & Hinv1 & Hcpu & Hcase).
  pose proof (bs_inv _ _ Hrun c1 Hinv1) as Hinv2. destruct Hcase as [Hc|(Hx1 & Hd & Hlt)].
  { exists 1%nat, (run c1). cbn [turns]. rewrite E, Done_bind. split; [lia|].
    split; [done|]. split; [done|]. by rewrite (bs_context _ _ Hrun). }
  destruct (bs_ready _ _ Hrun c1 x Hx1) as (x' & Hx' & Hr'); [by rewrite Hcpu|].
  apply subset_size in Hlt.
  destruct (IH (run c1) x') as (k & c' & Hk & E' & Hinv' & Hc'); try done.
  { by rewrite (bs_cpu _ _ Hrun). }
  { rewrite (bs_context _ _ Hrun). unfold ahead in *. rewrite (bs_dom _ _ Hrun), Hd. lia. }
  exists (S k), c'. cbn [turns]. rewrite E, Done_bind. split; [lia|done].
Qed.

(** C24. No ready context is starved: whatever the contexts do between the
    switches, as long as they keep the invariant, start and end no context and
    leave [t] ready, [t] becomes the current context after at most as many
    switches as there are contexts. *)
Theorem ready_context_scheduled run t c x :
  between_switches t run -> fits 16 tss_size -> sched_inv c ->
  st_map (k_storage (cpu_kernel c)) !! t = Some x ->
  ready (pb_cpu_id (k_percpu (cpu_kernel c))) x = true ->
  exists n c', (1 <= n <= size (st_map (k_storage (cpu_kernel c))))%nat /\
    turns run n c = Done c' /\ sched_inv c' /\ context_id (cpu_kernel c') = t.
Proof.
  intros Hrun Htss Hinv Hx Hready. eapply turns_reach; try done.
  rewrite <- size_dom. apply subset_size. split; [intros j [_ ?]%elem_of_filter; done|].
  intros H. assert (Hd : t ∈ dom (st_map (k_storage (cpu_kernel c)))) by by eapply elem_of_dom_2.
  apply H, elem_of_filter in Hd as [[_ ?] _]. lia.
Qed.
End Invariant.

(** ** Instances *)

#[local] Existing Instance x86_virt_model.

(** A processor that runs context 0 while context 1, with a kernel stack and an
    address space, waits; its FS base is above 4 GiB. *)
Definition sample_context (id : Z) (running : bool) (rsp : Z) : Context :=
  mkContext id running (if running then Some 0 else None) false
    (if running then None else Some (0x100000, 0x40000)) Runnable (mkSignal 0 0)
    (mkCtxRegs 0x202 1 2 3 4 5 6 rsp 0 0 false) (negb running) (if running then None else Some 0%nat).

Definition sample_cpu : Cpu unit unit unit :=
  mkCpu (mkKernel (mkWorld tt tt (fun _ => 0) 0x1000) [mkAddrSpace 0x5000 [] [] [] 0 [] 0 0 0x1000]
      (mkStorage {[ 0 := sample_context 0 true 0; 1 := sample_context 1 false 0x13ff00 ]} (mkIdAlloc 2 []))
      (mkPercpu 0 (mkSwitchPercpu None 7 0 0 false) true) 0x1000)
    (mkMachine (fun r => if decide (r = RSP) then 0x90000 else 9) 0xffff0000 0x202 8 16
      (fun i => if decide (i = IA32_FS_BASE) then 0x7f0000001000 else 0) 0 (fun _ => 0))
    (mkPcr 0 tt 0 0 0xffff 0xff 0) false.

Lemma sample_cases i x : st_map (k_storage (cpu_kernel sample_cpu)) !! i = Some x ->
  i = 0 /\ x = sample_context 0 true 0 \/ i = 1 /\ x = sample_context 1 false 0x13ff00.
Proof.
  cbn [cpu_kernel sample_cpu k_storage st_map]. intros Hi.
  apply lookup_insert_Some in Hi as [[<- <-]|[_ Hi]]; [by left|].
  apply lookup_singleton_Some in Hi as [<- <-]. by right.
Qed.

Lemma sample_inv : sched_inv sample_cpu.
Proof.
  split; try done.
  - intros i x [[-> ->]|[-> ->]]%sample_cases; split; try done.
    + by intros p l [= <- <-].
    + intros n [= <-]. by eexists.
  - by eexists.
  - by intros i x [[-> ->]|[-> ->]]%sample_cases.
  - by intros x n s [= <-].
Qed.

Lemma switch_keeps_invariant_witness :
  exists r c', switch_context 104 sample_cpu = Done (r, c') /\ sched_inv c'.
Proof. apply (switch_keeps_invariant 104 sample_cpu sample_inv). done. Defined.

Lemma switch_picks_next_in_turn_witness :
  exists c' next, switch_context 104 sample_cpu = Done (Switched false, c') /\ c_id next = 1 /\
    current (cpu_kernel c') = Some (entered_context 0 next).
Proof.
  pose proof (switch_picks_next_in_turn 104 sample_cpu (sample_context 0 true 0) sample_inv ltac:(done) eq_refl)
    as ([sg|] & c' & E & H).
  - destruct H as (next & H1 & H2 & H3 & _ & H5 & H6 & _). exists c', next.
    apply sample_cases in H1 as [[H1 _]|[_ ->]]; [done|]. rewrite E, H5. done.
  - destruct H as [H _]. specialize (H 1 (sample_context 1 false 0x13ff00)). discriminate H; done.
Defined.

(** The processor after one switch and after two. *)
Definition sample_cpu1 : Cpu unit unit unit :=
  match switch_context 104 sample_cpu with Done (_, c) => c | _ => sample_cpu end.
Definition sample_cpu2 : Cpu unit unit unit :=
  match switch_context 104 sample_cpu1 with Done (_, c) => c | _ => sample_cpu end.

Lemma sample_switch1 : switch_context 104 sample_cpu = Done (Switched false, sample_cpu1).
Proof.
  assert (H : match switch_context 104 sample_cpu with Done (Switched b, _) => negb b | _ => false end = true)
    by by vm_compute.
  unfold sample_cpu1. destruct (switch_context _ _) as [[[[]|] ?]| |]; done.
Qed.

Lemma sample_switch2 : switch_context 104 sample_cpu1 = Done (Switched false, sample_cpu2).
Proof.
  assert (H : match switch_context 104 sample_cpu1 with Done (Switched b, _) => negb b | _ => false end = true)
    by by vm_compute.
  unfold sample_cpu2. destruct (switch_context _ _) as [[[[]|] ?]| |]; done.
Qed.

Lemma sample_inv1 : sched_inv sample_cpu1.
Proof.
  destruct (switch_context_inv 104 sample_cpu _ _ _ sample_inv ltac:(done) eq_refl sample_switch1)
    as (next & fl & H1 & H2 & H3 & H4). exact (switched_inv 104 _ _ _ _ _ sample_inv eq_refl H1 H3 H4).
Qed.

(** Its FS base, 0x7f0000001000, comes back as 0x1000. *)
Lemma switch_roundtrip_witness :
  get RBX (cpu_machine sample_cpu2) = 9 /\ get RSP (cpu_machine sample_cpu2) = 0x90000 /\
  m_msr (cpu_machine sample_cpu2) IA32_FS_BASE = 0x1000.
Proof.
  destruct (st_map (k_storage (cpu_kernel sample_cpu1)) !! 0) as [p1|] eqn:E; [|by vm_compute in E].
  destruct (switch_roundtrip 104 sample_cpu (sample_context 0 true 0) false sample_cpu1 p1 sample_cpu1 p1 false
    sample_cpu2 sample_inv ltac:(done) eq_refl sample_switch1 E sample_inv1 E eq_refl sample_switch2 eq_refl)
    as (H1 & _ & H3).
  rewrite !H1 by (by apply (bool_decide_unpack _)). split; [done|]. split; [done|].
  apply (H3 IA32_FS_BASE 0); [left|done].
Defined.

Lemma ready_context_scheduled_witness :
  exists n c', (1 <= n <= 2)%nat /\ turns 104 (fun c => c) n sample_cpu = Done c' /\
    sched_inv c' /\ context_id (cpu_kernel c') = 1.
Proof.
  apply (ready_context_scheduled 104 (fun c => c) 1 sample_cpu (sample_context 1 false 0x13ff00)
    ltac:(by split; eauto) ltac:(done) sample_inv eq_refl eq_refl).
Defined.
