(* ===== verification/KFrameAlloc.v ===== *)
(** * The kernel's physical frame allocator

    [kernel/src/mem/frame_allocator.rs]: a list of unavailable ranges, merged
    from the regions the bootloader passes on ([LinkedRangeIterator]), and an
    allocator that walks upwards through the gaps between them. *)

From S2P Require Import Prelude Platform Shared.

Definition MAX_RANGE_COUNT : nat := 512.

(** Rust's [Range<u64>]: end exclusive. *)
Record Range : Type := mkRange { r_start : Z; r_end : Z }.

#[global] Instance Range_eq_dec : EqDecision Range.
Proof. solve_decision. Defined.

Definition range_contains (r : Range) (x : Z) : bool :=
  (r_start r <=? x) && (x <? r_end r).

(** [struct LinkedRangeIterator].  [ranges] is the whole array of
    [MAX_RANGE_COUNT] slots: the ones from [range_size] on were never written
    and hold arbitrary values. *)
Record LinkedRangeIterator : Type := mkIter {
  ranges : list Range;
  range_size : nat;
  window : Z;
  current_range_index : nat;
  current_value : Z
}.

(** One slot of an array: indexing out of range panics. *)
Definition slot_write (a : list Range) (i : nat) (r : Range) : outcome (list Range) :=
  if decide (i < length a)%nat then Done (<[i:=r]> a) else Panic.

Definition slot_read (a : list Range) (i : nat) : outcome Range := or_panic (a !! i).

(** *** [LinkedRangeIterator::from_memory_regions] *)

Definition region_range (r : MemoryRegion) : outcome Range :=
  e ← u64_add (mr_start r) (mr_length r);
  Done (mkRange (mr_start r) e).

(** The body of the merging loop; the state is [merged_stack], [curr_idx] and
    [size]. *)
Definition merge_step (st : list Range * nat * nat) (r : MemoryRegion)
    : outcome (list Range * nat * nat) :=
  let '(merged_stack, curr_idx, size) := st in
  rng ← region_range r;
  peek ← slot_read merged_stack curr_idx;
  if r_end peek <? r_start rng then
    merged_stack' ← slot_write merged_stack (S curr_idx) rng;
    Done (merged_stack', S curr_idx, S size)
  else if r_end peek <? r_end rng then
    merged_stack' ← slot_write merged_stack curr_idx (mkRange (r_start peek) (r_end rng));
    Done (merged_stack', curr_idx, size)
  else Done (merged_stack, curr_idx, size).

(** The body of the copying loop; the state is [ranges_ret] and
    [initial_index]. *)
Definition copy_step (merged_stack : list Range) (start : Z)
    (st : list Range * nat) (curr_idx : nat) : outcome (list Range * nat) :=
  let '(ranges_ret, initial_index) := st in
  pop ← slot_read merged_stack curr_idx;
  ranges_ret' ← slot_write ranges_ret curr_idx pop;
  Done (ranges_ret', if r_end pop <=? start then S curr_idx else initial_index).

(** [junk1] and [junk2] are the contents of the two uninitialised arrays. *)
Definition from_memory_regions (junk1 junk2 : list Range) (start window : Z)
    (regions : list MemoryRegion) : outcome LinkedRangeIterator :=
  match regions with
  | [] => Panic (* [regions[0]] *)
  | r0 :: rest =>
      rng ← region_range r0;
      merged_stack ← slot_write junk1 0 rng;
      '(merged_stack, _, size) ← foldM merge_step (merged_stack, 0%nat, 1%nat) rest;
      '(ranges_ret, initial_index) ←
        foldM (copy_step merged_stack start) (junk2, 0%nat) (seq 0 size);
      Done (mkIter ranges_ret size window initial_index start)
  end.

(** *** [LinkedRangeIterator::next_n] *)

(** [while current_range.contains(&curr) { curr += required_size }] *)
Fixpoint skip_range (fuel : nat) (r : Range) (required_size curr : Z) : outcome Z :=
  if range_contains r curr then
    match fuel with
    | O => OutOfFuel
    | S fuel' =>
        curr' ← u64_add curr required_size;
        skip_range fuel' r required_size curr'
    end
  else Done curr.

(** [while overlapped && self.current_range_index < self.range_size] *)
Fixpoint overlap_loop (fuel : nat) (it : LinkedRangeIterator) (required_size : Z)
    (overlapped : bool) (idx : nat) (curr : Z) : outcome (nat * Z) :=
  if overlapped && bool_decide (idx < range_size it)%nat then
    match fuel with
    | O => OutOfFuel
    | S fuel' =>
        current_range ← slot_read (ranges it) idx;
        curr' ← skip_range fuel current_range required_size curr;
        next_range ← slot_read (ranges it) (S idx);
        overlap_loop fuel' it required_size (range_contains next_range curr') (S idx) curr'
    end
  else Done (idx, curr).

Definition with_position (it : LinkedRangeIterator) (idx : nat) (value : Z)
    : LinkedRangeIterator :=
  mkIter (ranges it) (range_size it) (window it) idx value.

(** [fuel] bounds the recursive calls and the iterations of both loops. *)
Fixpoint next_n (fuel : nat) (it : LinkedRangeIterator) (count : Z)
    : outcome (option Z * LinkedRangeIterator) :=
  match fuel with
  | O => OutOfFuel
  | S fuel' =>
      required_size ← u64_mul (window it) count;
      if decide (current_range_index it = range_size it) then
        v ← u64_add (current_value it) required_size;
        Done (Some (current_value it), with_position it (current_range_index it) v)
      else
        r ← slot_read (ranges it) (current_range_index it);
        v ← u64_add (current_value it) required_size;
        if v <=? r_start r then
          Done (Some (current_value it), with_position it (current_range_index it) v)
        else
          '(idx, curr) ← overlap_loop fuel it required_size true (current_range_index it) v;
          next_n fuel' (with_position it idx curr) count
  end.

(** *** [LinearIncFrameAllocator] *)

Record LinearIncFrameAllocator : Type := mkFrameAlloc {
  range_iterator : LinkedRangeIterator;
  base_address : Z;
  phys_mem_right_boundary : Z;
  fa_window : Z
}.

(** [LinearIncFrameAllocator::new]: skips the real-mode address space. *)
Definition LinearIncFrameAllocator_new (junk1 junk2 : list Range)
    (phys_start_addr window phys_mem_size : Z) (unav_regions : list MemoryRegion)
    : outcome LinearIncFrameAllocator :=
  iter ← from_memory_regions junk1 junk2 0x100000 window unav_regions;
  boundary ← u64_add phys_start_addr phys_mem_size;
  Done (mkFrameAlloc iter phys_start_addr boundary window).

Section Allocator.
Context {X : X86Addr}.

Definition allocate_frames (fuel : nat) (fa : LinearIncFrameAllocator) (count : Z)
    : outcome (option Z * LinearIncFrameAllocator) :=
  '(next, iter) ← next_n fuel (range_iterator fa) count;
  let fa' := mkFrameAlloc iter (base_address fa) (phys_mem_right_boundary fa) (fa_window fa) in
  match next with
  | None => Done (None, fa')
  | Some phys_addr =>
      required ← u64_mul (fa_window fa) count;
      right ← u64_add phys_addr required;
      if phys_mem_right_boundary fa <? right then Done (None, fa')
      else
        a ← u64_add (base_address fa) phys_addr;
        a ← phys_addr_new a;
        Done (Some (frame_containing_address a), fa')
  end.

(** [impl FrameAllocator<Size4KiB>::allocate_frame] *)
Definition allocate_frame (fuel : nat) (fa : LinearIncFrameAllocator)
    : outcome (option Z * LinearIncFrameAllocator) := allocate_frames fuel fa 1.

(** [init_frame_allocator] fills the global allocator. *)
Definition init_frame_allocator (junk1 junk2 : list Range)
    (phys_start_addr phys_mem_size : Z) (mem_regions : list MemoryRegion)
    : outcome LinearIncFrameAllocator :=
  LinearIncFrameAllocator_new junk1 junk2 phys_start_addr PAGE_SIZE phys_mem_size mem_regions.

(** [frame_alloc], [frame_alloc_n] and [frame_dealloc] on the global
    allocator; [frame_dealloc] is unimplemented and keeps the frame. *)
Definition frame_alloc (fuel : nat) (fa : LinearIncFrameAllocator) := allocate_frame fuel fa.
Definition frame_alloc_n (fuel : nat) (fa : LinearIncFrameAllocator) (count : Z) :=
  allocate_frames fuel fa count.
Definition frame_dealloc (fa : LinearIncFrameAllocator) (frame : Z) : LinearIncFrameAllocator := fa.

(** A run of the allocator: the requested sizes, in order; each answer is
    paired with its size. *)
Fixpoint alloc_run (fuel : nat) (fa : LinearIncFrameAllocator) (counts : list Z)
    : outcome (list (option Z * Z) * LinearIncFrameAllocator) :=
  match counts with
  | [] => Done ([], fa)
  | c :: counts' =>
      '(r, fa1) ← allocate_frames fuel fa c;
      '(rs, fa2) ← alloc_run fuel fa1 counts';
      Done ((r, c) :: rs, fa2)
  end.
End Allocator.

(** ** Specification *)

(** The ranges of an iterator that were written. *)
Definition live_ranges (it : LinkedRangeIterator) : list Range := take (range_size it) (ranges it).

Definition range_before (a b : Range) : Prop := r_end a < r_start b.

(** Ranges in ascending order with a gap between any two. *)
Definition separated (l : list Range) : Prop :=
  StronglySorted range_before l /\ Forall (fun r => r_start r <= r_end r) l.

Definition in_range (x : Z) (r : Range) : Prop := r_start r <= x < r_end r.

(** Regions in ascending order of [mr_start], as the caller has to ensure. *)
Definition sorted_regions (l : list MemoryRegion) : Prop :=
  StronglySorted (fun a b => mr_start a <= mr_start b) l.

Definition region_ok (r : MemoryRegion) : Prop := 0 <= mr_start r /\ 0 <= mr_length r.

(** Well-formed iterator: the ranges are separated and every range before the
    current index ends at or below the current value. *)
Record iter_wf (it : LinkedRangeIterator) : Prop := {
  wf_slots : (range_size it <= length (ranges it))%nat;
  wf_index : (current_range_index it <= range_size it)%nat;
  wf_separated : separated (live_ranges it);
  wf_passed : Forall (fun r => r_end r <= current_value it)
                (take (current_range_index it) (ranges it));
  wf_value : 0 <= current_value it;
  wf_window : 0 < window it
}.

(** No address of the block [a, a + len) lies in the range. *)
Definition avoids (a len : Z) (r : Range) : Prop := a + len <= r_start r \/ r_end r <= a.

(** ** Merging *)

Lemma slot_write_Done a i r a' :
  slot_write a i r = Done a' -> (i < length a)%nat /\ a' = <[i:=r]> a.
Proof. unfold slot_write. case_decide; intros; inv_done; done. Qed.

Lemma slot_read_Done a i r : slot_read a i = Done r <-> a !! i = Some r.
Proof. apply or_panic_Done. Qed.

Lemma take_S_insert (l : list Range) i r :
  (i < length l)%nat -> take (S i) (<[i:=r]> l) = take i l ++ [r].
Proof.
  intros. rewrite (take_S_r _ i r) by (by apply list_lookup_insert_eq).
  by rewrite take_insert_ge.
Qed.

Lemma separated_snoc l r :
  separated (l ++ [r]) <->
  separated l /\ r_start r <= r_end r /\ Forall (fun p => r_end p < r_start r) l.
Proof.
  unfold separated. rewrite StronglySorted_app, Forall_app, Forall_singleton.
  setoid_rewrite list_elem_of_singleton. split.
  - intros [(H1 & H2 & _) [H3 H4]]. split_and!; auto.
    apply Forall_forall. intros p Hp. by apply H1.
  - intros ((H1 & H2) & H3 & H4). rewrite Forall_forall in H4. split_and!; auto.
    + intros x1 x2 Hx ->. by apply H4.
    + constructor; constructor.
Qed.

(** What the merging loop maintains: the prefix of the stack holds separated
    ranges that cover the regions seen so far, and none starts above the
    regions still to come. *)
Definition merge_inv (all : list MemoryRegion) (st : list Range * nat * nat) : Prop :=
  let '(stack, idx, size) := st in
  exists pre peek,
    size = S idx /\ idx = length pre /\ (idx < length stack)%nat /\
    take size stack = pre ++ [peek] /\
    separated (pre ++ [peek]) /\
    (exists r, last all = Some r /\ r_start peek <= mr_start r) /\
    (forall x, Exists (in_range x) (pre ++ [peek]) <-> Exists (in_region x) all).

Lemma region_range_Done r rng :
  region_range r = Done rng ->
  rng = mkRange (mr_start r) (mr_start r + mr_length r).
Proof. unfold region_range. intros. by inv_done. Qed.

Lemma sorted_regions_last all r r' :
  sorted_regions (all ++ [r']) -> last all = Some r -> mr_start r <= mr_start r'.
Proof.
  intros Hs Hl. apply last_Some in Hl as [l ->].
  eapply (StronglySorted_app_1_elem_of _ _ _ _ _ Hs); set_solver.
Qed.

Lemma merge_step_inv all r st st' :
  sorted_regions (all ++ [r]) -> region_ok r ->
  merge_inv all st -> merge_step st r = Done st' -> merge_inv (all ++ [r]) st'.
Proof.
  destruct st as [[stack idx] size]. intros Hsort [Hr0 Hr1].
  intros (pre & peek & -> & -> & Hlen & Hpre & Hsep & (rl & Hlast & Hle) & Hcov).
  pose proof (sorted_regions_last _ _ _ Hsort Hlast) as Hrl.
  unfold merge_step. intros H. inv_done.
  apply region_range_Done in H0 as ->. simpl in H.
  apply slot_read_Done in H1.
  assert (x0 = peek) as ->.
  { rewrite (take_S_r _ _ _ H1) in Hpre. by apply app_inj_tail in Hpre as [_ ->]. }
  assert (take (length pre) stack = pre) as Hpre'.
  { rewrite (take_S_r _ _ _ H1) in Hpre. by apply app_inj_tail in Hpre as [? _]. }
  pose proof Hsep as (Hseppre & Hpk & Hlt)%separated_snoc.
  rewrite Forall_forall in Hlt.
  case_match eqn:E1; [|case_match eqn:E2]; inv_done.
  - (* a new range *)
    apply slot_write_Done in H0 as [Hw ->].
    exists (pre ++ [peek]), (mkRange (mr_start r) (mr_start r + mr_length r)).
    rewrite length_app, length_insert; simpl. split_and!; try lia.
    + rewrite take_S_insert by lia. by rewrite Hpre.
    + apply separated_snoc. split_and!; simpl; [done|lia|].
      apply Forall_app; split; [|constructor; [lia|constructor]].
      apply Forall_forall. intros p Hp. specialize (Hlt p Hp). lia.
    + exists r. rewrite last_snoc. simpl. split; [done|lia].
    + intros x. rewrite Exists_app, (Exists_app _ all), Hcov, !Exists_cons, !Exists_nil.
      unfold in_range, in_region; simpl. tauto.
  - (* the last range grows *)
    apply slot_write_Done in H0 as [Hw ->].
    exists pre, (mkRange (r_start peek) (mr_start r + mr_length r)).
    rewrite length_insert; simpl. split_and!; try lia.
    + rewrite take_S_insert by lia. by rewrite Hpre'.
    + apply separated_snoc. split_and!; simpl; [done|lia|]. by apply Forall_forall.
    + exists r. rewrite last_snoc. simpl. split; [done|lia].
    + intros x. rewrite (Exists_app _ all), <- Hcov, !Exists_app, !Exists_cons, !Exists_nil.
      unfold in_range, in_region; simpl.
      assert (r_start peek <= x < mr_start r + mr_length r <->
              r_start peek <= x < r_end peek \/ mr_start r <= x < mr_start r + mr_length r) by lia.
      tauto.
  - (* the last range already covers it *)
    exists pre, peek. split_and!; try done.
    + exists r. rewrite last_snoc. split; [done|lia].
    + intros x. rewrite (Exists_app _ all), <- Hcov, !Exists_app, !Exists_cons, !Exists_nil.
      unfold in_range, in_region; simpl.
      assert (mr_start r <= x < mr_start r + mr_length r -> r_start peek <= x < r_end peek) by lia.
      tauto.
Qed.

Lemma merge_loop_inv done rest st st' :
  sorted_regions (done ++ rest) -> Forall region_ok rest ->
  merge_inv done st -> foldM merge_step st rest = Done st' -> merge_inv (done ++ rest) st'.
Proof.
  revert done st. induction rest as [|r rest IH]; intros done st Hs Hok Hinv H; simpl in H; inv_done.
  - by rewrite app_nil_r.
  - rewrite cons_middle, app_assoc in *. inversion_clear Hok. eapply IH; [done|done| |done].
    eapply merge_step_inv; [|done|done|done]. by eapply StronglySorted_app_1_l.
Qed.

(** The copying loop copies the written prefix and stops [initial_index]
    after the last range that ends at or below [start]. *)
Lemma copy_loop_inv stack start junk size dst ini :
  (size <= length stack)%nat ->
  foldM (copy_step stack start) (junk, 0%nat) (seq 0 size) = Done (dst, ini) ->
  length dst = length junk /\ (size <= length junk)%nat /\
  take size dst = take size stack /\ (ini <= size)%nat /\
  (ini = 0%nat \/ exists r, stack !! pred ini = Some r /\ r_end r <= start) /\
  (forall i r, (ini <= i < size)%nat -> stack !! i = Some r -> start < r_end r).
Proof.
  revert dst ini. induction size as [|size IH]; intros dst ini Hsz H.
  - simpl in H. inv_done. split_and!; try lia; auto.
  - rewrite seq_S, foldM_app in H. inv_done. destruct x as [d i].
    apply IH in H0 as (Hl & Hsz' & Ht & Hi & Hini & Hrest); [|lia].
    simpl in H. apply bind_Done_1 in H as (s' & H & Hs'). inv_done.
    apply slot_read_Done in H0. apply slot_write_Done in H1 as [Hw ->].
    rewrite length_insert. split_and!; try lia.
    + rewrite take_S_insert by done. by rewrite Ht, (take_S_r stack size x).
    + case_match; lia.
    + case_match; [right; exists x; simpl; split; [done|lia]|done].
    + intros j r Hj Hr. case_match eqn:E; [lia|].
      destruct (decide (j = size)) as [->|]; [simplify_eq; lia|].
      apply (Hrest j r); [lia|done].
Qed.

Lemma merge_inv_start stack r :
  (0 < length stack)%nat -> region_ok r ->
  merge_inv [r] (<[0%nat:=mkRange (mr_start r) (mr_start r + mr_length r)]> stack, 0%nat, 1%nat).
Proof.
  intros Hl [Hr0 Hr1]. exists [], (mkRange (mr_start r) (mr_start r + mr_length r)).
  rewrite length_insert. split_and!; try done.
  - by rewrite take_S_insert.
  - split; [constructor; constructor|constructor; [simpl; lia|constructor]].
  - exists r. by split.
  - intros x. simpl. rewrite !Exists_cons, !Exists_nil. unfold in_range, in_region; simpl. tauto.
Qed.

(** Everything there is to know about the iterator built by
    [from_memory_regions]. *)
Lemma from_memory_regions_spec junk1 junk2 start w regions it :
  sorted_regions regions -> Forall region_ok regions ->
  0 <= start -> 0 < w ->
  from_memory_regions junk1 junk2 start w regions = Done it ->
  iter_wf it /\ window it = w /\ current_value it = start /\
  (1 <= range_size it)%nat /\ length (ranges it) = length junk2 /\
  (forall x, Exists (in_range x) (live_ranges it) <-> Exists (in_region x) regions) /\
  (forall i r, (current_range_index it <= i)%nat -> live_ranges it !! i = Some r -> start < r_end r).
Proof.
  intros Hs Hok Hst Hw H. unfold from_memory_regions in H.
  destruct regions as [|r0 rest]; [discriminate|]. inv_done.
  apply region_range_Done in H0 as ->. apply slot_write_Done in H1 as [Hl1 ->].
  destruct x1 as [[stack idx] size]. inv_done. destruct x as [dst ini]. inv_done.
  inversion_clear Hok as [|? ? Hok0 Hokr].
  eapply (merge_loop_inv [r0]) in H2 as (pre & peek & Hsize & Hidx & Hlen & Htake & Hsep & _ & Hcov);
    [|done|done|by apply merge_inv_start].
  apply copy_loop_inv in H0 as (Hld & Hsj & Hcp & Hini & Hpassed & Hrest); [|lia].
  unfold live_ranges; simpl. rewrite Hcp, Htake.
  split; [|split_and!; try done; [lia|]].
  - constructor; unfold live_ranges; simpl; try lia; [by rewrite Hcp, Htake|].
    apply Forall_forall. intros r [i Hi]%list_elem_of_lookup.
    apply lookup_take_Some in Hi as [Hi Hii].
    destruct Hpassed as [->|(rp & Hrp & Hle)]; [lia|].
    assert (take size stack !! i = Some r) as Hi'.
    { rewrite <- Hcp. apply lookup_take_Some. split; [done|lia]. }
    assert (take size stack !! pred ini = Some rp) as Hrp'.
    { apply lookup_take_Some. split; [done|lia]. }
    rewrite Htake in Hi', Hrp'.
    destruct (decide (i = pred ini)) as [->|Hne]; [by simplify_eq|].
    destruct Hsep as [HS HF]. rewrite Forall_forall in HF.
    assert (r_start rp <= r_end rp) by (apply HF, list_elem_of_lookup; eauto).
    enough (range_before r rp) by (unfold range_before in *; lia).
    rewrite <- (take_drop (S i) (pre ++ [peek])) in HS.
    eapply StronglySorted_app_1_elem_of; [done| |].
    + apply list_elem_of_lookup. exists i. apply lookup_take_Some. split; [done|lia].
    + apply list_elem_of_lookup. exists (pred ini - S i)%nat.
      rewrite lookup_drop. replace (S i + (pred ini - S i))%nat with (pred ini) by lia. done.
  - intros i r Hi Hr. rewrite <- Htake in Hr. apply lookup_take_Some in Hr as [Hr Hlt].
    by apply (Hrest i r).
Qed.

(** ** Walking the gaps *)

Lemma range_contains_true r x : range_contains r x = true <-> in_range x r.
Proof. unfold range_contains, in_range. lia. Qed.

Lemma range_contains_false r x : range_contains r x = false <-> ~ in_range x r.
Proof. unfold range_contains, in_range. lia. Qed.

(** Leaving a range: the result is outside it, on the grid of [req], and every
    grid point passed lies inside it. *)
Lemma skip_range_Done fuel r req curr c :
  0 < req -> skip_range fuel r req curr = Done c ->
  curr <= c /\ (req | c - curr) /\ ~ in_range c r /\
  (forall b, curr <= b < c -> (req | b - curr) -> in_range b r).
Proof.
  intros Hreq. revert curr. induction fuel as [|fuel IH]; intros curr H; simpl in H;
    case_match eqn:E; inv_done.
  - apply range_contains_false in E. split_and!; [lia| |done|lia].
    rewrite Z.sub_diag. apply Z.divide_0_r.
  - apply range_contains_true in E. apply IH in H as (Hle & Hdiv & Hout & Hin).
    split_and!; [lia| |done|].
    + replace (c - curr) with (c - (curr + req) + req) by lia.
      auto with pages.
    + intros b Hb Hbd. destruct (Z.lt_ge_cases b (curr + req)) as [Hlt|Hge].
      * destruct Hbd as [k Hk]. assert (k = 0) by nia. by replace b with curr by nia.
      * apply Hin; [lia|]. replace (b - (curr + req)) with (b - curr - req) by lia.
        apply Z.divide_sub_r; [done|apply Z.divide_refl].
  - apply range_contains_false in E. split_and!; [lia| |done|lia].
    rewrite Z.sub_diag. apply Z.divide_0_r.
Qed.

Lemma skip_range_total fuel r req curr B :
  0 < req -> 0 <= curr <= B -> r_end r + req <= B -> B < 2 ^ 64 ->
  r_end r - curr <= Z.of_nat fuel * req ->
  exists c, skip_range fuel r req curr = Done c /\ curr <= c <= B.
Proof.
  intros Hreq Hcurr HB HB' Hfuel. revert curr Hcurr Hfuel.
  induction fuel as [|fuel IH]; intros curr Hcurr Hfuel; simpl; case_match eqn:E.
  - apply range_contains_true in E. unfold in_range in E. lia.
  - exists curr. split; [done|lia].
  - apply range_contains_true in E. unfold in_range in E.
    unfold u64_add. rewrite checked_in by lia. simpl.
    destruct (IH (curr + req)) as (c & ? & ?); [lia|lia|]. exists c. split; [done|lia].
  - exists curr. split; [done|lia].
Qed.

(** Ranges up to an index all end at or below a value. *)
Definition passed (it : LinkedRangeIterator) (idx : nat) (v : Z) : Prop :=
  Forall (fun r => r_end r <= v) (take idx (ranges it)).

Lemma passed_mono it idx v v' : v <= v' -> passed it idx v -> passed it idx v'.
Proof. intros Hv Hp. eapply Forall_impl; [exact Hp|]. simpl. intros r ?. lia. Qed.

Lemma passed_S it idx v r :
  ranges it !! idx = Some r -> passed it idx v -> r_end r <= v -> passed it (S idx) v.
Proof.
  intros Hr Hp Hle. unfold passed. rewrite (take_S_r _ _ _ Hr). apply Forall_app.
  split; [done|by constructor].
Qed.

Lemma overlap_loop_Done fuel it req ov idx curr idx' curr' :
  0 < req -> (idx <= range_size it)%nat -> passed it idx curr ->
  (ov = true -> (idx < range_size it)%nat ->
     forall r, ranges it !! idx = Some r -> r_start r <= curr) ->
  overlap_loop fuel it req ov idx curr = Done (idx', curr') ->
  curr <= curr' /\ (req | curr' - curr) /\ (idx <= idx' <= range_size it)%nat /\
  passed it idx' curr' /\ (ov = true -> (idx < range_size it)%nat -> (idx < idx')%nat).
Proof.
  intros Hreq. revert ov idx curr. induction fuel as [|fuel IH];
    intros ov idx curr Hidx Hp Hov H; cbn [overlap_loop] in H; case_match eqn:E; inv_done.
  - split_and!; try done; try lia; [rewrite Z.sub_diag; apply Z.divide_0_r|].
    intros ->. simpl in E. rewrite bool_decide_eq_false in E. lia.
  - apply andb_true_iff in E as [-> Hlt%bool_decide_eq_true].
    rename x into r, x1 into nr, x0 into c. apply slot_read_Done in H0, H2.
    specialize (Hov eq_refl Hlt r H0).
    apply skip_range_Done in H1 as (Hc & Hd & Hout & _); [|done].
    unfold in_range in Hout.
    apply IH in H as (Hc' & Hd' & Hi & Hp' & _).
    + split_and!; try lia; try done.
      replace (curr' - curr) with (curr' - c + (c - curr)) by lia. by apply Z.divide_add_r.
    + lia.
    + eapply passed_S; [done| |lia]. by eapply passed_mono.
    + intros Hcont _ r2 Hr2. simplify_eq. apply range_contains_true in Hcont.
      unfold in_range in Hcont. lia.
  - split_and!; try done; try lia; [rewrite Z.sub_diag; apply Z.divide_0_r|].
    intros ->. simpl in E. rewrite bool_decide_eq_false in E. lia.
Qed.

Lemma live_lookup it i r :
  live_ranges it !! i = Some r <-> (i < range_size it)%nat /\ ranges it !! i = Some r.
Proof. unfold live_ranges. rewrite lookup_take_Some. tauto. Qed.

Lemma separated_lookup l i j a b :
  separated l -> (i < j)%nat -> l !! i = Some a -> l !! j = Some b -> r_end a < r_start b.
Proof.
  intros [HS _] Hij Ha Hb.
  rewrite <- (take_drop (S i) l) in HS.
  eapply (StronglySorted_app_1_elem_of _ _ _ a b HS).
  - apply list_elem_of_lookup. exists i. apply lookup_take_Some. split; [done|lia].
  - apply list_elem_of_lookup. exists (j - S i)%nat. rewrite lookup_drop.
    by replace (S i + (j - S i))%nat with j by lia.
Qed.

Lemma separated_bounds l i a : separated l -> l !! i = Some a -> r_start a <= r_end a.
Proof. intros [_ HF] Ha. rewrite Forall_lookup in HF. by eapply HF. Qed.

(** A block above the passed ranges and below the current one meets none. *)
Lemma block_avoids it a len :
  separated (live_ranges it) -> passed it (current_range_index it) a ->
  (forall r, live_ranges it !! current_range_index it = Some r -> a + len <= r_start r) ->
  Forall (avoids a len) (live_ranges it).
Proof.
  intros Hsep Hp Hcur. apply Forall_lookup. intros i r Hr. unfold avoids.
  destruct (lt_eq_lt_dec i (current_range_index it)) as [[Hlt| ->]|Hgt].
  - right. unfold passed in Hp. rewrite Forall_lookup in Hp. apply (Hp i).
    apply lookup_take_Some. split; [|done]. by apply live_lookup in Hr as [_ ?].
  - left. by apply Hcur.
  - left.
    assert (is_Some (live_ranges it !! current_range_index it)) as [r0 Hr0].
    { apply lookup_lt_is_Some. apply lookup_lt_Some in Hr. lia. }
    specialize (Hcur r0 Hr0).
    pose proof (separated_lookup _ _ _ _ _ Hsep Hgt Hr0 Hr).
    pose proof (separated_bounds _ _ _ Hsep Hr0). lia.
Qed.

Lemma with_position_live it idx v : live_ranges (with_position it idx v) = live_ranges it.
Proof. done. Qed.

Lemma with_position_wf it idx v :
  iter_wf it -> (idx <= range_size it)%nat -> passed it idx v -> 0 <= v ->
  iter_wf (with_position it idx v).
Proof. intros [] ???. by constructor. Qed.

(** What a returned block satisfies. *)
Record block_spec (it : LinkedRangeIterator) (count a : Z) (it' : LinkedRangeIterator) : Prop := {
  bs_above : current_value it <= a;
  bs_grid : (window it * count | a - current_value it);
  bs_avoids : Forall (avoids a (window it * count)) (live_ranges it);
  bs_next : current_value it' = a + window it * count;
  bs_wf : iter_wf it';
  bs_ranges : ranges it' = ranges it;
  bs_size : range_size it' = range_size it;
  bs_window : window it' = window it
}.

Lemma next_n_Done fuel it count r it' :
  iter_wf it -> 0 < count -> next_n fuel it count = Done (r, it') ->
  exists a, r = Some a /\ block_spec it count a it'.
Proof.
  revert it. induction fuel as [|fuel IH]; intros it Hwf Hc H; [discriminate|].
  cbn [next_n] in H. inv_done.
  pose proof (wf_window it Hwf) as Hw. pose proof (wf_value it Hwf) as Hv.
  pose proof (wf_index it Hwf) as Hi.
  set (req := window it * count) in *. assert (0 < req) as Hreq by (unfold req; nia).
  assert (forall v, current_value it <= v -> passed it (current_range_index it) v) as Hpass.
  { intros v Hle. eapply passed_mono; [done|]. apply (wf_passed it Hwf). }
  case_decide as Hsz; inv_done.
  { exists (current_value it). split; [done|].
    constructor; fold req; simpl; try done; try lia; [by rewrite Z.sub_diag; apply Z.divide_0_r| |].
    - apply block_avoids; [by apply wf_separated|by apply Hpass|].
      intros r Hr. apply live_lookup in Hr. lia.
    - apply with_position_wf; try done; [apply Hpass|]; lia. }
  rename select (slot_read _ _ = Done _) into Hr0. rename x into r0. apply slot_read_Done in Hr0.
  assert (live_ranges it !! current_range_index it = Some r0) as Hlive.
  { apply live_lookup. split; [lia|done]. }
  case_match eqn:E; inv_done.
  { exists (current_value it). split; [done|].
    constructor; fold req; simpl; try done; try lia; [by rewrite Z.sub_diag; apply Z.divide_0_r| |].
    - apply block_avoids; [by apply wf_separated|by apply Hpass|].
      intros r Hr. simplify_eq. lia.
    - apply with_position_wf; try done; [apply Hpass|]; lia. }
  destruct x as [idx curr].
  rename select (overlap_loop _ _ _ _ _ _ = Done _) into Hol.
  apply overlap_loop_Done in Hol as (Hle & Hd & Hidx & Hp & _); [|done|done|apply Hpass; lia|].
  2:{ intros _ _ rr Hrr. simplify_eq. lia. }
  apply IH in H as (a & -> & [Hab Hg Hav Hn Hwf' Hr' Hs' Hw']); [| |done].
  2:{ apply with_position_wf; try done; lia. }
  exists a. split; [done|]. simpl in *. fold req in Hg, Hav, Hn.
  constructor; fold req; try done; [lia|].
  replace (a - current_value it) with (a - curr + (curr - (current_value it + req)) + req) by lia.
  auto with pages.
Qed.

(** ** Termination *)

Lemma overlap_loop_total fuel it req ov idx curr E B :
  0 < req -> (range_size it < length (ranges it))%nat -> (idx <= range_size it)%nat ->
  Forall (fun r => r_end r <= E) (live_ranges it) ->
  0 <= curr <= B -> 0 <= E -> E + req <= B -> B < 2 ^ 64 ->
  E + Z.of_nat (range_size it - idx) * req <= Z.of_nat fuel * req ->
  exists idx' curr', overlap_loop fuel it req ov idx curr = Done (idx', curr') /\ curr <= curr' <= B.
Proof.
  intros Hreq Hslots Hidx HE Hcurr HE0 HEB HB Hfuel.
  revert ov idx curr Hidx Hcurr Hfuel.
  induction fuel as [|fuel IH]; intros ov idx curr Hidx Hcurr Hfuel; cbn [overlap_loop];
    case_match eqn:Hgo.
  - apply andb_true_iff in Hgo as [_ Hlt%bool_decide_eq_true]. nia.
  - exists idx, curr. split; [done|lia].
  - apply andb_true_iff in Hgo as [-> Hlt%bool_decide_eq_true].
    destruct (lookup_lt_is_Some_2 (ranges it) idx) as [r Hr]; [lia|].
    destruct (lookup_lt_is_Some_2 (ranges it) (S idx)) as [r' Hr']; [lia|].
    unfold slot_read. rewrite Hr, Hr'. cbn [or_panic mbind outcome_bind].
    assert (r_end r <= E) as HrE.
    { rewrite Forall_lookup in HE. apply (HE idx). by apply live_lookup. }
    destruct (skip_range_total (S fuel) r req curr B) as (c & -> & Hc); try lia.
    cbn [mbind outcome_bind].
    destruct (IH (range_contains r' c) (S idx) c) as (i' & c' & ? & ?); [lia|lia|nia|].
    exists i', c'. split; [done|lia].
  - exists idx, curr. split; [done|lia].
Qed.

(** With enough fuel, fewer ranges than slots and room below [2^64], [next_n]
    returns a block. *)
Lemma next_n_Some fuel it count E B :
  iter_wf it -> (range_size it < length (ranges it))%nat -> 0 < count ->
  Forall (fun r => r_end r <= E) (live_ranges it) -> 0 <= E <= B -> current_value it <= B ->
  B + Z.of_nat (S (range_size it - current_range_index it)) * (window it * count) < 2 ^ 64 ->
  E + Z.of_nat (S (range_size it - current_range_index it)) * (window it * count)
    <= Z.of_nat fuel * (window it * count) ->
  exists a it', next_n fuel it count = Done (Some a, it') /\
    a <= B + Z.of_nat (range_size it - current_range_index it) * (window it * count).
Proof.
  intros Hwf Hslots Hc HE HEB. revert it B Hwf Hslots HE HEB.
  induction fuel as [|fuel IH]; intros it B Hwf Hslots HE HEB HvB HB Hfuel;
    pose proof (wf_window it Hwf) as Hw; pose proof (wf_value it Hwf) as Hv;
    pose proof (wf_index it Hwf) as Hi;
    set (req := window it * count) in *; assert (0 < req) as Hreq by (unfold req; nia).
  { nia. }
  cbn [next_n]. unfold u64_mul. fold req. rewrite checked_in by nia. cbn [mbind outcome_bind].
  unfold u64_add. rewrite checked_in by nia. cbn [mbind outcome_bind].
  case_decide as Hsz. { eexists _, _. split; [done|nia]. }
  destruct (lookup_lt_is_Some_2 (ranges it) (current_range_index it)) as [r Hr]; [lia|].
  unfold slot_read at 1. rewrite Hr. cbn [or_panic mbind outcome_bind].
  case_match eqn:Ecmp. { eexists _, _. split; [done|nia]. }
  destruct (overlap_loop_total (S fuel) it req true (current_range_index it)
              (current_value it + req) E (B + req)) as (idx & curr & Hol & Hcurr); try lia; try done.
  rewrite Hol. cbn [mbind outcome_bind].
  pose proof (wf_passed it Hwf) as Hpass.
  apply overlap_loop_Done in Hol as (Hle & _ & Hidx & Hp & Hadv); [|done|lia| |].
  2:{ eapply passed_mono; [|exact Hpass]. lia. }
  2:{ intros _ _ rr Hrr. simplify_eq. lia. }
  specialize (Hadv eq_refl ltac:(lia)).
  assert (Z.of_nat (S (range_size it - idx)) * req <=
          Z.of_nat (range_size it - current_range_index it) * req) as Hk.
  { apply Z.mul_le_mono_nonneg_r; lia. }
  destruct (IH (with_position it idx curr) (B + req)) as (a & it' & Ha & Hab); simpl; fold req;
    try done; try lia.
  { apply with_position_wf; try done; lia. }
  exists a, it'. split; [done|]. simpl in Hab. fold req in Hab. lia.
Qed.

(** ** The least free frame *)

(** Ranges whose ends are multiples of the window, and the current value still
    below the end of the current range. *)
Record iter_aligned (it : LinkedRangeIterator) : Prop := {
  al_ranges : Forall (fun r => (window it | r_start r) /\ (window it | r_end r) /\
                               r_start r < r_end r) (live_ranges it);
  al_value : (window it | current_value it);
  al_current : forall r, live_ranges it !! current_range_index it = Some r ->
                 current_value it < r_end r
}.

Lemma multiple_gap w a b : 0 < w -> (w | a) -> (w | b) -> a < b -> a + w <= b.
Proof. intros Hw [k ->] [m ->] Hlt. assert (k < m) by nia. nia. Qed.

(** A run of the inner loop over an aligned range stops exactly at its end. *)
Lemma skip_range_aligned fuel r w curr c :
  0 < w -> (w | r_end r) -> (w | curr) -> r_start r <= curr <= r_end r ->
  skip_range fuel r w curr = Done c -> c = r_end r.
Proof.
  intros Hw He Hcw Hcr (Hle & Hd & Hout & Hin)%skip_range_Done; [|done].
  unfold in_range in *. destruct (Z.lt_trichotomy c (r_end r)) as [Hlt|[?|Hgt]]; [lia|done|].
  exfalso. enough (r_start r <= r_end r < r_end r) by lia.
  apply Hin; [lia|]. by apply Z.divide_sub_r.
Qed.

(** A single-frame request returns the first frame, at or above the current
    value, that meets no range; and the iterator stays aligned. *)
Lemma next_n_least fuel it a it' :
  iter_wf it -> iter_aligned it -> next_n fuel it 1 = Done (Some a, it') ->
  iter_aligned it' /\
  (forall b, current_value it <= b < a -> (window it | b) ->
     ~ Forall (avoids b (window it)) (live_ranges it)).
Proof.
  revert it. induction fuel as [|fuel IH]; intros it Hwf Hal H; [discriminate|].
  pose proof (wf_window it Hwf) as Hw. pose proof (wf_separated it Hwf) as Hsep.
  pose proof (wf_index it Hwf) as Hi.
  destruct Hal as [Har Hav Hac]. cbn [next_n] in H. inv_done. rewrite Z.mul_1_r in *.
  assert (forall idx, (forall r, live_ranges it !! idx = Some r -> current_value it + window it <= r_start r) ->
     iter_aligned (with_position it idx (current_value it + window it))) as Hret.
  { intros idx Hidx. constructor; simpl; [done| |].
    - auto with pages.
    - intros r Hr. pose proof Hr as Hr1. specialize (Hidx r Hr). rewrite Forall_lookup in Har.
      specialize (Har _ _ Hr1) as (_ & _ & ?). simpl in *. lia. }
  case_decide as Hsz; inv_done.
  { split; [|lia]. apply Hret. intros r Hr. apply live_lookup in Hr. lia. }
  rename select (slot_read _ _ = Done _) into Hr0. rename x into r0. apply slot_read_Done in Hr0.
  assert (live_ranges it !! current_range_index it = Some r0) as Hlive.
  { apply live_lookup. split; [lia|done]. }
  case_match eqn:E; inv_done.
  { split; [|lia]. apply Hret. intros r Hr. simplify_eq. lia. }
  pose proof Har as Har'. rewrite Forall_lookup in Har'.
  destruct (Har' _ _ Hlive) as (Hs & He & Hse). specialize (Hac _ Hlive).
  destruct x as [idx curr]. rename select (overlap_loop _ _ _ _ _ _ = Done _) into Hol.
  assert ((idx, curr) = (S (current_range_index it), r_end r0)) as [= -> ->].
  { cbn [overlap_loop] in Hol. rewrite bool_decide_eq_true_2 in Hol by lia. cbn [andb] in Hol.
    inv_done. rename select (slot_read _ _ = Done x) into Hx.
    apply slot_read_Done in Hx. simplify_eq.
    rename select (skip_range _ _ _ _ = Done _) into Hsk.
    apply skip_range_aligned in Hsk as ->; try done; try lia.
    2:{ auto with pages. }
    2:{ split; [lia|]. by apply multiple_gap. }
    rename select (slot_read _ _ = Done x1) into Hnx. apply slot_read_Done in Hnx.
    destruct fuel as [|fuel']; cbn [overlap_loop] in Hol; case_match eqn:E2; inv_done; try done;
    apply andb_true_iff in E2 as [Hcon Hlt%bool_decide_eq_true];
    apply range_contains_true in Hcon; unfold in_range in Hcon;
    assert (live_ranges it !! S (current_range_index it) = Some x1) as Hl1 by (by apply live_lookup);
    pose proof (separated_lookup _ _ _ _ _ Hsep (Nat.lt_succ_diag_r _) Hlive Hl1); lia. }
  apply IH in H as [Hal' Hleast].
  - split; [done|]. simpl in Hleast. rewrite with_position_live in Hleast.
    intros b Hb Hbw Hfree. destruct (Z.lt_ge_cases b (r_end r0)) as [Hlt|Hge].
    + rewrite Forall_lookup in Hfree. specialize (Hfree _ _ Hlive). unfold avoids in Hfree. lia.
    + apply (Hleast b); [lia|done|done].
  - apply with_position_wf; [done|lia| |].
    + eapply passed_S; [done| |lia]. eapply passed_mono; [|apply (wf_passed it Hwf)]. lia.
    + pose proof (wf_value it Hwf). lia.
  - constructor; simpl; [done|done|]. rewrite with_position_live. intros r Hr.
    pose proof (separated_lookup _ _ _ _ _ Hsep (Nat.lt_succ_diag_r _) Hlive Hr).
    destruct (Har' _ _ Hr) as (_ & _ & ?). lia.
Qed.

(** ** The allocator *)

(** The blocks a run handed out: start of the first frame and frame count. *)
Definition blocks (rs : list (option Z * Z)) : list (Z * Z) :=
  omap (fun '(o, c) => (fun f => (f, c)) <$> o) rs.

(** A block of frames at [f], as seen by an allocator with live ranges [live]. *)
Definition good_block (base low right : Z) (live : list Range) (b : Z * Z) : Prop :=
  (PAGE_SIZE | b.1) /\ base + low <= b.1 /\ b.1 - base + PAGE_SIZE * b.2 <= right /\
  Forall (avoids (b.1 - base) (PAGE_SIZE * b.2)) live.

(** Allocators whose iterator is well formed and page aligned. *)
Record fa_wf (fa : LinearIncFrameAllocator) : Prop := {
  fa_iter : iter_wf (range_iterator fa);
  fa_iter_window : window (range_iterator fa) = PAGE_SIZE;
  fa_page_window : fa_window fa = PAGE_SIZE;
  fa_value : (PAGE_SIZE | current_value (range_iterator fa));
  fa_base : (PAGE_SIZE | base_address fa);
  fa_base_nonneg : 0 <= base_address fa
}.

Lemma region_range_ok r :
  region_ok r -> mr_start r + mr_length r < 2 ^ 64 ->
  region_range r = Done (mkRange (mr_start r) (mr_start r + mr_length r)).
Proof. intros [??] ?. unfold region_range, u64_add. by rewrite checked_in by lia. Qed.

(** One merging step returns when a slot is left. *)
Lemma merge_step_total stack idx r :
  region_ok r -> mr_start r + mr_length r < 2 ^ 64 -> (S idx < length stack)%nat ->
  exists stack' idx', merge_step (stack, idx, S idx) r = Done (stack', idx', S idx') /\
    (idx' <= S idx)%nat /\ length stack' = length stack.
Proof.
  intros Hok Hfit Hlen. unfold merge_step. rewrite region_range_ok by done. simpl.
  destruct (lookup_lt_is_Some_2 stack idx) as [p Hp]; [lia|].
  unfold slot_read. rewrite Hp. simpl.
  case_match; [|case_match]; unfold slot_write; repeat case_decide; try lia; simpl;
    eexists _, _; (split; [done|]); rewrite ?length_insert; lia.
Qed.

Lemma merge_loop_total stack idx rest :
  Forall region_ok rest -> Forall (fun r => mr_start r + mr_length r < 2 ^ 64) rest ->
  (S idx + length rest <= length stack)%nat ->
  exists stack' idx', foldM merge_step (stack, idx, S idx) rest = Done (stack', idx', S idx') /\
    length stack' = length stack /\ (idx' <= idx + length rest)%nat.
Proof.
  intros Hok Hfit. revert stack idx Hfit. induction Hok as [|r rest Hr Hrest IH];
    intros stack idx Hfit Hlen; cbn [foldM length] in *.
  - eexists _, _. split; [done|]. lia.
  - inversion_clear Hfit as [|? ? Hf0 Hf].
    destruct (merge_step_total stack idx r) as (s' & i' & -> & Hi & Hl); [done|done|lia|].
    cbn [mbind outcome_bind].
    destruct (IH s' i') as (s2 & i2 & Hs2 & ? & ?); [done|lia|].
    exists s2, i2. split; [done|]. lia.
Qed.

Lemma copy_loop_total stack start junk n :
  (n <= length stack)%nat -> (n <= length junk)%nat ->
  exists dst ini, foldM (copy_step stack start) (junk, 0%nat) (seq 0 n) = Done (dst, ini) /\
    length dst = length junk.
Proof.
  intros Hs Hj. induction n as [|n IH].
  - eexists _, _. split; done.
  - destruct IH as (dst & ini & Hd & Hl); [lia|lia|].
    rewrite seq_S, foldM_app, Hd. simpl.
    destruct (lookup_lt_is_Some_2 stack n) as [p Hp]; [lia|].
    unfold slot_read. rewrite Hp. simpl. unfold slot_write. case_decide; [|lia].
    eexists _, _. split; [done|]. by rewrite length_insert.
Qed.

(** With as many slots as regions, merging returns. *)
Lemma from_memory_regions_total junk1 junk2 start w regions :
  Forall region_ok regions -> Forall (fun r => mr_start r + mr_length r < 2 ^ 64) regions -> regions <> [] ->
  length junk1 = MAX_RANGE_COUNT -> length junk2 = MAX_RANGE_COUNT -> (length regions <= MAX_RANGE_COUNT)%nat ->
  exists it, from_memory_regions junk1 junk2 start w regions = Done it.
Proof.
  intros Hok Hfit Hne Hj1 Hj2 Hlen. destruct regions as [|r0 rest]; [done|]. simpl in Hlen.
  inversion_clear Hok as [|? ? Hok0 Hokr]. inversion_clear Hfit as [|? ? Hf0 Hfr].
  unfold from_memory_regions. rewrite region_range_ok by done. cbn [mbind outcome_bind].
  unfold slot_write at 1. case_decide; [|unfold MAX_RANGE_COUNT in *; lia]. cbn [mbind outcome_bind].
  edestruct merge_loop_total as (s' & i' & Hm & Hl & Hi); [done|done| |rewrite Hm].
  { rewrite length_insert. lia. }
  rewrite length_insert in Hl. cbn [mbind outcome_bind].
  destruct (copy_loop_total s' start junk2 (S i')) as (dst & ini & Hc & _); [lia|lia|].
  rewrite Hc. cbn [mbind outcome_bind]. by eexists.
Qed.

(** C6. For any regions sorted by start that fit in the address space, and at
    most as many as the arrays have slots, [from_memory_regions] returns an
    iterator whose ranges are sorted, pairwise separated by a gap and cover
    exactly the addresses of the regions, whatever the uninitialised slots
    held. *)
Theorem from_memory_regions_exact junk1 junk2 start w regions :
  sorted_regions regions -> Forall region_ok regions ->
  Forall (fun r => mr_start r + mr_length r < 2 ^ 64) regions ->
  regions <> [] -> 0 <= start -> 0 < w ->
  length junk1 = MAX_RANGE_COUNT -> length junk2 = MAX_RANGE_COUNT ->
  (length regions <= MAX_RANGE_COUNT)%nat ->
  exists it, from_memory_regions junk1 junk2 start w regions = Done it /\
    iter_wf it /\
    (forall x, Exists (in_range x) (live_ranges it) <-> Exists (in_region x) regions).
Proof.
  intros Hs Hok Hfit Hne Hst Hw Hj1 Hj2 Hlen.
  destruct (from_memory_regions_total junk1 junk2 start w regions) as [it Hit]; try done.
  exists it. split; [done|].
  apply from_memory_regions_spec in Hit as (Hwf & _ & _ & _ & _ & Hcov & _); done.
Qed.

(** The two regions of the examples below, with room for 512 ranges. *)
Definition example_regions : list MemoryRegion :=
  [mkMemoryRegion 0x100000 0x3000 Bootloader; mkMemoryRegion 0x102000 0x4000 Bootloader;
   mkMemoryRegion 0x108000 0x1000 Bootloader].
Definition junk512 : list Range := replicate MAX_RANGE_COUNT (mkRange 0 0).

Lemma example_regions_sorted : sorted_regions example_regions.
Proof. repeat constructor; simpl; lia. Qed.

Lemma example_regions_ok : Forall region_ok example_regions.
Proof. repeat constructor; simpl; lia. Qed.

Lemma from_memory_regions_exact_witness :
  exists it, from_memory_regions junk512 junk512 0x100000 0x1000 example_regions = Done it /\
    iter_wf it /\
    (forall x, Exists (in_range x) (live_ranges it) <-> Exists (in_region x) example_regions).
Proof.
  apply (from_memory_regions_exact junk512 junk512 0x100000 0x1000 example_regions).
  - apply example_regions_sorted.
  - apply example_regions_ok.
  - repeat constructor; simpl; lia.
  - discriminate.
  - lia.
  - lia.
  - reflexivity.
  - reflexivity.
  - vm_compute; lia.
Defined.

Section AllocatorProofs.
Context {X : X86Addr} {XS : X86AddrSpec X}.

(** Only the iterator of an allocator moves. *)
Definition fa_moved (fa fa' : LinearIncFrameAllocator) : Prop :=
  base_address fa' = base_address fa /\
  phys_mem_right_boundary fa' = phys_mem_right_boundary fa /\
  live_ranges (range_iterator fa') = live_ranges (range_iterator fa) /\
  current_value (range_iterator fa) <= current_value (range_iterator fa').

Lemma allocate_frames_Done fuel fa count r fa' :
  fa_wf fa -> 0 < count -> allocate_frames fuel fa count = Done (r, fa') ->
  fa_wf fa' /\ fa_moved fa fa' /\
  (forall f, r = Some f ->
     good_block (base_address fa) (current_value (range_iterator fa))
       (phys_mem_right_boundary fa) (live_ranges (range_iterator fa)) (f, count) /\
     f + PAGE_SIZE * count = base_address fa + current_value (range_iterator fa')).
Proof.
  intros [Hwf Hw Hfw Hv Hb Hb0] Hc H. unfold allocate_frames in H. inv_done.
  destruct x as [next it]. apply next_n_Done in H0 as (a & -> & Hbs); [|done|done].
  destruct Hbs as [Hab Hgrid Hav Hnx Hwf' Hrg Hsz Hwin]. rewrite Hw in *.
  set (fa1 := mkFrameAlloc it (base_address fa) (phys_mem_right_boundary fa) (fa_window fa)) in *.
  assert ((PAGE_SIZE | a)) as Hap.
  { replace a with (a - current_value (range_iterator fa) + current_value (range_iterator fa)) by lia.
    apply Z.divide_add_r; [|done]. eapply Z.divide_trans; [|exact Hgrid]. apply Z.divide_factor_l. }
  assert (fa_wf fa1) as Hwf1.
  { constructor; simpl; try done. rewrite Hnx.
    auto with pages. }
  assert (fa_moved fa fa1) as Hmv.
  { unfold fa_moved, live_ranges; simpl. rewrite Hrg, Hsz, Hnx. split_and!; try done.
    pose proof (wf_window _ Hwf). unfold PAGE_SIZE in *. nia. }
  simpl in H. inv_done. rewrite Hfw in *. case_match eqn:Eoom; inv_done.
  { split_and!; try done. }
  split_and!; try done. intros f [= <-].
  rename select (phys_addr_new _ = Done _) into Hpn.
  apply phys_addr_new_Done in Hpn as ->; [|done].
  assert ((PAGE_SIZE | base_address fa + a)) as Hfa by (by apply Z.divide_add_r).
  rewrite frame_containing_of_aligned by (done || lia).
  unfold good_block; simpl. rewrite Hnx.
  replace (base_address fa + a - base_address fa) with a by lia.
  split_and!; try done; try lia.
Qed.

Definition block_before (p q : Z * Z) : Prop := p.1 + PAGE_SIZE * p.2 <= q.1.

Lemma good_block_weaken base low low' right live b :
  low' <= low -> good_block base low right live b -> good_block base low' right live b.
Proof. unfold good_block. intros ? (? & ? & ? & ?). split_and!; try done. lia. Qed.

Lemma alloc_run_Done fuel fa counts rs fa' :
  fa_wf fa -> Forall (fun c => 0 < c) counts -> alloc_run fuel fa counts = Done (rs, fa') ->
  StronglySorted block_before (blocks rs) /\
  Forall (good_block (base_address fa) (current_value (range_iterator fa))
            (phys_mem_right_boundary fa) (live_ranges (range_iterator fa))) (blocks rs).
Proof.
  intros Hwf Hcs. revert fa rs Hwf. induction Hcs as [|c counts Hc Hcs IH];
    intros fa rs Hwf H; simpl in H; inv_done.
  { split; constructor. }
  destruct x as [r fa1]. inv_done. destruct x as [rs' fa2]. inv_done.
  apply allocate_frames_Done in H0 as (Hwf1 & (Hb & Hr & Hl & Hle) & Hblk); [|done|done].
  apply IH in H1 as [HS HF]; [|done]. rewrite Hb, Hr, Hl in HF.
  assert (Forall (good_block (base_address fa) (current_value (range_iterator fa))
            (phys_mem_right_boundary fa) (live_ranges (range_iterator fa))) (blocks rs')) as HF'.
  { eapply Forall_impl; [exact HF|]. intros b. by apply good_block_weaken. }
  destruct r as [f|]; simpl; [|done].
  destruct (Hblk f eq_refl) as [Hg Hend]. split; constructor; try done.
  eapply Forall_impl; [exact HF|]. intros b (_ & Hlow & _). unfold block_before. simpl. lia.
Qed.

Lemma avoids_in a len r x : avoids a len r -> a <= x < a + len -> ~ in_range x r.
Proof. unfold avoids, in_range. lia. Qed.

(** Any run of the allocator the kernel initialises at boot. *)
Lemma alloc_run_safe fuel junk1 junk2 base mem_size regions fa counts rs fa' :
  sorted_regions regions -> Forall region_ok regions ->
  (PAGE_SIZE | base) -> 0 <= base ->
  init_frame_allocator junk1 junk2 base mem_size regions = Done fa ->
  Forall (fun c => 0 < c) counts -> alloc_run fuel fa counts = Done (rs, fa') ->
  StronglySorted block_before (blocks rs) /\
  forall f c, (f, c) ∈ blocks rs ->
    (PAGE_SIZE | f) /\ 0x100000 <= f - base /\
    f - base + PAGE_SIZE * c <= base + mem_size /\
    forall x r, r ∈ regions -> f - base <= x < f - base + PAGE_SIZE * c -> ~ in_region x r.
Proof.
  intros Hs Hok Hba Hb0 Hinit Hcs Hrun.
  unfold init_frame_allocator, LinearIncFrameAllocator_new in Hinit. inv_done.
  apply from_memory_regions_spec in H as (Hwf & Hw & Hcv & _ & _ & Hcov & _); try done.
  assert (fa_wf (mkFrameAlloc x base (base + mem_size) PAGE_SIZE)) as Hfwf.
  { constructor; simpl; try done. rewrite Hcv. by exists 0x100. }
  apply alloc_run_Done in Hrun as [HS HF]; [|done|done]. split; [done|].
  intros f c Hin. rewrite Forall_forall in HF. destruct (HF _ Hin) as (Ha & Hlow & Hhi & Hav).
  simpl in *. rewrite Hcv in Hlow. split_and!; try done; [lia|].
  intros y r Hr Hy Hyr.
  assert (Exists (in_range y) (live_ranges x)) as Hex.
  { apply Hcov, Exists_exists. eauto. }
  apply Exists_exists in Hex as (rg & Hrg & Hyrg). rewrite Forall_forall in Hav.
  by eapply (avoids_in _ _ _ _ (Hav _ Hrg)).
Qed.

(** C7. From the allocator the kernel initialises at boot, any sequence of
    requests is answered with frames that are page aligned, above the
    real-mode area, below the memory boundary, share no byte with any
    unavailable region and come in ascending, pairwise disjoint blocks. *)
Theorem frame_allocator_safe fuel junk1 junk2 base mem_size regions fa counts rs fa' :
  sorted_regions regions -> Forall region_ok regions ->
  (PAGE_SIZE | base) -> 0 <= base ->
  init_frame_allocator junk1 junk2 base mem_size regions = Done fa ->
  Forall (fun c => 0 < c) counts -> alloc_run fuel fa counts = Done (rs, fa') ->
  StronglySorted block_before (blocks rs) /\
  forall f c, (f, c) ∈ blocks rs ->
    (PAGE_SIZE | f) /\ 0x100000 <= f - base /\
    f - base + PAGE_SIZE * c <= base + mem_size /\
    forall x r, r ∈ regions -> f - base <= x < f - base + PAGE_SIZE * c -> ~ in_region x r.
Proof. apply alloc_run_safe. Qed.

(** A request returns when there is fuel for the ranges to walk over. *)
Lemma allocate_frames_returns fuel fa count E B :
  fa_wf fa -> 0 < count ->
  let it := range_iterator fa in
  let req := PAGE_SIZE * count in
  let k := (range_size it - current_range_index it)%nat in
  (range_size it < length (ranges it))%nat ->
  Forall (fun r => r_end r <= E) (live_ranges it) -> 0 <= E <= B -> current_value it <= B ->
  base_address fa + B + Z.of_nat (S k) * req < 2 ^ 52 ->
  E + Z.of_nat (S k) * req <= Z.of_nat fuel * req ->
  exists a fa',
    current_value it <= a <= B + Z.of_nat k * req /\
    current_value (range_iterator fa') = a + req /\
    allocate_frames fuel fa count =
      Done (if phys_mem_right_boundary fa <? a + req then None
            else Some (base_address fa + a), fa').
Proof.
  intros Hfw Hc it req k Hslots HE HEB Hv HB Hfuel.
  destruct Hfw as [Hwf Hw Hpw Hval Hba Hb0]. fold it in Hwf, Hw, Hval.
  assert (0 < req) as Hreq by (unfold req, PAGE_SIZE; lia).
  destruct (next_n_Some fuel it count E B) as (a & it' & Hn & Ha); rewrite ?Hw; fold req k; try done.
  { lia. }
  rewrite Hw in Ha. fold req k in Ha.
  pose proof Hn as Hn'. apply next_n_Done in Hn' as (a' & [= <-] & Hbs); [|done|done].
  destruct Hbs as [Hab Hgrid _ Hnx _ _ _ _]. rewrite Hw in Hnx, Hgrid. fold req in Hnx, Hgrid.
  pose proof (wf_value _ Hwf) as Hv0.
  assert (0 <= Z.of_nat k * req) by nia.
  unfold allocate_frames. fold it. rewrite Hn. cbn [mbind outcome_bind].
  unfold u64_mul, u64_add. rewrite Hpw. fold req.
  rewrite !checked_in by nia. cbn [mbind outcome_bind].
  rewrite !checked_in by nia. cbn [mbind outcome_bind].
  exists a, (mkFrameAlloc it' (base_address fa) (phys_mem_right_boundary fa) PAGE_SIZE).
  split; [lia|]. split; [done|]. case_match; [done|].
  rewrite phys_addr_new_ok by nia. cbn [mbind outcome_bind].
  rewrite frame_containing_of_aligned; [done|lia|].
  apply Z.divide_add_r; [done|].
  replace a with (a - current_value it + current_value it) by lia.
  apply Z.divide_add_r; [|done]. eapply Z.divide_trans; [|exact Hgrid]. apply Z.divide_factor_l.
Qed.

(** C8. [allocate_frames] returns: with fewer ranges than slots, fuel for the
    ranges to walk over and room below [2^64], it finds a block [a], hands
    out the frame at [base + a] when the block ends at or below the memory
    boundary, and answers [None] otherwise. *)
Theorem allocate_frames_total fuel fa count E B :
  fa_wf fa -> 0 < count ->
  let it := range_iterator fa in
  let req := PAGE_SIZE * count in
  let k := (range_size it - current_range_index it)%nat in
  (range_size it < length (ranges it))%nat ->
  Forall (fun r => r_end r <= E) (live_ranges it) -> 0 <= E <= B -> current_value it <= B ->
  base_address fa + B + Z.of_nat (S k) * req < 2 ^ 52 ->
  E + Z.of_nat (S k) * req <= Z.of_nat fuel * req ->
  exists a fa',
    current_value it <= a <= B + Z.of_nat k * req /\
    current_value (range_iterator fa') = a + req /\
    allocate_frames fuel fa count =
      Done (if phys_mem_right_boundary fa <? a + req then None
            else Some (base_address fa + a), fa').
Proof. apply allocate_frames_returns. Qed.
End AllocatorProofs.

(** C10. On page-aligned ranges a single-frame request is exact: the block
    returned meets no range, no lower aligned block at or above the current
    position is free, and the iterator stays in a state of which the same
    holds for the next request. *)
Theorem next_frame_least fuel it a it' :
  iter_wf it -> iter_aligned it -> next_n fuel it 1 = Done (Some a, it') ->
  (window it | a) /\ current_value it <= a /\
  Forall (avoids a (window it)) (live_ranges it) /\
  (forall b, current_value it <= b < a -> (window it | b) ->
     ~ Forall (avoids b (window it)) (live_ranges it)) /\
  current_value it' = a + window it /\ iter_wf it' /\ iter_aligned it'.
Proof.
  intros Hwf Hal H. destruct (next_n_least _ _ _ _ Hwf Hal H) as [Hal' Hleast].
  apply next_n_Done in H as (a' & [= <-] & []); [|done|lia]. rewrite Z.mul_1_r in *.
  split_and!; try done.
  replace a with (a - current_value it + current_value it) by lia.
  apply Z.divide_add_r; [done|]. apply al_value; done.
Qed.

(** A table with every slot in use: blocked by the last range, [next_n]
    reads one slot past the array and panics. *)
Theorem next_n_full_table_panics fuel it count r :
  iter_wf it -> 0 < count ->
  range_size it = length (ranges it) -> S (current_range_index it) = range_size it ->
  ranges it !! current_range_index it = Some r ->
  r_start r < current_value it + window it * count ->
  current_value it + window it * count < 2 ^ 63 -> r_end r + window it * count < 2 ^ 63 ->
  r_end r <= Z.of_nat fuel * (window it * count) ->
  next_n (S fuel) it count = Panic.
Proof.
  intros Hwf Hc Hfull Hlast Hr Hblk Hfit1 Hfit2 Hfuel.
  pose proof (wf_window it Hwf) as Hw. pose proof (wf_value it Hwf) as Hv.
  set (req := window it * count) in *. assert (0 < req) as Hreq by (unfold req; nia).
  cbn [next_n]. unfold u64_mul, u64_add. fold req. rewrite !checked_in by lia. cbn [mbind outcome_bind].
  case_decide as Hne; [lia|]. unfold slot_read at 1. rewrite Hr. cbn [or_panic mbind outcome_bind].
  rewrite !checked_in by lia. cbn [mbind outcome_bind].
  case_match eqn:E; [lia|]. cbn [overlap_loop andb]. rewrite bool_decide_eq_true_2 by lia.
  unfold slot_read. rewrite Hr. cbn [or_panic mbind outcome_bind].
  destruct (skip_range_total (S fuel) r req (current_value it + req) (2 ^ 63)) as (c & -> & _); try lia.
  cbn [mbind outcome_bind]. by rewrite (lookup_ge_None_2 (ranges it)) by lia.
Qed.

(** *** Witnesses *)

Definition example_iter : LinkedRangeIterator :=
  mkIter ([mkRange 0x101000 0x103000; mkRange 0x104000 0x105000] ++ replicate 510 (mkRange 0 0))
    2 0x1000 0 0x100000.

Lemma example_iter_wf : iter_wf example_iter.
Proof.
  constructor; simpl; try lia; [|constructor].
  split; [repeat constructor; unfold range_before; simpl; lia|repeat constructor; simpl; lia].
Qed.

Lemma example_iter_aligned : iter_aligned example_iter.
Proof.
  constructor; simpl.
  - unfold live_ranges; simpl. rewrite !Forall_cons, Forall_nil; simpl.
    split_and!; try lia; try done; apply Z.mod_divide; done.
  - exists 0x100. reflexivity.
  - intros r [= <-]. simpl. lia.
Qed.

Lemma frame_allocator_safe_witness :
  StronglySorted block_before [(0x106000, 1); (0x109000, 2); (0x10b000, 64)] /\
  forall f c, (f, c) ∈ [(0x106000, 1); (0x109000, 2); (0x10b000, 64)] ->
    (PAGE_SIZE | f) /\ 0x100000 <= f - 0 /\ f - 0 + PAGE_SIZE * c <= 0 + 0x1000000 /\
    forall x r, r ∈ example_regions -> f - 0 <= x < f - 0 + PAGE_SIZE * c -> ~ in_region x r.
Proof.
  eapply (@frame_allocator_safe x86_addr_model x86_addr_model_spec 50%nat junk512 junk512
            0 0x1000000 example_regions _ [1; 2; 64] [(Some 0x106000, 1); (Some 0x109000, 2); (Some 0x10b000, 64)]).
  - apply example_regions_sorted.
  - apply example_regions_ok.
  - exists 0. reflexivity.
  - lia.
  - vm_compute. reflexivity.
  - repeat constructor; lia.
  - vm_compute. reflexivity.
Defined.

Definition example_allocator : LinearIncFrameAllocator :=
  mkFrameAlloc example_iter 0 0x200000 PAGE_SIZE.

Lemma allocate_frames_total_witness :
  exists a fa',
    current_value example_iter <= a <= 0x105000 + 2 * (PAGE_SIZE * 1) /\
    current_value (range_iterator fa') = a + PAGE_SIZE * 1 /\
    @allocate_frames x86_addr_model 1000 example_allocator 1 =
      Done (if phys_mem_right_boundary example_allocator <? a + PAGE_SIZE * 1 then None
            else Some (0 + a), fa').
Proof.
  apply (@allocate_frames_total x86_addr_model x86_addr_model_spec 1000 example_allocator 1
           0x105000 0x105000).
  - constructor; simpl; try reflexivity; try lia; [apply example_iter_wf|exists 0x100; reflexivity|exists 0; reflexivity].
  - lia.
  - vm_compute. lia.
  - repeat constructor; simpl; lia.
  - lia.
  - simpl. lia.
  - vm_compute. reflexivity.
  - vm_compute. discriminate.
Defined.

Lemma next_frame_least_witness :
  exists a it', next_n 10 example_iter 1 = Done (Some a, it') /\
    Forall (avoids a (window example_iter)) (live_ranges example_iter).
Proof.
  destruct (next_n 10 example_iter 1) as [[[a|] it']| |] eqn:E; try discriminate.
  exists a, it'. split; [reflexivity|].
  apply (next_frame_least 10 example_iter a it' example_iter_wf example_iter_aligned E).
Defined.

(** A table of two slots, both in use. *)
Definition full_iter : LinkedRangeIterator :=
  mkIter [mkRange 0x1000 0x2000; mkRange 0x100000 0x103000] 2 0x1000 1 0x100000.

Lemma next_n_full_table_panics_witness : next_n (S 300) full_iter 1 = Panic.
Proof.
  apply (next_n_full_table_panics 300 full_iter 1 (mkRange 0x100000 0x103000)).
  - constructor; simpl; try lia.
    + split; [repeat constructor; unfold range_before; simpl; lia|repeat constructor; simpl; lia].
    + repeat constructor; simpl; lia.
  - lia.
  - reflexivity.
  - reflexivity.
  - reflexivity.
  - simpl. lia.
  - simpl. lia.
  - simpl. lia.
  - simpl. lia.
Defined.

(** *** The test of the source

    [test_frame_alloc_iterator] expects the first frame two pages above
    [base]; the iterator starts at 1 MiB. *)
Definition test_unav_mem_regs : list MemoryRegion :=
  [mkMemoryRegion (0x1000 + 0x2000) 0x1500 Bootloader;
   mkMemoryRegion (0x1000 + 0x4500) 0x1500 Bootloader;
   mkMemoryRegion (0x1000 + 0x8000) 0x1000 Bootloader;
   mkMemoryRegion (0x1000 + 0x9000) 0x1000 Bootloader].

(** The frames it asks for, each with the address it expects. *)
Definition test_frame_alloc_iterator (base : Z) : outcome LinearIncFrameAllocator :=
  allocator ← LinearIncFrameAllocator_new junk512 junk512 base 0x1000 0x100000 test_unav_mem_regs;
  foldM (fun allocator expected =>
      '(frame, allocator) ← @allocate_frame x86_addr_model 10 allocator;
      start_address ← or_panic frame;
      _ ← rassert (start_address =? expected);
      Done allocator) allocator
    (map (fun off => base + 0x1000 + off) [0x1000; 0x4000; 0x6000; 0x7000; 0xa000; 0xb000]).

Example test_frame_alloc_iterator_first :
  (fa ← LinearIncFrameAllocator_new junk512 junk512 0xffffff000 0x1000 0x100000 test_unav_mem_regs;
   '(f, _) ← @allocate_frame x86_addr_model 10 fa; Done f) = Done (Some (0xffffff000 + 0x100000)) /\
  test_frame_alloc_iterator 0xffffff000 = Panic.
Proof. split; vm_compute; reflexivity. Qed.
