(* ===== verification/KFrameSupply.v ===== *)
(** * The kernel's frame allocator as a source of frames

    [kernel/src/mem/frame_allocator.rs] seen by the code that maps pages: the
    allocator of KFrameAlloc.v keeps the promises of [FrameSourceSpec], and how
    many frames it can hand out is bounded from below.  The ranges need not be
    page aligned. *)

From S2P Require Import Prelude Platform Shared Paging KFrameAlloc.

(** ** Memory lost to a range *)

(** What passing a range that starts below [right] can cost: its bytes below
    [right], and a block on either side. *)
Definition lost_range (right req : Z) (r : Range) : Z :=
  if r_start r <? right then Z.min (r_end r) right - r_start r + 2 * req else 0.

Definition lost_in (right req : Z) (l : list Range) : Z := foldr (fun r n => lost_range right req r + n) 0 l.

(** What the ranges from index [idx] on can cost. *)
Definition lost_from (right req : Z) (it : LinkedRangeIterator) (idx : nat) : Z :=
  lost_in right req (drop idx (live_ranges it)).

Lemma lost_in_nonneg right req l : 0 < req -> Forall (fun r => r_start r <= r_end r) l -> 0 <= lost_in right req l.
Proof.
  intros Hr H. induction H as [|r l Hle H IH]; [done|]. cbn [lost_in foldr]. fold (lost_in right req l).
  unfold lost_range. case_match; lia.
Qed.

Lemma lost_from_nonneg right req it idx : 0 < req -> separated (live_ranges it) -> 0 <= lost_from right req it idx.
Proof. intros Hr [_ H]. apply lost_in_nonneg; [done|]. by apply Forall_drop. Qed.

Lemma lost_from_S right req it idx r : live_ranges it !! idx = Some r ->
  lost_from right req it idx = lost_range right req r + lost_from right req it (S idx).
Proof. intros H. unfold lost_from. by rewrite (drop_S _ _ _ H). Qed.

Lemma lost_from_position right req it i v idx :
  lost_from right req (with_position it i v) idx = lost_from right req it idx.
Proof. done. Qed.

(** Leaving a range that was entered above its start. *)
Lemma skip_range_cost fuel r req curr c : 0 < req -> r_start r <= curr -> r_start r <= r_end r ->
  skip_range fuel r req curr = Done c -> curr <= c <= curr + (r_end r - r_start r) + req /\ r_end r <= c.
Proof.
  intros Hreq Hs Hse (Hle & Hd & Hout & Hin)%skip_range_Done; [|done]. unfold in_range in Hout. split; [|lia]. split; [done|].
  destruct (Z.eq_dec c curr) as [->|Hne]; [lia|]. destruct Hd as [k Hk]. assert (1 <= k) by nia.
  assert (in_range (c - req) r) as Hi by (apply Hin; [nia|exists (k - 1); lia]). unfold in_range in Hi. lia.
Qed.

(** The loop over the ranges: the way is paid for by the ranges it passes, or
    the end of memory lies before it. *)
Lemma overlap_loop_cost right fuel it req ov idx curr idx' curr' :
  0 < req -> separated (live_ranges it) ->
  (ov = true -> forall r, live_ranges it !! idx = Some r -> r_start r <= curr) ->
  overlap_loop fuel it req ov idx curr = Done (idx', curr') ->
  let slack := if ov && bool_decide (idx < range_size it)%nat then req else 0 in
  curr <= curr' /\
  (curr' + lost_from right req it idx' + slack <= curr + lost_from right req it idx \/
   right <= curr + lost_from right req it idx /\ right <= curr').
Proof.
  intros Hreq Hsep. revert ov idx curr. induction fuel as [|fuel IH]; intros ov idx curr Hov H;
    cbn [overlap_loop] in H; cbv zeta; case_match eqn:E; inv_done; try (split; [lia|left; lia]).
  apply andb_true_iff in E as [-> Hlt%bool_decide_eq_true].
  rename x into r, x0 into c, x1 into nr. apply slot_read_Done in H0, H2.
  assert (live_ranges it !! idx = Some r) as Hr by (by apply live_lookup).
  pose proof (separated_bounds _ _ _ Hsep Hr) as Hse. specialize (Hov eq_refl r Hr).
  apply skip_range_cost in H1 as Hc; [|done..].
  pose proof (lost_from_nonneg right req it (S idx) Hreq Hsep) as Hl.
  rewrite (lost_from_S _ _ _ _ _ Hr). unfold lost_range.
  apply IH in H as [Hle Hcost].
  2:{ intros Hcon r2 Hr2. apply live_lookup in Hr2 as [_ Hr2]. simplify_eq. by apply range_contains_true in Hcon as [? _]. }
  split; [lia|]. destruct (Z.ltb_spec (r_start r) right) as [Hb|Hb]; [|right; lia].
  destruct (Z.le_gt_cases (r_end r) right) as [Hq|Hq]; [|right; lia].
  destruct Hcost as [Hcost|[H3 H4]]; [left|right; lia]. case_match; lia.
Qed.

(** A block found by [next_n]: likewise. *)
Lemma next_n_cost right fuel it count a it' :
  iter_wf it -> 0 < count -> next_n fuel it count = Done (Some a, it') ->
  let req := window it * count in
  let lost := lost_from right req it (current_range_index it) in
  a + lost_from right req it' (current_range_index it') <= current_value it + lost \/
  right <= current_value it + req + lost /\ right <= a.
Proof.
  revert it. induction fuel as [|fuel IH]; intros it Hwf Hc H; [discriminate|].
  cbn [next_n] in H. inv_done. pose proof (wf_window it Hwf) as Hw. pose proof (wf_value it Hwf) as Hv.
  pose proof (wf_index it Hwf) as Hi. pose proof (wf_separated it Hwf) as Hsep. cbv zeta.
  set (req := window it * count) in *. assert (0 < req) as Hreq by (unfold req; nia).
  case_decide as Hsz; inv_done; [left; rewrite lost_from_position; cbn [with_position current_range_index]; lia|].
  rename select (slot_read _ _ = Done _) into Hr0. rename x into r0. apply slot_read_Done in Hr0.
  case_match eqn:E; inv_done; [left; rewrite lost_from_position; cbn [with_position current_range_index]; lia|].
  destruct x as [idx curr]. rename select (overlap_loop _ _ _ _ _ _ = Done _) into Hol.
  pose proof Hol as Hol'. apply (overlap_loop_cost right) in Hol as [Hle Hcost]; [|done|done|].
  2:{ intros _ r Hr. apply live_lookup in Hr as [_ Hr]. simplify_eq. lia. }
  rewrite bool_decide_eq_true_2 in Hcost by lia. cbn [andb] in Hcost.
  apply overlap_loop_Done in Hol' as (_ & _ & Hidx & Hp & _); [|done|done| |].
  2:{ eapply passed_mono; [|apply (wf_passed it Hwf)]. lia. }
  2:{ intros _ _ rr Hrr. simplify_eq. lia. }
  assert (iter_wf (with_position it idx curr)) as Hwf' by (apply with_position_wf; try done; lia).
  pose proof H as Hn. apply next_n_Done in Hn as (a' & [= <-] & Hbs); [|done|done]. pose proof (bs_above _ _ _ _ Hbs) as Hab.
  apply IH in H; [|done|done]. cbn [with_position window current_value current_range_index] in H, Hab. fold req in H.
  rewrite lost_from_position in H.
  destruct Hcost as [Hcost|[Hb1 Hb2]]; [destruct H as [H|[Hb3 Hb4]]; [left|right]; lia|right; lia].
Qed.

(** ** The frames an allocator has yet to hand out *)

Section Supply.
Context {X : X86Addr} {XS : X86AddrSpec X}.
Context (fuel : nat).

Abbreviation position fa := (current_value (range_iterator fa)).
Abbreviation right_of := phys_mem_right_boundary.

(** The highest address a request can reach. *)
Definition reach (fa : LinearIncFrameAllocator) (E : Z) : Z := Z.max E (right_of fa).

(** An allocator whose ranges end at or below [E], with a free slot, fuel to
    walk over the ranges, and all of it within physical addresses. *)
Record supplied (E : Z) (fa : LinearIncFrameAllocator) : Prop := {
  su_wf : fa_wf fa;
  su_slots : (range_size (range_iterator fa) < length (ranges (range_iterator fa)))%nat;
  su_ends : Forall (fun r => r_end r <= E) (live_ranges (range_iterator fa));
  su_nonneg : 0 <= E;
  su_position : position fa <= reach fa E;
  su_room : base_address fa + reach fa E + Z.of_nat (S (range_size (range_iterator fa))) * PAGE_SIZE < 2 ^ 52;
  su_fuel : E + Z.of_nat (S (range_size (range_iterator fa))) * PAGE_SIZE <= Z.of_nat fuel * PAGE_SIZE
}.

Lemma allocate_frames_sizes fa c r fa' : fa_wf fa -> 0 < c -> allocate_frames fuel fa c = Done (r, fa') ->
  range_size (range_iterator fa') = range_size (range_iterator fa) /\
  length (ranges (range_iterator fa')) = length (ranges (range_iterator fa)).
Proof.
  intros Hwf Hc Hal. unfold allocate_frames in Hal. inv_done. destruct x as [next it'].
  apply next_n_Done in H as (b & -> & Hbs); [|apply Hwf|lia]. inv_done. case_match; inv_done; cbn;
    by rewrite (bs_size _ _ _ _ Hbs), (bs_ranges _ _ _ _ Hbs).
Qed.

(** A block that is granted leaves the allocator supplied. *)
Lemma allocate_frames_granted E fa c f fa' : supplied E fa -> 0 < c -> allocate_frames fuel fa c = Done (Some f, fa') ->
  supplied E fa' /\ (PAGE_SIZE | f) /\ base_address fa + position fa <= f /\
  f + PAGE_SIZE * c = base_address fa + position fa' /\ position fa' <= right_of fa /\
  base_address fa' = base_address fa /\ right_of fa' = right_of fa.
Proof.
  intros [Hwf Hsl HE HE0 Hpos Hroom Hfuel] Hc Hal. unfold reach in *.
  destruct (allocate_frames_sizes fa c _ fa' Hwf Hc Hal) as [Hs1 Hs2].
  apply allocate_frames_Done in Hal as (Hwf' & (Hb & Hr & Hl & _) & Hg); [|done|lia].
  destruct (Hg _ eq_refl) as [(Hd & Hlow & Hhi & _) Hf]. cbn [fst snd] in Hd, Hlow, Hhi.
  assert (position fa' <= right_of fa) by lia. split; [|split_and!; try done; lia].
  split; unfold reach; rewrite ?Hs1, ?Hs2, ?Hl, ?Hb, ?Hr; try done; lia.
Qed.

(** The same for a run of requests that are all answered. *)
Lemma alloc_run_granted E counts : forall fa rs fa', supplied E fa -> Forall (fun c => 0 < c) counts ->
  alloc_run fuel fa counts = Done (rs, fa') -> Forall (fun r => is_Some r.1) rs -> supplied E fa'.
Proof.
  induction counts as [|c counts IH]; intros fa rs fa' Hs Hc; cbn [alloc_run]; intros H Hr; inv_done; [done|].
  apply Forall_cons in Hc as [Hc Hcs]. destruct x as [r fa1]. inv_done. destruct x as [rs1 fa2]. inv_done.
  apply Forall_cons in Hr as [[f Hf] Hr]. cbn in Hf. subst r.
  eapply IH; [|done..]. by eapply allocate_frames_granted.
Qed.

(** What one request does. *)
Lemma allocate_frame_supplied E fa : supplied E fa ->
  exists r fa', allocate_frame fuel fa = Done (r, fa') /\ position fa < position fa' /\
    match r with
    | None => right_of fa < position fa'
    | Some f => f = base_address fa + position fa' - PAGE_SIZE /\ (PAGE_SIZE | f) /\
        base_address fa + position fa <= f /\ position fa' <= right_of fa /\ supplied E fa'
    end /\ base_address fa' = base_address fa /\ right_of fa' = right_of fa.
Proof.
  intros [Hwf Hsl HE HE0 Hpos Hroom Hfuel]. unfold reach in *.
  set (it := range_iterator fa) in *.
  assert (Z.of_nat (S (range_size it - current_range_index it)) * PAGE_SIZE <=
    Z.of_nat (S (range_size it)) * PAGE_SIZE) as Hk by (unfold PAGE_SIZE; lia).
  destruct (allocate_frames_returns fuel fa 1 E (Z.max E (right_of fa))) as (a & fa' & Ha & Hv & Hal);
    rewrite ?Z.mul_1_r; fold it; try done; try lia.
  rewrite Z.mul_1_r in *. fold it in Ha, Hal. unfold allocate_frame. rewrite Hal.
  pose proof Hal as Hd. apply allocate_frames_Done in Hd as (_ & (Hb & Hr & _ & _) & _); [|done|lia].
  eexists _, fa'. split; [done|]. rewrite Hv, Hb, Hr. split; [page_lia|]. split; [|done].
  destruct (Z.ltb_spec (right_of fa) (a + PAGE_SIZE)) as [Hlt|Hge]; [done|].
  destruct (allocate_frames_granted E fa 1 (base_address fa + a) fa') as (Hs & Hd & Hlow & _); [by split|done|done|].
  split; [lia|]. do 2 (split; [done|]). by split.
Qed.

(** The same, from what the request returned. *)
Lemma allocate_frame_granted E fa f fa' : supplied E fa -> allocate_frame fuel fa = Done (Some f, fa') ->
  f = base_address fa + position fa' - PAGE_SIZE /\ (PAGE_SIZE | f) /\
  position fa + PAGE_SIZE <= position fa' <= right_of fa /\ supplied E fa' /\
  base_address fa' = base_address fa /\ right_of fa' = right_of fa.
Proof.
  intros Hs Ha. destruct (allocate_frame_supplied E fa Hs) as (r & fa1 & Ha' & _ & Hres & Hb & Hr).
  rewrite Ha in Ha'. injection Ha' as <- <-. destruct Hres as (Hf & Hd & Hlow & Hhi & Hs'). split_and!; try done; lia.
Qed.

Lemma allocate_frame_refused E fa fa' : supplied E fa -> allocate_frame fuel fa = Done (None, fa') ->
  right_of fa < position fa'.
Proof.
  intros Hs Ha. destruct (allocate_frame_supplied E fa Hs) as (r & fa1 & Ha' & _ & Hres & _).
  rewrite Ha in Ha'. by injection Ha' as <- <-.
Qed.

(** What the ranges ahead can cost. *)
Definition lost_ahead (fa : LinearIncFrameAllocator) : Z :=
  lost_from (right_of fa) PAGE_SIZE (range_iterator fa) (current_range_index (range_iterator fa)).

(** Either way the position moves by what the ranges passed can cost. *)
Lemma allocate_frame_cost E fa r fa' : supplied E fa -> allocate_frame fuel fa = Done (r, fa') ->
  0 <= lost_ahead fa' /\
  (position fa' + lost_ahead fa' <= position fa + PAGE_SIZE + lost_ahead fa \/
   right_of fa <= position fa + PAGE_SIZE + lost_ahead fa /\ right_of fa < position fa').
Proof.
  intros [[Hwf Hw Hpw _ _ _] _ _ _ _ _ _] Ha. unfold lost_ahead. unfold allocate_frame, allocate_frames in Ha. inv_done.
  destruct x as [next it]. pose proof H as Hn. apply next_n_Done in Hn as (a & -> & Hbs); [|done|lia].
  apply (next_n_cost (right_of fa)) in H; [|done|lia]. rewrite Hw, Z.mul_1_r in H.
  pose proof (bs_next _ _ _ _ Hbs) as Hnx. rewrite Hw, Z.mul_1_r in Hnx.
  pose proof (lost_from_nonneg (right_of fa) PAGE_SIZE it (current_range_index it) eq_refl (wf_separated _ (bs_wf _ _ _ _ Hbs))) as Hl.
  inv_done. case_match; inv_done; cbn [range_iterator phys_mem_right_boundary]; (split; [done|]); page_lia.
Qed.

(** The answers to at most [n] requests, until one is refused. *)
Fixpoint handed (n : nat) (fa : LinearIncFrameAllocator) : list Z :=
  match n with
  | O => []
  | S n' =>
      match allocate_frame fuel fa with
      | Done (Some f, fa') => f :: handed n' fa'
      | _ => []
      end
  end.

(** Enough requests to use up the memory. *)
Definition enough (fa : LinearIncFrameAllocator) : nat := Z.to_nat ((right_of fa - position fa) / PAGE_SIZE).

Definition frames_left (fa : LinearIncFrameAllocator) : list Z := handed (enough fa) fa.

Lemma enough_step fa fa' : right_of fa' = right_of fa -> position fa + PAGE_SIZE <= position fa' <= right_of fa ->
  (S (enough fa') <= enough fa)%nat.
Proof.
  intros Hr Hp. unfold enough. rewrite Hr.
  assert ((right_of fa - position fa') / PAGE_SIZE + 1 <= (right_of fa - position fa) / PAGE_SIZE).
  { rewrite <- Z.div_add by done. apply Z.div_le_mono; [done|]. lia. }
  assert (0 <= (right_of fa - position fa') / PAGE_SIZE) by (apply Z.div_pos; [lia|done]). lia.
Qed.

Lemma handed_stable E n m fa : supplied E fa -> (enough fa <= n)%nat -> (enough fa <= m)%nat -> handed n fa = handed m fa.
Proof.
  revert m fa. induction n as [|n IH]; intros m fa Hs Hn Hm; [destruct m as [|m]; [done|]|destruct m as [|m]];
    cbn [handed]; destruct (allocate_frame_supplied E fa Hs) as ([f|] & fa' & Ha & _); rewrite Ha; try done;
    destruct (allocate_frame_granted E fa f fa' Hs Ha) as (_ & _ & Hp & Hs' & _ & Hr);
    pose proof (enough_step fa fa' Hr Hp); try lia.
  f_equal. apply IH; [done|lia|lia].
Qed.

Lemma frames_left_some E fa f fa' : supplied E fa -> allocate_frame fuel fa = Done (Some f, fa') ->
  frames_left fa = f :: frames_left fa'.
Proof.
  intros Hs Ha. destruct (allocate_frame_granted E fa f fa' Hs Ha) as (_ & _ & Hp & Hs' & _ & Hr).
  pose proof (enough_step fa fa' Hr Hp) as He. unfold frames_left.
  destruct (enough fa) as [|n]; [lia|]. cbn [handed]. rewrite Ha. f_equal. apply (handed_stable E); [done|lia|lia].
Qed.

Lemma frames_left_none E fa fa' : supplied E fa -> allocate_frame fuel fa = Done (None, fa') -> frames_left fa = [].
Proof. intros Hs Ha. unfold frames_left. destruct (enough fa); [done|]. cbn [handed]. by rewrite Ha. Qed.

(** Induction over the requests that are answered. *)
Lemma supplied_ind E (P : LinearIncFrameAllocator -> Prop) :
  (forall fa fa', supplied E fa -> allocate_frame fuel fa = Done (None, fa') -> P fa) ->
  (forall fa f fa', supplied E fa -> supplied E fa' -> allocate_frame fuel fa = Done (Some f, fa') -> P fa' -> P fa) ->
  forall fa, supplied E fa -> P fa.
Proof.
  intros Hnone Hsome fa. remember (enough fa) as n eqn:Hn. revert fa Hn.
  induction (lt_wf n) as [n _ IH]; intros fa -> Hs.
  destruct (allocate_frame_supplied E fa Hs) as ([f|] & fa' & Ha & _); [|by eapply Hnone].
  destruct (allocate_frame_granted E fa f fa' Hs Ha) as (_ & _ & Hp & Hs' & _ & Hr). apply (Hsome fa f fa'); try done.
  apply (IH (enough fa')); [|done|done]. pose proof (enough_step fa fa' Hr Hp). lia.
Qed.

Lemma frames_left_spec E fa : supplied E fa ->
  Forall (fun f => (PAGE_SIZE | f) /\ base_address fa + position fa <= f /\ f + PAGE_SIZE <= base_address fa + right_of fa)
    (frames_left fa) /\
  StronglySorted (fun f g => f + PAGE_SIZE <= g) (frames_left fa).
Proof.
  revert fa. apply supplied_ind; intros fa.
  - intros fa' Hs Ha. rewrite (frames_left_none E fa fa') by done. split; constructor.
  - intros f fa' Hs Hs' Ha [IH1 IH2]. rewrite (frames_left_some E fa f fa') by done.
    destruct (allocate_frame_granted E fa f fa' Hs Ha) as (Hf & Hd & Hp & _ & Hb & Hr). rewrite Hb, Hr in IH1.
    split; constructor; try done; [split; [done|lia]| |].
    + eapply Forall_impl; [exact IH1|]. intros g (? & ? & ?). split; [done|page_lia].
    + eapply Forall_impl; [exact IH1|]. intros g (_ & ? & _). page_lia.
Qed.

(** The allocator keeps the promises of a source of frames. *)
#[export] Instance kernel_frame_source : FrameSourceSpec (allocate_frame fuel).
Proof.
  refine {| fs_inv fa := exists E, supplied E fa; fs_frames := frames_left |}.
  - intros fa [E Hs] Hne. destruct (allocate_frame_supplied E fa Hs) as ([f|] & fa' & Ha & _ & Hres & _).
    + rewrite (frames_left_some E fa f fa') by done. exists fa'. split; [done|]. split; [done|]. exists E. apply Hres.
    + by rewrite (frames_left_none E fa fa') in Hne.
  - intros fa [E Hs] Hn. destruct (allocate_frame_supplied E fa Hs) as ([f|] & fa' & Ha & _); [|by eexists].
    by rewrite (frames_left_some E fa f fa') in Hn.
  - intros fa [E Hs]. destruct (frames_left_spec E fa Hs) as [H _]. eapply Forall_impl; [exact H|]. by intros f (? & _).
  - intros fa [E Hs]. apply (frames_left_spec E fa Hs).
Defined.

(** The number of frames: all of the memory above the position, apart from what
    the ranges below the end of memory cost. *)
Lemma frames_left_bound E fa : supplied E fa ->
  right_of fa <= position fa + lost_ahead fa + PAGE_SIZE * (Z.of_nat (length (frames_left fa)) + 1).
Proof.
  revert fa. apply supplied_ind; intros fa.
  - intros fa' Hs Ha. rewrite (frames_left_none E fa fa') by done. cbn [length].
    pose proof (allocate_frame_refused E fa fa' Hs Ha). destruct (allocate_frame_cost E fa _ fa' Hs Ha). lia.
  - intros f fa' Hs Hs' Ha IH. rewrite (frames_left_some E fa f fa') by done. cbn [length].
    destruct (allocate_frame_granted E fa f fa' Hs Ha) as (_ & _ & Hp & _ & _ & Hr).
    destruct (allocate_frame_cost E fa _ fa' Hs Ha) as [_ Hc]. rewrite Hr in *. page_lia.
Qed.
End Supply.

(** ** The allocator the kernel starts with *)

(** What the regions can cost before they are merged. *)
Definition lost_region (right req : Z) (r : MemoryRegion) : Z :=
  lost_range right req (mkRange (mr_start r) (mr_start r + mr_length r)).

Definition lost_regions (right req : Z) (l : list MemoryRegion) : Z := foldr (fun r n => lost_region right req r + n) 0 l.

Lemma lost_in_app right req l k : lost_in right req (l ++ k) = lost_in right req l + lost_in right req k.
Proof. induction l as [|r l IH]; [done|]. cbn [app lost_in foldr]. fold (lost_in right req (l ++ k)) (lost_in right req l). lia. Qed.

Lemma lost_in_snoc right req l r : lost_in right req (l ++ [r]) = lost_in right req l + lost_range right req r.
Proof. rewrite lost_in_app. cbn. lia. Qed.

Lemma lost_regions_snoc right req l r :
  lost_regions right req (l ++ [r]) = lost_regions right req l + lost_region right req r.
Proof.
  induction l as [|a l IH]; [cbn; lia|]. cbn [app lost_regions foldr].
  fold (lost_regions right req (l ++ [r])) (lost_regions right req l). lia.
Qed.

Lemma lost_drop right req l n : 0 < req -> Forall (fun r => r_start r <= r_end r) l ->
  lost_in right req (drop n l) <= lost_in right req l.
Proof.
  intros Hr H. rewrite <- (take_drop n l) at 2. rewrite lost_in_app.
  pose proof (lost_in_nonneg right req (take n l) Hr (Forall_take _ _ _ H)). lia.
Qed.

(** The merged ranges cost no more than the regions. *)
Definition merge_cheap (right req E : Z) (all : list MemoryRegion) (st : list Range * nat * nat) : Prop :=
  let '(stack, _, size) := st in
  lost_in right req (take size stack) <= lost_regions right req all /\ (size <= length all)%nat /\
  Forall (fun r => r_end r <= E) (take size stack).

Lemma merge_step_cheap right req E all r st st' :
  0 < req -> sorted_regions (all ++ [r]) -> region_ok r -> mr_start r + mr_length r <= E ->
  merge_inv all st -> merge_cheap right req E all st -> merge_step st r = Done st' -> merge_cheap right req E (all ++ [r]) st'.
Proof.
  destruct st as [[stack idx] size]. intros Hreq Hsort [Hr0 Hr1] HE.
  intros (pre & peek & -> & -> & Hlen & Hpre & Hsep & (rl & Hlast & Hle) & _) (Hc & Hn & Hends).
  pose proof (sorted_regions_last _ _ _ Hsort Hlast) as Hrl. unfold merge_step. intros H. inv_done.
  apply region_range_Done in H0 as ->. apply slot_read_Done in H1. cbn [r_start r_end] in *.
  pose proof Hpre as Hpre'. rewrite (take_S_r _ _ _ H1) in Hpre'. apply app_inj_tail in Hpre' as [Hpre' ->].
  apply separated_snoc in Hsep as (_ & Hpk & _).
  rewrite Hpre, lost_in_snoc in Hc. rewrite Hpre in Hends. apply Forall_app in Hends as [Hends He].
  unfold merge_cheap. rewrite lost_regions_snoc, length_app. cbn [length]. unfold lost_region.
  case_match eqn:E1; [|case_match eqn:E2]; inv_done.
  - apply slot_write_Done in H0 as [Hw ->]. rewrite take_S_insert by lia. rewrite Hpre, !lost_in_snoc.
    split; [lia|]. split; [lia|]. apply Forall_app. split; [by apply Forall_app|by repeat constructor].
  - apply slot_write_Done in H0 as [Hw ->]. rewrite take_S_insert by lia. rewrite Hpre', lost_in_snoc.
    split; [|split; [lia|]].
    + unfold lost_range in *. cbn [r_start r_end] in *. repeat case_match; lia.
    + apply Forall_app. split; [done|by repeat constructor].
  - rewrite Hpre, lost_in_snoc. split; [|split; [lia|by apply Forall_app]].
    unfold lost_range in *. cbn [r_start r_end] in *. repeat case_match; lia.
Qed.

Lemma merge_loop_cheap right req E done rest st st' :
  0 < req -> sorted_regions (done ++ rest) -> Forall region_ok rest ->
  Forall (fun r => mr_start r + mr_length r <= E) rest ->
  merge_inv done st -> merge_cheap right req E done st -> foldM merge_step st rest = Done st' ->
  merge_cheap right req E (done ++ rest) st'.
Proof.
  intros Hreq. revert done st. induction rest as [|r rest IH]; intros done st Hs Hok HE Hinv Hch H; simpl in H; inv_done.
  - by rewrite app_nil_r.
  - rewrite cons_middle, app_assoc in *. inversion_clear Hok. inversion_clear HE.
    assert (sorted_regions (done ++ [r])) by (by eapply StronglySorted_app_1_l).
    eapply IH; [done|done|done| | |done]; [by eapply merge_step_inv|by eapply merge_step_cheap].
Qed.

Lemma from_memory_regions_cheap right req E junk1 junk2 start w regions it :
  0 < req -> sorted_regions regions -> Forall region_ok regions -> Forall (fun r => mr_start r + mr_length r <= E) regions ->
  from_memory_regions junk1 junk2 start w regions = Done it ->
  lost_in right req (live_ranges it) <= lost_regions right req regions /\ (range_size it <= length regions)%nat /\
  Forall (fun r => r_end r <= E) (live_ranges it).
Proof.
  intros Hreq Hs Hok HE H. unfold from_memory_regions in H. destruct regions as [|r0 rest]; [discriminate|]. inv_done.
  apply region_range_Done in H0 as ->. apply slot_write_Done in H1 as [Hl1 ->].
  destruct x1 as [[stack idx] size]. inv_done. destruct x as [dst ini]. inv_done.
  inversion_clear Hok as [|? ? Hok0 Hokr]. inversion_clear HE as [|? ? HE0 HEr].
  pose proof (merge_inv_start junk1 r0 Hl1 Hok0) as Hi0.
  pose proof H2 as Hm. eapply (merge_loop_cheap right req E [r0]) in Hm as (Hc & Hn & He); try done.
  2:{ unfold merge_cheap. rewrite take_S_insert by done. split; [apply Z.le_refl|]. split; [done|]. by repeat constructor. }
  eapply (merge_loop_inv [r0]) in H2 as (pre & peek & -> & -> & Hlen & _); try done.
  apply copy_loop_inv in H0 as (_ & _ & Hcp & _); [|lia].
  unfold live_ranges; cbn [range_size ranges]. by rewrite Hcp.
Qed.

Section Init.
Context {X : X86Addr} {XS : X86AddrSpec X}.

(** Regions the kernel's allocator can be started with: sorted, ending at or
    below [E], fewer than there are slots; and memory that reaches past the
    real-mode area. *)
Record startable (fuel : nat) (base mem_size E : Z) (regions : list MemoryRegion) : Prop := {
  sb_sorted : sorted_regions regions;
  sb_regions : Forall region_ok regions;
  sb_ends : Forall (fun r => mr_start r + mr_length r <= E) regions;
  sb_some : regions <> [];
  sb_slots : (length regions < MAX_RANGE_COUNT)%nat;
  sb_base : (PAGE_SIZE | base) /\ 0 <= base;
  sb_memory : 0x100000 <= base + mem_size;
  sb_room : base + Z.max E (base + mem_size) + Z.of_nat (S (length regions)) * PAGE_SIZE < 2 ^ 52;
  sb_fuel : E + Z.of_nat (S (length regions)) * PAGE_SIZE <= Z.of_nat fuel * PAGE_SIZE
}.

Lemma regions_end_nonneg E regions : regions <> [] -> Forall region_ok regions ->
  Forall (fun r => mr_start r + mr_length r <= E) regions -> 0 <= E.
Proof.
  intros Hne Hok HE. destruct regions as [|r l]; [done|]. inversion_clear Hok as [|? ? [? ?] _]. inversion_clear HE. lia.
Qed.

Lemma init_supplied fuel junk1 junk2 base mem_size E regions :
  startable fuel base mem_size E regions -> length junk1 = MAX_RANGE_COUNT -> length junk2 = MAX_RANGE_COUNT ->
  exists fa, init_frame_allocator junk1 junk2 base mem_size regions = Done fa /\ supplied fuel E fa /\
    base_address fa = base /\ phys_mem_right_boundary fa = base + mem_size /\
    current_value (range_iterator fa) = 0x100000 /\
    lost_ahead fa <= lost_regions (base + mem_size) PAGE_SIZE regions.
Proof.
  intros [Hs Hok HE Hne Hsl [Hb Hb0] Hmem Hroom Hfuel] Hj1 Hj2. pose proof (regions_end_nonneg E regions Hne Hok HE) as HE0.
  destruct (from_memory_regions_total junk1 junk2 0x100000 PAGE_SIZE regions) as [it Hit]; try done; [|lia|].
  { eapply Forall_impl; [exact HE|]. cbv beta. page_lia. }
  pose proof Hit as Hsp. apply from_memory_regions_spec in Hsp as (Hwf & Hw & Hcv & _ & Hlen & _ & _); try done.
  pose proof Hit as Hch. apply (from_memory_regions_cheap (base + mem_size) PAGE_SIZE E) in Hch as (Hc & Hn & He); try done.
  unfold init_frame_allocator, LinearIncFrameAllocator_new, u64_add. rewrite Hit, Done_bind, checked_in, Done_bind by page_lia.
  eexists. split; [done|]. cbn [base_address phys_mem_right_boundary range_iterator].
  assert (Z.of_nat (S (range_size it)) * PAGE_SIZE <= Z.of_nat (S (length regions)) * PAGE_SIZE) as Hk by page_lia.
  split; [|split; [done|split; [done|split; [done|]]]].
  - split; unfold reach; cbn [base_address phys_mem_right_boundary range_iterator]; try done; try lia.
    split; cbn [fa_window base_address range_iterator]; try done. rewrite Hcv. by exists 0x100.
  - unfold lost_ahead, lost_from. cbn [phys_mem_right_boundary range_iterator]. etrans; [|exact Hc].
    apply lost_drop; [done|]. apply (wf_separated _ Hwf).
Qed.

(** The answers of [allocate_frame], until it refuses. *)
Lemma frames_left_allocs fuel E fa : supplied fuel E fa ->
  exists fa1 fa2, allocs (allocate_frame fuel) fa (frames_left fuel fa) fa1 /\ allocate_frame fuel fa1 = Done (None, fa2).
Proof.
  revert fa. apply (supplied_ind fuel); intros fa.
  - intros fa' Hs Ha. rewrite (frames_left_none fuel E fa fa') by done. exists fa, fa'. split; [constructor|done].
  - intros f fa' Hs Hs' Ha (fa1 & fa2 & H1 & H2). rewrite (frames_left_some fuel E fa f fa') by done.
    exists fa1, fa2. split; [by econstructor|done].
Qed.

(** C9. How much memory the kernel can use: started with any sorted regions,
    aligned or not, the frame allocator answers requests until the memory above
    the first megabyte is used up, and loses no more than the bytes of the
    regions below the end of memory, a page on either side of each of them, and
    one page at the end. *)
Theorem kernel_supply_bound fuel junk1 junk2 base mem_size E regions :
  startable fuel base mem_size E regions -> length junk1 = MAX_RANGE_COUNT -> length junk2 = MAX_RANGE_COUNT ->
  exists fa fs fa1 fa2, init_frame_allocator junk1 junk2 base mem_size regions = Done fa /\
    allocs (allocate_frame fuel) fa fs fa1 /\ allocate_frame fuel fa1 = Done (None, fa2) /\
    base + mem_size - 0x100000 <=
      lost_regions (base + mem_size) PAGE_SIZE regions + PAGE_SIZE * (Z.of_nat (length fs) + 1).
Proof.
  intros Hst Hj1 Hj2. destruct (init_supplied fuel junk1 junk2 base mem_size E regions Hst Hj1 Hj2)
    as (fa & Hi & Hs & _ & Hr & Hp & Hl).
  destruct (frames_left_allocs fuel E fa Hs) as (fa1 & fa2 & H1 & H2). exists fa, (frames_left fuel fa), fa1, fa2.
  do 3 (split; [done|]). pose proof (frames_left_bound fuel E fa Hs). lia.
Qed.
End Init.

(** *** An instance: two regions that are not page aligned *)

Definition ragged_regions : list MemoryRegion :=
  [mkMemoryRegion 0x100100 0x200 Bootloader; mkMemoryRegion 0x103800 0x1001 Bootloader].

Lemma kernel_supply_bound_witness :
  exists fa fs fa1 fa2, init_frame_allocator junk512 junk512 0 0x110000 ragged_regions = Done fa /\
    allocs (@allocate_frame x86_addr_model 1000) fa fs fa1 /\ @allocate_frame x86_addr_model 1000 fa1 = Done (None, fa2) /\
    0 + 0x110000 - 0x100000 <= lost_regions (0 + 0x110000) PAGE_SIZE ragged_regions + PAGE_SIZE * (Z.of_nat (length fs) + 1).
Proof.
  apply (@kernel_supply_bound x86_addr_model x86_addr_model_spec 1000 junk512 junk512 0 0x110000 0x104801 ragged_regions).
  - split; try done; try lia.
    + repeat constructor; cbn; lia.
    + repeat constructor; cbn; lia.
    + repeat constructor; cbn; lia.
    + cbn. unfold MAX_RANGE_COUNT. lia.
    + split; [by exists 0|lia].
  - reflexivity.
  - reflexivity.
Defined.
