(* ===== verification/KernelMain.v ===== *)
(** * The kernel's start

    [kernel/src/main.rs] and [mem/mod.rs]: the part of [_start] that sets up
    memory and the contexts, [userspace_init], which runs in the first context,
    and the loop [run_userspace].  Start.v puts the parts of [_start] together,
    with the log, the descriptor tables, the interrupt controllers and the other
    processors in between. *)

From S2P Require Import Prelude Platform Shared Vdso Paging KPaging Machine Interrupts Descriptors UserAddrSpace Elf ElfImage LoadElf Context Scheduler KFrameAlloc KFrameSupply.

(** [BOOTSTRAP], an address and a length, and [BOOTSTRAP_USR_ADDRSP_BASE]. *)
Record Statics : Type := mkStatics {
  BOOTSTRAP : option (Z * Z);
  BOOTSTRAP_USR_ADDRSP_BASE : option Z
}.

(** [Once::call_once]: the first value stays. *)
Definition call_once {B} (once : option B) (v : B) : option B :=
  match once with Some _ => once | None => Some v end.

Definition KERNEL_PHYS_ADDRSP_P4_INDEX : Z := 256.

(** The 1 GiB of entry 511 of the level-3 table behind level-4 entry 0. *)
Definition BOOTSTRAP_WINDOW : Z := 0x7fc0000000.
Definition in_window (x : Z) : bool := (BOOTSTRAP_WINDOW <=? x) && (x <? BOOTSTRAP_WINDOW + 2 ^ 30).

Section Start.
Context {X : X86Addr} {V : X86Virt} {VT : X86Step} {F : PtFlags} {T A : Type} {TS : TableStore T}.

(** [set_kernel_pml4_page_table]: the mapping of physical memory is also put in
    the higher half; from here on [k_root] is the address of the table.  The
    last check compares it with CR3. *)
Definition set_kernel_pml4_page_table (addr : Z) (k : Kernel T A) : outcome (Kernel T A) :=
  let w := set_tables (ts_copy_p4 (w_tables (k_world k)) addr KERNEL_PHYS_ADDRSP_P4_INDEX addr 0) (k_world k) in
  let k := mkKernel w (k_spaces k) (k_storage k) (k_percpu k) addr in
  _ ← rassert (k_root k =? w_cr3 (k_world k));
  Done k.

Context (frame_alloc_n : Z -> frame_source A) (elf_file_new : list Z -> option ElfFile).
(** The addresses of [enter_usermode] and [userspace_init], and the selectors
    of user mode. *)
Context (enter_usermode_addr userspace_init_addr : Z) (user_code user_data : option Z).

(** [addrsp_pt_0_pml3[511] = kpt_bsp4_pml3[0].clone()] *)
Definition share_bootstrap (s : UserAddrSpace) (k : Kernel T A) : Kernel T A :=
  set_world (set_tables (ts_copy_p3 (w_tables (k_world k)) (as_root s) 0 511
    (k_root k) (Z.of_nat BOOTSTRAP_BYTES_P4) 0) (k_world k)) k.

(** [_start] from [init_context] to [run_userspace]. *)
Definition start_contexts (st : Statics) (k : Kernel T A) : outcome (Statics * Kernel T A) :=
  k ← init_context k;
  '(r, k) ← spawn frame_alloc_n enter_usermode_addr user_code user_data true userspace_init_addr k;
  match r with
  | inr _ => Panic
  | inl id =>
      context ← storage_index id (k_storage k);
      let context := set_status Runnable context in
      let k := put_context id context k in
      match c_addrsp context with
      | None => Panic
      | Some n =>
          s ← or_panic (k_spaces k !! n);
          Done (mkStatics (BOOTSTRAP st) (call_once (BOOTSTRAP_USR_ADDRSP_BASE st) BOOTSTRAP_WINDOW),
            share_bootstrap s k)
      end
  end.

(** The byte at a virtual address, through CR3; elsewhere than at a mapped
    address the processor would fault. *)
Definition virt_byte (w : World T A) (v : Z) : Z :=
  match ts_translate (w_tables w) (w_cr3 w) v with
  | Mapped (Frame4KiB f) o _ | Mapped (Frame2MiB f) o _ | Mapped (Frame1GiB f) o _ => w_mem w (f + o)
  | NotMapped | InvalidFrameAddress => w_mem w v
  end.

(** The kernel's view of memory: identity mapped, but for the window.  [kept_window]
    is physical memory again, after changes outside the window. *)
Definition window_view (w : World T A) : Z -> Z := fun x => if in_window x then virt_byte w x else w_mem w x.
Definition kept_window (w : World T A) (mem : Z -> Z) : Z -> Z := fun x => if in_window x then w_mem w x else mem x.

(** [userspace_init] *)
Definition userspace_init (st : Statics) (k : Kernel T A) : outcome (Kernel T A) :=
  current_context ← or_panic (current k);
  n ← or_panic (c_addrsp current_context);
  base ← or_panic (BOOTSTRAP_USR_ADDRSP_BASE st);
  bootstrap ← or_panic (BOOTSTRAP st);
  addrsp ← or_panic (k_spaces k !! n);
  '(bootstrap_entry, addrsp, w) ← elf_copy_to_addrsp (frame_alloc_n 1) elf_file_new base bootstrap.2 addrsp
    (set_mem (window_view (k_world k)) (k_world k));
  let w := set_mem (kept_window (k_world k) (w_mem w)) w in
  let k := set_spaces (<[n := addrsp]> (k_spaces k)) (set_world w k) in
  let k := set_world (validate addrsp (k_world k)) k in
  context ← or_panic (current k);
  regs ← or_panic (regs context);
  mem ← stack_init user_code user_data regs (w_mem (k_world k));
  Done (set_world (set_mem (set_instr_pointer bootstrap_entry regs mem) (k_world k)) k).
End Start.

(** [_start] up to [interrupts::disable]: the statics, the kernel's table, and
    the frame allocator. *)
Definition start_memory {V : X86Virt} {T} {TS : TableStore T} (junk1 junk2 : list Range) (arg : KernelArg) (st : Statics)
    (k : Kernel T LinearIncFrameAllocator) : outcome (Statics * Kernel T LinearIncFrameAllocator) :=
  let st := mkStatics (call_once (BOOTSTRAP st) (bootstrap_base arg, bootstrap_len arg)) (BOOTSTRAP_USR_ADDRSP_BASE st) in
  k ← set_kernel_pml4_page_table (kernel_pml4_start_addr arg) k;
  phys ← virt_addr_new (phys_mem_mapped_addr arg);
  _ ← rassert (unav_phys_mem_regions_len arg <=? length (unav_phys_mem_regions arg))%nat;
  fa ← init_frame_allocator junk1 junk2 phys (phys_mem_size arg)
    (take (unav_phys_mem_regions_len arg) (unav_phys_mem_regions arg));
  Done (st, set_world (set_frames fa (k_world k)) k).

(** ** The loop *)

Definition cli : instr := fun m => set_rflags (put_flag IF false (m_rflags m)) m.
Definition sti : instr := fun m => set_rflags (put_flag IF true (m_rflags m)) m.

Definition on_machine {G T A} (i : instr) (c : Cpu G T A) : Cpu G T A :=
  mkCpu (cpu_kernel c) (i (cpu_machine c)) (cpu_pcr c) (switch_lock c).

(** One iteration of [run_userspace].  After a switch the processor is in the
    other context, about to execute the [ret] at the end of the switch; the
    [sti; nop] that follows in this context comes when it is resumed. *)
Definition run_userspace_step {G T A} {V : X86Virt} (tss_size : Z) (c : Cpu G T A) : outcome (SwitchResult * Cpu G T A) :=
  '(r, c) ← switch_context tss_size (on_machine cli c);
  match r with
  | Switched _ => Done (r, c)
  | AllContextsIdle => Done (r, on_machine sti c)
  end.

(** ** The first program *)

(** The context the boot processor runs in, and the kernel with it. *)
Definition idle_context (cpu : Z) : Context :=
  mkContext cpu true (Some cpu) false None Runnable (mkSignal 0 0) ContextRegisters_new false None.

Definition initial {T A} (k : Kernel T A) : Kernel T A :=
  let cpu := pb_cpu_id (k_percpu k) in
  mkKernel (k_world k) (k_spaces k) (mkStorage {[ cpu := idle_context cpu ]} (id_allocator (k_storage k)))
    (mkPercpu cpu (set_idle_id cpu (set_context_id cpu (context_switch (k_percpu k)))) (pb_inside_syscall (k_percpu k)))
    (k_root k).

Lemma init_context_ok {T A} (k : Kernel T A) :
  st_map (k_storage k) = ∅ -> init_context k = Done (initial k).
Proof.
  intros Hm. unfold init_context, insert_context, storage_index. destruct k as [w sp [m al] p r].
  cbn in *. subst m. rewrite lookup_empty, !lookup_insert_eq. cbn. rewrite lookup_insert_eq. cbn.
  unfold put_context, set_storage, set_percpu, initial. cbn. by rewrite insert_insert_eq.
Qed.

Section FirstProgram.
Context {X : X86Addr} {XS : X86AddrSpec X} {V : X86Virt} {VS : X86VirtSpec V} {VT : X86Step} {VTS : X86StepSpec VT}.
Context {F : PtFlags} {FS : PtFlagsSpec F} {G T A : Type} {TS : TableStore T} {TSS : TableStoreSpec T TS}.
Context {frame_alloc_n : Z -> frame_source A} {AS : FrameSourceSpec (frame_alloc_n 1)}.
Context (elf_file_new : list Z -> option ElfFile).
Context (enter init cs ss tss_size : Z).
Context (Haddr : 0 <= enter < 2 ^ 64 /\ 0 <= init < 2 ^ 64 /\ 0 <= cs < 2 ^ 64 /\ 0 <= ss < 2 ^ 64).

(** The kernel before [init_context]: no contexts yet, frames for the stack and
    the tables of the first one, the kernel's table with physical memory behind
    entry 0 and the program behind the entry of the bootloader.  Physical memory
    ends below the addresses of the stack and of the window. *)
Record boot_ready (k : Kernel T A) (stack t0 tb id : Z) (al : ContextIdAllocator) (a : A) : Prop := {
  br_map : st_map (k_storage k) = ∅;
  br_percpu : fits 64 (pb_cpu_id (k_percpu k)) /\ switch_result (context_switch (k_percpu k)) = None;
  br_supply : spawn_supply (frame_alloc_n := frame_alloc_n) (initial k) stack t0 id al a;
  br_id : fits 64 id;
  br_free : kstack_free (w_tables (k_world k)) t0;
  br_tb : ts_p4 (w_tables (k_world k)) (k_root k) (Z.of_nat BOOTSTRAP_BYTES_P4) = Some tb;
  br_table : (tb ∉ fs_frames a) /\ tb <> t0 /\ ts_gibs (w_tables (k_world k)) tb !! 0 = None;
  br_stack : stack + KSTACK_TOP <= KSTACK_VIRT;
  br_frames : Forall (fun f => frame_ok f /\ f + PAGE_SIZE <= KSTACK_VIRT /\
    (f + PAGE_SIZE <= stack \/ stack + KSTACK_TOP <= f)) (fs_frames a)
}.

(** The file of the program is mapped in the first GiB behind the entry, in
    frames of its own; [mem] has its bytes at the window. *)
Definition program_mapped (k : Kernel T A) (stack tb : Z) (a : A) (len : Z) (mem : Z -> Z) : Prop :=
  forall x, 0 <= x < page_of (len - 1) + PAGE_SIZE ->
    exists f fl, ts_pages (w_tables (k_world k)) tb !! page_of x = Some (f, fl) /\
      w_mem (k_world k) (f + x mod PAGE_SIZE) = mem (BOOTSTRAP_WINDOW + x) /\
      (f + PAGE_SIZE <= stack \/ stack + KSTACK_TOP <= f) /\ f ∉ fs_frames a.

Definition first_context (id stack : Z) (space : nat) : Context :=
  set_status Runnable (spawned_context id stack space).

Abbreviation start_contexts := (start_contexts frame_alloc_n enter init (Some cs) (Some ss)).

Lemma start_contexts_ok st k stack t0 tb id al a :
  boot_ready k stack t0 tb id al a ->
  exists k1 s, user_spawned enter cs ss init (initial k) stack t0 id k1 s /\
    spawn_kept 136 t0 (initial k) a (k_world k1) s /\
    start_contexts st k =
      Done (mkStatics (BOOTSTRAP st) (call_once (BOOTSTRAP_USR_ADDRSP_BASE st) BOOTSTRAP_WINDOW),
        share_bootstrap s (put_context id (first_context id stack (length (k_spaces k))) k1)).
Proof.
  intros [B1 B2 B3 B4 B5 B6 B7 B8 B9]. destruct Haddr as (? & ? & ? & ?).
  destruct (spawn_user_full enter cs ss init (initial k) stack t0 id al a) as (k1 & s & E & Hus & Hk); [done..|].
  exists k1, s. split; [done|]. split; [done|]. unfold start_contexts.
  rewrite init_context_ok, Done_bind, E, Done_bind by done. cbv beta iota.
  unfold storage_index. rewrite (us_map _ _ _ _ _ _ _ _ _ _ Hus), lookup_insert_eq. cbn [or_panic].
  rewrite Done_bind. cbv zeta. cbn [c_addrsp set_status spawned_context k_spaces put_context set_storage].
  rewrite (us_spaces _ _ _ _ _ _ _ _ _ _ Hus). cbn [k_spaces initial].
  rewrite list_lookup_middle by done. cbn [or_panic]. by rewrite Done_bind.
Qed.

(** A page below level-4 entry 0. *)
Lemma low_translate (t : T) root t0 p o f fl :
  ts_p4 t root 0 = Some t0 -> (PAGE_SIZE | p) -> 0 <= p < 2 ^ 39 -> 0 <= o < PAGE_SIZE ->
  ts_gibs t t0 !! gib_base p = None -> ts_pages t t0 !! p = Some (f, fl) ->
  ts_translate t root (p + o) = Mapped (Frame4KiB f) o fl.
Proof.
  intros H4 Ha Hp Ho Hg Hf. destruct (low_page_p4 p Hp) as [P1 P2].
  by rewrite ts_translate_spec, P1, P2, H4, Hg, Hf.
Qed.

Lemma window_page y : 0 <= y -> page_of (BOOTSTRAP_WINDOW + y) = BOOTSTRAP_WINDOW + page_of y.
Proof.
  intros Hy. destruct (page_of_bounds y) as [Ha Hy']. apply page_of_unique; [|lia].
  apply Z.divide_add_r; [by exists 0x7fc0000|done].
Qed.

(** [k2] is ready to enter the program: its address space is in CR3, with the
    image and the permissions of the file and with the stack; the kernel's stack
    holds the entry to user mode and the frame it loads. *)
Record program_loaded (slot : Z) (Hslot : 0 <= slot < 512) (root stack start : Z) (space : nat) (elf : ElfFile)
    (mem : Z -> Z) (k2 : Kernel T A) (s2 : UserAddrSpace) : Prop := {
  pl_space : k_spaces k2 !! space = Some s2;
  pl_cr3 : w_cr3 (k_world k2) = as_root s2;
  pl_image v b : image mem BOOTSTRAP_WINDOW start 0 (program_iter elf) v = Some b -> user_byte s2 (k_world k2) v = Some b;
  pl_perms v : p4_base slot <= v < p4_base slot + 2 ^ 39 -> user_flags_at s2 (k_world k2) v =
    perms (LS := addrsp_target_spec (frame_alloc_n 1) root slot Hslot nothing_fixed) 0 (program_iter elf) (page_of v);
  pl_stack o : 0 <= o < KSTACK_TOP -> raw_translate s2 (k_world k2) (KSTACK_VIRT + o) =
    Mapped (Frame4KiB (stack + page_of o)) (o mod PAGE_SIZE) kstack_user_flags;
  pl_enter : load64 (w_mem (k_world k2)) (stack + KSTACK_TOP - 168) = enter;
  pl_frame : read_stack (w_mem (k_world k2)) (stack + KSTACK_TOP - 160) =
    regs_frame (fun _ => 0) (mkIret (entry_point elf) cs INTERRUPT_FLAG (KSTACK_VIRT + KSTACK_TOP - 8) ss);
  pl_byte : 0 <= w_mem (k_world k2) (stack + KSTACK_TOP - 160 + 8 * 17) < 256
}.

(** The frame after [regs.init] and [regs.set_instr_pointer]. *)
Lemma instr_pointer_frame b entry mem mem0 : 0 <= entry < 2 ^ 64 ->
  (forall x, b <= x < b + 160 -> mem x = mem0 x) -> read_stack mem0 b = new_frame cs ss ->
  exists mem', stack_init (Some cs) (Some ss) b mem = Done mem' /\
    let mem2 := set_instr_pointer entry b mem' in
    read_stack mem2 b = regs_frame (fun _ => 0) (mkIret entry cs INTERRUPT_FLAG (KSTACK_VIRT + KSTACK_TOP - 8) ss) /\
    0 <= mem2 (b + 8 * 17) < 256 /\ forall x, x < b \/ b + 160 <= x -> mem2 x = mem x.
Proof.
  destruct Haddr as (_ & _ & Hc & Hs). intros He Hm Hf. eexists. split; [done|]. cbv zeta.
  rewrite <- (read_stack_ext mem mem0) in Hf by exact Hm.
  unfold read_stack, new_frame, regs_frame in Hf. injection Hf as F0 F1 F2 F3 F4 F5 F6 F7 F8 F9 F10 F11 F12 F13 F14 F15 F16 F17 F18 F19.
  unfold set_instr_pointer, IRET_OFFSET, PRESERVED_SIZE, SCRATCH_SIZE, store64. split; [|split].
  - unfold read_stack, regs_frame. rewrite <- !Z.add_assoc.
    f_equal; f_equal; mem_words; rewrite <- ?Z.add_assoc; try done; by apply load64_store64.
  - rewrite !store_bytes_outside by lia. unfold store_bytes.
    rewrite (proj2 (Z.leb_le _ _)), (proj2 (Z.ltb_lt _ _)) by lia. by apply Z.mod_pos_bound.
  - intros x Hx. by rewrite !store_bytes_outside by lia.
Qed.

Section Started.
Context (k : Kernel T A) (stack t0 tb id : Z) (al : ContextIdAllocator) (a : A).
Context (Hb : boot_ready k stack t0 tb id al a) (k1 : Kernel T A) (s : UserAddrSpace).
Context (Hus : user_spawned enter cs ss init (initial k) stack t0 id k1 s).
Context (Hk : spawn_kept 136 t0 (initial k) a (k_world k1) s).

Let started : Kernel T A := share_bootstrap s (put_context id (first_context id stack (length (k_spaces k))) k1).
Let cpu : Z := pb_cpu_id (k_percpu k).

Lemma started_map : st_map (k_storage started) =
  <[id := first_context id stack (length (k_spaces k))]> {[ cpu := idle_context cpu ]}.
Proof.
  unfold started, share_bootstrap. cbn [k_storage set_world put_context set_storage st_map set_map].
  rewrite (us_map _ _ _ _ _ _ _ _ _ _ Hus). by rewrite insert_insert_eq.
Qed.

Lemma started_id : id <> cpu.
Proof. apply (sp_other _ _ _ _ _ _ (br_supply _ _ _ _ _ _ _ Hb)). Qed.

Lemma started_percpu : k_percpu started = k_percpu (initial k).
Proof. apply (us_percpu _ _ _ _ _ _ _ _ _ _ Hus). Qed.

Lemma started_spaces : k_spaces started = k_spaces k ++ [s].
Proof. apply (us_spaces _ _ _ _ _ _ _ _ _ _ Hus). Qed.

(** The tables of the new address space. *)
Lemma started_tables :
  (forall r i, ts_p4 (w_tables (k_world started)) r i = ts_p4 (w_tables (k_world k1)) r i) /\
  (forall p, ts_pages (w_tables (k_world started)) t0 !! p =
     if decide (p / 2 ^ 30 = 511) then ts_pages (w_tables (k_world k)) tb !! (p - BOOTSTRAP_WINDOW)
     else ts_pages (w_tables (k_world k1)) t0 !! p) /\
  ts_gibs (w_tables (k_world started)) t0 !! BOOTSTRAP_WINDOW = None /\
  ts_gibs (w_tables (k_world started)) t0 !! KSTACK_VIRT = None.
Proof.
  destruct Hb as [_ _ _ _ [_ B5] B6 (B7 & B8 & B9) _ _]. destruct Hk as [_ K2 K3 _ _].
  destruct (K3 tb B7) as [K4 K5].
  destruct (ts_copy_p3_spec (w_tables (k_world k1)) (as_root s) 0 511 (k_root k1) (Z.of_nat BOOTSTRAP_BYTES_P4) 0 t0 tb)
    as (C1 & C2 & C3).
  { apply (us_shared _ _ _ _ _ _ _ _ _ _ Hus). }
  { rewrite (us_root _ _ _ _ _ _ _ _ _ _ Hus), K2. exact B6. }
  split; [exact C1|]. split; [|split].
  - intros p. unfold started, share_bootstrap. cbn [w_tables k_world set_world set_tables put_context set_storage].
    rewrite C2. destruct (decide (p / 2 ^ 30 = 511)) as [Hp|Hp]; [|by rewrite decide_False by tauto].
    rewrite decide_True, K5 by done. cbn [k_world initial]. f_equal. unfold BOOTSTRAP_WINDOW. lia.
  - refine (eq_trans (C3 t0 BOOTSTRAP_WINDOW) _). rewrite decide_True by done. rewrite K4. exact B9.
  - refine (eq_trans (C3 t0 KSTACK_VIRT) _). rewrite decide_False by (intros [_ ?]; done).
    rewrite (us_gibs _ _ _ _ _ _ _ _ _ _ Hus). exact B5.
Qed.

Lemma started_inv m (pcr : ProcessorControlRegion G) :
  8 <= get RSP m < 2 ^ 64 -> fits 64 (m_rflags m) -> sched_inv (mkCpu started m pcr false).
Proof.
  intros Hm1 Hm2. pose proof started_id as Hne. destruct (br_percpu _ _ _ _ _ _ _ Hb) as [Hcpu Hres].
  pose proof (br_stack _ _ _ _ _ _ _ Hb) as Hst.
  destruct (sp_stack _ _ _ _ _ _ (br_supply _ _ _ _ _ _ _ Hb)) as (_ & H0 & _).
  split; cbn [cpu_kernel cpu_machine switch_lock]; try done; unfold current, context_id;
    rewrite ?started_map, ?started_percpu.
  - intros i x [[<- <-]|[_ [<- <-]%lookup_singleton_Some]]%lookup_insert_Some.
    + change KSTACK_TOP with (PAGE_SIZE * 64) in *. change KSTACK_VIRT with 0x7f80000000 in *.
      split; [split; [apply (br_id _ _ _ _ _ _ _ Hb)|done]|done| | |].
      * intros _. split; [|done]. change (8 <= stack + PAGE_SIZE * 64 - 176 < 2 ^ 64). page_lia.
      * intros p l [= <- <-]. change (virt_addr_new (stack + PAGE_SIZE * 64) = Done (stack + PAGE_SIZE * 64)).
        apply virt_addr_new_ok. left. page_lia.
      * intros n [= <-]. rewrite started_spaces, list_lookup_middle by done. by eexists.
    + by split.
  - exists (idle_context cpu). cbn. rewrite lookup_insert_ne by done. split; [apply lookup_singleton_eq|done].
  - cbn. intros i x [[<- <-]|[_ [<- <-]%lookup_singleton_Some]]%lookup_insert_Some; done.
  - cbn. rewrite lookup_insert_ne, lookup_singleton_eq by done. by intros x n s' [= <-].
  - exact Hres.
Qed.

Let space : nat := length (k_spaces k).

(** The first switch goes to the new context. *)
Lemma first_switch m (pcr : ProcessorControlRegion G) :
  8 <= get RSP m < 2 ^ 64 -> fits 64 (m_rflags m) -> fits 16 tss_size ->
  let c := mkCpu started (cli m) pcr false in
  exists flags c1, run_userspace_step tss_size (mkCpu started m pcr false) = Done (Switched false, c1) /\
    switched tss_size c (idle_context cpu) (first_context id stack space) flags c1 /\
    current (cpu_kernel c1) = Some (entered_context cpu (first_context id stack space)).
Proof.
  intros Hm1 Hm2 Htss c. pose proof started_id as Hne.
  assert (Hinv : sched_inv c) by (apply started_inv; [done|by apply put_flag_fits]).
  assert (Hmap : forall i, st_map (k_storage (cpu_kernel c)) !! i =
    <[id := first_context id stack space]> {[ cpu := idle_context cpu ]} !! i) by (intros i; exact (f_equal (lookup i) started_map)).
  assert (Hcur : current (cpu_kernel c) = Some (idle_context cpu)).
  { unfold current, context_id. rewrite Hmap. cbn [cpu_kernel c]. rewrite started_percpu.
    change (cs_context_id _) with cpu. rewrite lookup_insert_ne by done. apply lookup_singleton_eq. }
  assert (Hcpu : pb_cpu_id (k_percpu (cpu_kernel c)) = cpu) by (cbn [cpu_kernel c]; by rewrite started_percpu).
  destruct (switch_context_spec tss_size c (idle_context cpu) Hinv Htss Hcur)
    as [[_ Hn]|(next & flags & c1 & Hn & Hne1 & Hr & _ & E & Hsw)].
  { assert (Hf : ready (pb_cpu_id (k_percpu (cpu_kernel c))) (first_context id stack space) = false).
    { apply (Hn id); [|done]. rewrite Hmap. apply lookup_insert_eq. }
    done. }
  assert (next = first_context id stack space) as ->.
  { rewrite Hmap in Hn. apply lookup_insert_Some in Hn as [[_ <-]|[_ Hn]]; [done|].
    apply lookup_singleton_Some in Hn as [Hn _]. by destruct Hne1. }
  exists flags, c1. split; [|split; [done|]].
  - unfold run_userspace_step. change (on_machine cli _) with c. by rewrite E, Done_bind.
  - pose proof (switched_current tss_size c (idle_context cpu) (first_context id stack space) flags c1 Hsw) as ->.
    by rewrite Hcpu.
Qed.

Section Switched.
Context (m : machine) (pcr : ProcessorControlRegion G) (flags : Z) (c1 : Cpu G T A).
Context (Hsw : switched tss_size (mkCpu started (cli m) pcr false) (idle_context cpu) (first_context id stack space) flags c1).
Context (Hcur : current (cpu_kernel c1) = Some (entered_context cpu (first_context id stack space))).

Let w1 : World T A := k_world (cpu_kernel c1).
Let top : Z := stack + KSTACK_TOP.

Lemma switched_mem x : x < top - 184 \/ top - 176 <= x -> w_mem w1 x = w_mem (k_world k1) x.
Proof.
  intros Hx. unfold w1. rewrite (sw_mem _ _ _ _ _ _ Hsw).
  destruct (sw_machine _ _ _ _ _ _ Hsw) as (m1 & Q & _ & L).
  rewrite (ld_mem _ _ _ L) by (change (cr_rsp _) with (top - 176); lia). by rewrite (q_mem _ _ _ Q).
Qed.

Lemma switched_tables : w_tables w1 = w_tables (k_world started) /\ w_frames w1 = w_frames (k_world k1) /\
  w_cr3 w1 = as_root s.
Proof.
  destruct (sw_world _ _ _ _ _ _ Hsw) as (W1 & W2 & W3). split; [exact W1|]. split; [exact W2|].
  unfold w1. rewrite W3. unfold cr3_for. cbn [c_addrsp first_context set_status spawned_context].
  rewrite decide_False by done. cbn [cpu_kernel]. unfold space. by rewrite started_spaces, list_lookup_middle.
Qed.

(** Through the window the kernel reads the program. *)
Lemma switched_view len mem x : program_mapped k stack tb a len mem -> 0 < len <= 2 ^ 30 ->
  slice_lo BOOTSTRAP_WINDOW <= x < slice_hi BOOTSTRAP_WINDOW len -> window_view w1 x = mem x.
Proof.
  intros Hp Hlen Hx. unfold slice_lo, slice_hi in Hx.
  rewrite page_of_aligned, <- Z.add_sub_assoc, window_page in Hx by (by exists 0x7fc0000 || lia).
  set (y := x - BOOTSTRAP_WINDOW). assert (Hy : 0 <= y < page_of (len - 1) + PAGE_SIZE) by (unfold y; lia).
  destruct (page_of_bounds (len - 1)) as [[q Hq] Hq']. destruct (page_of_bounds y) as [Hya Hyb].
  assert (Hy30 : y < 2 ^ 30) by (unfold PAGE_SIZE in *; lia).
  destruct (Hp y Hy) as (f & fl & F1 & F2 & F3 & _).
  unfold window_view, in_window. rewrite (proj2 (Z.leb_le _ _)), (proj2 (Z.ltb_lt _ _)) by (unfold y in *; lia).
  cbn [andb]. unfold virt_byte. destruct switched_tables as (-> & _ & ->).
  destruct started_tables as (T1 & T2 & T3 & _).
  set (p := BOOTSTRAP_WINDOW + page_of y).
  assert (Hpy : 0 <= page_of y < 2 ^ 30) by (destruct Hya as [j Hj]; unfold PAGE_SIZE in *; lia).
  assert (Hgib : p mod 2 ^ 30 = page_of y) by (unfold p; apply aligned_offset; [done|by exists 511|done]).
  replace x with (p + y mod PAGE_SIZE) by (unfold p, y; rewrite page_of_mod; fold y; lia).
  rewrite (low_translate _ _ t0 p (y mod PAGE_SIZE) f fl).
  - change KSTACK_TOP with 0x40000 in F3.
    rewrite switched_mem, (us_mem _ _ _ _ _ _ _ _ _ _ Hus) by (rewrite page_of_mod; unfold top; change KSTACK_TOP with 0x40000; lia).
    cbn [k_world initial]. rewrite F2, page_of_mod. f_equal. unfold p, y. lia.
  - rewrite T1. apply (us_shared _ _ _ _ _ _ _ _ _ _ Hus).
  - apply Z.divide_add_r; [by exists 0x7fc0000|done].
  - unfold p, BOOTSTRAP_WINDOW. lia.
  - by apply Z.mod_pos_bound.
  - unfold gib_base. rewrite Hgib. replace (p - page_of y) with BOOTSTRAP_WINDOW by (unfold p; lia). exact T3.
  - rewrite T2, decide_True; [by replace (p - BOOTSTRAP_WINDOW) with (page_of y) by (unfold p; lia)|].
    unfold p. symmetry. apply (Z.div_unique _ _ _ (page_of y)); unfold BOOTSTRAP_WINDOW; lia.
Qed.

(** What holds of the frames of the program. *)
Definition program_frame (f : Z) : Prop :=
  frame_ok f /\ f + PAGE_SIZE <= KSTACK_VIRT /\ (f + PAGE_SIZE <= stack \/ stack + KSTACK_TOP <= f).

Definition kept_tables : Fixed :=
  mkFixed (fun i => if decide (i = 0) then Some (Some t0) else None)
    (fun t => if decide (t = t0) then Some (ts_pages (w_tables w1) t0, ts_gibs (w_tables w1) t0) else None)
    program_frame.

Context (slot : Z) (Hslot : 0 <= slot < 512) (Hown : slot ∉ shared_entries).
Abbreviation spec r := (addrsp_target_spec (frame_alloc_n 1) r slot Hslot nothing_fixed).

(** The loader in the new context. *)
Lemma load_first root elf len start mem :
  loadable (frame_alloc_n 1) elf_file_new root slot Hslot elf BOOTSTRAP_WINDOW len start mem ->
  program_mapped k stack tb a len mem -> len <= 2 ^ 30 ->
  (136 + total_cost 0 (program_iter elf) <= length (fs_frames a))%nat ->
  exists s2 w2, elf_copy_to_addrsp (frame_alloc_n 1) elf_file_new BOOTSTRAP_WINDOW len s (set_mem (window_view w1) w1) =
      Done (entry_point elf, s2, w2) /\
    slot_inv (frame_alloc_n 1) (as_root s) slot kept_tables (s2, w2) /\
    (forall x, top - 176 <= x < top -> w_mem w2 x = w_mem (k_world k1) x) /\
    (forall v b, image mem BOOTSTRAP_WINDOW start 0 (program_iter elf) v = Some b ->
       slot_page (p4_base slot) (page_of v) /\ user_byte s2 w2 v = Some b) /\
    (forall v, p4_base slot <= v < p4_base slot + 2 ^ 39 ->
       user_flags_at s2 w2 v = perms (LS := spec root) 0 (program_iter elf) (page_of v)).
Proof.
  intros [L1 L2 L3 L4 L5 L6] Hp Hlen Hcost.
  destruct switched_tables as (W1 & W2 & W3). destruct started_tables as (T1 & _).
  pose proof (br_supply _ _ _ _ _ _ _ Hb) as Hsup. pose proof (br_frames _ _ _ _ _ _ _ Hb) as Hfr.
  pose proof (br_stack _ _ _ _ _ _ _ Hb) as Hst. destruct Hk as [K1 _ _ K4 (n & Kn & K5)].
  assert (Hpf : Forall program_frame (fs_frames (w_frames w1))) by (rewrite W2, K5; by apply Forall_drop).
  assert (Hlow : forall x, top - 176 <= x < top -> in_window x = false).
  { intros x Hx. unfold in_window. apply andb_false_iff. left. apply Z.leb_gt.
    unfold top in Hx. unfold KSTACK_VIRT, BOOTSTRAP_WINDOW in *. lia. }
  destruct (elf_copy_ok (frame_alloc_n 1) elf_file_new (as_root s) slot Hslot kept_tables
    (fun x => top - 176 <= x < top) mem elf BOOTSTRAP_WINDOW len start s (set_mem (window_view w1) w1))
    as (s2 & w2 & n' & E & Hinv & _ & _ & Hkept & Himg & Hperm).
  - split; try done. by apply (headers_ok_same (spec root) (spec (as_root s))).
  - split; cbn [w_tables w_frames set_mem]; [done|rewrite W1, T1; by apply K1| | |].
    + split; [by rewrite W2|]. eapply Forall_impl; [exact Hpf|]. by intros f [? _].
    + eapply Forall_impl; [exact Hpf|]. intros f (_ & Hf & _). left. unfold slice_lo.
      rewrite page_of_aligned by (by exists 0x7fc0000). unfold KSTACK_VIRT, BOOTSTRAP_WINDOW in *. lia.
    + rewrite W2, K5, length_drop. lia.
  - intros x Hx. apply (switched_view len); try done. lia.
  - eapply Forall_impl; [exact Hpf|]. intros f (_ & _ & Hf) x Hx Hx'. unfold top in Hx'.
    change KSTACK_TOP with 0x40000 in *. lia.
  - intros i e. cbn [fx_entries kept_tables]. case_decide as Hi; [|done]. intros [= <-] _. subst i.
    cbn [w_tables set_mem]. rewrite W1, T1. apply (us_shared _ _ _ _ _ _ _ _ _ _ Hus).
  - intros t x. cbn [fx_tables kept_tables]. case_decide as Ht; [|done]. intros [= <-]. subst t. split; [|done].
    cbn [w_frames set_mem]. rewrite W2, K5. intros Hin%subseteq_drop. by apply (sp_t0 _ _ _ _ _ _ Hsup).
  - exact Hpf.
  - exists s2, w2. split; [exact E|]. split; [done|]. split; [|split; [done|]].
    + intros x Hx. rewrite Hkept by done. cbn [w_mem set_mem]. unfold window_view. rewrite Hlow by done.
      apply switched_mem. lia.
    + intros v Hv. rewrite Hperm by done. by rewrite (perms_same (spec root) (spec (as_root s))).
Qed.

(** The stack of the context stays mapped for the program. *)
Lemma stack_mapped s2 w2 o : slot_inv (frame_alloc_n 1) (as_root s) slot kept_tables (s2, w2) -> 0 <= o < KSTACK_TOP ->
  raw_translate s2 w2 (KSTACK_VIRT + o) = Mapped (Frame4KiB (stack + page_of o)) (o mod PAGE_SIZE) kstack_user_flags.
Proof.
  intros [S1 _ _ _ S5 S6 _ _] Ho. cbn [fst snd] in *.
  destruct switched_tables as (W1 & _ & _). destruct started_tables as (_ & T2 & _ & T4).
  destruct (S6 t0 (ts_pages (w_tables w1) t0, ts_gibs (w_tables w1) t0)) as (_ & _ & P & Q).
  { cbn [fx_tables kept_tables]. by rewrite decide_True. }
  cbn [fst snd] in P, Q. rewrite W1 in P, Q. destruct (page_of_bounds o) as [[j Hj] Hob].
  change KSTACK_TOP with (PAGE_SIZE * 64) in Ho. unfold raw_translate.
  assert (Hpg : (Z.to_nat j < 64)%nat /\ PAGE_SIZE * Z.of_nat (Z.to_nat j) = page_of o) by (unfold PAGE_SIZE in *; lia).
  destruct Hpg as [Hj64 Hjo]. rewrite (page_of_mod o).
  replace (KSTACK_VIRT + o) with (KSTACK_VIRT + page_of o + (o - page_of o)) by lia.
  rewrite S1. apply (low_translate _ _ t0).
  - apply S5; [cbn [fx_entries kept_tables]; by rewrite decide_True|]. intros <-. apply Hown. left.
  - apply Z.divide_add_r; [by exists 0x7f80000|by exists j].
  - unfold KSTACK_VIRT, PAGE_SIZE in *. lia.
  - lia.
  - rewrite <- Hjo, kstack_gib by done. by rewrite Q.
  - rewrite P, T2, decide_False.
    + rewrite <- Hjo. apply (us_pages _ _ _ _ _ _ _ _ _ _ Hus). exact Hj64.
    + intros Hd. rewrite <- (Z.div_unique (KSTACK_VIRT + page_of o) (2 ^ 30) 510 (page_of o)) in Hd; [done| |];
        unfold KSTACK_VIRT, PAGE_SIZE in *; lia.
Qed.

(** A byte of a frame of the program is not touched after loading. *)
Lemma loaded_byte s2 (w2 w3 : World T A) v b : slot_inv (frame_alloc_n 1) (as_root s) slot kept_tables (s2, w2) ->
  w_tables w3 = w_tables w2 ->
  (forall x, in_window x = false -> x < top - 160 \/ top <= x -> w_mem w3 x = w_mem w2 x) ->
  slot_page (p4_base slot) (page_of v) -> user_byte s2 w2 v = Some b -> user_byte s2 w3 v = Some b.
Proof.
  intros Hinv Ht Hm Hv. unfold user_byte.
  pose proof (slot_translate (frame_alloc_n 1) (as_root s) slot Hslot kept_tables (s2, w2) v Hinv Hv) as Htr.
  assert (Htr3 : raw_translate s2 w3 v = raw_translate s2 w2 v) by (unfold raw_translate; by rewrite Ht).
  rewrite Htr3. cbn [fst snd] in Htr. rewrite Htr.
  destruct (slot_lookup (as_root s) slot (s2, w2) (page_of v)) as [[f fl]|] eqn:El; [|done].
  destruct (si_mapped _ _ _ _ _ Hinv _ _ _ Hv El) as (_ & F2 & F3). pose proof (Z.mod_pos_bound v PAGE_SIZE eq_refl).
  intros <-. f_equal. apply Hm; unfold top; change KSTACK_TOP with 0x40000 in *; [|lia].
  unfold in_window. apply andb_false_iff. left. apply Z.leb_gt. unfold KSTACK_VIRT, BOOTSTRAP_WINDOW in *. lia.
Qed.

Lemma userspace_init_ok st ptr root elf len start mem :
  BOOTSTRAP st = Some (ptr, len) -> BOOTSTRAP_USR_ADDRSP_BASE st = Some BOOTSTRAP_WINDOW ->
  loadable (frame_alloc_n 1) elf_file_new root slot Hslot elf BOOTSTRAP_WINDOW len start mem ->
  program_mapped k stack tb a len mem -> len <= 2 ^ 30 ->
  (136 + total_cost 0 (program_iter elf) <= length (fs_frames a))%nat ->
  exists k2 s2, userspace_init frame_alloc_n elf_file_new (Some cs) (Some ss) st (cpu_kernel c1) = Done k2 /\
    program_loaded slot Hslot root stack start space elf mem k2 s2.
Proof.
  intros Hst1 Hst2 Hload Hp Hlen Hcost.
  destruct (load_first root elf len start mem Hload Hp Hlen Hcost) as (s2 & w2 & E & Hinv & Hmem & Himg & Hperm).
  set (m0 := kept_window w1 (w_mem w2)).
  assert (Hm0 : forall x, top - 176 <= x < top -> m0 x = w_mem (k_world k1) x).
  { intros x Hx. unfold m0, kept_window, in_window. rewrite (proj2 (Z.leb_gt _ _)); [by apply Hmem|].
    pose proof (br_stack _ _ _ _ _ _ _ Hb). unfold top in Hx. unfold KSTACK_VIRT, BOOTSTRAP_WINDOW in *. lia. }
  destruct (instr_pointer_frame (top - 160) (entry_point elf) m0 (w_mem (k_world k1))) as (m1 & E1 & R1 & R2 & R3).
  { destruct (lb_entry _ _ _ _ _ _ _ _ _ _ Hload); lia. }
  { intros x Hx. apply Hm0. lia. }
  { apply (us_frame _ _ _ _ _ _ _ _ _ _ Hus). }
  assert (Hspace : k_spaces (cpu_kernel c1) = k_spaces k ++ [s]).
  { rewrite (proj1 (sw_kernel _ _ _ _ _ _ Hsw)). apply started_spaces. }
  eexists _, s2. split.
  - unfold userspace_init. rewrite Hcur, Hst1, Hst2. cbn [or_panic]. rewrite Done_bind.
    cbn [c_addrsp entered_context set_cpu_id set_running first_context set_status spawned_context or_panic].
    rewrite !Done_bind, Hspace, list_lookup_middle by done. cbn [or_panic snd]. rewrite Done_bind.
    fold w1. rewrite E, Done_bind. cbv beta iota zeta.
    change (current (set_world _ _)) with (current (cpu_kernel c1)). rewrite Hcur. cbn [or_panic].
    rewrite Done_bind. change (regs _) with (Some (stack + (KSTACK_TOP - 160))). cbn [or_panic].
    rewrite Done_bind. cbn [k_world set_world set_spaces w_mem set_mem validate set_cr3]. fold m0.
    replace (stack + (KSTACK_TOP - 160)) with (top - 160) by (unfold top; lia).
    rewrite E1, Done_bind. done.
  - split; cbn [k_spaces k_world set_world set_spaces w_mem w_cr3 set_mem validate set_cr3].
    + apply list_lookup_insert_eq. rewrite length_app. simpl. unfold space. lia.
    + done.
    + intros v b Hv. destruct (Himg v b Hv) as [Hs Hu]. apply (loaded_byte s2 w2); try done.
      intros x Hx1 Hx2. cbn [w_mem set_mem]. rewrite R3 by lia. unfold m0, kept_window. by rewrite Hx1.
    + intros v Hv. by rewrite <- Hperm.
    + intros o Ho. exact (stack_mapped s2 w2 o Hinv Ho).
    + change (load64 (set_instr_pointer (entry_point elf) (top - 160) m1) (top - 168) = enter).
      rewrite (load64_outside _ (w_mem (k_world k1))); [apply (us_enter _ _ _ _ _ _ _ _ _ _ Hus)|].
      intros x Hx. rewrite R3, Hm0 by lia. done.
    + exact R1.
    + exact R2.
Qed.
End Switched.
End Started.

(** The two returns that lead from the switch into user mode: to the function
    at the saved stack pointer, and from it to [enter_usermode]. *)
Lemma enter_program (c1 : Cpu G T A) slot Hslot root stack start space elf mem k2 s2 star m2 :
  program_loaded slot Hslot root stack start space elf mem k2 s2 ->
  0 <= stack -> stack + KSTACK_TOP <= KSTACK_VIRT -> canonical (entry_point elf) ->
  get RSP (ret (cpu_machine c1)) = stack + KSTACK_TOP - 168 ->
  m_msr (ret (cpu_machine c1)) IA32_STAR = star ->
  rust_call 168 (fun _ _ => Done (w_mem (k_world k2))) (ret (cpu_machine c1)) m2 ->
  m_rip (ret m2) = enter /\
  let u := enter_usermode (ret m2) in
  m_rip u = entry_point elf /\ get RSP u = KSTACK_VIRT + KSTACK_TOP - 8 /\
  m_rflags u = Z.lor INTERRUPT_FLAG 2 /\
  m_cs u = Z.lor (wrap 16 (star / 2 ^ 48) + 16) 3 /\ m_ss u = Z.lor (wrap 16 (star / 2 ^ 48) + 8) 3.
Proof.
  intros [_ _ _ _ _ P6 P7 P8] H0 Htop He Hsp Hstar [R1 (mem' & [= <-] & R2) _ _ R5 _].
  pose proof (R1 RSP ltac:(by apply (bool_decide_unpack _))) as Hsp2. rewrite Hsp in Hsp2, R2.
  change KSTACK_TOP with 0x40000 in *. change KSTACK_VIRT with 0x7f80000000 in *.
  assert (Hmem : forall x, stack + 0x40000 - 168 <= x < stack + 0x40000 -> m_mem (ret m2) x = w_mem (k_world k2) x).
  { intros x Hx. apply R2. lia. }
  assert (Hsp3 : get RSP (ret m2) = stack + 0x40000 - 160).
  { unfold ret. change (get RSP (set_rip _ ?m)) with (get RSP m). rewrite get_set_eq, Hsp2, wrap_small; lia. }
  split.
  { unfold ret. cbn [m_rip set_rip]. rewrite Hsp2, (load64_outside _ (w_mem (k_world k2))); [done|].
    intros x Hx. apply R2. lia. }
  destruct (enter_usermode_spec (ret m2) (read_stack (w_mem (k_world k2)) (stack + 0x40000 - 160))) as (E1 & E2 & _).
  { rewrite Hsp3. lia. }
  { rewrite Hsp3. unfold INT_REGS_SIZE, PRESERVED_SIZE, SCRATCH_SIZE. lia. }
  { rewrite Hsp3, Hmem by lia. exact P8. }
  { rewrite Hsp3. apply read_stack_ext. intros x Hx. apply Hmem.
    unfold INT_REGS_SIZE, PRESERVED_SIZE, SCRATCH_SIZE in Hx. lia. }
  cbv zeta. rewrite P7 in E1, E2. change (m_msr (ret m2)) with (m_msr m2) in E2. rewrite R5, Hstar in E2.
  change (Z.testbit _ TF) with false in E2. destruct E2 as (-> & -> & -> & ->).
  split; [|split; [|done]].
  - cbn [i_rip iret regs_frame]. by apply sign_extend48_canonical.
  - rewrite E1 by (by apply (bool_decide_unpack _)). done.
Qed.

(** The first program runs: from a kernel with enough frames, [_start]
    creates the context of the first program, the loop of [run_userspace]
    switches to it, [userspace_init] loads the file that the bootloader left in
    memory, and the processor enters user mode at the program's entry point, on
    its stack, with interrupts enabled, in the user segments.  The address space
    in CR3 then shows the image of the file with the permissions of its headers
    and the pages of the stack, and the task state segment has the kernel's
    stack. *)
Theorem first_program_starts st ptr k stack t0 tb id al a m (pcr : ProcessorControlRegion G) slot Hslot root elf len start mem entry boot :
  boot_ready k stack t0 tb id al a ->
  BOOTSTRAP st = Some (ptr, len) -> BOOTSTRAP_USR_ADDRSP_BASE st = None -> len <= 2 ^ 30 ->
  program_mapped k stack tb a len mem ->
  loadable (frame_alloc_n 1) elf_file_new root slot Hslot elf BOOTSTRAP_WINDOW len start mem -> slot ∉ shared_entries ->
  (136 + total_cost 0 (program_iter elf) <= length (fs_frames a))%nat ->
  8 <= get RSP m < 2 ^ 64 -> fits 64 (m_rflags m) -> fits 16 tss_size ->
  m_msr m IA32_STAR = m_msr (init_syscall entry boot) IA32_STAR ->
  exists st' k' c1 k2 s2,
    start_contexts st k = Done (st', k') /\
    run_userspace_step tss_size (mkCpu k' m pcr false) = Done (Switched false, c1) /\
    m_rip (ret (cpu_machine c1)) = init /\ tss_privilege_stack (cpu_pcr c1) = stack + KSTACK_TOP /\
    userspace_init frame_alloc_n elf_file_new (Some cs) (Some ss) st' (cpu_kernel c1) = Done k2 /\
    program_loaded slot Hslot root stack start (length (k_spaces k)) elf mem k2 s2 /\
    forall m2, rust_call 168 (fun _ _ => Done (w_mem (k_world k2))) (ret (cpu_machine c1)) m2 ->
      m_rip (ret m2) = enter /\
      let u := enter_usermode (ret m2) in
      m_rip u = entry_point elf /\ get RSP u = KSTACK_VIRT + KSTACK_TOP - 8 /\
      m_rflags u = Z.lor INTERRUPT_FLAG 2 /\ m_cs u = CS_SEL /\ m_ss u = SS_SEL.
Proof.
  intros Hb Hs1 Hs2 Hlen Hp Hload Hslot' Hcost Hm1 Hm2 Htss Hstar.
  destruct (start_contexts_ok st k stack t0 tb id al a Hb) as (k1 & s & Hus & Hk & E0).
  destruct (first_switch k stack t0 tb id al a Hb k1 s Hus m pcr Hm1 Hm2 Htss) as (flags & c1 & E1 & Hsw & Hcur).
  edestruct (userspace_init_ok k stack t0 tb id al a Hb k1 s Hus Hk m pcr flags c1 Hsw Hcur slot Hslot Hslot'
    (mkStatics (BOOTSTRAP st) (call_once (BOOTSTRAP_USR_ADDRSP_BASE st) BOOTSTRAP_WINDOW)) ptr root elf len start mem)
    as (k2 & s2 & E2 & Hl); try done; [cbn; by rewrite Hs2|].
  eexists _, _, c1, k2, s2. split; [exact E0|]. split; [exact E1|].
  destruct (sw_machine _ _ _ _ _ _ Hsw) as (m1 & Q & Hmsr & L).
  pose proof (ld_rsp _ _ _ L) as Hsp. change (cr_rsp _) with (stack + KSTACK_TOP - 176) in Hsp.
  pose proof (br_stack _ _ _ _ _ _ _ Hb) as Hst. destruct (sp_stack _ _ _ _ _ _ (br_supply _ _ _ _ _ _ _ Hb)) as (_ & H0 & _).
  split; [|split; [|split; [exact E2|split; [exact Hl|]]]].
  - unfold ret. cbn [m_rip set_rip]. rewrite Hsp, <- (sw_mem _ _ _ _ _ _ Hsw).
    rewrite (load64_outside _ (w_mem (k_world k1))); [apply (us_func _ _ _ _ _ _ _ _ _ _ Hus)|].
    intros x Hx. eapply switched_mem; [exact Hsw|lia].
  - by apply (sw_tss _ _ _ _ _ _ Hsw).
  - intros m2 Hcall.
    destruct (enter_program c1 slot Hslot root stack start (length (k_spaces k)) elf mem k2 s2
      (m_msr (init_syscall entry boot) IA32_STAR) m2) as (R1 & R2 & R3 & R4 & R5 & R6); try done.
    + apply (lb_entry _ _ _ _ _ _ _ _ _ _ Hload).
    + unfold ret. change (get RSP (set_rip _ ?m)) with (get RSP m).
      rewrite get_set_eq, Hsp, wrap_small; [lia|]. change KSTACK_TOP with 0x40000 in *. unfold KSTACK_VIRT in *. lia.
    + change (m_msr (cpu_machine c1) IA32_STAR = m_msr (init_syscall entry boot) IA32_STAR).
      rewrite (ld_msr _ _ _ L), Hmsr. exact Hstar.
Qed.
End FirstProgram.

(** ** Memory *)

(** [start_memory] returns when the bootloader's table is in CR3 and its regions
    are ones the frame allocator can be started with; physical memory is then
    mapped behind entries 0 and 256 of the kernel's table, nothing else in the
    tables has changed, and the allocator can hand out frames. *)
Theorem start_memory_ok {X : X86Addr} {XS : X86AddrSpec X} {V : X86Virt} {VS : X86VirtSpec V} {T} {TS : TableStore T}
    {TSS : TableStoreSpec T TS} fuel junk1 junk2 E arg st (k : Kernel T LinearIncFrameAllocator) :
  startable fuel (phys_mem_mapped_addr arg) (phys_mem_size arg) E
    (take (unav_phys_mem_regions_len arg) (unav_phys_mem_regions arg)) ->
  length junk1 = MAX_RANGE_COUNT -> length junk2 = MAX_RANGE_COUNT -> canonical (phys_mem_mapped_addr arg) ->
  (unav_phys_mem_regions_len arg <= length (unav_phys_mem_regions arg))%nat ->
  w_cr3 (k_world k) = kernel_pml4_start_addr arg -> BOOTSTRAP st = None ->
  exists st' k', start_memory junk1 junk2 arg st k = Done (st', k') /\
    BOOTSTRAP st' = Some (bootstrap_base arg, bootstrap_len arg) /\ k_root k' = kernel_pml4_start_addr arg /\
    supplied fuel E (w_frames (k_world k')) /\
    (forall r i, ts_p4 (w_tables (k_world k')) r i = if decide (r = k_root k' /\ i = KERNEL_PHYS_ADDRSP_P4_INDEX)
       then ts_p4 (w_tables (k_world k)) r 0 else ts_p4 (w_tables (k_world k)) r i) /\
    (forall t, ts_pages (w_tables (k_world k')) t = ts_pages (w_tables (k_world k)) t /\
       ts_gibs (w_tables (k_world k')) t = ts_gibs (w_tables (k_world k)) t).
Proof.
  intros Hst Hj1 Hj2 Hc Hlen Hcr3 Hb.
  destruct (init_supplied fuel junk1 junk2 _ _ E _ Hst Hj1 Hj2) as (fa & Hi & Hs & _).
  destruct (ts_copy_p4_spec (w_tables (k_world k)) (kernel_pml4_start_addr arg) KERNEL_PHYS_ADDRSP_P4_INDEX
    (kernel_pml4_start_addr arg) 0) as (C1 & C2 & C3).
  unfold start_memory, set_kernel_pml4_page_table. cbn [k_root k_world w_cr3 set_tables].
  rewrite Hcr3, Z.eqb_refl. cbn [rassert]. rewrite !Done_bind, virt_addr_new_ok, Done_bind by done.
  rewrite (proj2 (Nat.leb_le _ _) Hlen). cbn [rassert]. rewrite Done_bind, Hi, Done_bind, Hb.
  eexists _, _. split; [done|]. cbn [BOOTSTRAP call_once k_root k_world set_world w_frames set_frames w_tables set_tables].
  do 3 (split; [done|]). split; [|done].
  intros r i. rewrite C1. case_decide as H; [by destruct H as [-> _]|done].
Qed.

(** With another table in CR3 the check fails. *)
Theorem start_memory_checks_cr3 {V : X86Virt} {T} {TS : TableStore T} junk1 junk2 arg st (k : Kernel T LinearIncFrameAllocator) :
  w_cr3 (k_world k) <> kernel_pml4_start_addr arg -> start_memory junk1 junk2 arg st k = Panic.
Proof.
  intros H. unfold start_memory, set_kernel_pml4_page_table. cbn [k_root k_world w_cr3 set_tables].
  by rewrite (proj2 (Z.eqb_neq _ _)) by done.
Qed.

(** ** An instance: eight megabytes, and the program of LoadElf.v *)

#[local] Existing Instance x86_addr_model.
#[local] Existing Instance x86_addr_model_spec.
#[local] Existing Instance x86_virt_model.
#[local] Existing Instance x86_virt_model_spec.
#[local] Existing Instance pt_flags_model.
#[local] Existing Instance pt_flags_model_spec.
#[local] Existing Instance gmap_store_ops.
#[local] Existing Instance gmap_store_spec.
#[local] Existing Instance x86_step_model.
#[local] Existing Instance x86_step_model_spec.

(** [frame_alloc_n] of the kernel. *)
Definition kernel_alloc (fuel : nat) (count : Z) : frame_source LinearIncFrameAllocator := fun fa => frame_alloc_n fuel fa count.
#[local] Instance kernel_alloc_source fuel : FrameSourceSpec (kernel_alloc fuel 1) := kernel_frame_source fuel.

Definition start_arg : KernelArg :=
  mkKernelArg 0 0 0x1000 AcpiSettings_default 0 0 0 0 0 0 0 0 0x800000
    [mkMemoryRegion 0x100000 0x100000 Bootloader] 1 0xffffff0000000000 0x2000 (mkTlsTemplate 0 0 0).

(** The level-3 tables of physical memory and of the program, whose two pages
    are at 0x4000. *)
Definition start_tables : gmap_store :=
  mkStore {[ (0x1000, 0) := 0x2000; (0x1000, 510) := 0x3000 ]}
    {[ 0x3000 := {[ 0 := (0x4000, 1); 0x1000 := (0x5000, 1) ]} ]} ∅.
Definition start_mem : Z -> Z := fun x => sample_bytes (PROGRAM_PTR + (x - 0x4000)).

Definition start_fa (index : nat) (position : Z) : LinearIncFrameAllocator :=
  mkFrameAlloc (mkIter (mkRange 0x100000 0x200000 :: replicate 511 (mkRange 0 0)) 1 0x1000 index position) 0 0x800000 PAGE_SIZE.
Definition start_kernel (t : gmap_store) (fa : LinearIncFrameAllocator) (root : Z) : Kernel gmap_store LinearIncFrameAllocator :=
  mkKernel (mkWorld t fa start_mem 0x1000) [] (storage_new 1) (mkPercpu 0 (mkSwitchPercpu None 0 0 0 false) false) root.

Lemma start_startable : startable 1000 0 0x800000 0x200000 (take 1 (unav_phys_mem_regions start_arg)).
Proof.
  split; try done; try lia.
  - repeat constructor.
  - repeat constructor; cbn; lia.
  - repeat constructor; cbn; lia.
  - cbn. unfold MAX_RANGE_COUNT. lia.
  - split; [by exists 0|lia].
Qed.

Lemma start_memory_ok_witness :
  exists st' k', start_memory junk512 junk512 start_arg (mkStatics None None)
      (start_kernel start_tables (start_fa 0 0) 0) = Done (st', k') /\
    k_root k' = 0x1000 /\ ts_p4 (w_tables (k_world k')) 0x1000 256 = Some 0x2000.
Proof.
  destruct (start_memory_ok 1000 junk512 junk512 0x200000 start_arg (mkStatics None None)
    (start_kernel start_tables (start_fa 0 0) 0)) as (st' & k' & E & _ & Hr & _ & H & _);
    [exact start_startable|reflexivity|reflexivity|by left|done|done|done|].
  exists st', k'. split; [exact E|]. split; [exact Hr|]. by rewrite H, Hr.
Defined.

(** The kernel after [start_memory]. *)
Definition start_statics : Statics := mkStatics (Some (0xffffff0000000000, 0x2000)) None.
Definition ready_kernel : Kernel gmap_store LinearIncFrameAllocator :=
  start_kernel (ts_copy_p4 start_tables 0x1000 256 0x1000 0) (start_fa 0 0x100000) 0x1000.

Lemma ready_allocator : init_frame_allocator junk512 junk512 0 0x800000 (take 1 (unav_phys_mem_regions start_arg)) =
  Done (start_fa 0 0x100000).
Proof. by vm_compute. Qed.

Lemma start_memory_ready :
  start_memory junk512 junk512 start_arg (mkStatics None None) (start_kernel start_tables (start_fa 0 0) 0) =
    Done (start_statics, ready_kernel).
Proof.
  unfold start_memory, set_kernel_pml4_page_table. change (rassert (_ =? _)) with (Done tt). rewrite !Done_bind.
  rewrite virt_addr_new_ok, Done_bind by (by left). change (rassert (_ <=? _)%nat) with (Done tt). rewrite Done_bind.
  change (phys_mem_mapped_addr start_arg) with 0. change (phys_mem_size start_arg) with 0x800000.
  change (take _ _) with (take 1 (unav_phys_mem_regions start_arg)). by rewrite ready_allocator, Done_bind.
Qed.

Lemma ready_stack : kernel_alloc 1000 64 (start_fa 0 0x100000) = Done (Some 0x200000, start_fa 1 0x240000).
Proof. by vm_compute. Qed.

Lemma ready_supplied : supplied 1000 0x200000 (start_fa 1 0x240000).
Proof.
  destruct (init_supplied 1000 junk512 junk512 0 0x800000 0x200000 _ start_startable eq_refl eq_refl) as (fa & Hi & Hs & _).
  rewrite ready_allocator in Hi. injection Hi as <-. by destruct (allocate_frames_granted 1000 _ _ 64 _ _ Hs ltac:(lia) ready_stack).
Qed.

(** The frames left are in the six megabytes above the stack. *)
Lemma ready_frames f : f ∈ frames_left 1000 (start_fa 1 0x240000) -> (PAGE_SIZE | f) /\ 0x240000 <= f <= 0x7ff000.
Proof.
  intros Hf. destruct (frames_left_spec 1000 _ _ ready_supplied) as [H _]. rewrite Forall_forall in H.
  destruct (H f Hf) as (? & H1 & H2). unfold start_fa in H1, H2.
  cbn [base_address range_iterator current_value phys_mem_right_boundary] in H1, H2. split; [done|page_lia].
Qed.

Lemma ready_boot : boot_ready (frame_alloc_n := kernel_alloc 1000) ready_kernel 0x200000 0x2000 0x3000 2 (mkIdAlloc 2 []) (start_fa 1 0x240000).
Proof.
  split; try done.
  - split; [exact ready_stack|..]; try done.
    + change (exists E, supplied 1000 E (start_fa 1 0x240000)). exists 0x200000. apply ready_supplied.
    + apply (bool_decide_unpack _). by vm_compute.
    + split; [by exists 512|done].
    + intros [_ H]%ready_frames. cbn in H. lia.
    + intros [_ H]%ready_frames. lia.
  - split; [|done]. intros [_ H]%ready_frames. lia.
  - apply Forall_forall. intros f [Ha Hf]%ready_frames. split; [split; [done|page_lia]|].
    change KSTACK_TOP with 0x40000. unfold KSTACK_VIRT. page_lia.
Qed.

Lemma ready_program : program_mapped ready_kernel 0x200000 0x3000 (AS := kernel_alloc_source 1000) (start_fa 1 0x240000) 0x2000 sample_bytes.
Proof.
  intros x Hx. change (page_of (0x2000 - 1)) with 0x1000 in Hx.
  destruct (page_of_bounds x) as [[j Hj] Hb]. assert (Hf : forall f, f = 0x4000 \/ f = 0x5000 -> f ∉ frames_left 1000 (start_fa 1 0x240000)).
  { intros f Hf [_ H]%ready_frames. lia. }
  change KSTACK_TOP with 0x40000.
  assert (E : page_of x = 0 \/ page_of x = 0x1000) by page_lia.
  destruct E as [E|E]; rewrite E; [exists 0x4000, 1|exists 0x5000, 1]; (split; [by vm_compute|]);
    (split; [|split; [page_lia|apply Hf; lia]]); cbn [w_mem k_world ready_kernel start_kernel]; unfold start_mem;
    change PROGRAM_PTR with BOOTSTRAP_WINDOW; f_equal; rewrite page_of_mod, E; lia.
Qed.

Definition start_machine : machine :=
  init_syscall 0xffff4000 (mkMachine (fun _ => 0x90000) 0 2 0x8 0x10 (fun _ => 0) 0 start_mem).

Definition start_pcr : ProcessorControlRegion unit := mkPcr 0 tt 0 0 0 0 0.

Lemma first_program_starts_witness :
  exists st k st' k' c1 k2 s2,
    start_memory junk512 junk512 start_arg (mkStatics None None) (start_kernel start_tables (start_fa 0 0) 0) = Done (st, k) /\
    start_contexts (kernel_alloc 1000) 0xffff2000 0xffff3000 (Some CS_SEL) (Some SS_SEL) st k = Done (st', k') /\
    run_userspace_step 0x68 (mkCpu k' start_machine start_pcr false) = Done (Switched false, c1) /\
    m_rip (ret (cpu_machine c1)) = 0xffff3000 /\
    userspace_init (kernel_alloc 1000) (fun _ => Some sample_elf) (Some CS_SEL) (Some SS_SEL) st' (cpu_kernel c1) = Done k2 /\
    w_cr3 (k_world k2) = as_root s2 /\ user_byte s2 (k_world k2) (PROGRAM_BASE + 0xffc) = Some 0x40 /\
    user_flags_at s2 (k_world k2) (PROGRAM_BASE + 0x123) = Some 5 /\
    forall m2, rust_call 168 (fun _ _ => Done (w_mem (k_world k2))) (ret (cpu_machine c1)) m2 ->
      m_rip (enter_usermode (ret m2)) = PROGRAM_BASE + 0x40 /\ m_cs (enter_usermode (ret m2)) = 0x2b.
Proof.
  destruct (first_program_starts (frame_alloc_n := kernel_alloc 1000) (fun _ => Some sample_elf) 0xffff2000 0xffff3000 CS_SEL SS_SEL 0x68 ltac:(done)
    start_statics 0xffffff0000000000 ready_kernel 0x200000 0x2000 0x3000 2 (mkIdAlloc 2 []) (start_fa 1 0x240000)
    start_machine start_pcr 256 slot_256 0x1000 sample_elf 0x2000 PROGRAM_BASE sample_bytes 0xffff4000
    (mkMachine (fun _ => 0x90000) 0 2 0x8 0x10 (fun _ => 0) 0 start_mem))
    as (st' & k' & c1 & k2 & s2 & E1 & E2 & E3 & _ & E4 & [_ P2 P3 P4 _ _ _ _] & H).
  - exact ready_boot.
  - reflexivity.
  - reflexivity.
  - done.
  - exact ready_program.
  - exact (loadable_any _ _ _ _ _ _ _ _ _ _ _ _ sample_loadable).
  - by apply (bool_decide_unpack _); vm_compute.
  - by apply (bool_decide_unpack _); vm_compute.
  - done.
  - done.
  - done.
  - reflexivity.
  - exists start_statics, ready_kernel, st', k', c1, k2, s2. split; [exact start_memory_ready|].
    split; [exact E1|]. split; [exact E2|]. split; [exact E3|]. split; [exact E4|]. split; [exact P2|].
    split; [apply P3; by vm_compute|]. split.
    { rewrite (P4 (PROGRAM_BASE + 0x123) ltac:(by split)).
      rewrite (perms_same (addrsp_target_spec list_source 0x1000 256 slot_256 nothing_fixed)) by reflexivity. by vm_compute. }
    intros m2 Hm2. destruct (H m2 Hm2) as (_ & R1 & _ & _ & R2 & _). split; [exact R1|exact R2].
Defined.
