(* ===== verification/BootFrameAlloc.v ===== *)
(** * The bootloader's physical frame allocator

    [bootloader-efi/src/mem/mod.rs] (the trait [RTMemoryRegionDescriptor]),
    [mem/memory_descriptor.rs] (its implementation for UEFI descriptors) and
    [mem/frame_allocator.rs] (a linear allocator over the UEFI memory map).

    The theorems show that on a sorted memory map without overlap the
    allocator is exactly the stream of the usable frames from its start
    address on, that the region it reports covers everything it handed out,
    and that [max_phys_addr] bounds every descriptor. *)

From S2P Require Import Prelude Platform Shared Paging.

(** [mem::RTMemoryRegionDescriptor]. *)
Class RTMemoryRegionDescriptor (D : Type) : Type := {
  d_start : D -> outcome Z;
  d_len : D -> outcome Z;
  d_kind : D -> MemoryRegionKind;
  usable_after_bootloader_exit : D -> bool
}.

(** The default method [is_empty]. *)
Definition d_is_empty `{RTMemoryRegionDescriptor D} (d : D) : outcome bool :=
  l ← d_len d; Done (l =? 0).

(** ** UEFI descriptors *)

(** The [uefi] crate's [MemoryType] is a newtype of [u32] with named values. *)
Class UefiMemoryType : Type := {
  MT_BOOT_SERVICES_CODE : Z;
  MT_BOOT_SERVICES_DATA : Z;
  MT_RUNTIME_SERVICES_CODE : Z;
  MT_RUNTIME_SERVICES_DATA : Z;
  MT_CONVENTIONAL : Z
}.

(** UEFI specification, table "Memory Type Usage". *)
Definition uefi_memory_type_model : UefiMemoryType := {|
  MT_BOOT_SERVICES_CODE := 3;
  MT_BOOT_SERVICES_DATA := 4;
  MT_RUNTIME_SERVICES_CODE := 5;
  MT_RUNTIME_SERVICES_DATA := 6;
  MT_CONVENTIONAL := 7
|}.

(** The fields of [uefi::table::boot::MemoryDescriptor] the code reads. *)
Record MemoryDescriptor : Type := mkMemoryDescriptor {
  md_ty : Z;
  md_phys_start : Z;
  md_page_count : Z
}.

Section Uefi.
Context {X : X86Addr} {U : UefiMemoryType}.

Definition md_start (d : MemoryDescriptor) : outcome Z := phys_addr_new (md_phys_start d).

Definition md_len (d : MemoryDescriptor) : outcome Z := u64_mul (md_page_count d) PAGE_SIZE.

Definition md_kind (d : MemoryDescriptor) : MemoryRegionKind :=
  if md_ty d =? MT_CONVENTIONAL then Usable else UnknownUefi (md_ty d).

Definition md_usable_after_bootloader_exit (d : MemoryDescriptor) : bool :=
  if md_ty d =? MT_CONVENTIONAL then true
  else if (md_ty d =? MT_BOOT_SERVICES_CODE) || (md_ty d =? MT_BOOT_SERVICES_DATA) then true
  else if (md_ty d =? MT_RUNTIME_SERVICES_CODE) || (md_ty d =? MT_RUNTIME_SERVICES_DATA) then false
  else false.

#[export] Instance MemoryDescriptor_descriptor : RTMemoryRegionDescriptor MemoryDescriptor := {|
  d_start := md_start;
  d_len := md_len;
  d_kind := md_kind;
  usable_after_bootloader_exit := md_usable_after_bootloader_exit
|}.
End Uefi.

(** ** The allocator *)

(** [LinearIncFrameAllocator<I, D>]; the iterator [I] is the list of the
    descriptors it has yet to yield. *)
Record LinearIncFrameAllocator (D : Type) : Type := mkAllocator {
  original : list D;
  memory_map : list D;
  start_phys_addr : Z;
  current_descriptor : option D;
  next_frame : Z
}.
Arguments mkAllocator {D} _ _ _ _ _.
Arguments original {D} _.
Arguments memory_map {D} _.
Arguments start_phys_addr {D} _.
Arguments current_descriptor {D} _.
Arguments next_frame {D} _.

Section Allocator.
Context {X : X86Addr} {D : Type} {R : RTMemoryRegionDescriptor D}.

Definition set_memory_map (m : list D) (a : LinearIncFrameAllocator D) :=
  mkAllocator (original a) m (start_phys_addr a) (current_descriptor a) (next_frame a).
Definition set_current_descriptor (d : option D) (a : LinearIncFrameAllocator D) :=
  mkAllocator (original a) (memory_map a) (start_phys_addr a) d (next_frame a).
Definition set_next_frame (f : Z) (a : LinearIncFrameAllocator D) :=
  mkAllocator (original a) (memory_map a) (start_phys_addr a) (current_descriptor a) f.

Definition new_starting_at (frame : Z) (m : list D) : LinearIncFrameAllocator D :=
  mkAllocator m m frame None frame.

Definition allocator_new (m : list D) : outcome (LinearIncFrameAllocator D) :=
  addr ← phys_addr_new 0x100000;
  Done (new_starting_at (frame_containing_address addr) m).

Definition allocate_frame_from_descriptor (a : LinearIncFrameAllocator D) (descriptor : D)
  : outcome (option Z * LinearIncFrameAllocator D) :=
  start_addr ← d_start descriptor;
  let start_frame := frame_containing_address start_addr in
  len ← d_len descriptor;
  end_addr ← phys_addr_add start_addr len;
  last_addr ← phys_addr_sub end_addr 1;
  let end_frame := frame_containing_address last_addr in
  let a := if next_frame a <? start_frame then set_next_frame start_frame a else a in
  if next_frame a <=? end_frame then
    next ← frame_add (next_frame a) 1;
    Done (Some (next_frame a), set_next_frame next a)
  else Done (None, a).

(** The [while let] loop of [allocate_frame]. *)
Fixpoint scan_memory_map (a : LinearIncFrameAllocator D) (m : list D)
  : outcome (option Z * LinearIncFrameAllocator D) :=
  match m with
  | [] => Done (None, set_memory_map [] a)
  | descriptor :: m' =>
      let a := set_memory_map m' a in
      if decide (d_kind descriptor <> Usable) then scan_memory_map a m'
      else
        r ← allocate_frame_from_descriptor a descriptor;
        match r with
        | (Some frame, a') => Done (Some frame, set_current_descriptor (Some descriptor) a')
        | (None, a') => scan_memory_map a' m'
        end
  end.

Definition allocate_frame (a : LinearIncFrameAllocator D)
  : outcome (option Z * LinearIncFrameAllocator D) :=
  match current_descriptor a with
  | Some descriptor =>
      r ← allocate_frame_from_descriptor a descriptor;
      match r with
      | (Some frame, a') => Done (Some frame, a')
      | (None, a') => scan_memory_map (set_current_descriptor None a') (memory_map a')
      end
  | None => scan_memory_map a (memory_map a)
  end.

Definition allocator_len (a : LinearIncFrameAllocator D) : nat := length (original a).

Definition allocator_is_empty (a : LinearIncFrameAllocator D) : bool :=
  Nat.eqb (allocator_len a) 0.

(** [map(|r| r.start() + r.len()).max().unwrap()]. *)
Definition max_step (acc : option Z) (d : D) : outcome (option Z) :=
  s ← d_start d;
  l ← d_len d;
  e ← phys_addr_add s l;
  Done (Some (match acc with Some m => Z.max m e | None => e end)).

Definition max_phys_addr (a : LinearIncFrameAllocator D) : outcome Z :=
  m ← foldM max_step None (original a);
  or_panic m.

Definition allocated_region (a : LinearIncFrameAllocator D) : outcome MemoryRegion :=
  length ← u64_sub (next_frame a) (start_phys_addr a);
  Done (mkMemoryRegion (start_phys_addr a) length Bootloader).

(** A number of consecutive calls of [allocate_frame]. *)
Fixpoint allocate_many (n : nat) (a : LinearIncFrameAllocator D)
  : outcome (list (option Z) * LinearIncFrameAllocator D) :=
  match n with
  | O => Done ([], a)
  | S n' =>
      r ← allocate_frame a;
      rs ← allocate_many n' r.2;
      Done (r.1 :: rs.1, rs.2)
  end.
End Allocator.

(** ** Specification: the frames of a memory map *)

(** The frames from [x] on, of [n] frames that start at [s]. *)
Lemma filter_frame_list s n x :
  (PAGE_SIZE | x - s) ->
  filter (fun f => x <= f) (frame_list s n) =
    frame_list (Z.max x s) (n - Z.to_nat ((x - s) / PAGE_SIZE)).
Proof.
  intros [k Hk]. rewrite Hk, Z.div_mul by done.
  revert s k Hk. induction n as [|n IH]; intros s k Hk; simpl; [done|].
  rewrite filter_cons. destruct (Z.le_gt_cases x s) as [Hle|Hgt].
  - rewrite decide_True by done. unfold PAGE_SIZE in *.
    rewrite (IH _ (k - 1)) by lia.
    rewrite !Z.max_r by lia. replace (Z.to_nat (k - 1)) with 0%nat by lia.
    replace (Z.to_nat k) with 0%nat by lia. rewrite Nat.sub_0_r. done.
  - rewrite decide_False by lia. unfold PAGE_SIZE in *.
    rewrite (IH _ (k - 1)) by lia.
    rewrite !Z.max_l by lia.
    replace (Z.to_nat k) with (S (Z.to_nat (k - 1))) by lia. done.
Qed.

Lemma filter_frame_list_above s n x :
  x <= s -> filter (fun f => x <= f) (frame_list s n) = frame_list s n.
Proof.
  revert s. induction n as [|n IH]; intros s Hx; simpl; [done|].
  rewrite filter_cons_True by done. f_equal. apply IH. unfold PAGE_SIZE; lia.
Qed.

Lemma filter_frame_list_below s n x :
  s + PAGE_SIZE * Z.of_nat n <= x -> filter (fun f => x <= f) (frame_list s n) = [].
Proof.
  revert s. induction n as [|n IH]; intros s Hx; simpl; [done|].
  unfold PAGE_SIZE in *. rewrite filter_cons_False by lia. apply IH. lia.
Qed.

Section Spec.
Context {X : X86Addr} {XS : X86AddrSpec X} {D : Type} {R : RTMemoryRegionDescriptor D}.

(** A descriptor of [n] whole pages from [s] on. *)
Definition desc_at (d : D) (s : Z) (n : nat) : Prop :=
  d_start d = Done s /\ d_len d = Done (PAGE_SIZE * Z.of_nat n) /\
  0 <= s /\ (0 < n)%nat /\ (PAGE_SIZE | s) /\ s + PAGE_SIZE * Z.of_nat n < 2 ^ 52.

Definition desc_wf (d : D) : Prop := exists s n, desc_at d s n.

(** [d] ends before [d'] starts. *)
Definition desc_before (d d' : D) : Prop :=
  forall s n s' n', desc_at d s n -> desc_at d' s' n' -> s + PAGE_SIZE * Z.of_nat n <= s'.

(** A memory map as UEFI reports it once sorted: the usable descriptors are
    non-empty whole pages within the address space, in order, disjoint. *)
Definition usable (m : list D) : list D := filter (fun d => d_kind d = Usable) m.

Definition map_wf (m : list D) : Prop :=
  Forall desc_wf (usable m) /\ StronglySorted desc_before (usable m).

Definition desc_frames (d : D) : list Z :=
  match d_start d, d_len d with
  | Done s, Done l => frame_list s (Z.to_nat (l / PAGE_SIZE))
  | _, _ => []
  end.

(** All usable frames of the map from [from] on, in order. *)
Definition usable_frames (from : Z) (m : list D) : list Z :=
  filter (fun f => from <= f) (usable m ≫= desc_frames).

(** The usable descriptors an allocator has not exhausted. *)
Definition pending (a : LinearIncFrameAllocator D) : list D :=
  match current_descriptor a with
  | Some d => d :: usable (memory_map a)
  | None => usable (memory_map a)
  end.

(** Abstraction: the frames an allocator has still to hand out. *)
Definition remaining (a : LinearIncFrameAllocator D) : list Z :=
  filter (fun f => next_frame a <= f) (pending a ≫= desc_frames).

Record alloc_inv (a : LinearIncFrameAllocator D) : Prop := {
  ai_wf : Forall desc_wf (pending a);
  ai_sorted : StronglySorted desc_before (pending a);
  ai_aligned : (PAGE_SIZE | next_frame a);
  ai_start : 0 <= start_phys_addr a <= next_frame a;
  ai_bound : next_frame a < 2 ^ 52
}.

(** [a'] is [a] after it served the first frame that remains, if any. *)
Record served (fs : list Z) (a a' : LinearIncFrameAllocator D) : Prop := {
  sv_remaining : remaining a' = tail fs;
  sv_inv : alloc_inv a';
  sv_start : start_phys_addr a' = start_phys_addr a;
  sv_original : original a' = original a;
  sv_mono : next_frame a <= next_frame a';
  sv_past f : head fs = Some f -> f + PAGE_SIZE <= next_frame a'
}.

Lemma desc_at_frames d s n : desc_at d s n -> desc_frames d = frame_list s n.
Proof.
  intros (Hs & Hl & _). unfold desc_frames. rewrite Hs, Hl.
  rewrite Z.mul_comm, Z.div_mul, Nat2Z.id by done. done.
Qed.

(** One descriptor serves the first of its frames at or above [next_frame]. *)
Lemma from_descriptor_spec a d s n :
  desc_at d s n -> (PAGE_SIZE | next_frame a) ->
  allocate_frame_from_descriptor a d =
    match filter (fun f => next_frame a <= f) (desc_frames d) with
    | f :: _ => Done (Some f, set_next_frame (f + PAGE_SIZE) a)
    | [] => Done (None, a)
    end.
Proof.
  intros Hd Hal. rewrite (desc_at_frames _ _ _ Hd).
  destruct Hd as (Hs & Hl & Hs0 & Hn & Hsal & Hb).
  unfold allocate_frame_from_descriptor. rewrite Hs, Hl. simpl.
  rewrite phys_addr_add_ok by (unfold PAGE_SIZE in *; lia). simpl.
  rewrite phys_addr_sub_ok by (unfold PAGE_SIZE in *; lia). simpl.
  rewrite frame_containing_of_aligned by done.
  rewrite frame_containing_last; [|lia|unfold PAGE_SIZE; lia|done|by exists (Z.of_nat n); lia].
  rewrite filter_frame_list by by apply Z.divide_sub_r.
  destruct Hal as [k Hk], Hsal as [j ->]. rewrite Hk.
  rewrite <- Z.mul_sub_distr_r, Z.div_mul by done.
  unfold PAGE_SIZE in *.
  destruct (Z.ltb_spec (k * 4096) (j * 4096)); simpl.
  - replace (Z.to_nat (k - j)) with 0%nat by lia. rewrite Nat.sub_0_r.
    destruct n as [|n]; [lia|]. cbn [stride]. rewrite Z.max_r by lia.
    rewrite (proj2 (Z.leb_le _ _)) by lia.
    rewrite frame_add_ok by (unfold PAGE_SIZE; lia). done.
  - rewrite Hk, Z.max_l by lia.
    destruct (Z.leb_spec (k * 4096) (j * 4096 + 4096 * Z.of_nat n - 4096)).
    + replace (n - Z.to_nat (k - j))%nat with (S (n - Z.to_nat (k - j) - 1)) by lia.
      cbn [stride]. rewrite frame_add_ok by (unfold PAGE_SIZE; lia). done.
    + by replace (n - Z.to_nat (k - j))%nat with 0%nat by lia.
Qed.

(** Taking the first frame of a descriptor moves past exactly that frame. *)
Lemma desc_frames_tail d s n x f fs :
  desc_at d s n -> (PAGE_SIZE | x) ->
  filter (fun f => x <= f) (desc_frames d) = f :: fs ->
  filter (fun g => f + PAGE_SIZE <= g) (desc_frames d) = fs /\
  (PAGE_SIZE | f) /\ x <= f /\ f + PAGE_SIZE <= s + PAGE_SIZE * Z.of_nat n.
Proof.
  intros Hd Hx. rewrite (desc_at_frames _ _ _ Hd).
  destruct Hd as (_ & _ & Hs0 & Hn & Hsal & Hb).
  rewrite filter_frame_list by by apply Z.divide_sub_r.
  intros Heq. destruct (n - _)%nat as [|m] eqn:Hm; [done|]. simplify_eq/=.
  assert (Hf : (PAGE_SIZE | Z.max x s)) by (by destruct (Z.max_spec x s) as [[_ ->]|[_ ->]]).
  rewrite filter_frame_list
    by (apply Z.divide_sub_r; [apply Z.divide_add_r|]; done || by exists 1).
  destruct Hx as [k ->], Hsal as [j ->]. rewrite <- Z.mul_sub_distr_r in Hm.
  rewrite Z.div_mul in Hm by done. split_and!; [|done|lia|].
  - rewrite Z.max_l by (unfold PAGE_SIZE; lia). f_equal.
    rewrite Z.mul_max_distr_nonneg_r by done.
    replace (_ - _) with ((Z.max k j + 1 - j) * PAGE_SIZE) by lia.
    rewrite Z.div_mul by done. lia.
  - unfold PAGE_SIZE in *. lia.
Qed.

(** Frames of later descriptors are not affected by a smaller bound. *)
Lemma later_frames d s n l x :
  desc_at d s n -> Forall desc_wf l -> Forall (desc_before d) l ->
  x <= s + PAGE_SIZE * Z.of_nat n ->
  filter (fun f => x <= f) (l ≫= desc_frames) = l ≫= desc_frames.
Proof.
  intros Hd Hwf Hb Hx. induction l as [|d' l IH]; [done|].
  inversion_clear Hwf as [|?? (s' & n' & Hd') Hwf']. inversion_clear Hb as [|?? Hb1 Hb2].
  rewrite bind_cons, filter_app, IH by done. f_equal.
  rewrite (desc_at_frames _ _ _ Hd'). apply filter_frame_list_above.
  pose proof (Hb1 _ _ _ _ Hd Hd'). lia.
Qed.

(** What serving a request from the first of the descriptors [d :: l] does
    to the frames still to come. *)
Lemma serve_step d s n l x :
  desc_at d s n -> (PAGE_SIZE | x) -> Forall desc_wf l -> Forall (desc_before d) l ->
  match filter (fun f => x <= f) (desc_frames d) with
  | f :: _ =>
      filter (fun f => x <= f) ((d :: l) ≫= desc_frames) =
        f :: filter (fun g => f + PAGE_SIZE <= g) ((d :: l) ≫= desc_frames) /\
      (PAGE_SIZE | f) /\ x <= f /\ f + PAGE_SIZE < 2 ^ 52
  | [] =>
      filter (fun f => x <= f) ((d :: l) ≫= desc_frames) =
        filter (fun f => x <= f) (l ≫= desc_frames)
  end.
Proof.
  intros Hd Hx Hwf Hb. rewrite bind_cons, filter_app.
  destruct (filter _ (desc_frames d)) as [|f fs] eqn:Hf; [done|].
  destruct (desc_frames_tail _ _ _ _ _ _ Hd Hx Hf) as (Ht & Hfal & Hle & Hend).
  rewrite filter_app, Ht, !(later_frames d s n) by (done || unfold PAGE_SIZE in *; lia).
  destruct Hd as (_ & _ & _ & _ & _ & ?). split_and!; [done..|lia].
Qed.

Lemma scan_spec a m :
  current_descriptor a = None -> alloc_inv (set_memory_map m a) ->
  exists a', scan_memory_map a m = Done (head (remaining (set_memory_map m a)), a') /\
    served (remaining (set_memory_map m a)) a a'.
Proof.
  intros Hc. revert a Hc. induction m as [|d m IH]; intros a Hc Hinv; cbn [scan_memory_map].
  { exists (set_memory_map [] a). unfold remaining, pending. simpl. rewrite Hc.
    split; [done|]. split; try done. unfold remaining, pending; simpl; by rewrite Hc. }
  assert (Hp : forall m, pending (set_memory_map m a) = usable m)
    by (intros; unfold pending; simpl; by rewrite Hc).
  destruct Hinv as [Hwf Hso Hal Hst Hbd]. rewrite Hp in Hwf, Hso.
  destruct (IH (set_memory_map m a) Hc) as (a' & Hs & Hsv).
  { split; [| |done..]; change (set_memory_map m (set_memory_map m a)) with (set_memory_map m a);
      rewrite Hp; unfold usable in *; rewrite filter_cons in *; case_decide;
      done || by (inversion_clear Hwf; inversion_clear Hso). }
  change (set_memory_map m (set_memory_map m a)) with (set_memory_map m a) in *.
  unfold remaining in *. rewrite Hp in *. unfold usable in *. rewrite filter_cons in *.
  destruct (decide (d_kind d = Usable)) as [Hk|Hk].
  2:{ rewrite decide_True by done. exists a'. split; [done|]. by destruct Hsv. }
  rewrite decide_False by by intros []. fold (usable m) in *.
  inversion_clear Hwf as [|?? (s & n & Hd) Hwf']. inversion_clear Hso as [|?? Hso' Hbef].
  rewrite (from_descriptor_spec _ _ _ _ Hd) by done.
  pose proof (serve_step _ _ _ _ _ Hd Hal Hwf' Hbef) as Hstep.
  cbn [next_frame set_memory_map] in *.
  destruct (filter _ (desc_frames d)) as [|f fs]; rewrite Done_bind.
  - exists a'. rewrite Hstep. split; [done|]. by destruct Hsv.
  - destruct Hstep as (-> & Hfal & Hle & Hlt). eexists. split; [done|].
    split; [done| |done|done|simpl; page_lia|intros ? [= <-]; done].
    split; simpl; [by constructor; [eexists _, _|]|by constructor| |simpl in *; page_lia|done].
    auto with pages.
Qed.

(** One call hands out the first frame that remains. *)
Lemma allocate_frame_spec a :
  alloc_inv a ->
  exists a', allocate_frame a = Done (head (remaining a), a') /\ served (remaining a) a a'.
Proof.
  intros Hinv. unfold allocate_frame.
  destruct (current_descriptor a) as [d|] eqn:Hc.
  2:{ destruct a. by apply scan_spec. }
  destruct Hinv as [Hwf Hso Hal Hst Hbd].
  unfold remaining, pending in *. rewrite Hc in *.
  inversion_clear Hwf as [|?? (s & n & Hd) Hwf']. inversion_clear Hso as [|?? Hso' Hbef].
  rewrite (from_descriptor_spec _ _ _ _ Hd) by done.
  pose proof (serve_step _ _ _ _ _ Hd Hal Hwf' Hbef) as Hstep.
  destruct (filter _ (desc_frames d)) as [|f fs]; rewrite Done_bind.
  - destruct (scan_spec (set_current_descriptor None a) (memory_map a)) as (a' & ? & Hsv);
      [done|by split|].
    exists a'. rewrite Hstep. split; [done|]. by destruct Hsv.
  - destruct Hstep as (-> & Hfal & Hle & Hlt).
    exists (set_next_frame (f + PAGE_SIZE) a). split; [done|].
    split; [unfold remaining, pending; cbn [current_descriptor set_next_frame]; by rewrite Hc
           | |done|done|simpl; page_lia|by intros ? [= <-]].
    split; unfold pending; simpl; rewrite ?Hc;
      [by constructor; [eexists _, _|]|by constructor| |simpl in *; page_lia|done].
    auto with pages.
Qed.

(** Consecutive calls hand out the remaining frames in order. *)
Lemma allocate_many_spec n a :
  alloc_inv a ->
  exists a', allocate_many n a =
      Done (map (fun i => remaining a !! i) (seq 0 n), a') /\
    alloc_inv a' /\ start_phys_addr a' = start_phys_addr a /\ original a' = original a /\
    next_frame a <= next_frame a' /\
    (forall i f, (i < n)%nat -> remaining a !! i = Some f -> f + PAGE_SIZE <= next_frame a').
Proof.
  revert a. induction n as [|n IH]; intros a Hinv; cbn [allocate_many].
  { exists a. split_and!; try done. intros; lia. }
  destruct (allocate_frame_spec a Hinv) as (a1 & -> & [Hr1 Hi1 Hs1 Ho1 Hm1 Hp1]).
  destruct (IH a1 Hi1) as (a2 & Hm & Hi2 & Hs2 & Ho2 & Hm2 & Hp2).
  exists a2. simpl. rewrite Hm, Hr1 in *. simpl. split_and!; try congruence; [|lia|].
  - f_equal. f_equal. rewrite <- seq_shift, map_map. f_equal.
    + by destruct (remaining a).
    + apply map_ext. intros i. by destruct (remaining a).
  - intros [|i] f Hlt Hf; destruct (remaining a) as [|g fs]; try done; simpl in *.
    + pose proof (Hp1 f Hf). lia.
    + apply (Hp2 i); [lia|done].
Qed.

Lemma allocator_new_inv m :
  map_wf m ->
  allocator_new m = Done (new_starting_at 0x100000 m) /\
  alloc_inv (new_starting_at 0x100000 m) /\
  remaining (new_starting_at 0x100000 m) = usable_frames 0x100000 m.
Proof.
  intros [Hwf Hso]. unfold allocator_new. rewrite phys_addr_new_ok by lia. simpl.
  assert (Hal : (PAGE_SIZE | 0x100000)) by by exists 256.
  rewrite frame_containing_of_aligned by done.
  split_and!; [done| |done]. by split.
Qed.

Lemma elem_of_usable_frames from m f :
  Forall desc_wf (usable m) ->
  f ∈ usable_frames from m <->
  exists d s n, d ∈ usable m /\ desc_at d s n /\ from <= f /\ (PAGE_SIZE | f) /\
    s <= f /\ f + PAGE_SIZE <= s + PAGE_SIZE * Z.of_nat n.
Proof.
  intros Hwf. unfold usable_frames. rewrite list_elem_of_filter, list_elem_of_bind. split.
  - intros (Hle & d & Hf & Hd). pose proof (proj1 (Forall_forall _ _) Hwf d Hd) as (s & n & Hat).
    rewrite (desc_at_frames _ _ _ Hat) in Hf. apply elem_of_stride in Hf as (k & Hk & ->).
    exists d, s, n. split_and!; try done; try page_lia.
    apply Z.divide_add_r; [apply Hat|by apply Z.divide_factor_l].
  - intros (d & s & n & Hd & Hat & Hle & Hal & Hs & He). split; [done|].
    exists d. split; [|done]. rewrite (desc_at_frames _ _ _ Hat). apply elem_of_stride.
    destruct Hat as (_ & _ & _ & _ & [j ->] & _), Hal as [k ->].
    exists (Z.to_nat (k - j)). page_lia.
Qed.

(** The frames of sorted descriptors come in increasing order, without
    overlap. *)
Lemma descriptors_frames_sorted (l : list D) x :
  Forall desc_wf l -> StronglySorted desc_before l ->
  StronglySorted (fun f g => f + PAGE_SIZE <= g) (filter (fun f => x <= f) (l ≫= desc_frames)).
Proof.
  intros Hwf Hso. apply StronglySorted_filter.
  induction Hso as [|d l Hso IH Hbef]; [constructor|].
  inversion_clear Hwf as [|?? (s & n & Hd) Hwf']. rewrite bind_cons.
  apply StronglySorted_app. split_and!; [|rewrite (desc_at_frames _ _ _ Hd); by apply stride_sorted|by apply IH].
  intros f g Hf (d' & Hg & Hd')%list_elem_of_bind.
  rewrite (desc_at_frames _ _ _ Hd) in Hf. apply elem_of_stride in Hf as (k & ? & ->).
  pose proof (proj1 (Forall_forall _ _) Hwf' d' Hd') as (s' & n' & Hat').
  pose proof (proj1 (Forall_forall _ _) Hbef d' Hd' _ _ _ _ Hd Hat').
  rewrite (desc_at_frames _ _ _ Hat') in Hg. apply elem_of_stride in Hg as (k' & ? & ->).
  page_lia.
Qed.

Lemma descriptors_frames_aligned (l : list D) x :
  Forall desc_wf l -> Forall (fun f => (PAGE_SIZE | f)) (filter (fun f => x <= f) (l ≫= desc_frames)).
Proof.
  intros Hwf. apply Forall_forall. intros f [_ (d & Hf & Hd)%list_elem_of_bind]%list_elem_of_filter.
  pose proof (proj1 (Forall_forall _ _) Hwf d Hd) as (s & n & Hat).
  rewrite (desc_at_frames _ _ _ Hat) in Hf. apply elem_of_stride in Hf as (k & _ & ->).
  apply Z.divide_add_r; [apply Hat|by apply Z.divide_factor_l].
Qed.

(** The allocator keeps the promises its clients rely on. *)
#[export] Instance boot_frame_source : FrameSourceSpec (A := LinearIncFrameAllocator D) allocate_frame.
Proof.
  refine {| fs_inv := alloc_inv; fs_frames := remaining |}.
  - intros a Hinv _. destruct (allocate_frame_spec a Hinv) as (a' & Ha & [Hr Hi _ _ _ _]). eauto.
  - intros a Hinv Hn. destruct (allocate_frame_spec a Hinv) as (a' & Ha & _). exists a'. by rewrite Ha, Hn.
  - intros a [Hwf _ _ _ _]. by apply descriptors_frames_aligned.
  - intros a [Hwf Hso _ _ _]. by apply descriptors_frames_sorted.
Defined.

(** C11. On a memory map whose usable descriptors are sorted and disjoint,
    [new] and then any number of [allocate_frame] calls return exactly the
    usable frames from 1 MiB on, in order, and [None] once they are used up. *)
Theorem boot_allocator_stream m n :
  map_wf m ->
  exists a0 a, allocator_new m = Done a0 /\
    allocate_many n a0 = Done (map (fun i => usable_frames 0x100000 m !! i) (seq 0 n), a).
Proof.
  intros Hm. destruct (allocator_new_inv m Hm) as (Hnew & Hinv & Hrem).
  destruct (allocate_many_spec n _ Hinv) as (a & Hmany & _).
  rewrite Hrem in Hmany. eauto.
Qed.

(** Every frame the bootloader's allocator hands out is page aligned, at
    or above 1 MiB and inside a usable descriptor, later frames lie above
    earlier ones, and the region [allocated_region] reports contains all. *)
Theorem boot_allocation_safe m n a0 rs a :
  map_wf m -> allocator_new m = Done a0 -> allocate_many n a0 = Done (rs, a) ->
  exists r, allocated_region a = Done r /\
    (forall i f, rs !! i = Some (Some f) ->
      (PAGE_SIZE | f) /\ 0x100000 <= f /\
      mr_start r <= f /\ f + PAGE_SIZE <= mr_start r + mr_length r /\
      exists d s k, d ∈ m /\ d_kind d = Usable /\ desc_at d s k /\
        s <= f /\ f + PAGE_SIZE <= s + PAGE_SIZE * Z.of_nat k) /\
    (forall i j f g, (i < j)%nat -> rs !! i = Some (Some f) -> rs !! j = Some (Some g) ->
      f + PAGE_SIZE <= g).
Proof.
  intros Hm Hnew Hmany. destruct (allocator_new_inv m Hm) as (Hnew' & Hinv & Hrem).
  rewrite Hnew' in Hnew. injection Hnew as <-.
  destruct (allocate_many_spec n _ Hinv) as (a' & Hmany' & [_ _ _ Hst Hbd] & Hs & _ & _ & Hpast).
  rewrite Hrem in *. rewrite Hmany' in Hmany. injection Hmany as <- <-.
  eexists. unfold allocated_region, u64_sub. rewrite checked_in by lia. split; [done|].
  assert (Hlk : forall i f, map (fun i => usable_frames 0x100000 m !! i) (seq 0 n) !! i
      = Some (Some f) -> (i < n)%nat /\ usable_frames 0x100000 m !! i = Some f).
  { intros i f. rewrite list_lookup_fmap_Some. intros (k & -> & Hk).
    apply lookup_seq in Hk as [-> ?]. done. }
  split.
  - intros i f [Hi Hf]%Hlk. pose proof (Hpast i f Hi Hf) as Hp.
    apply list_elem_of_lookup_2 in Hf. rewrite elem_of_usable_frames in Hf by apply Hm.
    destruct Hf as (d & s & k & Hd & Hat & Hle & Hal & ? & ?).
    apply list_elem_of_filter in Hd as [Hk Hd]. rewrite Hs. simpl.
    split_and!; [done|done|done|lia|]. by exists d, s, k.
  - intros i j f g Hij [_ Hf]%Hlk [_ Hg]%Hlk.
    exact (StronglySorted_lookup _ _ i j f g
      (descriptors_frames_sorted _ 0x100000 (proj1 Hm) (proj2 Hm)) Hij Hf Hg).
Qed.

Lemma max_step_at acc d s n :
  desc_at d s n ->
  max_step acc d = Done (Some (match acc with
    | Some m => Z.max m (s + PAGE_SIZE * Z.of_nat n)
    | None => s + PAGE_SIZE * Z.of_nat n end)).
Proof.
  intros (Hs & Hl & ? & ? & _ & ?). unfold max_step. rewrite Hs, Hl. simpl.
  by rewrite phys_addr_add_ok by page_lia.
Qed.

Lemma max_fold_spec l acc r :
  Forall desc_wf l ->
  foldM max_step acc l = Done r ->
  (forall m, acc = Some m -> exists m', r = Some m' /\ m <= m') /\
  (forall d s n, d ∈ l -> desc_at d s n ->
    exists m', r = Some m' /\ s + PAGE_SIZE * Z.of_nat n <= m').
Proof.
  intros Hwf. revert acc. induction Hwf as [|d l (s & n & Hd) Hwf IH]; intros acc H; cbn [foldM] in H.
  { inv_done. split; [eauto with lia|]. by intros ??? []%not_elem_of_nil. }
  rewrite (max_step_at _ _ _ _ Hd), Done_bind in H. destruct Hd as (Hs & Hl & _).
  destruct (IH _ H) as [Hacc Hin]. destruct (Hacc _ eq_refl) as (m' & -> & Hm').
  split.
  - intros m ->. exists m'. split; [done|lia].
  - intros d' s' n' [->|Hd']%elem_of_cons Hat; [|by eapply Hin].
    destruct Hat as (Hs' & Hl' & _). exists m'. split; [done|].
    rewrite Hs in Hs'. rewrite Hl in Hl'. simplify_eq. case_match; lia.
Qed.

Lemma max_fold_Done l acc :
  Forall desc_wf l -> exists r, foldM max_step acc l = Done r /\
    (r = None -> acc = None /\ l = []).
Proof.
  intros Hwf. revert acc. induction Hwf as [|d l (s & n & Hd) Hwf IH]; intros acc; cbn [foldM].
  { exists acc. auto. }
  rewrite (max_step_at _ _ _ _ Hd), Done_bind.
  edestruct IH as (r & Hr & Hn). exists r. split; [exact Hr|]. intros ->.
  by destruct (Hn eq_refl) as [? _].
Qed.

(** [max_phys_addr] returns for a non-empty map, whatever was allocated,
    an address no descriptor extends beyond. *)
Theorem max_phys_addr_bound m n a0 rs a :
  m <> [] -> Forall desc_wf m -> map_wf m ->
  allocator_new m = Done a0 -> allocate_many n a0 = Done (rs, a) ->
  exists top, max_phys_addr a = Done top /\
    forall d s k, d ∈ m -> desc_at d s k -> s + PAGE_SIZE * Z.of_nat k <= top.
Proof.
  intros Hne Hwf Hm Hnew Hmany. destruct (allocator_new_inv m Hm) as (Hnew' & Hinv & _).
  rewrite Hnew' in Hnew. injection Hnew as <-.
  destruct (allocate_many_spec n _ Hinv) as (a' & Hmany' & _ & _ & Ho & _).
  rewrite Hmany' in Hmany. injection Hmany as <- <-. simpl in Ho.
  unfold max_phys_addr. rewrite Ho.
  destruct (max_fold_Done m None Hwf) as (r & Hr & Hnone). rewrite Hr. simpl.
  destruct (max_fold_spec m None r Hwf Hr) as [_ Hin].
  destruct r as [top|]; [|by destruct (Hnone eq_refl)].
  exists top. split; [done|]. intros d s k Hd Hat. destruct (Hin d s k Hd Hat) as (m' & [= <-] & ?).
  done.
Qed.
End Spec.

(** ** Instances *)

Definition sample_map : list MemoryDescriptor :=
  [ mkMemoryDescriptor 7 0 160; mkMemoryDescriptor 6 0xa0000 96;
    mkMemoryDescriptor 7 0x100000 2; mkMemoryDescriptor 4 0x102000 14;
    mkMemoryDescriptor 7 0x200000 1 ].

#[local] Existing Instance x86_addr_model.
#[local] Existing Instance x86_addr_model_spec.
#[local] Existing Instance uefi_memory_type_model.

Lemma sample_map_desc_wf : Forall desc_wf sample_map.
Proof.
  repeat constructor; [exists 0, 160%nat|exists 0xa0000, 96%nat|exists 0x100000, 2%nat
    |exists 0x102000, 14%nat|exists 0x200000, 1%nat];
    (split_and!; [reflexivity|reflexivity|lia|lia| |reflexivity]);
    apply Z.mod_divide; done.
Qed.

Lemma sample_map_wf : map_wf sample_map.
Proof.
  change (Forall desc_wf (usable sample_map) /\ StronglySorted desc_before
    [mkMemoryDescriptor 7 0 160; mkMemoryDescriptor 7 0x100000 2; mkMemoryDescriptor 7 0x200000 1]).
  split.
  - apply Forall_forall. intros d [_ Hd]%list_elem_of_filter.
    by apply (proj1 (Forall_forall _ _) sample_map_desc_wf).
  - repeat constructor; intros s n s' n' (Hs & Hl & _) (Hs' & _);
      vm_compute in Hs, Hs'; injection Hs as <-; injection Hs' as <-;
      change (Done ?x = Done ?y) with (Done x = Done y) in Hl;
      injection Hl as <-; vm_compute; done.
Qed.


Lemma boot_allocator_stream_witness :
  map_wf sample_map /\
  exists a0 a, allocator_new sample_map = Done a0 /\
    allocate_many 4 a0 = Done ([Some 0x100000; Some 0x101000; Some 0x200000; None], a).
Proof.
  split; [exact sample_map_wf|].
  exact (boot_allocator_stream sample_map 4 sample_map_wf).
Defined.

(** The allocator over [sample_map] after three calls. *)
Definition sample_allocator : LinearIncFrameAllocator MemoryDescriptor :=
  mkAllocator sample_map [] 0x100000 (Some (mkMemoryDescriptor 7 0x200000 1)) 0x201000.

Lemma boot_allocation_safe_witness :
  allocate_many 3 (new_starting_at 0x100000 sample_map) =
    Done ([Some 0x100000; Some 0x101000; Some 0x200000], sample_allocator) /\
  exists r, allocated_region sample_allocator = Done r /\
    0x200000 + PAGE_SIZE <= mr_start r + mr_length r.
Proof.
  split; [vm_compute; reflexivity|].
  destruct (boot_allocation_safe (X := x86_addr_model) sample_map 3 (new_starting_at 0x100000 sample_map)
    [Some 0x100000; Some 0x101000; Some 0x200000] sample_allocator
    sample_map_wf ltac:(reflexivity) ltac:(vm_compute; reflexivity)) as (r & Hr & Hin & _).
  exists r. split; [exact Hr|]. apply (Hin 2%nat 0x200000). reflexivity.
Defined.

Lemma max_phys_addr_bound_witness :
  exists top, max_phys_addr sample_allocator = Done top /\ 0x201000 <= top.
Proof.
  destruct (max_phys_addr_bound (X := x86_addr_model) sample_map 3 (new_starting_at 0x100000 sample_map)
    [Some 0x100000; Some 0x101000; Some 0x200000] sample_allocator
    ltac:(discriminate) sample_map_desc_wf sample_map_wf ltac:(reflexivity) ltac:(vm_compute; reflexivity))
    as (top & Htop & Hb).
  exists top. split; [exact Htop|].
  apply (Hb (mkMemoryDescriptor 7 0x200000 1) 0x200000 1%nat).
  - unfold sample_map. set_solver.
  - split_and!; [reflexivity|reflexivity|lia|lia|by exists 512|reflexivity].
Defined.
