(* ===== verification/TrackedMapper.v ===== *)
(** * The bootloader's tracked page table

    [bootloader-efi/src/mem/tracked_mapper.rs]: a level-4 page table together
    with one flag per entry and two cached indices, the first and the last
    available entry.  The wrapped page table is not touched by these
    operations, so it is a parameter of the record.

    The theorems show that the cached indices are exact, what one-entry
    requests return, that any successful request returns entries that were
    free, and three places where the code falls short of its intent. *)

From S2P Require Import Prelude Platform Shared.

Definition PTE_COUNT_PER_PT : nat := 512.

Record TrackedMapper (PT : Type) : Type := mkTrackedMapper {
  inner : PT;
  level : PageTableLevel;
  used : list bool;
  first_available_index : nat;
  last_available_index : nat
}.
Arguments mkTrackedMapper {PT} _ _ _ _ _.
Arguments inner {PT} _.
Arguments level {PT} _.
Arguments used {PT} _.
Arguments first_available_index {PT} _.
Arguments last_available_index {PT} _.

Definition tracked_new {PT} (table : PT) (l : PageTableLevel) : TrackedMapper PT :=
  mkTrackedMapper table l (replicate PTE_COUNT_PER_PT false) 0 (PTE_COUNT_PER_PT - 1).

Definition set_used {PT} (i : nat) (b : bool) (m : TrackedMapper PT) : TrackedMapper PT :=
  mkTrackedMapper (inner m) (level m) (<[i := b]> (used m))
    (first_available_index m) (last_available_index m).
Definition set_first {PT} (i : nat) (m : TrackedMapper PT) : TrackedMapper PT :=
  mkTrackedMapper (inner m) (level m) (used m) i (last_available_index m).
Definition set_last {PT} (i : nat) (m : TrackedMapper PT) : TrackedMapper PT :=
  mkTrackedMapper (inner m) (level m) (used m) (first_available_index m) i.

(** One more than the entries of a table: enough for a loop that visits
    each entry at most once. *)
Definition SEARCH_FUEL : nat := 513.
#[global] Arguments SEARCH_FUEL : simpl never.

(** [while curr < 512 && self.used[curr] { curr += 1 }]. *)
Fixpoint seek_up (fuel : nat) (us : list bool) (curr : nat) : outcome nat :=
  match fuel with
  | O => OutOfFuel
  | S fuel =>
      if (curr <? 512)%nat then
        b ← or_panic (us !! curr);
        if (b : bool) then seek_up fuel us (curr + 1) else Done curr
      else Done curr
  end.

(** [while curr > 0 && self.used[curr] { curr -= 1 }]. *)
Fixpoint seek_down (us : list bool) (curr : nat) : outcome nat :=
  match curr with
  | O => Done O
  | S c =>
      b ← or_panic (us !! curr);
      if (b : bool) then seek_down us c else Done curr
  end.

Section Ops.
Context {V : X86Virt} {PT : Type}.

Definition mark_as_used (index : nat) (m : TrackedMapper PT)
  : outcome (option Z * TrackedMapper PT) :=
  if (512 <? index)%nat then Done (None, m)
  else
    u ← or_panic (used m !! index);
    if (u : bool) then Done (None, m)
    else
      let m := set_used index true m in
      m ← (if (first_available_index m =? index)%nat then
             curr ← seek_up SEARCH_FUEL (used m) (first_available_index m);
             Done (set_first curr m)
           else if (last_available_index m =? index)%nat then
             curr ← seek_down (used m) (last_available_index m);
             Done (set_last curr m)
           else Done m);
      i ← page_table_index_new (wrap 16 (Z.of_nat index));
      Done (Some i, m).

Definition mark_as_unused (index : nat) (m : TrackedMapper PT) : outcome (TrackedMapper PT) :=
  if (512 <? index)%nat then Done m
  else
    _ ← or_panic (used m !! index);
    let m := set_used index false m in
    if (index <? first_available_index m)%nat then Done (set_first index m)
    else if (last_available_index m <? index)%nat then Done (set_last index m)
    else Done m.

(** The loop of [mark_range_as_used]: marks each index, and remembers whether
    one of them was free. *)
Definition mark_range_step (s : bool * TrackedMapper PT) (i : nat)
  : outcome (bool * TrackedMapper PT) :=
  r ← mark_as_used i s.2;
  Done (match r.1 with Some _ => true | None => s.1 end, r.2).

Definition mark_range_as_used (start end_ : Z) (m : TrackedMapper PT)
  : outcome (option (Z * nat) * TrackedMapper PT) :=
  let start_page := page_containing_address start in
  last ← virt_addr_sub end_ 1;
  let end_page := page_containing_address last in
  let lo := Z.to_nat (page_index (level m) start_page) in
  let hi := Z.to_nat (page_index (level m) end_page) in
  let len := (hi + 1 - lo)%nat in
  r ← foldM mark_range_step (false, m) (seq lo len);
  if r.1 : bool then
    i ← page_table_index_new (Z.of_nat lo);
    Done (Some (i, len), r.2)
  else Done (None, r.2).

Definition total_available_mem_size (m : TrackedMapper PT) : Z :=
  match level m with
  | One => 4096
  | Two => 4096 * 512
  | Three => 4096 * 512 * 512
  | Four => 4096 * 512 * 512 * 512
  end.

(** Marks a run of entries, ignoring what [mark_as_used] returns. *)
Definition mark_all (idxs : list nat) (m : TrackedMapper PT) : outcome (TrackedMapper PT) :=
  foldM (fun m i => r ← mark_as_used i m; Done r.2) m idxs.

(** [&self.used[lo..hi]], checked like a slice index. *)
Definition used_slice (m : TrackedMapper PT) (lo hi : nat) : outcome (list bool) :=
  if ((lo <=? hi) && (hi <=? length (used m)))%nat then Done (take (hi - lo) (drop lo (used m)))
  else Panic.

(** The search loop of [find_free_space_and_mark]; [hi] is the exclusive
    upper bound of the indices it visits. *)
Fixpoint find_loop (fuel : nat) (reverse : bool) (len hi curr_idx : nat) (m : TrackedMapper PT)
  : outcome (option (Z * nat) * TrackedMapper PT) :=
  match fuel with
  | O => OutOfFuel
  | S fuel =>
      if ((len <=? curr_idx) && (curr_idx <? hi))%nat then
        u ← or_panic (used m !! curr_idx);
        let step :=
          if reverse then
            match curr_idx with
            | O => Panic
            | S c => find_loop fuel reverse len hi c m
            end
          else find_loop fuel reverse len hi (curr_idx + 1) m in
        if (u : bool) then step
        else
          let lo := if reverse then (curr_idx - len)%nat else curr_idx in
          target ← used_slice m lo (lo + len);
          if forallb negb target then
            m ← mark_all (if reverse then rev (seq lo len) else seq lo len) m;
            i ← page_table_index_new (wrap 16 (Z.of_nat lo));
            Done (Some (i, len), m)
          else step
      else Done (None, m)
  end.

Definition find_free_space_and_mark (size : Z) (reverse : bool) (m : TrackedMapper PT)
  : outcome (option (Z * nat) * TrackedMapper PT) :=
  let each_pte_max_size := total_available_mem_size m in
  total ← u64_add size (each_pte_max_size - 1);
  let required_pte_size := total / each_pte_max_size in
  if wrap 16 (Z.of_nat (last_available_index m)) - wrap 16 (Z.of_nat (first_available_index m)) + 1
       <? wrap 16 required_pte_size
  then Done (None, m)
  else
    let curr_idx := if reverse then last_available_index m else first_available_index m in
    if required_pte_size =? 1 then
      r ← mark_as_used curr_idx m;
      Done (match r.1 with Some pte => Some (pte, 1%nat) | None => None end, r.2)
    else
      hi ← u64_sub (Z.of_nat PTE_COUNT_PER_PT) required_pte_size;
      hi ← u64_sub hi 1;
      find_loop SEARCH_FUEL reverse (Z.to_nat required_pte_size) (Z.to_nat hi) curr_idx m.
End Ops.

(** ** The cached indices *)

(** Entry [i] is known to be used (or free). *)
Definition entry_is {PT} (m : TrackedMapper PT) (i : nat) (b : bool) : Prop :=
  used m !! i = Some b.

(** Either the cached indices are the least and the greatest free entry, or
    every entry is used and the cached indices have crossed. *)
Definition tm_inv {PT} (m : TrackedMapper PT) : Prop :=
  length (used m) = 512%nat /\
  ((first_available_index m <= last_available_index m < 512)%nat /\
     entry_is m (first_available_index m) false /\
     entry_is m (last_available_index m) false /\
     (forall i, (i < first_available_index m)%nat -> entry_is m i true) /\
     (forall i, (last_available_index m < i < 512)%nat -> entry_is m i true)
   \/ (last_available_index m < first_available_index m)%nat /\
      first_available_index m = 512%nat /\
      (forall i, (i < 512)%nat -> entry_is m i true)).

Lemma seek_up_spec fuel us curr :
  length us = 512%nat -> (curr <= 512)%nat -> (513 - curr <= fuel)%nat ->
  exists r, seek_up fuel us curr = Done r /\ (curr <= r <= 512)%nat /\
    (forall i, (curr <= i < r)%nat -> us !! i = Some true) /\
    ((r < 512)%nat -> us !! r = Some false).
Proof.
  intros Hl. revert curr. induction fuel as [|fuel IH]; intros curr Hc Hf; [lia|].
  cbn [seek_up]. destruct (Nat.ltb_spec curr 512) as [Hlt|Hge].
  - destruct (lookup_lt_is_Some_2 us curr ltac:(lia)) as [b Hb]. rewrite Hb. simpl. destruct b.
    + destruct (IH (curr + 1)%nat) as (r & Hr & Hb' & Hall & Hlast); [lia..|].
      exists r. split_and!; try done; try lia. intros i Hi.
      destruct (decide (i = curr)) as [->|]; [done|]. apply Hall. lia.
    + exists curr. split_and!; try done; try lia; intros; lia.
  - exists curr. split_and!; try done; try lia; intros; lia.
Qed.

Lemma seek_down_spec us curr :
  length us = 512%nat -> (curr < 512)%nat ->
  exists r, seek_down us curr = Done r /\ (r <= curr)%nat /\
    (forall i, (r < i <= curr)%nat -> us !! i = Some true) /\
    ((0 < r)%nat -> us !! r = Some false).
Proof.
  intros Hl. induction curr as [|c IH]; intros Hc; cbn [seek_down].
  - exists 0%nat. split_and!; try done; intros; lia.
  - destruct (lookup_lt_is_Some_2 us (S c) ltac:(lia)) as [b Hb]. rewrite Hb. simpl. destruct b.
    + destruct IH as (r & Hr & Hle & Hall & Hlast); [lia|].
      exists r. split_and!; try done; try lia. intros i Hi.
      destruct (decide (i = S c)) as [->|]; [done|]. apply Hall. lia.
    + exists (S c). split_and!; try done; intros; lia.
Qed.

(** Clearing the page offset does not change the index at any level. *)
Lemma page_div_shift l a : (a - a mod PAGE_SIZE) / 2 ^ level_shift l = a / 2 ^ level_shift l.
Proof.
  assert (H : exists k, 0 < k /\ 2 ^ level_shift l = PAGE_SIZE * k).
  { destruct l; [exists 1|exists (2 ^ 9)|exists (2 ^ 18)|exists (2 ^ 27)]; done. }
  destruct H as (k & Hk & ->). rewrite <- !Z.div_div by (lia || done).
  f_equal. pose proof (Z.div_mod a PAGE_SIZE ltac:(done)).
  replace (a - a mod PAGE_SIZE) with (a / PAGE_SIZE * PAGE_SIZE) by lia.
  by rewrite Z.div_mul.
Qed.

Section Spec.
Context {V : X86Virt} {VS : X86VirtSpec V} {PT : Type}.
Implicit Types m : TrackedMapper PT.

Lemma tm_inv_new (table : PT) l : tm_inv (tracked_new table l).
Proof.
  split; [done|]. left.
  split_and!; try reflexivity; unfold PTE_COUNT_PER_PT, tracked_new;
    cbn [first_available_index last_available_index]; intros; unfold PTE_COUNT_PER_PT in *; lia.
Qed.

Lemma index_new_nat i : (i < 512)%nat ->
  page_table_index_new (wrap 16 (Z.of_nat i)) = Done (Z.of_nat i).
Proof.
  intros Hi. unfold wrap. rewrite Z.mod_small by lia.
  apply page_table_index_new_ok. lia.
Qed.

Lemma mark_as_used_used m i :
  entry_is m i true -> mark_as_used i m = Done (None, m) \/ (512 < i)%nat.
Proof.
  intros H. unfold mark_as_used. destruct (Nat.ltb_spec 512 i); [by right|left].
  unfold entry_is in H. by rewrite H.
Qed.

(** The invariant after the first available entry was taken and [seek_up]
    stopped at [r]. *)
Lemma mark_first_inv m r :
  let i := first_available_index m in
  let us := <[i := true]> (used m) in
  tm_inv m -> (i <= last_available_index m)%nat ->
  (i <= r <= 512)%nat -> (forall j, (i <= j < r)%nat -> us !! j = Some true) ->
  ((r < 512)%nat -> us !! r = Some false) ->
  tm_inv (set_first r (set_used i true m)).
Proof.
  intros i us [Hl Hinv] Hle Hr Hall Hlast. destruct Hinv as [(Hb & Hf & Hla & Hlo & Hhi)|]; [|lia].
  unfold entry_is in *.
  assert (Hmark : forall j, used m !! j = Some true -> us !! j = Some true).
  { intros j Hj. apply list_lookup_insert_Some. destruct (decide (j = i)) as [->|]; [left|right]; auto.
    split_and!; try done. by apply lookup_lt_Some in Hj. }
  split; [simpl; by rewrite length_insert|].
  unfold entry_is; simpl; fold i; fold us.
  destruct (Nat.le_gt_cases r (last_available_index m)) as [Hrl|Hrl].
  - left. split_and!; try lia; [apply Hlast; lia| | |by intros; apply Hmark, Hhi].
    + destruct (decide (last_available_index m = i)) as [Heq|Hne].
      * assert (r = i) as -> by lia. rewrite Heq. apply Hlast. lia.
      * unfold us. by rewrite list_lookup_insert_ne.
    + intros j Hj. destruct (Nat.lt_ge_cases j i); [by apply Hmark, Hlo|apply Hall; lia].
  - right.
    assert (r = 512%nat) as ->.
    { destruct (decide (r = 512%nat)); [done|].
      pose proof (Hmark r (Hhi r ltac:(lia))). rewrite Hlast in *; [done|lia]. }
    split_and!; [lia|done|].
    intros j Hj. destruct (Nat.lt_ge_cases j i); [by apply Hmark, Hlo|apply Hall; lia].
Qed.

(** Marking a free entry. *)
Lemma mark_as_used_free m i :
  tm_inv m -> entry_is m i false ->
  exists m', mark_as_used i m = Done (Some (Z.of_nat i), m') /\
    used m' = <[i := true]> (used m) /\ inner m' = inner m /\ level m' = level m /\ tm_inv m'.
Proof.
  unfold entry_is. intros [Hl Hinv] Hi.
  assert (Hi' : (i < 512)%nat) by (rewrite <- Hl; by eapply lookup_lt_Some).
  destruct Hinv as [(Hb & Hf & Hla & Hlo & Hhi)|(_ & _ & Hall)];
    [|specialize (Hall i Hi'); unfold entry_is in *; congruence].
  unfold mark_as_used. destruct (Nat.ltb_spec 512 i); [lia|]. rewrite Hi.
  cbn [or_panic]. rewrite Done_bind.
  cbn [set_used first_available_index last_available_index used inner level].
  unfold entry_is in *.
  set (us := <[i := true]> (used m)).
  assert (Hlus : length us = 512%nat) by (by unfold us; rewrite length_insert).
  assert (Hkeep : forall j b, j <> i -> used m !! j = Some b -> us !! j = Some b).
  { intros j b Hj Hjb. unfold us. by rewrite list_lookup_insert_ne. }
  assert (Hset : us !! i = Some true) by (apply list_lookup_insert_eq; lia).
  assert (Hmark : forall j, used m !! j = Some true -> us !! j = Some true).
  { intros j Hj. destruct (decide (j = i)) as [->|]; auto. }
  destruct (Nat.eqb_spec (first_available_index m) i) as [<-|Hne].
  - destruct (seek_up_spec SEARCH_FUEL us (first_available_index m)) as (r & -> & Hr & Hall & Hlast);
      [lia|lia|unfold SEARCH_FUEL; lia|].
    rewrite !Done_bind, index_new_nat, Done_bind by lia. eexists. split_and!; try done.
    apply mark_first_inv; try done; try lia; by split; [|left].
  - destruct (Nat.eqb_spec (last_available_index m) i) as [<-|Hne'].
    + destruct (seek_down_spec us (last_available_index m)) as (r & -> & Hr & Hall & Hlast); [lia..|].
      rewrite !Done_bind, index_new_nat, Done_bind by lia. eexists. split_and!; try done.
      split; [done|]. left. unfold entry_is; simpl; fold us.
      assert (first_available_index m <= r)%nat.
      { destruct (Nat.le_gt_cases (first_available_index m) r) as [|Hgt]; [done|].
        pose proof (Hall (first_available_index m) ltac:(lia)).
        pose proof (Hkeep _ _ Hne Hf). congruence. }
      split_and!; try lia; [by apply Hkeep| |by intros; apply Hmark, Hlo|].
      * destruct (decide (r = 0%nat)) as [->|]; [|apply Hlast; lia].
        replace 0%nat with (first_available_index m) by lia. by apply Hkeep.
      * intros j Hj. destruct (Nat.le_gt_cases j (last_available_index m)); [apply Hall; lia|].
        apply Hmark, Hhi. lia.
    + rewrite Done_bind, index_new_nat, Done_bind by lia. eexists. split_and!; try done.
      split; [done|]. left. unfold entry_is; simpl; fold us.
      split_and!; try lia; [by apply Hkeep|by apply Hkeep|by intros; apply Hmark, Hlo|].
      intros; apply Hmark, Hhi; lia.
Qed.

(** Marking free, distinct entries succeeds for each of them. *)
Lemma mark_all_free idxs m :
  tm_inv m -> NoDup idxs -> (forall i, i ∈ idxs -> entry_is m i false) ->
  exists m', mark_all idxs m = Done m' /\ tm_inv m' /\ inner m' = inner m /\ level m' = level m /\
    (forall i, i ∈ idxs -> entry_is m' i true) /\
    (forall i, i ∉ idxs -> used m' !! i = used m !! i).
Proof.
  unfold mark_all. intros Hinv Hnd. revert m Hinv.
  induction Hnd as [|i idxs Hni Hnd IH]; intros m Hinv Hfree; cbn [foldM].
  { exists m. split_and!; try done. by intros ? []%not_elem_of_nil. }
  destruct (mark_as_used_free m i Hinv) as (m1 & -> & Hu & Hin & Hlv & Hinv1);
    [apply Hfree; left|].
  rewrite !Done_bind. cbn [snd].
  assert (Hi : (i < length (used m))%nat).
  { eapply lookup_lt_Some, (Hfree i); left. }
  destruct (IH m1 Hinv1) as (m2 & -> & Hinv2 & Hin2 & Hlv2 & Ht & Hk).
  { intros j Hj. unfold entry_is. rewrite Hu, list_lookup_insert_ne by (by intros ->).
    apply Hfree. by right. }
  exists m2. split_and!; try done; try congruence.
  - intros j [->|Hj]%elem_of_cons; [|by apply Ht].
    unfold entry_is. rewrite Hk, Hu by done. by apply list_lookup_insert_eq.
  - intros j [Hji Hj]%not_elem_of_cons. rewrite Hk, Hu by done. by rewrite list_lookup_insert_ne.
Qed.

(** What a request may do: nothing, or take the entries [i .. i + n - 1],
    which were free. *)
Definition request_ok m (r : option (Z * nat)) m' : Prop :=
  tm_inv m' /\ inner m' = inner m /\ level m' = level m /\
  match r with
  | None => m' = m
  | Some (i, n) =>
      exists lo : nat, i = Z.of_nat lo /\ (lo + n <= 512)%nat /\
        (forall j, (lo <= j < lo + n)%nat -> entry_is m j false /\ entry_is m' j true) /\
        (forall j, (j < lo \/ lo + n <= j)%nat -> used m' !! j = used m !! j)
  end.

Lemma forallb_negb_slice us lo n j :
  forallb negb (take n (drop lo us)) = true -> (lo + n <= length us)%nat ->
  (lo <= j < lo + n)%nat -> us !! j = Some false.
Proof.
  intros Hall Hlen Hj. destruct (lookup_lt_is_Some_2 us j ltac:(lia)) as [b Hb].
  rewrite Hb. f_equal. rewrite forallb_forall in Hall.
  specialize (Hall b). destruct b; [|done]. exfalso.
  discriminate Hall. apply list_elem_of_In, list_elem_of_lookup. exists (j - lo)%nat.
  rewrite lookup_take_lt by lia. rewrite lookup_drop. by replace (lo + (j - lo))%nat with j by lia.
Qed.

Lemma mark_run_ok reverse lo n m :
  tm_inv m -> (lo + n <= 512)%nat -> (forall j, (lo <= j < lo + n)%nat -> entry_is m j false) ->
  exists m', mark_all (if reverse : bool then rev (seq lo n) else seq lo n) m = Done m' /\
    request_ok m (Some (Z.of_nat lo, n)) m'.
Proof.
  intros Hinv Hle Hfree.
  set (idxs := if reverse then rev (seq lo n) else seq lo n).
  assert (Hin : forall j, j ∈ idxs <-> (lo <= j < lo + n)%nat).
  { intros j. unfold idxs. destruct reverse; rewrite ?list_elem_of_In, <- ?in_rev, in_seq; done. }
  destruct (mark_all_free idxs m Hinv) as (m' & -> & Hinv' & Hi & Hl & Ht & Hk).
  { unfold idxs. destruct reverse; [apply NoDup_ListNoDup, NoDup_rev|apply NoDup_ListNoDup]; apply seq_NoDup. }
  { intros j Hj. by apply Hfree, Hin. }
  exists m'. split; [done|]. split_and!; try done. exists lo. split_and!; [done|lia| |].
  - intros j Hj. split; [by apply Hfree|by apply Ht, Hin].
  - intros j Hj. apply Hk. rewrite Hin. lia.
Qed.

Lemma find_loop_outside fuel reverse len hi curr m :
  (curr < len \/ hi <= curr)%nat -> find_loop (S fuel) reverse len hi curr m = Done (None, m).
Proof.
  intros H. cbn [find_loop].
  destruct (Nat.leb_spec len curr), (Nat.ltb_spec curr hi); [lia|done..].
Qed.

Lemma find_loop_ok fuel reverse len curr m :
  tm_inv m -> (0 < len < 512)%nat -> (curr < 512)%nat ->
  ((if reverse : bool then curr else 512 - curr) < fuel)%nat ->
  exists r m', find_loop fuel reverse len (511 - len) curr m = Done (r, m') /\
    request_ok m r m' /\ (forall i n, r = Some (i, n) -> n = len).
Proof.
  intros Hinv Hlen. revert curr. induction fuel as [|fuel IH]; intros curr Hc Hf; [lia|].
  pose proof Hinv as [Hl _]. cbn [find_loop].
  assert (Hnone : exists r m', @Done (option (Z * nat) * TrackedMapper PT) (None, m) = Done (r, m') /\
    request_ok m r m' /\ (forall i n, r = Some (i, n) -> n = len)) by (exists None, m; done).
  destruct (Nat.leb_spec len curr) as [Hle|], (Nat.ltb_spec curr (511 - len)) as [Hlt|]; try done.
  destruct (lookup_lt_is_Some_2 (used m) curr ltac:(lia)) as [u Hu]. rewrite Hu.
  cbn [andb or_panic]. rewrite Done_bind.
  match goal with |- context [if u then ?s else _] => set (step := s) end.
  assert (Hstep : exists r m', step = Done (r, m') /\
    request_ok m r m' /\ (forall i n, r = Some (i, n) -> n = len)).
  { unfold step. destruct reverse; [destruct curr; [lia|]|]; apply IH; lia. }
  destruct u; [done|].
  set (lo := if reverse then (curr - len)%nat else curr).
  assert (Hlo : (lo + len <= 512)%nat) by (unfold lo; destruct reverse; lia).
  unfold used_slice. rewrite Hl.
  rewrite (proj2 (Nat.leb_le lo (lo + len))), (proj2 (Nat.leb_le (lo + len) 512)) by lia.
  cbn [andb]. rewrite Done_bind. replace (lo + len - lo)%nat with len by lia.
  destruct (forallb negb _) eqn:Hall; [|done].
  destruct (mark_run_ok reverse lo len m Hinv Hlo) as (m' & -> & Hok).
  { intros j Hj. eapply forallb_negb_slice; [done|lia|done]. }
  rewrite Done_bind, index_new_nat, Done_bind by lia.
  eexists _, _. split; [done|]. split; [done|]. by intros i n [= _ <-].
Qed.

Lemma mark_one_ok m i :
  tm_inv m -> entry_is m i false ->
  exists m', mark_as_used i m = Done (Some (Z.of_nat i), m') /\
    request_ok m (Some (Z.of_nat i, 1%nat)) m'.
Proof.
  intros Hinv Hi. destruct (mark_as_used_free m i Hinv Hi) as (m' & Hm & Hu & Hin & Hlv & Hinv').
  exists m'. split; [done|]. split_and!; try done.
  assert (Hlt : (i < length (used m))%nat) by (by eapply lookup_lt_Some).
  destruct Hinv as [Hl _]. exists i. split_and!; [done|lia| |].
  - intros j Hj. assert (j = i) as -> by lia. split; [done|].
    unfold entry_is. rewrite Hu. by apply list_lookup_insert_eq.
  - intros j Hj. rewrite Hu. apply list_lookup_insert_ne. lia.
Qed.

Lemma total_pos m : 4096 <= total_available_mem_size m < 2 ^ 40.
Proof. unfold total_available_mem_size. destruct (level m); lia. Qed.

(** The number of entries a request needs. *)
Lemma required_bounds size each :
  0 < each -> 0 < size ->
  let n := (size + (each - 1)) / each in
  0 < n /\ size <= n * each /\ (n - 1) * each < size.
Proof.
  intros He Hs n. pose proof (Z.div_mod (size + (each - 1)) each ltac:(lia)) as Hd. fold n in Hd.
  pose proof (Z.mod_pos_bound (size + (each - 1)) each He). nia.
Qed.

Lemma avail_check m :
  tm_inv m ->
  wrap 16 (Z.of_nat (last_available_index m)) - wrap 16 (Z.of_nat (first_available_index m)) =
  Z.of_nat (last_available_index m) - Z.of_nat (first_available_index m).
Proof.
  intros [_ [(Hb & _)|(Hb & Hf & _)]]; unfold wrap; rewrite !Z.mod_small; lia.
Qed.

(** C12. A request for at most 511 entries always returns.  It leaves the
    table alone, or it takes a run of entries that were all free: the least
    number of entries that cover the requested size, now marked as used,
    every other entry untouched, with the cached indices exact again. *)
Theorem find_free_space_sound m size reverse :
  tm_inv m -> 0 < size <= 511 * total_available_mem_size m ->
  exists r m', find_free_space_and_mark size reverse m = Done (r, m') /\
    request_ok m r m' /\
    (forall i n, r = Some (i, n) ->
      size <= Z.of_nat n * total_available_mem_size m /\
      (Z.of_nat n - 1) * total_available_mem_size m < size).
Proof.
  intros Hinv Hsize. pose proof (total_pos m) as He. set (each := total_available_mem_size m) in *.
  destruct (required_bounds size each) as (Hn0 & Hcov & Hmin); [lia..|].
  unfold find_free_space_and_mark, u64_add. fold each.
  rewrite checked_in, Done_bind by lia.
  set (n := (size + (each - 1)) / each) in *.
  assert (Hn : 0 < n <= 511) by nia.
  rewrite (avail_check m Hinv). unfold wrap at 1. rewrite Z.mod_small by lia.
  destruct (Z.ltb_spec (Z.of_nat (last_available_index m) - Z.of_nat (first_available_index m) + 1) n)
    as [|Hav]; [by exists None, m|].
  set (curr := if reverse then last_available_index m else first_available_index m).
  assert (Hcurr : entry_is m curr false).
  { unfold curr. destruct Hinv as [_ [(_ & ? & ? & _)|]]; [by destruct reverse|lia]. }
  assert (Hc : (curr < 512)%nat) by (destruct Hinv as [Hl _]; rewrite <- Hl; by eapply lookup_lt_Some).
  destruct (Z.eqb_spec n 1) as [Hn1|Hn1].
  - destruct (mark_one_ok m curr Hinv Hcurr) as (m' & -> & Hok).
    eexists _, _. split; [done|]. split; [done|]. intros i k [= <- <-]. lia.
  - unfold u64_sub. rewrite checked_in, Done_bind, checked_in, Done_bind by (unfold PTE_COUNT_PER_PT; lia).
    replace (Z.to_nat (Z.of_nat PTE_COUNT_PER_PT - n - 1)) with (511 - Z.to_nat n)%nat
      by (unfold PTE_COUNT_PER_PT; lia).
    destruct (find_loop_ok SEARCH_FUEL reverse (Z.to_nat n) curr m) as (r & m' & -> & Hok & Hr);
      [done|lia|done|unfold SEARCH_FUEL; destruct reverse; lia|].
    exists r, m'. split; [done|]. split; [done|]. intros i k Hik. rewrite (Hr i k Hik). lia.
Qed.

(** A request that fits one entry takes the last free entry (or the
    first one, searching forwards), and fails only when every entry is used. *)
Lemma find_one_entry m size reverse :
  tm_inv m -> 0 < size <= total_available_mem_size m ->
  ((forall i, (i < 512)%nat -> entry_is m i true) /\
     find_free_space_and_mark size reverse m = Done (None, m)) \/
  (exists i m', find_free_space_and_mark size reverse m = Done (Some (Z.of_nat i, 1%nat), m') /\
     request_ok m (Some (Z.of_nat i, 1%nat)) m' /\
     (forall j, (if reverse : bool then i < j < 512 else j < i)%nat -> entry_is m j true)).
Proof.
  intros Hinv Hsize. pose proof (total_pos m) as He. set (each := total_available_mem_size m) in *.
  destruct (required_bounds size each) as (Hn0 & Hcov & Hmin); [lia..|].
  unfold find_free_space_and_mark, u64_add. fold each.
  rewrite checked_in, Done_bind by lia.
  replace ((size + (each - 1)) / each) with 1 in * by nia.
  rewrite (avail_check m Hinv). change (wrap 16 1) with 1. change (1 =? 1) with true.
  pose proof Hinv as [_ [(Hb & Hf & Hla & Hlo & Hhi)|(Hb & Hf & Hall)]].
  - right. rewrite (proj2 (Z.ltb_ge _ _)) by lia. cbv iota.
    set (i := if reverse then _ else _).
    destruct (mark_one_ok m i Hinv) as (m' & -> & Hok); [by unfold i; destruct reverse|].
    exists i, m'. split_and!; [done|done|]. unfold i. destruct reverse; auto.
  - left. split; [done|]. by rewrite (proj2 (Z.ltb_lt _ _)) by lia.
Qed.

(** On a table with no entry in use a request for two entries or more
    fails, in either direction, although every entry is free. *)
Theorem find_multi_fresh_none (table : PT) l size reverse :
  total_available_mem_size (tracked_new table l) < size <=
    511 * total_available_mem_size (tracked_new table l) ->
  find_free_space_and_mark size reverse (tracked_new table l) =
    Done (None, tracked_new table l).
Proof.
  intros Hsize. pose proof (total_pos (tracked_new table l)) as He.
  unfold find_free_space_and_mark, u64_add, u64_sub.
  set (m := tracked_new table l) in *. set (each := total_available_mem_size m) in *.
  destruct (required_bounds size each) as (Hn0 & Hcov & Hmin); [lia..|].
  rewrite checked_in, Done_bind by lia. set (n := (size + (each - 1)) / each) in *.
  assert (Hn : 1 < n <= 511) by nia.
  change (wrap 16 (Z.of_nat (last_available_index m)) -
    wrap 16 (Z.of_nat (first_available_index m)) + 1) with 512.
  unfold wrap. rewrite Z.mod_small by lia.
  rewrite (proj2 (Z.ltb_ge _ _)), (proj2 (Z.eqb_neq n 1)) by lia.
  rewrite checked_in, Done_bind, checked_in, Done_bind by (unfold PTE_COUNT_PER_PT; lia).
  apply (find_loop_outside 512). unfold m, tracked_new, PTE_COUNT_PER_PT.
  cbn [first_available_index last_available_index]. destruct reverse; lia.
Qed.

(** Releasing an entry keeps the cached indices exact as long as some
    entry is free. *)
Theorem mark_as_unused_inv m i :
  tm_inv m -> (i < 512)%nat -> (exists j, entry_is m j false) ->
  exists m', mark_as_unused i m = Done m' /\ used m' = <[i := false]> (used m) /\ tm_inv m'.
Proof.
  intros [Hl Hinv] Hi (j & Hj).
  assert (Hjl : (j < 512)%nat) by (rewrite <- Hl; by eapply lookup_lt_Some).
  destruct Hinv as [(Hb & Hf & Hla & Hlo & Hhi)|(_ & _ & Hall)];
    [|specialize (Hall j Hjl); unfold entry_is in *; congruence].
  destruct (lookup_lt_is_Some_2 (used m) i ltac:(lia)) as [u Hu].
  unfold mark_as_unused. rewrite (proj2 (Nat.ltb_ge 512 i)), Hu by lia. cbn [or_panic].
  rewrite Done_bind. cbn [first_available_index last_available_index set_used].
  assert (Hset : <[i := false]> (used m) !! i = Some false) by (apply list_lookup_insert_eq; lia).
  assert (Hkeep : forall j b, j <> i -> used m !! j = Some b -> <[i := false]> (used m) !! j = Some b)
    by (intros; by rewrite list_lookup_insert_ne).
  assert (Hfree : forall j, used m !! j = Some false -> <[i := false]> (used m) !! j = Some false).
  { intros k Hk. destruct (decide (k = i)) as [->|]; auto. }
  destruct (Nat.ltb_spec i (first_available_index m)); [|destruct (Nat.ltb_spec (last_available_index m) i)];
    (eexists; split; [done|]; split; [done|]; split; [simpl; by rewrite length_insert|left]);
    unfold entry_is in *; simpl; (split_and!; [lia|lia|auto|auto|intros k Hk..]);
    (apply Hkeep; [lia|]); (apply Hlo; lia) || (apply Hhi; lia).
Qed.

(** The bounds test of [mark_as_used] and [mark_as_unused] lets the index
    512 through, and both panic there. *)
Theorem mark_512_panics m :
  length (used m) = 512%nat ->
  mark_as_used 512 m = Panic /\ mark_as_unused 512 m = Panic.
Proof.
  intros Hl. unfold mark_as_used, mark_as_unused.
  by rewrite (lookup_ge_None_2 (used m) 512) by lia.
Qed.

Lemma page_index_containing l a : 0 <= a ->
  page_index l (page_containing_address a) = (a / 2 ^ level_shift l) mod 512.
Proof.
  intros Ha. rewrite page_containing_spec by done.
  pose proof (Z.mod_le a PAGE_SIZE Ha eq_refl). rewrite page_index_spec by lia.
  f_equal. apply page_div_shift.
Qed.

Lemma mark_range_fold idxs b m :
  tm_inv m -> (forall i, i ∈ idxs -> (i < 512)%nat) ->
  exists m', foldM mark_range_step (b, m) idxs =
      Done (b || negb (forallb (fun i => default true (used m !! i)) idxs), m') /\
    tm_inv m' /\ inner m' = inner m /\ level m' = level m /\
    (forall i, i ∈ idxs -> entry_is m' i true) /\
    (forall i, i ∉ idxs -> used m' !! i = used m !! i).
Proof.
  revert b m. induction idxs as [|i idxs IH]; intros b m Hinv Hlt; cbn [foldM].
  { exists m. simpl. rewrite orb_false_r. split_and!; try done. by intros ? []%not_elem_of_nil. }
  pose proof (Hlt i ltac:(left)) as Hi. pose proof Hinv as [Hl _].
  destruct (lookup_lt_is_Some_2 (used m) i ltac:(lia)) as [u Hu].
  assert (Hst : forall o m1, mark_as_used i m = Done (o, m1) ->
    mark_range_step (b, m) i = Done (match o with Some _ => true | None => b end, m1)).
  { intros o m1 E. unfold mark_range_step. simpl. by rewrite E. }
  cbn [forallb]. rewrite Hu. destruct u.
  - destruct (mark_as_used_used m i Hu) as [Hm|]; [|lia]. rewrite (Hst _ _ Hm), Done_bind. simpl.
    destruct (IH b m Hinv) as (m' & -> & Hinv' & Hin & Hlv & Ht & Hk); [intros; apply Hlt; by right|].
    exists m'. split_and!; try done.
    + intros j [->|Hj]%elem_of_cons; [|by apply Ht].
      destruct (decide (i ∈ idxs)); [by apply Ht|]. unfold entry_is. by rewrite Hk.
    + intros j [_ Hj]%not_elem_of_cons. by apply Hk.
  - destruct (mark_as_used_free m i Hinv Hu) as (m1 & Hm & Hu1 & Hin1 & Hlv1 & Hinv1).
    rewrite (Hst _ _ Hm), Done_bind. simpl. rewrite orb_true_r.
    destruct (IH true m1 Hinv1) as (m' & -> & Hinv' & Hin & Hlv & Ht & Hk); [intros; apply Hlt; by right|].
    exists m'. split_and!; try done; try congruence.
    + intros j [->|Hj]%elem_of_cons; [|by apply Ht].
      destruct (decide (i ∈ idxs)); [by apply Ht|]. unfold entry_is. rewrite Hk, Hu1 by done.
      apply list_lookup_insert_eq. lia.
    + intros j [Hne Hj]%not_elem_of_cons. rewrite Hk, Hu1 by done. by apply list_lookup_insert_ne.
Qed.

(** Marking an address range marks every entry its addresses pass
    through and no other, keeps the cached indices exact, and returns the
    first entry and the number of entries unless all were marked before. *)
Theorem mark_range_as_used_spec m start end_ :
  tm_inv m -> canonical start -> canonical end_ -> canonical (end_ - 1) ->
  let lo := Z.to_nat ((start / 2 ^ level_shift (level m)) mod 512) in
  let hi := Z.to_nat (((end_ - 1) / 2 ^ level_shift (level m)) mod 512) in
  (lo <= hi)%nat ->
  exists r m', mark_range_as_used start end_ m = Done (r, m') /\ tm_inv m' /\
    (forall j, (lo <= j <= hi)%nat -> entry_is m' j true) /\
    (forall j, (j < lo \/ hi < j)%nat -> used m' !! j = used m !! j) /\
    r = (if forallb (fun i => default true (used m !! i)) (seq lo (hi + 1 - lo))
         then None else Some (Z.of_nat lo, (hi + 1 - lo)%nat)).
Proof.
  intros Hinv Hs He He1 lo hi Hle.
  assert (Hnn : forall a, canonical a -> 0 <= a) by (unfold canonical; lia).
  assert (Hhi : (hi < 512)%nat) by (unfold hi; pose proof (Z.mod_pos_bound
    ((end_ - 1) / 2 ^ level_shift (level m)) 512 eq_refl); lia).
  unfold mark_range_as_used. rewrite virt_addr_sub_ok, Done_bind by (done || lia).
  rewrite !page_index_containing by auto. fold lo hi.
  destruct (mark_range_fold (seq lo (hi + 1 - lo)) false m Hinv)
    as (m' & -> & Hinv' & _ & _ & Ht & Hk).
  { intros i Hi. apply elem_of_seq in Hi. lia. }
  rewrite Done_bind. cbn [fst snd orb].
  destruct (forallb _ _); cbn [negb].
  2: rewrite page_table_index_new_ok, Done_bind by lia.
  all: eexists _, m'; split_and!; try done; intros j Hj; [apply Ht|apply Hk];
    rewrite elem_of_seq; lia.
Qed.

(** Once every entry is used, releasing an entry other than the cached
    last one is lost for searches from the end: the next one-entry request
    fails although the entry is free. *)
Theorem mark_as_unused_full_lost m i size :
  tm_inv m -> (forall j, (j < 512)%nat -> entry_is m j true) ->
  (i < 512)%nat -> i <> last_available_index m -> 0 < size <= total_available_mem_size m ->
  exists m', mark_as_unused i m = Done m' /\ entry_is m' i false /\
    find_free_space_and_mark size true m' = Done (None, m').
Proof.
  intros [Hl [(Hb & Hf & _)|(Hb & Hf & _)]] Hall Hi Hne Hsize.
  { pose proof (Hall _ (Nat.le_lt_trans _ _ _ (proj1 Hb) (proj2 Hb))). unfold entry_is in *. congruence. }
  pose proof (total_pos m) as He.
  destruct (required_bounds size (total_available_mem_size m)) as (Hn0 & Hcov & Hmin); [lia..|].
  unfold mark_as_unused. rewrite (proj2 (Nat.ltb_ge 512 i)), (Hall i Hi) by lia.
  cbn [or_panic]. rewrite Done_bind. cbn [first_available_index set_used].
  rewrite Hf, (proj2 (Nat.ltb_lt _ _)) by lia.
  eexists. split; [done|]. split; [apply list_lookup_insert_eq; lia|].
  unfold find_free_space_and_mark, u64_add.
  set (m' := set_first i (set_used i false m)).
  change (total_available_mem_size m') with (total_available_mem_size m).
  change (last_available_index m') with (last_available_index m).
  change (first_available_index m') with i. rewrite checked_in, Done_bind by lia.
  replace ((size + (total_available_mem_size m - 1)) / total_available_mem_size m) with 1 by nia.
  change (1 =? 1) with true. cbv iota. case_match; [done|].
  assert (Hlast : entry_is m' (last_available_index m) true).
  { unfold entry_is. simpl. rewrite list_lookup_insert_ne by done. apply Hall. lia. }
  by destruct (mark_as_used_used m' _ Hlast) as [->|]; [|lia].
Qed.

(** ** Tables used from the end *)

(** The entries up to [i] are free, the others used. *)
Definition topped m (i : nat) : Prop :=
  tm_inv m /\ (i < 512)%nat /\ (forall j, (j <= i)%nat -> entry_is m j false) /\
  (forall j, (i < j < 512)%nat -> entry_is m j true).

Lemma topped_new (table : PT) l : topped (tracked_new table l) 511.
Proof.
  split_and!; [apply tm_inv_new|lia| |intros; lia].
  intros j Hj. apply lookup_replicate_2. unfold PTE_COUNT_PER_PT. lia.
Qed.

(** A one-entry request from the end takes entry [i]. *)
Lemma find_topped m i size :
  topped m i -> (0 < i)%nat -> 0 < size <= total_available_mem_size m ->
  exists m', find_free_space_and_mark size true m = Done (Some (Z.of_nat i, 1%nat), m') /\
    topped m' (i - 1) /\ inner m' = inner m /\ level m' = level m.
Proof.
  intros (Hinv & Hi & Hlo & Hhi) H0 Hsize.
  destruct (find_one_entry m size true Hinv Hsize) as [[Hall _]|(k & m' & Hf & Hok & Hk)].
  { specialize (Hall i Hi). specialize (Hlo i ltac:(lia)). unfold entry_is in *. congruence. }
  destruct Hok as (Hinv' & Hin & Hlv & lo & Heq & Hle & Htaken & Hother).
  assert (lo = k) as -> by lia.
  destruct (Htaken k ltac:(lia)) as [Hkf Hkt].
  assert (k = i) as ->.
  { unfold entry_is in *. destruct (Nat.lt_trichotomy k i) as [Hlt|[->|Hgt]]; [|done|].
    - specialize (Hk i ltac:(lia)). rewrite Hlo in Hk by lia. done.
    - rewrite Hhi in Hkf by lia. done. }
  exists m'. split; [done|]. split; [|done]. unfold topped. split_and!; [done|lia| |].
  - intros j Hj. unfold entry_is. rewrite Hother by lia. apply Hlo. lia.
  - intros j Hj. destruct (decide (j = i)) as [->|]; [done|].
    unfold entry_is. rewrite Hother by lia. apply Hhi. lia.
Qed.
End Spec.

(** ** Instances *)

#[local] Existing Instance x86_virt_model.
#[local] Existing Instance x86_virt_model_spec.

Definition fresh_p4 : TrackedMapper unit := tracked_new tt Four.

(** Every entry used, marked from the end. *)
Definition full_p4 : TrackedMapper unit := mkTrackedMapper tt Four (replicate 512 true) 512 0.

Lemma full_p4_entries i : (i < 512)%nat -> entry_is full_p4 i true.
Proof. intros Hi. by apply lookup_replicate_2. Qed.

Lemma full_p4_inv : tm_inv full_p4.
Proof. split; [done|]. right. split_and!; [simpl; lia|done|exact full_p4_entries]. Qed.

Lemma find_free_space_sound_witness :
  exists r m', find_free_space_and_mark 4096 true fresh_p4 = Done (r, m') /\
    request_ok fresh_p4 r m'.
Proof.
  destruct (find_free_space_sound fresh_p4 4096 true (tm_inv_new tt Four) ltac:(vm_compute; done))
    as (r & m' & Hr & Hok & _).
  exists r, m'. split; [exact Hr|exact Hok].
Defined.

Lemma find_multi_fresh_none_witness :
  find_free_space_and_mark (2 ^ 40) true fresh_p4 = Done (None, fresh_p4).
Proof. apply find_multi_fresh_none. vm_compute. split; done. Defined.

Lemma mark_as_unused_inv_witness :
  exists m', mark_as_unused 0 fresh_p4 = Done m' /\ tm_inv m'.
Proof.
  destruct (mark_as_unused_inv fresh_p4 0 (tm_inv_new tt Four) ltac:(lia) ltac:(by exists 0%nat))
    as (m' & Hm & _ & Hinv).
  exists m'. split; [exact Hm|exact Hinv].
Defined.

Lemma mark_512_panics_witness : mark_as_used 512 fresh_p4 = Panic.
Proof. apply (mark_512_panics fresh_p4). reflexivity. Defined.

Lemma mark_range_as_used_spec_witness :
  exists r m', mark_range_as_used 0 0x1000 fresh_p4 = Done (r, m') /\ entry_is m' 0 true.
Proof.
  destruct (mark_range_as_used_spec fresh_p4 0 0x1000 (tm_inv_new tt Four)
    ltac:(left; lia) ltac:(left; lia) ltac:(left; lia) ltac:(vm_compute; lia))
    as (r & m' & Hr & _ & Hin & _).
  exists r, m'. split; [exact Hr|]. apply Hin. vm_compute. lia.
Defined.

Lemma mark_as_unused_full_lost_witness :
  exists m', mark_as_unused 5 full_p4 = Done m' /\ entry_is m' 5 false /\
    find_free_space_and_mark 4096 true m' = Done (None, m').
Proof.
  apply (mark_as_unused_full_lost full_p4 5 4096 full_p4_inv full_p4_entries).
  - lia.
  - discriminate.
  - vm_compute. split; done.
Defined.
