(* ===== verification/RuntimeMap.v ===== *)
(** * Building the kernel's address space in the bootloader

    [bootloader-efi/src/mem/runtime_map.rs], the [runtime] part of
    [mem/page_allocator.rs], and the region list [efi_main] builds
    ([main.rs], [construct_unsafe_phys_mem_region_map]).

    Each function threads the tracked level-4 table and the frame allocator.
    Loading the kernel image is in LoadKernel.v. *)

From S2P Require Import Prelude Platform Shared Paging BootFrameAlloc TrackedMapper.

Definition set_inner {PT} (pt : PT) (m : TrackedMapper PT) : TrackedMapper PT :=
  mkTrackedMapper pt (level m) (used m) (first_available_index m) (last_available_index m).

Section RuntimeMap.
Context {X : X86Addr} {V : X86Virt} {F : PtFlags} {PT : Type} {M : Mapper PT}.
Context {A : Type} (alloc : frame_source A).

(** [frame_allocator.allocate_frame().or_panic(..)]. *)
Definition take_frame (a : A) : outcome (Z * A) :=
  r ← alloc a; f ← or_panic r.1; Done (f, r.2).

(** [table.map_to(page, frame, flags, frame_allocator).or_panic(..)]. *)
Definition must_map_to (m : TrackedMapper PT) (page frame flags : Z) (a : A)
  : outcome (TrackedMapper PT * A) :=
  r ← map_to alloc (inner m) page frame flags a;
  match r with
  | (inl _, pt, a') => Done (set_inner pt m, a')
  | (inr _, _, _) => Panic
  end.

Definition must_map_to_1gib (m : TrackedMapper PT) (page frame flags : Z) (a : A)
  : outcome (TrackedMapper PT * A) :=
  r ← map_to_1gib alloc (inner m) page frame flags a;
  match r with
  | (inl _, pt, a') => Done (set_inner pt m, a')
  | (inr _, _, _) => Panic
  end.

(** Finding a level-4 entry for [size] bytes from the end, and the
    [assert_eq!] that it is the expected one. *)
Definition claim_slot (size : Z) (expected : nat) (m : TrackedMapper PT)
  : outcome (Z * TrackedMapper PT) :=
  r ← find_free_space_and_mark size true m;
  available_p4pti ← or_panic r.1;
  i ← page_table_index_new (Z.of_nat expected);
  _ ← rassert (i =? available_p4pti.1);
  Done (available_p4pti.1, r.2).

(** [Page::from_page_table_indices_1gib(slot, 0).start_address()]. *)
Definition slot_start_address (slot : Z) : outcome Z :=
  zero ← page_table_index_new 0;
  Done (page_from_indices_1gib slot zero).

(** ** [page_allocator::runtime] *)

(** The level-4 tables are lists of entries here: the boot stage table is
    only copied from. *)
Definition map_boot_stage_page_table {E} (unused : E) (current_page_table : list E) (a : A)
  : outcome (Z * list E * A) :=
  fr ← take_frame a;
  entry ← or_panic (current_page_table !! 0%nat);
  Done (fr.1, <[0%nat := entry]> (replicate 512 unused), fr.2).

Definition create_page_table (a : A) : outcome (TrackedMapper PT * Z * A) :=
  fr ← take_frame a;
  Done (tracked_new pt_empty Four, fr.1, fr.2).

(** ** [runtime_map] *)

Definition map_stack_page (s : TrackedMapper PT * A) (page : Z) : outcome (TrackedMapper PT * A) :=
  fr ← take_frame s.2;
  must_map_to s.1 page fr.1 (flags_or PT_PRESENT PT_WRITABLE) fr.2.

Definition alloc_and_map_kernel_stack (stack_size : Z) (m : TrackedMapper PT) (a : A)
  : outcome (Z * TrackedMapper PT * A) :=
  total_size ← u64_add stack_size 4096;
  slot ← claim_slot total_size KERNEL_STACK_P4 m;
  start_1gb ← slot_start_address slot.1;
  let start_page := page_containing_address start_1gb in
  end_ ← virt_addr_add start_page total_size;
  last ← virt_addr_sub end_ 1;
  let end_page := page_containing_address last in
  s ← foldM map_stack_page (slot.2, a) (page_range_inclusive start_page end_page);
  r ← virt_addr_add start_page 4096;
  Done (r, s.1, s.2).

(** The frame [init_gdt] takes; the descriptor table it writes into the frame and
    the registers it loads are in Segments.v. *)
Definition gdt_frame (a : A) : outcome (Z * A) := take_frame a.

(** Maps the [idx]-th frame of a block to the [idx]-th page. *)
Definition map_block_frame (start_page start_frame flags : Z) (s : TrackedMapper PT * A) (frame : Z)
  : outcome (TrackedMapper PT * A) :=
  idx ← frame_diff frame start_frame;
  page ← page_add start_page idx;
  must_map_to s.1 page frame flags s.2.

(** The same with the frames enumerated. *)
Definition map_enumerated_frame (start_page flags : Z) (s : TrackedMapper PT * A) (f : nat * Z)
  : outcome (TrackedMapper PT * A) :=
  page ← page_add start_page (Z.of_nat f.1);
  must_map_to s.1 page f.2 flags s.2.

Definition map_framebuffer (framebuffer_ptr framebuffer_len : Z) (m : TrackedMapper PT) (a : A)
  : outcome (Z * TrackedMapper PT * A) :=
  slot ← claim_slot framebuffer_len FRAMEBUFFER_P4 m;
  start_1gb ← slot_start_address slot.1;
  let start_page := page_containing_address start_1gb in
  _ ← rassert (0 <? framebuffer_len);
  phys_addr ← phys_addr_new framebuffer_ptr;
  let start_frame := frame_containing_address phys_addr in
  end_ ← phys_addr_add phys_addr framebuffer_len;
  last ← phys_addr_sub end_ 1;
  let end_frame := frame_containing_address last in
  s ← foldM (map_enumerated_frame start_page (flags_or PT_PRESENT PT_WRITABLE)) (slot.2, a)
        (imap pair (frame_range_inclusive start_frame end_frame));
  r ← virt_addr_add start_page (phys_addr - align_down phys_addr 4096);
  Done (r, s.1, s.2).

Definition map_gib_frame (phys_start_page : Z) (s : TrackedMapper PT * A) (frame : Z)
  : outcome (TrackedMapper PT * A) :=
  addr ← virt_addr_add phys_start_page frame;
  must_map_to_1gib s.1 (page_containing_1gib addr) frame (flags_or PT_PRESENT PT_WRITABLE) s.2.

Definition map_physics_memory (max_phys_addr : Z) (m : TrackedMapper PT) (a : A)
  : outcome (Z * TrackedMapper PT * A) :=
  zero ← phys_addr_new 0;
  let start_frame := frame_containing_1gib zero in
  last ← phys_addr_sub max_phys_addr 1;
  let end_frame := frame_containing_1gib last in
  m ← mark_as_unused PHYS_MEM_P4 m;
  p4 ← page_table_index_new (Z.of_nat PHYS_MEM_P4);
  phys_start_page ← slot_start_address p4;
  s ← foldM (map_gib_frame phys_start_page) (m, a)
        (frame_range_inclusive_1gib start_frame end_frame);
  Done (phys_start_page, s.1, s.2).

Definition map_bootstrap (bootstrap_ptr bootstrap_len : Z) (m : TrackedMapper PT) (a : A)
  : outcome (Z * TrackedMapper PT * A) :=
  slot ← claim_slot bootstrap_len BOOTSTRAP_BYTES_P4 m;
  start_1gb ← slot_start_address slot.1;
  let start_page := page_containing_address start_1gb in
  _ ← rassert (0 <? bootstrap_len);
  phys_addr_start ← phys_addr_new bootstrap_ptr;
  let frame_start := frame_containing_address phys_addr_start in
  end_ ← phys_addr_add phys_addr_start bootstrap_len;
  let frame_end := frame_containing_address end_ in
  s ← foldM (map_block_frame start_page frame_start PT_PRESENT) (slot.2, a)
        (frame_range_inclusive frame_start frame_end);
  r ← virt_addr_add start_page (phys_addr_start - frame_start);
  Done (r, s.1, s.2).
End RuntimeMap.

(** ** The regions the kernel must not use *)

(** [regions[curr_idx].write(r); curr_idx += 1] on an array of 512 slots. *)
Definition push_region (s : list MemoryRegion * nat) (r : MemoryRegion)
  : outcome (list MemoryRegion * nat) :=
  if (s.2 <? length s.1)%nat then Done (<[s.2 := r]> s.1, S s.2) else Panic.

Section Regions.
Context {X : X86Addr} {U : UefiMemoryType}.

Definition push_descriptor (s : list MemoryRegion * nat) (rg : MemoryDescriptor)
  : outcome (list MemoryRegion * nat) :=
  if negb (usable_after_bootloader_exit rg) then
    start ← d_start rg;
    length ← u64_mul (md_page_count rg) 4096;
    push_region s (mkMemoryRegion start length Bootloader)
  else Done s.

(** A slice of bytes: its address and length; taking the address of its
    first element panics when it is empty. *)
Definition first_byte_addr (bytes : Z * Z) : outcome Z :=
  _ ← rassert (0 <? bytes.2); Done bytes.1.

(** [junk] is what the uninitialised array holds. *)
Definition construct_unsafe_phys_mem_region_map (junk : list MemoryRegion)
    (memory_map : list MemoryDescriptor) (frame_allocator : LinearIncFrameAllocator MemoryDescriptor)
    (framebuffer : option Framebuffer) (kernel_bytes bootstrap_bytes : Z * Z)
    (lapic_base : Z) (io_apics : list MadtIoApic) (gdt kernel_page_table : Z)
  : outcome (list MemoryRegion * nat) :=
  s ← foldM push_descriptor (junk, O) memory_map;
  ar ← allocated_region frame_allocator;
  s ← push_region s ar;
  s ← match framebuffer with
      | Some fb => push_region s (mkMemoryRegion (fb_ptr fb) (fb_len fb) Bootloader)
      | None => Done s
      end;
  kernel_start ← first_byte_addr kernel_bytes;
  s ← push_region s (mkMemoryRegion kernel_start kernel_bytes.2 Bootloader);
  bootstrap_start ← first_byte_addr bootstrap_bytes;
  s ← push_region s (mkMemoryRegion bootstrap_start kernel_bytes.2 Bootloader);
  s ← push_region s (mkMemoryRegion lapic_base 4096 Bootloader);
  s ← foldM (fun s io => push_region s (mkMemoryRegion (ioapic_address io) 4096 Bootloader)) s io_apics;
  s ← push_region s (mkMemoryRegion gdt 4096 Bootloader);
  push_region s (mkMemoryRegion kernel_page_table 4096 Bootloader).
End Regions.

(** ** The kernel argument *)

(** [slice::sort_unstable_by_key(|r| r.start)]: some sorted permutation. *)
Class RegionSort : Type := sort_unstable_by_start : list MemoryRegion -> list MemoryRegion.

Class RegionSortSpec (S : RegionSort) : Prop := {
  sort_perm l : sort_unstable_by_start l ≡ₚ l;
  sort_sorted l : StronglySorted (fun r r' => mr_start r <= mr_start r') (sort_unstable_by_start l)
}.

Section KernelArgMap.
Context {X : X86Addr} {V : X86Virt} {F : PtFlags} {PT : Type} {M : Mapper PT}.
Context {U : UefiMemoryType} {S : RegionSort}.

Definition set_regions (rs : list MemoryRegion) (n : nat) (k : KernelArg) : KernelArg :=
  mkKernelArg (kernel_virt_space_offset k) (gdt_start_addr k) (kernel_pml4_start_addr k) (ka_acpi k)
    (stack_top_addr k) (stack_size k) (framebuffer_addr k) (framebuffer_len k) (framebuffer_width k)
    (framebuffer_height k) (framebuffer_stride k) (phys_mem_mapped_addr k) (phys_mem_size k)
    rs n (bootstrap_base k) (bootstrap_len k) (ka_tls_template k).

(** [kernel_arg_phys_addr] is the address of the argument, [KERNEL_ARG_LEN]
    the size the compiler gives it. *)
Definition map_kernel_arg (kernel_arg_phys_addr KERNEL_ARG_LEN : Z) (kernel_arg : KernelArg)
    (m : TrackedMapper PT) (a : LinearIncFrameAllocator MemoryDescriptor)
  : outcome (Z * KernelArg * TrackedMapper PT * LinearIncFrameAllocator MemoryDescriptor) :=
  slot ← claim_slot KERNEL_ARG_LEN KERNEL_ARG_P4 m;
  start_1gb ← slot_start_address slot.1;
  let start_page := page_containing_address start_1gb in
  addr ← phys_addr_new kernel_arg_phys_addr;
  let frame_start := frame_containing_address addr in
  end_ ← u64_add kernel_arg_phys_addr KERNEL_ARG_LEN;
  last ← u64_sub end_ 1;
  last_addr ← phys_addr_new last;
  let frame_end := frame_containing_address last_addr in
  s ← foldM (map_block_frame allocate_frame start_page frame_start PT_PRESENT) (slot.2, a)
        (frame_range_inclusive frame_start frame_end);
  rs ← push_region (unav_phys_mem_regions kernel_arg, unav_phys_mem_regions_len kernel_arg)
         (mkMemoryRegion kernel_arg_phys_addr KERNEL_ARG_LEN Bootloader);
  ar ← allocated_region s.2;
  rs ← push_region rs ar;
  let sorted := sort_unstable_by_start (take rs.2 rs.1) ++ drop rs.2 rs.1 in
  r ← virt_addr_add start_page (kernel_arg_phys_addr - align_down kernel_arg_phys_addr 4096);
  Done (r, set_regions sorted rs.2 kernel_arg, s.1, s.2).
End KernelArgMap.

(** ** Mapping runs of pages *)

(** The pages of a run are valid addresses and free in the table [pt]. *)
Definition run_free {PT} {M : Mapper PT} {MS : MapperSpec PT M} (pt : PT) (sp : Z) (n : nat) : Prop :=
  forall j, (j < n)%nat -> canonical (sp + PAGE_SIZE * Z.of_nat j) /\
    pt_view pt !! (sp + PAGE_SIZE * Z.of_nat j) = None /\
    pt_huge pt !! gib_base (sp + PAGE_SIZE * Z.of_nat j) = None.

(** Only the wrapped table differs. *)
Definition same_tracking {PT} (m m' : TrackedMapper PT) : Prop :=
  exists pt, m' = set_inner pt m.

Lemma same_tracking_trans {PT} (m m1 m2 : TrackedMapper PT) :
  same_tracking m m1 -> same_tracking m1 m2 -> same_tracking m m2.
Proof. intros [p1 ->] [p2 ->]. by exists p2. Qed.

Section MapSpec.
Context {X : X86Addr} {XS : X86AddrSpec X} {V : X86Virt} {VS : X86VirtSpec V} {F : PtFlags}.
Context {PT : Type} {M : Mapper PT} {MS : MapperSpec PT M}.
Context {A : Type} {alloc : frame_source A} {AS : FrameSourceSpec alloc}.
Implicit Types m : TrackedMapper PT.

Lemma take_frame_ok a f l :
  fs_inv a -> fs_frames a = f :: l ->
  exists a', take_frame alloc a = Done (f, a') /\ fs_frames a' = l /\ fs_inv a' /\ (PAGE_SIZE | f).
Proof.
  intros Hinv Hf. destruct (fs_alloc a Hinv) as (a' & Ha & Ht & Hinv'); [by rewrite Hf|]. rewrite Hf in *.
  pose proof (fs_aligned a Hinv) as Hal. rewrite Hf in Hal. inversion_clear Hal.
  exists a'. unfold take_frame. by rewrite Ha.
Qed.

Lemma must_map_to_ok m page frame flags a :
  fs_inv a -> (3 <= length (fs_frames a))%nat -> (PAGE_SIZE | page) -> (PAGE_SIZE | frame) ->
  pt_view (inner m) !! page = None -> pt_huge (inner m) !! gib_base page = None ->
  exists k pt a', must_map_to alloc m page frame flags a = Done (set_inner pt m, a') /\ (k <= 3)%nat /\
    pt_view pt = <[page := (frame, flags)]> (pt_view (inner m)) /\
    pt_huge pt = pt_huge (inner m) /\
    fs_frames a' = drop k (fs_frames a) /\ fs_inv a'.
Proof.
  intros Hinv Hl Hp Hf Hv Hh.
  destruct (mapping_outcome_supply 3 a _ _ Hinv Hl (map_to_free A alloc (inner m) page frame flags a Hp Hf Hv Hh))
    as (k & pt & a' & Hk & Heq & [Hview Hhuge] & Hfr & Hinv').
  exists k, pt, a'. unfold must_map_to. rewrite Heq. split_and!; done.
Qed.

Lemma run_free_step pt pt1 sp n x :
  run_free pt sp (S n) -> pt_view pt1 = <[sp := x]> (pt_view pt) -> pt_huge pt1 = pt_huge pt ->
  run_free pt1 (sp + PAGE_SIZE) n.
Proof.
  intros Hf Hv Hh j Hj. destruct (Hf (S j) ltac:(lia)) as (Hc & Hn & Hg).
  replace (sp + PAGE_SIZE + PAGE_SIZE * Z.of_nat j) with (sp + PAGE_SIZE * Z.of_nat (S j)) by page_lia.
  rewrite Hv, Hh. split_and!; try done. rewrite lookup_insert_ne by page_lia. done.
Qed.

Lemma run_free_0 pt sp n :
  run_free pt sp (S n) -> canonical sp /\ pt_view pt !! sp = None /\ pt_huge pt !! gib_base sp = None.
Proof. intros Hf. specialize (Hf 0%nat ltac:(lia)). by rewrite Z.mul_0_r, Z.add_0_r in Hf. Qed.

(** The result of a loop that maps [n] pages from [sp] on. *)
Definition mapped_run (m : TrackedMapper PT) (a : A) (sp : Z) (n bound : nat) (g : nat -> Z * Z)
    (m' : TrackedMapper PT) (a' : A) : Prop :=
  same_tracking m m' /\ pages_mapped (pt_view (inner m)) (pt_view (inner m')) sp n g /\
  pt_huge (inner m') = pt_huge (inner m) /\ fs_inv a' /\
  exists k, (k <= bound)%nat /\ fs_frames a' = drop k (fs_frames a).

Lemma mapped_run_nil m a sp g : fs_inv a -> mapped_run m a sp 0 0 g m a.
Proof.
  intros. split_and!; try done; [by exists (inner m); destruct m| |by exists 0%nat; rewrite drop_0].
  split; [intros; lia|done].
Qed.

Lemma mapped_run_S m a m1 a1 m' a' sp n b1 b2 g pt1 k1 :
  m1 = set_inner pt1 m -> pt_view pt1 = <[sp := g 0%nat]> (pt_view (inner m)) ->
  pt_huge pt1 = pt_huge (inner m) -> (k1 <= b1)%nat -> fs_frames a1 = drop k1 (fs_frames a) ->
  mapped_run m1 a1 (sp + PAGE_SIZE) n b2 (fun j => g (S j)) m' a' ->
  mapped_run m a sp (S n) (b1 + b2) g m' a'.
Proof.
  intros -> Hv Hh Hk Hf (Ht & Hp & Hh' & Hi & k & Hk' & Hf').
  refine (conj _ (conj _ (conj _ (conj Hi _)))).
  - eapply same_tracking_trans; [by exists pt1|done].
  - by eapply pages_mapped_S.
  - simpl in Hh'. congruence.
  - exists (k1 + k)%nat. split; [lia|]. by rewrite Hf', Hf, drop_drop.
Qed.

Lemma map_block_frame_eq sp sf flags m a (i : nat) :
  0 <= sf -> canonical sp -> canonical (sp + PAGE_SIZE * Z.of_nat i) ->
  map_block_frame alloc sp sf flags (m, a) (sf + PAGE_SIZE * Z.of_nat i) =
  must_map_to alloc m (sp + PAGE_SIZE * Z.of_nat i) (sf + PAGE_SIZE * Z.of_nat i) flags a.
Proof.
  intros Hsf Hsp Hc. unfold map_block_frame. cbn [fst snd].
  rewrite frame_diff_ok, Done_bind by page_lia.
  replace (sf + PAGE_SIZE * Z.of_nat i - sf) with (Z.of_nat i * PAGE_SIZE) by lia.
  rewrite Z.div_mul, page_add_ok by (done || lia || by rewrite Z.mul_comm).
  by rewrite Done_bind, (Z.mul_comm (Z.of_nat i)).
Qed.

(** Mapping the frames from [sf] on to the pages from [sp] on. *)
Lemma map_block_ok sp sf flags n :
  (PAGE_SIZE | sp) -> (PAGE_SIZE | sf) -> 0 <= sf -> canonical sp ->
  forall (i : nat) m a, fs_inv a -> (3 * n <= length (fs_frames a))%nat ->
  run_free (inner m) (sp + PAGE_SIZE * Z.of_nat i) n ->
  exists m' a',
    foldM (map_block_frame alloc sp sf flags) (m, a) (frame_list (sf + PAGE_SIZE * Z.of_nat i) n)
      = Done (m', a') /\
    mapped_run m a (sp + PAGE_SIZE * Z.of_nat i) n (3 * n)
      (fun j => (sf + PAGE_SIZE * Z.of_nat (i + j), flags)) m' a'.
Proof.
  intros Hsp Hsf Hsf0 Hc. induction n as [|n IH]; intros i m a Hinv Hl Hfree; cbn [stride foldM].
  { exists m, a. split; [done|]. by apply mapped_run_nil. }
  destruct (run_free_0 _ _ _ Hfree) as (Hcan & Hv & Hh).
  assert (Hal : forall b, (PAGE_SIZE | b) -> (PAGE_SIZE | b + PAGE_SIZE * Z.of_nat i))
    by (intros; auto with pages).
  destruct (must_map_to_ok m (sp + PAGE_SIZE * Z.of_nat i) (sf + PAGE_SIZE * Z.of_nat i) flags a)
    as (k & pt & a1 & Hm & Hk & Hv1 & Hh1 & Hf1 & Hi1); auto; [lia|].
  rewrite map_block_frame_eq, Hm, Done_bind by done.
  destruct (IH (S i) (set_inner pt m) a1 Hi1) as (m' & a' & Hrest & Hrun).
  { rewrite Hf1, length_drop. lia. }
  { replace (sp + PAGE_SIZE * Z.of_nat (S i)) with (sp + PAGE_SIZE * Z.of_nat i + PAGE_SIZE) by lia.
    by eapply run_free_step. }
  exists m', a'. split.
  { rewrite <- Hrest. f_equal. f_equal. lia. }
  replace (3 * S n)%nat with (3 + 3 * n)%nat by lia.
  eapply (mapped_run_S m a (set_inner pt m) a1 m' a' _ n 3 (3 * n) _ pt k);
    [done| |done|done|done|].
  - by rewrite Hv1, Nat.add_0_r.
  - replace (sp + PAGE_SIZE * Z.of_nat i + PAGE_SIZE) with (sp + PAGE_SIZE * Z.of_nat (S i)) by lia.
    destruct Hrun as (Ht & [Hin Hout] & Hr). refine (conj Ht (conj (conj _ Hout) Hr)).
    intros j Hj. rewrite Hin by done. by rewrite Nat.add_succ_comm.
Qed.

Lemma map_enumerated_eq sp sf flags n :
  0 <= sf -> forall (i : nat) m a,
  foldM (map_enumerated_frame alloc sp flags) (m, a)
    (imap (fun k f => ((i + k)%nat, f)) (frame_list (sf + PAGE_SIZE * Z.of_nat i) n)) =
  foldM (map_block_frame alloc sp sf flags) (m, a) (frame_list (sf + PAGE_SIZE * Z.of_nat i) n).
Proof.
  intros Hsf. induction n as [|n IH]; intros i m a; [done|].
  cbn [stride]. rewrite imap_cons. cbn [foldM].
  assert (Hstep : map_enumerated_frame alloc sp flags (m, a)
      ((i + 0)%nat, sf + PAGE_SIZE * Z.of_nat i) =
    map_block_frame alloc sp sf flags (m, a) (sf + PAGE_SIZE * Z.of_nat i)).
  { unfold map_enumerated_frame, map_block_frame. cbn [fst snd].
    rewrite frame_diff_ok, Done_bind, Nat.add_0_r by page_lia.
    replace (sf + PAGE_SIZE * Z.of_nat i - sf) with (Z.of_nat i * PAGE_SIZE) by lia.
    by rewrite Z.div_mul. }
  rewrite Hstep. destruct (map_block_frame _ _ _ _ _ _) as [[m1 a1]| |]; [|done..].
  rewrite !Done_bind.
  replace (sf + PAGE_SIZE * Z.of_nat i + PAGE_SIZE) with (sf + PAGE_SIZE * Z.of_nat (S i)) by lia.
  rewrite <- IH. f_equal. apply imap_ext. intros k f _. simpl. by rewrite Nat.add_succ_r.
Qed.

(** Mapping fresh frames to the pages from [sp] on. *)
Lemma map_stack_ok n :
  forall sp m a, (PAGE_SIZE | sp) -> fs_inv a -> (4 * n <= length (fs_frames a))%nat ->
  run_free (inner m) sp n ->
  exists fr m' a',
    foldM (map_stack_page alloc) (m, a) (frame_list sp n) = Done (m', a') /\
    length fr = n /\ fr `sublist_of` fs_frames a /\
    mapped_run m a sp n (4 * n)
      (fun j => (fr !!! j, flags_or PT_PRESENT PT_WRITABLE)) m' a'.
Proof.
  induction n as [|n IH]; intros sp m a Hsp Hinv Hl Hfree; cbn [stride foldM].
  { exists [], m, a. split_and!; try done; [apply sublist_nil_l|by apply mapped_run_nil]. }
  destruct (run_free_0 _ _ _ Hfree) as (Hcan & Hv & Hh).
  destruct (fs_frames a) as [|f l] eqn:Hfr; [simpl in Hl; lia|]. simpl in Hl.
  destruct (take_frame_ok a f l Hinv Hfr) as (a1 & Htake & Hf1 & Hi1 & Hal).
  destruct (must_map_to_ok m sp f (flags_or PT_PRESENT PT_WRITABLE) a1)
    as (k & pt & a2 & Hm & Hk & Hv2 & Hh2 & Hf2 & Hi2); auto; [rewrite Hf1; lia|].
  assert (Hstep : map_stack_page alloc (m, a) sp = Done (set_inner pt m, a2)).
  { unfold map_stack_page. cbn [fst snd]. by rewrite Htake. }
  rewrite Hstep, Done_bind.
  destruct (IH (sp + PAGE_SIZE) (set_inner pt m) a2) as (fr & m' & a' & Hrest & Hlen & Hsub & Hrun).
  { auto with pages. }
  { done. }
  { rewrite Hf2, Hf1, length_drop. lia. }
  { by eapply run_free_step. }
  exists (f :: fr), m', a'. split_and!; [done|simpl; lia| |].
  - apply sublist_skip. rewrite Hf2, Hf1 in Hsub. etrans; [done|]. apply sublist_drop.
  - replace (4 * S n)%nat with (4 + 4 * n)%nat by lia.
    eapply (mapped_run_S m a (set_inner pt m) a2 m' a' _ n 4 (4 * n) _ pt (S k));
      [done|done|done|lia|by rewrite Hf2, Hf1, Hfr|done].
Qed.
End MapSpec.

(** ** Level-4 slots *)

(** The first address a level-4 entry of the upper half serves. *)
Definition slot_base (i : nat) : Z := 2 ^ 64 - (512 - Z.of_nat i) * 2 ^ 39.

(** No page of the slot is mapped. *)
Definition slot_free {PT} {M : Mapper PT} {MS : MapperSpec PT M} (pt : PT) (i : nat) : Prop :=
  forall p, slot_base i <= p < slot_base i + 2 ^ 39 ->
    pt_view pt !! p = None /\ pt_huge pt !! gib_base p = None.

Lemma slot_base_canonical i x :
  (256 <= i < 512)%nat -> slot_base i <= x < slot_base i + 2 ^ 39 -> canonical x.
Proof. unfold slot_base, canonical. lia. Qed.

Lemma slot_aligned i : (PAGE_SIZE | slot_base i).
Proof. exists ((2 ^ 25 - (512 - Z.of_nat i)) * 2 ^ 27). unfold slot_base, PAGE_SIZE. lia. Qed.

Lemma slot_disjoint i j x :
  slot_base i <= x < slot_base i + 2 ^ 39 -> slot_base j <= x < slot_base j + 2 ^ 39 -> i = j.
Proof. unfold slot_base. lia. Qed.

Section SlotSpec.
Context {X : X86Addr} {XS : X86AddrSpec X} {V : X86Virt} {VS : X86VirtSpec V} {F : PtFlags}.
Context {PT : Type} {M : Mapper PT} {MS : MapperSpec PT M}.
Context {A : Type} {alloc : frame_source A} {AS : FrameSourceSpec alloc}.
Implicit Types m : TrackedMapper PT.

Lemma slot_start_address_ok i :
  (256 <= i < 512)%nat -> slot_start_address (Z.of_nat i) = Done (slot_base i).
Proof.
  intros Hi. unfold slot_start_address. rewrite page_table_index_new_ok, Done_bind by lia.
  rewrite page_from_indices_1gib_spec by lia.
  rewrite (proj2 (Z.leb_le _ _)) by lia. f_equal. unfold slot_base. lia.
Qed.

Lemma claim_slot_ok m i size :
  topped m i -> (0 < i)%nat -> level m = Four -> 0 < size <= 2 ^ 39 ->
  exists m', claim_slot size i m = Done (Z.of_nat i, m') /\ topped m' (i - 1) /\
    inner m' = inner m /\ level m' = Four.
Proof.
  intros Ht H0 Hl Hsize.
  destruct (find_topped m i size Ht H0) as (m' & Hf & Ht' & Hin & Hlv).
  { unfold total_available_mem_size. rewrite Hl. lia. }
  destruct Ht as (_ & Hi & _).
  exists m'. unfold claim_slot. rewrite Hf, Done_bind. cbn [fst snd or_panic].
  rewrite Done_bind, page_table_index_new_ok, Done_bind, Z.eqb_refl by lia.
  split_and!; [done..|congruence].
Qed.

Lemma claim_slot_wrong m i expected size :
  topped m i -> (0 < i)%nat -> level m = Four -> 0 < size <= 2 ^ 39 ->
  expected <> i -> (expected < 512)%nat -> claim_slot size expected m = Panic.
Proof.
  intros Ht H0 Hl Hsize Hne He.
  destruct (find_topped m i size Ht H0) as (m' & Hf & _).
  { unfold total_available_mem_size. rewrite Hl. lia. }
  unfold claim_slot. rewrite Hf, Done_bind. cbn [fst snd or_panic].
  rewrite Done_bind, page_table_index_new_ok, Done_bind by lia.
  cbn [fst]. by rewrite (proj2 (Z.eqb_neq _ _)) by lia.
Qed.

Lemma slot_run_free pt i n :
  (256 <= i < 512)%nat -> slot_free pt i -> PAGE_SIZE * Z.of_nat n <= 2 ^ 39 ->
  run_free pt (slot_base i) n.
Proof.
  intros Hi Hf Hn j Hj.
  assert (slot_base i <= slot_base i + PAGE_SIZE * Z.of_nat j < slot_base i + 2 ^ 39) by page_lia.
  split; [by eapply slot_base_canonical|by apply Hf].
Qed.

(** The addresses of an entry, and tables that agree away from it. *)
Definition in_entry (i : nat) (x : Z) : Prop := slot_base i <= x < slot_base i + 2 ^ 39.

Definition same_outside (i : nat) (pt pt' : PT) : Prop :=
  pt_huge pt' = pt_huge pt /\ forall p, ~ in_entry i p -> pt_view pt' !! p = pt_view pt !! p.

Lemma same_outside_free i j pt pt' : same_outside i pt pt' -> j <> i -> slot_free pt j -> slot_free pt' j.
Proof.
  intros [Hh Hv] Hji Hf p Hp. rewrite Hh, Hv; [by apply Hf|].
  intros Hpi. apply Hji. by eapply slot_disjoint.
Qed.

(** A table that agrees on a page translates its addresses alike. *)
Lemma same_outside_translate i pt pt' x : same_outside i pt pt' -> ~ in_entry i (x - x mod PAGE_SIZE) ->
  translate pt' x = translate pt x.
Proof.
  intros [Hh Hv] Hx. specialize (Hv _ Hx). set (p := x - x mod PAGE_SIZE) in *.
  pose proof (Z.mod_pos_bound x PAGE_SIZE eq_refl) as Ho.
  assert (Hp : (PAGE_SIZE | p)).
  { exists (x / PAGE_SIZE). pose proof (Z.div_mod x PAGE_SIZE ltac:(done)). unfold p. lia. }
  destruct (pt_huge pt !! gib_base p) as [[f fl]|] eqn:E.
  - pose proof (Z.mod_pos_bound p (2 ^ 30) eq_refl) as Hm. destruct Hp as [q Hq].
    assert (Hg : (2 ^ 30 | gib_base p)).
    { exists (p / 2 ^ 30). unfold gib_base. pose proof (Z.div_mod p (2 ^ 30) ltac:(done)). lia. }
    assert (Hlt : x - gib_base p < 2 ^ 30).
    { unfold gib_base.
      assert (p mod 2 ^ 30 <= 2 ^ 30 - PAGE_SIZE); [|unfold p in *; page_lia].
      unfold p in *. rewrite Hq in *. unfold PAGE_SIZE in *. Z.to_euclidean_division_equations. lia. }
    replace x with (gib_base p + (x - gib_base p)) by lia.
    rewrite !(translate_huge _ (gib_base p) f fl) by (done || (unfold gib_base in *; lia) || by rewrite Hh). done.
  - replace x with (p + x mod PAGE_SIZE) by (unfold p; lia). destruct (pt_view pt !! p) as [[f fl]|] eqn:Ev.
    + rewrite !(translate_mapped _ p f fl) by (done || by rewrite Hh). done.
    + rewrite !(translate_unmapped _ p) by (done || by rewrite Hh). done.
Qed.

Lemma run_outside pt pt' i n g :
  pages_mapped (pt_view pt) (pt_view pt') (slot_base i) n g -> pt_huge pt' = pt_huge pt ->
  PAGE_SIZE * Z.of_nat n <= 2 ^ 39 -> same_outside i pt pt'.
Proof.
  intros [_ Hout] Hh Hn. split; [done|]. intros p Hp. apply Hout. intros k Hk ->. apply Hp. unfold in_entry. page_lia.
Qed.

(** The pages of a mapped run translate as the run says. *)
Lemma run_translate pt pt' i n g x :
  pages_mapped (pt_view pt) (pt_view pt') (slot_base i) n g -> pt_huge pt' = pt_huge pt ->
  slot_free pt i -> PAGE_SIZE * Z.of_nat n <= 2 ^ 39 -> 0 <= x < PAGE_SIZE * Z.of_nat n ->
  translate pt' (slot_base i + x) =
    Mapped (Frame4KiB (g (Z.to_nat (x / PAGE_SIZE))).1) (x mod PAGE_SIZE) (g (Z.to_nat (x / PAGE_SIZE))).2.
Proof.
  intros [Hin _] Hh Hf Hn Hx.
  pose proof (Z.div_mod x PAGE_SIZE ltac:(done)) as Hd.
  pose proof (Z.mod_pos_bound x PAGE_SIZE eq_refl) as Hm.
  assert (Hq : 0 <= x / PAGE_SIZE < Z.of_nat n) by page_lia.
  replace (slot_base i + x) with
    (slot_base i + PAGE_SIZE * Z.of_nat (Z.to_nat (x / PAGE_SIZE)) + x mod PAGE_SIZE)
    by (rewrite Z2Nat.id; lia).
  apply translate_mapped.
  - apply Z.divide_add_r; [apply slot_aligned|apply Z.divide_factor_l].
  - done.
  - rewrite Hin by lia. by destruct (g _).
  - rewrite Hh. apply Hf. page_lia.
Qed.

(** A block of physical memory that starts at [ptr] appears in slot [i]:
    every byte [x] of it, up to [last], at its place after the frame of [ptr]. *)
Definition block_in_slot (pt : PT) (i : nat) (ptr last flags : Z) : Prop :=
  forall x, ptr <= x <= last ->
    exists f o, translate pt (slot_base i + (x - frame_containing_address ptr)) =
      Mapped (Frame4KiB f) o flags /\ f + o = x.

(** What mapping something into slot [i] leaves behind; [c] bounds the memory
    taken for it. *)
Definition slot_mapped (c : Z) m (a : A) (i : nat) m' (a' : A) : Prop :=
  topped m' (i - 1) /\ level m' = Four /\ fs_inv a' /\
  (exists k, PAGE_SIZE * Z.of_nat k <= c /\ fs_frames a' = drop k (fs_frames a)) /\
  same_outside i (inner m) (inner m').

Lemma slot_mapped_claimed c c' m m1 a i m' a' : slot_mapped c m1 a i m' a' -> inner m1 = inner m -> c <= c' ->
  slot_mapped c' m a i m' a'.
Proof.
  intros (S1 & S2 & S3 & (k & Hk & Hf) & S5) Hin Hc. rewrite Hin in S5. split_and!; try done. exists k. split; [lia|done].
Qed.

Lemma same_tracking_topped m m' i : same_tracking m m' -> topped m i -> topped m' i.
Proof. intros [pt ->]. done. Qed.

(** The number of frames between two addresses. *)
Lemma frame_count ptr last :
  0 <= ptr <= last ->
  let sf := frame_containing_address ptr in
  let n := Z.to_nat ((frame_containing_address last - sf) / PAGE_SIZE + 1) in
  (0 < n)%nat /\ PAGE_SIZE * Z.of_nat n = frame_containing_address last + PAGE_SIZE - sf /\
  last - sf < PAGE_SIZE * Z.of_nat n <= last - sf + PAGE_SIZE.
Proof.
  intros H sf n.
  pose proof (frame_containing_bounds ptr ltac:(lia)) as Hb1. fold sf in Hb1.
  pose proof (frame_containing_bounds last ltac:(lia)) as Hb2.
  destruct (frame_containing_aligned ptr ltac:(lia)) as [p Hp]. fold sf in Hp.
  destruct (frame_containing_aligned last ltac:(lia)) as [q Hq].
  unfold n. rewrite Hp, Hq, <- Z.mul_sub_distr_r, Z.div_mul in * by done.
  page_lia.
Qed.

Lemma map_block_slot m a i ptr last flags :
  (256 <= i < 512)%nat -> topped m (i - 1) -> level m = Four -> slot_free (inner m) i ->
  fs_inv a -> 0 <= ptr <= last -> last - frame_containing_address ptr < 2 ^ 39 ->
  (3 * (last - frame_containing_address ptr + PAGE_SIZE) <= PAGE_SIZE * Z.of_nat (length (fs_frames a))) ->
  exists m' a',
    foldM (map_block_frame alloc (slot_base i) (frame_containing_address ptr) flags) (m, a)
      (frame_range_inclusive (frame_containing_address ptr) (frame_containing_address last)) =
      Done (m', a') /\
    slot_mapped (3 * (last - frame_containing_address ptr + PAGE_SIZE)) m a i m' a' /\ block_in_slot (inner m') i ptr last flags.
Proof.
  intros Hi Ht Hl Hf Hinv Hp Hs Hsup.
  destruct (frame_count ptr last Hp) as (Hn0 & Hn1 & Hn2). set (sf := frame_containing_address ptr) in *.
  set (n := Z.to_nat _) in *.
  assert (Hsf : 0 <= sf).
  { pose proof (frame_containing_bounds ptr ltac:(lia)) as Hb. fold sf in Hb.
    destruct (frame_containing_aligned ptr ltac:(lia)) as [q Hq]. fold sf in Hq. page_lia. }
  assert (Hn3 : PAGE_SIZE * Z.of_nat n <= 2 ^ 39) by page_lia.
  rewrite frame_range_inclusive_spec; [|done|by apply frame_containing_aligned; lia..].
  fold n. destruct (map_block_ok (slot_base i) sf flags n) with (i := 0%nat) (m := m) (a := a)
    as (m' & a' & Hfold & Hrun); try done.
  { apply slot_aligned. }
  { by apply frame_containing_aligned; lia. }
  { apply (slot_base_canonical i); [done|lia]. }
  { page_lia. }
  { rewrite Z.mul_0_r, Z.add_0_r. by apply slot_run_free. }
  rewrite Z.mul_0_r, Z.add_0_r in *.
  exists m', a'. split; [done|]. destruct Hrun as (Htr & Hpm & Hh & Hinv' & k & Hk & Hfr).
  split.
  - pose proof Htr as [pt ->]. split_and!; [by eapply same_tracking_topped|done|done|exists k; split; [page_lia|done]|].
    by eapply run_outside.
  - intros x Hx. fold sf.
    pose proof (frame_containing_bounds ptr ltac:(lia)) as Hb. fold sf in Hb.
    rewrite (run_translate (inner m) (inner m') i n _ (x - sf) Hpm Hh) by (done || lia).
    eexists _, _. split; [done|].
    pose proof (Z.div_mod (x - sf) PAGE_SIZE ltac:(done)).
    pose proof (Z.div_pos (x - sf) PAGE_SIZE ltac:(lia) eq_refl).
    cbn [fst Nat.add]. rewrite Z2Nat.id; lia.
Qed.

Lemma page_containing_slot i : (256 <= i < 512)%nat -> page_containing_address (slot_base i) = slot_base i.
Proof.
  intros Hi. rewrite page_containing_spec by (unfold slot_base; lia).
  pose proof (slot_aligned i) as Ha. apply Z.mod_divide in Ha; [lia|done].
Qed.

Lemma slot_virt_addr_add i n :
  (256 <= i < 512)%nat -> 0 <= n < 2 ^ 39 -> virt_addr_add (slot_base i) n = Done (slot_base i + n).
Proof.
  intros Hi Hn. apply virt_addr_add_ok; [|lia|]; apply (slot_base_canonical i); done || lia.
Qed.

Lemma frame_containing_nonneg a : 0 <= a -> 0 <= frame_containing_address a.
Proof.
  intros Ha. pose proof (frame_containing_bounds a Ha). destruct (frame_containing_aligned a Ha). page_lia.
Qed.

(** [x - align_down(x, 4096)] is the offset in the frame. *)
Lemma align_down_frame a : 0 <= a -> align_down a 4096 = frame_containing_address a.
Proof.
  intros Ha. rewrite (align_down_spec a 12) by lia.
  pose proof (frame_containing_bounds a Ha). destruct (frame_containing_aligned a Ha) as [q Hq].
  pose proof (Z.div_mod a (2 ^ 12) ltac:(done)). pose proof (Z.mod_pos_bound a (2 ^ 12) eq_refl).
  change (2 ^ 12) with PAGE_SIZE in *. page_lia.
Qed.

(** Every byte of the block is visible from the address [r] on. *)
Definition visible_at (pt : PT) (r ptr len flags : Z) : Prop :=
  forall x, 0 <= x < len ->
    exists f o, translate pt (r + x) = Mapped (Frame4KiB f) o flags /\ f + o = ptr + x.

Lemma block_visible pt i ptr last flags len :
  block_in_slot pt i ptr last flags -> ptr + len <= last + 1 ->
  visible_at pt (slot_base i + (ptr - frame_containing_address ptr)) ptr len flags.
Proof.
  intros Hb Hl x Hx. destruct (Hb (ptr + x) ltac:(lia)) as (f & o & Ht & Hfo).
  exists f, o. split; [|done]. rewrite <- Ht. f_equal. lia.
Qed.

(** [len] bytes from [r] on are in entry [i]. *)
Definition span_in_entry (i : nat) (r len : Z) : Prop := slot_base i <= r /\ r + len <= slot_base i + 2 ^ 39.

Lemma in_entry_page i x : in_entry i x -> in_entry i (x - x mod PAGE_SIZE).
Proof.
  unfold in_entry. intros Hx. destruct (slot_aligned i) as [q Hq]. rewrite Hq in *. unfold PAGE_SIZE in *.
  Z.to_euclidean_division_equations. lia.
Qed.

Lemma other_entry_translate i j pt pt' x : same_outside j pt pt' -> j <> i -> in_entry i x ->
  translate pt' x = translate pt x.
Proof.
  intros Hs Hji Hx. apply (same_outside_translate j); [done|]. apply in_entry_page in Hx.
  intros Hj. apply Hji. by eapply slot_disjoint.
Qed.

Lemma visible_other_entry i j pt pt' r ptr len flags : same_outside j pt pt' -> j <> i -> span_in_entry i r len ->
  visible_at pt r ptr len flags -> visible_at pt' r ptr len flags.
Proof.
  intros Hs Hji [Hr1 Hr2] Hv x Hx. destruct (Hv x Hx) as (f & o & Ht & Hfo). exists f, o.
  by rewrite (other_entry_translate i j pt pt') by (done || unfold in_entry; lia).
Qed.

(** [map_framebuffer] claims entry 508 and returns an address from which
    every byte of the framebuffer is visible, readable and writable, at its
    physical address; the other entries stay free. *)
Theorem map_framebuffer_spec m a ptr len :
  topped m FRAMEBUFFER_P4 -> level m = Four -> slot_free (inner m) FRAMEBUFFER_P4 ->
  fs_inv a -> 0 <= ptr -> ptr + len < 2 ^ 52 -> 0 < len <= 2 ^ 39 - PAGE_SIZE ->
  3 * (len + 2 * PAGE_SIZE) <= PAGE_SIZE * Z.of_nat (length (fs_frames a)) ->
  exists r m' a', map_framebuffer alloc ptr len m a = Done (r, m', a') /\
    slot_mapped (3 * (len + 2 * PAGE_SIZE)) m a FRAMEBUFFER_P4 m' a' /\ span_in_entry FRAMEBUFFER_P4 r len /\
    visible_at (inner m') r ptr len (flags_or PT_PRESENT PT_WRITABLE).
Proof.
  intros Ht Hl Hf Hinv Hp Hpl Hlen Hsup. unfold FRAMEBUFFER_P4 in *.
  destruct (claim_slot_ok m 508 len Ht) as (m1 & Hclaim & Ht1 & Hin1 & Hl1); [lia|done|page_lia|].
  unfold map_framebuffer, FRAMEBUFFER_P4. rewrite Hclaim, Done_bind. cbn [fst snd].
  rewrite slot_start_address_ok, Done_bind, page_containing_slot by lia.
  rewrite (proj2 (Z.ltb_lt 0 len)) by lia. cbn [rassert].
  rewrite Done_bind, phys_addr_new_ok, Done_bind by lia.
  rewrite phys_addr_add_ok, Done_bind, phys_addr_sub_ok, Done_bind by lia.
  pose proof (frame_containing_bounds ptr Hp) as Hb.
  pose proof (frame_containing_nonneg ptr Hp) as Hsf.
  destruct (map_block_slot m1 a 508 ptr (ptr + len - 1) (flags_or PT_PRESENT PT_WRITABLE))
    as (m' & a' & Hfold & Hslot & Hblock); try done; [lia|by rewrite Hin1|lia|page_lia|page_lia|].
  rewrite frame_range_inclusive_spec in * by (done || by apply frame_containing_aligned; lia).
  pose proof (map_enumerated_eq (alloc := alloc) (slot_base 508) _ (flags_or PT_PRESENT PT_WRITABLE)
    (Z.to_nat ((frame_containing_address (ptr + len - 1) - frame_containing_address ptr) / PAGE_SIZE + 1))
    Hsf 0 m1 a) as Heq.
  rewrite Z.mul_0_r, Z.add_0_r in Heq.
  rewrite (imap_ext _ pair) in Heq by done. rewrite Heq, Hfold, Done_bind. cbn [fst snd].
  rewrite align_down_frame, slot_virt_addr_add, Done_bind by page_lia.
  eexists _, _, _. split; [done|]. split.
  - apply (slot_mapped_claimed _ _ m m1 a 508 m' a' Hslot Hin1). page_lia.
  - split; [unfold span_in_entry; page_lia|]. apply (block_visible _ _ _ (ptr + len - 1)); [done|lia].
Qed.

(** [map_bootstrap] likewise, read only, in entry 510. *)
Theorem map_bootstrap_spec m a ptr len :
  topped m BOOTSTRAP_BYTES_P4 -> level m = Four -> slot_free (inner m) BOOTSTRAP_BYTES_P4 ->
  fs_inv a -> 0 <= ptr -> ptr + len < 2 ^ 52 -> 0 < len <= 2 ^ 39 - PAGE_SIZE ->
  3 * (len + 2 * PAGE_SIZE) <= PAGE_SIZE * Z.of_nat (length (fs_frames a)) ->
  exists r m' a', map_bootstrap alloc ptr len m a = Done (r, m', a') /\
    slot_mapped (3 * (len + 2 * PAGE_SIZE)) m a BOOTSTRAP_BYTES_P4 m' a' /\ span_in_entry BOOTSTRAP_BYTES_P4 r len /\
    visible_at (inner m') r ptr len PT_PRESENT.
Proof.
  intros Ht Hl Hf Hinv Hp Hpl Hlen Hsup. unfold BOOTSTRAP_BYTES_P4 in *.
  destruct (claim_slot_ok m 510 len Ht) as (m1 & Hclaim & Ht1 & Hin1 & Hl1); [lia|done|page_lia|].
  unfold map_bootstrap, BOOTSTRAP_BYTES_P4. rewrite Hclaim, Done_bind. cbn [fst snd].
  rewrite slot_start_address_ok, Done_bind, page_containing_slot by lia.
  rewrite (proj2 (Z.ltb_lt 0 len)) by lia. cbn [rassert].
  rewrite Done_bind, phys_addr_new_ok, Done_bind by lia.
  rewrite phys_addr_add_ok, Done_bind by lia.
  pose proof (frame_containing_bounds ptr Hp) as Hb.
  pose proof (frame_containing_nonneg ptr Hp) as Hsf.
  destruct (map_block_slot m1 a 510 ptr (ptr + len) PT_PRESENT)
    as (m' & a' & -> & Hslot & Hblock); try done; [lia|by rewrite Hin1|lia|page_lia|page_lia|].
  rewrite Done_bind. cbn [fst snd]. rewrite slot_virt_addr_add, Done_bind by page_lia.
  eexists _, _, _. split; [done|]. split.
  - apply (slot_mapped_claimed _ _ m m1 a 510 m' a' Hslot Hin1). page_lia.
  - split; [unfold span_in_entry; page_lia|]. apply (block_visible _ _ _ (ptr + len)); [done|lia].
Qed.
End SlotSpec.

Section StackPhys.
Context {X : X86Addr} {XS : X86AddrSpec X} {V : X86Virt} {VS : X86VirtSpec V} {F : PtFlags}.
Context {PT : Type} {M : Mapper PT} {MS : MapperSpec PT M}.
Context {A : Type} {alloc : frame_source A} {AS : FrameSourceSpec alloc}.
Implicit Types m : TrackedMapper PT.

(** The pages of [total] bytes from a slot's start. *)
Lemma slot_page_count i total :
  (256 <= i < 512)%nat -> 0 < total < 2 ^ 39 ->
  let e := page_containing_address (slot_base i + total - 1) in
  let n := Z.to_nat ((e - slot_base i) / PAGE_SIZE + 1) in
  (PAGE_SIZE | e) /\ total <= PAGE_SIZE * Z.of_nat n < total + PAGE_SIZE.
Proof.
  intros Hi Ht e n. pose proof (slot_aligned i) as [k Hk].
  assert (0 <= slot_base i) by (unfold slot_base; lia).
  unfold e in *. rewrite page_containing_spec in * by lia.
  pose proof (Z.div_mod (slot_base i + total - 1) PAGE_SIZE ltac:(done)) as Hd.
  pose proof (Z.mod_pos_bound (slot_base i + total - 1) PAGE_SIZE eq_refl) as Hm.
  set (q := (slot_base i + total - 1) / PAGE_SIZE) in *.
  assert (He : slot_base i + total - 1 - (slot_base i + total - 1) mod PAGE_SIZE = q * PAGE_SIZE) by lia.
  split; [by exists q|]. unfold n. rewrite page_containing_spec, He, Hk by lia.
  rewrite <- Z.mul_sub_distr_r, Z.div_mul by done. page_lia.
Qed.

(** The kernel stack gets entry 509: every page of the requested size
    and of the extra page below it is mapped writable to its own fresh frame,
    and the address returned is one page above the start of the entry. *)
Theorem kernel_stack_spec m a size :
  topped m KERNEL_STACK_P4 -> level m = Four -> slot_free (inner m) KERNEL_STACK_P4 ->
  fs_inv a -> 0 <= size < 2 ^ 39 - 2 * PAGE_SIZE ->
  4 * (size + 2 * PAGE_SIZE) <= PAGE_SIZE * Z.of_nat (length (fs_frames a)) ->
  exists m' a' fr,
    alloc_and_map_kernel_stack alloc size m a = Done (slot_base KERNEL_STACK_P4 + PAGE_SIZE, m', a') /\
    slot_mapped (4 * (size + 2 * PAGE_SIZE)) m a KERNEL_STACK_P4 m' a' /\
    NoDup fr /\ fr `sublist_of` fs_frames a /\
    forall x, 0 <= x < size + PAGE_SIZE ->
      exists f, fr !! Z.to_nat (x / PAGE_SIZE) = Some f /\
        translate (inner m') (slot_base KERNEL_STACK_P4 + x) =
          Mapped (Frame4KiB f) (x mod PAGE_SIZE) (flags_or PT_PRESENT PT_WRITABLE).
Proof.
  intros Ht Hl Hf Hinv Hsize Hsup. unfold KERNEL_STACK_P4 in *.
  destruct (claim_slot_ok m 509 (size + 4096) Ht) as (m1 & Hclaim & Ht1 & Hin1 & Hl1); [lia|done|page_lia|].
  unfold alloc_and_map_kernel_stack, KERNEL_STACK_P4, u64_add.
  rewrite checked_in, Done_bind, Hclaim, Done_bind by page_lia. cbn [fst snd].
  rewrite slot_start_address_ok, Done_bind, page_containing_slot by lia.
  rewrite (slot_virt_addr_add 509 (size + 4096)), Done_bind by page_lia.
  rewrite virt_addr_sub_ok, Done_bind
    by (lia || (apply (slot_base_canonical 509); [lia|unfold slot_base; page_lia])).
  destruct (slot_page_count 509 (size + 4096)) as [Hal Hn]; [lia|page_lia|].
  rewrite page_range_inclusive_spec; [|unfold slot_base; lia|apply slot_aligned|done].
  set (n := Z.to_nat _) in *.
  destruct (map_stack_ok (alloc := alloc) n (slot_base 509) m1 a) as (fr & m' & a' & Hfold & Hlen & Hsub & Hrun).
  { apply slot_aligned. }
  { done. }
  { page_lia. }
  { apply slot_run_free; [lia|by rewrite Hin1|page_lia]. }
  rewrite Hfold, Done_bind. cbn [fst snd]. rewrite slot_virt_addr_add, Done_bind by lia.
  destruct Hrun as (Htr & Hpm & Hh & Hinv' & k & Hk & Hfr).
  exists m', a', fr. split; [done|]. split; [|split; [by apply (fs_NoDup a)|split; [done|]]].
  - pose proof Htr as [pt ->]. split_and!; try done; [exists k; split; [page_lia|done]|].
    rewrite <- Hin1. eapply run_outside; try done. page_lia.
  - intros x Hx.
    assert (Hq : (Z.to_nat (x / PAGE_SIZE) < length fr)%nat).
    { rewrite Hlen. pose proof (Z.div_lt_upper_bound x PAGE_SIZE (Z.of_nat n) eq_refl ltac:(page_lia)).
      pose proof (Z.div_pos x PAGE_SIZE ltac:(lia) eq_refl). lia. }
    exists (fr !!! Z.to_nat (x / PAGE_SIZE)). split; [by apply list_lookup_lookup_total_lt|].
    rewrite (run_translate (inner m1) (inner m') 509 n _ x Hpm Hh) by (by rewrite ?Hin1 || page_lia).
    done.
Qed.

(** The first [n] GiB are mapped to themselves in [h]. *)
Definition gibs_mapped (h : gmap Z (Z * Z)) (n : nat) : Prop :=
  forall j, (j < n)%nat -> h !! (2 ^ 30 * Z.of_nat j) = Some (2 ^ 30 * Z.of_nat j, flags_or PT_PRESENT PT_WRITABLE).

Lemma map_gib_frame_ok m a (i : nat) :
  fs_inv a -> fs_frames a <> [] -> Z.of_nat i < 2 ^ 17 ->
  pt_view (inner m) = ∅ -> pt_huge (inner m) !! (2 ^ 30 * Z.of_nat i) = None ->
  exists k pt a', map_gib_frame alloc 0 (m, a) (2 ^ 30 * Z.of_nat i) = Done (set_inner pt m, a') /\
    (k <= 1)%nat /\ fs_frames a' = drop k (fs_frames a) /\ fs_inv a' /\ pt_view pt = ∅ /\
    pt_huge pt = <[2 ^ 30 * Z.of_nat i := (2 ^ 30 * Z.of_nat i, flags_or PT_PRESENT PT_WRITABLE)]>
      (pt_huge (inner m)).
Proof.
  intros Hinv Hne Hi Hv Hh.
  assert (Hal : (2 ^ 30 | 2 ^ 30 * Z.of_nat i)) by apply Z.divide_factor_l.
  destruct (mapping_outcome_supply 1 a _ _ Hinv ltac:(by destruct (fs_frames a); simpl; [|lia])
    (map_to_1gib_free A alloc (inner m) _ _ (flags_or PT_PRESENT PT_WRITABLE) a Hal Hal Hh
      ltac:(intros p x; by rewrite Hv, lookup_empty)))
    as (k & pt & a' & Hk & Heq & [Hview Hhuge] & Hfr & Hinv').
  exists k, pt, a'. unfold map_gib_frame.
  rewrite virt_addr_add_ok, Done_bind, Z.add_0_l by (unfold canonical; lia).
  rewrite page_containing_1gib_spec by lia.
  rewrite (Z.mul_comm (2 ^ 30)), Z.mod_mul, Z.sub_0_r, (Z.mul_comm _ (2 ^ 30)) by done.
  unfold must_map_to_1gib. cbn [fst snd]. rewrite Heq. split_and!; try done. congruence.
Qed.

Lemma map_gibs_ok n : forall (i : nat) m a,
  fs_inv a -> (n <= length (fs_frames a))%nat -> Z.of_nat (i + n) <= 2 ^ 17 ->
  pt_view (inner m) = ∅ -> gibs_mapped (pt_huge (inner m)) i ->
  (forall p x, pt_huge (inner m) !! p = Some x -> 0 <= p < 2 ^ 30 * Z.of_nat i) ->
  exists k m' a', foldM (map_gib_frame alloc 0) (m, a) (stride (2 ^ 30) (2 ^ 30 * Z.of_nat i) n) = Done (m', a') /\
    same_tracking m m' /\ fs_inv a' /\ (k <= n)%nat /\ fs_frames a' = drop k (fs_frames a) /\
    pt_view (inner m') = ∅ /\ gibs_mapped (pt_huge (inner m')) (i + n) /\
    (forall p x, pt_huge (inner m') !! p = Some x -> 0 <= p < 2 ^ 30 * Z.of_nat (i + n)).
Proof.
  induction n as [|n IH]; intros i m a Hinv Hl Hi Hv Hg Hb; cbn [stride foldM].
  { exists 0%nat, m, a. rewrite Nat.add_0_r, drop_0. split_and!; try done. by exists (inner m); destruct m. }
  destruct (map_gib_frame_ok m a i) as (k & pt & a1 & -> & Hk & Hf1 & Hi1 & Hv1 & Hh1); try done; [|lia| |].
  { intros Hnil. rewrite Hnil in Hl. simpl in Hl. lia. }
  { destruct (pt_huge (inner m) !! _) eqn:E; [|done]. apply Hb in E. lia. }
  rewrite Done_bind. replace (2 ^ 30 * Z.of_nat i + 2 ^ 30) with (2 ^ 30 * Z.of_nat (S i)) by lia.
  destruct (IH (S i) (set_inner pt m) a1) as (k' & m' & a' & Hfold & Ht & Hi' & Hk' & Hf' & Hrest); try done.
  { rewrite Hf1, length_drop. lia. }
  { lia. }
  { intros j Hj. simpl. rewrite Hh1. destruct (decide (j = i)) as [->|Hne]; [apply lookup_insert_eq|].
    rewrite lookup_insert_ne by lia. apply Hg. lia. }
  { intros p x. simpl. rewrite Hh1. intros [[<- _]|[_ Hp]]%lookup_insert_Some; [lia|]. apply Hb in Hp. lia. }
  exists (k + k')%nat, m', a'. rewrite Hfold, Hf', Hf1, drop_drop, <- Nat.add_succ_comm.
  split; [done|]. split; [eapply same_tracking_trans; [by exists pt|done]|]. split; [done|]. split; [lia|done].
Qed.

Lemma mark_unused_topped m :
  topped m 511 -> exists m', mark_as_unused 0 m = Done m' /\ topped m' 511 /\ inner m' = inner m /\ level m' = level m.
Proof.
  intros (Hinv & _ & Hlo & _).
  destruct (mark_as_unused_inv m 0 Hinv ltac:(lia)) as (m' & Hm & Hu & Hinv'); [exists 0%nat; apply Hlo; lia|].
  exists m'. split; [done|].
  assert (inner m' = inner m /\ level m' = level m) as [-> ->].
  { unfold mark_as_unused in Hm. simpl in Hm. inv_done. by repeat case_match; inv_done. }
  split; [|done]. unfold topped. split_and!; [done|lia| |intros; lia].
  intros j Hj. unfold entry_is. rewrite Hu. destruct (decide (j = 0%nat)) as [->|].
  - apply list_lookup_insert_eq. destruct Hinv as [-> _]. lia.
  - rewrite list_lookup_insert_ne by done. by apply Hlo.
Qed.

(** [map_physics_memory] maps the physical address space to itself:
    every address below the given maximum translates to itself through a
    writable 1 GiB page; the upper half of the address space stays free. *)
Theorem map_physics_memory_spec m a top :
  topped m 511 -> level m = Four -> pt_view (inner m) = ∅ -> pt_huge (inner m) = ∅ ->
  fs_inv a -> 0 < top <= 2 ^ 39 -> (512 <= length (fs_frames a))%nat ->
  exists m' a', map_physics_memory alloc top m a = Done (0, m', a') /\
    topped m' 511 /\ level m' = Four /\ fs_inv a' /\
    (exists k, (k <= 512)%nat /\ fs_frames a' = drop k (fs_frames a)) /\
    (forall x, 0 <= x < top ->
      exists f o, translate (inner m') x = Mapped (Frame1GiB f) o (flags_or PT_PRESENT PT_WRITABLE) /\
        f + o = x) /\
    (forall i, (256 <= i < 512)%nat -> slot_free (inner m') i).
Proof.
  intros Ht Hl Hv Hh Hinv Htop Hsup.
  destruct (mark_unused_topped m Ht) as (m1 & Hm1 & Ht1 & Hin1 & Hl1).
  unfold map_physics_memory, PHYS_MEM_P4.
  rewrite phys_addr_new_ok, Done_bind, phys_addr_sub_ok, Done_bind, Hm1, Done_bind by lia.
  rewrite page_table_index_new_ok, Done_bind by lia. unfold slot_start_address.
  rewrite page_table_index_new_ok, Done_bind by lia.
  rewrite page_from_indices_1gib_spec by lia. change (256 <=? Z.of_nat 0) with false. cbv iota.
  change (Z.of_nat 0 * 2 ^ 39 + 0 * 2 ^ 30 + 0) with 0. rewrite Done_bind.
  rewrite !frame_containing_1gib_spec by lia. change (0 - 0 mod 2 ^ 30) with 0.
  pose proof (Z.div_mod (top - 1) (2 ^ 30) ltac:(done)) as Hd.
  pose proof (Z.mod_pos_bound (top - 1) (2 ^ 30) eq_refl) as Hmb.
  set (q := (top - 1) / 2 ^ 30) in *.
  replace (top - 1 - (top - 1) mod 2 ^ 30) with (q * 2 ^ 30) by lia.
  rewrite frame_range_inclusive_1gib_spec; [|lia|by exists 0|by exists q].
  rewrite Z.sub_0_r, Z.div_mul by done.
  destruct (map_gibs_ok (Z.to_nat (q + 1)) 0 m1 a) as (k & m' & a' & Hfold & Htr & Hi' & Hk & Hf' & Hv' & Hg & Hb);
    rewrite ?Hin1; try done; [lia|lia|intros j; lia|by rewrite Hh|].
  rewrite Z.mul_0_r in Hfold. rewrite Hfold, Done_bind. exists m', a'. split; [done|].
  pose proof Htr as [pt ->]. split; [by eapply same_tracking_topped|].
  split; [simpl; congruence|]. split; [done|]. split; [exists k; split; [lia|done]|]. split.
  - intros x Hx. pose proof (Z.div_mod x (2 ^ 30) ltac:(done)) as Hdx.
    pose proof (Z.mod_pos_bound x (2 ^ 30) eq_refl) as Hmx.
    exists (2 ^ 30 * (x / 2 ^ 30)), (x mod 2 ^ 30). split; [|lia]. rewrite Hdx at 1.
    apply translate_huge; [apply Z.divide_factor_l|done|].
    assert (0 <= x / 2 ^ 30 <= q) by lia.
    pose proof (Hg (Z.to_nat (x / 2 ^ 30)) ltac:(lia)) as Hgj. by rewrite Z2Nat.id in Hgj by lia.
  - intros i Hi p Hp. rewrite Hv'. split; [done|].
    destruct (pt_huge _ !! gib_base p) eqn:E; [|done]. apply Hb in E. exfalso.
    unfold gib_base in E. pose proof (Z.mod_pos_bound p (2 ^ 30) eq_refl).
    unfold slot_base in Hp. lia.
Qed.
End StackPhys.

(** ** The region list *)

(** The slots in use of an array of 512 hold [l]. *)
Definition holds (s : list MemoryRegion * nat) (l : list MemoryRegion) : Prop :=
  length s.1 = 512%nat /\ s.2 = length l /\ take s.2 s.1 = l.

Lemma push_region_holds s l r :
  holds s l -> (length l < 512)%nat -> exists s', push_region s r = Done s' /\ holds s' (l ++ [r]).
Proof.
  destruct s as [arr n]. intros (Hl & Hn & Ht) Hlt. simpl in *. unfold push_region. simpl.
  rewrite (proj2 (Nat.ltb_lt _ _)) by lia. eexists. split; [done|]. split_and!; simpl.
  - by rewrite length_insert.
  - rewrite length_app. simpl. lia.
  - rewrite <- Ht. rewrite (take_S_r _ _ r) by (apply list_lookup_insert_eq; lia).
    by rewrite take_insert_ge by lia.
Qed.

Lemma push_region_full s l r :
  holds s l -> (512 <= length l)%nat -> push_region s r = Panic.
Proof.
  destruct s as [arr n]. intros (Hl & Hn & _) Hle. simpl in *. unfold push_region. simpl.
  by rewrite (proj2 (Nat.ltb_ge _ _)) by lia.
Qed.

(** A loop that pushes [f x] for each element. *)
Lemma push_loop_holds {B} (f : B -> MemoryRegion) xs : forall s l,
  holds s l -> (length l + length xs <= 512)%nat ->
  exists s', foldM (fun s x => push_region s (f x)) s xs = Done s' /\ holds s' (l ++ map f xs).
Proof.
  induction xs as [|x xs IH]; intros s l Hs Hlen; cbn [foldM map].
  { exists s. by rewrite app_nil_r. }
  simpl in Hlen. destruct (push_region_holds s l (f x) Hs) as (s1 & -> & Hs1); [lia|]. rewrite Done_bind.
  destruct (IH s1 (l ++ [f x]) Hs1) as (s' & Hf & Hs'); [rewrite length_app; simpl; lia|].
  exists s'. split; [done|]. by rewrite <- app_assoc in Hs'.
Qed.

Lemma push_framebuffer_holds s l fb :
  holds s l -> (length l < 512)%nat ->
  exists s', match fb with
      | Some fb => push_region s (mkMemoryRegion (fb_ptr fb) (fb_len fb) Bootloader)
      | None => Done s
      end = Done s' /\
    holds s' (l ++ match fb with
      | Some fb => [mkMemoryRegion (fb_ptr fb) (fb_len fb) Bootloader]
      | None => [] end).
Proof.
  intros Hs Hl. destruct fb as [fb|]; [by apply push_region_holds|]. exists s. by rewrite app_nil_r.
Qed.

(** One more push in a sequence of them. *)
Ltac push_step :=
  match goal with
  | H : holds ?s ?l |- context [push_region ?s ?r] =>
      let s' := fresh "s" in let H' := fresh "H" in
      destruct (push_region_holds s l r H) as (s' & -> & H');
        [repeat rewrite ?length_app, ?length_map; simpl; lia|];
      rewrite ?Done_bind; clear H
  end.

Section RegionSpec.
Context {X : X86Addr} {XS : X86AddrSpec X} {U : UefiMemoryType}.

(** A descriptor within the physical address space. *)
Definition md_ok (d : MemoryDescriptor) : Prop :=
  0 <= md_phys_start d /\ 0 <= md_page_count d /\
  md_phys_start d + PAGE_SIZE * md_page_count d < 2 ^ 52.

Definition descriptor_region (d : MemoryDescriptor) : MemoryRegion :=
  mkMemoryRegion (md_phys_start d) (PAGE_SIZE * md_page_count d) Bootloader.

(** The descriptors whose memory stays in use after the bootloader. *)
Definition kept (mm : list MemoryDescriptor) : list MemoryDescriptor :=
  filter (fun d => md_usable_after_bootloader_exit d = false) mm.

Lemma push_descriptors_holds mm : forall s l,
  Forall md_ok mm -> holds s l -> (length l + length mm <= 512)%nat ->
  exists s', foldM push_descriptor s mm = Done s' /\ holds s' (l ++ map descriptor_region (kept mm)).
Proof.
  induction mm as [|d mm IH]; intros s l Hok Hs Hlen; cbn [foldM].
  { exists s. by rewrite app_nil_r. }
  inversion_clear Hok as [|?? (H1 & H2 & H3) Hok']. simpl in Hlen. unfold kept. rewrite filter_cons.
  assert (Hstep : push_descriptor s d = if decide (md_usable_after_bootloader_exit d = false)
    then push_region s (descriptor_region d) else Done s).
  { unfold push_descriptor. simpl. destruct (md_usable_after_bootloader_exit d); [done|]. simpl.
    unfold md_start. rewrite phys_addr_new_ok by page_lia. simpl. unfold u64_mul.
    rewrite checked_in by page_lia. simpl. by rewrite Z.mul_comm. }
  rewrite Hstep. case_decide.
  - destruct (push_region_holds s l (descriptor_region d) Hs) as (s1 & -> & Hs1); [lia|].
    rewrite Done_bind. destruct (IH s1 _ Hok' Hs1) as (s' & Hf & Hs'); [rewrite length_app; simpl; lia|].
    exists s'. split; [done|]. by rewrite <- app_assoc in Hs'.
  - rewrite Done_bind. by apply IH; [| |lia].
Qed.

Definition bootloader_region (start len : Z) : MemoryRegion := mkMemoryRegion start len Bootloader.

(** The regions the bootloader reports before it maps the argument. *)
Definition reported_regions (mm : list MemoryDescriptor) (allocated : MemoryRegion)
    (framebuffer : option Framebuffer) (kernel_bytes bootstrap_bytes : Z * Z)
    (lapic_base : Z) (io_apics : list MadtIoApic) (gdt kernel_page_table : Z) : list MemoryRegion :=
  map descriptor_region (kept mm) ++ [allocated] ++
  match framebuffer with Some fb => [bootloader_region (fb_ptr fb) (fb_len fb)] | None => [] end ++
  [bootloader_region kernel_bytes.1 kernel_bytes.2; bootloader_region bootstrap_bytes.1 kernel_bytes.2;
   bootloader_region lapic_base PAGE_SIZE] ++
  map (fun io => bootloader_region (ioapic_address io) PAGE_SIZE) io_apics ++
  [bootloader_region gdt PAGE_SIZE; bootloader_region kernel_page_table PAGE_SIZE].

(** The region list is exactly what the memory map, the allocator and the
    loaded images say, provided it fits the 512 slots. *)
Lemma construct_regions_spec junk mm fa fb kb bb lapic ios gdt pt ar :
  length junk = 512%nat -> Forall md_ok mm -> allocated_region fa = Done ar ->
  0 < kb.2 -> 0 < bb.2 -> (length mm + length ios + 7 <= 512)%nat ->
  exists s, construct_unsafe_phys_mem_region_map junk mm fa fb kb bb lapic ios gdt pt = Done s /\
    holds s (reported_regions mm ar fb kb bb lapic ios gdt pt).
Proof.
  intros Hj Hok Har Hk Hb Hlen. unfold construct_unsafe_phys_mem_region_map.
  assert (Hkept : (length (kept mm) <= length mm)%nat) by apply length_filter.
  destruct (push_descriptors_holds mm (junk, 0%nat) [] Hok) as (s1 & -> & H1); [done|simpl; lia|].
  rewrite Done_bind, Har, Done_bind. rewrite app_nil_l in H1. push_step.
  match goal with H : holds ?s ?l |- _ =>
    destruct (push_framebuffer_holds s l fb H) as (s2 & -> & H2);
      [repeat rewrite ?length_app, ?length_map; simpl; lia|]; clear H end.
  rewrite Done_bind.
  assert (Hl2 : (length (match fb with Some fb => [mkMemoryRegion (fb_ptr fb) (fb_len fb) Bootloader]
    | None => [] end) <= 1)%nat) by (destruct fb; simpl; lia).
  unfold first_byte_addr. rewrite (proj2 (Z.ltb_lt 0 kb.2)), (proj2 (Z.ltb_lt 0 bb.2)) by done.
  cbn [rassert]. rewrite !Done_bind. push_step. push_step. push_step.
  match goal with H : holds ?s _ |- _ =>
    destruct (push_loop_holds (fun io => mkMemoryRegion (ioapic_address io) 4096 Bootloader) ios s _ H)
      as (s5 & -> & H5); [repeat rewrite ?length_app, ?length_map; simpl; lia|]; clear H end.
  rewrite Done_bind. push_step. push_step. eexists. split; [done|].
  unfold reported_regions. by rewrite <- !app_assoc in *.
Qed.
End RegionSpec.

Section KernelArgSpec.
Context {X : X86Addr} {XS : X86AddrSpec X} {V : X86Virt} {VS : X86VirtSpec V} {F : PtFlags}.
Context {PT : Type} {M : Mapper PT} {MS : MapperSpec PT M}.
Context {U : UefiMemoryType} {S : RegionSort} {SS : RegionSortSpec S}.
Implicit Types m : TrackedMapper PT.

Lemma allocated_region_ok {D} `{RTMemoryRegionDescriptor D} (a : LinearIncFrameAllocator D) :
  alloc_inv a -> allocated_region a =
    Done (mkMemoryRegion (start_phys_addr a) (next_frame a - start_phys_addr a) Bootloader).
Proof. intros [_ _ _ Hs Hb]. unfold allocated_region, u64_sub. by rewrite checked_in by lia. Qed.

(** [map_kernel_arg] claims entry 507, makes the argument readable there,
    and leaves in it the given regions, the argument's own memory and
    everything the allocator handed out, sorted by start address as the
    kernel's frame allocator requires. *)
Lemma map_kernel_arg_spec {AS : FrameSourceSpec allocate_frame} m a arg p len l :
  (forall a, fs_inv a -> alloc_inv a) ->
  topped m KERNEL_ARG_P4 -> level m = Four -> slot_free (inner m) KERNEL_ARG_P4 ->
  fs_inv a -> 0 <= p -> p + len < 2 ^ 52 -> 0 < len <= 2 ^ 39 - PAGE_SIZE ->
  3 * (len + 2 * PAGE_SIZE) <= PAGE_SIZE * Z.of_nat (length (fs_frames a)) ->
  holds (unav_phys_mem_regions arg, unav_phys_mem_regions_len arg) l -> (length l + 2 <= 512)%nat ->
  exists r arg' m' a' ar, map_kernel_arg p len arg m a = Done (r, arg', m', a') /\
    slot_mapped (AS := AS) (3 * (len + 2 * PAGE_SIZE)) m a KERNEL_ARG_P4 m' a' /\ allocated_region a' = Done ar /\
    visible_at (inner m') r p len PT_PRESENT /\ span_in_entry KERNEL_ARG_P4 r len /\
    arg' = set_regions (unav_phys_mem_regions arg') (unav_phys_mem_regions_len arg') arg /\
    let rs := take (unav_phys_mem_regions_len arg') (unav_phys_mem_regions arg') in
    rs ≡ₚ l ++ [bootloader_region p len; ar] /\
    StronglySorted (fun r r' => mr_start r <= mr_start r') rs.
Proof.
  intros Hai Ht Hl Hf Hinv Hp Hpl Hlen Hsup Hh Hll. unfold KERNEL_ARG_P4 in *.
  destruct (claim_slot_ok m 507 len Ht) as (m1 & Hclaim & Ht1 & Hin1 & Hl1); [lia|done|page_lia|].
  unfold map_kernel_arg, KERNEL_ARG_P4, u64_add, u64_sub. rewrite Hclaim, Done_bind. cbn [fst snd].
  rewrite slot_start_address_ok, Done_bind, page_containing_slot by lia.
  rewrite phys_addr_new_ok, Done_bind, checked_in, Done_bind by lia.
  rewrite checked_in, Done_bind, phys_addr_new_ok, Done_bind by lia.
  pose proof (frame_containing_bounds p Hp) as Hb.
  destruct (map_block_slot (alloc := allocate_frame) m1 a 507 p (p + len - 1) PT_PRESENT)
    as (m' & a' & -> & Hslot & Hblock); try done;
    [lia|by rewrite Hin1|lia|page_lia|page_lia|].
  rewrite Done_bind. cbn [fst snd]. pose proof Hslot as (_ & _ & Hinv' & _ & _).
  push_step. rewrite allocated_region_ok, Done_bind by by apply Hai. push_step.
  rewrite align_down_frame, slot_virt_addr_add, Done_bind by page_lia.
  match goal with H : holds ?s _ |- _ => destruct H as (Hs1 & Hs2 & Hs3) end.
  eexists _, _, m', a', _. split; [done|]. split; [apply (slot_mapped_claimed _ _ m m1 a 507 m' a' Hslot Hin1); page_lia|].
  split; [by apply allocated_region_ok, Hai|]. split.
  { apply (block_visible _ _ _ (p + len - 1)); [done|lia]. }
  split; [unfold span_in_entry; page_lia|]. split; [done|].
  cbn [unav_phys_mem_regions unav_phys_mem_regions_len set_regions]. rewrite Hs3.
  rewrite take_app_length' by by rewrite (Permutation_length (sort_perm _)).
  split; [|apply sort_sorted]. rewrite sort_perm. by rewrite <- app_assoc.
Qed.
End KernelArgSpec.

(** An instance of the sort. *)
Definition region_le (r r' : MemoryRegion) : Prop := mr_start r <= mr_start r'.

#[export] Instance region_le_dec r r' : Decision (region_le r r').
Proof. unfold region_le. apply _. Defined.

#[export] Instance region_le_trans : Transitive region_le.
Proof. intros ???. unfold region_le. lia. Qed.

#[export] Instance region_le_total : Total region_le.
Proof. intros ??. unfold region_le. lia. Qed.

Definition merge_sort_regions : RegionSort := merge_sort region_le.

Lemma merge_sort_regions_spec : RegionSortSpec merge_sort_regions.
Proof.
  split; intros l.
  - apply merge_sort_Permutation.
  - apply (StronglySorted_merge_sort region_le).
Qed.

(** ** Instances *)

#[local] Existing Instance x86_addr_model.
#[local] Existing Instance x86_addr_model_spec.
#[local] Existing Instance x86_virt_model.
#[local] Existing Instance x86_virt_model_spec.
#[local] Existing Instance uefi_memory_type_model.
#[local] Existing Instance pt_flags_model.
#[local] Existing Instance map_table_mapper.
#[local] Existing Instance map_table_mapper_spec.

(** A table in which the entries up to [i] are free. *)
Definition table_from (i : nat) : TrackedMapper map_table :=
  mkTrackedMapper pt_empty Four (replicate (S i) false ++ replicate (511 - i) true) 0 i.

Lemma table_from_topped i : (i < 512)%nat -> topped (table_from i) i.
Proof.
  intros Hi.
  assert (Hlo : forall j, (j <= i)%nat -> entry_is (table_from i) j false).
  { intros j Hj. apply lookup_app_l_Some. apply lookup_replicate_2. lia. }
  assert (Hhi : forall j, (i < j < 512)%nat -> entry_is (table_from i) j true).
  { intros j Hj. unfold entry_is, table_from. cbn [used]. rewrite lookup_app_r; rewrite length_replicate; [|lia].
    apply lookup_replicate_2. lia. }
  unfold topped. split_and!; try done. split.
  - unfold table_from. cbn [used]. rewrite length_app, !length_replicate. lia.
  - left. cbn [first_available_index last_available_index table_from].
    split_and!; [lia|lia|apply Hlo; lia|apply Hlo; lia|intros; lia|auto].
Qed.

(** An allocator over 2048 frames from 1 MiB on. *)
Definition frames_map : list MemoryDescriptor := [mkMemoryDescriptor 7 0x100000 2048].
Definition frames_2048 : LinearIncFrameAllocator MemoryDescriptor := new_starting_at 0x100000 frames_map.

Lemma frames_map_wf : map_wf frames_map.
Proof.
  split.
  - apply Forall_cons. split; [|constructor]. exists 0x100000, 2048%nat.
    split_and!; [reflexivity|reflexivity|lia|lia|by exists 256|reflexivity].
  - apply SSorted_cons; constructor.
Qed.

Lemma frames_2048_inv : fs_inv frames_2048.
Proof. by destruct (allocator_new_inv frames_map frames_map_wf) as (_ & Hinv & _). Qed.

Lemma table_from_free i j : slot_free (inner (table_from i)) j.
Proof. intros p _. split; apply lookup_empty. Qed.

Lemma map_framebuffer_spec_witness :
  exists r m' a', map_framebuffer allocate_frame 0x80000123 0x10000 (table_from 508) frames_2048 =
      Done (r, m', a') /\
    visible_at (inner m') r 0x80000123 0x10000 (flags_or PT_PRESENT PT_WRITABLE).
Proof.
  destruct (map_framebuffer_spec (alloc := allocate_frame) (table_from 508) frames_2048 0x80000123 0x10000
    (table_from_topped 508 ltac:(lia)) eq_refl (table_from_free 508 508) frames_2048_inv
    ltac:(lia) ltac:(lia) ltac:(page_lia) ltac:(vm_compute; discriminate))
    as (r & m' & a' & Hr & _ & _ & Hvis).
  exists r, m', a'. split; [exact Hr|exact Hvis].
Defined.

Lemma kernel_stack_spec_witness :
  exists m' a' (fr : list Z), alloc_and_map_kernel_stack allocate_frame 0x80000 (table_from 509) frames_2048 =
      Done (slot_base 509 + PAGE_SIZE, m', a') /\ NoDup fr.
Proof.
  destruct (kernel_stack_spec (alloc := allocate_frame) (table_from 509) frames_2048 0x80000
    (table_from_topped 509 ltac:(lia)) eq_refl (table_from_free 509 509) frames_2048_inv
    ltac:(page_lia) ltac:(vm_compute; discriminate))
    as (m' & a' & fr & Hr & _ & Hnd & _).
  exists m', a', fr. split; [exact Hr|exact Hnd].
Defined.

Lemma map_physics_memory_spec_witness :
  exists m' a', map_physics_memory allocate_frame 0x900000 (tracked_new pt_empty Four) frames_2048 =
      Done (0, m', a') /\
    exists f o, translate (inner m') 0x123456 = Mapped (Frame1GiB f) o (flags_or PT_PRESENT PT_WRITABLE) /\
      f + o = 0x123456.
Proof.
  destruct (map_physics_memory_spec (alloc := allocate_frame) (tracked_new pt_empty Four) frames_2048 0x900000
    (topped_new _ _) eq_refl pt_empty_view pt_empty_huge frames_2048_inv ltac:(lia) ltac:(vm_compute; lia))
    as (m' & a' & Hr & _ & _ & _ & _ & Htr & _).
  exists m', a'. split; [exact Hr|]. apply Htr. lia.
Defined.
