(* ===== verification/LoadKernel.v ===== *)
(** * Loading the kernel

    [bootloader-efi/src/kernel.rs]: [load_kernel_to_virt_mem] maps the kernel's
    ELF file into the level-4 entry reserved for it and relocates it there.  Its
    loops are shown to be those of Elf.v with the tracked table and the boot frame
    allocator as the target, whose laws are proved here. *)

From S2P Require Import Prelude Platform Shared Paging Machine UserAddrSpace Elf ElfImage BootFrameAlloc TrackedMapper RuntimeMap.

(** [LoadKernel]. *)
Record LoadKernel : Type := mkLoadKernel {
  kernel_entry : Z;
  lk_kernel_virt_space_offset : Z;
  tls_template : option TlsTemplate
}.

(** What loading the kernel changes. *)
Record BootState (PT A : Type) : Type := mkBootState {
  bs_table : TrackedMapper PT;
  bs_frames : A;
  bs_mem : Z -> Z
}.
Arguments mkBootState {PT A} _ _ _.
Arguments bs_table {PT A} _.
Arguments bs_frames {PT A} _.
Arguments bs_mem {PT A} _ _.

Section LoadKernel.
Context {X : X86Addr} {V : X86Virt} {VT : X86Step} {F : PtFlags} {PT : Type} {M : Mapper PT} {A : Type}.
Context (alloc : frame_source A).
(** [ElfFile::new] *)
Context (elf_file_new : list Z -> option ElfFile).

Definition set_table (m : TrackedMapper PT) (s : BootState PT A) : BootState PT A :=
  mkBootState m (bs_frames s) (bs_mem s).

Definition boot_map_to (page frame flags : Z) (s : BootState PT A) : outcome (BootState PT A) :=
  '(m, a) ← must_map_to alloc (bs_table s) page frame flags (bs_frames s);
  Done (mkBootState m a (bs_mem s)).

#[export] Instance boot_target : LoadTarget (BootState PT A) := {|
  lt_translate s := translate (inner (bs_table s));
  lt_alloc s := r ← alloc (bs_frames s); Done (r.1, mkBootState (bs_table s) r.2 (bs_mem s));
  lt_map_to := boot_map_to;
  lt_unmap page s :=
    let r := unmap (inner (bs_table s)) page in
    _ ← or_panic r.1;
    Done (set_table (set_inner r.2 (bs_table s)) s);
  lt_update_flags page flags s :=
    let r := update_flags (inner (bs_table s)) page flags in
    _ ← rassert r.1;
    Done (set_table (set_inner r.2 (bs_table s)) s);
  lt_track _ s := s;
  lt_mem := bs_mem;
  lt_set_mem m s := mkBootState (bs_table s) (bs_frames s) m;
  lt_map_file := boot_map_to;
  lt_mark_range lo hi s := r ← mark_range_as_used lo hi (bs_table s); Done (set_table r.2 s)
|}.

(** An address of the file, at its place from [kernel_start] on. *)
Definition kernel_place (kernel_start defined_start v : Z) : outcome Z :=
  d ← u64_sub v defined_start;
  virt_addr_add kernel_start d.

(** The helpers, which the bootloader has in a copy of its own. *)
Definition boot_copy_page_and_remap (page : Z) (s : BootState PT A) : outcome (option Z * BootState PT A) :=
  copy_page_and_remap page s.

Definition boot_copy_pages_and_write (addr : Z) (buf : list Z) (s : BootState PT A) : outcome (BootState PT A) :=
  copy_pages_and_write addr buf s.

Definition boot_update_page_flag (range_inclusive : list Z) (flag : Z) (s : BootState PT A) : outcome (BootState PT A) :=
  update_page_flag range_inclusive flag s.

(** The [ShType::Load] arm. *)
Definition boot_clear_bss_start (bss_start : Z) (s : BootState PT A) : outcome (BootState PT A) :=
  let file_end_relative_addr := Z.land bss_start 0xfff in
  if negb (file_end_relative_addr =? 0) then
    last_addr ← virt_addr_sub bss_start 1;
    '(f, s) ← boot_copy_page_and_remap (page_containing_address last_addr) s;
    new_frame ← or_panic f;
    Done (lt_set_mem (mem_fill (new_frame + file_end_relative_addr) (4096 - file_end_relative_addr) 0 (lt_mem s)) s)
  else Done s.

Definition load_kernel_segment (ph : ProgramHeader) (p : SegmentPlace) (s : BootState PT A) : outcome (BootState PT A) :=
  let flags := seg_flags ph in
  s ← foldM (map_file_frame p flags) s
    (frame_range_inclusive (seg_bytes_start_phys_frame p) (seg_bytes_end_phys_frame p));
  if mem_size ph <=? file_size ph then Done s
  else
    s ← boot_clear_bss_start (seg_file_end_virt_addr p) s;
    bss_aligned ← virt_addr_new (align_up (seg_file_end_virt_addr p) PAGE_SIZE);
    bss_last ← virt_addr_sub (seg_mem_end_virt_addr p) 1;
    foldM (map_bss_page flags) s
      (page_range_inclusive (page_containing_address bss_aligned) (page_containing_address bss_last)).

(** The [ShType::Dynamic] arm, and one of its relocations. *)
Definition boot_apply_rela (kernel_bytes_phys_addr kernel_len defined_start : Z) (place : Z -> outcome Z)
  (rela_ptr_offset : Z) (s : BootState PT A) (entry_idx : Z) : outcome (BootState PT A) :=
  o ← u64_sub rela_ptr_offset defined_start;
  n ← u64_mul entry_idx RELA_SIZE;
  idx ← u64_add o n;
  _ ← rassert (idx <? kernel_len);
  let rela := kernel_bytes_phys_addr + idx in
  let r_offset := load64 (bs_mem s) rela in
  let r_info := load64 (bs_mem s) (rela + 8) in
  let r_addend := load64 (bs_mem s) (rela + 16) in
  if negb (r_info / 2 ^ 32 =? 0) then Panic
  else if wrap 32 r_info =? R_X86_64_RELATIVE then
    offset ← place r_offset;
    attend ← place r_addend;
    boot_copy_pages_and_write offset (to_ne_bytes attend) s
  else Panic.

Definition load_kernel_dynamic (kernel_bytes_phys_addr kernel_len defined_start : Z) (place : Z -> outcome Z)
  (ph : ProgramHeader) (s : BootState PT A) : outcome (BootState PT A) :=
  data ← or_panic (get_data ph);
  match data with
  | OtherData => Panic
  | Dynamic64 data =>
      r ← foldM scan_dynamic (mkRelaInfo None None None) data;
      match ri_rela r with
      | None => Done s
      | Some rela_ptr_offset =>
          total_size ← or_panic (ri_size r);
          entry_size ← or_panic (ri_ent r);
          if negb (entry_size =? RELA_SIZE) then Panic
          else
            foldM (boot_apply_rela kernel_bytes_phys_addr kernel_len defined_start place rela_ptr_offset) s
              (seqZ 0 (total_size / entry_size))
      end
  end.

(** One header in the loop that loads the segments. *)
Definition load_kernel_header (kernel_bytes_phys_addr kernel_len defined_start : Z) (place : Z -> outcome Z)
  (st : BootState PT A * option TlsTemplate) (ph : ProgramHeader) : outcome (BootState PT A * option TlsTemplate) :=
  let s := st.1 in
  let tls := st.2 in
  if mem_size ph <=? 0 then Done (s, tls)
  else
    start ← place (virtual_addr ph);
    p ← place_segment kernel_bytes_phys_addr ph start;
    s ← lt_mark_range (seg_start_virt_addr p) (seg_mem_end_virt_addr p) s;
    match default ShNull (get_type ph) with
    | ShLoad => s ← load_kernel_segment ph p s; Done (s, tls)
    | ShDynamic => s ← load_kernel_dynamic kernel_bytes_phys_addr kernel_len defined_start place ph s; Done (s, tls)
    | ShGnuRelro =>
        s ← boot_update_page_flag (page_range_inclusive (seg_start_page p) (seg_end_page p)) PT_WRITABLE s;
        Done (s, tls)
    | ShTls => Done (s, Some (mkTlsTemplate (seg_start_virt_addr p) (mem_size ph) (file_size ph)))
    | _ => Done (s, tls)
    end.

(** One header in the loop that removes [BIT_9]. *)
Definition unmark_kernel_header (place : Z -> outcome Z) (s : BootState PT A) (ph : ProgramHeader) : outcome (BootState PT A) :=
  if mem_size ph <=? 0 then Done s
  else
    match default ShNull (get_type ph) with
    | ShLoad =>
        start ← place (virtual_addr ph);
        mem_end ← virt_addr_add start (mem_size ph);
        last ← virt_addr_sub mem_end 1;
        boot_update_page_flag (page_range_inclusive (page_containing_address start) (page_containing_address last))
          PT_BIT_9 s
    | _ => Done s
    end.

Definition load_kernel_to_virt_mem (kernel_ptr kernel_len : Z) (s : BootState PT A)
  : outcome (LoadKernel * BootState PT A) :=
  kernel_elf ← or_panic (elf_file_new (file_bytes (bs_mem s) kernel_ptr kernel_len));
  _ ← rassert (0 <? kernel_len);
  kernel_bytes_phys_addr ← phys_addr_new kernel_ptr;
  _ ← sanity_checked kernel_elf;
  '(kernel_defined_start_virt_addr, kernel_virt_addr_space_size) ← virt_extent kernel_elf;
  '(slot, m) ← claim_slot kernel_virt_addr_space_size KERNEL_BYTES_P4 (bs_table s);
  kernel_start_virt_addr ← slot_start_address slot;
  let place := kernel_place kernel_start_virt_addr kernel_defined_start_virt_addr in
  '(s, tls) ← foldM (load_kernel_header kernel_bytes_phys_addr kernel_len kernel_defined_start_virt_addr place)
    (set_table m s, None) (program_iter kernel_elf);
  s ← foldM (unmark_kernel_header place) s (program_iter kernel_elf);
  entry ← place (entry_point kernel_elf);
  Done (mkLoadKernel entry (kernel_start_virt_addr - kernel_defined_start_virt_addr) tls, s).

(** The loops are those the kernel's loader has. *)
Lemma load_kernel_header_shared ptr len start place :
  load_kernel_header ptr len start place = load_header (S := BootState PT A) ptr len start place.
Proof. reflexivity. Qed.

Lemma unmark_kernel_header_shared place : unmark_kernel_header place = unmark_header (S := BootState PT A) place.
Proof. reflexivity. Qed.
End LoadKernel.

(** ** The laws of the target *)

Section Target.
Context {F : PtFlags} {FS : PtFlagsSpec F} {X : X86Addr} {V : X86Virt} {VS : X86VirtSpec V} {VT : X86Step}.
Context {PT : Type} {M : Mapper PT} {MS : MapperSpec PT M}.
Context {A : Type} (alloc : frame_source A) {AS : FrameSourceSpec alloc}.
(** The level-4 entry of the kernel. *)
Context (slot : nat) (Hslot : (256 <= slot < 512)%nat).
(** The state in which the entry was claimed. *)
Context (origin : BootState PT A).

Abbreviation target := (boot_target alloc).
Abbreviation in_slot := (slot_page (p4_base (Z.of_nat slot))).
Abbreviation lookup_page s p := (pt_view (inner (bs_table s)) !! p).

(** The entry is taken and has no 1 GiB pages, and since it was claimed only
    its own pages changed. *)
Record boot_inv (s : BootState PT A) : Prop := {
  bi_frames : fs_inv (bs_frames s);
  bi_bounded : Forall frame_ok (fs_frames (bs_frames s));
  bi_level : level (bs_table s) = Four;
  bi_taken : entry_is (bs_table s) slot true;
  bi_huge p : in_slot p -> pt_huge (inner (bs_table s)) !! gib_base p = None;
  bi_tracking : same_tracking (bs_table origin) (bs_table s);
  bi_outside : same_outside slot (inner (bs_table origin)) (inner (bs_table s))
}.

Lemma p4_base_slot : p4_base (Z.of_nat slot) = slot_base slot.
Proof. unfold p4_base, slot_base. rewrite (proj2 (Z.leb_le _ _)) by lia. lia. Qed.

(** A state that differs in the mapping of a page and in the allocator. *)
Lemma boot_inv_inner s p pt a k mem : boot_inv s -> fs_inv a -> in_slot p ->
  fs_frames a = drop k (fs_frames (bs_frames s)) -> pt_huge pt = pt_huge (inner (bs_table s)) ->
  (forall q, q <> p -> pt_view pt !! q = lookup_page s q) ->
  boot_inv (mkBootState (set_inner pt (bs_table s)) a mem).
Proof.
  intros [H1 H2 H3 H4 H5 [pt0 H7] [H8 H9]] Ha [_ Hp] Hf Hh Hv. rewrite p4_base_slot in Hp.
  split; cbn; try done; [|by rewrite Hh|..].
  - rewrite Hf. by apply Forall_drop.
  - exists pt. by rewrite H7.
  - split; [by rewrite Hh|]. intros q Hq. rewrite Hv by (by intros ->). by apply H9.
Qed.

Lemma boot_alloc s : boot_inv s -> fs_frames (bs_frames s) <> [] -> exists s', lt_alloc (LoadTarget := target) s = Done (head (fs_frames (bs_frames s)), s') /\
  fs_frames (bs_frames s') = tail (fs_frames (bs_frames s)) /\
  (forall p, in_slot p -> lookup_page s' p = lookup_page s p) /\ bs_mem s' = bs_mem s /\ boot_inv s'.
Proof.
  intros [H1 H2 H3 H4 H5 H7 H8] Hne. destruct (fs_alloc (bs_frames s) H1 Hne) as (a' & E & Hf & Hi).
  cbn [lt_alloc boot_target]. rewrite E, Done_bind. eexists. split; [done|]. split; [done|]. split; [done|]. split; [done|].
  split; cbn [bs_frames bs_table snd]; try done. rewrite Hf. by destruct H2.
Qed.

Lemma boot_map_to_ok s p f fl : boot_inv s -> in_slot p -> (PAGE_SIZE | f) -> lookup_page s p = None ->
  (3 <= length (fs_frames (bs_frames s)))%nat ->
  exists s' k, (k <= 3)%nat /\ boot_map_to alloc p f fl s = Done s' /\
    fs_frames (bs_frames s') = drop k (fs_frames (bs_frames s)) /\
    (forall q, in_slot q -> lookup_page s' q = if decide (q = p) then Some (f, fl) else lookup_page s q) /\
    bs_mem s' = bs_mem s /\ boot_inv s'.
Proof.
  intros Hinv Hp Hf Hn Hlen. pose proof Hinv as [H1 H2 H3 H4 H5 _ _].
  destruct (must_map_to_ok (bs_table s) p f fl (bs_frames s) H1 Hlen (proj1 Hp) Hf Hn (H5 p Hp))
    as (k & pt & a' & E & Hk & Hv & Hh & Hfr & Hi).
  unfold boot_map_to. rewrite E, Done_bind. eexists _, k. split; [done|]. split; [done|]. cbn [bs_frames bs_table bs_mem].
  split; [done|]. split; [|split; [done|eapply boot_inv_inner; try done; intros q Hq; rewrite Hv; by apply lookup_insert_ne]].
  intros q _. cbn [set_inner inner]. rewrite Hv. case_decide; [subst; apply lookup_insert_eq|by apply lookup_insert_ne].
Qed.

Lemma boot_unmap s p x : boot_inv s -> in_slot p -> lookup_page s p = Some x ->
  exists s', lt_unmap (LoadTarget := target) p s = Done s' /\ fs_frames (bs_frames s') = fs_frames (bs_frames s) /\
    (forall q, in_slot q -> lookup_page s' q = if decide (q = p) then None else lookup_page s q) /\
    bs_mem s' = bs_mem s /\ boot_inv s'.
Proof.
  intros Hinv Hp Hx. destruct x as [f fl]. destruct (unmap_mapped _ _ _ _ Hx) as (pt & E & Hv & Hh).
  cbn [lt_unmap boot_target]. cbv zeta. rewrite E. cbn [fst snd or_panic]. rewrite Done_bind.
  eexists. split; [done|]. split; [done|]. split; [|split; [done|]].
  - intros q _. cbn. rewrite Hv. case_decide; [subst; apply lookup_delete_eq|by apply lookup_delete_ne].
  - apply (boot_inv_inner s p pt _ 0); try done; [apply Hinv|].
    intros q Hq. rewrite Hv. by (apply lookup_delete_ne || apply lookup_insert_ne).
Qed.

Lemma boot_update_flags s p f fl fl' : boot_inv s -> in_slot p -> lookup_page s p = Some (f, fl) ->
  exists s', lt_update_flags (LoadTarget := target) p fl' s = Done s' /\
    fs_frames (bs_frames s') = fs_frames (bs_frames s) /\
    (forall q, in_slot q -> lookup_page s' q = if decide (q = p) then Some (f, fl') else lookup_page s q) /\
    bs_mem s' = bs_mem s /\ boot_inv s'.
Proof.
  intros Hinv Hp Hx. destruct (update_flags_mapped _ _ _ _ fl' Hx) as (pt & E & Hv & Hh).
  cbn [lt_update_flags boot_target]. cbv zeta. rewrite E. cbn [fst snd rassert]. rewrite Done_bind.
  eexists. split; [done|]. split; [done|]. split; [|split; [done|]].
  - intros q _. cbn. rewrite Hv. case_decide; [subst; apply lookup_insert_eq|by apply lookup_insert_ne].
  - apply (boot_inv_inner s p pt _ 0); try done; [apply Hinv|].
    intros q Hq. rewrite Hv. by (apply lookup_delete_ne || apply lookup_insert_ne).
Qed.

Lemma boot_translate s p o : boot_inv s -> in_slot p -> 0 <= o < PAGE_SIZE ->
  lt_translate (LoadTarget := target) s (p + o) = match lookup_page s p with
                     | Some (f, fl) => Mapped (Frame4KiB f) o fl
                     | None => NotMapped
                     end.
Proof.
  intros Hinv Hp Ho. pose proof (bi_huge s Hinv p Hp) as Hh. cbn [lt_translate boot_target].
  destruct (lookup_page s p) as [[f fl]|] eqn:E.
  - apply translate_mapped; [apply Hp|done|done|done].
  - apply translate_unmapped; [apply Hp|done|done|done].
Qed.

(** The range of a segment is in the entry, which is taken. *)
Lemma boot_mark_range s lo hi : boot_inv s -> p4_base (Z.of_nat slot) <= lo < hi -> hi < p4_base (Z.of_nat slot) + 2 ^ 39 ->
  exists s', lt_mark_range (LoadTarget := target) lo hi s = Done s' /\ fs_frames (bs_frames s') = fs_frames (bs_frames s) /\
    (forall p, in_slot p -> lookup_page s' p = lookup_page s p) /\ bs_mem s' = bs_mem s /\ boot_inv s'.
Proof.
  intros Hinv Hlo Hhi. pose proof Hinv as [H1 H2 H3 H4 H5 _ _]. rewrite p4_base_slot in *.
  assert (Hc : forall x, lo <= x < hi \/ x = hi -> canonical x) by (intros; unfold canonical, slot_base in *; lia).
  assert (Hpg : forall x, lo <= x < hi -> page_index Four (page_containing_address x) = Z.of_nat slot).
  { intros x Hx. rewrite page_index_containing by (unfold slot_base in *; lia). cbn [level_shift].
    replace x with ((2 ^ 25 - (512 - Z.of_nat slot)) * 2 ^ 39 + (x - slot_base slot)) by (unfold slot_base; lia).
    rewrite Z.div_add_l, Z.div_small, Z.add_0_r by (unfold slot_base in *; lia).
    replace (2 ^ 25 - (512 - Z.of_nat slot)) with (Z.of_nat slot + (2 ^ 16 - 1) * 512) by lia.
    rewrite Z.mod_add by lia. apply Z.mod_small. lia. }
  cbn [lt_mark_range boot_target]. unfold mark_range_as_used.
  rewrite virt_addr_sub_ok, Done_bind by (try apply Hc; unfold slot_base in *; lia).
  rewrite H3, !Hpg, Nat2Z.id by lia. replace (slot + 1 - slot)%nat with 1%nat by lia. cbn [seq foldM].
  destruct (mark_as_used_used _ _ H4) as [Hm|]; [|lia]. unfold mark_range_step. cbn [snd]. rewrite Hm, !Done_bind.
  exists s. cbn. by destruct s.
Qed.

#[export] Instance boot_target_spec : LoadTargetSpec (BootState PT A) target.
Proof.
  refine {| lt_base := p4_base (Z.of_nat slot); lt_extra := 0; lt_inv := boot_inv; lt_page s p := lookup_page s p;
    lt_frames s := fs_frames (bs_frames s); lt_own _ := True |}.
  - apply p4_base_ok. lia.
  - done.
  - intros s _. by apply Forall_forall.
  - intros s [H1 H2 _ _ _ _ _]. split; [done|]. by apply fs_increasing.
  - intros s p Hi Hp. rewrite <- (Z.add_0_r p) at 1. by apply boot_translate.
  - apply boot_alloc.
  - intros s p f fl Hi Hp Hf _. unfold flags_or. rewrite Z.lor_0_r. by apply boot_map_to_ok.
  - apply boot_unmap.
  - apply boot_update_flags.
  - done.
  - intros s m [H1 H2 H3 H4 H5 H6 H7]. done.
  - intros s p orig fl Hi Hp Ha Hn Hlen. unfold flags_or. rewrite Z.lor_0_r.
    destruct (boot_map_to_ok s p orig fl Hi Hp Ha Hn) as (s' & k & Hk & E & Hf & Hl & Hm & Hi'); [lia|].
    exists s', orig, k. split; [lia|]. do 3 (split; [done|]). split; [by left|done].
  - apply boot_mark_range.
Defined.
End Target.

(** ** The loaded kernel *)

(** The byte the kernel reads at an address, and the flags of its page. *)
Definition kernel_byte {PT A} {M : Mapper PT} (s : BootState PT A) (v : Z) : option Z :=
  match translate (inner (bs_table s)) v with
  | Mapped (Frame4KiB f) o _ => Some (bs_mem s (f + o))
  | _ => None
  end.

Definition kernel_flags_at {PT A} {M : Mapper PT} (s : BootState PT A) (v : Z) : option Z :=
  match translate (inner (bs_table s)) v with
  | Mapped (Frame4KiB _) _ fl => Some fl
  | _ => None
  end.

Lemma kernel_slot : (256 <= KERNEL_BYTES_P4 < 512)%nat.
Proof. unfold KERNEL_BYTES_P4. lia. Qed.

(** Where the kernel is loaded. *)
Definition KERNEL_BASE : Z := p4_base (Z.of_nat KERNEL_BYTES_P4).

Section Kernel.
Context {X : X86Addr} {XS : X86AddrSpec X} {V : X86Virt} {VS : X86VirtSpec V} {VT : X86Step} {VTS : X86StepSpec VT}.
Context {F : PtFlags} {FS : PtFlagsSpec F} {PT : Type} {M : Mapper PT} {MS : MapperSpec PT M}.
Context {A : Type} (alloc : frame_source A) {AS : FrameSourceSpec alloc}.
Context (elf_file_new : list Z -> option ElfFile).

Abbreviation spec := (boot_target_spec alloc KERNEL_BYTES_P4 kernel_slot).

(** A kernel file that can be loaded from the [len] bytes at [ptr]. *)
Record kernel_loadable (elf : ElfFile) (ptr len start size : Z) (s : BootState PT A) : Prop := {
  kl_parsed : elf_file_new (file_bytes (bs_mem s) ptr len) = Some elf;
  kl_slice : 0 < len /\ 0 <= ptr /\ ptr + len + PAGE_SIZE <= 2 ^ 52;
  kl_checked : sanity_checked elf = Done tt;
  kl_extent : virt_extent elf = Done (start, size) /\ 0 < size <= 2 ^ 39;
  kl_headers : headers_ok (LS := spec s) (slice_lo ptr) (slice_hi ptr len) (bs_mem s) ptr len start
    (KERNEL_BASE - start) (program_iter elf);
  kl_entry : start <= entry_point elf < start + 2 ^ 39
}.

(** The first user of the kernel's page table, with enough frames away from
    the file. *)
Record boot_room (elf : ElfFile) (ptr len start : Z) (s : BootState PT A) : Prop := {
  br_table : topped (bs_table s) 511 /\ level (bs_table s) = Four;
  br_free : slot_free (inner (bs_table s)) 511;
  br_frames : fs_inv (bs_frames s) /\ Forall frame_ok (fs_frames (bs_frames s));
  br_apart : Forall (fun f => f + PAGE_SIZE <= slice_lo ptr \/ slice_hi ptr len <= f) (fs_frames (bs_frames s));
  br_enough : (total_cost (KERNEL_BASE - start) (program_iter elf) <= length (fs_frames (bs_frames s)))%nat
}.

Lemma kernel_loadable_same elf ptr len start size s s' :
  kernel_loadable elf ptr len start size s -> bs_mem s' = bs_mem s -> kernel_loadable elf ptr len start size s'.
Proof.
  intros [B1 B2 B3 B4 B5 B6] Hm. split; try done; rewrite Hm; [exact B1|].
  by apply (headers_ok_same (spec s) (spec s')).
Qed.

Lemma kernel_base_slot : KERNEL_BASE = slot_base KERNEL_BYTES_P4.
Proof. done. Qed.

Lemma kernel_place_ok start v : 
  KERNEL_BASE <= v + (KERNEL_BASE - start) < KERNEL_BASE + 2 ^ 39 ->
  kernel_place KERNEL_BASE start v = Done (v + (KERNEL_BASE - start)).
Proof.
  intros Hr. unfold kernel_place, u64_sub. rewrite (checked_in 64 (v - start)), Done_bind by lia.
  rewrite virt_addr_add_ok; [f_equal; lia|..].
  all: try apply (slot_base_canonical KERNEL_BYTES_P4 _ kernel_slot); rewrite <- ?kernel_base_slot; lia.
Qed.

(** Claiming the entry leaves a table the loader can fill. *)
Lemma claimed_inv elf ptr len start size s : boot_room elf ptr len start s -> 0 < size <= 2 ^ 39 ->
  exists m, claim_slot size KERNEL_BYTES_P4 (bs_table s) = Done (Z.of_nat KERNEL_BYTES_P4, m) /\
    topped m 510 /\ level m = Four /\ inner m = inner (bs_table s) /\
    boot_inv alloc KERNEL_BYTES_P4 (set_table m s) (set_table m s).
Proof.
  intros [[R1 R1'] R2 [R3 R3'] R4 R5] Hsize.
  destruct (claim_slot_ok (bs_table s) 511 size R1) as (m & E & Ht & Hin & Hl); [lia|done|done|].
  exists m. do 4 (split; [done|]). split; cbn; try done.
  - apply Ht. unfold KERNEL_BYTES_P4. lia.
  - intros p Hp. rewrite Hin. apply R2. destruct Hp as [_ Hp]. by rewrite p4_base_slot in Hp by apply kernel_slot.
  - exists (inner m). by destruct m.
Qed.

Lemma kernel_translate o s v : boot_inv alloc KERNEL_BYTES_P4 o s -> slot_page KERNEL_BASE (page_of v) ->
  translate (inner (bs_table s)) v = match pt_view (inner (bs_table s)) !! page_of v with
                                     | Some (f, fl) => Mapped (Frame4KiB f) (v mod PAGE_SIZE) fl
                                     | None => NotMapped
                                     end.
Proof.
  intros Hi Hp. replace v with (page_of v + v mod PAGE_SIZE) at 1 by (unfold page_of; lia).
  by apply (boot_translate alloc KERNEL_BYTES_P4 o s); [| |apply Z.mod_pos_bound].
Qed.

(** Loading the kernel, with what it leaves of the table and of the frames. *)
Lemma load_kernel_ok elf ptr len start size s :
  kernel_loadable elf ptr len start size s -> boot_room elf ptr len start s ->
  let off := KERNEL_BASE - start in
  exists s', load_kernel_to_virt_mem alloc elf_file_new ptr len s =
      Done (mkLoadKernel (entry_point elf + off) off (image_tls off (program_iter elf)), s') /\
    slot_mapped (PAGE_SIZE * Z.of_nat (total_cost off (program_iter elf))) (bs_table s) (bs_frames s) KERNEL_BYTES_P4 (bs_table s') (bs_frames s') /\
    (forall v b, image (bs_mem s) ptr start off (program_iter elf) v = Some b ->
       in_entry KERNEL_BYTES_P4 v /\ kernel_byte s' v = Some b) /\
    (forall v f o fl, in_entry KERNEL_BYTES_P4 v -> translate (inner (bs_table s')) v = Mapped (Frame4KiB f) o fl ->
       (f ∉ fs_frames (bs_frames s')) /\ (PAGE_SIZE | f) /\ 0 <= o < PAGE_SIZE) /\
    (forall v, KERNEL_BASE <= v < KERNEL_BASE + 2 ^ 39 ->
       kernel_flags_at s' v = perms (LS := spec s) off (program_iter elf) (page_of v)).
Proof.
  intros Hload Hroom off. pose proof Hload as [B1 B2 B3 [B4 B4'] _ B6].
  pose proof (page_of_bounds ptr) as [Hd1 Hb1]. pose proof (page_of_bounds (ptr + len - 1)) as [Hd2 Hb2].
  destruct (claimed_inv _ _ _ _ size _ Hroom B4') as (m & Em & Ht & Hlv & Hin & Hinv).
  destruct Hroom as [_ R2 [R3 R3'] R4 R5].
  assert (Hempty : forall p, slot_page KERNEL_BASE p -> pt_view (inner m) !! p = None).
  { intros p [_ Hp]. rewrite Hin. by apply R2. }
  edestruct (load_image_ok (LS := spec (set_table m s)) (slice_lo ptr) (slice_hi ptr len) (fun _ => False) (bs_mem s) (bs_mem s)) with
    (elf_ptr := ptr) (elf_len := len) (elf_start := start) (off := off) (place := kernel_place KERNEL_BASE start)
    (s := set_table m s) as (s1 & s2 & E1 & E2 & L2 & Hread & Hperm).
  - unfold slice_lo, slice_hi. destruct Hd1 as [i Hi]. rewrite Hi in *. page_lia.
  - done.
  - intros v Hv. by apply kernel_place_ok.
  - unfold slice_lo, slice_hi. page_lia.
  - apply (kl_headers _ _ _ _ _ _ (kernel_loadable_same _ _ _ _ _ s (set_table m s) Hload eq_refl)).
  - split; try done; cbn [lt_page boot_target_spec set_table bs_table]; try (intros *; intros Hp; by rewrite Hempty).
    apply Forall_and. split; [done|]. apply Forall_forall. by intros f _ x _ [].
  - exact Hempty.
  - exact R5.
  - pose proof L2 as [LL (k & Hk & Hfr)]. pose proof (li_inv _ _ _ _ _ LL) as I2. unfold load_kernel_to_virt_mem. rewrite B1. cbn [or_panic]. rewrite Done_bind.
    rewrite (proj2 (Z.ltb_lt _ _)) by lia. cbn [rassert]. rewrite Done_bind.
    rewrite phys_addr_new_ok, Done_bind, B3, Done_bind, B4, Done_bind by page_lia. cbv beta iota.
    step Em. rewrite slot_start_address_ok, Done_bind by apply kernel_slot. cbv zeta.
    rewrite load_kernel_header_shared, unmark_kernel_header_shared. rewrite <- kernel_base_slot, E1, Done_bind. cbv beta iota.
    rewrite E2, Done_bind, kernel_place_ok, Done_bind by lia.
    exists s2. split; [done|]. split; [|split; [|split]].
    + pose proof I2 as [J1 _ J3 _ _ J7 J8]. cbn [bs_table bs_frames set_table] in *. rewrite Hin in J8.
      split; [by eapply same_tracking_topped|]. split; [done|]. split; [done|]. split; [exists k; split; [page_lia|done]|done].
    + intros v b Hv. destruct (Hread v b Hv) as [Hsv Hr]. split.
      { destruct Hsv as [_ Hsv]. pose proof (page_of_bounds v) as [[q Hq] Hpb]. unfold in_entry.
        change (lt_base (LoadTargetSpec := spec (set_table m s))) with (slot_base KERNEL_BYTES_P4) in Hsv.
        destruct (slot_aligned KERNEL_BYTES_P4) as [q' Hq']. page_lia. }
      unfold kernel_byte. rewrite (kernel_translate _ s2 v I2 Hsv).
      unfold read in Hr. cbn [lt_page boot_target_spec lt_mem boot_target] in Hr.
      by destruct (pt_view (inner (bs_table s2)) !! page_of v) as [[f fl]|].
    + intros v f o fl Hv Htr. pose proof (page_of_slot (LS := spec s) v Hv) as Hs.
      rewrite (kernel_translate _ s2 v I2 Hs) in Htr.
      destruct (pt_view (inner (bs_table s2)) !! page_of v) as [[f' fl']|] eqn:Ev; [|done]. injection Htr as -> <- ->.
      destruct (li_fresh _ _ _ _ _ LL (page_of v) f fl Hs Ev) as [[Hf _] Hn].
      split; [exact Hn|]. split; [done|]. by apply Z.mod_pos_bound.
    + intros v Hv. pose proof (page_of_slot (LS := spec s) v Hv) as Hs. specialize (Hperm _ Hs).
      unfold kernel_flags_at. rewrite (kernel_translate _ s2 v I2 Hs).
      refine (eq_trans _ Hperm). cbn [lt_page boot_target_spec]. by destruct (pt_view (inner (bs_table s2)) !! page_of v) as [[f fl]|].
Qed.

(** C33. Loading the kernel: [load_kernel_to_virt_mem] takes the last entry of
    a fresh level-4 table and returns the entry point, the offset and the
    thread local storage of the file moved to that entry; through the table
    every byte of the moved image, with zeroed tails and relocations applied, is
    visible, and the pages of the entry have exactly the permissions of the
    program headers. *)
Theorem load_kernel_to_virt_mem_loads elf ptr len start size s :
  kernel_loadable elf ptr len start size s -> boot_room elf ptr len start s ->
  let off := KERNEL_BASE - start in
  exists s', load_kernel_to_virt_mem alloc elf_file_new ptr len s =
      Done (mkLoadKernel (entry_point elf + off) off (image_tls off (program_iter elf)), s') /\
    (forall v b, image (bs_mem s) ptr start off (program_iter elf) v = Some b -> kernel_byte s' v = Some b) /\
    (forall v, KERNEL_BASE <= v < KERNEL_BASE + 2 ^ 39 ->
       kernel_flags_at s' v = perms (LS := spec s) off (program_iter elf) (page_of v)).
Proof.
  intros Hl Hr off. destruct (load_kernel_ok _ _ _ _ _ _ Hl Hr) as (s' & E & _ & Hb & _ & Hf).
  exists s'. split; [done|]. split; [|done]. intros v b Hv. by apply Hb.
Qed.
End Kernel.

(** ** An instance: a kernel linked at 0, with a zeroed tail, a relocation and
    thread local storage *)

#[local] Existing Instance x86_addr_model.
#[local] Existing Instance x86_addr_model_spec.
#[local] Existing Instance x86_virt_model.
#[local] Existing Instance x86_virt_model_spec.
#[local] Existing Instance x86_step_model.
#[local] Existing Instance x86_step_model_spec.
#[local] Existing Instance pt_flags_model.
#[local] Existing Instance pt_flags_model_spec.
#[local] Existing Instance map_table_mapper.
#[local] Existing Instance map_table_mapper_spec.

Definition KERNEL_PTR : Z := 0x7e00000.

Definition kernel_load : ProgramHeader := mkProgramHeader (Some ShLoad) 0 0 0x800 0x1800 true true None.
Definition kernel_dynamic : ProgramHeader :=
  mkProgramHeader (Some ShDynamic) 0x100 0x100 0x30 0x30 false true
    (Some (Dynamic64 [mkDynamic (Some TagRela) (Some 0x200) None;
                      mkDynamic (Some TagRelaSize) None (Some 24);
                      mkDynamic (Some TagRelaEnt) None (Some 24)])).
Definition kernel_tls : ProgramHeader := mkProgramHeader (Some ShTls) 0x700 0x700 0x20 0x40 false true None.

Definition kernel_elf : ElfFile :=
  mkElfFile [kernel_load; kernel_dynamic; kernel_tls] (fun _ => true) true SharedObject 0x40.

(** The relocation stores the place of 0x40 at 0x300. *)
Definition kernel_bytes : Z -> Z :=
  store64 (store64 (store64 (fun _ => 7) (KERNEL_PTR + 0x200) 0x300) (KERNEL_PTR + 0x208) 8) (KERNEL_PTR + 0x210) 0x40.

Definition kernel_state : BootState map_table (list Z) :=
  mkBootState (tracked_new pt_empty Four) (frame_list 0x200000 40) kernel_bytes.

(** Whatever the frames come from, and whatever the rest of memory holds. *)
Lemma sample_kernel_loadable {A} (alloc : frame_source A) {AS : FrameSourceSpec alloc} (s : BootState map_table A) :
  (forall x, KERNEL_PTR <= x < KERNEL_PTR + 0x1000 -> bs_mem s x = kernel_bytes x) ->
  kernel_loadable alloc (fun _ => Some kernel_elf) kernel_elf KERNEL_PTR 0x1000 0 0x1800 s.
Proof.
  intros Hmem. split; try done.
  assert (Hw : forall j, 0 <= j <= 2 -> rela_word (bs_mem s) KERNEL_PTR 0 0x200 0 j = rela_word kernel_bytes KERNEL_PTR 0 0x200 0 j).
  { intros j Hj. apply load64_outside. intros x Hx. apply Hmem. unfold RELA_SIZE in Hx. lia. }
  intros k ph Hk Hpos.
  assert (Hpl : placeable (LS := boot_target_spec alloc KERNEL_BYTES_P4 kernel_slot s) ph (seg_src KERNEL_PTR ph) (seg_start (KERNEL_BASE - 0) ph) /\ 0 <= ph_offset ph).
  { destruct k as [|[|[|k]]]; simpl in Hk; try discriminate Hk; injection Hk as <-; (split; [split|]); done. }
  destruct Hpl as [Hpl Hoff]. split; [done|]. split; [done|].
  destruct k as [|[|[|k]]]; simpl in Hk; try discriminate Hk; injection Hk as <-; cbn [get_type default from_option].
  - split; [|done]. split; [done|by apply Z.mod_divide|done].
  - eexists _, _. split; [done|]. split; [done|]. cbn [ri_rela]. exists 24.
    repeat (split; [done|]). intros i Hi. change (24 / RELA_SIZE) with 1 in Hi. assert (i = 0) as -> by lia.
    split; rewrite ?(Hw 0), ?(Hw 1), ?(Hw 2) by lia; [by vm_compute|by vm_compute|by vm_compute|].
    intros v Hv. replace (rela_word kernel_bytes KERNEL_PTR 0 0x200 0 0) with 0x300 in Hv by (by vm_compute).
    replace (page_of v) with KERNEL_BASE; [by eexists|]. symmetry. apply page_of_unique; [by apply Z.mod_divide|page_lia].
  - done.
Qed.

Lemma sample_kernel_room : boot_room list_source kernel_elf KERNEL_PTR 0x1000 0 kernel_state.
Proof.
  split.
  - split; [apply topped_new|done].
  - intros p _. cbn [bs_table kernel_state tracked_new inner]. by rewrite pt_empty_view, pt_empty_huge.
  - split; [apply frame_list_source|]. apply Forall_forall. intros f (i & Hi & ->)%elem_of_stride.
    split; [apply Z.divide_add_r; [by exists 512|apply Z.divide_factor_l]|page_lia].
  - apply Forall_forall. intros f (i & Hi & ->)%elem_of_stride. left.
    replace (slice_lo KERNEL_PTR) with KERNEL_PTR by (by vm_compute). unfold KERNEL_PTR. page_lia.
  - apply (bool_decide_unpack _). by vm_compute.
Qed.

Lemma load_kernel_to_virt_mem_loads_witness :
  exists s', load_kernel_to_virt_mem list_source (fun _ => Some kernel_elf) KERNEL_PTR 0x1000 kernel_state =
      Done (mkLoadKernel (KERNEL_BASE + 0x40) KERNEL_BASE (Some (mkTlsTemplate (KERNEL_BASE + 0x700) 0x40 0x20)), s') /\
    kernel_byte s' (KERNEL_BASE + 0x300) = Some 0x40 /\ kernel_byte s' (KERNEL_BASE + 0x307) = Some 0xff /\
    kernel_byte s' (KERNEL_BASE + 0x7ff) = Some 7 /\ kernel_byte s' (KERNEL_BASE + 0x1234) = Some 0 /\
    kernel_flags_at s' (KERNEL_BASE + 0x123) = Some 3 /\ kernel_flags_at s' (KERNEL_BASE + 0x2000) = None.
Proof.
  destruct (load_kernel_to_virt_mem_loads list_source (fun _ => Some kernel_elf) kernel_elf KERNEL_PTR 0x1000 0 0x1800
    kernel_state (sample_kernel_loadable _ kernel_state (fun _ _ => eq_refl)) sample_kernel_room) as (s' & E & Hb & Hf).
  exists s'. split; [exact E|].
  split; [apply Hb; by vm_compute|]. split; [apply Hb; by vm_compute|]. split; [apply Hb; by vm_compute|].
  split; [apply Hb; by vm_compute|].
  rewrite (Hf (KERNEL_BASE + 0x123) ltac:(by split)), (Hf (KERNEL_BASE + 0x2000) ltac:(by split)).
  split; by vm_compute.
Defined.
