(* ===== verification/HeapBox.v ===== *)
(** * The kernel's heap and aligned boxes

    [kernel/src/mem/heap.rs]: the static memory of the heap, the two allocators
    of the [buddy_alloc] crate on it, and the path a request takes through the
    cell and the lock.  [kernel/src/mem/aligned_box.rs]: boxes with an alignment
    of their own, on any allocator that keeps the contract of [GlobalAlloc]. *)

From S2P Require Import Prelude Platform Machine UserAddrSpace Elf.

(** ** Layouts ([core::alloc::Layout]) *)

Record Layout : Type := mkLayout { lay_size : Z; lay_align : Z }.

#[global] Instance Layout_eq_dec : EqDecision Layout.
Proof. solve_decision. Defined.

Definition is_power_of_two (a : Z) : bool := (0 <? a) && (Z.land a (a - 1) =? 0).

(** [isize::MAX as usize + 1 - align]. *)
Definition max_size_for_align (align : Z) : Z := 2 ^ 63 - align.

Definition from_size_align (size align : Z) : option Layout :=
  if negb (is_power_of_two align) then None
  else if max_size_for_align align <? size then None
  else Some (mkLayout size align).

(** The types that are [ValidForZero]: [u8] and [[u8; N]]. *)
Inductive ZeroType : Type := U8 | U8Array (n : nat).

Definition size_of (t : ZeroType) : Z := match t with U8 => 1 | U8Array n => Z.of_nat n end.

(** [Layout::new::<T>()] and [Layout::array::<T>(len)]. *)
Definition layout_new (t : ZeroType) : Layout := mkLayout (size_of t) 1.

Definition layout_array (t : ZeroType) (len : Z) : option Layout :=
  if negb (size_of t =? 0) && (max_size_for_align 1 / size_of t <? len) then None
  else Some (mkLayout (size_of t * len) 1).

(** ** The heap *)

(** [GlobalAlloc]: the null pointer is 0. *)
Class GlobalAlloc (H : Type) : Type := {
  ga_alloc : Layout -> H -> memory -> outcome (Z * H * memory);
  ga_dealloc : Z -> Layout -> H -> memory -> outcome (H * memory)
}.

(** [GlobalAlloc::alloc_zeroed], which no allocator here overrides. *)
Definition alloc_zeroed {H} {G : GlobalAlloc H} (layout : Layout) (h : H) (m : memory) : outcome (Z * H * memory) :=
  '(ptr, h, m) ← ga_alloc layout h m;
  if ptr =? 0 then Done (ptr, h, m) else Done (ptr, h, mem_fill ptr (lay_size layout) 0 m).

Definition RT_HEAP_SIZE : Z := 0x1008000.
Definition RT_HEAP_FAST_SIZE : Z := 0x8000.

(** [FastAllocParam] and [BuddyAllocParam] of the crate. *)
Record FastAllocParam : Type := mkFastParam { fp_base : Z; fp_len : Z }.
Record BuddyAllocParam : Type := mkBuddyParam { bp_base : Z; bp_len : Z; bp_leaf : Z }.

(** [UPSafeCell<LockedGlobalAlloc>] behind [lazy_static]: the allocator once it
    exists, the flag of the cell and the lock. *)
Record RuntimeHeap (H : Type) : Type := mkRuntimeHeap {
  rh_alloc : option H;
  rh_borrowed : bool;
  rh_locked : bool
}.
Arguments mkRuntimeHeap {H} _ _ _.
Arguments rh_alloc {H} _.
Arguments rh_borrowed {H} _.
Arguments rh_locked {H} _.

Section Heap.
Context {H : Type} {G : GlobalAlloc H}.
(** [NonThreadsafeAlloc::new] *)
Context (nta_new : FastAllocParam -> BuddyAllocParam -> H).
(** the address of [RT_HEAP_SPACE] *)
Context (space : Z).

Definition fast_param : FastAllocParam := mkFastParam (space + (RT_HEAP_SIZE - RT_HEAP_FAST_SIZE)) RT_HEAP_FAST_SIZE.
Definition buddy_param : BuddyAllocParam := mkBuddyParam space (RT_HEAP_SIZE - RT_HEAP_FAST_SIZE) 32.

(** The first use of the [lazy_static]. *)
Definition runtime_heap_alloc (r : RuntimeHeap H) : H :=
  match rh_alloc r with Some h => h | None => nta_new fast_param buddy_param end.

(** [UPSafeCell::inner_exclusive_mut]: [RefCell::borrow_mut]. *)
Definition inner_exclusive_mut (r : RuntimeHeap H) : outcome (RuntimeHeap H) :=
  if rh_borrowed r then Panic
  else Done (mkRuntimeHeap (Some (runtime_heap_alloc r)) true (rh_locked r)).

(** The end of the [RefMut]. *)
Definition release (r : RuntimeHeap H) : RuntimeHeap H := mkRuntimeHeap (rh_alloc r) false (rh_locked r).

(** [LockedGlobalAlloc]: a taken lock is waited for, and nothing else runs that
    could give it back. *)
Definition locked_alloc (layout : Layout) (r : RuntimeHeap H) (m : memory) : outcome (Z * RuntimeHeap H * memory) :=
  if rh_locked r then OutOfFuel
  else
    '(ptr, h, m) ← ga_alloc layout (runtime_heap_alloc r) m;
    Done (ptr, mkRuntimeHeap (Some h) (rh_borrowed r) false, m).

Definition locked_dealloc (ptr : Z) (layout : Layout) (r : RuntimeHeap H) (m : memory) : outcome (RuntimeHeap H * memory) :=
  if rh_locked r then OutOfFuel
  else
    '(h, m) ← ga_dealloc ptr layout (runtime_heap_alloc r) m;
    Done (mkRuntimeHeap (Some h) (rh_borrowed r) false, m).

(** [_DelegateAlloc], the global allocator. *)
Definition delegate_alloc (layout : Layout) (r : RuntimeHeap H) (m : memory) : outcome (Z * RuntimeHeap H * memory) :=
  r ← inner_exclusive_mut r;
  '(ptr, r, m) ← locked_alloc layout r m;
  Done (ptr, release r, m).

Definition delegate_dealloc (ptr : Z) (layout : Layout) (r : RuntimeHeap H) (m : memory) : outcome (RuntimeHeap H * memory) :=
  r ← inner_exclusive_mut r;
  '(r, m) ← locked_dealloc ptr layout r m;
  Done (release r, m).

Definition HEAP_ALLOC : GlobalAlloc (RuntimeHeap H) := {| ga_alloc := delegate_alloc; ga_dealloc := delegate_dealloc |}.
End Heap.

(** ** Boxes *)

(** The [T] of a box: a type of known size, or a slice with its length. *)
Inductive BoxType : Type := Sized (t : ZeroType) | Slice (t : ZeroType) (len : Z).

(** [AlignedBox<T, ALIGN>]. *)
Record AlignedBox : Type := mkBox { ab_inner : Z; ab_type : BoxType; ab_ALIGN : Z }.

(** [Layout::for_value]. *)
Definition for_value (t : BoxType) : Layout :=
  match t with Sized t => layout_new t | Slice t len => mkLayout (size_of t * len) 1 end.

Definition layout_upgrade_align (layout : Layout) (align : Z) : outcome Layout :=
  let max a b := if b <? a then a else b in
  or_panic (from_size_align (lay_size layout) (max align (lay_align layout))).

Definition box_layout (b : AlignedBox) : outcome Layout := layout_upgrade_align (for_value (ab_type b)) (ab_ALIGN b).

Section Boxes.
Context {H : Type} {G : GlobalAlloc H}.

(** [Err(OutOfMemory)] is [None]. *)
Definition try_zeroed (t : ZeroType) (ALIGN : Z) (h : H) (m : memory) : outcome (option AlignedBox * H * memory) :=
  layout ← layout_upgrade_align (layout_new t) ALIGN;
  '(ptr, h, m) ← alloc_zeroed layout h m;
  if ptr =? 0 then Done (None, h, m) else Done (Some (mkBox ptr (Sized t) ALIGN), h, m).

Definition try_zeroed_slice (t : ZeroType) (ALIGN len : Z) (h : H) (m : memory) : outcome (option AlignedBox * H * memory) :=
  array ← or_panic (layout_array t len);
  layout ← layout_upgrade_align array ALIGN;
  '(ptr, h, m) ← alloc_zeroed layout h m;
  if ptr =? 0 then Done (None, h, m) else Done (Some (mkBox ptr (Slice t len) ALIGN), h, m).

(** [Deref]: the bytes of the value. *)
Definition deref (b : AlignedBox) (m : memory) : list Z := file_bytes m (ab_inner b) (lay_size (for_value (ab_type b))).

(** An assignment through [DerefMut] to the byte at an index. *)
Definition deref_set (b : AlignedBox) (i v : Z) (m : memory) : outcome memory :=
  _ ← rassert ((0 <=? i) && (i <? lay_size (for_value (ab_type b))));
  Done (mem_write (ab_inner b + i) [v] m).

(** [Drop]; bytes have no destructor of their own. *)
Definition box_drop (b : AlignedBox) (h : H) (m : memory) : outcome (H * memory) :=
  layout ← box_layout b;
  ga_dealloc (ab_inner b) layout h m.

(** [new[i].clone_from(&self[i])] in the loop of the slice's [clone]. *)
Definition clone_element (b new : AlignedBox) (t : ZeroType) (m : memory) (i : Z) : outcome memory :=
  Done (mem_copy (ab_inner b + size_of t * i) (ab_inner new + size_of t * i) (size_of t) m).

(** [Clone]: [handle_alloc_error] does not return. *)
Definition box_clone (b : AlignedBox) (h : H) (m : memory) : outcome (AlignedBox * H * memory) :=
  match ab_type b with
  | Sized t =>
      '(new, h, m) ← try_zeroed t (ab_ALIGN b) h m;
      new ← or_panic new;
      Done (new, h, mem_copy (ab_inner b) (ab_inner new) (size_of t) m)
  | Slice t len =>
      '(new, h, m) ← try_zeroed_slice t (ab_ALIGN b) len h m;
      new ← or_panic new;
      m ← foldM (clone_element b new t) m (seqZ 0 len);
      Done (new, h, m)
  end.
End Boxes.

(** ** The contract of an allocator *)

(** A byte of an allocated block. *)
Definition live_byte (live : gmap Z Layout) (x : Z) : Prop :=
  exists p l, live !! p = Some l /\ p <= x < p + lay_size l.

(** [GlobalAlloc] asks for a layout of non-zero size, and for the layout of the
    allocation when a block is given back.  A layout has a power of two as its
    alignment.  The allocator may keep its own data in the bytes of
    [ga_space] that are not allocated. *)
Class GlobalAllocSpec (H : Type) (G : GlobalAlloc H) : Type := {
  ga_inv : H -> Prop;
  ga_live : H -> gmap Z Layout;
  ga_space : Z -> Prop;
  ga_live_space h x : ga_inv h -> live_byte (ga_live h) x -> ga_space x;
  ga_live_apart h p q l l' : ga_inv h -> ga_live h !! p = Some l -> ga_live h !! q = Some l' -> p <> q ->
    disjoint_blocks p (lay_size l) q (lay_size l');
  ga_alloc_spec h m size align l : ga_inv h -> 0 < size -> from_size_align size align = Some l ->
    exists p h' m', ga_alloc l h m = Done (p, h', m') /\ ga_inv h' /\
      (forall x, live_byte (ga_live h) x \/ ~ ga_space x -> m' x = m x) /\
      (p = 0 /\ ga_live h' = ga_live h \/
       0 < p /\ (align | p) /\ ga_live h !! p = None /\ ga_live h' = <[p := l]> (ga_live h));
  ga_dealloc_spec h m p l : ga_inv h -> ga_live h !! p = Some l ->
    exists h' m', ga_dealloc p l h m = Done (h', m') /\ ga_inv h' /\ ga_live h' = delete p (ga_live h) /\
      (forall x, live_byte (ga_live h') x \/ ~ ga_space x -> m' x = m x)
}.

(** The kernel's heap keeps the contract when the crate does. *)
Section HeapSpec.
Context {H : Type} {G : GlobalAlloc H} {GS : GlobalAllocSpec H G}.
Context (nta_new : FastAllocParam -> BuddyAllocParam -> H) (space : Z).

Abbreviation inner := (runtime_heap_alloc nta_new space).

Record heap_idle (r : RuntimeHeap H) : Prop := {
  hi_inv : ga_inv (inner r);
  hi_borrowed : rh_borrowed r = false;
  hi_locked : rh_locked r = false
}.

Lemma delegate_alloc_runs r m l p h m' : heap_idle r -> ga_alloc l (inner r) m = Done (p, h, m') ->
  delegate_alloc nta_new space l r m = Done (p, mkRuntimeHeap (Some h) false false, m').
Proof.
  intros [_ Hb Hl] E. unfold delegate_alloc, inner_exclusive_mut. rewrite Hb, Done_bind. unfold locked_alloc. cbn [rh_locked rh_alloc runtime_heap_alloc].
  rewrite Hl. step E. done.
Qed.

Lemma delegate_dealloc_runs r m p l h m' : heap_idle r -> ga_dealloc p l (inner r) m = Done (h, m') ->
  delegate_dealloc nta_new space p l r m = Done (mkRuntimeHeap (Some h) false false, m').
Proof.
  intros [_ Hb Hl] E. unfold delegate_dealloc, inner_exclusive_mut. rewrite Hb, Done_bind. unfold locked_dealloc. cbn [rh_locked rh_alloc runtime_heap_alloc].
  rewrite Hl. step E. done.
Qed.

#[local] Instance heap_alloc : GlobalAlloc (RuntimeHeap H) := HEAP_ALLOC nta_new space.

#[export] Program Instance heap_alloc_spec : GlobalAllocSpec (RuntimeHeap H) heap_alloc := {|
  ga_inv := heap_idle;
  ga_live r := ga_live (inner r);
  ga_space := ga_space
|}.
Next Obligation. intros r x [Hi _ _]. by apply ga_live_space. Qed.
Next Obligation. intros r p q l l' [Hi _ _]. by apply ga_live_apart. Qed.
Next Obligation.
  intros r m size align l Hr Hs Hl. destruct (ga_alloc_spec (inner r) m size align l (hi_inv r Hr) Hs Hl) as (p & h & m' & E & Hi & Hm & Hp).
  exists p, (mkRuntimeHeap (Some h) false false), m'. split; [by apply delegate_alloc_runs|]. by split.
Qed.
Next Obligation.
  intros r m p l Hr Hp. destruct (ga_dealloc_spec (inner r) m p l (hi_inv r Hr) Hp) as (h & m' & E & Hi & Hlv & Hm).
  exists (mkRuntimeHeap (Some h) false false), m'. split; [by apply delegate_dealloc_runs|]. by split.
Qed.
End HeapSpec.

(** The two allocators share the static memory without overlap. *)
Lemma heap_regions space :
  bp_base (buddy_param space) = space /\ bp_base (buddy_param space) + bp_len (buddy_param space) = fp_base (fast_param space) /\
  fp_base (fast_param space) + fp_len (fast_param space) = space + RT_HEAP_SIZE.
Proof. unfold buddy_param, fast_param, RT_HEAP_SIZE, RT_HEAP_FAST_SIZE. cbn. lia. Qed.

(** ** Programs that use boxes *)

(** The boxes a program made, in order; [None] for one it did not get, or gave
    back.  An operation on such a box does nothing. *)
Inductive BoxOp : Type :=
| BoxNew (t : ZeroType) (ALIGN : Z)
| BoxNewSlice (t : ZeroType) (ALIGN len : Z)
| BoxSet (i : nat) (k v : Z)
| BoxClone (i : nat)
| BoxDrop (i : nat).

Record BoxState (H : Type) : Type := mkBoxState { bx_heap : H; bx_mem : memory; bx_boxes : list (option AlignedBox) }.
Arguments mkBoxState {H} _ _ _.
Arguments bx_heap {H} _.
Arguments bx_mem {H} _ _.
Arguments bx_boxes {H} _.

Definition box_step {H} {G : GlobalAlloc H} (s : BoxState H) (op : BoxOp) : outcome (BoxState H) :=
  let '(mkBoxState h m boxes) := s in
  let at_box i f := match boxes !! i with Some (Some b) => f b | _ => Done s end in
  match op with
  | BoxNew t ALIGN => '(b, h, m) ← try_zeroed t ALIGN h m; Done (mkBoxState h m (boxes ++ [b]))
  | BoxNewSlice t ALIGN len => '(b, h, m) ← try_zeroed_slice t ALIGN len h m; Done (mkBoxState h m (boxes ++ [b]))
  | BoxSet i k v => at_box i (fun b => m ← deref_set b k v m; Done (mkBoxState h m boxes))
  | BoxClone i => at_box i (fun b => '(b', h, m) ← box_clone b h m; Done (mkBoxState h m (boxes ++ [Some b'])))
  | BoxDrop i => at_box i (fun b => '(h, m) ← box_drop b h m; Done (mkBoxState h m (<[i := None]> boxes)))
  end.

(** What the boxes hold. *)
Definition view (m : memory) (o : option AlignedBox) : option (list Z) :=
  match o with Some b => Some (deref b m) | None => None end.
Definition contents {H} (s : BoxState H) : list (option (list Z)) := view (bx_mem s) <$> bx_boxes s.

(** The specification: boxes as values.  [room] says whether the heap had room;
    [None] is a panic. *)
Definition size_fits (size ALIGN : Z) : bool := bool_decide (is_Some (from_size_align size (Z.max ALIGN 1))).

Definition new_content (room : bool) (size ALIGN : Z) (c : list (option (list Z))) : option (list (option (list Z))) :=
  if size_fits size ALIGN then Some (c ++ [if room then Some (replicate (Z.to_nat size) 0) else None]) else None.

Definition box_spec (room : bool) (op : BoxOp) (c : list (option (list Z))) : option (list (option (list Z))) :=
  let at_content i f := match c !! i with Some (Some bytes) => f bytes | _ => Some c end in
  match op with
  | BoxNew t ALIGN => new_content room (size_of t) ALIGN c
  | BoxNewSlice t ALIGN len => new_content room (size_of t * len) ALIGN c
  | BoxSet i k v => at_content i (fun bytes =>
      if (0 <=? k) && (k <? Z.of_nat (length bytes)) then Some (<[i := Some (<[Z.to_nat k := v]> bytes)]> c) else None)
  | BoxClone i => at_content i (fun bytes => if room then Some (c ++ [Some bytes]) else None)
  | BoxDrop i => at_content i (fun _ => Some (<[i := None]> c))
  end.

(** The allocator is not asked for blocks of size zero. *)
Definition op_sized (op : BoxOp) : Prop :=
  match op with
  | BoxNew t _ => 0 < size_of t
  | BoxNewSlice t _ len => 0 < size_of t /\ 0 < len
  | _ => True
  end.

Fixpoint spec_run (steps : list (bool * BoxOp)) (c : list (option (list Z))) : option (list (option (list Z))) :=
  match steps with
  | [] => Some c
  | (room, op) :: steps => c ← box_spec room op c; spec_run steps c
  end.

(** ** Bytes and layouts *)

Lemma file_bytes_length m p n : length (file_bytes m p n) = Z.to_nat n.
Proof. unfold file_bytes. by rewrite length_map, length_seqZ. Qed.

Lemma file_bytes_lookup m p n i : (i < Z.to_nat n)%nat -> file_bytes m p n !! i = Some (m (p + Z.of_nat i)).
Proof. intros Hi. unfold file_bytes. rewrite list_lookup_fmap, lookup_seqZ_lt by lia. done. Qed.

Lemma file_bytes_ext m m' p q n : (forall k, 0 <= k < n -> m' (q + k) = m (p + k)) -> file_bytes m' q n = file_bytes m p n.
Proof.
  intros Hm. apply list_eq_same_length with (Z.to_nat n); [apply file_bytes_length..|].
  intros i x y Hi. rewrite !file_bytes_lookup by done. intros [= <-] [= <-]. apply Hm. lia.
Qed.

Lemma file_bytes_fill m p n : file_bytes (mem_fill p n 0 m) p n = replicate (Z.to_nat n) 0.
Proof.
  apply list_eq_same_length with (Z.to_nat n); [apply length_replicate|apply file_bytes_length|].
  intros i x y Hi. rewrite file_bytes_lookup by done. intros [= <-] [-> _]%lookup_replicate. unfold mem_fill.
  by rewrite (proj2 (Z.leb_le _ _)), (proj2 (Z.ltb_lt _ _)) by lia.
Qed.

Lemma from_size_align_Some size align l : from_size_align size align = Some l ->
  l = mkLayout size align /\ is_power_of_two align = true /\ size + align <= 2 ^ 63.
Proof.
  unfold from_size_align, max_size_for_align. destruct (is_power_of_two align); [|done]. cbn [negb].
  destruct (Z.ltb_spec (2 ^ 63 - align) size); [done|]. intros [= <-]. split_and!; done || lia.
Qed.

Lemma layout_upgrade size ALIGN : layout_upgrade_align (mkLayout size 1) ALIGN = or_panic (from_size_align size (Z.max ALIGN 1)).
Proof.
  unfold layout_upgrade_align. cbn [lay_size lay_align]. do 2 f_equal. destruct (Z.ltb_spec 1 ALIGN); lia.
Qed.

Lemma size_fits_spec size ALIGN : if size_fits size ALIGN then exists l, from_size_align size (Z.max ALIGN 1) = Some l
  else from_size_align size (Z.max ALIGN 1) = None.
Proof.
  unfold size_fits. case_bool_decide as Hb; [by destruct Hb as [l Hl]; exists l|]. by apply eq_None_not_Some.
Qed.

(** A slice whose layout exists has an array layout. *)
Lemma layout_array_fits t len ALIGN l : 0 < size_of t -> from_size_align (size_of t * len) (Z.max ALIGN 1) = Some l ->
  layout_array t len = Some (mkLayout (size_of t * len) 1).
Proof.
  intros Ht (_ & _ & Hl)%from_size_align_Some. unfold layout_array, max_size_for_align.
  rewrite (proj2 (Z.ltb_ge _ _)); [by rewrite andb_false_r|]. apply Z.div_le_lower_bound; lia.
Qed.

Lemma size_of_nonneg t : 0 <= size_of t.
Proof. destruct t; cbn; lia. Qed.

Lemma layout_array_size t len : layout_array t len = None \/ layout_array t len = Some (mkLayout (size_of t * len) 1).
Proof. unfold layout_array. destruct (_ && _); auto. Qed.

Definition box_size (b : AlignedBox) : Z := lay_size (for_value (ab_type b)).

Lemma for_value_layout t : for_value t = mkLayout (lay_size (for_value t)) 1.
Proof. by destruct t. Qed.

Lemma layout_upgrade_value t ALIGN :
  layout_upgrade_align (for_value t) ALIGN = or_panic (from_size_align (lay_size (for_value t)) (Z.max ALIGN 1)).
Proof. by rewrite (for_value_layout t), layout_upgrade. Qed.

Lemma box_layout_size b l : box_layout b = Done l ->
  from_size_align (box_size b) (Z.max (ab_ALIGN b) 1) = Some l /\ l = mkLayout (box_size b) (Z.max (ab_ALIGN b) 1).
Proof.
  unfold box_layout. rewrite layout_upgrade_value. intros Hl%or_panic_Done. split; [done|].
  by apply from_size_align_Some in Hl as [-> _].
Qed.

Section Refine.
Context {H : Type} {G : GlobalAlloc H} {GS : GlobalAllocSpec H G}.
(** What others have allocated, and memory before the first box. *)
Context (foreign : gmap Z Layout) (m0 : memory).

Abbreviation boxed s i b := (bx_boxes s !! i = Some (Some b)).

(** Every box is an allocated block of its own, with the layout its drop will
    pass; there are no other blocks than these and those of others, whose bytes
    are as they were. *)
Record boxes_inv (s : BoxState H) : Prop := {
  bi_heap : ga_inv (bx_heap s);
  bi_box i b : boxed s i b -> 0 < box_size b /\
    exists l, box_layout b = Done l /\ ga_live (bx_heap s) !! ab_inner b = Some l;
  bi_inj i j b c : boxed s i b -> boxed s j c -> ab_inner b = ab_inner c -> i = j;
  bi_apart i b : boxed s i b -> foreign !! ab_inner b = None;
  bi_foreign p l : foreign !! p = Some l -> ga_live (bx_heap s) !! p = Some l;
  bi_exact p l : ga_live (bx_heap s) !! p = Some l -> foreign !! p = Some l \/ exists i b, boxed s i b /\ ab_inner b = p;
  bi_aligned i b : boxed s i b -> (Z.max (ab_ALIGN b) 1 | ab_inner b);
  bi_kept x : live_byte foreign x \/ ~ ga_space x -> bx_mem s x = m0 x
}.

Lemma box_live s i b k : boxes_inv s -> boxed s i b -> 0 <= k < box_size b -> live_byte (ga_live (bx_heap s)) (ab_inner b + k).
Proof.
  intros Hs Hb Hk. destruct (bi_box s Hs i b Hb) as (_ & l & Hl & Hp). exists (ab_inner b), l. split; [done|].
  apply box_layout_size in Hl as [_ ->]. cbn. lia.
Qed.

Lemma foreign_live s x : boxes_inv s -> live_byte foreign x -> live_byte (ga_live (bx_heap s)) x.
Proof. intros Hs (p & l & Hp & Hx). exists p, l. split; [by apply (bi_foreign s Hs)|done]. Qed.

(** Different boxes have different bytes, and none of others'. *)
Lemma boxes_apart s i j b c : boxes_inv s -> boxed s i b -> boxed s j c -> i <> j ->
  disjoint_blocks (ab_inner b) (box_size b) (ab_inner c) (box_size c).
Proof.
  intros Hs Hb Hc Hne. destruct (bi_box s Hs i b Hb) as (_ & l & Hl & Hp). destruct (bi_box s Hs j c Hc) as (_ & l' & Hl' & Hp').
  apply box_layout_size in Hl as [_ ->]. apply box_layout_size in Hl' as [_ ->].
  apply (ga_live_apart (bx_heap s) _ _ _ _ (bi_heap s Hs) Hp Hp').
  intros E. apply Hne. by eapply bi_inj.
Qed.

Lemma box_foreign_apart s i b x : boxes_inv s -> boxed s i b -> ab_inner b <= x < ab_inner b + box_size b ->
  ~ (live_byte foreign x \/ ~ ga_space x).
Proof.
  intros Hs Hb Hx [(p & l & Hp & Hx')|Hsp].
  - destruct (bi_box s Hs i b Hb) as (_ & l' & Hl' & Hp'). apply box_layout_size in Hl' as [_ ->].
    pose proof (bi_foreign s Hs _ _ Hp) as Hlive.
    destruct (ga_live_apart (bx_heap s) _ _ _ _ (bi_heap s Hs) Hp' Hlive) as [Hd|Hd]; [|cbn in Hd; lia..].
    intros E. pose proof (bi_apart s Hs i b Hb). congruence.
  - apply Hsp. apply (ga_live_space (bx_heap s)); [apply Hs|].
    replace x with (ab_inner b + (x - ab_inner b)) by lia. eapply box_live; [done..|lia].
Qed.

(** Another entry at the end, and no change in the bytes of the boxes before it. *)
Lemma contents_snoc (s : BoxState H) (h : H) m o :
  (forall i b k, boxed s i b -> 0 <= k < box_size b -> m (ab_inner b + k) = bx_mem s (ab_inner b + k)) ->
  contents (mkBoxState h m (bx_boxes s ++ [o])) = contents s ++ [view m o].
Proof.
  intros Hm. unfold contents. cbn [bx_mem bx_boxes]. rewrite fmap_app. f_equal. apply list_fmap_ext. intros i [b|] Hb; [|done]. cbn [view]. f_equal.
  apply file_bytes_ext. intros k Hk. by eapply Hm.
Qed.

Lemma insert_snoc {A} (l : list A) x y n : n = length l -> <[n := y]> (l ++ [x]) = l ++ [y].
Proof. intros ->. rewrite insert_app_r_alt by lia. by rewrite Nat.sub_diag. Qed.

Lemma lookup_snoc {A} (l : list A) x i y : (l ++ [x]) !! i = Some y <-> l !! i = Some y \/ i = length l /\ y = x.
Proof.
  rewrite lookup_app_Some. split; (intros [Hl|Hr]; [by left|right]).
  - destruct Hr as [Hi Hr]. apply list_lookup_singleton_Some in Hr as [? ->]. split; [lia|done].
  - destruct Hr as [-> ->]. split; [lia|]. by rewrite Nat.sub_diag.
Qed.

Lemma boxed_snoc (s : BoxState H) (h : H) m o i b : boxed (mkBoxState h m (bx_boxes s ++ [o])) i b <->
  boxed s i b \/ i = length (bx_boxes s) /\ o = Some b.
Proof. cbn [bx_boxes]. rewrite lookup_snoc. split; (intros [Hb|[-> E]]; [by left|by right]). Qed.

(** Memory and heap changed, but nothing in use is. *)
Lemma boxes_inv_none s h m : boxes_inv s -> ga_inv h -> ga_live h = ga_live (bx_heap s) ->
  (forall x, live_byte foreign x \/ ~ ga_space x -> m x = bx_mem s x) ->
  boxes_inv (mkBoxState h m (bx_boxes s ++ [None])).
Proof.
  intros [I1 I2 I3 I4 I5 I6 I7 I8] Hi Hlive Hm.
  assert (E : forall i b, boxed (mkBoxState h m (bx_boxes s ++ [None])) i b <-> boxed s i b).
  { intros i b. rewrite boxed_snoc. split; [intros [Hb|[_ [=]]]; done|by left]. }
  split; cbn [bx_heap bx_mem]; rewrite ?Hlive; try done.
  - intros i b Hb%E. by apply (I2 i).
  - intros i j b c Hb%E Hc%E. by apply I3.
  - intros i b Hb%E. by apply (I4 i).
  - intros p l Hp. destruct (I6 p l Hp) as [Hf|(i & b & Hb & Ep)]; [by left|right]. exists i, b. by rewrite E.
  - intros i b Hb%E. by apply (I7 i).
  - intros x Hx. rewrite Hm by done. by apply I8.
Qed.

(** A new block, for a new box. *)
Lemma boxes_inv_some s h m b l : boxes_inv s -> ga_inv h -> box_layout b = Done l -> 0 < box_size b ->
  ga_live (bx_heap s) !! ab_inner b = None -> ga_live h = <[ab_inner b := l]> (ga_live (bx_heap s)) ->
  (Z.max (ab_ALIGN b) 1 | ab_inner b) ->
  (forall x, live_byte foreign x \/ ~ ga_space x -> m x = bx_mem s x) ->
  boxes_inv (mkBoxState h m (bx_boxes s ++ [Some b])).
Proof.
  intros [I1 I2 I3 I4 I5 I6 I7 I8] Hi Hl Hpos Hnone Hlive Hal Hm.
  assert (Hne : forall i c, boxed s i c -> ab_inner c <> ab_inner b).
  { intros i c Hc E. destruct (I2 i c Hc) as (_ & l' & _ & Hp). congruence. }
  split; cbn [bx_heap bx_mem]; rewrite ?Hlive; try done.
  - intros i c [Hc|[-> [= <-]]]%boxed_snoc.
    + destruct (I2 i c Hc) as (Hc0 & l' & Hl' & Hp). split; [done|]. exists l'. split; [done|].
      rewrite lookup_insert_ne; [done|]. intros E. by apply (Hne i c).
    + split; [done|]. exists l. by rewrite lookup_insert_eq.
  - intros i j c d [Hc|[-> [= <-]]]%boxed_snoc [Hd|[-> [= <-]]]%boxed_snoc E; try done; [by eapply I3| |].
    + by destruct (Hne i c Hc).
    + by destruct (Hne j d Hd).
  - intros i c [Hc|[-> [= <-]]]%boxed_snoc; [by apply (I4 i)|]. destruct (foreign !! ab_inner b) eqn:Ef; [|done].
    apply I5 in Ef. congruence.
  - intros p l' Hp. rewrite lookup_insert_ne; [by apply I5|]. intros <-. apply I5 in Hp. congruence.
  - intros p l' [[<- <-]|[_ Hp]]%lookup_insert_Some.
    + right. exists (length (bx_boxes s)), b. split; [|done]. apply boxed_snoc. by right.
    + destruct (I6 p l' Hp) as [Hf|(i & c & Hc & Ep)]; [by left|right]. exists i, c. split; [|done]. apply boxed_snoc. by left.
  - intros i c [Hc|[-> [= <-]]]%boxed_snoc; [by apply (I7 i)|done].
  - intros x Hx. rewrite Hm by done. by apply I8.
Qed.

(** Memory changed in the bytes of one box. *)
Lemma write_box s i b m : boxes_inv s -> boxed s i b ->
  (forall x, x < ab_inner b \/ ab_inner b + box_size b <= x -> m x = bx_mem s x) ->
  let s' := mkBoxState (bx_heap s) m (bx_boxes s) in
  boxes_inv s' /\ contents s' = <[i := Some (deref b m)]> (contents s).
Proof.
  intros Hs Hb Hm s'. split.
  - pose proof Hs as [I1 I2 I3 I4 I5 I6 I7 I8]. split; try done. intros x Hx. cbn [s' bx_mem].
    rewrite Hm; [by apply I8|]. destruct (Z.lt_ge_cases x (ab_inner b)), (Z.lt_ge_cases x (ab_inner b + box_size b)); try lia.
    by destruct (box_foreign_apart s i b x Hs Hb ltac:(lia)).
  - apply list_eq. intros j. unfold contents. cbn [s' bx_mem bx_boxes]. destruct (decide (i = j)) as [<-|Hne].
    + rewrite list_lookup_insert_eq by (rewrite length_fmap; by eapply lookup_lt_Some). by rewrite list_lookup_fmap, Hb.
    + rewrite list_lookup_insert_ne, !list_lookup_fmap by done. destruct (bx_boxes s !! j) as [[c|]|] eqn:Hc; [|done..]. cbn.
      do 2 f_equal. apply file_bytes_ext. intros k Hk. apply Hm.
      destruct (boxes_apart s i j b c Hs Hb Hc Hne); unfold box_size in *; lia.
Qed.

(** Asking for a block and putting the box, or nothing, behind the others. *)
Lemma alloc_box s ty ALIGN l : boxes_inv s -> 0 < lay_size (for_value ty) ->
  from_size_align (lay_size (for_value ty)) (Z.max ALIGN 1) = Some l ->
  exists p h m, alloc_zeroed l (bx_heap s) (bx_mem s) = Done (p, h, m) /\
    let b := if p =? 0 then None else Some (mkBox p ty ALIGN) in
    let s' := mkBoxState h m (bx_boxes s ++ [b]) in
    boxes_inv s' /\
    contents s' = contents s ++ [if p =? 0 then None else Some (replicate (Z.to_nat (lay_size (for_value ty))) 0)].
Proof.
  intros Hs Hpos Hl. pose proof (from_size_align_Some _ _ _ Hl) as (El & _ & _). set (n := lay_size (for_value ty)) in *.
  destruct (ga_alloc_spec (bx_heap s) (bx_mem s) n _ l (bi_heap s Hs) Hpos Hl) as (p & h & m & E & Hi & Hm & Hp).
  unfold alloc_zeroed. rewrite E, Done_bind. cbv beta iota.
  assert (Hold : forall i b k, boxed s i b -> 0 <= k < box_size b -> m (ab_inner b + k) = bx_mem s (ab_inner b + k)).
  { intros i b k Hb Hk. apply Hm. left. by eapply box_live. }
  assert (Hkept : forall x, live_byte foreign x \/ ~ ga_space x -> m x = bx_mem s x).
  { intros x Hx. apply Hm. destruct Hx; [left; by apply foreign_live|by right]. }
  destruct Hp as [[-> Hlive]|(Hp0 & Hal & Hnone & Hlive)].
  { exists 0, h, m. split; [done|]. cbn [Z.eqb]. cbv zeta. split; [by apply boxes_inv_none|].
    by rewrite (contents_snoc s). }
  exists p, h, (mem_fill p n 0 m). rewrite (proj2 (Z.eqb_neq p 0)) by lia. cbv zeta. split; [by rewrite El|].
  set (b := mkBox p ty ALIGN). change (ab_inner b) with p in *.
  assert (Hb : boxes_inv (mkBoxState h m (bx_boxes s ++ [Some b]))).
  { apply (boxes_inv_some s h m b l); try done. unfold box_layout. cbn [b ab_type ab_ALIGN]. rewrite layout_upgrade_value. fold n. by rewrite Hl. }
  assert (Hin : boxed (mkBoxState h m (bx_boxes s ++ [Some b])) (length (bx_boxes s)) b) by (apply boxed_snoc; by right).
  destruct (write_box _ _ b (mem_fill p n 0 m) Hb Hin) as [Hinv Hc].
  { intros x Hx. by apply mem_fill_outside. }
  split; [exact Hinv|]. cbn [bx_heap bx_boxes] in Hc. rewrite Hc. unfold deref. cbn [b ab_inner ab_type]. fold n. rewrite file_bytes_fill.
  rewrite (contents_snoc s) by done. apply insert_snoc. unfold contents. by rewrite length_fmap.
Qed.

(** ** Each operation *)

(** How a step and its specification agree. *)
Definition agrees (r : outcome (BoxState H)) (c : option (list (option (list Z)))) : Prop :=
  match r, c with
  | Done s, Some c => boxes_inv s /\ contents s = c
  | Panic, None => True
  | _, _ => False
  end.

Lemma new_agrees s ty ALIGN : boxes_inv s -> 0 < lay_size (for_value ty) -> exists room,
  agrees (layout ← layout_upgrade_align (for_value ty) ALIGN;
          '(ptr, h, m) ← alloc_zeroed layout (bx_heap s) (bx_mem s);
          Done (mkBoxState h m (bx_boxes s ++ [if ptr =? 0 then None else Some (mkBox ptr ty ALIGN)])))
    (new_content room (lay_size (for_value ty)) ALIGN (contents s)).
Proof.
  intros Hs Hpos. unfold new_content. pose proof (size_fits_spec (lay_size (for_value ty)) ALIGN) as Hf.
  rewrite layout_upgrade_value. destruct (size_fits _ _); [|exists true; by rewrite Hf].
  destruct Hf as [l Hl]. rewrite Hl. cbn [or_panic]. rewrite Done_bind.
  destruct (alloc_box s ty ALIGN l Hs Hpos Hl) as (p & h & m & -> & Hs' & Hc). rewrite Done_bind. cbv beta iota.
  exists (negb (p =? 0)). cbv zeta in Hs', Hc. split; [exact Hs'|]. rewrite Hc. by destruct (p =? 0).
Qed.

Lemma zeroed_agrees s t ALIGN : boxes_inv s -> 0 < size_of t -> exists room,
  agrees (box_step s (BoxNew t ALIGN)) (box_spec room (BoxNew t ALIGN) (contents s)).
Proof.
  intros Hs Hpos. destruct (new_agrees s (Sized t) ALIGN Hs Hpos) as [room Ha]. exists room. destruct s as [h m boxes].
  cbn [box_step box_spec bx_heap bx_mem bx_boxes for_value] in *. unfold try_zeroed. revert Ha.
  destruct (layout_upgrade_align (layout_new t) ALIGN) as [l| |]; [|done..]. rewrite !Done_bind.
  destruct (alloc_zeroed l h m) as [[[p h'] m']| |]; [|done..]. rewrite !Done_bind. cbv beta iota.
  by destruct (p =? 0).
Qed.

Lemma zeroed_slice_agrees s t ALIGN len : boxes_inv s -> 0 < size_of t -> 0 < len -> exists room,
  agrees (box_step s (BoxNewSlice t ALIGN len)) (box_spec room (BoxNewSlice t ALIGN len) (contents s)).
Proof.
  intros Hs Hpos Hlen. destruct (new_agrees s (Slice t len) ALIGN Hs ltac:(cbn; lia)) as [room Ha]. exists room. destruct s as [h m boxes].
  cbn [box_step box_spec bx_heap bx_mem bx_boxes for_value lay_size] in *. unfold try_zeroed_slice.
  assert (Hf : layout_array t len = Some (mkLayout (size_of t * len) 1) \/
    layout_array t len = None /\ layout_upgrade_align (mkLayout (size_of t * len) 1) ALIGN = Panic).
  { destruct (layout_array_size t len) as [E|E]; [right|by left]. split; [done|]. rewrite layout_upgrade.
    destruct (from_size_align _ _) eqn:El; [|done]. apply layout_array_fits in El; [congruence|done]. }
  destruct Hf as [->|[-> E]]; [|by rewrite E in Ha]. cbn [or_panic]. rewrite Done_bind. revert Ha.
  destruct (layout_upgrade_align _ ALIGN) as [l| |]; [|done..]. rewrite !Done_bind.
  destruct (alloc_zeroed l h m) as [[[p h'] m']| |]; [|done..]. rewrite !Done_bind. cbv beta iota.
  by destruct (p =? 0).
Qed.

Lemma contents_at (s : BoxState H) i : contents s !! i = view (bx_mem s) <$> bx_boxes s !! i.
Proof. unfold contents. by rewrite list_lookup_fmap. Qed.

Lemma deref_length b m : length (deref b m) = Z.to_nat (box_size b).
Proof. apply file_bytes_length. Qed.

Lemma deref_write b m k v : 0 <= k < box_size b -> deref b (mem_write (ab_inner b + k) [v] m) = <[Z.to_nat k := v]> (deref b m).
Proof.
  intros Hk. apply list_eq_same_length with (Z.to_nat (box_size b)); [by rewrite length_insert, deref_length|by rewrite deref_length|].
  intros i x y Hi. unfold deref. rewrite file_bytes_lookup by done. intros [= <-].
  destruct (decide (i = Z.to_nat k)) as [->|Hne].
  - rewrite list_lookup_insert_eq by (rewrite file_bytes_length; done). intros [= <-].
    unfold mem_write. rewrite (proj2 (Z.leb_le _ _)), (proj2 (Z.ltb_lt _ _)) by (cbn; lia). cbn [andb]. by replace (Z.to_nat _) with 0%nat by lia.
  - rewrite list_lookup_insert_ne, file_bytes_lookup by done. intros [= <-].
    apply mem_write_outside. cbn. lia.
Qed.

Lemma set_agrees s i b k v : boxes_inv s -> boxed s i b ->
  agrees (m ← deref_set b k v (bx_mem s); Done (mkBoxState (bx_heap s) m (bx_boxes s)))
    (if (0 <=? k) && (k <? Z.of_nat (length (deref b (bx_mem s)))) then Some (<[i := Some (<[Z.to_nat k := v]> (deref b (bx_mem s)))]> (contents s)) else None).
Proof.
  intros Hs Hb. unfold deref_set. destruct (bi_box s Hs i b Hb) as (Hpos & _). fold (box_size b).
  rewrite deref_length, Z2Nat.id by lia. destruct ((0 <=? k) && (k <? box_size b)) eqn:Hk; [|done].
  cbn [rassert]. rewrite !Done_bind. apply andb_true_iff in Hk as [H1%Z.leb_le H2%Z.ltb_lt].
  rewrite <- deref_write by done. apply write_box; [done..|]. intros x Hx. apply mem_write_outside. cbn. lia.
Qed.

Lemma boxed_remove (s : BoxState H) i (h : H) m j c : boxed (mkBoxState h m (<[i := None]> (bx_boxes s))) j c <-> boxed s j c /\ j <> i.
Proof.
  cbn [bx_boxes]. rewrite list_lookup_insert_Some. split; [intros [(_ & [=] & _)|[Hne Hc]]; by split|].
  intros [Hc Hne]. by right.
Qed.

(** A block given back with its layout. *)
Lemma drop_agrees s i b : boxes_inv s -> boxed s i b ->
  agrees ('(h, m) ← box_drop b (bx_heap s) (bx_mem s); Done (mkBoxState h m (<[i := None]> (bx_boxes s))))
    (Some (<[i := None]> (contents s))).
Proof.
  intros Hs Hb. pose proof Hs as [I1 I2 I3 I4 I5 I6 I7 I8]. destruct (I2 i b Hb) as (Hpos & l & Hl & Hp). unfold box_drop.
  rewrite Hl, Done_bind. destruct (ga_dealloc_spec (bx_heap s) (bx_mem s) _ l I1 Hp) as (h & m & -> & Hi & Hlive & Hm).
  rewrite Done_bind. cbv beta iota. cbn [agrees].
  assert (Hkeep : forall p l', ga_live h !! p = Some l' <-> ga_live (bx_heap s) !! p = Some l' /\ p <> ab_inner b).
  { intros p l'. rewrite Hlive, lookup_delete_Some. split; intros [??]; split; congruence. }
  assert (Hold : forall j c, boxed s j c -> j <> i -> ab_inner c <> ab_inner b) by (intros j c Hc Hne E; apply Hne; by eapply I3).
  assert (Hfor : forall p l', foreign !! p = Some l' -> p <> ab_inner b) by (intros p l' Hf ->; rewrite (I4 i b Hb) in Hf; done).
  split; [split; cbn [bx_heap bx_mem]|].
  - done.
  - intros j c [Hc Hne]%boxed_remove. destruct (I2 j c Hc) as (Hc0 & l' & Hl' & Hp'). split; [done|]. exists l'. split; [done|].
    apply Hkeep. split; [done|]. by apply (Hold j).
  - intros j k c d [Hc _]%boxed_remove [Hd _]%boxed_remove. by apply I3.
  - intros j c [Hc _]%boxed_remove. by apply (I4 j).
  - intros p l' Hf. apply Hkeep. split; [by apply I5|by eapply Hfor].
  - intros p l' [Hp' Hne]%Hkeep. destruct (I6 p l' Hp') as [Hf|(j & c & Hc & E)]; [by left|right]. exists j, c.
    split; [|done]. apply boxed_remove. split; [done|]. intros ->. rewrite Hb in Hc. injection Hc as <-. done.
  - intros j c [Hc _]%boxed_remove. by apply (I7 j).
  - intros x Hx. rewrite Hm; [by apply I8|]. destruct Hx as [(p & l' & Hf & Hx)|]; [left|by right]. exists p, l'. split; [|done].
    apply Hkeep. split; [by apply I5|by eapply Hfor].
  - apply list_eq. intros j. rewrite contents_at. cbn [bx_boxes bx_mem]. destruct (decide (i = j)) as [<-|Hne].
    + rewrite !list_lookup_insert_eq; [done|unfold contents; rewrite length_fmap|]; by eapply lookup_lt_Some.
    + rewrite !list_lookup_insert_ne, contents_at by done. destruct (bx_boxes s !! j) as [[c|]|] eqn:Hc; [|done..]. cbn. do 2 f_equal.
      apply file_bytes_ext. intros k Hk. apply Hm. left. destruct (I2 j c Hc) as (_ & l' & Hl' & Hp').
      exists (ab_inner c), l'. split; [apply Hkeep; split; [done|]; apply (Hold j); done|].
      apply box_layout_size in Hl' as [_ ->]. unfold box_size. cbn. lia.
Qed.

(** ** Cloning *)

(** [m'] is [m] with [n] bytes copied. *)
Definition copied (src dst n : Z) (m m' : memory) : Prop :=
  (forall k, 0 <= k < n -> m' (dst + k) = m (src + k)) /\ (forall x, x < dst \/ dst + n <= x -> m' x = m x).

Lemma mem_copy_copied src dst n m : copied src dst n m (mem_copy src dst n m).
Proof.
  unfold copied, mem_copy. split; intros x Hx.
  - rewrite (proj2 (Z.leb_le _ _)), (proj2 (Z.ltb_lt _ _)) by lia. cbn. f_equal. lia.
  - destruct (Z.leb_spec dst x), (Z.ltb_spec x (dst + n)); cbn; done || (exfalso; lia).
Qed.

(** Copying the elements of a slice one by one copies the slice. *)
Lemma clone_loop b new t n : 0 < size_of t -> forall m,
  disjoint_blocks (ab_inner b) (size_of t * Z.of_nat n) (ab_inner new) (size_of t * Z.of_nat n) ->
  exists m', foldM (clone_element b new t) m (seqZ 0 (Z.of_nat n)) = Done m' /\
    copied (ab_inner b) (ab_inner new) (size_of t * Z.of_nat n) m m'.
Proof.
  intros Ht. induction n as [|n IH]; intros m Hd.
  { exists m. split; [done|]. split; [lia|done]. }
  rewrite seqZ_S, foldM_app. rewrite Nat2Z.inj_succ, Z.mul_succ_r in *. destruct (IH m) as (m1 & E & C1 & C2); [unfold disjoint_blocks in *; lia|].
  rewrite E, Done_bind. cbn [foldM]. unfold clone_element. rewrite !Done_bind. eexists. split; [done|].
  rewrite Z.add_0_l. set (o := size_of t * Z.of_nat n) in *. assert (0 <= o) by lia.
  destruct (mem_copy_copied (ab_inner b + o) (ab_inner new + o) (size_of t) m1) as [D1 D2]. split.
  - intros k Hk. destruct (Z.lt_ge_cases k o).
    + rewrite D2 by lia. apply C1. lia.
    + replace (ab_inner new + k) with (ab_inner new + o + (k - o)) by lia. rewrite D1 by lia.
      rewrite C2 by (unfold disjoint_blocks in Hd; lia). f_equal. lia.
  - intros x Hx. rewrite D2, C2 by lia. done.
Qed.

(** [clone] when the block is granted, and when it is not. *)
Lemma box_clone_runs b l (h h' : H) m m' p : box_layout b = Done l -> 0 < box_size b ->
  alloc_zeroed l h m = Done (p, h', m') -> p <> 0 -> disjoint_blocks (ab_inner b) (box_size b) p (box_size b) ->
  exists m'', box_clone b h m = Done (mkBox p (ab_type b) (ab_ALIGN b), h', m'') /\ copied (ab_inner b) p (box_size b) m' m''.
Proof.
  unfold box_layout, box_clone, box_size. destruct b as [q [t|t len] ALIGN]; cbn [ab_type ab_inner ab_ALIGN for_value lay_size layout_new].
  - intros Hl Hpos E Hp Hd. unfold try_zeroed. rewrite Hl, Done_bind, E, Done_bind. cbv beta iota. rewrite (proj2 (Z.eqb_neq p 0)) by done.
    rewrite Done_bind. cbv beta iota. cbn [or_panic]. rewrite Done_bind. eexists. split; [done|]. apply mem_copy_copied.
  - intros Hl Hpos E Hp Hd. pose proof (size_of_nonneg t). assert (Ht : 0 < size_of t) by (destruct (Z.eq_dec (size_of t) 0) as [E0|]; [rewrite E0 in Hpos|]; lia). unfold try_zeroed_slice.
    assert (Ha : layout_array t len = Some (mkLayout (size_of t * len) 1)).
    { rewrite layout_upgrade in Hl. apply or_panic_Done in Hl. by eapply layout_array_fits. }
    rewrite Ha. cbn [or_panic]. rewrite Done_bind, Hl, Done_bind, E, Done_bind. cbv beta iota. rewrite (proj2 (Z.eqb_neq p 0)) by done.
    rewrite Done_bind. cbv beta iota. cbn [or_panic]. rewrite Done_bind. assert (Hlen : 0 < len) by nia.
    destruct (clone_loop (mkBox q (Slice t len) ALIGN) (mkBox p (Slice t len) ALIGN) t (Z.to_nat len) Ht m') as (m'' & E' & C);
      rewrite ?Z2Nat.id in * by lia; [exact Hd|].
    rewrite E', Done_bind. by exists m''.
Qed.

Lemma box_clone_fails b l (h h' : H) m m' : box_layout b = Done l ->
  alloc_zeroed l h m = Done (0, h', m') -> box_clone b h m = Panic.
Proof.
  unfold box_layout, box_clone. destruct b as [q [t|t len] ALIGN]; cbn [ab_type ab_inner ab_ALIGN for_value layout_new].
  - intros Hl E. unfold try_zeroed. by rewrite Hl, Done_bind, E, Done_bind.
  - intros Hl E. unfold try_zeroed_slice.
    destruct (layout_array_size t len) as [Ha|Ha]; rewrite Ha; [done|]. cbn [or_panic]. by rewrite Done_bind, Hl, Done_bind, E, Done_bind.
Qed.

Lemma clone_agrees s i b : boxes_inv s -> boxed s i b -> exists room,
  agrees ('(b', h, m) ← box_clone b (bx_heap s) (bx_mem s); Done (mkBoxState h m (bx_boxes s ++ [Some b'])))
    (if (room : bool) then Some (contents s ++ [Some (deref b (bx_mem s))]) else None).
Proof.
  intros Hs Hb. destruct (bi_box s Hs i b Hb) as (Hpos & l & Hl & _). destruct (box_layout_size b l Hl) as [Hfs _].
  destruct (alloc_box s (ab_type b) (ab_ALIGN b) l Hs Hpos Hfs) as (p & h & m & E & Hs' & Hc). cbv zeta in Hs', Hc.
  exists (negb (p =? 0)). destruct (Z.eqb_spec p 0) as [->|Hp]; cbn [negb].
  { rewrite (box_clone_fails b l _ h _ m Hl E). done. }
  set (new := mkBox p (ab_type b) (ab_ALIGN b)) in *. set (s1 := mkBoxState h m (bx_boxes s ++ [Some new])) in *.
  assert (Hb1 : boxed s1 i b) by (apply boxed_snoc; by left).
  assert (Hn1 : boxed s1 (length (bx_boxes s)) new) by (apply boxed_snoc; by right).
  assert (Hne : i <> length (bx_boxes s)) by (apply lookup_lt_Some in Hb; lia).
  destruct (box_clone_runs b l _ h _ m p Hl Hpos E Hp (boxes_apart s1 i _ b new Hs' Hb1 Hn1 Hne)) as (m' & -> & C1 & C2).
  rewrite Done_bind. cbv beta iota. fold new.
  destruct (write_box s1 _ new m' Hs' Hn1) as [Hinv Hcon]; [exact C2|]. split; [exact Hinv|]. cbn [s1 bx_heap bx_boxes] in Hcon.
  rewrite Hcon. change (mkBoxState h m (bx_boxes s ++ [Some new])) with s1. rewrite Hc.
  rewrite insert_snoc by (unfold contents; by rewrite length_fmap). do 3 f_equal.
  assert (Hold : contents s1 !! i = contents s !! i) by (rewrite Hc; apply lookup_app_l; unfold contents; rewrite length_fmap; by eapply lookup_lt_Some).
  rewrite !contents_at, Hb, Hb1 in Hold. cbn in Hold. injection Hold as <-. apply file_bytes_ext. exact C1.
Qed.

(** ** Runs *)

Lemma step_agrees s op : boxes_inv s -> op_sized op -> exists room, agrees (box_step s op) (box_spec room op (contents s)).
Proof.
  intros Hs Ho. destruct op as [t a|t a len|i k v|i|i]; cbn [op_sized] in Ho; [by apply zeroed_agrees|by apply zeroed_slice_agrees; destruct Ho|..].
  all: cbn [box_spec]; rewrite contents_at; destruct s as [h m boxes] eqn:Es; cbn [box_step bx_boxes bx_mem]; rewrite <- Es in *.
  all: destruct (boxes !! i) as [[b|]|] eqn:Hb; cbn; try (by exists true).
  - exists true. pose proof (set_agrees s i b k v) as Ha. subst s. by apply Ha.
  - pose proof (clone_agrees s i b) as Ha. subst s. by apply Ha.
  - exists true. pose proof (drop_agrees s i b) as Ha. subst s. by apply Ha.
Qed.

Lemma run_agrees ops : forall s, boxes_inv s -> Forall op_sized ops -> exists rooms,
  length rooms = length ops /\ agrees (foldM box_step s ops) (spec_run (zip rooms ops) (contents s)).
Proof.
  induction ops as [|op ops IH]; intros s Hs Ho; [by exists []|].
  apply Forall_cons in Ho as [Ho Hops]. destruct (step_agrees s op Hs Ho) as [room Ha]. cbn [foldM].
  destruct (box_step s op) as [s'| |], (box_spec room op (contents s)) as [c|] eqn:Ec; try done.
  - destruct Ha as [Hs' <-]. destruct (IH s' Hs' Hops) as (rooms & Hl & Hr). exists (room :: rooms). split; [cbn; by f_equal|].
    cbn [zip zip_with spec_run]. by rewrite Ec, Done_bind.
  - exists (room :: replicate (length ops) true). split; [cbn; by rewrite length_replicate|]. cbn [zip zip_with spec_run]. by rewrite Ec.
Qed.
End Refine.

Section Boxes_correct.
Context {H : Type} {G : GlobalAlloc H} {GS : GlobalAllocSpec H G}.

Lemma no_boxes (h : H) m : ga_inv h -> boxes_inv (ga_live h) m (mkBoxState h m []).
Proof. intros Hi. split; cbn; try done. intros p l Hp. by left. Qed.

(** C15. Aligned boxes on any heap that keeps the contract of [GlobalAlloc]: a
    program that makes, writes, clones and drops boxes behaves as if the boxes
    were values, new ones zeroed and clones independent of their originals.  It
    panics only for an alignment that is no power of two or a size no layout has,
    an index out of range, or a clone without memory.  Every box is aligned, what
    others allocated stays allocated and unchanged, and when all boxes are
    dropped the heap has exactly the blocks it had before, so each was given
    back with the layout it was allocated with. *)
Theorem boxes_refine (h : H) (m : memory) (ops : list BoxOp) : ga_inv h -> Forall op_sized ops ->
  exists rooms, length rooms = length ops /\
    match foldM box_step (mkBoxState h m []) ops, spec_run (zip rooms ops) [] with
    | Done s, Some c =>
        contents s = c /\
        (forall i b, bx_boxes s !! i = Some (Some b) -> (Z.max (ab_ALIGN b) 1 | ab_inner b)) /\
        (forall p l, ga_live h !! p = Some l -> ga_live (bx_heap s) !! p = Some l) /\
        (forall x, live_byte (ga_live h) x \/ ~ ga_space x -> bx_mem s x = m x) /\
        (Forall (fun o => o = None) (bx_boxes s) -> ga_live (bx_heap s) = ga_live h)
    | Panic, None => True
    | _, _ => False
    end.
Proof.
  intros Hi Ho. destruct (run_agrees (ga_live h) m ops _ (no_boxes h m Hi) Ho) as (rooms & Hl & Ha). exists rooms. split; [done|].
  cbn in Ha. destruct (foldM _ _ _) as [s| |], (spec_run _ _) as [c|]; try done. destruct Ha as [[I1 I2 I3 I4 I5 I6 I7 I8] Hc].
  split_and!; try done. intros Hnone. apply map_eq. intros p. destruct (ga_live h !! p) as [l|] eqn:Hp; [by apply I5|].
  destruct (ga_live (bx_heap s) !! p) as [l|] eqn:Hp'; [|done]. destruct (I6 p l Hp') as [Hf|(i & b & Hb & _)]; [congruence|].
  rewrite Forall_lookup in Hnone. by apply Hnone in Hb.
Qed.
End Boxes_correct.

(** ** An instance: an allocator that goes upwards and overwrites what it hands
    out and gets back *)

Record BumpHeap : Type := mkBump { bh_next : Z; bh_live : gmap Z Layout }.

Definition BUMP_LO : Z := 0x1000.
Definition BUMP_HI : Z := 0x9000.

Definition bump_place (next align : Z) : Z := (next + align - 1) / align * align.

#[local] Instance bump_alloc : GlobalAlloc BumpHeap := {|
  ga_alloc l h m :=
    let p := bump_place (bh_next h) (lay_align l) in
    if p + lay_size l <=? BUMP_HI then
      Done (p, mkBump (p + lay_size l) (<[p := l]> (bh_live h)), mem_fill p (lay_size l) 0xcd m)
    else Done (0, h, m);
  ga_dealloc p l h m := Done (mkBump (bh_next h) (delete p (bh_live h)), mem_fill p (lay_size l) 0xdd m)
|}.

Record bump_inv (h : BumpHeap) : Prop := {
  bu_next : BUMP_LO <= bh_next h;
  bu_block p l : bh_live h !! p = Some l -> BUMP_LO <= p /\ 0 < lay_size l /\ p + lay_size l <= bh_next h /\ p + lay_size l <= BUMP_HI;
  bu_apart p q l l' : bh_live h !! p = Some l -> bh_live h !! q = Some l' -> p <> q -> disjoint_blocks p (lay_size l) q (lay_size l')
}.

Lemma bump_place_ok next align : 0 < align -> next <= bump_place next align /\ (align | bump_place next align).
Proof.
  intros Ha. unfold bump_place. split; [|by apply Z.divide_factor_r].
  pose proof (Z.div_mod (next + align - 1) align ltac:(lia)). pose proof (Z.mod_pos_bound (next + align - 1) align Ha). lia.
Qed.

#[local] Program Instance bump_spec : GlobalAllocSpec BumpHeap bump_alloc := {|
  ga_inv := bump_inv;
  ga_live := bh_live;
  ga_space x := BUMP_LO <= x < BUMP_HI
|}.
Next Obligation. intros h x [_ Hb _] (p & l & Hp & Hx). destruct (Hb p l Hp). lia. Qed.
Next Obligation. intros h p q l l' Hh. apply Hh. Qed.
Next Obligation.
  intros h m size align l Hh Hs (-> & Hpow & _)%from_size_align_Some. pose proof Hh as [Hn Hb Ha]. unfold is_power_of_two in Hpow.
  apply andb_true_iff in Hpow as [Hpos%Z.ltb_lt _]. destruct (bump_place_ok (bh_next h) align Hpos) as [Hle Hdiv].
  cbn [ga_alloc bump_alloc lay_size lay_align]. set (p := bump_place (bh_next h) align) in *.
  destruct (Z.leb_spec (p + size) BUMP_HI) as [Hfit|Hfull].
  2: { exists 0, h, m. split; [done|]. split; [done|]. split; [done|by left]. }
  assert (Hnone : bh_live h !! p = None). { destruct (bh_live h !! p) eqn:E; [|done]. apply Hb in E. lia. }
  exists p, (mkBump (p + size) (<[p := mkLayout size align]> (bh_live h))), (mem_fill p size 0xcd m). split; [done|]. split; [split; cbn [bh_next bh_live]|split].
  - lia.
  - intros q l [[<- <-]|[_ Hq]]%lookup_insert_Some; cbn; [lia|]. destruct (Hb q l Hq). lia.
  - intros q r l l' [[<- <-]|[Hq Hq']]%lookup_insert_Some [[<- <-]|[Hr Hr']]%lookup_insert_Some Hne; try done; unfold disjoint_blocks; cbn.
    + right. destruct (Hb r l' Hr'). lia.
    + left. destruct (Hb q l Hq'). lia.
    + by apply Ha.
  - intros x Hx. apply mem_fill_outside. destruct Hx as [(q & l & Hq & Hx)|Hx]; [destruct (Hb q l Hq)|]; lia.
  - right. unfold BUMP_LO in *. split_and!; done || lia.
Qed.
Next Obligation.
  intros h m p l [Hn Hb Ha] Hp. eexists _, _. split; [done|]. destruct (Hb p l Hp) as (B1 & B2 & B3 & B4). split; [split; cbn [bh_next bh_live]|split; [done|]].
  - done.
  - intros q l' [_ Hq]%lookup_delete_Some. by apply Hb.
  - intros q r l1 l2 [_ Hq]%lookup_delete_Some [_ Hr]%lookup_delete_Some. by apply Ha.
  - intros x Hx. apply mem_fill_outside. cbn [bh_live] in Hx.
    destruct Hx as [(q & l' & [Hne Hq]%lookup_delete_Some & Hx)|Hx]; [|lia]. destruct (Ha p q l l' Hp Hq Hne); lia.
Qed.

(** The kernel's heap, with this allocator in place of the crate's: two boxes, one
    of them written, cloned, written again and dropped; the second time around
    there is no room for a large one. *)
Definition sample_heap : RuntimeHeap BumpHeap := mkRuntimeHeap None false false.
Definition sample_new (_ : FastAllocParam) (_ : BuddyAllocParam) : BumpHeap := mkBump BUMP_LO ∅.
Definition sample_ops : list BoxOp :=
  [BoxNew (U8Array 3) 64; BoxNewSlice U8 16 5; BoxSet 1 2 7; BoxClone 1; BoxSet 1 0 9; BoxDrop 1;
   BoxNewSlice (U8Array 64) 4096 4096; BoxSet 2 1 8].

Lemma sample_heap_idle : heap_idle sample_new 0x100000 sample_heap.
Proof.
  split; [|done..]. split; [done|..]; cbn; intros *; rewrite lookup_empty; discriminate.
Qed.

Lemma boxes_refine_witness : exists s,
  foldM (box_step (G := HEAP_ALLOC sample_new 0x100000)) (mkBoxState sample_heap (fun _ => 1) []) sample_ops = Done s /\
  contents s = [Some [0; 0; 0]; None; Some [0; 8; 7; 0; 0]; None] /\ (forall x, x < 0x1000 -> bx_mem s x = 1).
Proof.
  pose proof (boxes_refine (GS := heap_alloc_spec sample_new 0x100000) sample_heap (fun _ => 1) sample_ops sample_heap_idle) as Hr.
  assert (E : contents <$> foldM (box_step (G := HEAP_ALLOC sample_new 0x100000)) (mkBoxState sample_heap (fun _ => 1) []) sample_ops =
    Done [Some [0; 0; 0]; None; Some [0; 8; 7; 0; 0]; None]) by (vm_compute; reflexivity).
  revert Hr E. unfold heap_alloc. generalize (foldM (box_step (G := HEAP_ALLOC sample_new 0x100000)) (mkBoxState sample_heap (fun _ => 1) []) sample_ops).
  intros [s| |] Hr E; [|discriminate E..]. destruct Hr as (rooms & _ & Hr); [repeat constructor|].
  destruct (spec_run _ []) as [c|]; [|done]. destruct Hr as (_ & _ & _ & Hm & _). exists s. split; [done|]. injection E as E. split; [exact E|].
  intros x Hx. apply Hm. right. cbn. unfold BUMP_LO. lia.
Defined.
