(* ===== verification/BuildImage.v ===== *)
(** * The disk image

    [build-image/src/main.rs]: the list of files is parsed, a FAT volume is
    formatted and filled with them, and the volume becomes the only partition of
    a disk with a GPT.  The [fatfs] and [gpt] crates are classes with their
    documented behaviour; files of the host are a function from paths to bytes.
    The addresses the build scripts link the kernel and the first program at are
    here as well. *)

From S2P Require Import Prelude Text Shared Machine ElfImage.

(** ** Link addresses *)

(** [kernel/build.rs] and [bootstrap/build.rs]. *)
Definition KERNEL_VA_BASE : Z := 0xffffff8000000000.
Definition BOOTSTRAP_VA_BASE : Z := 0xffff800000000000.

(** ** Results

    [io::Result]: an error is [None], and [?] returns it. *)
Abbreviation io A := (outcome (option A)).

Definition try_bind {A B} (m : io A) (f : A -> io B) : io B :=
  o ← m;
  match o with Some a => f a | None => Done None end.

Declare Scope io_scope.
Notation "x ←? m ; k" := (try_bind m (fun x => k)) (at level 100, m at next level, k at level 200, right associativity) : io_scope.
#[local] Open Scope io_scope.

Fixpoint try_fold {S A} (f : S -> A -> io S) (s : S) (l : list A) : io S :=
  match l with
  | [] => Done (Some s)
  | x :: l => s ←? f s x; try_fold f s l
  end.

(** ** The list of files *)

Definition FILE_UEFI_BOOT : list Z := text "EFI/BOOT/BOOTX64.EFI".
Definition FILE_KERNEL : list Z := text "kernel-x86_64".
Definition MB : Z := 1024 * 1024.

Definition DEFAULT_FILES_MAPPING : list Z :=
  FILE_UEFI_BOOT ++ text "->target/x86_64-unknown-uefi/debug/bootloader.efi;" ++
  FILE_KERNEL ++ text "->target/x86_64-unknown-none/debug/kernel".
Definition DEFAULT_OUTPUT_PATH : list Z := text "target/os.img".

(** One entry [dst->src]. *)
Definition parse_entry (entry : list Z) : outcome (list Z * list Z) :=
  let paths := str_split (text "->") (trim entry) in
  dst ← or_panic (paths !! 0%nat);
  src ← or_panic (paths !! 1%nat);
  Done (trim dst, trim src).

Definition parse_mapping (env_files_mapping : list Z) : outcome (list (list Z * list Z)) :=
  foldM (fun files entry => f ← parse_entry entry; Done (files ++ [f])) [] (str_split (text ";") env_files_mapping).

(** ** The volume *)

(** The bytes of a file that is written in places. *)
Record Bytes : Type := mkBytes { b_len : Z; b_at : Z -> Z }.

(** Of the [fatfs] crate, on a volume [V].  A file that is opened is named by
    its path. *)
Class FatFs (V : Type) : Type := {
  (** [format_volume] and [FileSystem::new] on a file of this length *)
  format_volume : Z -> option V;
  create_dir : list Z -> V -> option V;
  create_file : list Z -> V -> option V;
  truncate : list Z -> V -> option V;
  (** [io::copy] into a file opened before *)
  copy_into : list Z -> list Z -> V -> option V;
  (** the bytes of the volume's file *)
  volume_bytes : V -> Bytes
}.

(** [Path::ancestors] of a relative path without empty parts: the path without
    its last part, and so on down to the empty path. *)
Definition segments (path : list Z) : list (list Z) := str_split (text "/") path.

Definition ancestors (path : list Z) : list (list Z) :=
  let s := segments path in
  map (fun k => join (text "/") (take k s)) (rev (seq 0 (S (length s)))).

(** [ancestors().skip(1).collect().into_iter().rev().skip(1)]. *)
Definition parent_dirs (path : list Z) : list (list Z) := drop 1 (rev (drop 1 (ancestors path))).

Section Image.
Context {V : Type} {FF : FatFs V}.
(** the files of the host *)
Context (host : list Z -> option (list Z)).

Definition add_size (needed_size : Z) (f : list Z * list Z) : io Z :=
  match host f.2 with
  | None => Done None
  | Some bytes => n ← u64_add needed_size (Z.of_nat (length bytes)); Done (Some n)
  end.

Definition fat_size_padded_and_rounded (needed_size : Z) : outcome Z :=
  a ← u64_add needed_size (1024 * 64);
  a ← u64_sub a 1;
  n ← u64_add (a / MB) 1;
  r ← u64_mul n MB;
  u64_add r MB.

(** The body of the loop over the files. *)
Definition add_file (v : V) (f : list Z * list Z) : io V :=
  let '(dst, src) := f in
  v ←? try_fold (fun v ancestor => Done (create_dir ancestor v)) v (parent_dirs dst);
  v ←? Done (create_file dst v);
  v ← or_panic (truncate dst v);
  bytes ←? Done (host src);
  Done (copy_into dst bytes v).

Definition construct_filesystem_fat (files : list (list Z * list Z)) : io V :=
  needed_size ←? try_fold add_size 0 files;
  size ← fat_size_padded_and_rounded needed_size;
  v ←? Done (format_volume size);
  try_fold add_file v files.
End Image.

(** ** The disk *)

(** An entry of a partition table: the first and the last of its blocks. *)
Record Partition : Type := mkPartition { p_name : list Z; p_type : Z; p_flags : Z; p_first : Z; p_last : Z }.

(** [partition_types::EFI]: the identifier of EFI system partitions. *)
Definition EFI : Z := 0xc12a7328f81f11d2ba4b00a0c93ec93b.

(** Of the [gpt] crate, on a table [T] that is held in memory until it is written:
    the block of the protective MBR for a number of blocks, a table for a disk
    ([create_from_device]), and its operations. *)
Class GptDisk (T : Type) : Type := {
  mbr_block : Z -> Z -> Z;
  create_from_device : Bytes -> option T;
  update_partitions : gmap Z Partition -> T -> option T;
  (** name, size in bytes, type, flags and alignment; the number it gets *)
  add_partition : list Z -> Z -> Z -> Z -> option Z -> T -> option (Z * T);
  partitions : T -> gmap Z Partition;
  bytes_start : Partition -> option Z;
  gpt_write : T -> Bytes -> option Bytes
}.

(** [n] bytes written at an offset, within the length of the file. *)
Definition overwrite (off n : Z) (b : Z -> Z) (disk : Bytes) : Bytes :=
  mkBytes (b_len disk) (fun x => if (off <=? x) && (x <? off + n) then b (x - off) else b_at disk x).

Definition create_gpt_disk {T} {G : GptDisk T} (fat_image : Bytes) : io Bytes :=
  let partition_size := b_len fat_image in
  disk_size ← u64_add partition_size (1024 * 64);
  let disk := mkBytes disk_size (fun _ => 0) in
  last ← u64_sub (disk_size / 512) 1;
  let lb_size := if last <? 2 ^ 32 then last else 0xffffffff in
  let disk := overwrite 0 512 (mbr_block lb_size) disk in
  gpt ←? Done (create_from_device disk);
  gpt ←? Done (update_partitions ∅ gpt);
  r ←? Done (add_partition (text "boot") partition_size EFI 0 None gpt);
  let '(partition_id, gpt) := r in
  partition ← or_panic (partitions gpt !! partition_id);
  start_offset ←? Done (bytes_start partition);
  disk ←? Done (gpt_write gpt disk);
  Done (Some (overwrite start_offset partition_size (b_at fat_image) disk)).

(** [main]: the path that is written and its bytes. *)
Definition build_image {V} {FF : FatFs V} {T} {G : GptDisk T} (host : list Z -> option (list Z)) (args : list (list Z)) : io (list Z * Bytes) :=
  let env_files_mapping := default DEFAULT_FILES_MAPPING (args !! 1%nat) in
  let output_path := default DEFAULT_OUTPUT_PATH (args !! 2%nat) in
  files_mapping ← parse_mapping env_files_mapping;
  fs_img ←? construct_filesystem_fat host files_mapping;
  disk ←? create_gpt_disk (volume_bytes fs_img);
  Done (Some (output_path, disk)).

(** ** What the crates promise *)

(** FAT does not tell upper from lower case. *)
Definition lower (c : Z) : Z := if (65 <=? c) && (c <=? 90) then c + 32 else c.

Definition key (segs : list (list Z)) : list (list Z) := map (map lower) segs.

(** Names of letters, digits and [-_.], not only dots. *)
Definition plain_char (c : Z) : bool :=
  ((48 <=? c) && (c <=? 57)) || ((65 <=? c) && (c <=? 90)) || ((97 <=? c) && (c <=? 122)) || existsb (Z.eqb c) (text "-_.").
Definition plain_name (name : list Z) : bool := forallb plain_char name && existsb (fun c => negb (c =? 46)) name && bool_decide (length name <= 255)%nat.
Definition plain_path (segs : list (list Z)) : Prop := segs <> [] /\ Forall (fun n => plain_name n = true) segs.

Definition path_of (segs : list (list Z)) : list Z := join (text "/") segs.

Inductive node : Type := Dir | File (bytes : list Z).

(** The tree below the root, and the space that is left; a directory, an entry
    and the bytes of a file take some of it. *)
Class FatFsSpec (V : Type) (FF : FatFs V) : Type := {
  fv : V -> gmap (list (list Z)) node;
  fv_free : V -> Z;
  entry_cost : Z;
  data_cost : Z -> Z;
  costs_ok n : 0 <= entry_cost /\ 0 <= data_cost n;
  format_ok n v : format_volume n = Some v -> fv v = ∅ /\ b_len (volume_bytes v) = n;
  create_dir_new segs n v : plain_path (segs ++ [n]) -> segs = [] \/ fv v !! key segs = Some Dir ->
    fv v !! key (segs ++ [n]) = None -> entry_cost <= fv_free v ->
    exists v', create_dir (path_of (segs ++ [n])) v = Some v' /\ fv v' = <[key (segs ++ [n]) := Dir]> (fv v) /\
      fv_free v - entry_cost <= fv_free v' /\ b_len (volume_bytes v') = b_len (volume_bytes v);
  create_dir_old segs v : plain_path segs -> fv v !! key segs = Some Dir ->
    exists v', create_dir (path_of segs) v = Some v' /\ fv v' = fv v /\
      fv_free v <= fv_free v' /\ b_len (volume_bytes v') = b_len (volume_bytes v);
  create_file_new segs n v : plain_path (segs ++ [n]) -> segs = [] \/ fv v !! key segs = Some Dir ->
    fv v !! key (segs ++ [n]) = None -> entry_cost <= fv_free v ->
    exists v', create_file (path_of (segs ++ [n])) v = Some v' /\ fv v' = <[key (segs ++ [n]) := File []]> (fv v) /\
      fv_free v - entry_cost <= fv_free v' /\ b_len (volume_bytes v') = b_len (volume_bytes v);
  truncate_ok segs b v : plain_path segs -> fv v !! key segs = Some (File b) ->
    exists v', truncate (path_of segs) v = Some v' /\ fv v' = <[key segs := File []]> (fv v) /\
      fv_free v <= fv_free v' /\ b_len (volume_bytes v') = b_len (volume_bytes v);
  copy_into_ok segs b v : plain_path segs -> fv v !! key segs = Some (File []) -> data_cost (Z.of_nat (length b)) <= fv_free v ->
    exists v', copy_into (path_of segs) b v = Some v' /\ fv v' = <[key segs := File b]> (fv v) /\
      fv_free v - data_cost (Z.of_nat (length b)) <= fv_free v' /\ b_len (volume_bytes v') = b_len (volume_bytes v)
}.

(** What an entry can hold. *)
Definition entry_fits (p : Partition) : Prop :=
  (length (p_name p) <= 36)%nat /\ Forall (fits 16) (p_name p) /\ fits 128 (p_type p) /\ fits 64 (p_flags p) /\
  fits 64 (p_first p) /\ fits 64 (p_last p).

(** A GPT has a header in block 1, entries in the 32 blocks behind it, and copies
    of both at the end; a partition that fits between them is placed there.
    [table_of] is the table a reader finds: it looks at the protective MBR, the
    header and the entries only, and on a disk with that MBR a table of one
    partition that was written is the one it finds. *)
Class GptDiskSpec (T : Type) (G : GptDisk T) : Type := {
  table_of : Bytes -> option (gmap Z Partition);
  gpt_blocks : T -> Z;
  table_of_ext d d' : b_len d = b_len d' ->
    (forall x, 0 <= x < 34 * 512 \/ b_len d - 33 * 512 <= x < b_len d -> b_at d x = b_at d' x) -> table_of d = table_of d';
  create_from_device_ok disk : 67 * 512 <= b_len disk ->
    exists g, create_from_device disk = Some g /\ gpt_blocks g = b_len disk / 512;
  update_partitions_empty g : exists g', update_partitions ∅ g = Some g' /\ partitions g' = ∅ /\ gpt_blocks g' = gpt_blocks g;
  add_partition_ok name size type flags g : partitions g = ∅ -> (length name <= 36)%nat -> 0 < size -> (512 | size) ->
    67 + size / 512 <= gpt_blocks g ->
    exists id g' p, add_partition name size type flags None g = Some (id, g') /\ partitions g' = {[ id := p ]} /\ fits 32 id /\
      p_name p = name /\ p_type p = type /\ p_flags p = flags /\
      34 <= p_first p /\ p_last p = p_first p + size / 512 - 1 /\ p_last p < gpt_blocks g - 33;
  bytes_start_ok p : 0 <= p_first p -> p_first p * 512 < 2 ^ 64 -> bytes_start p = Some (p_first p * 512);
  gpt_write_ok g id p disk : partitions g = {[ id := p ]} -> fits 32 id -> entry_fits p -> 67 * 512 <= b_len disk ->
    (forall x, 0 <= x < 512 -> b_at disk x = mbr_block (Z.min (b_len disk / 512 - 1) 0xffffffff) x) ->
    exists disk', gpt_write g disk = Some disk' /\ b_len disk' = b_len disk /\ table_of disk' = Some {[ id := p ]} /\
      forall x, x < 512 \/ 34 * 512 <= x < b_len disk - 33 * 512 -> b_at disk' x = b_at disk x
}.

(** ** Paths *)

Lemma plain_no_slash n : plain_name n = true -> 47 ∉ n.
Proof.
  unfold plain_name. rewrite !andb_true_iff, forallb_forall. intros [[H _] _] Hin%list_elem_of_In%H. by vm_compute in Hin.
Qed.

Lemma segments_path segs : plain_path segs -> segments (path_of segs) = segs.
Proof.
  intros [Hne Hs]. destruct segs as [|x l]; [done|]. apply (split_join [] 47); [apply not_elem_of_nil|].
  eapply Forall_impl; [exact Hs|]. intros n. apply plain_no_slash.
Qed.

Lemma plain_take segs k : plain_path segs -> (0 < k)%nat -> plain_path (take k segs).
Proof.
  intros [Hne Hs] Hk. split; [|by apply Forall_take]. destruct segs, k; cbn; done || lia.
Qed.

Lemma rev_seq0 n : rev (seq 0 (S n)) = n :: rev (seq 0 n).
Proof. rewrite seq_S, rev_app_distr. done. Qed.

Lemma parent_dirs_path segs : plain_path segs ->
  parent_dirs (path_of segs) = map (fun k => path_of (take k segs)) (seq 1 (length segs - 1)).
Proof.
  intros Hs. unfold parent_dirs, ancestors. rewrite segments_path by done. rewrite rev_seq0. cbn [map drop].
  rewrite ?drop_0, map_rev, rev_involutive. destruct Hs as [Hne _]. destruct segs as [|x l]; [done|]. cbn [length seq map drop].
  by rewrite Nat.sub_succ, Nat.sub_0_r.
Qed.

Lemma key_take k segs : key (take k segs) = take k (key segs).
Proof. unfold key. by rewrite firstn_map. Qed.

Lemma key_length segs : length (key segs) = length segs.
Proof. apply length_map. Qed.

Lemma try_fold_app {S A} (f : S -> A -> io S) s l1 l2 : try_fold f s (l1 ++ l2) = (s ←? try_fold f s l1; try_fold f s l2).
Proof.
  revert s. induction l1 as [|x l1 IH]; intros s; [done|]. cbn [app try_fold]. unfold try_bind in *.
  destruct (f s x) as [[s'|]| |]; cbn; [apply IH|done..].
Qed.

(** ** Filling the volume *)

Section Fill.
Context {V : Type} {FF : FatFs V} {FS : FatFsSpec V FF}.
Context (host : list Z -> option (list Z)).

(** The directories down to a path exist or are made. *)
Lemma mkdirs segs v0 : plain_path segs ->
  (forall k, (0 < k < length segs)%nat -> fv v0 !! key (take k segs) = None \/ fv v0 !! key (take k segs) = Some Dir) ->
  forall m, (m < length segs)%nat -> entry_cost * Z.of_nat m <= fv_free v0 ->
  exists v, try_fold (fun v a => Done (create_dir a v)) v0 (map (fun k => path_of (take k segs)) (seq 1 m)) = Done (Some v) /\
    (forall k, (0 < k <= m)%nat -> fv v !! key (take k segs) = Some Dir) /\
    (forall q, (forall k, (0 < k <= m)%nat -> q <> key (take k segs)) -> fv v !! q = fv v0 !! q) /\
    fv_free v0 - entry_cost * Z.of_nat m <= fv_free v /\ b_len (volume_bytes v) = b_len (volume_bytes v0).
Proof.
  intros Hp Hfree. pose proof (costs_ok 0) as [Hc _]. induction m as [|m IH]; intros Hm Hroom.
  { exists v0. split; [done|]. split; [lia|]. split; [done|]. split; [lia|done]. }
  destruct IH as (v & E & D & O & R & L); [lia|lia|]. rewrite seq_S, map_app, try_fold_app, E. cbn [try_bind mbind outcome_bind map try_fold Nat.add].
  destruct (lookup_lt_is_Some_2 segs m ltac:(lia)) as [n Hn]. assert (Et : take (S m) segs = take m segs ++ [n]) by (by apply take_S_r).
  pose proof (plain_take segs (S m) Hp ltac:(lia)) as Hps.
  assert (Hq : fv v !! key (take (S m) segs) = fv v0 !! key (take (S m) segs)).
  { apply O. intros k Hk E'. apply (f_equal length) in E'. rewrite !key_length, !length_take in E'. lia. }
  assert (Hpar : take m segs = [] \/ fv v !! key (take m segs) = Some Dir).
  { destruct m; [by left|right]. apply D. lia. }
  assert (Hstep : exists v', create_dir (path_of (take (S m) segs)) v = Some v' /\ fv v' = <[key (take (S m) segs) := Dir]> (fv v) /\
    fv_free v - entry_cost <= fv_free v' /\ b_len (volume_bytes v') = b_len (volume_bytes v)).
  { destruct (Hfree (S m) ltac:(lia)) as [Hnone|Hdir]; rewrite <- Hq in *.
    - rewrite Et in *. apply create_dir_new; done || lia.
    - destruct (create_dir_old (take (S m) segs) v Hps Hdir) as (v' & E' & F' & R' & L'). exists v'. split; [done|].
      rewrite insert_id by done. split; [done|]. split; [lia|done]. }
  destruct Hstep as (v' & E' & F' & R' & L'). rewrite E'. cbn [try_bind mbind outcome_bind]. exists v'. split; [done|]. rewrite F'.
  split; [|split; [|split; [lia|congruence]]].
  - intros k Hk. destruct (decide (k = S m)) as [->|Hne]; [by rewrite lookup_insert_eq|].
    rewrite lookup_insert_ne; [apply D; lia|]. intros E''%(f_equal length). rewrite !key_length, !length_take in E''. lia.
  - intros q Hq'. rewrite lookup_insert_ne by (intros <-; by apply (Hq' (S m) ltac:(lia))). apply O. intros k Hk. apply Hq'. lia.
Qed.

(** A file to be added: the parts of its path and its source. *)
Abbreviation entry := (list (list Z) * list Z)%type.

Definition data (f : entry) : list Z := default [] (host f.2).
Definition file_cost (f : entry) : Z := entry_cost * Z.of_nat (length f.1) + data_cost (Z.of_nat (length (data f))).

(** No path is the path of another file, or of a directory above it. *)
Definition conflict_free (files : list entry) : Prop :=
  forall i j f g, files !! i = Some f -> files !! j = Some g -> i <> j -> ~ key f.1 `prefix_of` key g.1.

Definition file_ok (f : entry) : Prop := plain_path f.1 /\ is_Some (host f.2).

(** The tree holds these files, and nothing but the directories above them. *)
Record holds (files : list entry) (v : V) : Prop := {
  ho_file f : f ∈ files -> fv v !! key f.1 = Some (File (data f));
  ho_only k n : fv v !! k = Some n -> exists f, f ∈ files /\ k `prefix_of` key f.1 /\ (n = Dir \/ k = key f.1)
}.

Lemma prefix_take k (segs : list (list Z)) : key (take k segs) `prefix_of` key segs.
Proof. rewrite key_take. apply prefix_take. Qed.

Lemma add_file_ok files f v : conflict_free (files ++ [f]) -> file_ok f -> holds files v -> file_cost f <= fv_free v ->
  exists v', add_file host v (path_of f.1, f.2) = Done (Some v') /\ holds (files ++ [f]) v' /\
    fv_free v - file_cost f <= fv_free v' /\ b_len (volume_bytes v') = b_len (volume_bytes v).
Proof.
  intros Hcf [Hp [b Hb]] [Hf Ho] Hcost. unfold file_cost, data in Hcost. rewrite Hb in Hcost. cbn [from_option id] in Hcost.
  destruct f as [segs src]. cbn [fst snd] in *.
  pose proof (costs_ok (Z.of_nat (length b))) as [Hc1 Hc2]. remember (length segs - 1)%nat as m eqn:Em.
  assert (Hlen : length segs = S m) by (destruct Hp as [Hne _]; destruct segs; [done|]; cbn in *; lia).
  rewrite Hlen, Nat2Z.inj_succ, Z.mul_succ_r in Hcost.
  (* no other file is in the way *)
  assert (Hnew : forall g, g ∈ files -> ~ key g.1 `prefix_of` key segs /\ ~ key segs `prefix_of` key g.1).
  { intros g [i Hi]%list_elem_of_lookup. pose proof (lookup_lt_Some _ _ _ Hi). split.
    - apply (Hcf i (length files) g (segs, src)); [by rewrite lookup_app_l|by rewrite lookup_app_r, Nat.sub_diag|lia].
    - apply (Hcf (length files) i (segs, src) g); [by rewrite lookup_app_r, Nat.sub_diag|by rewrite lookup_app_l|lia]. }
  destruct (mkdirs segs v Hp) with (m := m) as (v1 & E1 & D1 & O1 & R1 & L1).
  { intros k Hk. destruct (fv v !! key (take k segs)) as [n|] eqn:En; [|by left]. right.
    destruct (Ho _ _ En) as (g & Hg & Hpre & [->|Heq]); [done|]. destruct (Hnew g Hg) as [[] _]. rewrite <- Heq. apply prefix_take. }
  { lia. }
  { lia. }
  unfold add_file. rewrite parent_dirs_path, <- Em by done. rewrite E1. cbn [try_bind mbind outcome_bind].
  assert (Hnone : fv v1 !! key segs = None).
  { rewrite O1. 2: { intros k Hk E%(f_equal length). rewrite !key_length, length_take in E. lia. }
    destruct (fv v !! key segs) as [n|] eqn:En; [|done]. destruct (Ho _ _ En) as (g & Hg & Hpre & _). by destruct (Hnew g Hg). }
  destruct (lookup_lt_is_Some_2 segs m ltac:(lia)) as [nm Hnm].
  assert (Es : segs = take m segs ++ [nm]) by (rewrite <- take_S_r, take_ge by (done || lia); done).
  assert (Hpar : take m segs = [] \/ fv v1 !! key (take m segs) = Some Dir) by (destruct m; [by left|right; apply D1; lia]).
  destruct (create_file_new (take m segs) nm v1) as (v2 & E2 & F2 & R2 & L2); rewrite <- ?Es; try done; [lia|]. rewrite <- Es in E2, F2.
  rewrite E2. cbn [try_bind mbind outcome_bind].
  destruct (truncate_ok segs [] v2 Hp) as (v3 & E3 & F3 & R3 & L3); [by rewrite F2, lookup_insert_eq|]. rewrite E3. cbn [or_panic mbind outcome_bind].
  rewrite Hb. cbn [try_bind mbind outcome_bind].
  destruct (copy_into_ok segs b v3 Hp) as (v4 & E4 & F4 & R4 & L4); [by rewrite F3, lookup_insert_eq|lia|]. rewrite E4.
  exists v4. split; [done|]. rewrite F3, F2, !insert_insert_eq in F4. split; [split|split; [unfold file_cost, data; cbn [fst snd]; rewrite Hb, Hlen; cbn [from_option id]; lia|congruence]].
  - intros g [Hg|Hg]%elem_of_app; rewrite F4.
    + destruct (Hnew g Hg) as [N1 N2]. rewrite lookup_insert_ne by (intros E; apply N2; by rewrite E).
      rewrite O1; [by apply Hf|]. intros k Hk E. apply N1. rewrite E. apply prefix_take.
    + apply list_elem_of_singleton in Hg as ->. cbn [fst]. rewrite lookup_insert_eq. unfold data. cbn [snd]. by rewrite Hb.
  - intros k n. rewrite F4. intros [[<- <-]|[_ Hk]]%lookup_insert_Some.
    + exists (segs, src). split; [apply elem_of_app; right; by apply list_elem_of_singleton|]. split; [done|by right].
    + destruct (decide ((0 < length k <= m)%nat /\ k = key (take (length k) segs))) as [[Hj Ek]|Hno].
      * rewrite Ek, D1 in Hk by done. injection Hk as <-. exists (segs, src). split; [apply elem_of_app; right; by apply list_elem_of_singleton|].
        split; [rewrite Ek; apply prefix_take|by left].
      * rewrite O1 in Hk. 2: { intros j Hj Ej. apply Hno. assert (El : length k = j) by (rewrite Ej, key_length, length_take; lia). by rewrite El. }
        destruct (Ho _ _ Hk) as (g & Hg & Hpre & Hn). exists g. split; [apply elem_of_app; by left|done].
Qed.

Lemma conflict_free_prefix l1 l2 : conflict_free (l1 ++ l2) -> conflict_free l1.
Proof. intros H i j f g Hf Hg. apply (H i j f g); by apply lookup_app_l_Some. Qed.

Definition files_cost (files : list entry) : Z := foldr (fun f n => file_cost f + n) 0 files.

(** The arguments the builder passes to itself. *)
Abbreviation named files := (map (fun f : entry => (path_of f.1, f.2)) files).

Lemma add_files_ok rest : forall files v, conflict_free (files ++ rest) -> Forall file_ok rest -> holds files v -> files_cost rest <= fv_free v ->
  exists v', try_fold (add_file host) v (named rest) = Done (Some v') /\ holds (files ++ rest) v' /\
    b_len (volume_bytes v') = b_len (volume_bytes v).
Proof.
  induction rest as [|f rest IH]; intros files v Hcf Hok Hh Hc; [exists v; by rewrite app_nil_r|].
  apply Forall_cons in Hok as [Hf Hok]. cbn [files_cost foldr] in Hc. fold (files_cost rest) in Hc.
  assert (0 <= files_cost rest).
  { clear. induction rest as [|f rest IH]; cbn; [lia|]. fold (files_cost rest). unfold file_cost.
    destruct (costs_ok (Z.of_nat (length (data f)))). nia. }
  rewrite (app_assoc files [f] rest : files ++ f :: rest = (files ++ [f]) ++ rest) in *.
  destruct (add_file_ok files f v) as (v1 & E1 & H1 & R1 & L1); [by eapply conflict_free_prefix|done|done|lia|].
  cbn [map try_fold]. rewrite E1. cbn [try_bind mbind outcome_bind].
  destruct (IH (files ++ [f]) v1) as (v2 & E2 & H2 & L2); [done|done|done|lia|]. exists v2. split; [done|]. split; [done|congruence].
Qed.

Definition needed (files : list entry) : Z := foldr (fun f n => Z.of_nat (length (data f)) + n) 0 files.

Lemma needed_nonneg files : 0 <= needed files.
Proof. induction files as [|f files IH]; [done|]. cbn [needed foldr]. fold (needed files). lia. Qed.

Lemma add_sizes_ok files : forall n, Forall file_ok files -> 0 <= n -> n + needed files < 2 ^ 64 ->
  try_fold (add_size host) n (named files) = Done (Some (n + needed files)).
Proof.
  induction files as [|f files IH]; intros n Hok Hn Hs; cbn [map try_fold needed foldr]; [by rewrite Z.add_0_r|].
  apply Forall_cons in Hok as [[_ [b Hb]] Hok]. cbn [needed foldr] in Hs. fold (needed files) in *.
  pose proof (needed_nonneg files).
  unfold add_size at 1. cbn [snd]. unfold data in *. rewrite Hb in *. cbn [from_option id] in *. unfold u64_add.
  rewrite checked_in, Done_bind by lia. cbn [try_bind mbind outcome_bind]. rewrite IH by (done || lia). do 2 f_equal. lia.
Qed.

(** A mebibyte for the files and their tables each, and up to one more. *)
Definition image_size (n : Z) : Z := ((n + 65535) / MB + 2) * MB.

Lemma image_size_ok n : 0 <= n < 2 ^ 62 ->
  fat_size_padded_and_rounded n = Done (image_size n) /\ n + MB < image_size n < 2 ^ 63 /\ (512 | image_size n).
Proof.
  intros Hn. unfold fat_size_padded_and_rounded, image_size, u64_add, u64_sub, u64_mul. assert (EM : MB = 1048576) by done.
  rewrite checked_in, Done_bind by lia. rewrite checked_in, Done_bind by lia.
  replace (n + 1024 * 64 - 1) with (n + 65535) by lia. pose proof (Z.div_mod (n + 65535) MB ltac:(done)).
  pose proof (Z.mod_pos_bound (n + 65535) MB ltac:(done)). rewrite EM in *. set (q := (n + 65535) / 1048576) in *.
  rewrite checked_in, Done_bind by lia. rewrite checked_in, Done_bind by lia. rewrite checked_in by lia.
  split; [f_equal; lia|]. split; [lia|]. exists ((q + 2) * 2048). lia.
Qed.

Lemma construct_ok files v0 : conflict_free files -> Forall file_ok files -> needed files < 2 ^ 62 ->
  format_volume (image_size (needed files)) = Some v0 -> files_cost files <= fv_free v0 ->
  exists v, construct_filesystem_fat host (named files) = Done (Some v) /\ holds files v /\
    b_len (volume_bytes v) = image_size (needed files).
Proof.
  intros Hcf Hok Hn Hv Hc. pose proof (needed_nonneg files).
  unfold construct_filesystem_fat. rewrite add_sizes_ok by (done || lia). cbn [try_bind mbind outcome_bind].
  rewrite Z.add_0_l, (proj1 (image_size_ok (needed files) ltac:(lia))). cbn [mbind outcome_bind]. rewrite Hv. cbn [try_bind mbind outcome_bind].
  destruct (format_ok _ _ Hv) as [Hempty Hl].
  destruct (add_files_ok files [] v0) as (v & E & Hh & L); [done|done| |done|exists v; split; [exact E|]; split; [done|congruence]].
  split; [by intros f Hf%not_elem_of_nil|]. intros k n. by rewrite Hempty, lookup_empty.
Qed.
End Fill.

(** ** The disk *)

(** The disk has one partition, of type EFI and of the size of the volume, whose
    blocks are the volume, between the two copies of the table; the first block is
    the protective MBR. *)
Record on_disk {T} {G : GptDisk T} {GS : GptDiskSpec T G} (img disk : Bytes) (id : Z) (p : Partition) : Prop := {
  od_len : b_len disk = b_len img + 0x10000;
  od_mbr x : 0 <= x < 512 -> b_at disk x = mbr_block (Z.min (b_len disk / 512 - 1) 0xffffffff) x;
  od_table : table_of disk = Some {[ id := p ]};
  od_entry : p_type p = EFI /\ p_name p = text "boot" /\ p_flags p = 0;
  od_bounds : 34 <= p_first p /\ p_last p = p_first p + b_len img / 512 - 1 /\ p_last p < b_len disk / 512 - 33;
  od_bytes x : 0 <= x < b_len img -> b_at disk (p_first p * 512 + x) = b_at img x
}.

Section Disk.
Context {T : Type} {G : GptDisk T} {GS : GptDiskSpec T G}.

(** Writing a partition between the tables keeps the table. *)
Lemma overwrite_between off n b d : 34 * 512 <= off -> off + n <= b_len d - 33 * 512 -> table_of (overwrite off n b d) = table_of d.
Proof.
  intros H1 H2. apply table_of_ext; [done|]. intros x Hx. cbn [overwrite b_at b_len] in *.
  destruct (Z.leb_spec off x), (Z.ltb_spec x (off + n)); cbn [andb]; done || (exfalso; lia).
Qed.

Lemma create_gpt_disk_ok img : 0 < b_len img < 2 ^ 63 -> (512 | b_len img) ->
  exists disk id p, create_gpt_disk img = Done (Some disk) /\ on_disk img disk id p.
Proof.
  intros Hlen [n Hn]. unfold create_gpt_disk, u64_add, u64_sub.
  assert (Hblocks : (b_len img + 1024 * 64) / 512 = n + 128) by (rewrite Hn; replace (n * 512 + 1024 * 64) with ((n + 128) * 512) by lia; by rewrite Z.div_mul).
  assert (Hsz : b_len img / 512 = n) by (rewrite Hn; by apply Z.div_mul).
  rewrite checked_in, Done_bind by lia. rewrite Hblocks. rewrite checked_in, Done_bind by lia. cbv zeta.
  set (lb := if n + 128 - 1 <? 2 ^ 32 then n + 128 - 1 else 0xffffffff).
  assert (Hlb : lb = Z.min (n + 128 - 1) 0xffffffff) by (unfold lb; destruct (Z.ltb_spec (n + 128 - 1) (2 ^ 32)); lia).
  set (d0 := overwrite 0 512 _ _). assert (L0 : b_len d0 = b_len img + 1024 * 64) by done.
  destruct (create_from_device_ok d0 ltac:(lia)) as (g0 & -> & B0). cbn [try_bind mbind outcome_bind].
  destruct (update_partitions_empty g0) as (g1 & -> & P1 & B1). cbn [try_bind mbind outcome_bind]. rewrite B0, L0, Hblocks in B1.
  destruct (add_partition_ok (text "boot") (b_len img) EFI 0 g1 P1) as (id & g2 & p & -> & P2 & Hid & N1 & N2 & N3 & F1 & F2 & F3);
    [vm_compute; lia|lia|by exists n|lia|]. cbn [try_bind mbind outcome_bind]. rewrite P2, lookup_singleton_eq. cbn [or_panic]. rewrite Done_bind.
  rewrite Hsz, B1 in *. rewrite bytes_start_ok by lia. cbn [try_bind mbind outcome_bind].
  assert (M0 : forall x, 0 <= x < 512 -> b_at d0 x = mbr_block (Z.min (b_len d0 / 512 - 1) 0xffffffff) x).
  { intros x Hx. rewrite L0, Hblocks, <- Hlb. cbn [d0 overwrite b_at]. rewrite (proj2 (Z.leb_le _ _)), (proj2 (Z.ltb_lt _ _)) by lia. by rewrite Z.sub_0_r. }
  destruct (gpt_write_ok g2 id p d0 P2 Hid) as (d1 & -> & L1 & T1 & W1); [|lia|done|].
  { split_and!; rewrite ?N1, ?N2, ?N3; unfold fits; try lia; [vm_compute; lia|by apply (bool_decide_unpack _); vm_compute|by vm_compute]. }
  cbn [try_bind mbind outcome_bind]. eexists _, id, p. split; [done|]. split; cbn [overwrite b_len]; rewrite ?L1, ?L0, ?Hblocks, ?Hsz; try done; try lia.
  - intros x Hx. cbn [overwrite b_at]. rewrite (proj2 (Z.leb_gt _ _)) by lia. cbn [andb]. rewrite W1, M0, L0, Hblocks by lia. done.
  - by rewrite overwrite_between by lia.
  - intros x Hx. cbn [overwrite b_at]. rewrite (proj2 (Z.leb_le _ _)), (proj2 (Z.ltb_lt _ _)) by lia. cbn. f_equal. lia.
Qed.
End Disk.

(** ** The argument *)

(** A source path: not empty, without separators or blanks at its ends. *)
Definition src_ok (s : list Z) : Prop := s <> [] /\ tight s /\ (59 ∉ s) /\ (62 ∉ s).

Definition mapping_of (files : list (list (list Z) * list Z)) : list Z :=
  join (text ";") (map (fun f => path_of f.1 ++ text "->" ++ f.2) files).

Lemma path_of_chars segs : plain_path segs -> Forall (fun c => plain_char c = true \/ c = 47) (path_of segs).
Proof.
  intros [_ Hs]. unfold path_of. induction Hs as [|n segs Hn Hs IH]; [constructor|].
  assert (Hc : Forall (fun c => plain_char c = true \/ c = 47) n).
  { unfold plain_name in Hn. rewrite !andb_true_iff, forallb_forall in Hn. destruct Hn as [[Hn _] _].
    apply Forall_forall. intros c Hc%list_elem_of_In. left. by apply Hn. }
  destruct segs as [|m segs]; [done|]. change (join (text "/") (n :: m :: segs)) with (n ++ text "/" ++ join (text "/") (m :: segs)).
  apply Forall_app. split; [done|]. apply Forall_app. split; [|done]. change (text "/") with [47]. apply Forall_singleton. by right.
Qed.

Lemma path_char_ok c : plain_char c = true \/ c = 47 -> is_whitespace c = false /\ c <> 59 /\ c <> 62.
Proof.
  intros [Hc| ->]; [|by vm_compute]. unfold plain_char in Hc. rewrite !orb_true_iff, !andb_true_iff, !Z.leb_le in Hc. cbn in Hc.
  rewrite !orb_true_iff, !Z.eqb_eq in Hc. split; [|lia]. unfold is_whitespace. apply not_true_iff_false.
  rewrite !orb_true_iff, !andb_true_iff, !Z.leb_le. cbn. rewrite !orb_true_iff, !Z.eqb_eq. lia.
Qed.

Lemma path_of_ok segs : plain_path segs -> path_of segs <> [] /\ tight (path_of segs) /\ (59 ∉ path_of segs) /\ (62 ∉ path_of segs).
Proof.
  intros Hp. pose proof (path_of_chars segs Hp) as Hc. rewrite Forall_forall in Hc.
  assert (Hall : forall c, c ∈ path_of segs -> is_whitespace c = false /\ c <> 59 /\ c <> 62) by (intros c Hin; apply path_char_ok; by apply Hc).
  split; [|split; [|split; intros Hin; by destruct (Hall _ Hin) as (_ & ? & ?)]].
  - destruct Hp as [Hne Hs]. destruct segs as [|n segs]; [done|]. apply Forall_cons in Hs as [Hn _].
    assert (Hnn : n <> []) by (intros ->; done). unfold path_of. destruct n as [|c n]; [done|]. by destruct segs.
  - unfold tight. destruct (head (path_of segs)) as [a|] eqn:Ea; [|done]. destruct (last (path_of segs)) as [b|] eqn:Eb; [|done].
    apply head_Some_elem_of in Ea. apply last_Some_elem_of in Eb. split; by apply Hall.
Qed.

Lemma entry_tight d s : d <> [] -> tight d -> s <> [] -> tight s -> forall m, tight (d ++ m ++ s).
Proof.
  intros Hd Td Hs Ts m. unfold tight. destruct d as [|a d]; [done|]. cbn [app head].
  assert (El : last (a :: d ++ m ++ s) = last s).
  { change (a :: d ++ m ++ s) with ((a :: d) ++ m ++ s). rewrite app_assoc, last_app. destruct (last s) eqn:E; [done|]. by apply last_None in E. }
  rewrite El. destruct (last s) as [b|] eqn:E; [|done]. unfold tight in *. cbn [head] in Td. rewrite E in Ts.
  destruct s as [|c s]; [done|]. cbn [head] in Ts. destruct (last (a :: d)) as [e|] eqn:E'; [|by apply last_None in E'].
  split; [apply Td|apply Ts].
Qed.

Lemma parse_entry_ok segs src : plain_path segs -> src_ok src -> parse_entry (path_of segs ++ text "->" ++ src) = Done (path_of segs, src).
Proof.
  intros Hp (S1 & S2 & S3 & S4). destruct (path_of_ok segs Hp) as (P1 & P2 & P3 & P4). unfold parse_entry.
  rewrite trim_id by (by apply entry_tight).
  assert (E : str_split (text "->") (path_of segs ++ text "->" ++ src) = [path_of segs; src]).
  { apply (split_join [45] 62 ltac:(by intros [=]%list_elem_of_singleton) (path_of segs) [src]). by repeat constructor. }
  rewrite E. cbn [lookup list_lookup or_panic mbind outcome_bind]. by rewrite !trim_id.
Qed.

Lemma parse_entries_ok files : forall acc, Forall (fun f => plain_path f.1 /\ src_ok f.2) files ->
  foldM (fun files entry => f ← parse_entry entry; Done (files ++ [f])) acc (map (fun f => path_of f.1 ++ text "->" ++ f.2) files) =
  Done (acc ++ map (fun f => (path_of f.1, f.2)) files).
Proof.
  induction files as [|f files IH]; intros acc Hf; cbn [map foldM]; [by rewrite app_nil_r|]. apply Forall_cons in Hf as [[F1 F2] Hf].
  rewrite parse_entry_ok by done. rewrite !Done_bind, IH by done. by rewrite <- app_assoc.
Qed.

(** A list of files survives being written as an argument. *)
Lemma parse_mapping_ok files : files <> [] -> Forall (fun f => plain_path f.1 /\ src_ok f.2) files ->
  parse_mapping (mapping_of files) = Done (map (fun f => (path_of f.1, f.2)) files).
Proof.
  intros Hne Hf. unfold parse_mapping, mapping_of.
  assert (E : str_split (text ";") (join (text ";") (map (fun f => path_of f.1 ++ text "->" ++ f.2) files)) =
    map (fun f => path_of f.1 ++ text "->" ++ f.2) files).
  { destruct files as [|f files]; [done|]. cbn [map]. apply (split_join [] 59); [apply not_elem_of_nil|].
    change (Forall (fun y => 59 ∉ y) (map (fun f => path_of f.1 ++ text "->" ++ f.2) (f :: files))). apply Forall_map.
    eapply Forall_impl; [exact Hf|]. intros [segs src] [Hp (_ & _ & S3 & _)]. cbn [fst snd] in *. destruct (path_of_ok segs Hp) as (_ & _ & P3 & _).
    change (text "->") with [45; 62]. rewrite !elem_of_app, !elem_of_cons, elem_of_nil. intros [?|[[?|[?|?]]|?]]; done. }
  rewrite E. by apply (parse_entries_ok files []).
Qed.

Section Build.
Context {V : Type} {FF : FatFs V} {FS : FatFsSpec V FF} {T : Type} {G : GptDisk T} {GS : GptDiskSpec T G}.

(** C39. Building the disk image: for plain, non-conflicting paths and a volume of
    the computed size with room for the files, the builder returns.  The volume
    holds exactly the listed files with the bytes of their sources and the
    directories above them.  The partition table found on the disk has one entry, an
    EFI partition of the size of the volume, and its blocks are the volume, byte for
    byte. *)
Theorem image_holds_files host files prog out v0 :
  files <> [] -> conflict_free files -> Forall (file_ok host) files -> Forall src_ok (map snd files) ->
  needed host files < 2 ^ 62 -> format_volume (image_size (needed host files)) = Some v0 -> files_cost host files <= fv_free v0 ->
  exists disk v id p, build_image host [prog; mapping_of files; out] = Done (Some (out, disk)) /\
    holds host files v /\ b_len (volume_bytes v) = image_size (needed host files) /\ on_disk (volume_bytes v) disk id p.
Proof.
  intros Hne Hcf Hok Hsrc Hn Hv Hc. unfold build_image. cbn [lookup list_lookup from_option id].
  rewrite parse_mapping_ok; [|done|].
  2: { apply Forall_forall. intros f Hf. rewrite Forall_forall in Hok. split; [by apply Hok|]. rewrite Forall_map, Forall_forall in Hsrc. by apply Hsrc. }
  rewrite Done_bind. destruct (construct_ok host files v0 Hcf Hok Hn Hv Hc) as (v & E & Hh & L). rewrite E. cbn [try_bind mbind outcome_bind].
  pose proof (needed_nonneg host files). destruct (image_size_ok (needed host files)) as (_ & B & D); [lia|]. rewrite <- L in B, D.
  assert (MB = 1048576) by done.
  destruct (create_gpt_disk_ok (volume_bytes v)) as (disk & id & p & E' & Hd); [lia|done|]. rewrite E'. cbn [try_bind mbind outcome_bind].
  by exists disk, v, id, p.
Qed.
End Build.

(** The kernel is linked at the level-4 entry the bootloader loads it to, so it is
    not moved; the first program is linked at the first entry of the upper half. *)
Lemma linked_in_place : KERNEL_VA_BASE = p4_base (Z.of_nat KERNEL_BYTES_P4) /\ BOOTSTRAP_VA_BASE = p4_base 256.
Proof. done. Qed.

(** Without arguments the image gets the bootloader and the kernel, but not the
    file [bootstrap] that the bootloader asks for. *)
Lemma default_mapping_files :
  parse_mapping DEFAULT_FILES_MAPPING =
    Done [(FILE_UEFI_BOOT, text "target/x86_64-unknown-uefi/debug/bootloader.efi"); (FILE_KERNEL, text "target/x86_64-unknown-none/debug/kernel")].
Proof. vm_compute. reflexivity. Qed.

(** ** An instance: a volume that is its tree *)

Record TreeVolume : Type := mkTree { tv_len : Z; tv_free : Z; tv_tree : gmap (list (list Z)) node }.

Definition tree_at (path : list Z) : list (list Z) := key (segments path).

Definition parent_ok (k : list (list Z)) (v : TreeVolume) : bool :=
  let p := take (length k - 1) k in
  bool_decide (p = []) || match tv_tree v !! p with Some Dir => true | _ => false end.

(** A new entry. *)
Definition tree_enter (k : list (list Z)) (n : node) (v : TreeVolume) : option TreeVolume :=
  if parent_ok k v && (1 <=? tv_free v) then Some (mkTree (tv_len v) (tv_free v - 1) (<[k := n]> (tv_tree v))) else None.

#[local] Instance tree_fs : FatFs TreeVolume := {|
  format_volume n := Some (mkTree n (n / 512) ∅);
  create_dir path v :=
    match tv_tree v !! tree_at path with
    | None => tree_enter (tree_at path) Dir v
    | Some Dir => Some v
    | Some (File _) => None
    end;
  create_file path v :=
    match tv_tree v !! tree_at path with
    | None => tree_enter (tree_at path) (File []) v
    | Some Dir => None
    | Some (File _) => Some v
    end;
  truncate path v := Some (mkTree (tv_len v) (tv_free v) (<[tree_at path := File []]> (tv_tree v)));
  copy_into path b v :=
    if Z.of_nat (length b) <=? tv_free v then
      Some (mkTree (tv_len v) (tv_free v - Z.of_nat (length b)) (<[tree_at path := File b]> (tv_tree v)))
    else None;
  volume_bytes v := mkBytes (tv_len v) (fun x => x mod 251)
|}.

Lemma parent_ok_snoc segs n v : segs = [] \/ tv_tree v !! key segs = Some Dir -> parent_ok (key (segs ++ [n])) v = true.
Proof.
  intros H. unfold parent_ok. rewrite key_length, length_app. cbn [length]. rewrite Nat.add_sub, <- key_take, take_app_length.
  destruct H as [->|H]; [done|]. rewrite H. apply orb_true_r.
Qed.

#[local] Program Instance tree_fs_spec : FatFsSpec TreeVolume tree_fs := {|
  fv := tv_tree;
  fv_free := tv_free;
  entry_cost := 1;
  data_cost n := Z.max 0 n
|}.
Next Obligation. intros n. cbn. lia. Qed.
Next Obligation. intros n v [= <-]. done. Qed.
Next Obligation.
  intros segs n v Hp Hpar Hnone Hc. cbn [create_dir tree_fs]. unfold tree_at. rewrite segments_path by done. cbn in Hc |- *. rewrite Hnone.
  unfold tree_enter. rewrite parent_ok_snoc, (proj2 (Z.leb_le _ _)) by done. eexists. split; [done|]. cbn. split_and!; done || lia.
Qed.
Next Obligation.
  intros segs v Hp Hd. cbn [create_dir tree_fs]. unfold tree_at. rewrite segments_path by done. rewrite Hd. exists v. split_and!; done || lia.
Qed.
Next Obligation.
  intros segs n v Hp Hpar Hnone Hc. cbn [create_file tree_fs]. unfold tree_at. rewrite segments_path by done. cbn in Hc |- *. rewrite Hnone.
  unfold tree_enter. rewrite parent_ok_snoc, (proj2 (Z.leb_le _ _)) by done. eexists. split; [done|]. cbn. split_and!; done || lia.
Qed.
Next Obligation.
  intros segs b v Hp Hf. cbn [truncate tree_fs]. unfold tree_at. rewrite segments_path by done. eexists. split; [done|]. cbn. split_and!; done || lia.
Qed.
Next Obligation.
  intros segs b v Hp Hf Hc. cbn [copy_into tree_fs]. unfold tree_at. rewrite segments_path by done.
  change (Z.max 0 (Z.of_nat (length b)) <= tv_free v) in Hc. rewrite (proj2 (Z.leb_le _ _)) by lia.
  eexists. split; [done|]. cbn [tv_tree tv_free tv_len volume_bytes tree_fs b_len]. split_and!; done || lia.
Qed.

(** ** An instance: a table of one partition, in words behind the header *)

Definition GPT_SIGNATURE : Z := 0x5452415020494645.

Definition entry_words (id : Z) (p : Partition) : list Z :=
  [GPT_SIGNATURE; id; p_type p / 2 ^ 64; p_type p mod 2 ^ 64; p_flags p; p_first p; p_last p; Z.of_nat (length (p_name p))] ++ p_name p.

Definition word_of (mem : Z -> Z) (i : nat) : Z := load64 mem (4096 - 8 * (Z.of_nat i + 1)).

Definition read_entry (mem : Z -> Z) : option (gmap Z Partition) :=
  if word_of mem 0 =? GPT_SIGNATURE then
    let n := Z.to_nat (word_of mem 7) in
    if (36 <? n)%nat then None
    else Some {[ word_of mem 1 := mkPartition (map (fun i => word_of mem (8 + i)) (seq 0 n)) (word_of mem 2 * 2 ^ 64 + word_of mem 3)
      (word_of mem 4) (word_of mem 5) (word_of mem 6) ]}
  else None.

Lemma entry_words_fit id p : fits 32 id -> entry_fits p -> Forall (fits 64) (entry_words id p).
Proof.
  intros Hid (N1 & N2 & Ht & Hfl & Hfi & Hla). unfold fits in *. unfold entry_words.
  pose proof (Z.mod_pos_bound (p_type p) (2 ^ 64) ltac:(lia)).
  assert (0 <= p_type p / 2 ^ 64 < 2 ^ 64) by (split; [apply Z.div_pos; lia|apply Z.div_lt_upper_bound; lia]).
  apply Forall_app. split; [|eapply Forall_impl; [exact N2|]; cbn; lia].
  repeat (apply Forall_cons; split; [unfold GPT_SIGNATURE; lia|]). by apply Forall_nil.
Qed.

Lemma read_entry_words id p mem : fits 32 id -> entry_fits p -> read_entry (pushed (entry_words id p) 4096 mem) = Some {[ id := p ]}.
Proof.
  intros Hid Hp. pose proof (entry_words_fit id p Hid Hp) as Hf.
  assert (Hw : forall i w, entry_words id p !! i = Some w -> word_of (pushed (entry_words id p) 4096 mem) i = w).
  { intros i w Hi. apply load64_pushed; [done|]. exact (Forall_lookup_1 _ _ _ _ Hf Hi). }
  destruct Hp as (N1 & _). unfold read_entry. rewrite (Hw 0%nat GPT_SIGNATURE), Z.eqb_refl by done. rewrite (Hw 7%nat _ eq_refl), Nat2Z.id.
  rewrite (proj2 (Nat.ltb_ge _ _)) by lia. rewrite (Hw 1%nat _ eq_refl), (Hw 2%nat _ eq_refl), (Hw 3%nat _ eq_refl), (Hw 4%nat _ eq_refl),
    (Hw 5%nat _ eq_refl), (Hw 6%nat _ eq_refl). do 2 f_equal. destruct p as [name ty fl fi la]. cbn [p_name p_type p_flags p_first p_last] in *. f_equal.
  - apply list_eq. intros i. rewrite list_lookup_fmap. destruct (name !! i) as [c|] eqn:Ec.
    + rewrite lookup_seq_lt by (by apply lookup_lt_Some in Ec). cbn. f_equal. apply Hw. exact Ec.
    + apply lookup_ge_None in Ec. rewrite lookup_seq_ge by done. done.
  - rewrite Z.mul_comm, <- Z.div_mod by lia. done.
Qed.

Record WordTable : Type := mkWordTable { wt_blocks : Z; wt_parts : gmap Z Partition }.

#[local] Instance word_gpt : GptDisk WordTable := {|
  mbr_block lb x := if x =? 510 then 0x55 else if x =? 511 then 0xaa else 0;
  create_from_device disk := Some (mkWordTable (b_len disk / 512) ∅);
  update_partitions m g := Some (mkWordTable (wt_blocks g) m);
  add_partition name size type flags _ g :=
    if 67 + size / 512 <=? wt_blocks g then
      Some (1, mkWordTable (wt_blocks g) (<[1 := mkPartition name type flags 34 (34 + size / 512 - 1)]> (wt_parts g)))
    else None;
  partitions := wt_parts;
  bytes_start p := if p_first p * 512 <? 2 ^ 64 then Some (p_first p * 512) else None;
  gpt_write g disk :=
    match map_to_list (wt_parts g) with
    | [(id, p)] => Some (mkBytes (b_len disk) (pushed (entry_words id p) 4096 (b_at disk)))
    | _ => None
    end
|}.

#[local] Program Instance word_gpt_spec : GptDiskSpec WordTable word_gpt := {|
  table_of d := if 67 * 512 <=? b_len d then read_entry (b_at d) else None;
  gpt_blocks := wt_blocks
|}.
Next Obligation.
  intros d d' Hl H. cbn. rewrite <- Hl. destruct (67 * 512 <=? b_len d); [|done].
  assert (E : forall i, (i < 44)%nat -> word_of (b_at d) i = word_of (b_at d') i).
  { intros i Hi. apply load64_outside. intros x Hx. apply H. lia. }
  unfold read_entry. rewrite (E 0%nat), (E 1%nat), (E 2%nat), (E 3%nat), (E 4%nat), (E 5%nat), (E 6%nat), (E 7%nat) by lia. destruct (_ =? _); [|done]. destruct (Nat.ltb_spec 36 (Z.to_nat (word_of (b_at d') 7))); [done|].
  do 3 f_equal. apply map_ext_in. intros i Hi%in_seq. apply E. lia.
Qed.
Next Obligation. intros disk _. by eexists. Qed.
Next Obligation. intros g. by eexists. Qed.
Next Obligation.
  intros name size type flags g Hg _ Hs _ Hb. cbn [add_partition partitions word_gpt] in *. rewrite (proj2 (Z.leb_le _ _)) by done. rewrite Hg.
  eexists 1, _, _. split; [done|]. cbn [partitions word_gpt wt_parts p_name p_type p_flags p_first p_last].
  rewrite insert_empty. unfold fits. split_and!; try done; cbn [p_last]; lia.
Qed.
Next Obligation. intros p _ H. cbn. by rewrite (proj2 (Z.ltb_lt _ _)). Qed.
Next Obligation.
  intros g id p disk Hg Hid Hp Hl _. cbn [gpt_write partitions word_gpt] in *. rewrite Hg, map_to_list_singleton. eexists. split; [done|]. cbn [b_len b_at]. split; [done|].
  rewrite (proj2 (Z.leb_le _ _)) by done. split; [by apply read_entry_words|]. intros x Hx. apply pushed_outside.
  destruct Hp as [N1 _]. unfold entry_words. rewrite length_app. cbn [length]. lia.
Qed.

Definition sample_host (path : list Z) : option (list Z) :=
  if bool_decide (path = text "out/boot.efi") then Some [77; 90; 1]
  else if bool_decide (path = text "out/kernel") then Some [127; 69; 76; 70]
  else None.

Definition sample_files : list (list (list Z) * list Z) :=
  [([text "EFI"; text "BOOT"; text "BOOTX64.EFI"], text "out/boot.efi"); ([text "kernel-x86_64"], text "out/kernel")].

Lemma sample_conflict_free : conflict_free sample_files.
Proof.
  intros [|[|i]] [|[|j]] f g [= <-] [= <-] Hij [k E]; done.
Qed.

Lemma image_holds_files_witness : exists disk id p,
  build_image sample_host [text "build-image"; mapping_of sample_files; text "os.img"] = Done (Some (text "os.img", disk)) /\
  b_len disk = 2 * MB + 0x10000 /\ table_of disk = Some {[ id := p ]} /\ p_type p = EFI /\ b_at disk (p_first p * 512 + 300) = 49.
Proof.
  destruct (image_holds_files sample_host sample_files (text "build-image") (text "os.img") (mkTree (2 * MB) 4096 ∅))
    as (disk & v & id & p & E & _ & L & [D1 _ D2 [D3 _] _ D4]).
  - done.
  - exact sample_conflict_free.
  - unfold sample_files. rewrite !Forall_cons, Forall_nil. unfold file_ok, plain_path. cbn [fst snd]. rewrite !Forall_cons, !Forall_nil.
    split_and!; done || by eexists.
  - unfold sample_files. cbn [map snd]. rewrite !Forall_cons, Forall_nil. unfold src_ok, tight.
    split_and!; try done; apply (bool_decide_unpack _); vm_compute; done.
  - vm_compute. reflexivity.
  - vm_compute. reflexivity.
  - vm_compute. discriminate.
  - assert (Es : image_size (needed sample_host sample_files) = 2 * MB) by (vm_compute; reflexivity). rewrite Es in L.
    exists disk, id, p. split; [exact E|]. rewrite D1, L. split; [reflexivity|]. split; [exact D2|]. split; [exact D3|].
    rewrite D4; [reflexivity|]. rewrite L. unfold MB. lia.
Defined.
