(* ===== verification/Boot.v ===== *)
(** * The bootloader's hand-over to the kernel

    The part of [efi_main] in [bootloader-efi/src/main.rs] that runs after the
    firmware's boot services are gone, and [context.rs]: the frame allocator,
    the two page tables, the mappings of physical memory, the kernel, the first
    program, the stack, the framebuffer and the argument, the list of memory the
    kernel must not use, and the jump into the kernel.  The steps are those of
    BootFrameAlloc.v, RuntimeMap.v and LoadKernel.v; here they are put together,
    and the result is composed with the kernel's own frame allocator. *)

From S2P Require Import Prelude Platform Shared Paging Machine UserAddrSpace Elf ElfImage KFrameAlloc BootFrameAlloc TrackedMapper RuntimeMap LoadKernel.

(** The control registers the boot changes. *)
Record ControlRegs : Type := mkControlRegs { cr_efer : Z; cr_cr0 : Z }.

(** What the firmware and the files on disk supply; the memory map is sorted. *)
Record BootInput (E : Type) : Type := mkBootInput {
  in_memory_map : list MemoryDescriptor;
  in_boot_table : list E;
  in_kernel : Z * Z;
  in_bootstrap : Z * Z;
  in_framebuffer : option Framebuffer;
  in_acpi : AcpiSettings;
  in_mem : Z -> Z;
  in_ctrl : ControlRegs;
  (** where the argument of the kernel lies *)
  in_arg_ptr : Z
}.
Arguments mkBootInput {E} _ _ _ _ _ _ _ _ _.
Arguments in_memory_map {E} _.
Arguments in_boot_table {E} _.
Arguments in_kernel {E} _.
Arguments in_bootstrap {E} _.
Arguments in_framebuffer {E} _.
Arguments in_acpi {E} _.
Arguments in_mem {E} _ _.
Arguments in_ctrl {E} _.
Arguments in_arg_ptr {E} _.

(** The processor as it enters the kernel. *)
Record EntryCpu : Type := mkEntryCpu { ec_cr3 : Z; ec_rip : Z; ec_rsp : Z; ec_rdi : Z; ec_rbp : Z }.

Record HandOver (PT : Type) : Type := mkHandOver {
  ho_cpu : EntryCpu;
  ho_ctrl : ControlRegs;
  ho_arg : KernelArg;
  ho_table : TrackedMapper PT;
  ho_frames : LinearIncFrameAllocator MemoryDescriptor;
  ho_mem : Z -> Z
}.
Arguments mkHandOver {PT} _ _ _ _ _ _.
Arguments ho_cpu {PT} _.
Arguments ho_ctrl {PT} _.
Arguments ho_arg {PT} _.
Arguments ho_table {PT} _.
Arguments ho_frames {PT} _.
Arguments ho_mem {PT} _ _.

(** [slice[..n]] *)
Definition slice_to {T} (l : list T) (n : nat) : outcome (list T) :=
  if (n <=? length l)%nat then Done (take n l) else Panic.

Definition kernel_stack_size : Z := 4096 * 128.

(** [EferFlags::NO_EXECUTE_ENABLE], [Cr0Flags::WRITE_PROTECT] and
    [Cr0Flags::PROTECTED_MODE_ENABLE]; [update] keeps the other bits. *)
Definition NO_EXECUTE_ENABLE : Z := Z.shiftl 1 11.
Definition WRITE_PROTECT : Z := Z.shiftl 1 16.
Definition PROTECTED_MODE_ENABLE : Z := 1.
Definition enable_protection (c : ControlRegs) : ControlRegs :=
  mkControlRegs (Z.lor (cr_efer c) NO_EXECUTE_ENABLE) (Z.lor (cr_cr0 c) (Z.lor WRITE_PROTECT PROTECTED_MODE_ENABLE)).

Section Boot.
Context {X : X86Addr} {V : X86Virt} {VT : X86Step} {F : PtFlags} {PT : Type} {M : Mapper PT}.
Context {U : UefiMemoryType} {S : RegionSort}.
(** [ElfFile::new], an unused entry of a page table, the size the compiler gives
    the argument, and what the uninitialised array of regions holds. *)
Context (elf_file_new : list Z -> option ElfFile) {E : Type} (unused : E) (KERNEL_ARG_LEN : Z).
Context (junk : list MemoryRegion).

(** One byte of a push through the page table [pt]; a page that is absent or
    not writable faults. *)
Definition push_byte (pt : PT) (mem : Z -> Z) (v : Z) : outcome (Z -> Z) :=
  match translate pt v with
  | Mapped (Frame4KiB f | Frame2MiB f | Frame1GiB f) o fl =>
      if flags_contain fl PT_WRITABLE then Done (fun y => if decide (y = f + o) then 0 else mem y) else Panic
  | _ => Panic
  end.

(** [context_switch]: the table is loaded before the zero is pushed. *)
Definition context_switch (pt : PT) (pml4_table stack_top entry arg : Z) (mem : Z -> Z)
  : outcome (EntryCpu * (Z -> Z)) :=
  let rsp := wrap 64 (stack_top - 8) in
  mem ← foldM (push_byte pt) mem (seqZ rsp 8);
  Done (mkEntryCpu pml4_table entry rsp arg 0, mem).

(** What the boot has mapped before it hands over. *)
Record Mappings : Type := mkMappings {
  bm_pml4 : Z;
  bm_phys : Z;
  bm_ctrl : ControlRegs;
  bm_kernel : LoadKernel;
  bm_bootstrap : Z;
  bm_gdt : Z;
  bm_stack_top : Z;
  bm_framebuffer : option Z;
  bm_state : BootState PT (LinearIncFrameAllocator MemoryDescriptor)
}.

(** [efi_main], from [memory_map.sort()] to the framebuffer. *)
Definition boot_mappings (i : BootInput E) : outcome Mappings :=
  a ← allocator_new (in_memory_map i);
  '(_, _, a) ← map_boot_stage_page_table allocate_frame unused (in_boot_table i) a;
  '(m, pml4, a) ← create_page_table (PT := PT) allocate_frame a;
  top ← max_phys_addr a;
  '(phys, m, a) ← map_physics_memory allocate_frame top m a;
  let ctrl := enable_protection (in_ctrl i) in
  '(lk, s) ← load_kernel_to_virt_mem allocate_frame elf_file_new (in_kernel i).1 (in_kernel i).2 (mkBootState m a (in_mem i));
  '(bootstrap, m, a) ← map_bootstrap allocate_frame (in_bootstrap i).1 (in_bootstrap i).2 (bs_table s) (bs_frames s);
  '(gdt, a) ← gdt_frame allocate_frame a;
  '(stack, m, a) ← alloc_and_map_kernel_stack allocate_frame kernel_stack_size m a;
  stack_end ← virt_addr_add stack kernel_stack_size;
  '(fb_addr, m, a) ←
    match in_framebuffer i with
    | Some f => '(r, m, a) ← map_framebuffer allocate_frame (fb_ptr f) (fb_len f) m a; Done (Some r, m, a)
    | None => Done (None, m, a)
    end;
  Done (mkMappings pml4 phys ctrl lk bootstrap gdt (align_down stack_end 16) fb_addr (mkBootState m a (bs_mem s))).

(** The rest: the regions, the argument and the switch. *)
Definition hand_over (i : BootInput E) (b : Mappings) : outcome (HandOver PT) :=
  let a := bs_frames (bm_state b) in
  io_apics ← slice_to (io_apic (in_acpi i)) (io_apic_count (in_acpi i));
  regions ← construct_unsafe_phys_mem_region_map junk (in_memory_map i) a (in_framebuffer i) (in_kernel i) (in_bootstrap i)
    (local_apic_base (in_acpi i)) io_apics (bm_gdt b) (bm_pml4 b);
  phys_size ← max_phys_addr a;
  let fb {T} (g : Framebuffer -> T) (d : T) := default d (g <$> in_framebuffer i) in
  let kernel_arg := mkKernelArg (lk_kernel_virt_space_offset (bm_kernel b)) (bm_gdt b) (bm_pml4 b) (in_acpi i)
    (bm_stack_top b) kernel_stack_size (default 0 (bm_framebuffer b)) (fb fb_len 0) (fb fb_width 0) (fb fb_height 0)
    (fb fb_stride 0) (bm_phys b) phys_size regions.1 regions.2 (bm_bootstrap b) (in_bootstrap i).2
    (default (mkTlsTemplate 0 0 0) (tls_template (bm_kernel b))) in
  '(arg_addr, kernel_arg, m, a) ← map_kernel_arg (in_arg_ptr i) KERNEL_ARG_LEN kernel_arg (bs_table (bm_state b)) a;
  '(cpu, mem) ← context_switch (inner m) (bm_pml4 b) (bm_stack_top b) (kernel_entry (bm_kernel b)) arg_addr
    (bs_mem (bm_state b));
  Done (mkHandOver cpu (bm_ctrl b) kernel_arg m a mem).

Definition efi_runtime (i : BootInput E) : outcome (HandOver PT) :=
  b ← boot_mappings i;
  hand_over i b.
End Boot.

(** ** The frames of a boot *)

Section Source.
Context {X : X86Addr} {XS : X86AddrSpec X} {U : UefiMemoryType}.
Context (mm : list MemoryDescriptor).

(** An allocator over the memory map, at any point of the boot: a usable frame
    is still to come, or lies below the next frame. *)
Record boot_source_inv (a : LinearIncFrameAllocator MemoryDescriptor) : Prop := {
  si_inv : alloc_inv a;
  si_original : original a = mm;
  si_start : start_phys_addr a = 0x100000;
  si_past f : f ∈ usable_frames 0x100000 mm -> f ∈ remaining a \/ f + PAGE_SIZE <= next_frame a
}.

Definition boot_source : FrameSourceSpec (A := LinearIncFrameAllocator MemoryDescriptor) allocate_frame.
Proof.
  refine {| fs_inv := boot_source_inv; fs_frames := remaining |}.
  - intros a [Hi Ho Hs Hp] _. destruct (allocate_frame_spec a Hi) as (a' & E & [R1 R2 R3 R4 R5 R6]).
    exists a'. split; [done|]. split; [done|]. split; [done|congruence|congruence|].
    intros f Hf. destruct (Hp f Hf) as [Hr|Hr]; [|right; lia]. rewrite R1.
    destruct (remaining a) as [|g fs]; [by apply not_elem_of_nil in Hr|]. cbn [tail].
    apply elem_of_cons in Hr as [->|Hr]; [right; by apply R6|by left].
  - intros a [Hi _ _ _]. apply (fs_none (FrameSourceSpec := boot_frame_source) a Hi).
  - intros a [Hi _ _ _]. apply (fs_aligned (FrameSourceSpec := boot_frame_source) a Hi).
  - intros a [Hi _ _ _]. apply (fs_increasing (FrameSourceSpec := boot_frame_source) a Hi).
Defined.

Lemma boot_source_new : map_wf mm -> boot_source_inv (new_starting_at 0x100000 mm) /\
  remaining (new_starting_at 0x100000 mm) = usable_frames 0x100000 mm.
Proof.
  intros Hm. destruct (allocator_new_inv mm Hm) as (_ & Hi & Hr). split; [|done].
  split; try done. intros f Hf. left. by rewrite Hr.
Qed.

Lemma usable_frames_ok : map_wf mm -> Forall frame_ok (usable_frames 0x100000 mm).
Proof.
  intros [Hwf _]. apply Forall_forall. intros f Hf.
  apply elem_of_usable_frames in Hf as (d & s & n & _ & (_ & _ & H1 & _ & _ & H2) & _ & H3 & H4 & H5); [|done].
  split; [done|]. lia.
Qed.

(** [max_phys_addr] does not depend on what was allocated. *)
Lemma max_phys_addr_source a b : boot_source_inv a -> boot_source_inv b -> max_phys_addr a = max_phys_addr b.
Proof. intros [_ Ha _ _] [_ Hb _ _]. unfold max_phys_addr. by rewrite Ha, Hb. Qed.

Definition region_fits (r : MemoryRegion) : Prop := region_ok r /\ mr_start r + mr_length r < 2 ^ 64.

(** What was taken is in the region the allocator reports. *)
Lemma source_region a : boot_source_inv a -> exists r, allocated_region a = Done r /\ region_fits r /\
  forall f, f ∈ usable_frames 0x100000 mm ->
    f ∈ remaining a \/ (mr_start r <= f /\ f + PAGE_SIZE <= mr_start r + mr_length r).
Proof.
  intros [Hi _ Hs Hp]. eexists. split; [by apply allocated_region_ok|]. pose proof (ai_start _ Hi) as Hst.
  pose proof (ai_bound _ Hi). split; [split; [split; cbn; lia|cbn; lia]|]. intros f Hf. destruct (Hp f Hf) as [Hr|Hr]; [by left|right]. cbn [mr_start mr_length].
  rewrite Hs in *. apply list_elem_of_filter in Hf as [Hf _]. lia.
Qed.
End Source.

(** ** The hand-over *)

Section BootSpec.
Context {X : X86Addr} {XS : X86AddrSpec X} {V : X86Virt} {VS : X86VirtSpec V} {VT : X86Step} {VTS : X86StepSpec VT}.
Context {F : PtFlags} {FS : PtFlagsSpec F} {PT : Type} {M : Mapper PT} {MS : MapperSpec PT M}.
Context {U : UefiMemoryType} {S : RegionSort} {SS : RegionSortSpec S}.
Context (elf_file_new : list Z -> option ElfFile) {E : Type} (unused : E) (KERNEL_ARG_LEN : Z).
Context (junk : list MemoryRegion) (Hjunk : length junk = 512%nat).
Context (i : BootInput E) (fb : Framebuffer) (elf : ElfFile) (start size top : Z).

Abbreviation mm := (in_memory_map i).
Abbreviation kernel_ptr := (in_kernel i).1.
Abbreviation kernel_len := (in_kernel i).2.
Abbreviation off := (KERNEL_BASE - start).
Abbreviation frames := (usable_frames 0x100000 mm).
Abbreviation RW := (flags_or PT_PRESENT PT_WRITABLE).

(** A block of memory that can be mapped into one entry. *)
Definition block_ok (ptr len : Z) : Prop := 0 <= ptr /\ ptr + len < 2 ^ 52 /\ 0 < len <= 2 ^ 39 - PAGE_SIZE.

Definition block_cost (len : Z) : Z := 3 * (len + 2 * PAGE_SIZE).

Lemma block_cost_pos ptr len : block_ok ptr len -> 0 < block_cost len.
Proof. unfold block_ok, block_cost. page_lia. Qed.

(** A machine that can boot: a memory map below 512 GiB with enough free frames
    apart from the kernel's file, a kernel that can be loaded, the first program,
    a framebuffer, and room in the list of regions. *)
Record boot_ok : Prop := {
  bo_map : map_wf mm /\ Forall md_ok mm;
  bo_top : max_phys_addr (new_starting_at 0x100000 mm) = Done top /\ 0 < top <= 2 ^ 39;
  bo_table : is_Some (in_boot_table i !! 0%nat);
  bo_kernel : kernel_loadable (AS := boot_source mm) allocate_frame elf_file_new elf kernel_ptr kernel_len start size
    (mkBootState (tracked_new pt_empty Four) (new_starting_at 0x100000 mm) (in_mem i));
  bo_apart : Forall (fun f => f + PAGE_SIZE <= slice_lo kernel_ptr \/ slice_hi kernel_ptr kernel_len <= f) frames;
  bo_bootstrap : block_ok (in_bootstrap i).1 (in_bootstrap i).2;
  bo_framebuffer : in_framebuffer i = Some fb /\ block_ok (fb_ptr fb) (fb_len fb);
  bo_arg : block_ok (in_arg_ptr i) KERNEL_ARG_LEN;
  bo_regions : (io_apic_count (in_acpi i) <= length (io_apic (in_acpi i)))%nat /\
    (length mm + io_apic_count (in_acpi i) + 9 <= 512)%nat /\ 0 <= local_apic_base (in_acpi i) < 2 ^ 52 /\
    Forall (fun io => 0 <= ioapic_address io < 2 ^ 52) (io_apic (in_acpi i));
  bo_frames : PAGE_SIZE * (515 + Z.of_nat (total_cost off (program_iter elf))) + block_cost (in_bootstrap i).2 +
    4 * (kernel_stack_size + 2 * PAGE_SIZE) + block_cost (fb_len fb) + block_cost KERNEL_ARG_LEN
    <= PAGE_SIZE * Z.of_nat (length frames)
}.

(** The allocator after at most [n] bytes of frames were taken. *)
Definition supply (n : Z) (a : LinearIncFrameAllocator MemoryDescriptor) : Prop :=
  boot_source_inv mm a /\ exists k, PAGE_SIZE * Z.of_nat k <= n /\ remaining a = drop k frames.

Lemma supply_drop n c a a' : supply n a -> boot_source_inv mm a' ->
  (exists k, PAGE_SIZE * Z.of_nat k <= c /\ remaining a' = drop k (remaining a)) -> supply (n + c) a'.
Proof.
  intros [_ (k & Hk & Hr)] Hi (j & Hj & Hr'). split; [done|]. exists (k + j)%nat.
  split; [lia|]. by rewrite Hr', Hr, drop_drop.
Qed.

Lemma supply_length n a : supply n a -> PAGE_SIZE * Z.of_nat (length frames) <= n + PAGE_SIZE * Z.of_nat (length (remaining a)).
Proof. intros [_ (k & Hk & ->)]. rewrite length_drop. page_lia. Qed.

Lemma take_frame_supply n a : supply n a -> n < PAGE_SIZE * Z.of_nat (length frames) ->
  exists f a', take_frame allocate_frame a = Done (f, a') /\ supply (n + PAGE_SIZE) a' /\ f ∈ frames /\ (f ∉ remaining a') /\
    remaining a' = drop 1 (remaining a).
Proof.
  intros Hs Hn. pose proof (supply_length n a Hs) as Hl. destruct (remaining a) as [|f l] eqn:Er; [simpl in Hl; lia|].
  destruct (take_frame_ok (AS := boot_source mm) a f l (proj1 Hs) Er) as (a' & Ht & Hr & Hi & _). cbn in Hr, Hi.
  exists f, a'. split; [done|]. split; [|split; [|split; [|done]]].
  - apply (supply_drop n PAGE_SIZE a a' Hs Hi). exists 1%nat. split; [lia|]. by rewrite Er, Hr.
  - destruct Hs as [_ (k & _ & Hk)]. rewrite <- (take_drop k frames), <- Hk, Er.
    apply elem_of_app. right. left.
  - rewrite Hr. pose proof (fs_increasing (FrameSourceSpec := boot_source mm) a (proj1 Hs)) as Hinc. cbn in Hinc. rewrite Er in Hinc.
    intros Hin. inversion_clear Hinc as [|? ? _ Hall]. rewrite Forall_forall in Hall. specialize (Hall f Hin). page_lia.
Qed.

(** *** The steps *)

(** The tables of the boot, each from the one before. *)
Lemma tables_step a : boot_ok -> supply 0 a ->
  exists x y pml4 m00 m a' a'' a1,
    map_boot_stage_page_table allocate_frame unused (in_boot_table i) a = Done (x, y, a') /\
    create_page_table (PT := PT) allocate_frame a' = Done (m00, pml4, a'') /\
    max_phys_addr a'' = Done top /\ map_physics_memory allocate_frame top m00 a'' = Done (0, m, a1) /\
    supply (PAGE_SIZE * 514) a1 /\ topped m 511 /\ level m = Four /\ pml4 ∈ frames /\ (pml4 ∉ remaining a1) /\
    (forall x, 0 <= x < top ->
      exists f o, translate (inner m) x = Mapped (Frame1GiB f) o RW /\ f + o = x) /\
    (forall j, (256 <= j < 512)%nat -> slot_free (inner m) j).
Proof.
  intros [[B1 _] [B2 B2'] [e B3] _ _ B6 [_ B7] B8 _ B10] Hs.
  apply block_cost_pos in B6, B7, B8. unfold kernel_stack_size in B10.
  destruct (take_frame_supply 0 a Hs ltac:(page_lia)) as (f0 & a0 & E0 & S0 & _).
  destruct (take_frame_supply _ a0 S0 ltac:(page_lia)) as (pml4 & a1 & E1 & S1 & P1 & P2 & _).
  pose proof (supply_length _ _ S1) as Hlen.
  destruct (map_physics_memory_spec (AS := boot_source mm) (tracked_new pt_empty Four) a1 top) as
    (m & a2 & Em & T1 & T2 & T3 & (k & Hk & Hr) & T5 & T6); try done.
  { apply topped_new. } { apply pt_empty_view. } { apply pt_empty_huge. } { apply S1. } { cbn. page_lia. }
  cbn in Hr, T3. eexists _, _, pml4, _, m, a0, a1, a2. split.
  { unfold map_boot_stage_page_table. rewrite E0, Done_bind, B3. cbn [or_panic]. by rewrite Done_bind. }
  split; [unfold create_page_table; by rewrite E1, Done_bind|]. split.
  { by rewrite (max_phys_addr_source mm a1 (new_starting_at 0x100000 mm)) by (apply S1 || apply boot_source_new, B1). }
  split; [exact Em|]. split.
  { replace (PAGE_SIZE * 514) with (0 + PAGE_SIZE + PAGE_SIZE + PAGE_SIZE * 512) by lia.
    apply (supply_drop _ _ a1); [done|done|]. exists k. split; [page_lia|done]. }
  do 3 (split; [done|]). split; [|done]. rewrite Hr. intros Hin. apply P2.
  rewrite <- (take_drop k (remaining a1)). apply elem_of_app. by right.
Qed.

(** The side conditions of a step at the stage [G] with the frames [Su]. *)
Ltac stage_side G Su :=
  first [ by apply G | by apply Su
        | apply G; unfold BOOTSTRAP_BYTES_P4, KERNEL_STACK_P4, FRAMEBUFFER_P4, KERNEL_ARG_P4; lia
        | page_lia | cbn; page_lia | done ].

(** The entries up to [n] are still free. *)
Record stage (n : nat) (c : Z) (m : TrackedMapper PT) (a : LinearIncFrameAllocator MemoryDescriptor) : Prop := {
  sg_topped : topped m n;
  sg_level : level m = Four;
  sg_supply : supply c a;
  sg_free j : (256 <= j <= n)%nat -> slot_free (inner m) j
}.

Lemma stage_step j c c' m a m' a' : stage j c m a -> slot_mapped (AS := boot_source mm) c' m a j m' a' ->
  stage (j - 1) (c + c') m' a'.
Proof.
  intros [_ _ G3 G4] (S1 & S2 & S3 & S4 & S5). split; [done|done|by apply (supply_drop c c' a)|].
  intros k Hk. destruct S1 as (_ & Hj & _). apply (same_outside_free j k (inner m)); [done|lia|apply G4; lia].
Qed.

(** From [k] on, and in the low part, addresses translate as before. *)
Definition later (k : nat) (pt pt' : PT) : Prop :=
  (forall x, 0 <= x < 2 ^ 39 -> translate pt' x = translate pt x) /\
  (forall j x, (k <= j)%nat -> in_entry j x -> translate pt' x = translate pt x).

Lemma later_outside j k pt pt' : same_outside j pt pt' -> (j < k)%nat -> later k pt pt'.
Proof.
  intros Hs Hk. split.
  - intros x Hx. apply (same_outside_translate j); [done|]. unfold in_entry, slot_base.
    pose proof (Z.mod_pos_bound x PAGE_SIZE eq_refl). lia.
  - intros j' x Hj Hx. apply (other_entry_translate j' j); [done|lia|done].
Qed.

Lemma later_trans k pt1 pt2 pt3 : later k pt1 pt2 -> later k pt2 pt3 -> later k pt1 pt3.
Proof.
  intros [L1 L2] [L3 L4]. split; [intros x Hx; by rewrite L3, L1|]. intros j x Hj Hx. by rewrite (L4 j), (L2 j).
Qed.

Lemma later_visible j k pt pt' r ptr len fl : later k pt pt' -> (k <= j)%nat -> span_in_entry j r len ->
  visible_at pt r ptr len fl -> visible_at pt' r ptr len fl.
Proof.
  intros [_ L] Hk [Hr1 Hr2] Hv x Hx. destruct (Hv x Hx) as (f & o & Ht & Hfo). exists f, o.
  by rewrite (L j) by (done || unfold in_entry; lia).
Qed.

(** The kernel in its entry, and its pages apart from the frames still free. *)
Lemma kernel_step m a c : boot_ok -> stage 511 c m a -> c = PAGE_SIZE * 514 ->
  exists s', load_kernel_to_virt_mem allocate_frame elf_file_new kernel_ptr kernel_len (mkBootState m a (in_mem i)) =
      Done (mkLoadKernel (entry_point elf + off) off (image_tls off (program_iter elf)), s') /\
    stage 510 (c + PAGE_SIZE * Z.of_nat (total_cost off (program_iter elf))) (bs_table s') (bs_frames s') /\
    same_outside 511 (inner m) (inner (bs_table s')) /\
    (forall v b, image (in_mem i) kernel_ptr start off (program_iter elf) v = Some b ->
       in_entry KERNEL_BYTES_P4 v /\ kernel_byte s' v = Some b) /\
    (forall v f o fl, in_entry KERNEL_BYTES_P4 v -> translate (inner (bs_table s')) v = Mapped (Frame4KiB f) o fl ->
       (f ∉ remaining (bs_frames s')) /\ (PAGE_SIZE | f) /\ 0 <= o < PAGE_SIZE).
Proof.
  intros [[B1 _] _ _ B4 B5 B6 [_ B7] B8 _ B10] [G1 G2 G3 G4] ->.
  apply block_cost_pos in B6, B7, B8. unfold kernel_stack_size in B10. pose proof (supply_length _ _ G3) as Hlen.
  pose proof G3 as [G3' (k & _ & Hk)].
  destruct (load_kernel_ok (AS := boot_source mm) allocate_frame elf_file_new elf kernel_ptr kernel_len start size
    (mkBootState m a (in_mem i))) as (s' & E' & Hslot & H1 & H2 & _).
  - by eapply kernel_loadable_same.
  - split; cbn [bs_table bs_frames]; [done|by apply G4; lia|split; [done|]| |].
    + cbn. rewrite Hk. by apply Forall_drop, usable_frames_ok.
    + cbn. rewrite Hk. by apply Forall_drop.
    + cbn. page_lia.
  - exists s'. split; [done|]. split; [by eapply (stage_step 511)|]. split; [apply Hslot|]. split; [done|exact H2].
Qed.

(** The stack: its pages have frames of their own. *)
Definition stack_mapped (pt : PT) (fr : list Z) : Prop :=
  forall x, 0 <= x < kernel_stack_size + PAGE_SIZE ->
    exists f, f ∈ fr /\ translate pt (slot_base KERNEL_STACK_P4 + x) = Mapped (Frame4KiB f) (x mod PAGE_SIZE) RW.

(** The first program, the descriptor table, the stack and the framebuffer. *)
Lemma blocks_step m a c : boot_ok -> stage 510 c m a ->
  c = PAGE_SIZE * 514 + PAGE_SIZE * Z.of_nat (total_cost off (program_iter elf)) ->
  exists rb m2 a2 gdt a3 m3 a4 rf m4 a5 fr,
    map_bootstrap allocate_frame (in_bootstrap i).1 (in_bootstrap i).2 m a = Done (rb, m2, a2) /\
    gdt_frame allocate_frame a2 = Done (gdt, a3) /\
    alloc_and_map_kernel_stack allocate_frame kernel_stack_size m2 a3 = Done (slot_base KERNEL_STACK_P4 + PAGE_SIZE, m3, a4) /\
    map_framebuffer allocate_frame (fb_ptr fb) (fb_len fb) m3 a4 = Done (rf, m4, a5) /\
    stage 507 (c + block_cost (in_bootstrap i).2 + PAGE_SIZE + 4 * (kernel_stack_size + 2 * PAGE_SIZE) + block_cost (fb_len fb)) m4 a5 /\
    later 511 (inner m) (inner m4) /\ gdt ∈ frames /\
    (span_in_entry BOOTSTRAP_BYTES_P4 rb (in_bootstrap i).2 /\
     visible_at (inner m4) rb (in_bootstrap i).1 (in_bootstrap i).2 PT_PRESENT) /\
    (span_in_entry FRAMEBUFFER_P4 rf (fb_len fb) /\ visible_at (inner m4) rf (fb_ptr fb) (fb_len fb) RW) /\
    fr `sublist_of` remaining a /\ stack_mapped (inner m4) fr.
Proof.
  intros [_ _ _ _ _ B6 [_ B7] B8 _ B10] G1 ->.
  pose proof (block_cost_pos _ _ B8) as C3. unfold kernel_stack_size in *.
  pose proof (supply_length _ _ (sg_supply _ _ _ _ G1)) as N1. destruct B6 as (B6a & B6b & B6c), B7 as (B7a & B7b & B7c).
  unfold block_cost in B10, C3.
  destruct (map_bootstrap_spec (AS := boot_source mm) m a (in_bootstrap i).1 (in_bootstrap i).2)
    as (rb & m2 & a2 & E2 & Sl2 & Sp2 & V2); try stage_side G1 (sg_supply _ _ _ _ G1).
  pose proof (stage_step _ _ _ _ _ _ _ G1 Sl2) as G2.
  destruct (take_frame_supply _ _ (sg_supply _ _ _ _ G2) ltac:(page_lia)) as (gdt & a3 & E3 & Su3 & P3 & _ & Hk3).
  pose proof (supply_length _ _ Su3) as N3.
  destruct (kernel_stack_spec (AS := boot_source mm) m2 a3 (4096 * 128))
    as (m3 & a4 & fr & E4 & Sl4 & _ & Sub & Hst); try stage_side G2 Su3.
  assert (G3 : stage 509 _ m2 a3) by (split; [apply G2..|exact Su3|apply G2]).
  pose proof (stage_step _ _ _ _ _ _ _ G3 Sl4) as G4. pose proof (supply_length _ _ (sg_supply _ _ _ _ G4)) as N4.
  destruct (map_framebuffer_spec (AS := boot_source mm) m3 a4 (fb_ptr fb) (fb_len fb))
    as (rf & m4 & a5 & E5 & Sl5 & Sp5 & V5); try stage_side G4 (sg_supply _ _ _ _ G4).
  pose proof (stage_step _ _ _ _ _ _ _ G4 Sl5) as G5.
  exists rb, m2, a2, gdt, a3, m3, a4, rf, m4, a5, fr. do 4 (split; [done|]). split; [exact G5|].
  destruct Sl2 as (_ & _ & _ & (k2 & _ & Hk2) & O2), Sl4 as (_ & _ & _ & _ & O4), Sl5 as (_ & _ & _ & _ & O5).
  pose proof (fun k H => later_trans k _ _ _ (later_outside _ k _ _ O4 H) (later_outside _ k _ _ O5 ltac:(unfold FRAMEBUFFER_P4, KERNEL_STACK_P4 in *; lia))) as L4.
  split; [apply (later_trans 511 _ (inner m2)); [eapply later_outside; [done|unfold BOOTSTRAP_BYTES_P4; lia]|apply L4; unfold KERNEL_STACK_P4; lia]|].
  split; [done|]. split; [split; [done|]; eapply later_visible; [apply (L4 510%nat); unfold KERNEL_STACK_P4; lia| |done|done]; done|].
  split; [done|]. split.
  - etrans; [exact Sub|]. cbn in Hk2 |- *. rewrite Hk3, Hk2, drop_drop. apply sublist_drop.
  - intros x Hx. destruct (Hst x ltac:(unfold kernel_stack_size in Hx; lia)) as (f & Hf & Ht). exists f.
    split; [by eapply list_elem_of_lookup_2|]. rewrite <- Ht.
    apply (other_entry_translate KERNEL_STACK_P4 _ _ _ _ O5); [done|]. unfold in_entry, kernel_stack_size in *. page_lia.
Qed.

(** *** The push *)

Lemma RW_writable : flags_contain RW PT_WRITABLE = true.
Proof. unfold flags_contain, flags_or. rewrite PT_PRESENT_bit, PT_WRITABLE_bit. done. Qed.

Lemma push_zero pt n : forall v mem,
  (forall x, v <= x < v + Z.of_nat n -> exists f o, translate pt x = Mapped (Frame4KiB f) o RW) ->
  exists mem', foldM (push_byte pt) mem (seqZ v (Z.of_nat n)) = Done mem' /\
    forall y, mem' y = mem y \/
      exists x f o, v <= x < v + Z.of_nat n /\ translate pt x = Mapped (Frame4KiB f) o RW /\ y = f + o.
Proof.
  induction n as [|n IH]; intros v mem Hx; [exists mem; split; [done|by left]|].
  rewrite seqZ_cons by lia. cbn [foldM]. destruct (Hx v ltac:(lia)) as (f & o & Hv).
  assert (Hb : push_byte pt mem v = Done (fun y => if decide (y = f + o) then 0 else mem y)).
  { unfold push_byte. by rewrite Hv, RW_writable. }
  rewrite Hb, Done_bind. replace (Z.pred (Z.of_nat (Datatypes.S n))) with (Z.of_nat n) by lia.
  destruct (IH (Z.succ v) (fun y => if decide (y = f + o) then 0 else mem y)) as (mem' & Hf & Hm).
  { intros x Hin. apply Hx. lia. }
  exists mem'. split; [done|]. intros y. destruct (Hm y) as [Hy|(x & f' & o' & Hin & Ht & ->)].
  - rewrite Hy. case_decide; [right; exists v, f, o; split; [lia|done]|by left].
  - right. exists x, f', o'. split; [lia|done].
Qed.

Abbreviation STACK_TOP := (slot_base KERNEL_STACK_P4 + PAGE_SIZE + kernel_stack_size).

Lemma stack_top_ok : virt_addr_add (slot_base KERNEL_STACK_P4 + PAGE_SIZE) kernel_stack_size = Done STACK_TOP /\
  align_down STACK_TOP 16 = STACK_TOP /\ (16 | STACK_TOP).
Proof.
  assert (Hd : (16 | STACK_TOP)) by (by apply Z.mod_divide). split; [|split; [|done]].
  - apply virt_addr_add_ok; [|done|]; apply (slot_base_canonical KERNEL_STACK_P4); unfold KERNEL_STACK_P4, kernel_stack_size; page_lia.
  - change 16 with (2 ^ 4). rewrite align_down_spec by done. by rewrite Z.sub_0_r.
Qed.

(** Entering the kernel writes only to a page of its stack. *)
Lemma switch_step pt fr pml4 entry arg mem : stack_mapped pt fr ->
  exists mem', context_switch pt pml4 STACK_TOP entry arg mem = Done (mkEntryCpu pml4 entry (STACK_TOP - 8) arg 0, mem') /\
    forall y, mem' y = mem y \/ exists f o, f ∈ fr /\ 0 <= o < PAGE_SIZE /\ y = f + o.
Proof.
  intros Hst.
  assert (Hx : forall x, STACK_TOP - 8 <= x < STACK_TOP - 8 + Z.of_nat 8 -> exists f o, f ∈ fr /\ 0 <= o < PAGE_SIZE /\
    translate pt x = Mapped (Frame4KiB f) o RW).
  { intros x Hx. destruct (Hst (x - slot_base KERNEL_STACK_P4)) as (f & Hf & Ht); [unfold kernel_stack_size in *; page_lia|].
    exists f, ((x - slot_base KERNEL_STACK_P4) mod PAGE_SIZE). split; [done|]. split; [by apply Z.mod_pos_bound|].
    rewrite <- Ht. f_equal. lia. }
  unfold context_switch. replace (wrap 64 (STACK_TOP - 8)) with (STACK_TOP - 8) by (by vm_compute).
  destruct (push_zero pt 8 (STACK_TOP - 8) mem) as (mem' & Ep & Hm).
  { intros x Hin. destruct (Hx x Hin) as (f & o & _ & _ & Ht). eauto. }
  change (Z.of_nat 8) with 8 in Ep. rewrite Ep, Done_bind. exists mem'. split; [done|]. intros y.
  destruct (Hm y) as [Hy|(x & f & o & Hin & Ht & ->)]; [by left|right].
  destruct (Hx x Hin) as (f' & o' & Hf & Ho & Ht'). rewrite Ht in Ht'. injection Ht' as -> ->. by exists f', o'.
Qed.

(** *** The whole boot *)

Lemma enable_protection_bits c :
  (forall k, 0 <= k -> Z.testbit (cr_efer (enable_protection c)) k = bool_decide (k = 11) || Z.testbit (cr_efer c) k) /\
  (forall k, 0 <= k -> Z.testbit (cr_cr0 (enable_protection c)) k = bool_decide (k = 0 \/ k = 16) || Z.testbit (cr_cr0 c) k).
Proof.
  split; intros k Hk; cbn [enable_protection cr_efer cr_cr0]; unfold NO_EXECUTE_ENABLE, WRITE_PROTECT, PROTECTED_MODE_ENABLE;
    rewrite ?Z.shiftl_1_l, !Z.lor_spec, ?Z.pow2_bits_eqb by lia.
  - rewrite orb_comm. f_equal. case_bool_decide; lia.
  - change 1 with (2 ^ 0). rewrite Z.pow2_bits_eqb by lia. rewrite orb_comm. f_equal. case_bool_decide; lia.
Qed.

(** The regions in use of an argument. *)
Definition arg_regions (arg : KernelArg) : list MemoryRegion :=
  take (unav_phys_mem_regions_len arg) (unav_phys_mem_regions arg).

(** What the kernel finds when it is entered. *)
Record handed_over (ho : HandOver PT) : Prop := {
  hv_protection : (forall k, 0 <= k -> Z.testbit (cr_efer (ho_ctrl ho)) k = bool_decide (k = 11) || Z.testbit (cr_efer (in_ctrl i)) k) /\
    (forall k, 0 <= k -> Z.testbit (cr_cr0 (ho_ctrl ho)) k = bool_decide (k = 0 \/ k = 16) || Z.testbit (cr_cr0 (in_ctrl i)) k);
  hv_entry : ec_rip (ho_cpu ho) = entry_point elf + off;
  hv_table : ec_cr3 (ho_cpu ho) = kernel_pml4_start_addr (ho_arg ho);
  hv_kernel v b : image (in_mem i) kernel_ptr start off (program_iter elf) v = Some b ->
    kernel_byte (mkBootState (ho_table ho) (ho_frames ho) (ho_mem ho)) v = Some b;
  hv_arg : visible_at (inner (ho_table ho)) (ec_rdi (ho_cpu ho)) (in_arg_ptr i) KERNEL_ARG_LEN PT_PRESENT;
  hv_bootstrap : bootstrap_len (ho_arg ho) = (in_bootstrap i).2 /\
    visible_at (inner (ho_table ho)) (bootstrap_base (ho_arg ho)) (in_bootstrap i).1 (in_bootstrap i).2 PT_PRESENT;
  hv_framebuffer : framebuffer_len (ho_arg ho) = fb_len fb /\
    visible_at (inner (ho_table ho)) (framebuffer_addr (ho_arg ho)) (fb_ptr fb) (fb_len fb) RW;
  hv_memory : phys_mem_mapped_addr (ho_arg ho) = 0 /\ phys_mem_size (ho_arg ho) = top /\
    forall x, 0 <= x < top ->
      exists f o, translate (inner (ho_table ho)) x = Mapped (Frame1GiB f) o RW /\ f + o = x;
  hv_stack : (16 | stack_top_addr (ho_arg ho)) /\ ec_rsp (ho_cpu ho) = stack_top_addr (ho_arg ho) - 8 /\
    forall x, stack_top_addr (ho_arg ho) - stack_size (ho_arg ho) <= x < stack_top_addr (ho_arg ho) ->
      exists f o, translate (inner (ho_table ho)) x = Mapped (Frame4KiB f) o RW;
  hv_sorted : sorted_regions (arg_regions (ho_arg ho)) /\ Forall region_fits (arg_regions (ho_arg ho)) /\
    (length (arg_regions (ho_arg ho)) <= 512)%nat;
  hv_taken f : f ∈ frames -> f ∈ remaining (ho_frames ho) \/
    exists r, r ∈ arg_regions (ho_arg ho) /\ mr_start r <= f /\ f + PAGE_SIZE <= mr_start r + mr_length r;
  hv_listed : exists ar ar', arg_regions (ho_arg ho) ≡ₚ
    reported_regions mm ar (Some fb) (in_kernel i) (in_bootstrap i) (local_apic_base (in_acpi i))
      (take (io_apic_count (in_acpi i)) (io_apic (in_acpi i))) (gdt_start_addr (ho_arg ho))
      (kernel_pml4_start_addr (ho_arg ho)) ++ [bootloader_region (in_arg_ptr i) KERNEL_ARG_LEN; ar']
}.

Lemma reported_length ar gdt pml4 ios :
  (length (reported_regions mm ar (Some fb) (in_kernel i) (in_bootstrap i) (local_apic_base (in_acpi i)) ios gdt pml4)
    <= length mm + length ios + 7)%nat.
Proof.
  unfold reported_regions, kept. pose proof (length_filter (fun d => md_usable_after_bootloader_exit d = false) mm).
  repeat rewrite ?length_app, ?length_map. simpl. lia.
Qed.

Lemma frame_fits f : map_wf mm -> f ∈ frames -> region_fits (bootloader_region f PAGE_SIZE).
Proof.
  intros Hm Hf. pose proof (proj1 (Forall_forall _ _) (usable_frames_ok mm Hm) f Hf) as (_ & H1 & H2).
  split; [split; cbn; page_lia|cbn; page_lia].
Qed.

Lemma reported_fit ar gdt pml4 : boot_ok -> region_fits ar -> gdt ∈ frames -> pml4 ∈ frames ->
  Forall region_fits (reported_regions mm ar (Some fb) (in_kernel i) (in_bootstrap i) (local_apic_base (in_acpi i))
    (take (io_apic_count (in_acpi i)) (io_apic (in_acpi i))) gdt pml4).
Proof.
  intros [[B1 B1'] _ _ [_ B4 _ _ _ _] _ (B6a & B6b & B6c) [_ (B7a & B7b & B7c)] _ (_ & _ & B9 & B9') _] Har Hg Hp.
  unfold reported_regions. rewrite !Forall_app. split_and!.
  - apply Forall_map. apply Forall_forall. intros d [_ Hd]%list_elem_of_filter. rewrite Forall_forall in B1'.
    destruct (B1' d Hd) as (H1 & H2 & H3). split; [split; cbn; page_lia|cbn; page_lia].
  - by constructor.
  - repeat constructor; cbn; page_lia.
  - repeat constructor; cbn; page_lia.
  - apply Forall_map, Forall_take. eapply Forall_impl; [exact B9'|]. intros io Hio. cbn in Hio.
    split; [split; cbn; page_lia|cbn; page_lia].
  - constructor; [by apply frame_fits|]. constructor; [by apply frame_fits|constructor].
Qed.

(** The kernel's bytes survive the push: the stack has frames of its own. *)
Lemma image_kept s1 (fr : list Z) pt (a : LinearIncFrameAllocator MemoryDescriptor) mem' v b :
  (forall v f o fl, in_entry KERNEL_BYTES_P4 v -> translate (inner (bs_table s1)) v = Mapped (Frame4KiB f) o fl ->
     (f ∉ remaining (bs_frames s1)) /\ (PAGE_SIZE | f) /\ 0 <= o < PAGE_SIZE) ->
  boot_source_inv mm (bs_frames s1) -> fr `sublist_of` remaining (bs_frames s1) ->
  (forall y, mem' y = bs_mem s1 y \/ exists f o, f ∈ fr /\ 0 <= o < PAGE_SIZE /\ y = f + o) ->
  translate (inner pt) v = translate (inner (bs_table s1)) v -> in_entry KERNEL_BYTES_P4 v ->
  kernel_byte s1 v = Some b -> kernel_byte (mkBootState pt a mem') v = Some b.
Proof.
  intros Hfresh Hinv Hsub Hm Ht Hv. unfold kernel_byte. cbn [bs_table bs_mem]. rewrite Ht.
  destruct (translate (inner (bs_table s1)) v) as [[f|f|f] o fl| |] eqn:Et; try done. intros [= <-]. f_equal.
  destruct (Hfresh v f o fl Hv Et) as (Hn & Hf & Ho). destruct (Hm (f + o)) as [Hy|(f' & o' & Hin & Ho' & Heq)]; [done|].
  exfalso. apply Hn. pose proof (elem_of_sublist _ _ _ Hin Hsub) as Hin'.
  pose proof (fs_aligned (FrameSourceSpec := boot_source mm) _ Hinv) as Hal. rewrite Forall_forall in Hal.
  destruct (Hal f' Hin') as [q Hq], Hf as [q' Hq']. replace f with f'; [done|]. page_lia.
Qed.

(** What [boot_mappings] establishes. *)
Record mapped_up (b : Mappings) (s1 : BootState PT (LinearIncFrameAllocator MemoryDescriptor)) (fr : list Z) : Prop := {
  mu_stage : exists c, stage 507 c (bs_table (bm_state b)) (bs_frames (bm_state b)) /\
    c + block_cost KERNEL_ARG_LEN <= PAGE_SIZE * Z.of_nat (length frames);
  mu_memory x : 0 <= x < top ->
    exists f o, translate (inner (bs_table (bm_state b))) x = Mapped (Frame1GiB f) o RW /\ f + o = x;
  mu_tables : bm_pml4 b ∈ frames /\ bm_gdt b ∈ frames;
  mu_entry : kernel_entry (bm_kernel b) = entry_point elf + off /\ bm_phys b = 0;
  mu_ctrl : bm_ctrl b = enable_protection (in_ctrl i);
  mu_later : later 511 (inner (bs_table s1)) (inner (bs_table (bm_state b))) /\ bs_mem (bm_state b) = bs_mem s1;
  mu_image v x : image (in_mem i) kernel_ptr start off (program_iter elf) v = Some x ->
    in_entry KERNEL_BYTES_P4 v /\ kernel_byte s1 v = Some x;
  mu_fresh v f o fl : in_entry KERNEL_BYTES_P4 v -> translate (inner (bs_table s1)) v = Mapped (Frame4KiB f) o fl ->
    (f ∉ remaining (bs_frames s1)) /\ (PAGE_SIZE | f) /\ 0 <= o < PAGE_SIZE;
  mu_frames : boot_source_inv mm (bs_frames s1) /\ fr `sublist_of` remaining (bs_frames s1);
  mu_bootstrap : span_in_entry BOOTSTRAP_BYTES_P4 (bm_bootstrap b) (in_bootstrap i).2 /\
    visible_at (inner (bs_table (bm_state b))) (bm_bootstrap b) (in_bootstrap i).1 (in_bootstrap i).2 PT_PRESENT;
  mu_framebuffer : exists rf, bm_framebuffer b = Some rf /\ span_in_entry FRAMEBUFFER_P4 rf (fb_len fb) /\
    visible_at (inner (bs_table (bm_state b))) rf (fb_ptr fb) (fb_len fb) RW;
  mu_stack : bm_stack_top b = STACK_TOP /\ stack_mapped (inner (bs_table (bm_state b))) fr
}.

Lemma boot_mappings_ok : boot_ok ->
  exists b s1 fr, boot_mappings elf_file_new unused i = Done b /\ mapped_up b s1 fr.
Proof.
  intros Hok. pose proof Hok as [[B1 _] [B2 B2'] _ _ _ _ [B7 _] _ _ B10].
  destruct (boot_source_new mm B1) as [I0 R0].
  destruct (tables_step (new_starting_at 0x100000 mm)) as
    (f0 & t0 & pml4 & m00 & m0 & ab & ac & a0 & E1 & E2 & E3 & E4 & S0 & T0 & L0 & P1 & P2 & Hphys & Hfree0);
    [done|by split; [|exists 0%nat; rewrite drop_0]|].
  assert (G0 : stage 511 (PAGE_SIZE * 514) m0 a0) by (split; try done; intros j Hj; apply Hfree0; lia).
  destruct (kernel_step m0 a0 _ Hok G0 eq_refl) as (s1 & E5 & G1 & O1 & Himg & Hfresh).
  destruct (blocks_step _ _ _ Hok G1 eq_refl) as (rb & m2 & a2 & gdt & a3 & m3 & a4 & rf & m4 & a5 & fr &
    E6 & E7 & E8 & E9 & G5 & L5 & P3 & V2 & V5 & Sub & Hst).
  destruct stack_top_ok as (Hadd & Htop & _). unfold boot_mappings. destruct (allocator_new_inv mm B1) as (-> & _ & _).
  rewrite Done_bind. step E1. step E2. step E3. step E4. step E5. step E6. step E7. step E8. step Hadd. rewrite B7. step E9.
  rewrite Htop. eexists _, s1, fr. split; [reflexivity|].
  split; cbn [bm_state bs_table bs_frames bs_mem bm_kernel bm_phys bm_bootstrap bm_framebuffer bm_stack_top kernel_entry]; try done.
  - eexists. split; [exact G5|]. page_lia.
  - intros x Hx. destruct (Hphys x Hx) as (f & o & Ht & Hfo). exists f, o. split; [|done]. rewrite <- Ht.
    rewrite (proj1 L5) by lia. apply (later_outside 511 512 _ _ O1); lia.
  - split; [apply G1|done].
  - by exists rf.
Qed.

(** The fields of the argument that describe the mappings. *)
Record describes (b : Mappings (PT := PT)) (arg : KernelArg) : Prop := {
  de_pml4 : kernel_pml4_start_addr arg = bm_pml4 b;
  de_bootstrap : bootstrap_base arg = bm_bootstrap b /\ bootstrap_len arg = (in_bootstrap i).2;
  de_framebuffer : framebuffer_addr arg = default 0 (bm_framebuffer b) /\ framebuffer_len arg = fb_len fb;
  de_memory : phys_mem_mapped_addr arg = bm_phys b /\ phys_mem_size arg = top;
  de_stack : stack_top_addr arg = bm_stack_top b /\ stack_size arg = kernel_stack_size;
  de_listed : exists ar ar', arg_regions arg ≡ₚ
    reported_regions mm ar (Some fb) (in_kernel i) (in_bootstrap i) (local_apic_base (in_acpi i))
      (take (io_apic_count (in_acpi i)) (io_apic (in_acpi i))) (gdt_start_addr arg)
      (kernel_pml4_start_addr arg) ++ [bootloader_region (in_arg_ptr i) KERNEL_ARG_LEN; ar']
}.

Lemma arg_step b s1 fr : boot_ok -> mapped_up b s1 fr ->
  exists ra arg' m5 a6 ar',
    hand_over KERNEL_ARG_LEN junk i b =
      ('(cpu, mem) ← context_switch (inner m5) (bm_pml4 b) (bm_stack_top b) (kernel_entry (bm_kernel b)) ra
        (bs_mem (bm_state b));
      Done (mkHandOver cpu (bm_ctrl b) arg' m5 a6 mem)) /\
    boot_source_inv mm a6 /\ same_outside KERNEL_ARG_P4 (inner (bs_table (bm_state b))) (inner m5) /\
    visible_at (inner m5) ra (in_arg_ptr i) KERNEL_ARG_LEN PT_PRESENT /\ describes b arg' /\
    (sorted_regions (arg_regions arg') /\ Forall region_fits (arg_regions arg') /\
     (length (arg_regions arg') <= 512)%nat) /\ allocated_region a6 = Done ar' /\ ar' ∈ arg_regions arg'.
Proof.
  intros Hok Hmu. pose proof Hok as [[B1 B1'] [B2 B2'] _ B4 _ B6 [B7 _] (B8a & B8b & B8c) [B9 [B9' _]] _].
  destruct (mu_tables _ _ _ Hmu) as [Hp Hg]. pose proof (mu_stage _ _ _ Hmu) as (c & G5 & Hc).
  unfold hand_over, slice_to. rewrite (proj2 (Nat.leb_le _ _)), Done_bind by done.
  destruct (source_region mm (bs_frames (bm_state b)) (proj1 (sg_supply _ _ _ _ G5))) as (ar & Har & Hfar & _).
  destruct (construct_regions_spec junk mm (bs_frames (bm_state b)) (in_framebuffer i) (in_kernel i) (in_bootstrap i)
    (local_apic_base (in_acpi i)) (take (io_apic_count (in_acpi i)) (io_apic (in_acpi i))) (bm_gdt b) (bm_pml4 b) ar)
    as ([rs n] & -> & Hh); try done.
  { apply (kl_slice _ _ _ _ _ _ _ _ B4). } { apply B6. } { rewrite length_take. lia. }
  rewrite Done_bind, (max_phys_addr_source mm (bs_frames (bm_state b)) (new_starting_at 0x100000 mm)), B2, Done_bind
    by (apply G5 || by apply boot_source_new).
  rewrite B7 in *. cbn [default from_option id fmap option_fmap option_map fst snd]. cbv zeta.
  set (arg := mkKernelArg _ _ _ _ _ _ _ _ _ _ _ _ _ _ _ _ _ _).
  pose proof (supply_length _ _ (sg_supply _ _ _ _ G5)) as N5. unfold block_cost in Hc.
  edestruct (map_kernel_arg_spec (AS := boot_source mm) (bs_table (bm_state b)) (bs_frames (bm_state b)) arg (in_arg_ptr i) KERNEL_ARG_LEN)
    as (ra & arg' & m5 & a6 & ar' & -> & Sl6 & Har' & V6 & _ & Harg & Hperm & Hsort);
    [| | | | | | | | |exact Hh| |]; try stage_side G5 (sg_supply _ _ _ _ G5); try done.
  { intros a [Ha _ _ _]. exact Ha. }
  { pose proof (reported_length ar (bm_gdt b) (bm_pml4 b) (take (io_apic_count (in_acpi i)) (io_apic (in_acpi i)))).
    pose proof (length_take (io_apic (in_acpi i)) (io_apic_count (in_acpi i))). lia. }
  rewrite Done_bind. cbv beta iota. exists ra, arg', m5, a6, ar'. split; [done|].
  pose proof (stage_step _ _ _ _ _ _ _ G5 Sl6) as G6. split; [apply (sg_supply _ _ _ _ G6)|]. split; [apply Sl6|].
  split; [done|]. split; [|split; [split; [exact Hsort|]|split; [done|]]].
  - split; try (by rewrite Harg). exists ar, ar'. etrans; [exact Hperm|]. rewrite Harg at 1 2. done.
  - unfold arg_regions. rewrite Hperm.
    destruct (source_region mm a6 (proj1 (sg_supply _ _ _ _ G6))) as (r & Hr & Hfit & _). rewrite Har' in Hr. injection Hr as <-.
    split; [apply Forall_app; split; [by apply reported_fit|]|].
    + repeat constructor; cbn; lia || apply Hfit.
    + rewrite length_app. simpl. pose proof (reported_length ar (bm_gdt b) (bm_pml4 b) (take (io_apic_count (in_acpi i)) (io_apic (in_acpi i)))).
      pose proof (length_take (io_apic (in_acpi i)) (io_apic_count (in_acpi i))). lia.
  - unfold arg_regions. rewrite Hperm. apply elem_of_app. right. right. left.
Qed.

Lemma efi_runtime_ok : boot_ok ->
  exists ho, efi_runtime elf_file_new unused KERNEL_ARG_LEN junk i = Done ho /\ handed_over ho.
Proof.
  intros Hok. destruct (boot_mappings_ok Hok) as (b & s1 & fr & Eb & Hmu).
  destruct (arg_step b s1 fr Hok Hmu) as (ra & arg' & m5 & a6 & ar' & Eh & I6 & O6 & V6 & [D1 [D2 D2'] [D3 D3'] [D4 D4'] [D5 D5'] D6] & Hsort & Har & Hin).
  destruct Hmu as [(c & G5 & _) M2 _ [M3 M3'] Mc [M4 M4'] M5 M6 [M7 M7'] [M8 M8'] (rf & M9 & M9' & M9'') [M10 M10']].
  assert (L6 : forall k, (507 < k)%nat -> later k (inner (bs_table (bm_state b))) (inner m5)).
  { intros k Hk. by apply (later_outside KERNEL_ARG_P4). }
  assert (Hst : stack_mapped (inner m5) fr).
  { intros x Hx. destruct (M10' x Hx) as (f & Hf & Ht). exists f. split; [done|]. rewrite <- Ht.
    apply (L6 508%nat ltac:(lia)) with (j := KERNEL_STACK_P4); [unfold KERNEL_STACK_P4; lia|].
    unfold in_entry, kernel_stack_size in *. page_lia. }
  destruct (switch_step (inner m5) fr (bm_pml4 b) (kernel_entry (bm_kernel b)) ra (bs_mem (bm_state b)) Hst) as (mem' & Es & Hmem).
  rewrite M4' in Hmem. unfold efi_runtime. rewrite Eb, Done_bind, Eh, M10, Es, Done_bind. cbv beta iota.
  eexists. split; [reflexivity|]. rewrite M9 in D3. rewrite M10 in D5.
  split; cbn [ho_cpu ho_arg ho_table ho_frames ho_mem ec_rip ec_cr3 ec_rdi ec_rsp ho_ctrl]; try done.
  - rewrite Mc. apply enable_protection_bits.
  - intros v x Hv. destruct (M5 v x Hv) as [He Hb].
    assert (L : later 511 (inner (bs_table s1)) (inner m5)) by (eapply later_trans; [exact M4|apply L6; lia]).
    apply (image_kept s1 fr m5 a6 mem' v x M6); try done. by apply (proj2 L KERNEL_BYTES_P4).
  - rewrite D2. split; [done|]. apply (later_visible BOOTSTRAP_BYTES_P4 508 (inner (bs_table (bm_state b))));
      try done; [apply L6; lia|unfold BOOTSTRAP_BYTES_P4; lia].
  - rewrite D3. split; [done|]. apply (later_visible FRAMEBUFFER_P4 508 (inner (bs_table (bm_state b)))); try done. apply L6; lia.
  - rewrite D4. split; [done|]. split; [done|]. intros x Hx. destruct (M2 x Hx) as (f & o & Ht & Hfo). exists f, o.
    pose proof (proj2 (bo_top Hok)). by rewrite (proj1 (L6 511%nat ltac:(lia))) by lia.
  - rewrite D5, D5'. split; [apply stack_top_ok|]. split; [done|]. intros x Hx.
    destruct (Hst (x - slot_base KERNEL_STACK_P4)) as (f & _ & Ht); [unfold kernel_stack_size in *; page_lia|].
    eexists f, _. rewrite <- Ht. f_equal. lia.
  - intros f Hf. destruct (source_region mm a6 I6) as (r & Hr & _ & Hcov).
    rewrite Har in Hr. injection Hr as <-. destruct (Hcov f Hf) as [Hfr|Hfr]; [by left|right]. by exists ar'.
Qed.

(** C1. On a machine that can boot, the bootloader reaches the kernel: the
    processor is at the kernel's entry point on the kernel's page table, with the
    stack pointer at the top of a mapped, writable, aligned stack and the
    argument's address in RDI; no-execute pages and write protection are enabled
    and the other control bits kept; through that table every byte of the relocated
    kernel image is in place, the argument, the first program and the framebuffer
    are visible where the argument says, physical memory is mapped to itself, and
    the regions of the argument are sorted and contain every usable frame the
    bootloader took. *)
Theorem boot_hands_over : boot_ok ->
  exists ho, efi_runtime elf_file_new unused KERNEL_ARG_LEN junk i = Done ho /\ handed_over ho.
Proof. apply efi_runtime_ok. Qed.

Lemma listed_regions ho : handed_over ho ->
  bootloader_region kernel_ptr kernel_len ∈ arg_regions (ho_arg ho) /\
  bootloader_region (fb_ptr fb) (fb_len fb) ∈ arg_regions (ho_arg ho) /\
  bootloader_region (in_arg_ptr i) KERNEL_ARG_LEN ∈ arg_regions (ho_arg ho) /\
  forall d, d ∈ mm -> md_usable_after_bootloader_exit d = false -> descriptor_region d ∈ arg_regions (ho_arg ho).
Proof.
  intros Hh. destruct (hv_listed _ Hh) as (ar & ar' & Hp). rewrite !Hp. unfold reported_regions.
  split; [|split; [|split]]; [set_solver| set_solver |set_solver|].
  intros d Hd Hk. rewrite Hp. unfold reported_regions. rewrite !elem_of_app. left. left. apply (list_elem_of_fmap_2 descriptor_region).
  by apply list_elem_of_filter.
Qed.

(** C3. From the bootloader to the kernel's allocator: with the argument it
    was handed the kernel's frame allocator initialises, and whatever requests
    it serves, no block contains a byte of a frame the bootloader took, of
    the kernel's file, of the framebuffer, of the argument, or of memory the
    firmware still uses. *)
Theorem kernel_frames_after_boot fuel junk1 junk2 :
  boot_ok -> length junk1 = MAX_RANGE_COUNT -> length junk2 = MAX_RANGE_COUNT ->
  exists ho fa, efi_runtime elf_file_new unused KERNEL_ARG_LEN junk i = Done ho /\
    init_frame_allocator junk1 junk2 (phys_mem_mapped_addr (ho_arg ho)) (phys_mem_size (ho_arg ho))
      (arg_regions (ho_arg ho)) = Done fa /\
    forall counts rs fa' f c x, Forall (fun c => 0 < c) counts -> alloc_run fuel fa counts = Done (rs, fa') ->
      (f, c) ∈ blocks rs -> f <= x < f + PAGE_SIZE * c ->
      0x100000 <= x < top /\
      (forall g, g ∈ frames -> g <= x < g + PAGE_SIZE -> g ∈ remaining (ho_frames ho)) /\
      ~ (kernel_ptr <= x < kernel_ptr + kernel_len) /\ ~ (fb_ptr fb <= x < fb_ptr fb + fb_len fb) /\
      ~ (in_arg_ptr i <= x < in_arg_ptr i + KERNEL_ARG_LEN) /\
      (forall d, d ∈ mm -> md_usable_after_bootloader_exit d = false ->
        ~ (md_phys_start d <= x < md_phys_start d + PAGE_SIZE * md_page_count d)).
Proof.
  intros Hok Hj1 Hj2. destruct (efi_runtime_ok Hok) as (ho & Eho & Hh). exists ho.
  destruct (hv_memory _ Hh) as (Hm & Hsz & _). destruct (hv_sorted _ Hh) as (Hso & Hfit & Hlen).
  assert (Hrok : Forall region_ok (arg_regions (ho_arg ho))) by (eapply Forall_impl; [exact Hfit|]; by intros r [? _]).
  destruct (listed_regions ho Hh) as (L1 & L2 & L3 & L4). pose proof (proj2 (bo_top Hok)) as Htop.
  destruct (from_memory_regions_total junk1 junk2 0x100000 PAGE_SIZE (arg_regions (ho_arg ho))) as [it Hit]; try done.
  { eapply Forall_impl; [exact Hfit|]. by intros r [_ ?]. }
  { intros Hn. rewrite Hn in L1. by apply not_elem_of_nil in L1. }
  assert (Hinit : init_frame_allocator junk1 junk2 0 top (arg_regions (ho_arg ho)) = Done (mkFrameAlloc it 0 top PAGE_SIZE)).
  { unfold init_frame_allocator, LinearIncFrameAllocator_new. rewrite Hit. cbn [mbind outcome_bind]. unfold u64_add.
    by rewrite checked_in by lia. }
  rewrite Hm, Hsz. eexists. split; [done|]. split; [exact Hinit|].
  intros counts rs fa' f c x Hc Hrun Hb Hx.
  destruct (alloc_run_safe fuel junk1 junk2 0 top _ _ counts rs fa' Hso Hrok ltac:(by exists 0) ltac:(lia) Hinit Hc Hrun) as [_ Hsafe].
  destruct (Hsafe f c Hb) as (_ & Hlo & Hhi & Hno). rewrite !Z.sub_0_r in *.
  assert (Hr : forall r, r ∈ arg_regions (ho_arg ho) -> ~ in_region x r) by (intros r Hr; by apply Hno).
  split; [lia|]. split.
  { intros g Hg Hgx. destruct (hv_taken _ Hh g Hg) as [|(r & Hrin & H1 & H2)]; [done|]. destruct (Hr r Hrin). unfold in_region. lia. }
  split; [exact (Hr _ L1)|]. split; [exact (Hr _ L2)|]. split; [exact (Hr _ L3)|].
  intros d Hd Hk. exact (Hr _ (L4 d Hd Hk)).
Qed.
End BootSpec.

(** ** An instance: 8 MiB of usable memory, a small kernel and framebuffer *)

#[local] Existing Instance x86_addr_model.
#[local] Existing Instance x86_addr_model_spec.
#[local] Existing Instance x86_virt_model.
#[local] Existing Instance x86_virt_model_spec.
#[local] Existing Instance x86_step_model.
#[local] Existing Instance x86_step_model_spec.
#[local] Existing Instance pt_flags_model.
#[local] Existing Instance pt_flags_model_spec.
#[local] Existing Instance map_table_mapper.
#[local] Existing Instance map_table_mapper_spec.
#[local] Existing Instance uefi_memory_type_model.
#[local] Existing Instance merge_sort_regions.
#[local] Existing Instance merge_sort_regions_spec.

Definition boot_map : list MemoryDescriptor :=
  [mkMemoryDescriptor 7 0x100000 2048; mkMemoryDescriptor 2 0x7e00000 16].
Definition boot_fb : Framebuffer := mkFramebuffer 0x80000000 0x10000 64 256 64 1.
Definition boot_input : BootInput Z :=
  mkBootInput boot_map [7] (KERNEL_PTR, 0x1000) (0x7e02000, 0x800) (Some boot_fb)
    (mkAcpiSettings 0xfee00000 [] 0 [mkMadtIoApic 0 0xfec00000 0] 1 [] 0) kernel_bytes (mkControlRegs 0x500 0x80000033) 0x7e04000.
Definition boot_junk : list MemoryRegion := replicate 512 MemoryRegion_empty.

Lemma boot_map_wf : map_wf boot_map /\ Forall md_ok boot_map.
Proof.
  split; [split|].
  - apply Forall_cons. split; [|constructor]. exists 0x100000, 2048%nat.
    split_and!; [reflexivity|reflexivity|lia|lia|by exists 256|reflexivity].
  - apply SSorted_cons; constructor.
  - repeat constructor; cbn; lia.
Qed.

Lemma sample_boot_ok : boot_ok (PT := map_table) (fun _ => Some kernel_elf) 0x5000 boot_input boot_fb kernel_elf 0 0x1800 0x7e10000.
Proof.
  split.
  - apply boot_map_wf.
  - split; [reflexivity|lia].
  - by eexists.
  - by apply sample_kernel_loadable.
  - apply (bool_decide_unpack _). by vm_compute.
  - unfold block_ok. cbn. page_lia.
  - split; [done|]. unfold block_ok. cbn. page_lia.
  - unfold block_ok. cbn. page_lia.
  - split; [cbn; lia|]. split; [cbn; lia|]. split; [cbn; lia|]. repeat constructor; cbn; lia.
  - apply Z.leb_le. by vm_compute.
Qed.

Lemma boot_hands_over_witness :
  exists ho : HandOver map_table, efi_runtime (fun _ => Some kernel_elf) 0 0x5000 boot_junk boot_input = Done ho /\
    ec_rip (ho_cpu ho) = KERNEL_BASE + 0x40 /\
    kernel_byte (mkBootState (ho_table ho) (ho_frames ho) (ho_mem ho)) (KERNEL_BASE + 0x300) = Some 0x40.
Proof.
  destruct (boot_hands_over (fun _ => Some kernel_elf) 0 0x5000 boot_junk eq_refl boot_input boot_fb kernel_elf 0 0x1800
    0x7e10000 sample_boot_ok) as (ho & E & H).
  exists ho. split; [exact E|]. split; [apply (hv_entry _ _ _ _ _ _ _ H)|].
  apply (hv_kernel _ _ _ _ _ _ _ H). by vm_compute.
Defined.

Lemma kernel_frames_after_boot_witness :
  exists (ho : HandOver map_table) fa, efi_runtime (fun _ => Some kernel_elf) 0 0x5000 boot_junk boot_input = Done ho /\
    init_frame_allocator junk512 junk512 (phys_mem_mapped_addr (ho_arg ho)) (phys_mem_size (ho_arg ho))
      (arg_regions (ho_arg ho)) = Done fa.
Proof.
  destruct (kernel_frames_after_boot (fun _ => Some kernel_elf) 0 0x5000 boot_junk eq_refl boot_input boot_fb kernel_elf 0 0x1800
    0x7e10000 1000 junk512 junk512 sample_boot_ok eq_refl eq_refl) as (ho & fa & E & H & _).
  exists ho, fa. split; [exact E|exact H].
Defined.
