(* ===== verification/Acpi.v ===== *)
(** * Reading the ACPI tables

    [bootloader-efi/src/acpi.rs]: finding the root pointer, enabling ACPI and
    collecting the interrupt controllers for the kernel.  Parsing the tables is
    the work of a library, so its results are arguments. *)

From S2P Require Import Prelude Shared.

(** ** The root pointer *)

(** [acpi::rsdp::Rsdp]: 36 bytes, with the signature first, the revision at 15
    and the length at 20. *)
Definition RSDP_SIZE : nat := 36.
Definition RSDP_SIGNATURE : list Z := [0x52; 0x53; 0x44; 0x20; 0x50; 0x54; 0x52; 0x20].

Definition rsdp_bytes (mem : Z -> Z) (address : Z) : list Z := map mem (seqZ address (Z.of_nat RSDP_SIZE)).
Definition rsdp_signature (bytes : list Z) : list Z := take 8 bytes.
Definition rsdp_revision (bytes : list Z) : Z := default 0 (bytes !! 15%nat).
Definition rsdp_length (bytes : list Z) : Z :=
  foldr (fun b n => b + 256 * n) 0 (take 4 (drop 20 bytes)).

(** [sum.wrapping_add(byte)] over some bytes *)
Definition wrapping_sum (bytes : list Z) : Z := fold_left (fun sum b => wrap 8 (sum + b)) bytes 0.

(** [None] is the error. *)
Definition validate_rsdp (mem : Z -> Z) (address : Z) : option Z :=
  let bytes := rsdp_bytes mem address in
  if negb (bool_decide (rsdp_signature bytes = RSDP_SIGNATURE)) then None
  else if negb (wrapping_sum (take 20 bytes) =? 0) then None
  else if (rsdp_revision bytes =? 2) && negb (wrapping_sum bytes =? 0) then None
  else Some (if rsdp_revision bytes =? 2 then rsdp_length bytes else Z.of_nat RSDP_SIZE).

(** An entry of the configuration table of the firmware. *)
Inductive Guid : Type := ACPI2_GUID | ACPI_GUID | OtherGuid (n : Z).

Definition is_acpi_guid (g : Guid) : bool := match g with ACPI2_GUID | ACPI_GUID => true | OtherGuid _ => false end.

Fixpoint find_acpi_table_pointer (mem : Z -> Z) (config_table : list (Guid * Z)) : option (Z * Z) :=
  match config_table with
  | [] => None
  | (guid, address) :: rest =>
      if negb (is_acpi_guid guid) then find_acpi_table_pointer mem rest
      else match validate_rsdp mem address with
           | Some len => Some (address, len)
           | None => find_acpi_table_pointer mem rest
           end
  end.

(** ** The tables *)

Record Fadt : Type := mkFadt {
  smi_cmd_port : Z;
  acpi_enable : Z;
  (** the address of the PM1a control block, [None] for an error *)
  pm1a_control_block : option Z
}.

Inductive MadtEntry : Type :=
| MadtLocal (processor_id apic_id flags : Z)
| MadtIo (io_apic_id io_apic_address global_system_interrupt_base : Z)
| MadtIso (bus irq global_system_interrupt flags : Z)
| MadtOther.

(** What [AcpiTables::from_rsdp] and [find_table] return. *)
Record AcpiTables : Type := mkAcpiTables { find_fadt : option Fadt; find_madt : option (list MadtEntry) }.

(** The hardware of ACPI: the firmware's command port, and the PM1a control register,
    whose bit 0 shows that ACPI is in control.  The command that enables it starts
    the change, which takes [hw_delay] reads of the register. *)
Inductive AcpiMode : Type := LegacyMode | Switching (reads : nat) | AcpiEnabled.

Record AcpiHw : Type := mkAcpiHw {
  hw_smi_port : Z;
  hw_enable : Z;
  hw_pm1a_port : Z;
  hw_delay : nat;
  hw_mode : AcpiMode;
  (** what is read at the other ports, and the other bits of the register *)
  hw_inputs : Z -> Z;
  (** the writes to ports, last first *)
  hw_written : list (Z * Z);
  hw_apic_base : Z
}.

Definition set_mode (k : AcpiMode) (h : AcpiHw) : AcpiHw :=
  mkAcpiHw (hw_smi_port h) (hw_enable h) (hw_pm1a_port h) (hw_delay h) k (hw_inputs h) (hw_written h) (hw_apic_base h).

Definition read_port (p : Z) (h : AcpiHw) : Z * AcpiHw :=
  if p =? hw_pm1a_port h then
    match hw_mode h with
    | AcpiEnabled => (2 * hw_inputs h p + 1, h)
    | Switching (S n) => (2 * hw_inputs h p, set_mode (Switching n) h)
    | Switching O => (2 * hw_inputs h p, set_mode AcpiEnabled h)
    | LegacyMode => (2 * hw_inputs h p, h)
    end
  else (hw_inputs h p, h).

Definition write_port (p v : Z) (h : AcpiHw) : AcpiHw :=
  let k := match hw_mode h with
           | LegacyMode => if (p =? hw_smi_port h) && (v =? hw_enable h) then Switching (hw_delay h) else LegacyMode
           | k => k
           end in
  mkAcpiHw (hw_smi_port h) (hw_enable h) (hw_pm1a_port h) (hw_delay h) k (hw_inputs h) ((p, v) :: hw_written h) (hw_apic_base h).

(** [while pm1a_cb_serial.read() & 1 == 0 { hlt }]; a halted processor goes on at
    the next interrupt. *)
Fixpoint wait_enabled (fuel : nat) (pm1a_cb_serial : Z) (h : AcpiHw) : outcome AcpiHw :=
  match fuel with
  | O => OutOfFuel
  | S fuel =>
      let r := read_port pm1a_cb_serial h in
      if Z.land r.1 1 =? 0 then wait_enabled fuel pm1a_cb_serial r.2 else Done r.2
  end.

(** The arrays under construction, with the number of entries. *)
Record Collected : Type := mkCollected {
  co_lapics : list MadtLocalApic;
  co_lapic_count : nat;
  co_ioapics : list MadtIoApic;
  co_ioapics_count : nat;
  co_iso : list MadtInterruptSrcOverride;
  co_iso_count : nat
}.

Definition collected_new : Collected :=
  mkCollected (replicate MAX_CPUS (mkMadtLocalApic 0 0)) 0 (replicate MAX_CPUS (mkMadtIoApic 0 0 0)) 0
    (replicate MAX_CPUS (mkMadtIso 0 0 0 0)) 0.

(** [array[i] = v] *)
Definition array_set {T} (l : list T) (i : nat) (v : T) : outcome (list T) :=
  _ ← rassert (Nat.ltb i (length l));
  Done (<[i := v]> l).

Definition collect (c : Collected) (entry : MadtEntry) : outcome Collected :=
  match entry with
  | MadtLocal processor_id apic_id flags =>
      if negb (Z.land flags 3 =? 0) then
        l ← array_set (co_lapics c) (co_lapic_count c) (mkMadtLocalApic apic_id processor_id);
        Done (mkCollected l (S (co_lapic_count c)) (co_ioapics c) (co_ioapics_count c) (co_iso c) (co_iso_count c))
      else Done c
  | MadtIo i a g =>
      l ← array_set (co_ioapics c) (co_ioapics_count c) (mkMadtIoApic i a g);
      Done (mkCollected (co_lapics c) (co_lapic_count c) l (S (co_ioapics_count c)) (co_iso c) (co_iso_count c))
  | MadtIso bus irq gsi flags =>
      l ← array_set (co_iso c) (co_iso_count c) (mkMadtIso bus irq gsi flags);
      Done (mkCollected (co_lapics c) (co_lapic_count c) (co_ioapics c) (co_ioapics_count c) l (S (co_iso_count c)))
  | MadtOther => Done c
  end.

Definition parse_acpi_table (fuel : nat) (from_rsdp : Z -> option AcpiTables) (acpi_base : Z) (h : AcpiHw)
  : outcome (AcpiSettings * AcpiHw) :=
  acpi_table ← or_panic (from_rsdp acpi_base);
  fadt ← or_panic (find_fadt acpi_table);
  if smi_cmd_port fadt =? 0 then Done (AcpiSettings_default, h)
  else
    let smi_serial := wrap 16 (smi_cmd_port fadt) in
    control_block ← or_panic (pm1a_control_block fadt);
    let pm1a_cb_serial := wrap 16 control_block in
    let h := write_port smi_serial (acpi_enable fadt) h in
    h ← wait_enabled fuel pm1a_cb_serial h;
    madt_entries ← or_panic (find_madt acpi_table);
    c ← foldM collect collected_new madt_entries;
    let base := if Nat.eqb (co_lapic_count c) 0 then 0 else hw_apic_base h in
    Done (mkAcpiSettings base (co_lapics c) (co_lapic_count c) (co_ioapics c) (co_ioapics_count c)
      (co_iso c) (co_iso_count c), h).

(** ** What the kernel gets *)

(** The entries of each kind, in the order of the table. *)
Definition enabled_local (e : MadtEntry) : option MadtLocalApic :=
  match e with
  | MadtLocal p i flags => if Z.land flags 3 =? 0 then None else Some (mkMadtLocalApic i p)
  | _ => None
  end.
Definition io_entry (e : MadtEntry) : option MadtIoApic :=
  match e with MadtIo i a g => Some (mkMadtIoApic i a g) | _ => None end.
Definition iso_entry (e : MadtEntry) : option MadtInterruptSrcOverride :=
  match e with MadtIso b i g f => Some (mkMadtIso b i g f) | _ => None end.

(** An array that starts with the elements of a list. *)
Definition filled_with {T} (arr : list T) (n : nat) (l : list T) (fill : T) : Prop :=
  n = length l /\ (n <= MAX_CPUS)%nat /\ arr = l ++ replicate (MAX_CPUS - n) fill.

Record collected_from (es : list MadtEntry) (c : Collected) : Prop := {
  cf_local : filled_with (co_lapics c) (co_lapic_count c) (omap enabled_local es) (mkMadtLocalApic 0 0);
  cf_io : filled_with (co_ioapics c) (co_ioapics_count c) (omap io_entry es) (mkMadtIoApic 0 0 0);
  cf_iso : filled_with (co_iso c) (co_iso_count c) (omap iso_entry es) (mkMadtIso 0 0 0 0)
}.

Definition small {T} (l : list T) : Prop := (length l <= MAX_CPUS)%nat.
Definition all_small (es : list MadtEntry) : Prop :=
  small (omap enabled_local es) /\ small (omap io_entry es) /\ small (omap iso_entry es).

Lemma filled_set {T} (arr : list T) n l fill v : filled_with arr n l fill ->
  if Nat.ltb n MAX_CPUS then exists arr', array_set arr n v = Done arr' /\ filled_with arr' (S n) (l ++ [v]) fill
  else array_set arr n v = Panic.
Proof.
  intros (Hn & Hm & ->). unfold array_set. rewrite length_app, length_replicate. unfold filled_with.
  destruct (Nat.ltb_spec n MAX_CPUS) as [H|H].
  - rewrite (proj2 (Nat.ltb_lt _ _)) by lia. cbn [rassert]. rewrite Done_bind. eexists. split; [done|].
    rewrite length_app. simpl. split; [lia|]. split; [lia|].
    replace (MAX_CPUS - n)%nat with (S (MAX_CPUS - S n)) by lia. cbn [replicate].
    rewrite Hn, insert_app_r_alt, Nat.sub_diag, <- app_assoc by lia. done.
  - rewrite (proj2 (Nat.ltb_ge _ _)) by lia. done.
Qed.

Lemma filled_length {T} (arr : list T) n l fill : filled_with arr n l fill ->
  length arr = MAX_CPUS /\ (n <= MAX_CPUS)%nat /\ take n arr = l /\ small l.
Proof.
  intros (Hn & Hm & ->). rewrite length_app, length_replicate. split; [lia|]. split; [done|].
  unfold small. split; [|lia]. by rewrite Hn, take_app_length.
Qed.

(** Adding one entry of a kind, or of another kind. *)
Lemma filled_step {T} (f : MadtEntry -> option T) arr n es e fill v : filled_with arr n (omap f es) fill -> f e = Some v ->
  if Nat.ltb n MAX_CPUS then exists arr', array_set arr n v = Done arr' /\ filled_with arr' (S n) (omap f (es ++ [e])) fill
  else array_set arr n v = Panic /\ ~ small (omap f (es ++ [e])).
Proof.
  intros H Hf. pose proof (filled_set arr n _ fill v H) as Hs. rewrite omap_app. simpl. rewrite Hf.
  destruct (Nat.ltb_spec n MAX_CPUS); [done|]. split; [done|]. unfold small. rewrite length_app. simpl.
  destruct H as (Hn & _ & _). lia.
Qed.

Lemma filled_other {T} (f : MadtEntry -> option T) arr n es e fill : filled_with arr n (omap f es) fill -> f e = None ->
  filled_with arr n (omap f (es ++ [e])) fill.
Proof. intros H Hf. rewrite omap_app. simpl. rewrite Hf. by rewrite app_nil_r. Qed.

Lemma collect_step es c e : collected_from es c ->
  match collect c e with
  | Done c' => collected_from (es ++ [e]) c'
  | Panic => ~ all_small (es ++ [e])
  | OutOfFuel => False
  end.
Proof.
  intros [Hl Hi Ho]. destruct e as [p i fl|i a g|b i g fl|]; cbn [collect].
  - destruct (Z.land fl 3 =? 0) eqn:Ef; cbn [negb].
    { split; (by apply filled_other) || apply filled_other; [done|]. cbn. by rewrite Ef. }
    pose proof (filled_step enabled_local _ _ es (MadtLocal p i fl) _ (mkMadtLocalApic i p) Hl ltac:(cbn; by rewrite Ef)) as Hs.
    destruct (Nat.ltb _ _); [destruct Hs as (arr & -> & Hs)|destruct Hs as [-> Hs]]; cbn.
    + split; [done|by apply filled_other..].
    + by intros [? _].
  - pose proof (filled_step io_entry _ _ es (MadtIo i a g) _ (mkMadtIoApic i a g) Hi eq_refl) as Hs.
    destruct (Nat.ltb _ _); [destruct Hs as (arr & -> & Hs)|destruct Hs as [-> Hs]]; cbn.
    + split; [by apply filled_other|done|by apply filled_other].
    + by intros (_ & ? & _).
  - pose proof (filled_step iso_entry _ _ es (MadtIso b i g fl) _ (mkMadtIso b i g fl) Ho eq_refl) as Hs.
    destruct (Nat.ltb _ _); [destruct Hs as (arr & -> & Hs)|destruct Hs as [-> Hs]]; cbn.
    + split; [by apply filled_other..|done].
    + by intros (_ & _ & ?).
  - split; by apply filled_other.
Qed.

Lemma all_small_prefix es es' : all_small (es ++ es') -> all_small es.
Proof. unfold all_small, small. rewrite !omap_app, !length_app. lia. Qed.

Lemma collect_all es' : forall es c, collected_from es c ->
  match foldM collect c es' with
  | Done c' => collected_from (es ++ es') c'
  | Panic => ~ all_small (es ++ es')
  | OutOfFuel => False
  end.
Proof.
  induction es' as [|e es' IH]; intros es c Hc; [by rewrite app_nil_r|].
  cbn [foldM]. rewrite cons_middle, app_assoc. pose proof (collect_step es c e Hc) as Hs.
  destruct (collect c e) as [c1| |]; cbn [mbind outcome_bind]; [by apply IH| |done].
  by intros ?%all_small_prefix.
Qed.

Lemma collected_new_from : collected_from [] collected_new.
Proof. split; (split; [done|split; [unfold MAX_CPUS; simpl; lia|done]]). Qed.

Lemma collected_small es c : collected_from es c -> all_small es.
Proof.
  intros [Hl Hi Ho]. split; [|split].
  - apply (filled_length _ _ _ _ Hl).
  - apply (filled_length _ _ _ _ Hi).
  - apply (filled_length _ _ _ _ Ho).
Qed.

(** The reads it takes until the register shows the change. *)
Definition reads_left (h : AcpiHw) : option nat :=
  match hw_mode h with LegacyMode => None | Switching n => Some (S n) | AcpiEnabled => Some O end.

Lemma wait_enabled_ok fuel : forall h n, reads_left h = Some n -> (n < fuel)%nat ->
  wait_enabled fuel (hw_pm1a_port h) h = Done (set_mode AcpiEnabled h).
Proof.
  induction fuel as [|fuel IH]; intros h n Hn Hf; [lia|]. cbn [wait_enabled]. unfold read_port. rewrite Z.eqb_refl.
  assert (E0 : forall x, (Z.land (2 * x) 1 =? 0) = true).
  { intros x. apply Z.eqb_eq. change 1 with (Z.ones 1). rewrite Z.land_ones by lia. rewrite Z.mul_comm. by apply Z.mod_mul. }
  assert (E1 : forall x, (Z.land (2 * x + 1) 1 =? 0) = false).
  { intros x. apply Z.eqb_neq. change 1 with (Z.ones 1) at 2. rewrite Z.land_ones by lia. rewrite Z.add_comm, Z.mul_comm, Z.mod_add by lia. done. }
  unfold reads_left in Hn. destruct h as [sp en pp de [|[|k]|] inp wr ba]; cbn [hw_mode hw_pm1a_port] in *; try done;
    cbn [fst snd]; rewrite ?E0, ?E1; [| |done]; injection Hn as <-.
  - by apply (IH (mkAcpiHw sp en pp de AcpiEnabled inp wr ba) 0%nat); [|lia].
  - by apply (IH (mkAcpiHw sp en pp de (Switching k) inp wr ba) (S k)); [|lia].
Qed.

(** The table names the ports and the command of the hardware. *)
Record fadt_of (fadt : Fadt) (h : AcpiHw) : Prop := {
  fo_smi : wrap 16 (smi_cmd_port fadt) = hw_smi_port h;
  fo_enable : acpi_enable fadt = hw_enable h;
  fo_pm1a : exists cb, pm1a_control_block fadt = Some cb /\ wrap 16 cb = hw_pm1a_port h
}.

Lemma command_switches fadt h : fadt_of fadt h ->
  let h1 := write_port (wrap 16 (smi_cmd_port fadt)) (acpi_enable fadt) h in
  exists n, reads_left h1 = Some n /\ (n <= S (match hw_mode h with Switching k => k | _ => hw_delay h end))%nat /\
    hw_pm1a_port h1 = hw_pm1a_port h.
Proof.
  intros [-> -> _]. unfold write_port, reads_left. rewrite !Z.eqb_refl. cbn [andb hw_mode hw_pm1a_port].
  destruct (hw_mode h) as [|k|]; eexists; split_and!; try done; lia.
Qed.

(** C37. Collecting the interrupt controllers, on hardware the table describes and
    whatever mode it is in.  Without a command port nothing is done and the settings
    are empty.  With one, the command is written, and when the settings are returned
    the control register has shown that ACPI is in control; they hold exactly the
    enabled local controllers, the I/O controllers and the overrides of the table,
    in order.  With more than 256 of a kind it panics. *)
Theorem parse_acpi_table_exact fuel from_rsdp acpi_base h fadt es :
  from_rsdp acpi_base = Some (mkAcpiTables (Some fadt) (Some es)) -> fadt_of fadt h ->
  (S (match hw_mode h with Switching k => k | _ => hw_delay h end) < fuel)%nat ->
  if smi_cmd_port fadt =? 0 then parse_acpi_table fuel from_rsdp acpi_base h = Done (AcpiSettings_default, h)
  else match parse_acpi_table fuel from_rsdp acpi_base h with
       | Done (s, h') =>
           take (local_apic_count s) (local_apic s) = omap enabled_local es /\
           take (io_apic_count s) (io_apic s) = omap io_entry es /\
           take (interrupt_src_override_count s) (interrupt_src_override s) = omap iso_entry es /\
           local_apic_base s = (if decide (omap enabled_local es = []) then 0 else hw_apic_base h) /\
           hw_written h' = (hw_smi_port h, hw_enable h) :: hw_written h /\ hw_mode h' = AcpiEnabled
       | Panic => ~ all_small es
       | OutOfFuel => False
       end.
Proof.
  intros Hr Hf Hd. unfold parse_acpi_table. rewrite Hr. cbn [or_panic]. rewrite Done_bind. cbn [find_fadt find_madt or_panic].
  rewrite Done_bind. destruct (smi_cmd_port fadt =? 0); [done|]. destruct (command_switches fadt h Hf) as (n & Hn & Hle & Hp).
  destruct (fo_pm1a _ _ Hf) as (cb & -> & Hcb). cbn [or_panic]. rewrite Done_bind. rewrite Hcb, <- Hp.
  rewrite (wait_enabled_ok fuel _ n), !Done_bind by (done || lia). rewrite <- (fo_smi _ _ Hf), <- (fo_enable _ _ Hf).
  pose proof (collect_all es [] collected_new collected_new_from) as Hc.
  destruct (foldM collect collected_new es) as [c| |]; cbn [mbind outcome_bind app] in *; [|done|done].
  destruct Hc as [Hl Hi Ho].
  pose proof Hl as (Hn' & _ & _). destruct (filled_length _ _ _ _ Hl) as (_ & _ & Tl & _).
  destruct (filled_length _ _ _ _ Hi) as (_ & _ & Ti & _). destruct (filled_length _ _ _ _ Ho) as (_ & _ & To & _).
  cbn. split; [done|]. split; [done|]. split; [done|]. split; [|done].
  rewrite Hn'. destruct (omap enabled_local es); [by rewrite decide_True|by rewrite decide_False].
Qed.

(** The shape the kernel relies on when it slices the arrays. *)
Definition acpi_wf (s : AcpiSettings) : Prop :=
  length (local_apic s) = MAX_CPUS /\ (local_apic_count s <= MAX_CPUS)%nat /\
  length (io_apic s) = MAX_CPUS /\ (io_apic_count s <= MAX_CPUS)%nat /\
  length (interrupt_src_override s) = MAX_CPUS /\ (interrupt_src_override_count s <= MAX_CPUS)%nat.

Lemma collected_wf es c b : collected_from es c ->
  acpi_wf (mkAcpiSettings b (co_lapics c) (co_lapic_count c) (co_ioapics c) (co_ioapics_count c) (co_iso c) (co_iso_count c)).
Proof.
  intros [Hl Hi Ho]. unfold acpi_wf. cbn.
  destruct (filled_length _ _ _ _ Hl) as (L1 & L2 & _). destruct (filled_length _ _ _ _ Hi) as (I1 & I2 & _).
  by destruct (filled_length _ _ _ _ Ho) as (O1 & O2 & _).
Qed.

(** C38. Whatever the tables hold, settings that are returned are well formed:
    every array has 256 entries and no count exceeds it, so the kernel's slices
    of the arrays are in bounds. *)
Theorem parse_acpi_table_wf fuel from_rsdp acpi_base h :
  match parse_acpi_table fuel from_rsdp acpi_base h with Done (s, _) => acpi_wf s | _ => True end.
Proof.
  destruct (parse_acpi_table fuel from_rsdp acpi_base h) as [[s h']| |] eqn:E; [|done|done].
  unfold parse_acpi_table in E. apply bind_Done_1 in E as (t & Et & E). apply bind_Done_1 in E as (f & Ef & E).
  destruct (smi_cmd_port f =? 0); [injection E as <- <-; apply (collected_wf [] collected_new 0 collected_new_from)|].
  apply bind_Done_1 in E as (? & _ & E). apply bind_Done_1 in E as (h1 & _ & E). apply bind_Done_1 in E as (es & _ & E).
  apply bind_Done_1 in E as (c & Ec & E). injection E as <- <-.
  pose proof (collect_all es [] collected_new collected_new_from) as Hc. rewrite Ec in Hc. by eapply collected_wf.
Qed.

(** ** An instance *)

Definition sample_tables : AcpiTables :=
  mkAcpiTables (Some (mkFadt 0xb2 0xf1 (Some 0x604)))
    (Some [MadtLocal 0 0 1; MadtLocal 1 1 1; MadtLocal 2 2 0; MadtIo 0 0xfec00000 0; MadtIso 0 0 2 0; MadtOther]).

Definition sample_acpi_hw : AcpiHw := mkAcpiHw 0xb2 0xf1 0x604 2 LegacyMode (fun _ => 0) [] 0xfee00900.

Lemma parse_acpi_table_exact_witness :
  exists s h', parse_acpi_table 5 (fun _ => Some sample_tables) 0xe0000 sample_acpi_hw = Done (s, h') /\
    take (local_apic_count s) (local_apic s) = [mkMadtLocalApic 0 0; mkMadtLocalApic 1 1] /\
    take (io_apic_count s) (io_apic s) = [mkMadtIoApic 0 0xfec00000 0] /\ hw_mode h' = AcpiEnabled.
Proof.
  assert (Hf : fadt_of (mkFadt 0xb2 0xf1 (Some 0x604)) sample_acpi_hw) by (split; [done|done|by eexists]).
  pose proof (parse_acpi_table_exact 5 (fun _ => Some sample_tables) 0xe0000 sample_acpi_hw
    (mkFadt 0xb2 0xf1 (Some 0x604)) _ eq_refl Hf ltac:(simpl; lia)) as H. cbn [smi_cmd_port Z.eqb Pos.eqb] in H.
  destruct (parse_acpi_table 5 (fun _ => Some sample_tables) 0xe0000 sample_acpi_hw) as [[s h']| |] eqn:E.
  - exists s, h'. destruct H as (H1 & H2 & _ & _ & _ & H6). split; [done|]. split; [exact H1|]. split; [exact H2|exact H6].
  - destruct H. unfold all_small, small, MAX_CPUS. simpl. lia.
  - destruct H.
Defined.
