(* ===== verification/LocalApic.v ===== *)
(** * The local interrupt controllers

    [kernel/src/acpi/local_apic.rs] and [kernel/src/ipi.rs].  The device is
    modelled as the architecture manual describes it: registers reached through
    a page of memory (xAPIC) or through model-specific registers (x2APIC),
    depending on two bits of IA32_APIC_BASE, and the messages it sends to other
    processors.  An access that raises a general protection exception is
    [Panic]. *)

From S2P Require Import Prelude Descriptors.

(** ** The device *)

(** An interrupt message, as the fields of the interrupt command register
    describe it. *)
Record Message : Type := mkMessage {
  msg_vector : Z;
  msg_delivery : Z;
  msg_logical : bool;
  msg_level : bool;
  msg_shorthand : Z;
  msg_dest : Z
}.

Record LapicHw : Type := mkLapicHw {
  (** IA32_APIC_BASE *)
  h_apic_base : Z;
  (** CPUID reports the x2APIC *)
  h_has_x2apic : bool;
  h_id : Z;
  (** registers by their offset in the page *)
  h_reg : Z -> Z;
  (** how many reads still show the delivery status as pending *)
  h_busy : nat;
  (** the same after a message *)
  h_latency : nat;
  (** errors since the last write to the error status register *)
  h_errors : Z;
  (** messages, the last one first *)
  h_sent : list Message;
  (** interrupts acknowledged *)
  h_eois : nat;
  (** other memory, by 32-bit words *)
  h_mem : Z -> Z;
  (** the last byte written to an I/O port *)
  h_port : Z -> Z
}.

Definition APIC_ENABLED : Z := 11.
Definition APIC_X2 : Z := 10.

Definition xapic_mode (h : LapicHw) : bool := Z.testbit (h_apic_base h) APIC_ENABLED && negb (Z.testbit (h_apic_base h) APIC_X2).
Definition x2apic_mode (h : LapicHw) : bool := Z.testbit (h_apic_base h) APIC_ENABLED && Z.testbit (h_apic_base h) APIC_X2.

(** The id other processors reach it by. *)
Definition hw_id (h : LapicHw) : Z := if x2apic_mode h then h_id h else h_id h mod 2 ^ 8.

(** The page of the registers. *)
Definition apic_page (h : LapicHw) : Z := Z.land (h_apic_base h) 0xffffffffff000.

(** The register at a physical address. *)
Definition mmio_reg (h : LapicHw) (a : Z) : option Z :=
  if xapic_mode h && (apic_page h <=? a) && (a <? apic_page h + 0x1000) then Some (a - apic_page h) else None.

Definition set_reg (o v : Z) (h : LapicHw) : LapicHw :=
  mkLapicHw (h_apic_base h) (h_has_x2apic h) (h_id h) (fun o' => if decide (o' = o) then v else h_reg h o')
    (h_busy h) (h_latency h) (h_errors h) (h_sent h) (h_eois h) (h_mem h) (h_port h).
Definition set_busy (n : nat) (h : LapicHw) : LapicHw :=
  mkLapicHw (h_apic_base h) (h_has_x2apic h) (h_id h) (h_reg h)
    n (h_latency h) (h_errors h) (h_sent h) (h_eois h) (h_mem h) (h_port h).
Definition send (msg : Message) (h : LapicHw) : LapicHw :=
  mkLapicHw (h_apic_base h) (h_has_x2apic h) (h_id h) (h_reg h)
    (h_latency h) (h_latency h) (h_errors h) (msg :: h_sent h) (h_eois h) (h_mem h) (h_port h).
Definition clear_errors (h : LapicHw) : LapicHw :=
  mkLapicHw (h_apic_base h) (h_has_x2apic h) (h_id h) (h_reg h)
    (h_busy h) (h_latency h) 0 (h_sent h) (h_eois h) (h_mem h) (h_port h).
Definition acknowledge (h : LapicHw) : LapicHw :=
  mkLapicHw (h_apic_base h) (h_has_x2apic h) (h_id h) (h_reg h)
    (h_busy h) (h_latency h) (h_errors h) (h_sent h) (S (h_eois h)) (h_mem h) (h_port h).
Definition set_word (a v : Z) (h : LapicHw) : LapicHw :=
  mkLapicHw (h_apic_base h) (h_has_x2apic h) (h_id h) (h_reg h) (h_busy h) (h_latency h) (h_errors h) (h_sent h)
    (h_eois h) (fun a' => if decide (a' = a) then v else h_mem h a') (h_port h).
Definition outb (p v : Z) (h : LapicHw) : LapicHw :=
  mkLapicHw (h_apic_base h) (h_has_x2apic h) (h_id h) (h_reg h) (h_busy h) (h_latency h) (h_errors h) (h_sent h)
    (h_eois h) (h_mem h) (fun p' => if decide (p' = p) then v else h_port h p').
Definition set_apic_base (v : Z) (h : LapicHw) : LapicHw :=
  mkLapicHw v (h_has_x2apic h) (h_id h) (h_reg h)
    (h_busy h) (h_latency h) (h_errors h) (h_sent h) (h_eois h) (h_mem h) (h_port h).

(** What the interrupt command register asks for; the destination is wider in
    x2APIC mode. *)
Definition message_of (x2 : bool) (icr : Z) : Message :=
  mkMessage (icr mod 2 ^ 8) ((icr / 2 ^ 8) mod 2 ^ 3) (Z.testbit icr 11) (Z.testbit icr 14)
    ((icr / 2 ^ 18) mod 2 ^ 2) (icr / 2 ^ (if x2 then 32 else 56)).

Definition icr_value (h : LapicHw) : Z := h_reg h 0x310 * 2 ^ 32 + h_reg h 0x300.

(** Reading a register; only the delivery status changes by itself. *)
Definition read_register (o : Z) (h : LapicHw) : Z * LapicHw :=
  if o =? 0x300 then
    match h_busy h with
    | O => (Z.clearbit (h_reg h 0x300) 12, h)
    | S n => (Z.setbit (h_reg h 0x300) 12, set_busy n h)
    end
  else if o =? 0x20 then ((if x2apic_mode h then h_id h else (h_id h mod 2 ^ 8) * 2 ^ 24), h)
  else (h_reg h o, h).

(** Writing one: the identification, the version and the current count are
    read-only, writing the error status register updates it, and the lower half
    of the command register sends, unless the message before is still pending. *)
Definition write_register (o v : Z) (h : LapicHw) : LapicHw :=
  if o =? 0x300 then
    let h := set_reg 0x300 v h in
    match h_busy h with O => send (message_of false (icr_value h)) h | S _ => h end
  else if (o =? 0x20) || (o =? 0x30) || (o =? 0x390) then h
  else if o =? 0x280 then clear_errors (set_reg 0x280 (h_errors h) h)
  else if o =? 0xb0 then acknowledge h
  else set_reg o v h.

Definition read_volatile (a : Z) (h : LapicHw) : Z * LapicHw :=
  match mmio_reg h a with
  | Some o => read_register o h
  | None => (h_mem h a, h)
  end.

Definition write_volatile (a v : Z) (h : LapicHw) : LapicHw :=
  match mmio_reg h a with
  | Some o => write_register o v h
  | None => set_word a v h
  end.

(** The x2APIC registers start at 0x800; the command register is one of 64 bits
    without a delivery status. *)
Definition rdmsr (i : Z) (h : LapicHw) : outcome (Z * LapicHw) :=
  if x2apic_mode h then
    Done (if i =? 0x830 then (icr_value h, h) else read_register ((i - 0x800) * 16) h)
  else Panic.

Definition wrmsr (i v : Z) (h : LapicHw) : outcome LapicHw :=
  if x2apic_mode h then
    Done (if i =? 0x830 then
        set_busy 0 (send (message_of true v) (set_reg 0x310 (v / 2 ^ 32) (set_reg 0x300 (v mod 2 ^ 32) h)))
      else write_register ((i - 0x800) * 16) v h)
  else Panic.

(** IA32_APIC_BASE itself; leaving x2APIC mode without a reset faults. *)
Definition write_apic_base (v : Z) (h : LapicHw) : outcome LapicHw :=
  if Z.testbit (h_apic_base h) APIC_X2 && negb (Z.testbit v APIC_X2) then Panic else Done (set_apic_base v h).

(** ** The driver *)

Record LocalApic : Type := mkLocalApic { la_base : Z; la_x2 : bool }.

(** The static [LOCAL_APIC] before [setup_apic]. *)
Definition LOCAL_APIC : LocalApic := mkLocalApic 0 false.

Definition lapic_read (l : LocalApic) (reg : Z) (h : LapicHw) : outcome (Z * LapicHw) :=
  a ← checked 32 (wrap 32 (Z.land (la_base l) 0xffffffff) + reg);
  Done (read_volatile a h).

Definition lapic_write (l : LocalApic) (reg value : Z) (h : LapicHw) : outcome LapicHw :=
  a ← checked 32 (wrap 32 (Z.land (la_base l) 0xffffffff) + reg);
  Done (write_volatile a value h).

(** An access by the mode of the driver: a model-specific register, of which
    the lower half is taken, or a register of the page. *)
Definition lapic_get (msr reg : Z) (l : LocalApic) (h : LapicHw) : outcome (Z * LapicHw) :=
  if la_x2 l then '(v, h) ← rdmsr msr h; Done (wrap 32 v, h) else lapic_read l reg h.

Definition lapic_set (msr reg value : Z) (l : LocalApic) (h : LapicHw) : outcome LapicHw :=
  if la_x2 l then wrmsr msr value h else lapic_write l reg value h.

Definition lapic_own_id : LocalApic -> LapicHw -> outcome (Z * LapicHw) := lapic_get 0x802 0x20.
Definition version : LocalApic -> LapicHw -> outcome (Z * LapicHw) := lapic_get 0x803 0x30.

Definition icr (l : LocalApic) (h : LapicHw) : outcome (Z * LapicHw) :=
  if la_x2 l then rdmsr 0x830 h
  else
    '(hi, h) ← lapic_read l 0x310 h;
    '(lo, h) ← lapic_read l 0x300 h;
    Done (Z.lor (Z.shiftl hi 32) lo, h).

Definition PENDING : Z := Z.shiftl 1 12.

(** [while self.read(0x300) & PENDING == PENDING] *)
Fixpoint wait_idle (fuel : nat) (l : LocalApic) (h : LapicHw) : outcome LapicHw :=
  match fuel with
  | O => OutOfFuel
  | S fuel =>
      '(v, h) ← lapic_read l 0x300 h;
      if Z.land v PENDING =? PENDING then wait_idle fuel l h else Done h
  end.

Definition set_icr (fuel : nat) (value : Z) (l : LocalApic) (h : LapicHw) : outcome LapicHw :=
  if la_x2 l then wrmsr 0x830 value h
  else
    h ← wait_idle fuel l h;
    h ← lapic_write l 0x310 (wrap 32 (Z.shiftr value 32)) h;
    h ← lapic_write l 0x300 (wrap 32 value) h;
    wait_idle fuel l h.

Inductive IpiKind : Type := Wakeup | Switch | Pit.
Definition ipi_vector (k : IpiKind) : Z :=
  match k with Wakeup => IPI_WAKEUP | Switch => IPI_SWITCH | Pit => IPI_PIT end.

Inductive IpiTarget : Type := TargetCurrent | TargetAll | TargetOther.
Definition ipi_target (t : IpiTarget) : Z := match t with TargetCurrent => 1 | TargetAll => 2 | TargetOther => 3 end.

(** [LocalApic::ipi] *)
Definition lapic_ipi (fuel : nat) (apic_id : Z) (kind : IpiKind) (l : LocalApic) (h : LapicHw) : outcome LapicHw :=
  let icr := Z.lor 0x40 (ipi_vector kind) in
  let icr := Z.lor icr (wrap 64 (Z.shiftl apic_id (if la_x2 l then 32 else 56))) in
  set_icr fuel icr l h.

Definition ipi_nmi (fuel : nat) (apic_id : Z) (l : LocalApic) (h : LapicHw) : outcome LapicHw :=
  let shift := if la_x2 l then 32 else 56 in
  set_icr fuel (Z.lor (Z.lor (wrap 64 (Z.shiftl apic_id shift)) (Z.shiftl 1 14)) (Z.shiftl 4 8)) l h.

(** [ipi::ipi] and [ipi::ipi_single] *)
Definition ipi (fuel : nat) (kind : IpiKind) (target : IpiTarget) (l : LocalApic) (h : LapicHw) : outcome LapicHw :=
  set_icr fuel (Z.lor (Z.lor (Z.shiftl (ipi_target target) 18) (Z.shiftl 1 14)) (ipi_vector kind)) l h.

Definition ipi_single (fuel : nat) (kind : IpiKind) (target : Z) (l : LocalApic) (h : LapicHw) : outcome LapicHw :=
  lapic_ipi fuel target kind l h.

Definition eoi : LocalApic -> LapicHw -> outcome LapicHw := lapic_set 0x80b 0xb0 0.

Definition esr (l : LocalApic) (h : LapicHw) : outcome (Z * LapicHw) :=
  h ← lapic_set 0x828 0x280 0 l h;
  lapic_get 0x828 0x280 l h.

Definition lvt_timer : LocalApic -> LapicHw -> outcome (Z * LapicHw) := lapic_get 0x832 0x320.
Definition set_lvt_timer : Z -> LocalApic -> LapicHw -> outcome LapicHw := lapic_set 0x832 0x320.
Definition init_count : LocalApic -> LapicHw -> outcome (Z * LapicHw) := lapic_get 0x838 0x380.
Definition set_init_count : Z -> LocalApic -> LapicHw -> outcome LapicHw := lapic_set 0x838 0x380.
Definition cur_count : LocalApic -> LapicHw -> outcome (Z * LapicHw) := lapic_get 0x839 0x390.
Definition div_conf : LocalApic -> LapicHw -> outcome (Z * LapicHw) := lapic_get 0x83e 0x3e0.
Definition set_div_conf : Z -> LocalApic -> LapicHw -> outcome LapicHw := lapic_set 0x83e 0x3e0.
Definition lvt_error : LocalApic -> LapicHw -> outcome (Z * LapicHw) := lapic_get 0x837 0x370.
Definition set_lvt_error : Z -> LocalApic -> LapicHw -> outcome LapicHw := lapic_set 0x837 0x370.
Definition setup_error_int : LocalApic -> LapicHw -> outcome LapicHw := set_lvt_error 49.

Definition IA32_APIC_BASE_MSR_ENABLE : Z := 0x800.

(** The spurious interrupt vector register: software enable. *)
Definition software_enable (l : LocalApic) (h : LapicHw) : outcome LapicHw :=
  '(v, h) ← lapic_read l 0xf0 h;
  lapic_write l 0xf0 (Z.lor v 0x100) h.

(** [setup_apic] on the processor [cpu_id], with the static [LOCAL_APIC]. *)
Definition setup_apic (apic_base cpu_id : Z) (l : LocalApic) (h : LapicHw) : outcome (LocalApic * LapicHw) :=
  if negb (cpu_id =? 0) then h ← software_enable l h; Done (l, h)
  else
    h ← write_apic_base (Z.lor apic_base IA32_APIC_BASE_MSR_ENABLE) h;
    let l := mkLocalApic (Z.land apic_base 0xffff0000) (h_has_x2apic h) in
    let h := outb 0xa1 0xff (outb 0x21 0xff h) in
    h ← software_enable l h;
    h ← set_lvt_error 49 l h;
    Done (l, h).

(** ** Accesses *)

(** The driver's mode and base are those of the device. *)
Definition drives (l : LocalApic) (h : LapicHw) : Prop :=
  if la_x2 l then x2apic_mode h = true
  else xapic_mode h = true /\ la_base l = apic_page h /\ apic_page h + 0x1000 <= 2 ^ 32.

Lemma apic_page_nonneg h : 0 <= apic_page h.
Proof. apply Z.land_nonneg. by right. Qed.

Lemma drives_page l h o : drives l h -> la_x2 l = false -> 0 <= o < 0x1000 ->
  wrap 32 (Z.land (la_base l) 0xffffffff) + o = apic_page h + o /\ apic_page h + o < 2 ^ 32 /\
  mmio_reg h (apic_page h + o) = Some o.
Proof.
  unfold drives. intros Hd Hx Ho. rewrite Hx in Hd. destruct Hd as (Hm & Hb & Hp). pose proof (apic_page_nonneg h).
  rewrite Hb. change 0xffffffff with (Z.ones 32). rewrite Z.land_ones by done. unfold wrap.
  rewrite !Z.mod_small by (rewrite ?Z.mod_small by lia; lia). split; [done|]. split; [lia|].
  unfold mmio_reg. rewrite Hm. rewrite (proj2 (Z.leb_le _ _)), (proj2 (Z.ltb_lt _ _)) by lia. simpl. f_equal. lia.
Qed.

Lemma lapic_read_reg l h o : drives l h -> la_x2 l = false -> 0 <= o < 0x1000 ->
  lapic_read l o h = Done (read_register o h).
Proof.
  intros Hd Hx Ho. destruct (drives_page l h o Hd Hx Ho) as (E & Hlt & Hr). pose proof (apic_page_nonneg h).
  unfold lapic_read, read_volatile. rewrite E, checked_in, Done_bind, Hr by lia. done.
Qed.

Lemma lapic_write_reg l h o v : drives l h -> la_x2 l = false -> 0 <= o < 0x1000 ->
  lapic_write l o v h = Done (write_register o v h).
Proof.
  intros Hd Hx Ho. destruct (drives_page l h o Hd Hx Ho) as (E & Hlt & Hr). pose proof (apic_page_nonneg h).
  unfold lapic_write, write_volatile. rewrite E, checked_in, Done_bind, Hr by lia. done.
Qed.

(** ** Sending *)

(** The fuel is more than the device ever needs to deliver a message. *)
Definition responsive (fuel : nat) (h : LapicHw) : Prop := (h_busy h < fuel)%nat /\ (h_latency h < fuel)%nat.

Lemma pending_bit v (b : bool) : (Z.land (if b then Z.setbit v 12 else Z.clearbit v 12) PENDING =? PENDING) = b.
Proof.
  assert (E : forall w, Z.land w PENDING = if Z.testbit w 12 then PENDING else 0).
  { intros w. apply Z.bits_inj'. intros n Hn. unfold PENDING. rewrite Z.land_spec, Z.shiftl_1_l, Z.pow2_bits_eqb by done.
    destruct (Z.eqb_spec 12 n) as [<-|Hne]; [|rewrite andb_false_r].
    - rewrite andb_true_r. destruct (Z.testbit w 12); [by rewrite Z.pow2_bits_true|by rewrite Z.bits_0].
    - destruct (Z.testbit w 12); [by rewrite Z.pow2_bits_false|by rewrite Z.bits_0]. }
  rewrite E. destruct b; [by rewrite Z.setbit_eq|by rewrite Z.clearbit_eq].
Qed.

Lemma wait_idle_ok l : la_x2 l = false -> forall fuel h, drives l h -> (h_busy h < fuel)%nat ->
  wait_idle fuel l h = Done (set_busy 0 h).
Proof.
  intros Hx. induction fuel as [|fuel IH]; intros h Hd Hb; [lia|].
  cbn [wait_idle]. rewrite lapic_read_reg, Done_bind by done. unfold read_register. cbn [Z.eqb Pos.eqb].
  destruct (h_busy h) as [|n] eqn:En.
  - rewrite (pending_bit _ false). f_equal. destruct h. cbn in En. by subst.
  - rewrite (pending_bit _ true), IH; [done|done|simpl; lia].
Qed.

Lemma icr_halves v : 0 <= v < 2 ^ 64 -> wrap 32 (Z.shiftr v 32) * 2 ^ 32 + wrap 32 v = v.
Proof. intros Hv. unfold wrap. rewrite Z.shiftr_div_pow2 by done. Z.to_euclidean_division_equations; lia. Qed.

(** Sending changes the command register only. *)
Record sent_only (h h' : LapicHw) : Prop := {
  so_id : h_id h' = h_id h;
  so_reg o : o <> 0x300 -> o <> 0x310 -> h_reg h' o = h_reg h o;
  so_port p : h_port h' p = h_port h p
}.

Lemma sent_only_refl h : sent_only h h.
Proof. done. Qed.

Lemma sent_only_trans h1 h2 h3 : sent_only h1 h2 -> sent_only h2 h3 -> sent_only h1 h3.
Proof. intros [A1 A2 A3] [B1 B2 B3]. split; intros; [congruence|by rewrite B2, A2|by rewrite B3]. Qed.

Lemma set_icr_sends fuel v l h : drives l h -> 0 <= v < 2 ^ 64 -> responsive fuel h ->
  exists h', set_icr fuel v l h = Done h' /\ h_sent h' = message_of (la_x2 l) v :: h_sent h /\
    drives l h' /\ responsive fuel h' /\ sent_only h h'.
Proof.
  intros Hd Hv [Hb Hl].
  assert (Hs : forall f b e m, (forall o, o <> 0x300 -> o <> 0x310 -> f o = h_reg h o) ->
    sent_only h (mkLapicHw (h_apic_base h) (h_has_x2apic h) (h_id h) f b (h_latency h) e m (h_eois h) (h_mem h) (h_port h))) by done. unfold set_icr. destruct (la_x2 l) eqn:Hx.
  - pose proof Hd as Hm. unfold drives in Hm. rewrite Hx in Hm. unfold wrmsr. rewrite Hm. cbn [Z.eqb Pos.eqb].
    eexists. split; [done|]. split; [done|]. split; [unfold drives; by rewrite Hx|]. split; [split; [simpl; lia|done]|].
    apply Hs. intros o H1 H2. cbn. by rewrite !decide_False.
  - rewrite wait_idle_ok, Done_bind by done. rewrite lapic_write_reg, Done_bind by done.
    rewrite lapic_write_reg, Done_bind by done. rewrite wait_idle_ok by done.
    eexists. split; [done|]. split; [|split; [done|split; [split; [simpl; lia|done]|]]].
    + cbn. f_equal. f_equal. unfold icr_value. cbn. by apply icr_halves.
    + apply Hs. intros o H1 H2. cbn. by rewrite !decide_False.
Qed.

(** A command with the destination in the upper bits. *)
Lemma message_of_dest x2 a d : 0 <= a < 2 ^ 32 -> 0 <= d < 256 ->
  let v := Z.lor a (wrap 64 (Z.shiftl d (if x2 : bool then 32 else 56))) in
  0 <= v < 2 ^ 64 /\
  message_of x2 v = mkMessage (a mod 2 ^ 8) ((a / 2 ^ 8) mod 2 ^ 3) (Z.testbit a 11) (Z.testbit a 14)
    ((a / 2 ^ 18) mod 2 ^ 2) d.
Proof.
  intros Ha Hd v.
  assert (E : v = a + d * 2 ^ (if x2 then 32 else 56)).
  { unfold v, wrap. rewrite Z.shiftl_mul_pow2, Z.mod_small, Z.lor_comm, lor_field by (destruct x2; lia). lia. }
  split; [rewrite E; destruct x2; lia|]. unfold message_of.
  assert (T : forall i, 0 <= i < 32 -> Z.testbit v i = Z.testbit a i).
  { intros i Hi. unfold v, wrap. rewrite Z.lor_spec, Z.shiftl_mul_pow2, Z.mod_small, Z.mul_pow2_bits_low by (destruct x2; lia).
    apply orb_false_r. }
  rewrite !T, E by done. destruct x2; f_equal; Z.to_euclidean_division_equations; lia.
Qed.

(** ** Commands *)

(** What the kernel asks of its local controller. *)
Inductive command : Type :=
| ToOne (apic_id : Z) (kind : IpiKind)
| ToOneNmi (apic_id : Z)
| ToMany (kind : IpiKind) (target : IpiTarget).

Definition issue (fuel : nat) (l : LocalApic) (h : LapicHw) (c : command) : outcome LapicHw :=
  match c with
  | ToOne i k => ipi_single fuel k i l h
  | ToOneNmi i => ipi_nmi fuel i l h
  | ToMany k t => ipi fuel k t l h
  end.

(** Fixed delivery of the vector, a non-maskable interrupt (4), or fixed
    delivery to a group. *)
Definition command_message (c : command) : Message :=
  match c with
  | ToOne i k => mkMessage (ipi_vector k) 0 false false 0 i
  | ToOneNmi i => mkMessage 0 4 false true 0 i
  | ToMany k t => mkMessage (ipi_vector k) 0 false true (ipi_target t) 0
  end.

(** Destinations of 8 bits. *)
Definition addressable (c : command) : Prop :=
  match c with ToOne i _ | ToOneNmi i => 0 <= i < 256 | ToMany _ _ => True end.

Lemma issue_sends fuel l h c : drives l h -> responsive fuel h -> addressable c ->
  exists h', issue fuel l h c = Done h' /\ h_sent h' = command_message c :: h_sent h /\ drives l h' /\ responsive fuel h'.
Proof.
  intros Hd Hr Hc. destruct c as [i k|i|k t]; cbn [issue addressable] in *.
  - destruct (message_of_dest (la_x2 l) (Z.lor 0x40 (ipi_vector k)) i) as [Hv Hm]; [by destruct k|done|].
    destruct (set_icr_sends fuel _ l h Hd Hv Hr) as (h' & E & Hs & Hd' & Hr' & _). exists h'. split; [done|].
    split; [|done]. rewrite Hs, Hm. by destruct k.
  - destruct (message_of_dest (la_x2 l) (Z.lor (Z.shiftl 1 14) (Z.shiftl 4 8)) i) as [Hv Hm]; [done|done|].
    rewrite Z.lor_comm, Z.lor_assoc in Hv, Hm. cbv zeta in Hv, Hm.
    destruct (set_icr_sends fuel _ l h Hd Hv Hr) as (h' & E & Hs & Hd' & Hr' & _). exists h'. split; [done|].
    split; [|done]. by rewrite Hs, Hm.
  - destruct (set_icr_sends fuel (Z.lor (Z.lor (Z.shiftl (ipi_target t) 18) (Z.shiftl 1 14)) (ipi_vector k)) l h Hd)
      as (h' & E & Hs & Hd' & Hr' & _); [by destruct t, k|done|].
    exists h'. split; [done|]. split; [|done]. rewrite Hs. by destruct t, k, (la_x2 l).
Qed.

Lemma issue_all fuel l cs : forall h, drives l h -> responsive fuel h -> Forall addressable cs ->
  exists h', foldM (issue fuel l) h cs = Done h' /\ h_sent h' = rev (map command_message cs) ++ h_sent h.
Proof.
  induction cs as [|c cs IH]; intros h Hd Hr Hc; [by exists h|]. apply Forall_cons in Hc as [Hc Hcs].
  destruct (issue_sends fuel l h c Hd Hr Hc) as (h1 & E1 & S1 & D1 & R1). cbn [foldM]. rewrite E1, Done_bind.
  destruct (IH h1 D1 R1 Hcs) as (h2 & E2 & S2). exists h2. split; [done|].
  rewrite S2, S1. cbn [map rev]. by rewrite <- app_assoc.
Qed.

(** C35. The two modes of the local controller: any sequence of commands sends
    the same messages whether the driver uses the register page or the
    model-specific registers, namely the ones the commands name. *)
Theorem modes_equivalent fuel l1 h1 l2 h2 cs :
  drives l1 h1 -> la_x2 l1 = false -> drives l2 h2 -> la_x2 l2 = true ->
  responsive fuel h1 -> responsive fuel h2 -> Forall addressable cs ->
  exists h1' h2', foldM (issue fuel l1) h1 cs = Done h1' /\ foldM (issue fuel l2) h2 cs = Done h2' /\
    h_sent h1' = rev (map command_message cs) ++ h_sent h1 /\
    h_sent h2' = rev (map command_message cs) ++ h_sent h2.
Proof.
  intros D1 _ D2 _ R1 R2 Hc. destruct (issue_all fuel l1 cs h1 D1 R1 Hc) as (h1' & E1 & S1).
  destruct (issue_all fuel l2 cs h2 D2 R2 Hc) as (h2' & E2 & S2). by exists h1', h2'.
Qed.

(** ** Setting up the controller *)

Lemma software_enable_reg l h : drives l h -> la_x2 l = false ->
  software_enable l h = Done (set_reg 0xf0 (Z.lor (h_reg h 0xf0) 0x100) h).
Proof.
  intros Hd Hx. unfold software_enable. rewrite lapic_read_reg, Done_bind by done. cbn. by rewrite lapic_write_reg.
Qed.

(** The firmware reports an enabled page below 4 GiB, aligned to 64 KiB. *)
Definition firmware_base (apic_base : Z) : Prop :=
  Z.land apic_base 0xffff0000 = Z.land (Z.lor apic_base IA32_APIC_BASE_MSR_ENABLE) 0xffffffffff000 /\
  Z.land apic_base 0xffff0000 + 0x1000 <= 2 ^ 32.

Lemma enabled_bits v : Z.testbit (Z.lor v IA32_APIC_BASE_MSR_ENABLE) APIC_ENABLED = true /\
  Z.testbit (Z.lor v IA32_APIC_BASE_MSR_ENABLE) APIC_X2 = Z.testbit v APIC_X2.
Proof. rewrite !Z.lor_spec. split; [apply orb_true_r|apply orb_false_r]. Qed.

(** A controller with the base of the firmware is reached by the driver. *)
Lemma firmware_drives apic_base h : firmware_base apic_base -> Z.testbit apic_base APIC_X2 = false ->
  h_apic_base h = Z.lor apic_base IA32_APIC_BASE_MSR_ENABLE -> drives (mkLocalApic (Z.land apic_base 0xffff0000) false) h.
Proof.
  intros [F1 F2] Hb Hh. destruct (enabled_bits apic_base) as [E1 E2]. unfold drives, xapic_mode, apic_page.
  cbn [la_x2 la_base]. by rewrite Hh, E1, E2, Hb, <- F1.
Qed.

Lemma software_enabled v : Z.testbit (Z.lor v 0x100) 8 = true.
Proof. rewrite Z.lor_spec. apply orb_true_r. Qed.

(** [setup_apic] on the boot processor. *)
Lemma setup_apic_bsp apic_base l0 h :
  firmware_base apic_base -> h_has_x2apic h = false ->
  Z.testbit apic_base APIC_X2 = false -> Z.testbit (h_apic_base h) APIC_X2 = false ->
  let l := mkLocalApic (Z.land apic_base 0xffff0000) false in
  exists h', setup_apic apic_base 0 l0 h = Done (l, h') /\ drives l h' /\
    Z.testbit (h_reg h' 0xf0) 8 = true /\ h_reg h' 0x370 = 49 /\ h_port h' 0x21 = 0xff /\ h_port h' 0xa1 = 0xff /\
    h_id h' = h_id h /\ h_sent h' = h_sent h /\ h_busy h' = h_busy h /\ h_latency h' = h_latency h.
Proof.
  intros Hf Hx Hb Hh l. pose proof (fun h => firmware_drives apic_base h Hf Hb) as Hdr. fold l in Hdr.
  unfold setup_apic. cbn [Z.eqb negb]. unfold write_apic_base. rewrite Hh. cbn [andb]. rewrite Done_bind.
  cbn [set_apic_base h_has_x2apic]. rewrite Hx. fold l. cbv zeta.
  rewrite software_enable_reg, Done_bind by (done || by apply Hdr).
  unfold set_lvt_error, lapic_set. cbn [l la_x2]. fold l. rewrite lapic_write_reg, Done_bind by (done || by apply Hdr).
  eexists. split; [done|]. split; [by apply Hdr|]. cbn. split; [apply software_enabled|done].
Qed.

(** Setting up the local controller of the boot processor, on a processor
    without the x2APIC: the device is enabled by hardware and by software, its
    error vector is 49, both legacy controllers are masked, and the driver
    reaches the device; the same call on another processor then enables that
    processor's controller and nothing else. *)
Theorem setup_apic_enables apic_base l0 h cpu h_ap :
  firmware_base apic_base -> h_has_x2apic h = false ->
  Z.testbit apic_base APIC_X2 = false -> Z.testbit (h_apic_base h) APIC_X2 = false ->
  h_apic_base h_ap = Z.lor apic_base IA32_APIC_BASE_MSR_ENABLE -> cpu <> 0 ->
  exists l h' h_ap', setup_apic apic_base 0 l0 h = Done (l, h') /\ drives l h' /\
    Z.testbit (h_reg h' 0xf0) 8 = true /\ h_reg h' 0x370 = 49 /\ h_port h' 0x21 = 0xff /\ h_port h' 0xa1 = 0xff /\
    setup_apic 0 cpu l h_ap = Done (l, h_ap') /\ drives l h_ap' /\ Z.testbit (h_reg h_ap' 0xf0) 8 = true /\
    (forall o, o <> 0xf0 -> h_reg h_ap' o = h_reg h_ap o).
Proof.
  intros Hf Hx Hb Hh Hap Hcpu. destruct (setup_apic_bsp apic_base l0 h Hf Hx Hb Hh) as (h' & E & Hd & H1 & H2 & H3 & H4 & _).
  pose proof (firmware_drives apic_base h_ap Hf Hb Hap) as Hda. eexists _, h', _. do 6 (split; [eassumption|]).
  unfold setup_apic. rewrite (proj2 (Z.eqb_neq _ _) Hcpu). cbn [negb].
  rewrite software_enable_reg, Done_bind by done. split; [done|]. split; [exact Hda|].
  split; [apply software_enabled|]. intros o Ho. cbn. by rewrite decide_False.
Qed.

(** Outside xAPIC mode the software enable does not reach the device. *)
Lemma software_enable_elsewhere l h : 0 <= la_base l -> la_base l + 0x1000 <= 2 ^ 32 ->
  exists h', software_enable l h = Done h' /\ h_apic_base h' = h_apic_base h /\
    (xapic_mode h = false -> h_reg h' = h_reg h).
Proof.
  intros H0 H1.
  assert (Hw : wrap 32 (Z.land (la_base l) 0xffffffff) = la_base l).
  { change 0xffffffff with (Z.ones 32). unfold wrap. rewrite Z.land_ones, Zmod_mod by done. apply Z.mod_small. lia. }
  unfold software_enable, lapic_read, lapic_write. rewrite Hw, (checked_in 32 (la_base l + 0xf0)), Done_bind by lia.
  unfold read_volatile. destruct (xapic_mode h) eqn:Em.
  - destruct (mmio_reg h (la_base l + 0xf0)) as [o|] eqn:Eo.
    + destruct (read_register o h) as [v h1] eqn:Er.
      assert (h_apic_base h1 = h_apic_base h) as Hb.
      { unfold read_register in Er. destruct (o =? 0x300); [destruct (h_busy h)|destruct (o =? 0x20)]; by injection Er as _ <-. }
      rewrite !Done_bind. eexists. split; [done|]. split; [|done]. unfold write_volatile.
      destruct (mmio_reg h1 _); [|done]. unfold write_register. by repeat case_match.
    + rewrite !Done_bind. eexists. split; [done|]. split; [|done]. unfold write_volatile. rewrite Eo. done.
  - assert (En : mmio_reg h (la_base l + 0xf0) = None) by (unfold mmio_reg; by rewrite Em).
    rewrite En, !Done_bind. eexists. split; [done|]. unfold write_volatile. by rewrite En.
Qed.

(** On a processor with the x2APIC the set-up goes wrong either way: when
    the firmware left the controller in xAPIC mode it faults on the first
    model-specific register, and when the firmware enabled the x2APIC the
    software enable bit is written to memory instead of the device. *)
Theorem setup_apic_x2_capable apic_base l0 h :
  0 <= apic_base -> h_has_x2apic h = true -> Z.testbit (h_apic_base h) APIC_X2 = Z.testbit apic_base APIC_X2 ->
  Z.land apic_base 0xffff0000 + 0x1000 <= 2 ^ 32 ->
  if Z.testbit apic_base APIC_X2
  then exists l h', setup_apic apic_base 0 l0 h = Done (l, h') /\ h_reg h' 0xf0 = h_reg h 0xf0
  else setup_apic apic_base 0 l0 h = Panic.
Proof.
  intros H0 Hx Hm Hb. destruct (enabled_bits apic_base) as [E1 E2].
  assert (Hn : 0 <= Z.land apic_base 0xffff0000) by (apply Z.land_nonneg; by left).
  unfold setup_apic. cbn [Z.eqb negb]. unfold write_apic_base. rewrite E2, Hm, andb_negb_r, Done_bind.
  cbn [set_apic_base h_has_x2apic]. rewrite Hx. cbv zeta.
  set (h1 := outb _ _ _). edestruct (software_enable_elsewhere (mkLocalApic (Z.land apic_base 0xffff0000) true) h1)
    as (h2 & -> & Hb2 & Hr2); [done|done|]. rewrite Done_bind.
  unfold set_lvt_error, lapic_set. cbn [la_x2]. unfold wrmsr, x2apic_mode. rewrite Hb2.
  unfold h1. cbn [outb set_apic_base h_apic_base]. rewrite E1, E2. cbn [andb].
  destruct (Z.testbit apic_base APIC_X2) eqn:Eb; [|done].
  rewrite Done_bind. eexists _, _. split; [done|]. change (h_reg h2 0xf0 = h_reg h 0xf0). rewrite Hr2; [done|].
  unfold xapic_mode, h1. cbn [outb set_apic_base h_apic_base]. by rewrite E1, E2.
Qed.

(** In xAPIC mode the identification register holds the id in its upper
    byte, which the driver does not shift down: the low byte, which the kernel
    takes for the id of the boot processor, is 0 for every processor. *)
Theorem own_id_low_byte_zero l h :
  drives l h -> la_x2 l = false -> 0 <= h_id h < 256 ->
  exists v h', lapic_own_id l h = Done (v, h') /\ v = h_id h * 2 ^ 24 /\ wrap 8 v = 0.
Proof.
  intros Hd Hx Hid. unfold lapic_own_id, lapic_get. rewrite Hx, lapic_read_reg by done. unfold read_register. cbn [Z.eqb Pos.eqb].
  assert (x2apic_mode h = false) as ->.
  { unfold drives in Hd. rewrite Hx in Hd. destruct Hd as [Hm _]. unfold xapic_mode in Hm. unfold x2apic_mode.
    by destruct (Z.testbit (h_apic_base h) APIC_ENABLED), (Z.testbit (h_apic_base h) APIC_X2). }
  rewrite Z.mod_small by done. eexists _, _. split; [done|]. split; [done|].
  unfold wrap. replace (h_id h * 2 ^ 24) with (h_id h * 2 ^ 16 * 2 ^ 8) by lia. by apply Z.mod_mul.
Qed.

(** ** An instance *)

(** Two devices at the usual place, one in each mode. *)
Definition qemu_lapic (base : Z) (x2 : bool) (i : Z) : LapicHw :=
  mkLapicHw base x2 i (fun _ => 0) 3 2 0 [] 0 (fun _ => 0) (fun _ => 0).

Definition sample_commands : list command := [ToOne 3 Wakeup; ToMany Switch TargetOther; ToOneNmi 255].

Lemma modes_equivalent_witness :
  exists h1' h2', foldM (issue 5 (mkLocalApic 0xfee00000 false)) (qemu_lapic 0xfee00900 false 0) sample_commands = Done h1' /\
    foldM (issue 5 (mkLocalApic 0xfee00000 true)) (qemu_lapic 0xfee00d00 true 0) sample_commands = Done h2' /\
    h_sent h1' = h_sent h2'.
Proof.
  destruct (modes_equivalent 5 (mkLocalApic 0xfee00000 false) (qemu_lapic 0xfee00900 false 0)
    (mkLocalApic 0xfee00000 true) (qemu_lapic 0xfee00d00 true 0) sample_commands) as (h1' & h2' & E1 & E2 & S1 & S2).
  - split; [done|]. split; [done|]. by vm_compute.
  - done.
  - done.
  - done.
  - split; simpl; lia.
  - split; simpl; lia.
  - repeat constructor; lia.
  - exists h1', h2'. split; [exact E1|]. split; [exact E2|]. by rewrite S1, S2.
Defined.

Lemma setup_apic_enables_witness :
  exists l h' h_ap', setup_apic 0xfee00900 0 LOCAL_APIC (qemu_lapic 0xfee00900 false 0) = Done (l, h') /\
    setup_apic 0 1 l (qemu_lapic 0xfee00900 false 1) = Done (l, h_ap') /\ Z.testbit (h_reg h_ap' 0xf0) 8 = true.
Proof.
  destruct (setup_apic_enables 0xfee00900 LOCAL_APIC (qemu_lapic 0xfee00900 false 0) 1 (qemu_lapic 0xfee00900 false 1))
    as (l & h' & h_ap' & E & _ & _ & _ & _ & _ & E' & _ & Hb & _).
  - split; [by vm_compute|]. apply Z.leb_le. by vm_compute.
  - done.
  - by vm_compute.
  - by vm_compute.
  - by vm_compute.
  - done.
  - exists l, h', h_ap'. split; [exact E|]. split; [exact E'|exact Hb].
Defined.

Lemma setup_apic_x2_capable_witness :
  setup_apic 0xfee00900 0 LOCAL_APIC (qemu_lapic 0xfee00900 true 0) = Panic /\
  exists l h', setup_apic 0xfee00d00 0 LOCAL_APIC (qemu_lapic 0xfee00d00 true 0) = Done (l, h') /\ h_reg h' 0xf0 = 0.
Proof.
  split.
  - apply (setup_apic_x2_capable 0xfee00900 LOCAL_APIC (qemu_lapic 0xfee00900 true 0)); done.
  - apply (setup_apic_x2_capable 0xfee00d00 LOCAL_APIC (qemu_lapic 0xfee00d00 true 0)); done.
Defined.

Lemma own_id_low_byte_zero_witness :
  exists v h', lapic_own_id (mkLocalApic 0xfee00000 false) (qemu_lapic 0xfee00900 false 5) = Done (v, h') /\ wrap 8 v = 0.
Proof.
  destruct (own_id_low_byte_zero (mkLocalApic 0xfee00000 false) (qemu_lapic 0xfee00900 false 5))
    as (v & h' & E & _ & Hz); [|done|done|by exists v, h']. split; [done|]. split; [done|]. by vm_compute.
Defined.
