(* ===== verification/IoApic.v ===== *)
(** * The I/O interrupt controllers

    [kernel/src/acpi/io_apic.rs].  A device has two addresses, a register
    selector and a window onto the selected register; it is modelled as its
    data sheet describes it.  An access to an address where no device answers is
    [Panic]. *)

From S2P Require Import Prelude Shared LocalApic.

(** ** The devices *)

Record IoApicDev : Type := mkIoApicDev { d_sel : Z; d_reg : Z -> Z }.

(** The devices by their address. *)
Abbreviation devices := (gmap Z IoApicDev).

(** Bits 12 and 14 of a redirection entry (delivery status and remote IRR), the
    version and the arbitration id are read-only; the id has four bits. *)
Definition READ_ONLY_BITS : Z := 0x5000.

Definition dev_store (r v : Z) (d : IoApicDev) : IoApicDev :=
  let new :=
    if r =? 0 then Z.land v 0x0f000000
    else if (r =? 1) || (r =? 2) then d_reg d r
    else if (0x10 <=? r) && Z.even r then Z.lor (Z.ldiff v READ_ONLY_BITS) (Z.land (d_reg d r) READ_ONLY_BITS)
    else v in
  mkIoApicDev (d_sel d) (fun r' => if decide (r' = r) then new else d_reg d r').

Definition dev_select (v : Z) (d : IoApicDev) : IoApicDev := mkIoApicDev (v mod 2 ^ 8) (d_reg d).

Definition mmio_write (a v : Z) (ds : devices) : outcome devices :=
  match ds !! a, ds !! (a - 0x10) with
  | Some d, _ => Done (<[a := dev_select v d]> ds)
  | None, Some d => Done (<[a - 0x10 := dev_store (d_sel d) v d]> ds)
  | None, None => Panic
  end.

Definition mmio_read (a : Z) (ds : devices) : outcome Z :=
  match ds !! a, ds !! (a - 0x10) with
  | Some d, _ => Done (d_sel d)
  | None, Some d => Done (d_reg d (d_sel d))
  | None, None => Panic
  end.

(** ** [IoApicRegs], by its field [base] *)

Definition iowin (base : Z) : outcome Z := checked 32 (base + 0x10).

Definition write_ioregsel (base value : Z) (ds : devices) : outcome devices := mmio_write base value ds.

Definition read_iowin (base : Z) (ds : devices) : outcome Z := a ← iowin base; mmio_read a ds.

Definition write_iowin (base value : Z) (ds : devices) : outcome devices := a ← iowin base; mmio_write a value ds.

Definition read_reg (base reg : Z) (ds : devices) : outcome (Z * devices) :=
  ds ← write_ioregsel base reg ds;
  v ← read_iowin base ds;
  Done (v, ds).

Definition write_reg (base reg value : Z) (ds : devices) : outcome devices :=
  ds ← write_ioregsel base reg ds;
  write_iowin base value ds.

Definition read_ioapicid (base : Z) : devices -> outcome (Z * devices) := read_reg base 0x00.
Definition write_ioapicid (base value : Z) : devices -> outcome devices := write_reg base 0x00 value.
Definition read_ioapicver (base : Z) : devices -> outcome (Z * devices) := read_reg base 0x01.
Definition read_ioapicarb (base : Z) : devices -> outcome (Z * devices) := read_reg base 0x02.

(** The register numbers are computed in [u8]. *)
Definition redtbl_reg (idx : Z) : outcome Z := i ← checked 8 (idx * 2); checked 8 (0x10 + i).

Definition read_ioredtbl (base idx : Z) (ds : devices) : outcome (Z * devices) :=
  _ ← rassert (idx <? 24);
  r ← redtbl_reg idx;
  '(lo, ds) ← read_reg base r ds;
  r' ← checked 8 (r + 1);
  '(hi, ds) ← read_reg base r' ds;
  Done (Z.lor lo (Z.shiftl hi 32), ds).

Definition write_ioredtbl (base idx value : Z) (ds : devices) : outcome devices :=
  _ ← rassert (idx <? 24);
  let lo := wrap 32 value in
  let hi := wrap 32 (Z.shiftr value 32) in
  r ← redtbl_reg idx;
  ds ← write_reg base r lo ds;
  r' ← checked 8 (r + 1);
  write_reg base r' hi ds.

Definition max_redirection_table_entries (base : Z) (ds : devices) : outcome (Z * devices) :=
  '(ver, ds) ← read_ioapicver base ds;
  Done (wrap 8 (Z.shiftr (Z.land ver 0x00ff0000) 16), ds).

Definition ioapic_reg_id (base : Z) (ds : devices) : outcome (Z * devices) :=
  '(id_reg, ds) ← read_ioapicid base ds;
  Done (wrap 8 (Z.shiftr (Z.land id_reg 0x0f000000) 24), ds).

(** ** Redirection entries *)

Inductive ApicTriggerMode : Type := ApicEdge | ApicLevel.
Inductive ApicPolarity : Type := ApicActiveHigh | ApicActiveLow.
Inductive DestinationMode : Type := Physical | Logical.
Inductive DeliveryMode : Type := Fixed | LowestPriority | Smi | Nmi | Init | ExtInt.

Definition trigger_bits (t : ApicTriggerMode) : Z := match t with ApicEdge => 0 | ApicLevel => 1 end.
Definition polarity_bits (p : ApicPolarity) : Z := match p with ApicActiveHigh => 0 | ApicActiveLow => 1 end.
Definition dest_mode_bits (d : DestinationMode) : Z := match d with Physical => 0 | Logical => 1 end.
Definition delivery_bits (d : DeliveryMode) : Z :=
  match d with Fixed => 0 | LowestPriority => 1 | Smi => 2 | Nmi => 4 | Init => 5 | ExtInt => 7 end.

Record MapInfo : Type := mkMapInfo {
  mi_dest : Z;
  mi_mask : bool;
  mi_trigger_mode : ApicTriggerMode;
  mi_polarity : ApicPolarity;
  mi_dest_mode : DestinationMode;
  mi_delivery_mode : DeliveryMode;
  mi_vector : Z
}.

Definition as_raw (i : MapInfo) : outcome Z :=
  _ ← rassert (0x20 <=? mi_vector i);
  _ ← rassert (mi_vector i <=? 0xfe);
  Done (Z.lor (Z.lor (Z.lor (Z.lor (Z.lor (Z.lor
    (wrap 64 (Z.shiftl (mi_dest i) 56))
    (Z.shiftl (Z.b2z (mi_mask i)) 16))
    (Z.shiftl (trigger_bits (mi_trigger_mode i)) 15))
    (Z.shiftl (polarity_bits (mi_polarity i)) 13))
    (Z.shiftl (dest_mode_bits (mi_dest_mode i)) 11))
    (Z.shiftl (delivery_bits (mi_delivery_mode i)) 8))
    (mi_vector i)).

(** ** [IoApic] *)

Record IoApic : Type := mkIoApic { ia_base : Z; gsi_base : Z; ia_count : Z }.

Definition IoApic_new (regs_base gsi_start : Z) (ds : devices) : outcome (IoApic * devices) :=
  '(count, ds) ← max_redirection_table_entries regs_base ds;
  Done (mkIoApic regs_base gsi_start count, ds).

Definition ioapic_map (ia : IoApic) (idx : Z) (info : MapInfo) (ds : devices) : outcome devices :=
  raw ← as_raw info;
  write_ioredtbl (ia_base ia) idx raw ds.

Definition set_mask (ia : IoApic) (gsi : Z) (mask : bool) (ds : devices) : outcome devices :=
  d ← checked 32 (gsi - gsi_base ia);
  let idx := wrap 8 d in
  '(reg, ds) ← read_ioredtbl (ia_base ia) idx ds;
  let reg := Z.land reg (2 ^ 64 - 1 - Z.shiftl 1 16) in
  let reg := Z.lor reg (Z.shiftl (Z.b2z mask) 16) in
  write_ioredtbl (ia_base ia) idx reg ds.

(** ** Routing the legacy interrupts *)

Inductive TriggerMode : Type := TriggerConforms | Edge | Level.
Inductive Polarity : Type := PolarityConforms | ActiveHigh | ActiveLow.

Record Override : Type := mkOverride {
  ov_bus_irq : Z;
  ov_gsi : Z;
  ov_trigger_mode : TriggerMode;
  ov_polarity : Polarity
}.

(** [None] where the source continues with the next entry. *)
Definition polarity_of (flags : Z) : option Polarity :=
  match wrap 8 (Z.land flags 0x0003) with
  | 0 => Some PolarityConforms
  | 1 => Some ActiveHigh
  | 2 => None
  | _ => Some ActiveLow
  end.

Definition trigger_of (flags : Z) : option TriggerMode :=
  match wrap 8 (Z.shiftr (Z.land flags 0x000c) 2) with
  | 0 => Some TriggerConforms
  | 1 => Some Edge
  | 2 => None
  | _ => Some Level
  end.

Definition override_of (entry : MadtInterruptSrcOverride) : option Override :=
  p ← polarity_of (iso_flags entry);
  t ← trigger_of (iso_flags entry);
  Some (mkOverride (iso_irq_source entry) (iso_gsi entry) t p).

(** Where a legacy interrupt goes; [None] when another one was moved to its
    place. *)
Definition irq_source (overrides : list Override) (legacy_irq : Z) : option (Z * TriggerMode * Polarity) :=
  match List.find (fun over => ov_bus_irq over =? legacy_irq) overrides with
  | Some over => Some (ov_gsi over, ov_trigger_mode over, ov_polarity over)
  | None =>
      if existsb (fun over => (ov_gsi over =? legacy_irq) && negb (ov_bus_irq over =? legacy_irq)) overrides &&
         negb (existsb (fun over => ov_bus_irq over =? legacy_irq) overrides)
      then None
      else Some (legacy_irq, TriggerConforms, PolarityConforms)
  end.

(** [ioapics.iter().find(..)] *)
Fixpoint find_ioapic (ioapics : list IoApic) (gsi : Z) : outcome (option IoApic) :=
  match ioapics with
  | [] => Done None
  | ia :: rest =>
      if gsi_base ia <=? gsi then
        e ← checked 32 (gsi_base ia + ia_count ia);
        if gsi <? e then Done (Some ia) else find_ioapic rest gsi
      else find_ioapic rest gsi
  end.

Definition apic_polarity (p : Polarity) : ApicPolarity :=
  match p with ActiveLow => ApicActiveLow | ActiveHigh | PolarityConforms => ApicActiveHigh end.
Definition apic_trigger (t : TriggerMode) : ApicTriggerMode :=
  match t with Level => ApicLevel | Edge | TriggerConforms => ApicEdge end.

(** The entry of a legacy interrupt. *)
Definition map_info (bsp_lapic_id : Z) (legacy_irq : Z) (t : TriggerMode) (p : Polarity) : MapInfo :=
  mkMapInfo (wrap 8 bsp_lapic_id) false (apic_trigger t) (apic_polarity p) Physical Fixed (32 + legacy_irq).

Definition route_irq (ioapics : list IoApic) (overrides : list Override) (bsp_lapic_id : Z) (ds : devices) (legacy_irq : Z)
  : outcome devices :=
  match irq_source overrides legacy_irq with
  | None => Done ds
  | Some (gsi, trigger_mode, polarity) =>
      target ← find_ioapic ioapics gsi;
      match target with
      | None => Done ds
      | Some target_ioapic =>
          d ← checked 32 (gsi - gsi_base target_ioapic);
          ioapic_map target_ioapic (wrap 8 d) (map_info bsp_lapic_id legacy_irq trigger_mode polarity) ds
      end
  end.

Definition add_io_apic (st : list IoApic * devices) (entry : MadtIoApic) : outcome (list IoApic * devices) :=
  '(ioapic, ds) ← IoApic_new (ioapic_address entry) (ioapic_gsi_base entry) st.2;
  '(i, ds) ← ioapic_reg_id (ia_base ioapic) ds;
  _ ← rassert (i =? ioapic_id entry);
  Done (st.1 ++ [ioapic], ds).

(** The statics [IOAPICS] and [SRC_OVERRIDES], and the devices. *)
Record IoApicState : Type := mkIoApicState {
  IOAPICS : list IoApic;
  SRC_OVERRIDES : list Override;
  io_devices : devices
}.

Definition setup_io_apic (madt_io_apics : list MadtIoApic) (madt_src_overrides : list MadtInterruptSrcOverride)
    (l : LocalApic) (h : LapicHw) (st : IoApicState) : outcome (LapicHw * IoApicState) :=
  '(bsp_lapic_id, h) ← lapic_own_id l h;
  '(ioapics, ds) ← foldM add_io_apic (IOAPICS st, io_devices st) madt_io_apics;
  let overrides := SRC_OVERRIDES st ++ omap override_of madt_src_overrides in
  ds ← foldM (route_irq ioapics overrides bsp_lapic_id) ds (seqZ 0 16);
  Done (h, mkIoApicState ioapics overrides ds).

(** ** What an entry says *)

Definition delivery_of (v : Z) : option DeliveryMode :=
  match v with
  | 0 => Some Fixed | 1 => Some LowestPriority | 2 => Some Smi | 4 => Some Nmi | 5 => Some Init | 7 => Some ExtInt
  | _ => None
  end.

(** Reading a redirection entry, by the data sheet. *)
Definition decode (raw : Z) : option MapInfo :=
  m ← delivery_of ((raw / 2 ^ 8) mod 2 ^ 3);
  Some (mkMapInfo ((raw / 2 ^ 56) mod 2 ^ 8) (Z.testbit raw 16)
    (if Z.testbit raw 15 then ApicLevel else ApicEdge) (if Z.testbit raw 13 then ApicActiveLow else ApicActiveHigh)
    (if Z.testbit raw 11 then Logical else Physical) m (raw mod 2 ^ 8)).

Lemma field_ext a b n w : 0 <= n -> 0 <= w -> (forall i, n <= i < n + w -> Z.testbit a i = Z.testbit b i) ->
  (a / 2 ^ n) mod 2 ^ w = (b / 2 ^ n) mod 2 ^ w.
Proof.
  intros Hn Hw H. apply Z.bits_inj'. intros i Hi. destruct (Z.lt_ge_cases i w).
  - rewrite !Z.mod_pow2_bits_low, !Z.div_pow2_bits by lia. apply H. lia.
  - by rewrite !Z.mod_pow2_bits_high by lia.
Qed.

(** The read-only bits do not matter. *)
Lemma decode_ext a b : (forall i, 0 <= i < 64 -> i <> 12 -> i <> 14 -> Z.testbit a i = Z.testbit b i) -> decode a = decode b.
Proof.
  intros H. unfold decode. pose proof (field_ext a b 0 8 ltac:(lia) ltac:(lia)) as E0. rewrite !Z.div_1_r in E0.
  rewrite (field_ext a b 8 3), (field_ext a b 56 8), E0, !H by (lia || (intros; apply H; lia)). done.
Qed.

(** The raw value, as a number. *)
Definition raw_sum (i : MapInfo) : Z :=
  mi_dest i * 2 ^ 56 + Z.b2z (mi_mask i) * 2 ^ 16 + trigger_bits (mi_trigger_mode i) * 2 ^ 15 +
  polarity_bits (mi_polarity i) * 2 ^ 13 + dest_mode_bits (mi_dest_mode i) * 2 ^ 11 +
  delivery_bits (mi_delivery_mode i) * 2 ^ 8 + mi_vector i.

Lemma lor_low a n b : 0 <= n -> (2 ^ n | a) -> 0 <= b < 2 ^ n -> Z.lor a b = a + b.
Proof. intros Hn [k ->] Hb. by apply lor_field. Qed.

Lemma as_raw_sum i : 0 <= mi_dest i < 256 -> 0x20 <= mi_vector i <= 0xfe -> as_raw i = Done (raw_sum i).
Proof.
  intros Hd Hv. unfold as_raw. rewrite !(proj2 (Z.leb_le _ _)) by lia. cbn [rassert]. rewrite !Done_bind. f_equal.
  destruct i as [d m t p dm del v]. cbn [mi_dest mi_vector mi_mask mi_trigger_mode mi_polarity mi_dest_mode mi_delivery_mode] in *.
  unfold raw_sum, wrap. cbn [mi_dest mi_vector mi_mask mi_trigger_mode mi_polarity mi_dest_mode mi_delivery_mode].
  rewrite !Z.shiftl_mul_pow2, Z.mod_small by lia.
  set (mb := Z.b2z m). set (tb := trigger_bits t). set (pb := polarity_bits p). set (db := dest_mode_bits dm). set (vb := delivery_bits del).
  assert (0 <= mb <= 1) by (by destruct m). assert (0 <= tb <= 1) by (by destruct t).
  assert (0 <= pb <= 1) by (by destruct p). assert (0 <= db <= 1) by (by destruct dm). assert (0 <= vb <= 7) by (by destruct del).
  rewrite (lor_low _ 56 (mb * 2 ^ 16)) by (apply Z.divide_factor_r || lia).
  rewrite (lor_low _ 16 (tb * 2 ^ 15)) by ((exists (d * 2 ^ 40 + mb); lia) || lia).
  rewrite (lor_low _ 15 (pb * 2 ^ 13)) by ((exists (d * 2 ^ 41 + mb * 2 + tb); lia) || lia).
  rewrite (lor_low _ 13 (db * 2 ^ 11)) by ((exists (d * 2 ^ 43 + mb * 8 + tb * 4 + pb); lia) || lia).
  rewrite (lor_low _ 11 (vb * 2 ^ 8)) by ((exists (d * 2 ^ 45 + mb * 32 + tb * 16 + pb * 4 + db); lia) || lia).
  rewrite (lor_low _ 8 v) by ((exists (d * 2 ^ 48 + mb * 256 + tb * 128 + pb * 32 + db * 8 + vb); lia) || lia). done.
Qed.

Lemma raw_sum_decode i : 0 <= mi_dest i < 256 -> 0 <= mi_vector i < 256 ->
  0 <= raw_sum i < 2 ^ 64 /\ decode (raw_sum i) = Some i.
Proof.
  intros Hd Hv. destruct i as [d m t p dm del v]. unfold raw_sum.
  cbn [mi_dest mi_vector mi_mask mi_trigger_mode mi_polarity mi_dest_mode mi_delivery_mode] in *.
  set (mb := Z.b2z m). set (tb := trigger_bits t). set (pb := polarity_bits p). set (db := dest_mode_bits dm). set (vb := delivery_bits del).
  assert (0 <= mb <= 1) by (by destruct m). assert (0 <= tb <= 1) by (by destruct t).
  assert (0 <= pb <= 1) by (by destruct p). assert (0 <= db <= 1) by (by destruct dm). assert (0 <= vb <= 7) by (by destruct del).
  set (x := _ + v). split; [unfold x; lia|].
  assert (T : forall n, 0 <= n -> Z.testbit x n = ((x / 2 ^ n) mod 2 =? 1)).
  { intros n Hn. rewrite Z.testbit_odd, Z.shiftr_div_pow2, Zmod_odd by done. by destruct (Z.odd (x / 2 ^ n)). }
  assert (E1 : (x / 2 ^ 8) mod 2 ^ 3 = vb) by (unfold x; Z.to_euclidean_division_equations; lia).
  assert (E2 : (x / 2 ^ 56) mod 2 ^ 8 = d) by (unfold x; Z.to_euclidean_division_equations; lia).
  assert (E3 : x mod 2 ^ 8 = v) by (unfold x; Z.to_euclidean_division_equations; lia).
  assert (E4 : (x / 2 ^ 16) mod 2 = mb) by (unfold x; Z.to_euclidean_division_equations; lia).
  assert (E5 : (x / 2 ^ 15) mod 2 = tb) by (unfold x; Z.to_euclidean_division_equations; lia).
  assert (E6 : (x / 2 ^ 13) mod 2 = pb) by (unfold x; Z.to_euclidean_division_equations; lia).
  assert (E7 : (x / 2 ^ 11) mod 2 = db) by (unfold x; Z.to_euclidean_division_equations; lia).
  unfold decode. rewrite !T, E1, E2, E3, E4, E5, E6, E7 by done. unfold mb, tb, pb, db, vb.
  by destruct m, t, p, dm, del.
Qed.

(** A redirection entry round-trips: reading the raw value of an entry
    gives its fields back, for every vector but the reserved ones, which are
    refused. *)
Theorem as_raw_roundtrip i :
  0 <= mi_dest i < 256 -> 0 <= mi_vector i < 256 ->
  match as_raw i with
  | Done raw => 0x20 <= mi_vector i <= 0xfe /\ 0 <= raw < 2 ^ 64 /\ decode raw = Some i
  | _ => mi_vector i < 0x20 \/ 0xfe < mi_vector i
  end.
Proof.
  intros Hd Hv. destruct (Z.le_gt_cases 0x20 (mi_vector i)) as [H1|H1]; [destruct (Z.le_gt_cases (mi_vector i) 0xfe) as [H2|H2]|].
  - rewrite as_raw_sum by lia. split; [lia|]. by apply raw_sum_decode.
  - unfold as_raw. rewrite (proj2 (Z.leb_le 0x20 _)), (proj2 (Z.leb_gt _ 0xfe)) by lia. cbn. by right.
  - unfold as_raw. rewrite (proj2 (Z.leb_gt 0x20 _)) by lia. cbn. by left.
Qed.

(** ** Registers *)

(** No device lies in another one's window. *)
Definition apart (ds : devices) : Prop := forall b, is_Some (ds !! b) -> ds !! (b + 0x10) = None.

Definition usable_base (base : Z) : Prop := 0 <= base /\ base + 0x10 < 2 ^ 32.

Lemma apart_insert ds b d : apart ds -> is_Some (ds !! b) -> apart (<[b := d]> ds).
Proof.
  intros Ha Hb x Hx. assert (Hs : is_Some (ds !! x)).
  { destruct (decide (x = b)) as [->|]; [done|]. by rewrite lookup_insert_ne in Hx. }
  rewrite lookup_insert_ne; [by apply Ha|]. intros ->. specialize (Ha x Hs). rewrite Ha in Hb. by destruct Hb.
Qed.

Lemma window_of base d ds : usable_base base -> apart ds -> ds !! base = Some d ->
  iowin base = Done (base + 0x10) /\ ds !! (base + 0x10) = None /\ base + 0x10 - 0x10 = base.
Proof.
  intros [H1 H2] Ha Hd. split; [unfold iowin; apply checked_in; lia|]. split; [apply Ha; by eexists|lia].
Qed.

Lemma write_reg_ok base r v d ds : usable_base base -> apart ds -> ds !! base = Some d -> 0 <= r < 256 ->
  write_reg base r v ds = Done (<[base := dev_store r v (dev_select r d)]> ds).
Proof.
  intros Hu Ha Hd Hr. destruct (window_of base d ds Hu Ha Hd) as (E1 & E2 & E3).
  unfold write_reg, write_ioregsel, write_iowin, mmio_write. rewrite Hd, Done_bind, E1, Done_bind, E3.
  rewrite lookup_insert_ne, E2, lookup_insert_eq by lia. rewrite insert_insert_eq. change (d_sel (dev_select r d)) with (r mod 2 ^ 8).
  by rewrite Z.mod_small.
Qed.

Lemma read_reg_ok base r d ds : usable_base base -> apart ds -> ds !! base = Some d -> 0 <= r < 256 ->
  read_reg base r ds = Done (d_reg d r, <[base := dev_select r d]> ds).
Proof.
  intros Hu Ha Hd Hr. destruct (window_of base d ds Hu Ha Hd) as (E1 & E2 & E3).
  unfold read_reg, write_ioregsel, read_iowin, mmio_write, mmio_read. rewrite Hd, Done_bind, E1, Done_bind, E3.
  rewrite lookup_insert_ne, E2, lookup_insert_eq, Done_bind by lia. change (d_sel (dev_select r d)) with (r mod 2 ^ 8).
  by rewrite Z.mod_small.
Qed.

(** The entry of a pin. *)
Definition dev_entry (d : IoApicDev) (idx : Z) : Z :=
  Z.lor (d_reg d (0x10 + idx * 2)) (Z.shiftl (d_reg d (0x10 + idx * 2 + 1)) 32).

Definition dev_set_entry (idx value : Z) (d : IoApicDev) : IoApicDev :=
  let r := 0x10 + idx * 2 in
  dev_store (r + 1) (wrap 32 (Z.shiftr value 32)) (dev_select (r + 1) (dev_store r (wrap 32 value) (dev_select r d))).

Lemma write_ioredtbl_ok base idx v d ds : usable_base base -> apart ds -> ds !! base = Some d -> 0 <= idx < 24 ->
  write_ioredtbl base idx v ds = Done (<[base := dev_set_entry idx v d]> ds).
Proof.
  intros Hu Ha Hd Hi. unfold write_ioredtbl, redtbl_reg. rewrite (proj2 (Z.ltb_lt _ _)) by lia. cbn [rassert]. rewrite Done_bind.
  rewrite (checked_in 8 (idx * 2)), Done_bind, (checked_in 8 (0x10 + idx * 2)), Done_bind by lia.
  rewrite (write_reg_ok base _ _ d), Done_bind by (done || lia). rewrite (checked_in 8 (0x10 + idx * 2 + 1)), Done_bind by lia.
  erewrite write_reg_ok; [|done|apply apart_insert; [done|by eexists]|apply lookup_insert_eq|lia].
  by rewrite insert_insert_eq.
Qed.

Lemma read_ioredtbl_ok base idx d ds : usable_base base -> apart ds -> ds !! base = Some d -> 0 <= idx < 24 ->
  exists d', read_ioredtbl base idx ds = Done (dev_entry d idx, <[base := d']> ds) /\ d_reg d' = d_reg d.
Proof.
  intros Hu Ha Hd Hi. unfold read_ioredtbl, redtbl_reg. rewrite (proj2 (Z.ltb_lt _ _)) by lia. cbn [rassert]. rewrite Done_bind.
  rewrite (checked_in 8 (idx * 2)), Done_bind, (checked_in 8 (0x10 + idx * 2)), Done_bind by lia.
  rewrite (read_reg_ok base _ d), Done_bind by (done || lia). rewrite (checked_in 8 (0x10 + idx * 2 + 1)), Done_bind by lia.
  erewrite read_reg_ok; [|done|apply apart_insert; [done|by eexists]|apply lookup_insert_eq|lia].
  rewrite Done_bind, insert_insert_eq. by eexists.
Qed.

(** Other registers keep their values. *)
Lemma dev_set_entry_other idx v d r : r <> 0x10 + idx * 2 -> r <> 0x10 + idx * 2 + 1 ->
  d_reg (dev_set_entry idx v d) r = d_reg d r.
Proof. intros H1 H2. unfold dev_set_entry, dev_store. cbn. by rewrite !decide_False. Qed.

Lemma even_entry idx : Z.even (0x10 + idx * 2) = true /\ Z.even (0x10 + idx * 2 + 1) = false.
Proof. rewrite !Z.even_add, Z.even_mul. simpl. by destruct (Z.even idx). Qed.

(** Only the read-only bits of the stored entry differ from the value. *)
Lemma dev_set_entry_bits idx v d i : 0 <= idx -> 0 <= i < 64 -> i <> 12 -> i <> 14 ->
  Z.testbit (dev_entry (dev_set_entry idx v d) idx) i = Z.testbit v i.
Proof.
  intros Hx Hi H12 H14. unfold dev_entry. destruct (even_entry idx) as [Ev Eo].
  assert (Hro : Z.testbit READ_ONLY_BITS i = false).
  { unfold READ_ONLY_BITS. change 0x5000 with (Z.lor (2 ^ 12) (2 ^ 14)). rewrite Z.lor_spec, !Z.pow2_bits_false by lia. done. }
  assert (Elo : d_reg (dev_set_entry idx v d) (0x10 + idx * 2) =
    Z.lor (Z.ldiff (wrap 32 v) READ_ONLY_BITS) (Z.land (d_reg d (0x10 + idx * 2)) READ_ONLY_BITS)).
  { unfold dev_set_entry, dev_store. cbn [d_reg dev_select]. rewrite decide_False, decide_True by lia.
    rewrite (proj2 (Z.eqb_neq _ 0)), (proj2 (Z.eqb_neq _ 1)), (proj2 (Z.eqb_neq _ 2)), (proj2 (Z.leb_le _ _)), Ev by lia. done. }
  assert (Ehi : d_reg (dev_set_entry idx v d) (0x10 + idx * 2 + 1) = wrap 32 (Z.shiftr v 32)).
  { unfold dev_set_entry, dev_store at 1. cbn [d_reg dev_select]. rewrite decide_True by lia.
    rewrite (proj2 (Z.eqb_neq _ 0)), (proj2 (Z.eqb_neq _ 1)), (proj2 (Z.eqb_neq _ 2)), Eo, andb_false_r by lia. done. }
  rewrite Elo, Ehi, !Z.lor_spec, Z.ldiff_spec, Z.land_spec, Hro, andb_false_r, andb_true_r, orb_false_r, Z.shiftl_spec by lia.
  unfold wrap. destruct (Z.lt_ge_cases i 32).
  - rewrite Z.mod_pow2_bits_low, (Z.testbit_neg_r _ (i - 32)), orb_false_r by lia. done.
  - rewrite Z.mod_pow2_bits_high, Z.mod_pow2_bits_low, Z.shiftr_spec by lia. cbn [orb]. f_equal. lia.
Qed.

Lemma dev_set_entry_decode idx i d : 0 <= idx -> 0 <= mi_dest i < 256 -> 0 <= mi_vector i < 256 ->
  decode (dev_entry (dev_set_entry idx (raw_sum i) d) idx) = Some i.
Proof.
  intros Hx Hd Hv. destruct (raw_sum_decode i Hd Hv) as [Hr <-]. apply decode_ext. intros j Hj. by apply dev_set_entry_bits.
Qed.

Lemma dev_set_entry_ne idx idx' v d : idx' <> idx -> dev_entry (dev_set_entry idx v d) idx' = dev_entry d idx'.
Proof. intros H. unfold dev_entry. by rewrite !dev_set_entry_other by lia. Qed.

(** ** Where the interrupts go *)

(** The number a device reports in its version register: its last pin. *)
Definition last_pin (d : IoApicDev) : Z := (d_reg d 1 / 2 ^ 16) mod 2 ^ 8.

Definition ioapic_of (ds : devices) (e : MadtIoApic) : IoApic :=
  mkIoApic (ioapic_address e) (ioapic_gsi_base e) (default 0 (last_pin <$> ds !! ioapic_address e)).

(** The pin of a legacy interrupt and its entry, from the tables. *)
Definition irq_pin (ds : devices) (es : list MadtIoApic) (os : list MadtInterruptSrcOverride) (bsp irq : Z)
  : option (Z * Z * MapInfo) :=
  '(gsi, t, p) ← irq_source (omap override_of os) irq;
  ia ← List.find (fun ia => (gsi_base ia <=? gsi) && (gsi <? gsi_base ia + ia_count ia)) (map (ioapic_of ds) es);
  Some (ia_base ia, gsi - gsi_base ia, map_info bsp irq t p).

(** The last of some interrupts that goes to a pin. *)
Definition pin_entry (ds : devices) (es : list MadtIoApic) (os : list MadtInterruptSrcOverride) (bsp : Z) (irqs : list Z)
    (base idx : Z) : option MapInfo :=
  fold_left (fun acc irq =>
    match irq_pin ds es os bsp irq with
    | Some (b, i, info) => if decide (b = base /\ i = idx) then Some info else acc
    | None => acc
    end) irqs None.

(** What the tables of the firmware promise about a device. *)
Record described (ds : devices) (e : MadtIoApic) : Prop := {
  de_dev : exists d, ds !! ioapic_address e = Some d /\ (d_reg d 0 / 2 ^ 24) mod 2 ^ 4 = ioapic_id e /\ last_pin d <= 24;
  de_base : usable_base (ioapic_address e);
  de_gsi : 0 <= ioapic_gsi_base e /\ ioapic_gsi_base e + 2 ^ 8 <= 2 ^ 32
}.

(** The same devices with the same registers, but for the selectors. *)
Definition same_regs (ds ds' : devices) : Prop := forall b, d_reg <$> ds !! b = d_reg <$> ds' !! b.

Lemma same_regs_select ds b d r : ds !! b = Some d -> same_regs ds (<[b := dev_select r d]> ds).
Proof.
  intros Hd x. destruct (decide (x = b)) as [->|]; [by rewrite lookup_insert_eq, Hd|by rewrite lookup_insert_ne].
Qed.

Lemma same_regs_trans a b c : same_regs a b -> same_regs b c -> same_regs a c.
Proof. intros H1 H2 x. by rewrite H1. Qed.

Lemma same_regs_lookup ds ds' b d : same_regs ds ds' -> ds !! b = Some d -> exists d', ds' !! b = Some d' /\ d_reg d' = d_reg d.
Proof.
  intros H Hd. specialize (H b). rewrite Hd in H. destruct (ds' !! b) as [d'|]; [|done].
  exists d'. split; [done|]. by injection H.
Qed.

Lemma apart_same ds ds' : same_regs ds ds' -> apart ds -> apart ds'.
Proof.
  intros H Ha b [d' Hd']. assert (H' : same_regs ds' ds) by (intros x; by rewrite H).
  destruct (same_regs_lookup ds' ds b d' H' Hd') as (d & Hd & _).
  specialize (Ha b ltac:(by eexists)). specialize (H (b + 0x10)). rewrite Ha in H. by destruct (ds' !! (b + 0x10)).
Qed.

Lemma land_field v n w : 0 <= n -> 0 <= w -> Z.shiftr (Z.land v (Z.ones w * 2 ^ n)) n = (v / 2 ^ n) mod 2 ^ w.
Proof.
  intros Hn Hw. rewrite Z.shiftr_land, !Z.shiftr_div_pow2, Z.div_mul, Z.land_ones by lia. done.
Qed.

Lemma ioapic_of_same ds ds' e : same_regs ds ds' -> ioapic_of ds' e = ioapic_of ds e.
Proof.
  intros H. unfold ioapic_of. f_equal. specialize (H (ioapic_address e)).
  destruct (ds !! ioapic_address e) as [d|], (ds' !! ioapic_address e) as [d'|]; simpl in *; try done.
  injection H as H. unfold last_pin. by rewrite H.
Qed.

Lemma described_same ds ds' e : same_regs ds ds' -> described ds e -> described ds' e.
Proof.
  intros H [(d & Hd & Hid & Hp) Hb Hg]. split; [|done|done].
  destruct (same_regs_lookup ds ds' _ d H Hd) as (d' & Hd' & Hr). exists d'. unfold last_pin in *. by rewrite Hr.
Qed.

(** Registering a device. *)
Lemma add_io_apic_ok ds e l : apart ds -> described ds e ->
  exists ds', add_io_apic (l, ds) e = Done (l ++ [ioapic_of ds e], ds') /\ same_regs ds ds'.
Proof.
  intros Ha [(d & Hd & Hid & Hp) Hb Hg]. unfold add_io_apic, IoApic_new, max_redirection_table_entries, read_ioapicver. cbn [fst snd].
  rewrite (read_reg_ok _ _ d), !Done_bind by done. cbn [fst snd ia_base].
  set (ds1 := <[_ := dev_select 1 d]> ds). assert (Hs1 : same_regs ds ds1) by (by apply same_regs_select).
  assert (Hd1 : ds1 !! ioapic_address e = Some (dev_select 1 d)) by apply lookup_insert_eq.
  unfold ioapic_reg_id, read_ioapicid. rewrite (read_reg_ok _ _ (dev_select 1 d)), !Done_bind by (done || by eapply apart_same).
  cbn [fst snd dev_select d_reg].
  change 0x0f000000 with (Z.ones 4 * 2 ^ 24). change 0x00ff0000 with (Z.ones 8 * 2 ^ 16). rewrite !land_field by done.
  assert (Hw : forall x w, 0 <= w <= 8 -> wrap 8 (x mod 2 ^ w) = x mod 2 ^ w).
  { intros x w Hw. unfold wrap. apply Z.mod_small. pose proof (Z.mod_pos_bound x (2 ^ w) ltac:(lia)).
    pose proof (Z.pow_le_mono_r 2 w 8 ltac:(lia) ltac:(lia)). lia. }
  rewrite !Hw by done. rewrite Hid, Z.eqb_refl. cbn [rassert]. rewrite Done_bind. eexists. split.
  - do 3 f_equal. unfold ioapic_of. by rewrite Hd.
  - eapply same_regs_trans; [exact Hs1|]. by apply same_regs_select.
Qed.

Lemma add_io_apics_ok es : forall ds l, apart ds -> Forall (described ds) es ->
  exists ds', foldM add_io_apic (l, ds) es = Done (l ++ map (ioapic_of ds) es, ds') /\ same_regs ds ds'.
Proof.
  induction es as [|e es IH]; intros ds l Ha Hes.
  { exists ds. rewrite app_nil_r. by split. }
  apply Forall_cons in Hes as [He Hes]. destruct (add_io_apic_ok ds e l Ha He) as (ds1 & E1 & S1).
  cbn [foldM]. rewrite E1, Done_bind.
  destruct (IH ds1 (l ++ [ioapic_of ds e])) as (ds2 & E2 & S2).
  { by eapply apart_same. } { eapply Forall_impl; [exact Hes|]. intros e'. by apply described_same. }
  exists ds2. split; [|by eapply same_regs_trans]. rewrite E2. cbn [map]. rewrite <- app_assoc. do 4 f_equal.
  apply map_ext. intros e'. by apply ioapic_of_same.
Qed.

Lemma find_ioapic_ok ias gsi : Forall (fun ia => 0 <= gsi_base ia + ia_count ia < 2 ^ 32) ias ->
  find_ioapic ias gsi = Done (List.find (fun ia => (gsi_base ia <=? gsi) && (gsi <? gsi_base ia + ia_count ia)) ias).
Proof.
  induction 1 as [|ia ias Hia _ IH]; [done|]. cbn [find_ioapic List.find]. destruct (gsi_base ia <=? gsi); [|done].
  rewrite checked_in, Done_bind by done. cbn [andb]. by destruct (gsi <? gsi_base ia + ia_count ia).
Qed.

(** ** What the tables say, by the ACPI specification

    Bits 0 and 1 of the flags of a source override are the polarity, bits 2 and 3
    the trigger mode: 0 as the bus has it, which for the legacy interrupts is
    edge and active high, 1 for edge and active high, 3 for level and active low.
    An override with the reserved value 2 does not count. *)
Definition iso_polarity (e : MadtInterruptSrcOverride) : Z := iso_flags e mod 4.
Definition iso_trigger (e : MadtInterruptSrcOverride) : Z := (iso_flags e / 4) mod 4.
Definition iso_valid (e : MadtInterruptSrcOverride) : Prop := iso_polarity e <> 2 /\ iso_trigger e <> 2.

(** The global interrupt a legacy interrupt arrives at, whether it is level
    triggered, and whether it is active low: what its first override says, or its
    own number if that was not given to another one. *)
Inductive irq_line (os : list MadtInterruptSrcOverride) (irq : Z) : Z -> bool -> bool -> Prop :=
  | line_moved e : first_with (fun e => iso_valid e /\ iso_irq_source e = irq) os e ->
      irq_line os irq (iso_gsi e) (iso_trigger e =? 3) (iso_polarity e =? 3)
  | line_own : Forall (fun e => ~ (iso_valid e /\ iso_irq_source e = irq)) os ->
      Forall (fun e => ~ (iso_valid e /\ iso_gsi e = irq)) os -> irq_line os irq irq false false.

(** The global interrupts of a controller: one for each pin below the number its
    version register holds. *)
Definition serves (ds : devices) (gsi : Z) (e : MadtIoApic) : Prop :=
  exists d, ds !! ioapic_address e = Some d /\ ioapic_gsi_base e <= gsi < ioapic_gsi_base e + last_pin d.

(** The pin [idx] of the controller at [b] is where a legacy interrupt arrives. *)
Inductive goes_to (ds : devices) (es : list MadtIoApic) (os : list MadtInterruptSrcOverride) (irq b idx : Z) (level low : bool) : Prop :=
  | goes_to_pin gsi e : irq_line os irq gsi level low -> first_with (serves ds gsi) es e ->
      b = ioapic_address e -> idx = gsi - ioapic_gsi_base e -> goes_to ds es os irq b idx level low.

(** A redirection entry, field by field as the data sheet has them: the vector is
    32 plus the number of the interrupt, the delivery is fixed to one physical
    processor, and the interrupt is not masked. *)
Record entry_routes (bsp irq : Z) (level low : bool) (raw : Z) : Prop := {
  er_vector : raw mod 2 ^ 8 = 32 + irq;
  er_fixed : (raw / 2 ^ 8) mod 2 ^ 3 = 0;
  er_physical : Z.testbit raw 11 = false;
  er_polarity : Z.testbit raw 13 = low;
  er_trigger : Z.testbit raw 15 = level;
  er_unmasked : Z.testbit raw 16 = false;
  er_dest : (raw / 2 ^ 56) mod 2 ^ 8 = bsp mod 2 ^ 8
}.

(** ** The driver follows the tables *)

Lemma flags_fields flags : wrap 8 (Z.land flags 0x0003) = flags mod 4 /\ wrap 8 (Z.shiftr (Z.land flags 0x000c) 2) = (flags / 4) mod 4.
Proof.
  change 0x000c with (Z.ones 2 * 2 ^ 2). change 0x0003 with (Z.ones 2). rewrite land_field, Z.land_ones by done. unfold wrap.
  pose proof (Z.mod_pos_bound flags 4 eq_refl). pose proof (Z.mod_pos_bound (flags / 4) 4 eq_refl).
  change (2 ^ 2) with 4. change (2 ^ 8) with 256. split; apply Z.mod_small; lia.
Qed.

(** What becomes of an override: the reserved ones are left out, and level and
    low are what the entry will say. *)
Lemma override_of_valid e ov : override_of e = Some ov <->
  iso_valid e /\ exists t p, ov = mkOverride (iso_irq_source e) (iso_gsi e) t p /\
    t = match iso_trigger e with 0 => TriggerConforms | 1 => Edge | _ => Level end /\
    p = match iso_polarity e with 0 => PolarityConforms | 1 => ActiveHigh | _ => ActiveLow end.
Proof.
  unfold override_of, polarity_of, trigger_of, iso_valid, iso_polarity, iso_trigger. destruct (flags_fields (iso_flags e)) as [-> ->].
  pose proof (Z.mod_pos_bound (iso_flags e) 4 eq_refl). pose proof (Z.mod_pos_bound (iso_flags e / 4) 4 eq_refl).
  set (p := iso_flags e mod 4) in *. set (t := (iso_flags e / 4) mod 4) in *.
  assert (p = 0 \/ p = 1 \/ p = 2 \/ p = 3) as [->|[->|[->| ->]]] by lia;
  assert (t = 0 \/ t = 1 \/ t = 2 \/ t = 3) as [->|[->|[->| ->]]] by lia; cbn;
  first [split; [intros [= <-]; split; [done|by eexists _, _]|by intros (_ & ? & ? & -> & -> & ->)] | split; [done|by intros [[] _]]].
Qed.

Lemma apic_level e ov : override_of e = Some ov -> apic_trigger (ov_trigger_mode ov) = (if iso_trigger e =? 3 then ApicLevel else ApicEdge) /\
  apic_polarity (ov_polarity ov) = (if iso_polarity e =? 3 then ApicActiveLow else ApicActiveHigh).
Proof.
  intros ([Hp Ht] & t & p & -> & -> & ->)%override_of_valid. cbn [ov_trigger_mode ov_polarity].
  pose proof (Z.mod_pos_bound (iso_flags e) 4 eq_refl). pose proof (Z.mod_pos_bound (iso_flags e / 4) 4 eq_refl).
  unfold iso_polarity, iso_trigger in *. set (p := iso_flags e mod 4) in *. set (t := (iso_flags e / 4) mod 4) in *.
  split; [assert (t = 0 \/ t = 1 \/ t = 3) as [->|[->| ->]] by lia; done|assert (p = 0 \/ p = 1 \/ p = 3) as [->|[->| ->]] by lia; done].
Qed.

Lemma override_irq irq (f : Override -> Z) (g : MadtInterruptSrcOverride -> Z) e :
  (forall e ov, override_of e = Some ov -> f ov = g e) ->
  (exists ov, override_of e = Some ov /\ (f ov =? irq) = true) <-> iso_valid e /\ g e = irq.
Proof.
  intros Hfg. split.
  - intros (ov & Ho & Hf%Z.eqb_eq). rewrite (Hfg _ _ Ho) in Hf. apply override_of_valid in Ho as [? _]. done.
  - intros [Hv <-]. eexists. split; [apply override_of_valid; split; [done|by eexists _, _]|].
    apply Z.eqb_eq, Hfg, override_of_valid. split; [done|]. by eexists _, _.
Qed.

Lemma override_fields e ov : override_of e = Some ov -> ov_bus_irq ov = iso_irq_source e /\ ov_gsi ov = iso_gsi e.
Proof. by intros (_ & t & p & -> & _)%override_of_valid. Qed.

Lemma irq_line_fun os irq gsi level low gsi' level' low' :
  irq_line os irq gsi level low -> irq_line os irq gsi' level' low' -> gsi' = gsi /\ level' = level /\ low' = low.
Proof.
  assert (Hno : forall e, first_with (fun e => iso_valid e /\ iso_irq_source e = irq) os e ->
    ~ Forall (fun e => ~ (iso_valid e /\ iso_irq_source e = irq)) os).
  { intros e [Hin He]%first_with_elem Hf. rewrite Forall_forall in Hf. by apply (Hf e). }
  intros H1 H2. destruct H1 as [e He|H H'], H2 as [e' He'|G G'].
  - by rewrite (first_with_fun _ _ _ _ He He').
  - by destruct (Hno e He).
  - by destruct (Hno e' He').
  - done.
Qed.

(** The driver's answer for an interrupt is the line of the tables. *)
Lemma irq_source_line os irq :
  match irq_source (omap override_of os) irq with
  | Some (gsi, t, p) => exists level low, irq_line os irq gsi level low /\
      apic_trigger t = (if level : bool then ApicLevel else ApicEdge) /\ apic_polarity p = (if low : bool then ApicActiveLow else ApicActiveHigh)
  | None => forall gsi level low, ~ irq_line os irq gsi level low
  end.
Proof.
  unfold irq_source. destruct (List.find _ (omap override_of os)) as [ov|] eqn:Ef.
  - apply find_omap in Ef as (e & He & Ho). destruct (override_fields _ _ Ho) as [_ ->]. destruct (apic_level _ _ Ho) as [-> ->].
    eexists _, _. split; [apply line_moved|by split]. eapply first_with_iff; [|exact He]. intros y _.
    symmetry. apply (override_irq irq ov_bus_irq iso_irq_source). intros ? ? H. apply (override_fields _ _ H).
  - pose proof Ef as Hnone. apply find_omap_none in Hnone.
    assert (Hown : Forall (fun e => ~ (iso_valid e /\ iso_irq_source e = irq)) os).
    { eapply Forall_impl; [exact Hnone|]. intros e He Hv. apply He. apply (override_irq irq ov_bus_irq iso_irq_source); [|done].
      intros ? ? H. apply (override_fields _ _ H). }
    assert (Hany : existsb (fun over => ov_bus_irq over =? irq) (omap override_of os) = false).
    { apply not_true_is_false. intros (ov & Hin & Hb)%existsb_exists. by rewrite (List.find_none _ _ Ef _ Hin) in Hb. }
    rewrite Hany. cbn [negb]. rewrite andb_true_r. clear Hany.
    destruct (existsb (fun over => (ov_gsi over =? irq) && _) _) eqn:Ex.
    + apply existsb_exists in Ex as (ov & Hin & [Hg%Z.eqb_eq _]%andb_true_iff). apply list_elem_of_In, list_elem_of_omap in Hin as (e & Hin & Ho).
      destruct (override_fields _ _ Ho) as [_ Hgsi]. apply override_of_valid in Ho as [Hv _]. intros gsi level low Hl. destruct Hl as [e' He'|_ Hl].
      * apply first_with_elem in He' as [Hin' He']. rewrite Forall_forall in Hown. by apply (Hown e').
      * rewrite Forall_forall in Hl. apply (Hl e Hin). split; [done|congruence].
    + exists false, false. split; [|done]. apply line_own; [done|]. apply Forall_forall. intros e Hin [Hv Hg].
      assert (Ho : exists ov, override_of e = Some ov).
      { eexists. apply override_of_valid. split; [done|]. by eexists _, _. }
      destruct Ho as [ov Ho]. destruct (override_fields _ _ Ho) as [Hb Hgsi]. apply not_true_iff_false in Ex. apply Ex, existsb_exists.
      exists ov. split; [apply list_elem_of_In, list_elem_of_omap; by exists e|]. rewrite Hgsi, Hb, Hg, Z.eqb_refl. cbn [andb].
      apply negb_true_iff, Z.eqb_neq. intros Hs. rewrite Forall_forall in Hown. by apply (Hown e).
Qed.

(** The fields of the entry an interrupt gets. *)
Definition entry_info (bsp irq : Z) (level low : bool) : MapInfo :=
  mkMapInfo (wrap 8 bsp) false (if level then ApicLevel else ApicEdge) (if low then ApicActiveLow else ApicActiveHigh) Physical Fixed (32 + irq).

Lemma find_serves ds es gsi ia : Forall (described ds) es ->
  List.find (fun ia => (gsi_base ia <=? gsi) && (gsi <? gsi_base ia + ia_count ia)) (map (ioapic_of ds) es) = Some ia <->
  exists e, first_with (serves ds gsi) es e /\ ia = ioapic_of ds e.
Proof.
  intros Hes. rewrite find_map_first. rewrite Forall_forall in Hes.
  assert (Hiff : forall e, e ∈ es -> (gsi_base (ioapic_of ds e) <=? gsi) && (gsi <? gsi_base (ioapic_of ds e) + ia_count (ioapic_of ds e)) = true <-> serves ds gsi e).
  { intros e He. destruct (Hes e He) as [(d & Hd & _) _ _]. unfold serves. cbn [ioapic_of gsi_base ia_count]. rewrite Hd. cbn.
    rewrite andb_true_iff, Z.leb_le, Z.ltb_lt. split; [intros; by exists d|]. by intros (? & [= <-] & ?). }
  split; intros (e & He & ->); exists e; (split; [|done]); (eapply first_with_iff; [|exact He]); intros y Hy; [symmetry|]; by apply Hiff.
Qed.

Lemma irq_pin_goes ds es os bsp irq b i info : Forall (described ds) es -> irq_pin ds es os bsp irq = Some (b, i, info) <->
  exists level low, goes_to ds es os irq b i level low /\ info = entry_info bsp irq level low.
Proof.
  intros Hes. unfold irq_pin. pose proof (irq_source_line os irq) as Hl. destruct (irq_source (omap override_of os) irq) as [[[gsi t] p]|]; cbn [mbind option_bind].
  2: { split; [done|]. intros (level & low & [gsi e H _ _ _] & _). by apply Hl in H. }
  destruct Hl as (level & low & Hl & Ht & Hp). split.
  - destruct (List.find _ _) as [ia|] eqn:Ef; [|done]. intros [= <- <- <-]. apply find_serves in Ef as (e & He & ->); [|done].
    exists level, low. split; [by apply (goes_to_pin _ _ _ _ _ _ _ _ gsi e)|]. unfold map_info, entry_info. by rewrite Ht, Hp.
  - intros (level' & low' & [gsi' e Hl' He -> ->] & ->). destruct (irq_line_fun _ _ _ _ _ _ _ _ Hl Hl') as (-> & -> & ->).
    rewrite (proj2 (find_serves ds es gsi (ioapic_of ds e) Hes)) by (by exists e). cbn [ioapic_of ia_base gsi_base]. unfold map_info, entry_info. by rewrite Ht, Hp.
Qed.

Section Routing.
(** The devices before the loop, and the tables. *)
Context (ds0 : devices) (es : list MadtIoApic) (os : list MadtInterruptSrcOverride) (bsp : Z).
Context (Hes : Forall (described ds0) es).

Abbreviation ias := (map (ioapic_of ds0) es).
Abbreviation entry_for := (pin_entry ds0 es os bsp).

Lemma ias_bounded : Forall (fun ia => 0 <= gsi_base ia + ia_count ia < 2 ^ 32) ias.
Proof.
  apply Forall_map. eapply Forall_impl; [exact Hes|]. intros e [(d & Hd & _ & Hp) _ Hg]. cbn. rewrite Hd. simpl.
  unfold last_pin in *. pose proof (Z.mod_pos_bound (d_reg d 1 / 2 ^ 16) (2 ^ 8) eq_refl). lia.
Qed.

(** The pins have the entries of the interrupts in [irqs]. *)
Record routed (irqs : list Z) (ds : devices) : Prop := {
  ro_apart : apart ds;
  ro_pins b d0 : ds0 !! b = Some d0 -> exists d, ds !! b = Some d /\
    forall idx, 0 <= idx < 24 ->
      match entry_for irqs b idx with
      | Some info => decode (dev_entry d idx) = Some info
      | None => dev_entry d idx = dev_entry d0 idx
      end
}.

(** An interrupt without a pin changes nothing. *)
Lemma routed_skip irqs ds irq : routed irqs ds -> irq_pin ds0 es os bsp irq = None -> routed (irqs ++ [irq]) ds.
Proof.
  intros [H1 H2] Hn. split; [done|]. intros b d0 Hb. destruct (H2 b d0 Hb) as (d & Hd & Hi). exists d. split; [done|].
  intros idx Hx. unfold pin_entry. rewrite fold_left_app. cbn [fold_left]. rewrite Hn. by apply Hi.
Qed.

Lemma routed_write irqs ds irq b i info d : routed irqs ds -> irq_pin ds0 es os bsp irq = Some (b, i, info) ->
  ds !! b = Some d -> 0 <= i -> 0 <= mi_dest info < 256 -> 0 <= mi_vector info < 256 ->
  routed (irqs ++ [irq]) (<[b := dev_set_entry i (raw_sum info) d]> ds).
Proof.
  intros [H1 H2] Hp Hd Hi Hdest Hvec. split; [apply apart_insert; [done|by eexists]|].
  intros b' d0 Hb'. destruct (H2 b' d0 Hb') as (d' & Hd' & Hi').
  assert (Hf : forall idx, entry_for (irqs ++ [irq]) b' idx = if decide (b = b' /\ i = idx) then Some info else entry_for irqs b' idx).
  { intros idx. unfold pin_entry. rewrite fold_left_app. cbn [fold_left]. by rewrite Hp. }
  destruct (decide (b = b')) as [<-|Hne].
  - rewrite lookup_insert_eq. eexists. split; [done|]. intros idx Hx. rewrite Hf.
    assert (d' = d) as -> by congruence.
    destruct (decide (i = idx)) as [<-|Hni].
    + rewrite decide_True by done. by apply dev_set_entry_decode.
    + rewrite decide_False by (by intros [_ ?]). rewrite dev_set_entry_ne by done. by apply Hi'.
  - rewrite lookup_insert_ne by done. exists d'. split; [done|]. intros idx Hx. rewrite Hf, decide_False by (by intros [? _]). by apply Hi'.
Qed.

Lemma route_irq_ok irqs ds irq : routed irqs ds -> 0 <= irq < 16 ->
  exists ds', route_irq ias (omap override_of os) bsp ds irq = Done ds' /\ routed (irqs ++ [irq]) ds'.
Proof.
  intros Hr Hirq. unfold route_irq.
  destruct (irq_source (omap override_of os) irq) as [[[gsi t] p]|] eqn:Es.
  2: { exists ds. split; [done|]. apply routed_skip; [done|]. unfold irq_pin. by rewrite Es. }
  rewrite find_ioapic_ok, Done_bind by apply ias_bounded.
  destruct (List.find _ ias) as [ia|] eqn:Ef.
  2: { exists ds. split; [done|]. apply routed_skip; [done|]. unfold irq_pin. rewrite Es. cbn [mbind option_bind]. by rewrite Ef. }
  pose proof Ef as Ef'. apply List.find_some in Ef' as [Hin Hb]. apply andb_true_iff in Hb as [Hb1%Z.leb_le Hb2%Z.ltb_lt].
  apply in_map_iff in Hin as (e & <- & He%list_elem_of_In). rewrite Forall_forall in Hes. destruct (Hes e He) as [(d0 & Hd0 & _ & Hp) Hu Hg].
  cbn [ioapic_of ia_base gsi_base ia_count] in *. rewrite Hd0 in Hb2. cbn in Hb2.
  assert (Hlast : 0 <= last_pin d0 <= 24) by (split; [|done]; apply Z.mod_pos_bound; lia).
  rewrite checked_in, Done_bind by lia. unfold wrap. rewrite Z.mod_small by lia.
  unfold ioapic_map. rewrite as_raw_sum, Done_bind.
  2: { apply Z.mod_pos_bound. lia. } 2: { cbn. lia. }
  destruct (ro_pins _ _ Hr _ d0 Hd0) as (d & Hd & _).
  erewrite write_ioredtbl_ok; [|exact Hu|apply Hr|exact Hd|lia].
  eexists. split; [done|]. apply routed_write; [done| |done|lia|apply Z.mod_pos_bound; lia|cbn; lia].
  unfold irq_pin. rewrite Es. cbn [mbind option_bind]. by rewrite Ef.
Qed.

Lemma route_irqs_ok irqs : forall done ds, routed done ds -> Forall (fun irq => 0 <= irq < 16) irqs ->
  exists ds', foldM (route_irq ias (omap override_of os) bsp) ds irqs = Done ds' /\ routed (done ++ irqs) ds'.
Proof.
  induction irqs as [|irq irqs IH]; intros done ds Hr Hi.
  { exists ds. by rewrite app_nil_r. }
  apply Forall_cons in Hi as [H1 H2]. destruct (route_irq_ok done ds irq Hr H1) as (ds1 & E1 & R1).
  cbn [foldM]. rewrite E1, Done_bind. destruct (IH (done ++ [irq]) ds1 R1 H2) as (ds2 & E2 & R2).
  exists ds2. split; [done|]. by rewrite <- app_assoc in R2.
Qed.
End Routing.

(** Interrupts that do not go to a pin do not matter for its entry. *)
Lemma pins_elsewhere ds es os bsp b idx irqs : forall acc : option MapInfo,
  (forall irq info, irq ∈ irqs -> irq_pin ds es os bsp irq <> Some (b, idx, info)) ->
  fold_left (fun acc irq =>
    match irq_pin ds es os bsp irq with
    | Some (b', i, info) => if decide (b' = b /\ i = idx) then Some info else acc
    | None => acc
    end) irqs acc = acc.
Proof.
  induction irqs as [|irq irqs IH]; intros acc H; [done|]. cbn [fold_left]. rewrite IH by (intros ? ? Hin; apply H; by right).
  specialize (H irq). destruct (irq_pin ds es os bsp irq) as [[[b' i] info]|]; [|done]. case_decide as Hc; [|done].
  destruct Hc as [-> ->]. destruct (H info); [left|done].
Qed.

(** The pins of the devices hold what the tables say: a pin some of the sixteen
    legacy interrupts go to is programmed for the last of them, and the others
    keep their entries. *)
Definition legacy_routed (ds : devices) (es : list MadtIoApic) (os : list MadtInterruptSrcOverride) (bsp : Z) (ds' : devices) : Prop :=
  forall b d, ds !! b = Some d -> exists d', ds' !! b = Some d' /\ forall idx, 0 <= idx < 24 ->
    (forall irq level low, 0 <= irq < 16 -> goes_to ds es os irq b idx level low ->
       (forall irq' level' low', irq < irq' < 16 -> ~ goes_to ds es os irq' b idx level' low') ->
       entry_routes bsp irq level low (dev_entry d' idx)) /\
    ((forall irq level low, 0 <= irq < 16 -> ~ goes_to ds es os irq b idx level low) -> dev_entry d' idx = dev_entry d idx).

Lemma fixed_delivery x : 0 <= x < 2 ^ 3 -> delivery_of x = Some Fixed -> x = 0.
Proof.
  intros H. assert (x = 0 \/ x = 1 \/ x = 2 \/ x = 3 \/ x = 4 \/ x = 5 \/ x = 6 \/ x = 7) as Hx by lia. by repeat destruct Hx as [->|Hx]; subst.
Qed.

Lemma decode_routes bsp irq level low raw : decode raw = Some (entry_info bsp irq level low) -> entry_routes bsp irq level low raw.
Proof.
  unfold decode, entry_info. destruct (delivery_of _) as [m|] eqn:Em; [|done]. cbn [mbind option_bind].
  destruct (Z.testbit raw 11) eqn:E11, (Z.testbit raw 13) eqn:E13, (Z.testbit raw 15) eqn:E15, (Z.testbit raw 16) eqn:E16; try done;
  destruct level, low; try done; intros [= Hd -> Hv]; split; try done; (apply fixed_delivery; [by apply Z.mod_pos_bound|done]).
Qed.

Lemma routed_legacy ds es os bsp ds' : Forall (described ds) es -> routed ds es os bsp (seqZ 0 16) ds' -> legacy_routed ds es os bsp ds'.
Proof.
  intros Hes [_ Hpins] b d Hd. destruct (Hpins b d Hd) as (d' & Hd' & Hidx). exists d'. split; [done|].
  intros idx Hx. specialize (Hidx idx Hx). unfold pin_entry in Hidx. split.
  - intros irq level low Hirq Hg Hlast.
    assert (Esplit : seqZ 0 16 = seqZ 0 irq ++ irq :: seqZ (irq + 1) (15 - irq)).
    { replace 16 with (irq + (16 - irq)) at 1 by lia. rewrite seqZ_app by lia.
      f_equal. rewrite Z.add_0_l, (seqZ_cons irq) by lia. f_equal. f_equal; lia. }
    pose proof (proj2 (irq_pin_goes ds es os bsp irq b idx _ Hes) (ex_intro _ level (ex_intro _ low (conj Hg eq_refl)))) as Hp.
    rewrite Esplit, fold_left_app in Hidx. cbn [fold_left] in Hidx. rewrite Hp, decide_True, pins_elsewhere in Hidx by
      (done || (intros irq' info Hin%elem_of_seqZ (level' & low' & Hg' & _)%irq_pin_goes; [|done]; by apply (Hlast irq' level' low'); [lia|])).
    by apply decode_routes.
  - intros Hnone. rewrite pins_elsewhere in Hidx; [done|]. intros irq info Hin%elem_of_seqZ (level & low & Hg & _)%irq_pin_goes; [|done].
    apply (Hnone irq level low); [lia|done].
Qed.

(** [setup_io_apic] with the devices the firmware describes. *)
Lemma setup_io_apic_ok es os l h bsp h' ds :
  lapic_own_id l h = Done (bsp, h') -> apart ds -> Forall (described ds) es ->
  exists st', setup_io_apic es os l h (mkIoApicState [] [] ds) = Done (h', st') /\ legacy_routed ds es os bsp (io_devices st').
Proof.
  intros Hid Ha Hes. destruct (add_io_apics_ok es ds [] Ha Hes) as (ds1 & E1 & S1).
  assert (Hr : routed ds es os bsp [] ds1).
  { split; [by eapply apart_same|]. intros b d Hd. destruct (same_regs_lookup _ _ _ _ S1 Hd) as (d1 & Hd1 & Hreg).
    exists d1. split; [done|]. intros idx _. cbn. unfold dev_entry. by rewrite Hreg. }
  destruct (route_irqs_ok ds es os bsp Hes (seqZ 0 16) [] ds1 Hr) as (ds2 & E2 & R2).
  { apply Forall_forall. intros i Hi%elem_of_seqZ. lia. }
  unfold setup_io_apic. rewrite Hid, Done_bind. cbn [IOAPICS io_devices SRC_OVERRIDES]. rewrite E1, Done_bind. cbn [app].
  rewrite E2, Done_bind. eexists. split; [done|]. by apply routed_legacy.
Qed.


(** The driver takes the number of the last pin for the number of pins: an
    interrupt that belongs to the last pin of its controller is not routed. *)
Theorem last_pin_not_routed ds e d os bsp irq t p :
  ds !! ioapic_address e = Some d -> described ds e ->
  irq_source (omap override_of os) irq = Some (ioapic_gsi_base e + last_pin d, t, p) ->
  route_irq [ioapic_of ds e] (omap override_of os) bsp ds irq = Done ds.
Proof.
  intros Hd He Hs. unfold route_irq. rewrite Hs, find_ioapic_ok, Done_bind.
  2: { apply (ias_bounded ds [e]). by constructor. }
  cbn [List.find ioapic_of gsi_base ia_count]. rewrite Hd. simpl. by rewrite Z.ltb_irrefl, andb_false_r.
Qed.

(** Masking an interrupt changes the mask of its pin and nothing else that
    the entry says. *)
Theorem set_mask_masks ia gsi mask ds d :
  usable_base (ia_base ia) -> apart ds -> ds !! ia_base ia = Some d -> 0 <= gsi - gsi_base ia < 24 ->
  let idx := gsi - gsi_base ia in
  exists d', set_mask ia gsi mask ds = Done (<[ia_base ia := d']> ds) /\
    decode (dev_entry d' idx) =
      (fun i => mkMapInfo (mi_dest i) mask (mi_trigger_mode i) (mi_polarity i) (mi_dest_mode i) (mi_delivery_mode i) (mi_vector i))
        <$> decode (dev_entry d idx) /\
    (forall idx', idx' <> idx -> dev_entry d' idx' = dev_entry d idx').
Proof.
  intros Hu Ha Hd Hg idx. unfold set_mask. rewrite checked_in, Done_bind by lia. unfold wrap. rewrite Z.mod_small by lia. fold idx.
  destruct (read_ioredtbl_ok _ idx d ds Hu Ha Hd Hg) as (d1 & E1 & R1). step E1.
  set (v := Z.lor _ _).
  erewrite write_ioredtbl_ok; [|done|apply apart_insert; [done|by eexists]|apply lookup_insert_eq|done].
  rewrite insert_insert_eq. eexists. split; [done|].
  assert (Hm : forall i, 0 <= i < 64 -> Z.testbit v i = if decide (i = 16) then mask else Z.testbit (dev_entry d idx) i).
  { intros i Hi. unfold v. rewrite Z.lor_spec, Z.land_spec. replace (2 ^ 64 - 1 - Z.shiftl 1 16) with (Z.ldiff (Z.ones 64) (2 ^ 16)) by done.
    rewrite Z.ldiff_spec, Z.ones_spec_low, Z.shiftl_spec by lia. case_decide as Hc.
    - subst. rewrite Z.pow2_bits_true by done. cbn [negb andb]. rewrite andb_false_r. by destruct mask.
    - rewrite Z.pow2_bits_false, andb_true_r by lia.
      assert (Z.testbit (Z.b2z mask) (i - 16) = false) as ->; [|apply orb_false_r].
      destruct (Z.lt_ge_cases i 16); [by rewrite Z.testbit_neg_r by lia|].
      apply (testbit_above 1); [destruct mask; simpl; lia|lia]. }
  split; [|intros idx' Hne; rewrite dev_set_entry_ne by done; unfold dev_entry; by rewrite R1].
  rewrite (decode_ext _ v) by (intros; apply dev_set_entry_bits; [apply Hg|done..]).
  unfold decode. rewrite !Hm by done. rewrite decide_True, !decide_False by done.
  rewrite (field_ext v (dev_entry d idx) 8 3), (field_ext v (dev_entry d idx) 56 8) by
    (lia || (intros; rewrite Hm, decide_False by lia; done)).
  pose proof (field_ext v (dev_entry d idx) 0 8 ltac:(lia) ltac:(lia)) as E0. rewrite !Z.div_1_r in E0.
  rewrite E0 by (intros; rewrite Hm, decide_False by lia; done).
  by destruct (delivery_of _).
Qed.

(** ** An instance: one controller, with the timer moved from 0 to pin 2 *)

Definition sample_dev : IoApicDev := mkIoApicDev 0 (fun r => if r =? 1 then 0x170011 else if (0x10 <=? r) && Z.even r then 0x10000 else 0).
Definition sample_devices : devices := {[0xfec00000 := sample_dev]}.
Definition sample_madt : list MadtIoApic := [mkMadtIoApic 0 0xfec00000 0].
Definition sample_overrides : list MadtInterruptSrcOverride := [mkMadtIso 0 0 2 0; mkMadtIso 0 9 9 0xd; mkMadtIso 0 11 23 0].

Lemma sample_apart : apart sample_devices.
Proof.
  intros b [d Hb]. unfold sample_devices in Hb. apply lookup_singleton_Some in Hb as [<- _]. by vm_compute.
Qed.

Lemma sample_described : Forall (described sample_devices) sample_madt.
Proof. repeat constructor; try done. by exists sample_dev. Qed.

Lemma as_raw_roundtrip_witness :
  decode 0x300000000000a931 = Some (mkMapInfo 0x30 false ApicLevel ApicActiveLow Logical LowestPriority 0x31).
Proof.
  apply (as_raw_roundtrip (mkMapInfo 0x30 false ApicLevel ApicActiveLow Logical LowestPriority 0x31)); done.
Defined.

(** The timer goes to pin 2, interrupt 9 to its own as a level triggered one,
    which nothing else goes to; the last pin, where interrupt 11 was moved, and
    pin 0 are not served. *)
Lemma sample_line_0 : irq_line sample_overrides 0 2 false false.
Proof. apply (line_moved _ _ (mkMadtIso 0 0 2 0)). exists [], [mkMadtIso 0 9 9 0xd; mkMadtIso 0 11 23 0]. repeat constructor; done. Qed.
Lemma sample_line_9 : irq_line sample_overrides 9 9 true false.
Proof.
  apply (line_moved _ _ (mkMadtIso 0 9 9 0xd)). exists [mkMadtIso 0 0 2 0], [mkMadtIso 0 11 23 0]. repeat constructor; try done. by intros [_ ?].
Qed.

Lemma sample_serves gsi : 0 <= gsi < 23 -> first_with (serves sample_devices gsi) sample_madt (mkMadtIoApic 0 0xfec00000 0).
Proof. intros H. exists [], []. split; [done|]. split; [|constructor]. exists sample_dev. split; [done|]. exact H. Qed.

(** By the driver's own answers no interrupt goes to some pin after a given one. *)
Lemma sample_elsewhere lo n idx :
  forallb (fun irq => match irq_pin sample_devices sample_madt sample_overrides 0 irq with Some (_, i, _) => negb (i =? idx) | None => true end)
    (seqZ lo n) = true ->
  forall irq level low, lo <= irq < lo + n -> ~ goes_to sample_devices sample_madt sample_overrides irq 0xfec00000 idx level low.
Proof.
  intros H irq level low Hirq Hg. rewrite forallb_forall in H. specialize (H irq (proj1 (list_elem_of_In _ _) (proj2 (elem_of_seqZ _ _ _) Hirq))).
  rewrite (proj2 (irq_pin_goes _ _ _ 0 irq 0xfec00000 idx _ sample_described) (ex_intro _ level (ex_intro _ low (conj Hg eq_refl)))) in H.
  by rewrite Z.eqb_refl in H.
Qed.


Lemma last_pin_not_routed_witness :
  route_irq [ioapic_of sample_devices (mkMadtIoApic 0 0xfec00000 0)] (omap override_of sample_overrides) 0 sample_devices 11 =
    Done sample_devices.
Proof.
  apply (last_pin_not_routed sample_devices (mkMadtIoApic 0 0xfec00000 0) sample_dev sample_overrides 0 11 TriggerConforms PolarityConforms);
    [done| |by vm_compute]. pose proof sample_described as H. by apply Forall_cons in H as [? _].
Defined.

Lemma set_mask_masks_witness :
  exists d', set_mask (mkIoApic 0xfec00000 0 23) 4 true sample_devices = Done (<[0xfec00000 := d']> sample_devices) /\
    mi_mask <$> decode (dev_entry d' 4) = Some true.
Proof.
  destruct (set_mask_masks (mkIoApic 0xfec00000 0 23) 4 true sample_devices sample_dev) as (d' & E & Hd & _);
    [done|apply sample_apart|done|done|].
  exists d'. split; [exact E|]. cbn [gsi_base] in Hd. rewrite Z.sub_0_r in Hd. rewrite Hd. by vm_compute.
Defined.
