(* ===== verification/ApStartup.v ===== *)
(** * Starting the other processors

    [kernel/src/acpi/ap_startup.rs], [kernel/src/asm/trampoline.asm] and
    [_start_ap] in [kernel/src/main.rs].  The boot processor copies the
    trampoline to 0x8000, fills in its arguments, sends INIT and STARTUP to a
    processor and waits until that processor has run the trampoline, set up its
    descriptor tables and its controller, and reported itself ready.

    While it waits the boot processor changes nothing, so the model runs the
    started processor at the point where the boot processor begins to wait.
    ApHandshake.v shows that every interleaving of the processors agrees with
    this. *)

From S2P Require Import Prelude Platform Shared Paging Machine Interrupts Descriptors KFrameAlloc LocalApic.

(** ** The trampoline *)

(** The control, status and tag words of the floating point unit. *)
Record Fpu : Type := mkFpu { fpu_control : Z; fpu_status : Z; fpu_tag : Z }.

(** A processor that comes out of reset: the registers of Machine.v, the control
    registers, the selector in the data segments and the floating point unit. *)
Record Ap : Type := mkAp {
  apc_cpu : machine;
  apc_cr0 : Z;
  apc_cr3 : Z;
  apc_cr4 : Z;
  apc_data : Z;
  apc_fpu : Fpu
}.

Definition on_cpu (i : instr) (p : Ap) : Ap := mkAp (i (apc_cpu p)) (apc_cr0 p) (apc_cr3 p) (apc_cr4 p) (apc_data p) (apc_fpu p).
Definition run (code : list (Ap -> Ap)) (p : Ap) : Ap := fold_left (fun p i => i p) code p.

Definition TRAMPOLINE : Z := 0x8000.
Definition t_ready : Z := TRAMPOLINE + 8.
Definition t_cpu_id : Z := TRAMPOLINE + 16.
Definition t_page_table : Z := TRAMPOLINE + 24.
Definition t_stack_start : Z := TRAMPOLINE + 32.
Definition t_stack_end : Z := TRAMPOLINE + 40.
Definition t_code : Z := TRAMPOLINE + 48.

Definition gdt_kernel_code : Z := 8.
Definition gdt_kernel_data : Z := 16.

(** Instructions of the trampoline that Machine.v lacks. *)
Definition cli : instr := fun m => set_rflags (put_flag IF false (m_rflags m)) m.
Definition xor_ax : instr := fun m => logic_flags 16 0 (set RAX (get RAX m - wrap 16 (get RAX m)) m).
Definition mov_sp (v : Z) : instr := fun m => set RSP (get RSP m - wrap 16 (get RSP m) + v) m.
Definition mov32_abs (d : reg) (a : Z) : instr := fun m => set d (load_bytes 4 (m_mem m) a) m.
Definition mov64_abs (d : reg) (a : Z) : instr := fun m => set d (load64 (m_mem m) a) m.
Definition mov_abs_imm (a v : Z) : instr := fun m => set_memory (store64 (m_mem m) a v) m.
Definition lea (d b : reg) (o : Z) : instr := fun m => set d (wrap 64 (get b m + o)) m.
Definition jmp_reg (r : reg) : instr := fun m => set_rip (get r m) m.
Definition and_al (v : Z) : instr := fun m =>
  let al := Z.land (wrap 8 (get RAX m)) v in logic_flags 8 al (set RAX (get RAX m - wrap 8 (get RAX m) + al) m).
Definition or_al (v : Z) : instr := fun m =>
  let al := Z.lor (wrap 8 (get RAX m)) v in logic_flags 8 al (set RAX (get RAX m - wrap 8 (get RAX m) + al) m).
Definition or32 (r : reg) (v : Z) : instr := fun m =>
  let x := Z.lor (wrap 32 (get r m)) v in logic_flags 32 x (set r x m).
(** [lgdt [a]] with 16-bit operands *)
Definition lgdt (a : Z) : instr := fun m =>
  mkMachine (m_reg m) (m_rip m) (m_rflags m) (m_cs m) (m_ss m) (m_msr m) (load_bytes 3 (m_mem m) (a + 2)) (m_mem m).

Definition mov_segments (v : Ap -> Z) (p : Ap) : Ap :=
  mkAp (set_segments (m_cs (apc_cpu p)) (v p) (apc_cpu p)) (apc_cr0 p) (apc_cr3 p) (apc_cr4 p) (v p) (apc_fpu p).
Definition mov_cr3 (r : reg) (p : Ap) : Ap := mkAp (apc_cpu p) (apc_cr0 p) (get r (apc_cpu p)) (apc_cr4 p) (apc_data p) (apc_fpu p).
Definition mov_cr0 (r : reg) (p : Ap) : Ap := mkAp (apc_cpu p) (get r (apc_cpu p)) (apc_cr3 p) (apc_cr4 p) (apc_data p) (apc_fpu p).
Definition mov_cr4 (r : reg) (p : Ap) : Ap := mkAp (apc_cpu p) (apc_cr0 p) (apc_cr3 p) (get r (apc_cpu p)) (apc_data p) (apc_fpu p).
Definition mov_from_cr0 (r : reg) (p : Ap) : Ap := on_cpu (set r (wrap 32 (apc_cr0 p))) p.
Definition mov_from_cr4 (r : reg) (p : Ap) : Ap := on_cpu (set r (wrap 32 (apc_cr4 p))) p.
(** [jmp cs:label] *)
Definition far_jmp (cs : Z) (p : Ap) : Ap :=
  mkAp (set_segments cs (m_ss (apc_cpu p)) (apc_cpu p)) (apc_cr0 p) (apc_cr3 p) (apc_cr4 p) (apc_data p) (apc_fpu p).
Definition fninit (p : Ap) : Ap :=
  mkAp (apc_cpu p) (apc_cr0 p) (apc_cr3 p) (apc_cr4 p) (apc_data p) (mkFpu 0x37f 0 0xffff).
(** The processor sees the shared memory. *)
Definition in_memory (mem : Z -> Z) (p : Ap) : Ap :=
  mkAp (set_memory mem (apc_cpu p)) (apc_cr0 p) (apc_cr3 p) (apc_cr4 p) (apc_data p) (apc_fpu p).

(** [startup_ap]; [gdtr] is the address of the descriptor table register's image. *)
Definition startup_ap (gdtr : Z) : list (Ap -> Ap) :=
  [on_cpu cli; on_cpu xor_ax; mov_segments (fun p => wrap 16 (get RAX (apc_cpu p))); on_cpu (mov_sp 0);
   on_cpu (mov32_abs RDI t_page_table); mov_cr3 RDI;
   mov_from_cr0 RAX; on_cpu (and_al 0xf3); on_cpu (or_al 0x22); mov_cr0 RAX;
   mov_from_cr4 RAX; on_cpu (or32 RAX 0x2b0); mov_cr4 RAX;
   fninit;
   on_cpu (lgdt gdtr);
   on_cpu (mov_imm RCX IA32_EFER); on_cpu Machine.rdmsr; on_cpu (or32 RAX 0x900); on_cpu Machine.wrmsr;
   mov_from_cr0 RBX; on_cpu (or32 RBX 0x80010001); mov_cr0 RBX;
   far_jmp gdt_kernel_code].

Definition long_mode_ap : list (Ap -> Ap) :=
  [on_cpu (mov_imm RAX gdt_kernel_data); mov_segments (fun p => get RAX (apc_cpu p));
   on_cpu (mov64_abs RCX t_stack_end); on_cpu (lea RSP RCX (-256));
   on_cpu (mov_imm RDI t_cpu_id);
   on_cpu (mov64_abs RAX t_code); on_cpu (mov_abs_imm t_ready 1); on_cpu (jmp_reg RAX)].

Definition trampoline (gdtr : Z) (p : Ap) : Ap := run long_mode_ap (run (startup_ap gdtr) p).

(** ** The boot processor *)

(** What [_start_ap] finds through its argument. *)
Record KernelArgAp : Type := mkKernelArgAp { ka_cpu_id : Z; ka_page_table : Z; ka_stack_start : Z; ka_stack_end : Z }.

Definition read_arg (mem : Z -> Z) (a : Z) : KernelArgAp :=
  mkKernelArgAp (load64 mem a) (load64 mem (a + 8)) (load64 mem (a + 16)) (load64 mem (a + 24)).

(** A processor that has run [_start_ap]: how it entered, the argument it found,
    its control region, its registers and its controller. *)
Record Started (G : Type) : Type := mkStarted {
  st_entry : Ap;
  st_arg : KernelArgAp;
  st_pcr : ProcessorControlRegion G;
  st_tables : CpuTables;
  st_lapic : LapicHw
}.
Arguments mkStarted {G} _ _ _ _ _.
Arguments st_entry {G} _.
Arguments st_arg {G} _.
Arguments st_pcr {G} _.
Arguments st_tables {G} _.
Arguments st_lapic {G} _.

(** The state shared by the processors: memory, the atomics and the other
    statics, the frame allocator, the boot processor's controller and CR3, and
    the processors that were started, last first. *)
Record Startup (G : Type) : Type := mkStartup {
  su_mem : Z -> Z;
  CPU_COUNT : Z;
  AP_READY : bool;
  su_statics : GdtStatics;
  su_idts : gmap Z Idt;
  su_frames : LinearIncFrameAllocator;
  su_hw : LapicHw;
  su_cr3 : Z;
  su_started : list (Started G)
}.
Arguments mkStartup {G} _ _ _ _ _ _ _ _ _.
Arguments su_mem {G} _.
Arguments CPU_COUNT {G} _.
Arguments AP_READY {G} _.
Arguments su_statics {G} _.
Arguments su_idts {G} _.
Arguments su_frames {G} _.
Arguments su_hw {G} _.
Arguments su_cr3 {G} _.
Arguments su_started {G} _.

Section Startup.
Context {X : X86Addr} {V : X86Virt} {G : Type} {GO : Gdt G}.
(** Fuel for the loops of the drivers, the assembled trampoline, the address of
    its [gdtr], the entry points of the kernel, and the processors and their
    controllers as they come out of reset. *)
Context (fuel : nat) (trampoline_data : list Z) (gdtr start_ap syscall_entry_point : Z).
Context (reset : Z -> Ap) (lapic_of : Z -> LapicHw).
(** The layout of the control region, and what its memory held before. *)
Context (pcr_size gdt_off tss_off : Z) (pcr_before : ProcessorControlRegion G).

Definition kernel_frames (n : Z) : frame_source LinearIncFrameAllocator := fun fa => frame_alloc_n fuel fa n.

(** [interrupts::enable] *)
Definition sti : instr := fun m => set_rflags (put_flag IF true (m_rflags m)) m.

(** [_start_ap] on the processor with the controller [h], up to the loop that
    waits for [BSP_READY]. *)
Definition _start_ap (l : LocalApic) (p : Ap) (h : LapicHw) (s : Startup G) : outcome (Startup G) :=
  let arg := read_arg (m_mem (apc_cpu p)) (get RDI (apc_cpu p)) in
  let cpu_id := wrap 8 (ka_cpu_id arg) in
  let c := mkCpuTables (apc_cpu p) (apc_data p) (apc_data p) (apc_data p) 0 (apc_cr0 p) in
  '(pcr, statics, c, fa) ←
    init_gdt kernel_frames pcr_size gdt_off tss_off cpu_id (ka_stack_end arg) pcr_before (su_statics s) c (su_frames s);
  '(idts, pcr, fa) ← init_idt kernel_frames cpu_id (su_idts s) pcr fa;
  '(_, h) ← setup_apic 0 cpu_id l h;
  let m := sti (init_syscall syscall_entry_point (ct_machine c)) in
  let c := mkCpuTables m (ct_ds c) (ct_es c) (ct_gs c) (ct_tr c) (ct_cr0 c) in
  Done (mkStartup (m_mem m) (CPU_COUNT s) true statics idts fa (su_hw s) (su_cr3 s)
    (mkStarted p arg pcr c h :: su_started s)).

(** Memory that holds the assembled trampoline: all of the image but its
    arguments, which lie in front of the code. *)
Definition trampoline_in (mem : Z -> Z) : bool :=
  (56 <? Z.of_nat (length trampoline_data)) &&
  forallb (fun i => ((8 <=? i) && (i <? 56)) || (mem (TRAMPOLINE + i) =? default 0 (trampoline_data !! Z.to_nat i)))
    (seqZ 0 (Z.of_nat (length trampoline_data))).

(** The processor that the last two messages of the controller [h] start: after
    INIT and STARTUP the addressed processor begins at the page named by the
    vector.  What it runs there is the trampoline if that page holds it.  An INIT
    to the sender itself ends what the sender is doing, and starts no other. *)
Definition started_by (h : LapicHw) (mem : Z -> Z) : option Z :=
  match h_sent h with
  | st :: ini :: _ =>
      if (msg_delivery ini =? 5) && (msg_delivery st =? 6) && (msg_dest st =? msg_dest ini) && negb (msg_dest st =? hw_id h) &&
         (msg_vector st * 0x1000 =? TRAMPOLINE) && trampoline_in mem
      then Some (msg_dest st) else None
  | _ => None
  end.

(** The started processor runs the trampoline and [_start_ap].  Otherwise no
    processor ever reports itself ready. *)
Definition others_run (l : LocalApic) (s : Startup G) : outcome (Startup G) :=
  match started_by (su_hw s) (su_mem s) with
  | Some d =>
      let p := trampoline gdtr (in_memory (su_mem s) (reset d)) in
      if m_rip (apc_cpu p) =? start_ap then _start_ap l p (lapic_of d) s else OutOfFuel
  | None => OutOfFuel
  end.

Definition set_hw (h : LapicHw) (s : Startup G) : Startup G :=
  mkStartup (su_mem s) (CPU_COUNT s) (AP_READY s) (su_statics s) (su_idts s) (su_frames s) h (su_cr3 s) (su_started s).

Definition copy_trampoline (mem : Z -> Z) : Z -> Z := fun x =>
  if (TRAMPOLINE <=? x) && (x <? TRAMPOLINE + Z.of_nat (length trampoline_data))
  then default 0 (trampoline_data !! Z.to_nat (x - TRAMPOLINE)) else mem x.

Definition write_args (mem : Z -> Z) (i kernel_page_table stack_start stack_end : Z) : Z -> Z :=
  store64 (store64 (store64 (store64 (store64 (store64 mem t_ready 0) t_cpu_id i)
    t_page_table kernel_page_table) t_stack_start stack_start) t_stack_end stack_end) t_code start_ap.

(** The interrupt commands. *)
Definition icr_dest (l : LocalApic) (i : Z) : Z := wrap 64 (Z.shiftl i (if la_x2 l then 32 else 56)).
Definition icr_init (l : LocalApic) (i : Z) : Z := Z.lor 0x4500 (icr_dest l i).
Definition icr_startup (l : LocalApic) (i : Z) : Z :=
  Z.lor (Z.lor 0x4600 (Z.land (Z.shiftr TRAMPOLINE 12) 0xff)) (icr_dest l i).

(** One iteration of the loop over the processors. *)
Definition start_one (l : LocalApic) (kernel_page_table : Z) (s : Startup G) (e : MadtLocalApic) : outcome (Startup G) :=
  '(own, h) ← lapic_own_id l (su_hw s);
  if wrap 8 own =? lapic_id e then Done (set_hw h s)
  else
    '(frame, fa) ← frame_alloc_n fuel (su_frames s) 64;
    stack_start ← or_panic frame;
    stack_end ← u64_add stack_start (64 * 4096);
    let mem := write_args (su_mem s) (lapic_id e) kernel_page_table stack_start stack_end in
    h ← set_icr fuel (icr_init l (lapic_id e)) l h;
    h ← set_icr fuel (icr_startup l (lapic_id e)) l h;
    s ← others_run l (mkStartup mem (wrap 32 (CPU_COUNT s + 1)) false (su_statics s) (su_idts s) fa h (su_cr3 s)
          (su_started s));
    if (su_mem s t_ready =? 0) || negb (AP_READY s) then OutOfFuel
    else
      root ← phys_addr_new kernel_page_table;
      Done (mkStartup (su_mem s) (CPU_COUNT s) (AP_READY s) (su_statics s) (su_idts s) (su_frames s) (su_hw s)
        (frame_containing_address root) (su_started s)).

Definition setup_ap_startup (lapics : list MadtLocalApic) (kernel_page_table : Z) (l : LocalApic) (s : Startup G)
  : outcome (Startup G) :=
  foldM (start_one l kernel_page_table)
    (mkStartup (copy_trampoline (su_mem s)) (CPU_COUNT s) (AP_READY s) (su_statics s) (su_idts s) (su_frames s)
      (su_hw s) (su_cr3 s) (su_started s))
    lapics.
End Startup.

(** ** What the trampoline does *)

(** A processor in long mode at [start_ap], with the arguments at [t_cpu_id]. *)
Record entered (start_ap pt stack_end : Z) (p : Ap) : Prop := {
  en_rip : m_rip (apc_cpu p) = start_ap;
  en_arg : get RDI (apc_cpu p) = t_cpu_id;
  en_rsp : get RSP (apc_cpu p) = stack_end - 256;
  en_cr3 : apc_cr3 p = pt;
  en_segments : m_cs (apc_cpu p) = gdt_kernel_code /\ m_ss (apc_cpu p) = gdt_kernel_data /\ apc_data p = gdt_kernel_data;
  en_paging : Z.testbit (apc_cr0 p) 0 = true /\ Z.testbit (apc_cr0 p) 16 = true /\ Z.testbit (apc_cr0 p) 31 = true;
  en_pae : Z.testbit (apc_cr4 p) 5 = true;
  en_efer : Z.testbit (m_msr (apc_cpu p) IA32_EFER) 8 = true /\ Z.testbit (m_msr (apc_cpu p) IA32_EFER) 11 = true;
  en_fpu : apc_fpu p = mkFpu 0x37f 0 0xffff;
  en_masked : Z.testbit (m_rflags (apc_cpu p)) IF = false
}.

Lemma testbit_low hi lo i : 0 <= lo < 2 ^ 32 -> 0 <= i < 32 -> Z.testbit (hi * 2 ^ 32 + lo) i = Z.testbit lo i.
Proof.
  intros Hlo Hi. rewrite <- lor_field by done. by rewrite Z.lor_spec, Z.mul_pow2_bits_low by lia.
Qed.

Lemma load32_store64 mem a v : 0 <= v -> load_bytes 4 (store64 mem a v) a = v mod 2 ^ 32.
Proof.
  intros Hv. rewrite (load_bytes_ext 4 _ (store_bytes (Z.of_nat 4) mem a v)).
  - by rewrite load_store_bytes.
  - intros i Hi. unfold store64, store_bytes. destruct (Z.leb_spec a (a + i)), (Z.ltb_spec (a + i) (a + 8)),
      (Z.ltb_spec (a + i) (a + Z.of_nat 4)); simpl in *; done || lia.
Qed.

Lemma logic_flag_if w v f : Z.testbit (put_flag CF false (put_flag OF false (result_flags w v f))) IF = Z.testbit f IF.
Proof. unfold result_flags. by rewrite !testbit_put_flag. Qed.

(** Instructions that leave the interrupt flag alone. *)
Definition keeps_if (i : Ap -> Ap) : Prop :=
  forall p, Z.testbit (m_rflags (apc_cpu (i p))) IF = Z.testbit (m_rflags (apc_cpu p)) IF.

Lemma run_keeps_if code p : Forall keeps_if code ->
  Z.testbit (m_rflags (apc_cpu (run code p))) IF = Z.testbit (m_rflags (apc_cpu p)) IF.
Proof.
  intros H. revert p. induction H as [|i code Hi _ IH]; intros p; [done|]. cbn [run fold_left].
  unfold run in IH. by rewrite IH.
Qed.

Lemma trampoline_keeps_if gdtr : Forall keeps_if (tail (startup_ap gdtr)) /\ Forall keeps_if long_mode_ap.
Proof. split; repeat apply Forall_cons_2; try apply Forall_nil_2; intros p; done || apply logic_flag_if. Qed.

(** The trampoline on memory that holds its arguments. *)
Lemma trampoline_enters gdtr p start_ap pt stack_end :
  let mem := m_mem (apc_cpu p) in
  load64 mem t_code = start_ap -> load_bytes 4 mem t_page_table = pt -> load64 mem t_stack_end = stack_end ->
  256 <= stack_end < 2 ^ 64 ->
  entered start_ap pt stack_end (trampoline gdtr p) /\
  m_mem (apc_cpu (trampoline gdtr p)) = store64 mem t_ready 1.
Proof.
  intros mem Hc Hp Hs Hb. split; [|done].
  assert (Hbits : forall x k i, Z.testbit k i = true -> Z.testbit (Z.lor x k) i = true).
  { intros x k i H. by rewrite Z.lor_spec, H, orb_true_r. }
  split.
  - exact Hc.
  - done.
  - change (get RSP _) with (wrap 64 (load64 mem t_stack_end + -256)). rewrite Hs. unfold wrap. rewrite Z.mod_small by lia. lia.
  - exact Hp.
  - done.
  - split_and!; by apply Hbits.
  - by apply Hbits.
  - match goal with |- context [m_msr ?m IA32_EFER] => set (e := m_msr m IA32_EFER) end.
    assert (He : exists hi lo, e = hi * 2 ^ 32 + wrap 32 (Z.lor lo 0x900)) by (eexists _, _; reflexivity).
    destruct He as (hi & lo & ->).
    assert (Hw : forall x i, 0 <= i < 32 -> Z.testbit (wrap 32 x) i = Z.testbit x i) by (intros; apply Z.mod_pow2_bits_low; lia).
    split; rewrite testbit_low, Hw by (done || by apply Z.mod_pos_bound); by apply Hbits.
  - done.
  - unfold trampoline. destruct (trampoline_keeps_if gdtr) as [K1 K2]. rewrite (run_keeps_if _ _ K2).
    change (run (startup_ap gdtr) p) with (run (tail (startup_ap gdtr)) (on_cpu cli p)). rewrite (run_keeps_if _ _ K1).
    change (Z.testbit (put_flag IF false (m_rflags (apc_cpu p))) IF = false). by rewrite testbit_put_flag.
Qed.

(** ** One processor *)

(** What the boot processor reads as its own id. *)
Definition own_id (l : LocalApic) (h : LapicHw) : Z := if la_x2 l then wrap 32 (h_id h) else (h_id h mod 2 ^ 8) * 2 ^ 24.

Lemma lapic_own_id_ok l h : drives l h -> lapic_own_id l h = Done (own_id l h, h).
Proof.
  intros Hd. unfold lapic_own_id, lapic_get, own_id. destruct (la_x2 l) eqn:Hx.
  - unfold drives in Hd. rewrite Hx in Hd. unfold rdmsr. rewrite Hd. cbn. unfold read_register. cbn. by rewrite Hd.
  - rewrite lapic_read_reg by done. unfold read_register. cbn [Z.eqb Pos.eqb].
    unfold drives in Hd. rewrite Hx in Hd. destruct Hd as [Hm _]. unfold xapic_mode, x2apic_mode in *.
    by destruct (Z.testbit (h_apic_base h) APIC_ENABLED), (Z.testbit (h_apic_base h) APIC_X2).
Qed.

(** The INIT and STARTUP messages to a processor. *)
Definition init_message (i : Z) : Message := mkMessage 0 5 false true 0 i.
Definition startup_message (i : Z) : Message := mkMessage 8 6 false true 0 i.

Lemma init_sends l i : 0 <= i < 256 ->
  0 <= icr_init l i < 2 ^ 64 /\ message_of (la_x2 l) (icr_init l i) = init_message i.
Proof. intros Hi. by apply (message_of_dest (la_x2 l) 0x4500 i). Qed.

Lemma startup_sends l i : 0 <= i < 256 ->
  0 <= icr_startup l i < 2 ^ 64 /\ message_of (la_x2 l) (icr_startup l i) = startup_message i.
Proof. intros Hi. by apply (message_of_dest (la_x2 l) 0x4608 i). Qed.

Section Spec.
Context {X : X86Addr} {XS : X86AddrSpec X} {V : X86Virt} {VS : X86VirtSpec V} {G : Type} {GO : Gdt G} {GS : GdtSpec G GO}.
(** The image has code behind its arguments. *)
Context (fuel : nat) (data : list Z) (Hdata : (56 < length data)%nat).
Context (gdtr start_ap syscall_entry_point : Z) (Hstart : 0 <= start_ap < 2 ^ 64).
Context (reset : Z -> Ap) (lapic_of : Z -> LapicHw).
Context (pcr_size gdt_off tss_off : Z) (pcr_before : ProcessorControlRegion G).
Context (l : LocalApic) (Hx : la_x2 l = false) (Hlapics : forall i, drives l (lapic_of i)).
Context (pt : Z) (Hpt : 0 <= pt < 2 ^ 32) (Hroot : (PAGE_SIZE | pt)).
(** The selectors of the boot processor, which all processors share. *)
Context (s32 scode sdata : Z).

Abbreviation STACK := (64 * 4096).
Abbreviation shared_statics := (mkGdtStatics (Some s32) (Some scode) (Some sdata)).
Abbreviation start_next := (start_one fuel data gdtr start_ap syscall_entry_point reset lapic_of pcr_size gdt_off tss_off pcr_before l pt).

(** The memory of a processor: its stack, its control region and the stack of
    its double faults, and the sizes they are asked for with. *)
Record ApBlocks : Type := mkApBlocks { b_stack : Z; b_pcr : Z; b_fault : Z }.
Definition ap_requests : list Z := [64; - (- pcr_size / PAGE_SIZE); DEPENDENT_STACK_SIZE / PAGE_SIZE].
Definition ap_answers (b : ApBlocks) : list (option Z * Z) := zip [Some (b_stack b); Some (b_pcr b); Some (b_fault b)] ap_requests.

Definition blocks_ok (b : ApBlocks) : Prop :=
  0 <= b_stack b /\ b_stack b + STACK < 2 ^ 47 /\ 0 <= b_fault b /\ b_fault b + DEPENDENT_STACK_SIZE < 2 ^ 47.

(** The processor [i] with the blocks [b]: it entered with its argument, and
    has its control region, stacks, system calls, controller and interrupts. *)
Record brought_up (i : Z) (b : ApBlocks) (pa : Started G) : Prop := {
  bu_entered : entered start_ap pt (b_stack b + STACK) (st_entry pa);
  bu_arg : st_arg pa = mkKernelArgAp i pt (b_stack b) (b_stack b + STACK);
  bu_pcr : self_ref (st_pcr pa) = b_pcr b /\ m_msr (ct_machine (st_tables pa)) IA32_GS_BASE = b_pcr b;
  bu_cpu_id : pcr_cpu_id (st_pcr pa) = i;
  bu_stacks : tss_privilege_stack (st_pcr pa) = b_stack b + STACK /\
    tss_interrupt_stack (st_pcr pa) = b_fault b + DEPENDENT_STACK_SIZE;
  bu_syscall : m_msr (ct_machine (st_tables pa)) IA32_LSTAR = syscall_entry_point /\
    Z.testbit (m_msr (ct_machine (st_tables pa)) IA32_EFER) 0 = true;
  bu_lapic : Z.testbit (h_reg (st_lapic pa) 0xf0) 8 = true;
  bu_interrupts : Z.testbit (m_rflags (ct_machine (st_tables pa))) IF = true
}.

(** The arguments of the trampoline. *)
Definition in_args (x : Z) : Prop := TRAMPOLINE + 8 <= x < TRAMPOLINE + 56.

(** The copy is the trampoline, and nothing but its arguments is written after
    that. *)
Lemma trampoline_copied mem : trampoline_in data (copy_trampoline data mem) = true.
Proof.
  unfold trampoline_in. apply andb_true_iff. split; [apply Z.ltb_lt; lia|]. apply forallb_forall. intros i Hi%list_elem_of_In%elem_of_seqZ.
  apply orb_true_iff. right. apply Z.eqb_eq. unfold copy_trampoline. rewrite (proj2 (Z.leb_le _ _)), (proj2 (Z.ltb_lt _ _)) by lia. cbn [andb].
  do 3 f_equal. lia.
Qed.

Lemma trampoline_kept mem mem' : (forall x, ~ in_args x -> mem' x = mem x) -> trampoline_in data mem = true -> trampoline_in data mem' = true.
Proof.
  unfold trampoline_in. intros Hm [H1 H2]%andb_true_iff. apply andb_true_iff. split; [done|]. rewrite forallb_forall in *.
  intros i Hi. specialize (H2 i Hi). destruct ((8 <=? i) && (i <? 56)) eqn:E; [done|]. cbn [orb] in *. rewrite Hm; [done|].
  apply andb_false_iff in E. unfold in_args. lia.
Qed.

Lemma args_read mem i st : 0 <= i < 256 -> 0 <= st -> st + STACK < 2 ^ 64 ->
  let mem' := write_args start_ap mem i pt st (st + STACK) in
  load64 mem' t_code = start_ap /\ load_bytes 4 mem' t_page_table = pt /\ load64 mem' t_stack_end = st + STACK /\
  read_arg (store64 mem' t_ready 1) t_cpu_id = mkKernelArgAp i pt st (st + STACK) /\
  store64 mem' t_ready 1 t_ready = 1.
Proof.
  intros Hi Hs He mem'. unfold mem', write_args, read_arg.
  assert (L : forall m a v a', a' + 8 <= a \/ a + 8 <= a' -> load64 (store64 m a v) a' = load64 m a') by (intros; by apply load64_store_ne).
  change (t_cpu_id + 8) with t_page_table. change (t_cpu_id + 16) with t_stack_start. change (t_cpu_id + 24) with t_stack_end.
  unfold t_code, t_ready, t_cpu_id, t_page_table, t_stack_start, t_stack_end, TRAMPOLINE in *.
  split; [by rewrite load64_store64|]. split.
  - rewrite (load_bytes_ext 4 _ (store64 mem (0x8000 + 24) pt)).
    + rewrite load32_store64 by lia. apply Z.mod_small. lia.
    + intros j Hj. unfold store64. simpl in Hj. rewrite !store_bytes_outside by lia.
      unfold store_bytes. destruct (Z.leb_spec (0x8000 + 24) (0x8000 + 24 + j)), (Z.ltb_spec (0x8000 + 24 + j) (0x8000 + 24 + 8)); simpl; done || lia.
  - split; [rewrite L, load64_store64 by lia; done|]. split; [|done].
    f_equal; rewrite !L by lia; apply load64_store64; lia.
Qed.

(** They lie in the trampoline. *)
Lemma args_outside mem i st e x : ~ in_args x ->
  write_args start_ap mem i pt st e x = mem x /\ store64 (write_args start_ap mem i pt st e) t_ready 1 x = mem x.
Proof.
  clear Hstart Hpt Hdata Hroot. unfold in_args, write_args, store64, t_code, t_ready, t_cpu_id, t_page_table, t_stack_start, t_stack_end, TRAMPOLINE.
  intros Ho. by rewrite !store_bytes_outside by (simpl; lia).
Qed.

(** [_start_ap] on a processor that has run the trampoline. *)
Lemma start_ap_ok i p h s b fa1 fa2 :
  let m := m_mem (apc_cpu p) in
  entered start_ap pt (b_stack b + STACK) p -> read_arg m t_cpu_id = mkKernelArgAp i pt (b_stack b) (b_stack b + STACK) ->
  0 < i < 256 -> blocks_ok b -> drives l h -> su_statics s = shared_statics ->
  frame_alloc_n fuel (su_frames s) (- (- pcr_size / PAGE_SIZE)) = Done (Some (b_pcr b), fa1) ->
  frame_alloc_n fuel fa1 (DEPENDENT_STACK_SIZE / PAGE_SIZE) = Done (Some (b_fault b), fa2) ->
  exists pa, brought_up i b pa /\
    _start_ap fuel syscall_entry_point pcr_size gdt_off tss_off pcr_before l p h s =
    Done (mkStartup m (CPU_COUNT s) true shared_statics (<[i := idt_of i]> (su_idts s)) fa2 (su_hw s) (su_cr3 s)
      (pa :: su_started s)).
Proof.
  intros m E Harg Hi (B1 & B2 & B3 & B4) Hd Hst F1 F2. unfold _start_ap. rewrite (en_arg _ _ _ _ E). fold m.
  rewrite Harg. cbn [ka_cpu_id ka_stack_end]. cbv zeta. replace (wrap 8 i) with i by (symmetry; apply Z.mod_small; lia).
  rewrite Hst. set (c := mkCpuTables _ _ _ _ _ _).
  destruct (ap_init_gdt (kernel_frames fuel) pcr_size gdt_off tss_off i (b_stack b + STACK) pcr_before s32 scode sdata c
    (su_frames s) (b_pcr b) fa1 F1 ltac:(left; lia)) as (pcr & c' & -> & _ & _ & _ & _ & Hgs & Hmem & Hself & Htop & Hid).
  rewrite Done_bind. cbv beta iota. unfold init_idt, kernel_frames at 1. rewrite F2, Done_bind. cbn [fst snd or_panic].
  unfold DEPENDENT_STACK_SIZE in *.
  rewrite Done_bind, virt_addr_new_ok, Done_bind by (left; lia). rewrite virt_addr_add_ok, !Done_bind by (lia || left; lia).
  cbv beta iota. unfold setup_apic. rewrite (proj2 (Z.eqb_neq i 0)) by lia. cbn [negb].
  rewrite software_enable_reg, !Done_bind by done. cbv beta iota.
  assert (Hbit : forall v, Z.testbit (Z.lor v 1) 0 = true) by (intros v; rewrite Z.lor_spec; apply orb_true_r).
  assert (Hbit8 : forall v, Z.testbit (Z.lor v 0x100) 8 = true) by (intros v; rewrite Z.lor_spec; apply orb_true_r).
  change (m_mem (ct_machine c)) with m in Hmem. rewrite <- Hmem. eexists. split; [|reflexivity].
  split; try done; cbn [st_entry st_arg st_pcr st_tables st_lapic ct_machine self_ref pcr_cpu_id tss_privilege_stack].
  - split; [done|]. apply Hbit.
  - apply Hbit8.
  - change (Z.testbit (put_flag IF true (m_rflags (init_syscall syscall_entry_point (ct_machine c')))) IF = true).
    by rewrite testbit_put_flag.
Qed.

Lemma own_zero h : wrap 8 (own_id l h) = 0.
Proof.
  clear Hstart Hpt Hdata Hroot. unfold own_id, wrap. rewrite Hx. replace (h_id h mod 2 ^ 8 * 2 ^ 24) with (h_id h mod 2 ^ 8 * 2 ^ 16 * 2 ^ 8) by lia. by apply Z.mod_mul.
Qed.

Lemma start_one_ok s e b fa1 fa2 fa3 : drives l (su_hw s) -> responsive fuel (su_hw s) -> 0 < lapic_id e < 256 ->
  h_id (su_hw s) = 0 -> trampoline_in data (su_mem s) = true -> su_statics s = shared_statics -> blocks_ok b ->
  frame_alloc_n fuel (su_frames s) 64 = Done (Some (b_stack b), fa1) ->
  frame_alloc_n fuel fa1 (- (- pcr_size / PAGE_SIZE)) = Done (Some (b_pcr b), fa2) ->
  frame_alloc_n fuel fa2 (DEPENDENT_STACK_SIZE / PAGE_SIZE) = Done (Some (b_fault b), fa3) ->
  exists s' pa, start_next s e = Done s' /\ brought_up (lapic_id e) b pa /\
    su_started s' = pa :: su_started s /\ su_frames s' = fa3 /\ su_statics s' = shared_statics /\
    su_idts s' = <[lapic_id e := idt_of (lapic_id e)]> (su_idts s) /\
    CPU_COUNT s' = wrap 32 (CPU_COUNT s + 1) /\
    h_sent (su_hw s') = startup_message (lapic_id e) :: init_message (lapic_id e) :: h_sent (su_hw s) /\
    drives l (su_hw s') /\ responsive fuel (su_hw s') /\ sent_only (su_hw s) (su_hw s') /\
    su_cr3 s' = pt /\ (forall x, ~ in_args x -> su_mem s' x = su_mem s x).
Proof.
  intros Hd Hr Hi Hid Htr Hst Hb F1 F2 F3. pose proof Hb as (B1 & B2 & _ & _).
  unfold start_one. rewrite lapic_own_id_ok, Done_bind by done. cbv beta iota.
  rewrite own_zero, (proj2 (Z.eqb_neq 0 _)), F1, Done_bind by (done || lia). cbv beta iota. cbn [or_panic]. rewrite Done_bind.
  unfold u64_add. rewrite checked_in, Done_bind by lia. cbv zeta.
  destruct (init_sends l (lapic_id e) ltac:(lia)) as [I1 I2]. destruct (startup_sends l (lapic_id e) ltac:(lia)) as [S1 S2].
  destruct (set_icr_sends fuel _ l _ Hd I1 Hr) as (h1 & -> & M1 & D1 & R1 & N1). rewrite Done_bind.
  destruct (set_icr_sends fuel _ l _ D1 S1 R1) as (h2 & -> & M2 & D2 & R2 & N2). rewrite Done_bind.
  rewrite I2 in M1. rewrite S2, M1 in M2.
  destruct (args_read (su_mem s) (lapic_id e) (b_stack b) ltac:(lia) B1 ltac:(lia)) as (A1 & A2 & A3 & A4 & A5).
  set (mem' := write_args start_ap (su_mem s) (lapic_id e) pt (b_stack b) (b_stack b + STACK)) in *.
  assert (Hid2 : hw_id h2 = 0).
  { unfold hw_id. rewrite (so_id _ _ N2), (so_id _ _ N1), Hid. by destruct (x2apic_mode h2). }
  unfold others_run, started_by. cbn [su_hw su_mem]. rewrite M2. cbn [startup_message init_message msg_delivery msg_dest msg_vector].
  rewrite Hid2, (trampoline_kept (su_mem s)) by (done || intros; by apply args_outside).
  rewrite !Z.eqb_refl, (proj2 (Z.eqb_neq (lapic_id e) 0)) by lia. cbn [Z.eqb Pos.eqb andb negb Z.mul Pos.mul TRAMPOLINE]. cbv zeta.
  set (p0 := in_memory mem' _).
  destruct (trampoline_enters gdtr p0 start_ap pt (b_stack b + STACK) A1 A2 A3) as [E Em]; [lia|].
  rewrite (en_rip _ _ _ _ E), Z.eqb_refl. change (m_mem (apc_cpu p0)) with mem' in Em.
  set (s1 := mkStartup mem' _ _ _ _ _ _ _ _).
  destruct (start_ap_ok (lapic_id e) (trampoline gdtr p0) (lapic_of (lapic_id e)) s1 b fa2 fa3 E) as (pa & Hpa & ->); try done.
  rewrite Done_bind. cbn [su_mem AP_READY]. rewrite Em, A5. cbn [Z.eqb orb negb].
  rewrite phys_addr_new_ok, Done_bind, frame_containing_of_aligned by (done || lia).
  eexists _, pa. split; [reflexivity|]. split; [exact Hpa|].
  cbn [su_started su_frames su_statics su_idts CPU_COUNT su_hw s1]. repeat (split; [done|]). split; [by eapply sent_only_trans|].
  split; [done|]. intros x Ho. cbn [su_mem]. by apply args_outside.
Qed.

(** The code takes the low byte of what it reads for its own id.  A boot
    processor with another id than 0 that finds itself in the table sends INIT to
    itself, and [setup_ap_startup] never returns. *)
Theorem start_self_never_returns s e stack fa : drives l (su_hw s) -> responsive fuel (su_hw s) -> 0 < lapic_id e < 256 ->
  h_id (su_hw s) = lapic_id e -> frame_alloc_n fuel (su_frames s) 64 = Done (Some stack, fa) -> 0 <= stack < 2 ^ 47 ->
  start_next s e = OutOfFuel.
Proof.
  intros Hd Hr Hi Hid Hf Hs. unfold start_one. rewrite lapic_own_id_ok, Done_bind by done. cbv beta iota.
  rewrite own_zero, (proj2 (Z.eqb_neq 0 _)), Hf, Done_bind by (done || lia). cbv beta iota. cbn [or_panic]. rewrite Done_bind.
  unfold u64_add. rewrite checked_in, Done_bind by lia. cbv zeta.
  destruct (init_sends l (lapic_id e) ltac:(lia)) as [I1 I2]. destruct (startup_sends l (lapic_id e) ltac:(lia)) as [S1 S2].
  destruct (set_icr_sends fuel _ l _ Hd I1 Hr) as (h1 & -> & M1 & D1 & R1 & N1). rewrite Done_bind.
  destruct (set_icr_sends fuel _ l _ D1 S1 R1) as (h2 & -> & M2 & D2 & _ & N2). rewrite Done_bind.
  rewrite I2 in M1. rewrite S2, M1 in M2.
  assert (Hid2 : hw_id h2 = lapic_id e).
  { unfold hw_id. rewrite (so_id _ _ N2), (so_id _ _ N1), Hid. destruct (x2apic_mode h2); [done|]. apply Z.mod_small. lia. }
  unfold others_run, started_by. cbn [su_hw su_mem]. rewrite M2. cbn [startup_message init_message msg_delivery msg_dest msg_vector].
  rewrite Hid2, !Z.eqb_refl. by cbn [Z.eqb Pos.eqb andb negb].
Qed.

(** ** All of them *)

(** The processors that are not taken for the boot processor. *)
Definition to_start (own : Z) (lapics : list MadtLocalApic) : list MadtLocalApic :=
  filter (fun e => wrap 8 own <> lapic_id e) lapics.

Lemma to_start_zero h lapics : to_start (own_id l h) lapics = filter (fun e => lapic_id e <> 0) lapics.
Proof. unfold to_start. rewrite own_zero. apply list_filter_iff. intros e. by split; intros H ?; apply H. Qed.

Definition startup_messages (es : list MadtLocalApic) : list Message :=
  es ≫= (fun e => [init_message (lapic_id e); startup_message (lapic_id e)]).

Definition all_requests (es : list MadtLocalApic) : list Z := es ≫= (fun _ => ap_requests).
Definition all_answers (bs : list ApBlocks) : list (option Z * Z) := bs ≫= ap_answers.

Lemma alloc_run_three fa c1 c2 c3 counts rs fa' :
  alloc_run fuel fa (c1 :: c2 :: c3 :: counts) = Done (rs, fa') ->
  exists r1 r2 r3 fa1 fa2 fa3 rs', frame_alloc_n fuel fa c1 = Done (r1, fa1) /\ frame_alloc_n fuel fa1 c2 = Done (r2, fa2) /\
    frame_alloc_n fuel fa2 c3 = Done (r3, fa3) /\ alloc_run fuel fa3 counts = Done (rs', fa') /\
    rs = (r1, c1) :: (r2, c2) :: (r3, c3) :: rs'.
Proof.
  cbn [alloc_run]. intros H. apply bind_Done_1 in H as ([r1 fa1] & E1 & H). apply bind_Done_1 in H as ([rs1 fb1] & H1 & H).
  apply bind_Done_1 in H1 as ([r2 fa2] & E2 & H1). apply bind_Done_1 in H1 as ([rs2 fb2] & H2 & H1).
  apply bind_Done_1 in H2 as ([r3 fa3] & E3 & H2). apply bind_Done_1 in H2 as ([rs3 fb3] & H3 & H2).
  injection H as <- <-. injection H1 as <- <-. injection H2 as <- <-. by exists r1, r2, r3, fa1, fa2, fa3, rs3.
Qed.

Lemma start_all lapics : forall s bs fa',
  drives l (su_hw s) -> responsive fuel (su_hw s) -> h_id (su_hw s) = 0 -> trampoline_in data (su_mem s) = true ->
  su_statics s = shared_statics ->
  let es := to_start (own_id l (su_hw s)) lapics in
  Forall (fun e => 0 < lapic_id e < 256) es ->
  alloc_run fuel (su_frames s) (all_requests es) = Done (all_answers bs, fa') -> Forall blocks_ok bs ->
  exists s' pas, foldM start_next s lapics = Done s' /\
    Forall3 (fun e b pa => brought_up (lapic_id e) b pa) es bs pas /\
    su_started s' = rev pas ++ su_started s /\
    h_sent (su_hw s') = rev (startup_messages es) ++ h_sent (su_hw s) /\
    drives l (su_hw s') /\ sent_only (su_hw s) (su_hw s') /\ su_statics s' = shared_statics /\ su_frames s' = fa' /\
    (su_cr3 s = pt -> su_cr3 s' = pt) /\ (forall x, ~ in_args x -> su_mem s' x = su_mem s x) /\
    (forall i, i ∉ map lapic_id es -> su_idts s' !! i = su_idts s !! i).
Proof.
  induction lapics as [|e lapics IH]; intros s bs fa' Hd Hr Hid Htr Hst es Hids Hrun Hbs.
  { cbn in Hrun. injection Hrun as Hs <-. destruct bs; [|done]. exists s, []. cbn. by repeat constructor. }
  unfold es in *. clear es. unfold to_start in *. rewrite filter_cons in *.
  set (own := own_id l (su_hw s)) in *. cbn [foldM]. case_decide as Hown.
  - apply Forall_cons in Hids as [Hi Hids].
    apply alloc_run_three in Hrun as (r1 & r2 & r3 & fa1 & fa2 & fa3 & rs & E1 & E2 & E3 & Hrun & Hrs).
    destruct bs as [|b bs]; [done|]. injection Hrs as <- <- <- <-. apply Forall_cons in Hbs as [Hb Hbs].
    destruct (start_one_ok s e b fa1 fa2 fa3 Hd Hr Hi Hid Htr Hst Hb E1 E2 E3)
      as (s1 & pa & -> & B1 & En1 & F1 & St1 & I1 & _ & M1 & D1 & R1 & N1 & C1 & X1). rewrite Done_bind.
    assert (Hown1 : own_id l (su_hw s1) = own) by (unfold own, own_id; by rewrite (so_id _ _ N1)).
    destruct (IH s1 bs fa' D1 R1 ltac:(by rewrite (so_id _ _ N1)) (trampoline_kept _ _ X1 Htr) St1) as (s2 & pas & E & B2 & En2 & M2 & D2 & N2 & S2 & F2 & C2 & X2 & I2); [by rewrite Hown1|by rewrite Hown1, F1|done|].
    rewrite Hown1 in *. exists s2, (pa :: pas). split; [done|]. split; [by constructor|].
    split; [rewrite En2, En1; cbn [rev]; by rewrite <- app_assoc|].
    split; [rewrite M2, M1; cbn [startup_messages mbind list_bind app rev]; by rewrite <- !app_assoc|].
    split; [exact D2|]. split; [by eapply sent_only_trans|]. split; [exact S2|]. split; [exact F2|].
    split; [by intros _; apply C2|]. split; [intros x Ho; by rewrite X2, X1|].
    intros i Hni. cbn [map] in Hni. apply not_elem_of_cons in Hni as [Hn1 Hn2]. rewrite I2, I1 by done. by apply lookup_insert_ne.
  - assert (E1 : start_next s e = Done (set_hw (su_hw s) s)).
    { unfold start_one. rewrite lapic_own_id_ok, Done_bind by done. cbv beta iota. fold own. by rewrite Hown, Z.eqb_refl. }
    rewrite E1, Done_bind. by apply (IH (set_hw (su_hw s) s) bs fa').
Qed.

Lemma requests_positive es : 0 < pcr_size -> Forall (fun c => 0 < c) (all_requests es).
Proof.
  clear Hstart Hpt Hdata Hroot. intros Hsz. apply Forall_forall. intros c Hc. apply list_elem_of_bind in Hc as (e & Hc & _). unfold ap_requests, PAGE_SIZE in Hc.
  change (DEPENDENT_STACK_SIZE / 4096) with 16 in Hc.
  rewrite !elem_of_cons, elem_of_nil in Hc. Z.to_euclidean_division_equations. lia.
Qed.

Lemma all_answers_ok bs base low right live : 0 <= base + low -> base + right < 2 ^ 47 ->
  Forall (good_block base low right live) (blocks (all_answers bs)) -> Forall blocks_ok bs.
Proof.
  clear Hstart Hpt Hdata Hroot. intros H0 H1. induction bs as [|b bs IH]; [constructor|]. intros H.
  change (blocks (all_answers (b :: bs))) with ((b_stack b, 64) :: (b_pcr b, - (- pcr_size / PAGE_SIZE)) ::
    (b_fault b, DEPENDENT_STACK_SIZE / PAGE_SIZE) :: blocks (all_answers bs)) in H.
  rewrite !Forall_cons in H. destruct H as ((_ & L1 & R1 & _) & _ & (_ & L3 & R3 & _) & H). constructor; [|by apply IH].
  unfold blocks_ok, DEPENDENT_STACK_SIZE, PAGE_SIZE in *. cbn [fst snd] in *. change (65536 / 4096) with 16 in R3. lia.
Qed.

(** C34. On a boot processor with id 0, starting the other processors returns:
    the trampoline lies at 0x8000, and every listed processor with another id was
    sent INIT and STARTUP in that order, ran it from there and reached [_start_ap]
    in long mode with paging on the kernel's table, interrupts off and its own id
    as argument, and ended up with its own control region, stacks, system call
    entry and enabled controller.  The memory of all of them does not overlap.
    The code takes the processor with id 0 for the boot processor. *)
Theorem setup_ap_startup_brings_up lapics s bs fa' :
  drives l (su_hw s) -> responsive fuel (su_hw s) -> h_id (su_hw s) = 0 -> su_statics s = shared_statics -> 0 < pcr_size ->
  fa_wf (su_frames s) -> base_address (su_frames s) + phys_mem_right_boundary (su_frames s) < 2 ^ 47 ->
  Forall (fun e => fits 8 (lapic_id e)) lapics ->
  let es := filter (fun e => lapic_id e <> 0) lapics in
  alloc_run fuel (su_frames s) (all_requests es) = Done (all_answers bs, fa') ->
  exists s' pas,
    setup_ap_startup fuel data gdtr start_ap syscall_entry_point reset lapic_of pcr_size gdt_off tss_off pcr_before
      lapics pt l s = Done s' /\
    (forall i b, data !! i = Some b -> (i < 8 \/ 56 <= i)%nat -> su_mem s' (0x8000 + Z.of_nat i) = b) /\
    Forall3 (fun e b pa => brought_up (lapic_id e) b pa) es bs pas /\
    su_started s' = rev pas ++ su_started s /\
    h_sent (su_hw s') = rev (startup_messages es) ++ h_sent (su_hw s) /\
    StronglySorted block_before (blocks (all_answers bs)).
Proof.
  intros Hd Hr Hid Hst Hsz Hwf Hb Hids es Hrun.
  pose proof (requests_positive es Hsz) as Hpos.
  destruct (alloc_run_Done fuel (su_frames s) _ _ _ Hwf Hpos Hrun) as [HS HF].
  apply all_answers_ok in HF; [| |done].
  2: { destruct Hwf as [Hit _ _ _ Hba Hb0]. pose proof (wf_value _ Hit). lia. }
  pose proof (to_start_zero (su_hw s) lapics : to_start (own_id l (su_hw s)) lapics = es) as Hes.
  assert (Hes' : Forall (fun e => 0 < lapic_id e < 256) es).
  { apply Forall_forall. intros e [Hne Hin]%list_elem_of_filter. rewrite Forall_forall in Hids. specialize (Hids e Hin). unfold fits in Hids. lia. }
  destruct (start_all lapics (mkStartup (copy_trampoline data (su_mem s)) (CPU_COUNT s) (AP_READY s) (su_statics s)
    (su_idts s) (su_frames s) (su_hw s) (su_cr3 s) (su_started s)) bs fa') as (s' & pas & E & B & En & M & _ & _ & _ & _ & _ & Hm & _); cbn [su_hw su_mem su_frames];
    rewrite ?Hes; try done; [apply trampoline_copied|]. cbn [su_hw su_mem su_started] in *. rewrite Hes in *.
  exists s', pas. split; [done|]. split; [|done]. intros i b Hi Hout. change 0x8000 with TRAMPOLINE. rewrite Hm by (unfold in_args; lia).
  pose proof (lookup_lt_Some _ _ _ Hi). unfold copy_trampoline. rewrite (proj2 (Z.leb_le _ _)), (proj2 (Z.ltb_lt _ _)) by lia. cbn [andb].
  replace (Z.to_nat (TRAMPOLINE + Z.of_nat i - TRAMPOLINE)) with i by lia. by rewrite Hi.
Qed.
End Spec.

(** ** An instance: the second of two processors *)

#[local] Existing Instance x86_addr_model.
#[local] Existing Instance x86_addr_model_spec.
#[local] Existing Instance x86_virt_model.
#[local] Existing Instance x86_virt_model_spec.
#[local] Existing Instance list_gdt.
#[local] Existing Instance list_gdt_spec.

Definition reset_ap : Ap := mkAp (mkMachine (fun _ => 0) 0 0x202 0x800 0 (fun _ => 0) 0 (fun _ => 0)) 0x60000010 0 0 0 (mkFpu 0x40 0 0x5555).

(** An image of the trampoline as the assembler makes it, with [gdtr] behind the
    code. *)
Definition trampoline_image : list Z :=
  [0xeb; 0x36; 0x90; 0x90; 0x90; 0x90; 0x90; 0x90; 0; 0; 0; 0; 0; 0; 0; 0; 0; 0; 0; 0; 0; 0; 0; 0;
   0; 0; 0; 0; 0; 0; 0; 0; 0; 0; 0; 0; 0; 0; 0; 0; 0; 0; 0; 0; 0; 0; 0; 0;
   0; 0; 0; 0; 0; 0; 0; 0; 0xfa; 0x31; 0xc0; 0x8e; 0xd8; 0x8e; 0xc0; 0x8e; 0xd0; 0xbc; 0; 0; 0x66; 0x8b; 0x3e; 0x18;
   0x80; 0xf; 0x22; 0xdf; 0xf; 0x20; 0xc0; 0x24; 0xf3; 0xc; 0x22; 0xf; 0x22; 0xc0; 0xf; 0x20; 0xe0; 0x66; 0xd; 0xb0; 2; 0; 0; 0xf;
   0x22; 0xe0; 0xdb; 0xe3; 0xf; 1; 0x16; 0xc9; 0x80; 0x66; 0xb9; 0x80; 0; 0; 0xc0; 0xf; 0x32; 0x66; 0xd; 0; 9; 0; 0; 0xf;
   0x30; 0xf; 0x20; 0xc3; 0x66; 0x81; 0xcb; 1; 0; 1; 0x80; 0xf; 0x22; 0xc3; 0xea; 0x8b; 0x80; 8; 0; 0xb8; 0x10; 0; 0; 0;
   0x48; 0x8e; 0xd8; 0x48; 0x8e; 0xc0; 0x48; 0x8e; 0xe0; 0x48; 0x8e; 0xe8; 0x48; 0x8e; 0xd0; 0x48; 0x8b; 0xc; 0x25; 0x28; 0x80; 0; 0; 0x48;
   0x8d; 0xa1; 0; 0xff; 0xff; 0xff; 0xbf; 0x10; 0x80; 0; 0; 0x48; 0x8b; 4; 0x25; 0x30; 0x80; 0; 0; 0x48; 0xc7; 4; 0x25; 8;
   0x80; 0; 0; 1; 0; 0; 0; 0xff; 0xe0; 0x19; 0; 0xd3; 0x80; 0; 0; 0; 0; 0; 0; 0; 0; 0; 0; 0;
   0; 0; 0; 0; 0; 0; 0; 0; 0x98; 0x20; 0; 0; 0; 0; 0; 0; 0x92; 0; 0].
Definition image_gdtr : Z := 0x80c9.

Definition startup_state : Startup (list Z) :=
  mkStartup (fun _ => 0) 1 false (mkGdtStatics (Some 0x18) (Some CS_SEL) (Some SS_SEL)) ∅
    (mkFrameAlloc example_iter 0 0x1000000 PAGE_SIZE) (qemu_lapic 0xfee00900 false 0) 0x101000 [].
Definition startup_lapics : list MadtLocalApic := [mkMadtLocalApic 0 0; mkMadtLocalApic 1 1].

Lemma setup_ap_startup_brings_up_witness :
  exists s' pa, setup_ap_startup 200 trampoline_image image_gdtr 0xffffff8000012340 0xffffff8000023450 (fun _ => reset_ap)
      (qemu_lapic 0xfee00900 false) 0x3000 0x10 0x800 blank_pcr startup_lapics 0x101000
      (mkLocalApic 0xfee00000 false) startup_state = Done s' /\
    su_started s' = [pa] /\ st_arg pa = mkKernelArgAp 1 0x101000 0x180000 0x1c0000 /\
    get RSP (apc_cpu (st_entry pa)) = 0x1bff00 /\ self_ref (st_pcr pa) = 0x1c0000 /\ su_mem s' 0x8038 = 0xfa.
Proof.
  destruct (setup_ap_startup_brings_up 200 trampoline_image ltac:(apply (bool_decide_unpack _); by vm_compute) image_gdtr 0xffffff8000012340 0xffffff8000023450 ltac:(lia) (fun _ => reset_ap)
    (qemu_lapic 0xfee00900 false) 0x3000 0x10 0x800 blank_pcr
    (mkLocalApic 0xfee00000 false) ltac:(done) ltac:(intros i; split; [done|]; split; [done|]; apply Z.leb_le; by vm_compute)
    0x101000 ltac:(lia) ltac:(by exists 0x101) 0x18 CS_SEL SS_SEL startup_lapics startup_state [mkApBlocks 0x180000 0x1c0000 0x1c3000]
    (match alloc_run 200 (su_frames startup_state) (ap_requests 0x3000) with Done (_, fa) => fa | _ => su_frames startup_state end))
    as (s' & pas & E & Hm & B & En & _).
  - split; [done|]. split; [done|]. apply Z.leb_le. by vm_compute.
  - split; simpl; lia.
  - done.
  - done.
  - done.
  - constructor; simpl; try reflexivity; try lia; [apply example_iter_wf|exists 0x100; reflexivity|exists 0; reflexivity].
  - simpl. lia.
  - repeat constructor; simpl; lia.
  - by vm_compute.
  - change (filter _ startup_lapics) with [mkMadtLocalApic 1 1] in B.
    apply Forall3_cons_inv_l in B as (? & ? & pa & ? & [= <- <-] & -> & H1 & H3).
    inversion H3; subst.
    exists s', pa. split; [exact E|]. split; [exact En|]. split; [apply (bu_arg _ _ _ _ _ _ H1)|].
    split; [apply (en_rsp _ _ _ _ (bu_entered _ _ _ _ _ _ H1))|]. split; [apply (bu_pcr _ _ _ _ _ _ H1)|].
    apply (Hm 56%nat); [done|lia].
Defined.
