(* ===== verification/ApHandshake.v ===== *)
(** * The processors running at the same time

    ApStartup.v runs a started processor at the point where the boot processor
    begins to wait for it.  Here the boot processor in [setup_ap_startup]
    ([kernel/src/acpi/ap_startup.rs]) and the processors it starts
    ([kernel/src/asm/trampoline.asm], [_start_ap] in [kernel/src/main.rs]) take
    their steps in any order on one memory and one set of statics: the boot
    processor one statement at a time, a started processor one instruction of
    the trampoline and then one call of [_start_ap] at a time.  Every such
    execution is shown to end as ApStartup.v says. *)

From S2P Require Import Prelude Platform Shared Paging Machine Interrupts Descriptors KFrameAlloc LocalApic ApStartup.

(** ** Where a processor is *)

(** The boot processor in the loop of [setup_ap_startup], with the entries of
    the table that are left. *)
Inductive BspPc : Type :=
  | BspNext (todo : list MadtLocalApic)
  | BspArgs (e : MadtLocalApic) (todo : list MadtLocalApic) (stack_start stack_end : Z)
  | BspReset (e : MadtLocalApic) (todo : list MadtLocalApic)
  | BspInit (e : MadtLocalApic) (todo : list MadtLocalApic)
  | BspStartup (e : MadtLocalApic) (todo : list MadtLocalApic)
  | BspWaitTrampoline (todo : list MadtLocalApic)
  | BspWaitAp (todo : list MadtLocalApic)
  | BspCr3 (todo : list MadtLocalApic)
  | BspDone.

(** Another processor, with its id [d]: in the trampoline with the instructions
    left, before each of the calls of [_start_ap], or in its last loop. *)
Inductive ApPc (G : Type) : Type :=
  | ApBoot (d : Z) (p : Ap) (code : list (Ap -> Ap))
  | ApGdt (d : Z) (p : Ap) (arg : KernelArgAp)
  | ApIdt (d : Z) (p : Ap) (arg : KernelArgAp) (pcr : ProcessorControlRegion G) (c : CpuTables)
  | ApLapic (d : Z) (p : Ap) (arg : KernelArgAp) (pcr : ProcessorControlRegion G) (c : CpuTables)
  | ApSyscall (p : Ap) (arg : KernelArgAp) (pcr : ProcessorControlRegion G) (c : CpuTables) (h : LapicHw)
  | ApReady (r : Started G)
  | ApSti (r : Started G)
  | ApSpin (r : Started G).
Arguments ApBoot {G}.
Arguments ApGdt {G}.
Arguments ApIdt {G}.
Arguments ApLapic {G}.
Arguments ApSyscall {G}.
Arguments ApReady {G}.
Arguments ApSti {G}.
Arguments ApSpin {G}.

(** All processors, the last started one first, and what they share. *)
Record Config (G : Type) : Type := mkConfig { cf_bsp : BspPc; cf_aps : list (ApPc G); cf_shared : Startup G }.
Arguments mkConfig {G}.
Arguments cf_bsp {G}.
Arguments cf_aps {G}.
Arguments cf_shared {G}.

Section Steps.
Context {X : X86Addr} {V : X86Virt} {G : Type} {GO : Gdt G}.
Context (fuel : nat) (trampoline_data : list Z) (gdtr start_ap syscall_entry_point : Z).
Context (reset : Z -> Ap) (lapic_of : Z -> LapicHw).
Context (pcr_size gdt_off tss_off : Z) (pcr_before : ProcessorControlRegion G).
Context (l : LocalApic) (pt : Z).

Definition with_mem (mem : Z -> Z) (s : Startup G) : Startup G :=
  mkStartup mem (CPU_COUNT s) (AP_READY s) (su_statics s) (su_idts s) (su_frames s) (su_hw s) (su_cr3 s) (su_started s).
Definition with_ready (b : bool) (s : Startup G) : Startup G :=
  mkStartup (su_mem s) (CPU_COUNT s) b (su_statics s) (su_idts s) (su_frames s) (su_hw s) (su_cr3 s) (su_started s).
Definition with_statics (st : GdtStatics) (fa : LinearIncFrameAllocator) (s : Startup G) : Startup G :=
  mkStartup (su_mem s) (CPU_COUNT s) (AP_READY s) st (su_idts s) fa (su_hw s) (su_cr3 s) (su_started s).
Definition with_idts (idts : gmap Z Idt) (fa : LinearIncFrameAllocator) (s : Startup G) : Startup G :=
  mkStartup (su_mem s) (CPU_COUNT s) (AP_READY s) (su_statics s) idts fa (su_hw s) (su_cr3 s) (su_started s).
Definition with_cr3 (v : Z) (s : Startup G) : Startup G :=
  mkStartup (su_mem s) (CPU_COUNT s) (AP_READY s) (su_statics s) (su_idts s) (su_frames s) (su_hw s) v (su_started s).
Definition with_started (ps : list (Started G)) (s : Startup G) : Startup G :=
  mkStartup (su_mem s) (CPU_COUNT s) (AP_READY s) (su_statics s) (su_idts s) (su_frames s) (su_hw s) (su_cr3 s) ps.
(** A processor was counted and its stack allocated. *)
Definition with_stack (h : LapicHw) (fa : LinearIncFrameAllocator) (s : Startup G) : Startup G :=
  mkStartup (su_mem s) (wrap 32 (CPU_COUNT s + 1)) (AP_READY s) (su_statics s) (su_idts s) fa h (su_cr3 s) (su_started s).

(** [interrupts::enable] on a processor that is ready. *)
Definition started_sti (r : Started G) : Started G :=
  let c := st_tables r in
  mkStarted (st_entry r) (st_arg r) (st_pcr r)
    (mkCpuTables (sti (ct_machine c)) (ct_ds c) (ct_es c) (ct_gs c) (ct_tr c) (ct_cr0 c)) (st_lapic r).

(** One step of a started processor. *)
Definition ap_step (a : ApPc G) (s : Startup G) : outcome (ApPc G * Startup G) :=
  match a with
  | ApBoot d p (i :: code) =>
      let p := i (in_memory (su_mem s) p) in
      Done (ApBoot d p code, with_mem (m_mem (apc_cpu p)) s)
  | ApBoot d p [] =>
      if m_rip (apc_cpu p) =? start_ap then Done (ApGdt d p (read_arg (su_mem s) (get RDI (apc_cpu p))), s) else OutOfFuel
  | ApGdt d p arg =>
      let c := mkCpuTables (set_memory (su_mem s) (apc_cpu p)) (apc_data p) (apc_data p) (apc_data p) 0 (apc_cr0 p) in
      '(pcr, statics, c, fa) ← init_gdt (kernel_frames fuel) pcr_size gdt_off tss_off (wrap 8 (ka_cpu_id arg)) (ka_stack_end arg)
        pcr_before (su_statics s) c (su_frames s);
      Done (ApIdt d p arg pcr c, with_mem (m_mem (ct_machine c)) (with_statics statics fa s))
  | ApIdt d p arg pcr c =>
      '(idts, pcr, fa) ← init_idt (kernel_frames fuel) (wrap 8 (ka_cpu_id arg)) (su_idts s) pcr (su_frames s);
      Done (ApLapic d p arg pcr c, with_idts idts fa s)
  | ApLapic d p arg pcr c =>
      '(_, h) ← setup_apic 0 (wrap 8 (ka_cpu_id arg)) l (lapic_of d);
      Done (ApSyscall p arg pcr c h, s)
  | ApSyscall p arg pcr c h =>
      let m := init_syscall syscall_entry_point (set_memory (su_mem s) (ct_machine c)) in
      let c := mkCpuTables m (ct_ds c) (ct_es c) (ct_gs c) (ct_tr c) (ct_cr0 c) in
      Done (ApReady (mkStarted p arg pcr c h), with_mem (m_mem m) s)
  | ApReady r => Done (ApSti r, with_ready true s)
  | ApSti r => Done (ApSpin (started_sti r), s)
  | ApSpin r => Done (ApSpin r, s)
  end.

(** The processor that the last two messages wake, at the trampoline. *)
Definition woken (s : Startup G) : list (ApPc G) :=
  match started_by trampoline_data (su_hw s) (su_mem s) with
  | Some d => [ApBoot d (in_memory (su_mem s) (reset d)) (startup_ap gdtr ++ long_mode_ap)]
  | None => []
  end.

(** One step of the boot processor, with the processors it wakes. *)
Definition bsp_step (pc : BspPc) (s : Startup G) : outcome (BspPc * list (ApPc G) * Startup G) :=
  match pc with
  | BspNext [] => Done (BspDone, [], s)
  | BspNext (e :: todo) =>
      '(own, h) ← lapic_own_id l (su_hw s);
      if wrap 8 own =? lapic_id e then Done (BspNext todo, [], set_hw h s)
      else
        '(frame, fa) ← frame_alloc_n fuel (su_frames s) 64;
        stack_start ← or_panic frame;
        stack_end ← u64_add stack_start (64 * 4096);
        Done (BspArgs e todo stack_start stack_end, [], with_stack h fa s)
  | BspArgs e todo stack_start stack_end =>
      Done (BspReset e todo, [], with_mem (write_args start_ap (su_mem s) (lapic_id e) pt stack_start stack_end) s)
  | BspReset e todo => Done (BspInit e todo, [], with_ready false s)
  | BspInit e todo =>
      h ← set_icr fuel (icr_init l (lapic_id e)) l (su_hw s);
      Done (BspStartup e todo, [], set_hw h s)
  | BspStartup e todo =>
      h ← set_icr fuel (icr_startup l (lapic_id e)) l (su_hw s);
      Done (BspWaitTrampoline todo, woken (set_hw h s), set_hw h s)
  | BspWaitTrampoline todo =>
      Done (if su_mem s t_ready =? 0 then BspWaitTrampoline todo else BspWaitAp todo, [], s)
  | BspWaitAp todo => Done (if AP_READY s then BspCr3 todo else BspWaitAp todo, [], s)
  | BspCr3 todo =>
      root ← phys_addr_new pt;
      Done (BspNext todo, [], with_cr3 (frame_containing_address root) s)
  | BspDone => Done (BspDone, [], s)
  end.

(** Any processor takes its next step. *)
Inductive step : Config G -> Config G -> Prop :=
  | step_bsp pc aps s pc' new s' :
      bsp_step pc s = Done (pc', new, s') -> step (mkConfig pc aps s) (mkConfig pc' (new ++ aps) s')
  | step_ap pc l1 a l2 s a' s' :
      ap_step a s = Done (a', s') -> step (mkConfig pc (l1 ++ a :: l2) s) (mkConfig pc (l1 ++ a' :: l2) s').

(** [setup_ap_startup] has copied the trampoline. *)
Definition begin_startup (lapics : list MadtLocalApic) (s : Startup G) : Config G :=
  mkConfig (BspNext lapics) [] (with_mem (copy_trampoline trampoline_data (su_mem s)) s).
End Steps.

(** ** What is left to do, one processor after the other *)

(** A processor in its last statements. *)
Definition settled {G} (a : ApPc G) : bool := match a with ApSti _ | ApSpin _ => true | _ => false end.
Definition settled_as {G} (a : ApPc G) : list (Started G) :=
  match a with ApSti r => [started_sti r] | ApSpin r => [r] | _ => [] end.

Section Rest.
Context {X : X86Addr} {V : X86Virt} {G : Type} {GO : Gdt G}.
Context (fuel : nat) (trampoline_data : list Z) (gdtr start_ap syscall_entry_point : Z).
Context (reset : Z -> Ap) (lapic_of : Z -> LapicHw).
Context (pcr_size gdt_off tss_off : Z) (pcr_before : ProcessorControlRegion G).
Context (l : LocalApic) (pt : Z).

Abbreviation ap_step := (ap_step fuel start_ap syscall_entry_point lapic_of pcr_size gdt_off tss_off pcr_before l).
Abbreviation bsp_step := (bsp_step (X := X) (G := G) fuel trampoline_data gdtr start_ap reset l pt).
Abbreviation woken := (woken (G := G) trampoline_data gdtr reset).
Abbreviation step := (step fuel trampoline_data gdtr start_ap syscall_entry_point reset lapic_of pcr_size gdt_off tss_off pcr_before l pt).
Abbreviation start_ap_of := (_start_ap fuel syscall_entry_point pcr_size gdt_off tss_off pcr_before l).
Abbreviation others_run := (others_run fuel trampoline_data gdtr start_ap syscall_entry_point reset lapic_of pcr_size gdt_off tss_off pcr_before l).
Abbreviation start_next := (start_one fuel trampoline_data gdtr start_ap syscall_entry_point reset lapic_of pcr_size gdt_off tss_off pcr_before l pt).

(** The rest of [_start_ap] on its own. *)
Definition syscall_rest (p : Ap) (arg : KernelArgAp) (pcr : ProcessorControlRegion G) (c : CpuTables) (h : LapicHw) (s : Startup G)
  : outcome (Startup G) :=
  let m := sti (init_syscall syscall_entry_point (ct_machine c)) in
  let c := mkCpuTables m (ct_ds c) (ct_es c) (ct_gs c) (ct_tr c) (ct_cr0 c) in
  Done (mkStartup (m_mem m) (CPU_COUNT s) true (su_statics s) (su_idts s) (su_frames s) (su_hw s) (su_cr3 s)
    (mkStarted p arg pcr c h :: su_started s)).
Definition lapic_rest (d : Z) (p : Ap) (arg : KernelArgAp) (pcr : ProcessorControlRegion G) (c : CpuTables) (s : Startup G)
  : outcome (Startup G) :=
  '(_, h) ← setup_apic 0 (wrap 8 (ka_cpu_id arg)) l (lapic_of d); syscall_rest p arg pcr c h s.
Definition idt_rest (d : Z) (p : Ap) (arg : KernelArgAp) (pcr : ProcessorControlRegion G) (c : CpuTables) (s : Startup G)
  : outcome (Startup G) :=
  '(idts, pcr, fa) ← init_idt (kernel_frames fuel) (wrap 8 (ka_cpu_id arg)) (su_idts s) pcr (su_frames s);
  lapic_rest d p arg pcr c (with_idts idts fa s).
Definition gdt_rest (d : Z) (p : Ap) (arg : KernelArgAp) (s : Startup G) : outcome (Startup G) :=
  let c := mkCpuTables (apc_cpu p) (apc_data p) (apc_data p) (apc_data p) 0 (apc_cr0 p) in
  '(pcr, statics, c, fa) ← init_gdt (kernel_frames fuel) pcr_size gdt_off tss_off (wrap 8 (ka_cpu_id arg)) (ka_stack_end arg)
    pcr_before (su_statics s) c (su_frames s);
  idt_rest d p arg pcr c (with_statics statics fa s).

Lemma start_ap_split d p s : start_ap_of p (lapic_of d) s = gdt_rest d p (read_arg (m_mem (apc_cpu p)) (get RDI (apc_cpu p))) s.
Proof.
  unfold _start_ap, gdt_rest, idt_rest, lapic_rest, syscall_rest. cbv zeta.
  destruct (init_gdt _ _ _ _ _ _ _ _ _ _) as [[[[pcr st] c] fa]| |]; [|done..]. rewrite !Done_bind. cbv beta iota.
  cbn [su_idts su_frames with_statics].
  destruct (init_idt _ _ _ _ _) as [[[idts pcr'] fa']| |]; [|done..]. by rewrite !Done_bind.
Qed.

(** What a processor has left to do. *)
Definition ap_rest (a : ApPc G) (s : Startup G) : outcome (Startup G) :=
  match a with
  | ApBoot d p code =>
      let p := run code p in
      if m_rip (apc_cpu p) =? start_ap then start_ap_of p (lapic_of d) s else OutOfFuel
  | ApGdt d p arg => gdt_rest d p arg s
  | ApIdt d p arg pcr c => idt_rest d p arg pcr c s
  | ApLapic d p arg pcr c => lapic_rest d p arg pcr c s
  | ApSyscall p arg pcr c h => syscall_rest p arg pcr c h s
  | ApReady r => Done (with_started (started_sti r :: su_started s) (with_ready true s))
  | ApSti _ | ApSpin _ => Done s
  end.

(** ** A step of a started processor *)

(** It works on the shared memory, and its instructions change nothing there
    but the flag of the trampoline. *)
Definition flags_only (i : Ap -> Ap) : Prop :=
  forall p, m_mem (apc_cpu (i p)) = m_mem (apc_cpu p) \/ m_mem (apc_cpu (i p)) = store64 (m_mem (apc_cpu p)) t_ready 1.

Definition on_memory (a : ApPc G) (mem : Z -> Z) : Prop :=
  match a with
  | ApBoot _ p code => m_mem (apc_cpu p) = mem /\ Forall flags_only code
  | ApGdt _ p _ => m_mem (apc_cpu p) = mem
  | ApIdt _ _ _ _ c | ApLapic _ _ _ _ c | ApSyscall _ _ _ c _ => m_mem (ct_machine c) = mem
  | _ => True
  end.

Lemma trampoline_flags_only : Forall flags_only (startup_ap gdtr ++ long_mode_ap).
Proof.
  repeat (apply Forall_cons_2; [intros p; by left|]). apply Forall_cons_2; [intros p; by right|].
  repeat (apply Forall_cons_2; [intros p; by left|]). by apply Forall_nil_2.
Qed.

Lemma in_memory_id p : in_memory (m_mem (apc_cpu p)) p = p.
Proof. by destruct p as [[] ? ? ? ? ?]. Qed.
Lemma set_memory_id m : set_memory (m_mem m) m = m.
Proof. by destruct m. Qed.

Lemma init_gdt_memory cpu_id top p st c fa pcr st' c' fa' :
  init_gdt (kernel_frames fuel) pcr_size gdt_off tss_off cpu_id top p st c fa = Done (pcr, st', c', fa') ->
  m_mem (ct_machine c') = m_mem (ct_machine c).
Proof.
  unfold init_gdt. intros H. repeat (apply bind_Done_1 in H as (? & _ & H); try (case_match; subst)). by injection H as _ _ <- _.
Qed.

(** The shared state as the sequential model has it: with the settled
    processors counted as started. *)
Abbreviation seen ps s := (with_started (ps ++ su_started s) s).

(** A step changes neither what the boot processor drives nor the list, and
    leaves the same work for the processor itself. *)
Record ap_steps (a : ApPc G) (s : Startup G) (a' : ApPc G) (s' : Startup G) : Prop := {
  as_memory : on_memory a' (su_mem s');
  as_kept : su_started s' = su_started s;
  as_flag : su_mem s t_ready <> 0 -> su_mem s' t_ready <> 0;
  as_ready : AP_READY s = settled a -> AP_READY s' = settled a';
  as_rest ps : ap_rest a' (seen (settled_as a' ++ ps) s') = ap_rest a (seen (settled_as a ++ ps) s)
}.

Lemma ap_step_steps a s a' s' : on_memory a (su_mem s) -> ap_step a s = Done (a', s') -> ap_steps a s a' s'.
Proof.
  destruct a as [d p [|i code]|d p arg|d p arg pcr c|d p arg pcr c|p arg pcr c h|r|r|r]; cbn [on_memory ApHandshake.ap_step]; intros Hm H.
  - destruct Hm as [Hm _]. destruct (m_rip (apc_cpu p) =? start_ap) eqn:E; [|done]. injection H as <- <-. split; try done.
    intros ps. cbn [ap_rest run fold_left]. rewrite E, start_ap_split. by rewrite Hm.
  - destruct Hm as [Hm Hc]. apply Forall_cons in Hc as [Hi Hc]. rewrite <- Hm, in_memory_id in H. injection H as <- <-. split; try done.
    cbn [su_mem with_mem]. destruct (Hi p) as [->| ->]; rewrite Hm; done.
  - rewrite <- Hm, set_memory_id in H. apply bind_Done_1 in H as ([[[pcr st] c] fa] & E & H). injection H as <- <-.
    pose proof (init_gdt_memory _ _ _ _ _ _ _ _ _ _ E) as Hg. cbn [ct_machine] in Hg. split; try done.
    + cbn [su_mem with_mem with_statics]. by rewrite Hg, Hm.
    + intros ps. cbn [ap_rest settled_as app]. unfold gdt_rest. cbn [su_statics su_frames with_started with_mem with_statics].
      rewrite E, Done_bind. cbv beta iota. unfold with_statics, with_started, with_mem.
      cbn [su_mem CPU_COUNT AP_READY su_statics su_idts su_frames su_hw su_cr3 su_started]. by rewrite Hg, Hm.
  - apply bind_Done_1 in H as ([[idts pcr'] fa] & E & H). injection H as <- <-. split; try done.
    intros ps. cbn [ap_rest settled_as app]. unfold idt_rest. cbn [su_idts su_frames with_started]. by rewrite E, Done_bind.
  - apply bind_Done_1 in H as ([l' h] & E & H). injection H as <- <-. split; try done.
    intros ps. cbn [ap_rest settled_as app]. unfold lapic_rest. by rewrite E, Done_bind.
  - rewrite <- Hm, set_memory_id in H. injection H as <- <-. split; try done.
    change (m_mem (init_syscall syscall_entry_point (ct_machine c))) with (m_mem (ct_machine c)). by rewrite Hm.
  - injection H as <- <-. by split.
  - injection H as <- <-. by split.
  - injection H as <- <-. by split.
Qed.

(** The steps left to a processor until it is settled. *)
Definition ap_work (a : ApPc G) : nat :=
  match a with
  | ApBoot _ _ code => 6 + length code
  | ApGdt _ _ _ => 5 | ApIdt _ _ _ _ _ => 4 | ApLapic _ _ _ _ _ => 3 | ApSyscall _ _ _ _ _ => 2 | ApReady _ => 1
  | ApSti _ | ApSpin _ => 0
  end.

Lemma ap_step_defined a s ps r : on_memory a (su_mem s) -> ap_rest a (seen ps s) = Done r ->
  exists a' s', ap_step a s = Done (a', s') /\ (settled a = false -> (ap_work a' < ap_work a)%nat).
Proof.
  destruct a as [d p [|i code]|d p arg|d p arg pcr c|d p arg pcr c|p arg pcr c h|q|q|q]; cbn [on_memory ap_rest ApHandshake.ap_step]; intros Hm H.
  - cbn [run fold_left] in H. destruct (m_rip (apc_cpu p) =? start_ap); [|done]. eexists _, _. split; [done|]. cbn. lia.
  - eexists _, _. split; [done|]. cbn. lia.
  - rewrite <- Hm, set_memory_id. unfold gdt_rest in H. apply bind_Done_1 in H as ([[[pcr st] c] fa] & E & _).
    cbn [su_statics su_frames with_started] in E. rewrite E, Done_bind. eexists _, _. split; [done|]. cbn. lia.
  - unfold idt_rest in H. apply bind_Done_1 in H as ([[idts pcr'] fa] & E & _).
    cbn [su_idts su_frames with_started] in E. rewrite E, Done_bind. eexists _, _. split; [done|]. cbn. lia.
  - unfold lapic_rest in H. apply bind_Done_1 in H as ([l' h] & E & _). rewrite E, Done_bind. eexists _, _. split; [done|]. cbn. lia.
  - eexists _, _. split; [done|]. cbn. lia.
  - eexists _, _. split; [done|]. cbn. lia.
  - eexists _, _. by split.
  - eexists _, _. by split.
Qed.

(** ** A step of the boot processor *)

Definition cr3_rest (todo : list MadtLocalApic) (s : Startup G) : outcome (Startup G) :=
  root ← phys_addr_new pt;
  foldM start_next (with_cr3 (frame_containing_address root) s) todo.
Definition wait_rest (todo : list MadtLocalApic) (s : Startup G) : outcome (Startup G) :=
  if (su_mem s t_ready =? 0) || negb (AP_READY s) then OutOfFuel else cr3_rest todo s.
Definition startup_rest (e : MadtLocalApic) (todo : list MadtLocalApic) (s : Startup G) : outcome (Startup G) :=
  h ← set_icr fuel (icr_startup l (lapic_id e)) l (su_hw s);
  s ← others_run (set_hw h s);
  wait_rest todo s.
Definition init_rest (e : MadtLocalApic) (todo : list MadtLocalApic) (s : Startup G) : outcome (Startup G) :=
  h ← set_icr fuel (icr_init l (lapic_id e)) l (su_hw s);
  startup_rest e todo (set_hw h s).

(** What is left to the boot processor when no other one is in its setup. *)
Definition bsp_rest (pc : BspPc) (s : Startup G) : outcome (Startup G) :=
  match pc with
  | BspNext todo => foldM start_next s todo
  | BspArgs e todo stack_start stack_end =>
      init_rest e todo (with_ready false (with_mem (write_args start_ap (su_mem s) (lapic_id e) pt stack_start stack_end) s))
  | BspReset e todo => init_rest e todo (with_ready false s)
  | BspInit e todo => init_rest e todo s
  | BspStartup e todo => startup_rest e todo s
  | BspWaitTrampoline todo | BspWaitAp todo => OutOfFuel
  | BspCr3 todo => cr3_rest todo s
  | BspDone => Done s
  end.

Lemma start_next_split s e todo : foldM start_next s (e :: todo) =
  ('(own, h) ← lapic_own_id l (su_hw s);
   if wrap 8 own =? lapic_id e then foldM start_next (set_hw h s) todo
   else
     '(frame, fa) ← frame_alloc_n fuel (su_frames s) 64;
     stack_start ← or_panic frame;
     stack_end ← u64_add stack_start (64 * 4096);
     bsp_rest (BspArgs e todo stack_start stack_end) (with_stack h fa s)).
Proof.
  cbn [foldM]. unfold start_one.
  destruct (lapic_own_id l (su_hw s)) as [[own h]| |]; [|done..]. rewrite !Done_bind. cbv beta iota.
  destruct (wrap 8 own =? lapic_id e); [by rewrite Done_bind|].
  destruct (frame_alloc_n fuel (su_frames s) 64) as [[frame fa]| |]; [|done..]. rewrite !Done_bind. cbv beta iota.
  destruct (or_panic frame) as [st| |]; [|done..]. rewrite !Done_bind.
  destruct (u64_add st (64 * 4096)) as [en| |]; [|done..]. rewrite !Done_bind. cbv zeta. cbn [bsp_rest].
  unfold init_rest, startup_rest, wait_rest, cr3_rest. cbn [su_hw with_ready with_mem with_stack].
  destruct (set_icr fuel (icr_init _ _) l h) as [h1| |]; [|done..]. rewrite !Done_bind. cbn [su_hw set_hw].
  destruct (set_icr fuel (icr_startup _ _) l h1) as [h2| |]; [|done..]. rewrite !Done_bind.
  unfold set_hw, with_ready, with_mem, with_stack. cbn [su_mem CPU_COUNT AP_READY su_statics su_idts su_frames su_hw su_cr3 su_started].
  destruct (others_run _) as [s2| |]; [|done..]. rewrite !Done_bind. destruct (_ || _); [done|].
  apply bind_bind.
Qed.

(** The processor a STARTUP message wakes does what the sequential model runs. *)
Lemma others_run_woken s ps : others_run (seen ps s) = match woken s with [a] => ap_rest a (seen ps s) | _ => OutOfFuel end.
Proof.
  unfold ApStartup.others_run, ApHandshake.woken. cbn [su_hw su_mem with_started]. destruct (started_by _ _ _) as [d|]; [|done].
  cbn [ap_rest]. unfold trampoline, run. by rewrite fold_left_app.
Qed.

Lemma woken_cases s : woken s = [] \/ exists d p,
  woken s = [ApBoot d p (startup_ap gdtr ++ long_mode_ap)] /\ m_mem (apc_cpu p) = su_mem s.
Proof.
  unfold ApHandshake.woken. destruct (started_by _ _ _) as [d|]; [|by left]. right. by eexists _, _.
Qed.

(** ** All processors *)

(** Where the flag has been reset. *)
Definition flag_reset (pc : BspPc) : bool := match pc with BspInit _ _ | BspStartup _ _ => true | _ => false end.

(** The boot processor waits for the processor in [act]. *)
Definition attended (R : Startup G) (pc : BspPc) (todo : list MadtLocalApic) (act rest : list (ApPc G)) (s : Startup G) : Prop :=
  exists a, act = [a] /\ on_memory a (su_mem s) /\ AP_READY s = settled a /\
    (pc = BspWaitAp todo -> su_mem s t_ready <> 0) /\
    (r ← ap_rest a (seen (settled_as a ++ (rest ≫= settled_as)) s); wait_rest todo r) = Done R.

(** The processor that is in its setup, if there is one, has the attention of
    the boot processor; what is left to all of them, one after the other, ends
    in [R]. *)
Definition inv (R : Startup G) (c : Config G) : Prop :=
  let s := cf_shared c in
  exists act rest, cf_aps c = act ++ rest /\ Forall (fun a => settled a = true) rest /\
  match cf_bsp c with
  | BspWaitTrampoline todo | BspWaitAp todo => attended R (cf_bsp c) todo act rest s
  | pc => act = [] /\ (flag_reset pc = true -> AP_READY s = false) /\ bsp_rest pc (seen (rest ≫= settled_as) s) = Done R
  end.

Lemma settled_step a s a' s' : settled a = true -> ap_step a s = Done (a', s') ->
  settled a' = true /\ settled_as a' = settled_as a /\ s' = s.
Proof. destruct a; try done; cbn [ApHandshake.ap_step]; intros _ [= <- <-]; done. Qed.

Lemma settled_rest a s : settled a = true -> ap_rest a s = Done s.
Proof. by destruct a. Qed.

(** A settled processor that takes a step. *)
Lemma settled_steps l1 a l2 s a' s' : Forall (fun a => settled a = true) (l1 ++ a :: l2) -> ap_step a s = Done (a', s') ->
  Forall (fun a => settled a = true) (l1 ++ a' :: l2) /\ (l1 ++ a' :: l2) ≫= settled_as = (l1 ++ a :: l2) ≫= settled_as /\ s' = s.
Proof.
  rewrite !Forall_app, !Forall_cons, !bind_app, !bind_cons. intros (H1 & Ha & H2) E.
  destruct (settled_step _ _ _ _ Ha E) as (? & -> & ->). done.
Qed.

Lemma inv_ap R pc l1 a l2 s a' s' : inv R (mkConfig pc (l1 ++ a :: l2) s) -> ap_step a s = Done (a', s') ->
  inv R (mkConfig pc (l1 ++ a' :: l2) s').
Proof.
  intros (act & rest & Eq & Hrest & Hpc) E. cbn [cf_aps cf_bsp cf_shared] in *.
  assert (Hout : act = [] -> inv R (mkConfig pc (l1 ++ a' :: l2) s')).
  { intros ->. cbn [app] in Eq. subst rest. destruct (settled_steps _ _ _ _ _ _ Hrest E) as (H1 & H2 & ->).
    exists [], (l1 ++ a' :: l2). cbn [cf_aps cf_bsp cf_shared]. split; [done|]. split; [done|]. rewrite H2.
    destruct pc; try exact Hpc; by destruct Hpc as (? & ? & _). }
  assert (Hin : forall todo, attended R pc todo act rest s ->
      exists act' rest', l1 ++ a' :: l2 = act' ++ rest' /\ Forall (fun a => settled a = true) rest' /\ attended R pc todo act' rest' s').
  { intros todo (b & -> & Hm & Hr & Hf & HR). destruct l1 as [|b' l1]; injection Eq as -> <-.
    - destruct (ap_step_steps _ _ _ _ Hm E) as [S1 _ S2 S3 S4]. exists [a'], l2. split; [done|]. split; [done|]. exists a'.
      split; [done|]. split; [done|]. split; [by apply S3|]. split; [by intros; apply S2, Hf|]. by rewrite S4.
    - destruct (settled_steps _ _ _ _ _ _ Hrest E) as (H1 & H2 & ->). exists [b], (l1 ++ a' :: l2). split; [done|]. split; [done|].
      exists b. by rewrite H2. }
  destruct pc; try (by apply Hout, Hpc); by apply Hin.
Qed.

Lemma inv_bsp R pc aps s pc' new s' : inv R (mkConfig pc aps s) -> bsp_step pc s = Done (pc', new, s') ->
  inv R (mkConfig pc' (new ++ aps) s').
Proof.
  intros (act & rest & Eq & Hrest & Hpc) E. cbn [cf_bsp cf_aps cf_shared] in Eq, Hpc. subst aps.
  destruct pc as [[|e todo]|e todo st en|e todo|e todo|e todo|todo|todo|todo|]; cbn [ApHandshake.bsp_step bsp_rest] in *.
  - destruct Hpc as (-> & _ & H). injection E as <- <- <-. by exists [], rest.
  - destruct Hpc as (-> & _ & H). rewrite start_next_split in H. cbn [su_hw su_frames with_started] in H.
    apply bind_Done_1 in H as ([own h] & E1 & H). rewrite E1, Done_bind in E. exists [], rest.
    destruct (wrap 8 own =? lapic_id e).
    { injection E as <- <- <-. done. }
    apply bind_Done_1 in H as ([fr fa] & E2 & H). apply bind_Done_1 in H as (st & E3 & H). apply bind_Done_1 in H as (en & E4 & H).
    rewrite E2, Done_bind in E. cbv beta iota in E. rewrite E3, Done_bind, E4, Done_bind in E. injection E as <- <- <-. done.
  - destruct Hpc as (-> & _ & H). injection E as <- <- <-. by exists [], rest.
  - destruct Hpc as (-> & _ & H). injection E as <- <- <-. by exists [], rest.
  - destruct Hpc as (-> & Hf & H). unfold init_rest in H. apply bind_Done_1 in H as (h & E1 & H). cbn [su_hw with_started] in E1.
    rewrite E1, Done_bind in E. injection E as <- <- <-. by exists [], rest.
  - destruct Hpc as (-> & Hf & H). unfold startup_rest in H. apply bind_Done_1 in H as (h & E1 & H). cbn [su_hw with_started] in E1.
    rewrite E1, Done_bind in E. injection E as <- <- <-.
    change (set_hw h (seen (rest ≫= settled_as) s)) with (seen (rest ≫= settled_as) (set_hw h s)) in H.
    rewrite others_run_woken in H. destruct (woken_cases (set_hw h s)) as [Hw|(d & p & Hw & Hm)]; rewrite Hw in *; [done|].
    eexists [_], rest. split; [done|]. split; [done|]. cbn [cf_bsp cf_shared]. eexists. split; [done|].
    split; [split; [exact Hm|apply trampoline_flags_only]|]. split; [by apply Hf|]. by split.
  - destruct Hpc as (a & -> & Hm & Hr & _ & HR). injection E as <- <- <-. exists [a], rest. split; [done|]. split; [done|].
    cbn [cf_bsp cf_shared]. destruct (su_mem s t_ready =? 0) eqn:Ez; exists a; split_and!; try done. by apply Z.eqb_neq in Ez.
  - destruct Hpc as (a & -> & Hm & Hr & Hf & HR). injection E as <- <- <-. cbn [app]. destruct (AP_READY s) eqn:Er.
    + exists [], (a :: rest). split; [done|]. split; [by apply Forall_cons_2|]. cbn [cf_bsp cf_shared bsp_rest]. split; [done|]. split; [done|].
      rewrite settled_rest, Done_bind in HR by done. unfold wait_rest in HR. cbn [su_mem AP_READY with_started] in HR.
      rewrite Er, (proj2 (Z.eqb_neq _ _) (Hf eq_refl)) in HR. exact HR.
    + exists [a], rest. split; [done|]. split; [done|]. cbn [cf_bsp cf_shared]. exists a. by rewrite Er.
  - destruct Hpc as (-> & _ & H). unfold cr3_rest in H. apply bind_Done_1 in H as (root & E1 & H). rewrite E1, Done_bind in E.
    injection E as <- <- <-. by exists [], rest.
  - destruct Hpc as (-> & _ & H). injection E as <- <- <-. by exists [], rest.
Qed.

Lemma inv_steps R c c' : relations.rtc step c c' -> inv R c -> inv R c'.
Proof.
  induction 1 as [|c c1 c' Hs _ IH]; [done|]. intros Hi. apply IH. destruct Hs as [????? ? H|???????  H]; [by eapply inv_bsp|by eapply inv_ap].
Qed.

(** ** Progress *)

Definition TRAMPOLINE_WORK : nat := 6 + length (startup_ap gdtr ++ long_mode_ap).
Definition per_ap : nat := TRAMPOLINE_WORK + 9.

Definition bsp_work (pc : BspPc) : nat :=
  match pc with
  | BspNext todo => 1 + per_ap * length todo
  | BspArgs _ todo _ _ => per_ap * length todo + TRAMPOLINE_WORK + 8
  | BspReset _ todo => per_ap * length todo + TRAMPOLINE_WORK + 7
  | BspInit _ todo => per_ap * length todo + TRAMPOLINE_WORK + 6
  | BspStartup _ todo => per_ap * length todo + TRAMPOLINE_WORK + 5
  | BspWaitTrampoline todo => per_ap * length todo + 4
  | BspWaitAp todo => per_ap * length todo + 3
  | BspCr3 todo => per_ap * length todo + 2
  | BspDone => 0
  end.
Definition work (c : Config G) : nat := bsp_work (cf_bsp c) + sum_list_with ap_work (cf_aps c).

(** No processor fails in its next step. *)
Lemma steps_defined R c : inv R c ->
  (exists r, bsp_step (cf_bsp c) (cf_shared c) = Done r) /\ Forall (fun a => exists r, ap_step a (cf_shared c) = Done r) (cf_aps c).
Proof.
  destruct c as [pc aps s]. intros (act & rest & Eq & Hrest & Hpc). cbn [cf_bsp cf_aps cf_shared] in *. subst aps. split.
  - destruct pc as [[|e todo]|e todo st en|e todo|e todo|e todo|todo|todo|todo|]; cbn [ApHandshake.bsp_step bsp_rest] in *; try by eexists.
    + destruct Hpc as (_ & _ & H). rewrite start_next_split in H. cbn [su_hw su_frames with_started] in H.
      apply bind_Done_1 in H as ([own h] & E1 & H). rewrite E1, Done_bind. destruct (wrap 8 own =? lapic_id e); [by eexists|].
      apply bind_Done_1 in H as ([fr fa] & E2 & H). apply bind_Done_1 in H as (st & E3 & H). apply bind_Done_1 in H as (en & E4 & H).
      rewrite E2, Done_bind. cbv beta iota. rewrite E3, Done_bind, E4, Done_bind. by eexists.
    + destruct Hpc as (_ & _ & H). apply bind_Done_1 in H as (h & E1 & _). cbn [su_hw with_started] in E1. rewrite E1, Done_bind. by eexists.
    + destruct Hpc as (_ & _ & H). apply bind_Done_1 in H as (h & E1 & _). cbn [su_hw with_started] in E1. rewrite E1, Done_bind. by eexists.
    + destruct Hpc as (_ & _ & H). apply bind_Done_1 in H as (root & E1 & _). rewrite E1, Done_bind. by eexists.
  - apply Forall_app. split.
    + assert (Hin : forall todo, attended R pc todo act rest s ->
          Forall (fun a => exists r, ap_step a s = Done r) act).
      { intros todo (b & -> & Hm & _ & _ & H). apply bind_Done_1 in H as (r & H & _).
        destruct (ap_step_defined _ _ _ _ Hm H) as (a' & s' & E & _). apply Forall_cons_2; [by eexists|done]. }
      destruct pc; try (destruct Hpc as (-> & _); by apply Forall_nil_2); by eapply Hin.
    + apply (Forall_impl _ _ _ Hrest). intros a Ha. destruct a; try done; by eexists.
Qed.

Lemma bsp_step_work pc s pc' new s' : bsp_step pc s = Done (pc', new, s') -> pc <> BspDone ->
  (forall todo, pc = BspWaitTrampoline todo \/ pc = BspWaitAp todo -> su_mem s t_ready <> 0 /\ AP_READY s = true) ->
  (bsp_work pc' + sum_list_with ap_work new < bsp_work pc)%nat.
Proof.
  intros E Hd Hw. destruct pc as [[|e todo]|e todo st en|e todo|e todo|e todo|todo|todo|todo|]; cbn [ApHandshake.bsp_step] in E; [..|done].
  - injection E as <- <- <-. cbn. lia.
  - apply bind_Done_1 in E as ([own h] & _ & E). cbn [bsp_work length]. destruct (wrap 8 own =? lapic_id e).
    { injection E as <- <- <-. cbn [bsp_work sum_list_with]. unfold per_ap. lia. }
    apply bind_Done_1 in E as ([fr fa] & _ & E). apply bind_Done_1 in E as (st & _ & E). apply bind_Done_1 in E as (en & _ & E).
    injection E as <- <- <-. cbn [bsp_work sum_list_with]. unfold per_ap. lia.
  - injection E as <- <- <-. cbn [bsp_work sum_list_with]. lia.
  - injection E as <- <- <-. cbn [bsp_work sum_list_with]. lia.
  - apply bind_Done_1 in E as (h & _ & E). injection E as <- <- <-. cbn [bsp_work sum_list_with]. lia.
  - apply bind_Done_1 in E as (h & _ & E). injection E as <- <- <-. cbn [bsp_work].
    destruct (woken_cases (set_hw h s)) as [->|(d & p & -> & _)]; cbn [sum_list_with ap_work]; unfold TRAMPOLINE_WORK; lia.
  - destruct (Hw todo ltac:(by left)) as [H0 _]. injection E as <- <- <-. rewrite (proj2 (Z.eqb_neq _ _) H0). cbn [bsp_work sum_list_with]. lia.
  - destruct (Hw todo ltac:(by right)) as [_ Hr]. rewrite Hr in E. injection E as <- <- <-. cbn [bsp_work sum_list_with]. lia.
  - apply bind_Done_1 in E as (root & _ & E). injection E as <- <- <-. cbn [bsp_work sum_list_with]. lia.
Qed.

(** Some processor can do work, until the boot processor is done. *)
Lemma work_decreases R c : inv R c -> cf_bsp c = BspDone \/ exists c', step c c' /\ (work c' < work c)%nat.
Proof.
  intros Hi. destruct (steps_defined R c Hi) as [([[pc' new] s'] & Hb) _]. destruct c as [pc aps s].
  destruct Hi as (act & rest & Eq & _ & Hpc). cbn [cf_bsp cf_aps cf_shared] in *. subst aps.
  set (c := mkConfig pc (act ++ rest) s).
  assert (Hwait : forall todo, attended R pc todo act rest s ->
      (exists c', step c c' /\ (work c' < work c)%nat) \/ su_mem s t_ready <> 0 /\ AP_READY s = true).
  { intros todo (b & -> & Hm & Hr & _ & H). apply bind_Done_1 in H as (r & H1 & H2). destruct (settled b) eqn:Hs.
    - right. split; [|done]. rewrite settled_rest in H1 by done. injection H1 as <-. unfold wait_rest in H2.
      cbn [su_mem with_started] in H2. by destruct (Z.eqb_spec (su_mem s t_ready) 0).
    - left. destruct (ap_step_defined _ _ _ _ Hm H1) as (a' & s1 & E & Hw).
      exists (mkConfig pc ([] ++ a' :: rest) s1). split; [by apply (step_ap _ _ _ _ _ _ _ _ _ _ _ _ _ _ [])|].
      unfold work, c. cbn [app cf_bsp cf_aps sum_list_with]. specialize (Hw Hs). lia. }
  assert (Hstep : pc <> BspDone ->
      (forall todo, pc = BspWaitTrampoline todo \/ pc = BspWaitAp todo -> su_mem s t_ready <> 0 /\ AP_READY s = true) ->
      exists c', step c c' /\ (work c' < work c)%nat).
  { intros Hd Hp. pose proof (bsp_step_work _ _ _ _ _ Hb Hd Hp) as Hw. eexists. split; [by apply step_bsp|].
    unfold work, c. cbn [cf_bsp cf_aps]. rewrite sum_list_with_app. lia. }
  destruct pc as [todo|e todo st en|e todo|e todo|e todo|todo|todo|todo|]; try (right; apply Hstep; [done|intros ? [?|?]; done]); [..|by left].
  - right. destruct (Hwait todo Hpc) as [?|?]; [done|]. apply Hstep; [done|]. by intros ? _.
  - right. destruct (Hwait todo Hpc) as [?|?]; [done|]. apply Hstep; [done|]. by intros ? _.
Qed.

Lemma can_finish R c : inv R c -> exists c', relations.rtc step c c' /\ cf_bsp c' = BspDone.
Proof.
  remember (work c) as n eqn:Hn. revert c Hn. induction (lt_wf n) as [n _ IH]. intros c -> Hi.
  destruct (work_decreases R c Hi) as [?|(c1 & Hs & Hw)]; [by exists c|].
  destruct (IH _ Hw c1 eq_refl) as (c' & Hc & ?); [by eapply inv_steps; [apply rtc_once|]|]. exists c'. split; [by eapply rtc_l|done].
Qed.
End Rest.

(** ** The result *)

Definition bsp_waits (pc : BspPc) : bool := match pc with BspWaitTrampoline _ | BspWaitAp _ => true | _ => false end.

Section Interleaved.
Context {X : X86Addr} {V : X86Virt} {G : Type} {GO : Gdt G}.
Context (fuel : nat) (data : list Z) (gdtr start_ap syscall_entry_point : Z).
Context (reset : Z -> Ap) (lapic_of : Z -> LapicHw).
Context (pcr_size gdt_off tss_off : Z) (pcr_before : ProcessorControlRegion G).
Context (l : LocalApic) (pt : Z).

Abbreviation ap_step := (ap_step fuel start_ap syscall_entry_point lapic_of pcr_size gdt_off tss_off pcr_before l).
Abbreviation bsp_step := (bsp_step fuel data gdtr start_ap reset l pt).
Abbreviation step := (step fuel data gdtr start_ap syscall_entry_point reset lapic_of pcr_size gdt_off tss_off pcr_before l pt).

Lemma begin_inv lapics s s' :
  setup_ap_startup fuel data gdtr start_ap syscall_entry_point reset lapic_of pcr_size gdt_off tss_off pcr_before lapics pt l s = Done s' ->
  inv fuel data gdtr start_ap syscall_entry_point reset lapic_of pcr_size gdt_off tss_off pcr_before l pt s' (begin_startup data lapics s).
Proof. intros H. exists [], []. split; [done|]. split; [done|]. split; [done|]. split; [done|]. exact H. Qed.

Lemma inv_setting_up R c :
  inv fuel data gdtr start_ap syscall_entry_point reset lapic_of pcr_size gdt_off tss_off pcr_before l pt R c ->
  filter (fun a => settled a = false) (cf_aps c) = [] \/
  bsp_waits (cf_bsp c) = true /\ exists a, filter (fun a => settled a = false) (cf_aps c) = [a].
Proof.
  intros (act & rest & -> & Hrest & Hpc).
  assert (Hr : filter (fun a => settled a = false) rest = []).
  { clear Hpc. induction Hrest as [|a rest' Ha _ IH]; [done|]. rewrite filter_cons, decide_False by congruence. exact IH. }
  rewrite filter_app, Hr, app_nil_r. destruct (cf_bsp c); try (destruct Hpc as (-> & _); by left).
  all: destruct Hpc as (a & -> & _); rewrite filter_cons; case_decide; [right; split; [done|by exists a]|by left].
Qed.

(** C5. However the steps of the boot processor and of the processors it starts
    follow each other, no processor fails; at most one other processor is in its
    setup at a time, and only while the boot processor waits for it; the boot
    processor can always still finish, and when it has, the state is the one
    that running the processors one after the other gives: all of them are
    started and the shared data is the same. *)
Theorem startup_interleaves lapics s s' c :
  setup_ap_startup fuel data gdtr start_ap syscall_entry_point reset lapic_of pcr_size gdt_off tss_off pcr_before lapics pt l s = Done s' ->
  relations.rtc step (begin_startup data lapics s) c ->
  (exists r, bsp_step (cf_bsp c) (cf_shared c) = Done r) /\
  Forall (fun a => exists r, ap_step a (cf_shared c) = Done r) (cf_aps c) /\
  (filter (fun a => settled a = false) (cf_aps c) = [] \/
   bsp_waits (cf_bsp c) = true /\ exists a, filter (fun a => settled a = false) (cf_aps c) = [a]) /\
  (cf_bsp c = BspDone ->
   s' = with_started ((cf_aps c ≫= settled_as) ++ su_started (cf_shared c)) (cf_shared c)) /\
  exists c', relations.rtc step c c' /\ cf_bsp c' = BspDone.
Proof.
  intros H Hs. pose proof (inv_steps _ _ _ _ _ _ _ _ _ _ _ _ _ _ _ _ Hs (begin_inv _ _ _ H)) as Hi.
  destruct (steps_defined _ _ _ _ _ _ _ _ _ _ _ _ _ _ _ Hi) as [H1 H2]. split; [done|]. split; [done|].
  split; [by eapply inv_setting_up|]. split; [|by eapply can_finish].
  intros Hd. destruct Hi as (act & rest & -> & _ & Hpc). rewrite Hd in Hpc. destruct Hpc as (-> & _ & [= <-]). done.
Qed.
End Interleaved.

(** ** An instance: the second of two processors *)

#[local] Existing Instance x86_addr_model.
#[local] Existing Instance x86_addr_model_spec.
#[local] Existing Instance x86_virt_model.
#[local] Existing Instance x86_virt_model_spec.
#[local] Existing Instance list_gdt.
#[local] Existing Instance list_gdt_spec.

Abbreviation two_setup := (setup_ap_startup 200 trampoline_image image_gdtr 0xffffff8000012340 0xffffff8000023450 (fun _ => reset_ap)
  (qemu_lapic 0xfee00900 false) 0x3000 0x10 0x800 blank_pcr startup_lapics 0x101000 (mkLocalApic 0xfee00000 false) startup_state).
Abbreviation two_step := (step 200 trampoline_image image_gdtr 0xffffff8000012340 0xffffff8000023450 (fun _ => reset_ap)
  (qemu_lapic 0xfee00900 false) 0x3000 0x10 0x800 blank_pcr (mkLocalApic 0xfee00000 false) 0x101000).

Lemma two_processors : exists s' pa, two_setup = Done s' /\ su_started s' = [pa] /\ st_arg pa = mkKernelArgAp 1 0x101000 0x180000 0x1c0000.
Proof.
  destruct (start_all 200 trampoline_image ltac:(apply (bool_decide_unpack _); by vm_compute) image_gdtr 0xffffff8000012340 0xffffff8000023450 ltac:(lia) (fun _ => reset_ap)
    (qemu_lapic 0xfee00900 false) 0x3000 0x10 0x800 blank_pcr
    (mkLocalApic 0xfee00000 false) ltac:(done) ltac:(intros i; split; [done|]; split; [done|]; apply Z.leb_le; by vm_compute)
    0x101000 ltac:(lia) ltac:(by exists 0x101) 0x18 CS_SEL SS_SEL startup_lapics (with_mem (copy_trampoline trampoline_image (su_mem startup_state)) startup_state) [mkApBlocks 0x180000 0x1c0000 0x1c3000]
    (match alloc_run 200 (su_frames startup_state) (ap_requests 0x3000) with Done (_, fa) => fa | _ => su_frames startup_state end))
    as (s' & pas & E & B & En & _).
  - split; [done|]. split; [done|]. apply Z.leb_le. by vm_compute.
  - split; simpl; lia.
  - done.
  - by vm_compute.
  - done.
  - change (to_start _ startup_lapics) with [mkMadtLocalApic 1 1]. repeat constructor; simpl; lia.
  - by vm_compute.
  - repeat constructor; simpl; lia.
  - change (to_start _ startup_lapics) with [mkMadtLocalApic 1 1] in B.
    apply Forall3_cons_inv_l in B as (? & ? & pa & ? & [= <- <-] & -> & H1 & H3). inversion H3; subst.
    exists s', pa. split; [|split; [exact En|apply (bu_arg _ _ _ _ _ _ H1)]].
    exact E.
Qed.

Lemma startup_interleaves_witness :
  exists c pa, relations.rtc two_step (begin_startup trampoline_image startup_lapics startup_state) c /\ cf_bsp c = BspDone /\
    (cf_aps c ≫= settled_as) ++ su_started (cf_shared c) = [pa] /\ st_arg pa = mkKernelArgAp 1 0x101000 0x180000 0x1c0000.
Proof.
  destruct two_processors as (s' & pa & E & Hs & Ha).
  destruct (startup_interleaves _ _ _ _ _ _ _ _ _ _ _ _ _ _ _ _ _ E (rtc_refl _ _)) as (_ & _ & _ & _ & c & Hr & Hd).
  destruct (startup_interleaves _ _ _ _ _ _ _ _ _ _ _ _ _ _ _ _ _ E Hr) as (_ & _ & _ & Hf & _).
  exists c, pa. split; [exact Hr|]. split; [exact Hd|]. split; [|exact Ha]. rewrite <- Hs, (Hf Hd). reflexivity.
Defined.
