(* ===== verification/Locks.v ===== *)
(** * Sections under a lock, on several processors

    The loops of [RwLockUserAddrSpace] ([kernel/src/mem/user_addr_space.rs]) and
    [context_storage], [context_storage_mut] and the id allocator of
    [kernel/src/context/list.rs], with any number of processors that take their
    steps in any order.  [spin::RwLock] is a class with the documented behaviour
    of its guards.  The sections it protects are shown to run as if one after the
    other, and the id allocator, whose own lock and cells are modelled access by
    access, to hand out what its sequential model in Context.v says. *)

From S2P Require Import Prelude Context.

(** ** Reader-writer locks *)

Inductive Mode : Type := Shared | Upgradeable | Exclusive.
#[global] Instance Mode_eq_dec : EqDecision Mode.
Proof. solve_decision. Defined.

(** [spin::RwLock]: an attempt says whether a guard was obtained. *)
Class RwLock (L : Type) : Type := {
  rw_new : L;
  try_read : L -> bool * L;
  try_upgradeable_read : L -> bool * L;
  try_write : L -> bool * L;
  drop_guard : Mode -> L -> L
}.

(** One round of the loops of [acquire_read], [acquire_upg_read] and
    [acquire_write]: the guard is returned, or the loop spins and tries again.
    [context_storage] and [context_storage_mut] call [read] and [write], which
    wait in the same way. *)
Definition acquire_round {L} {RW : RwLock L} (m : Mode) (l : L) : bool * L :=
  match m with
  | Shared => try_read l
  | Upgradeable => try_upgradeable_read l
  | Exclusive => try_write l
  end.

(** The count of one kind of guard goes up by one. *)
Definition one_more (m : Mode) (g g' : Mode -> nat) : Prop := forall m', g' m' = if decide (m' = m) then S (g m') else g m'.

(** The guards of each kind that exist, call by call: a reader gets in while
    there is no writer, an upgradeable reader when there is no other one besides,
    and a writer when there is nobody; an attempt that fails changes no guard, and
    one on a lock without guards succeeds. *)
Class RwLockSpec (L : Type) (RW : RwLock L) : Type := {
  guards : L -> Mode -> nat;
  guards_new m : guards rw_new m = 0%nat;
  try_read_gets l l' : try_read l = (true, l') -> guards l Exclusive = 0%nat /\ one_more Shared (guards l) (guards l');
  try_read_fails l l' : try_read l = (false, l') -> forall m, guards l' m = guards l m;
  try_read_free l : (forall m, guards l m = 0%nat) -> (try_read l).1 = true;
  try_upgradeable_read_gets l l' : try_upgradeable_read l = (true, l') ->
    guards l Exclusive = 0%nat /\ guards l Upgradeable = 0%nat /\ one_more Upgradeable (guards l) (guards l');
  try_upgradeable_read_fails l l' : try_upgradeable_read l = (false, l') -> forall m, guards l' m = guards l m;
  try_upgradeable_read_free l : (forall m, guards l m = 0%nat) -> (try_upgradeable_read l).1 = true;
  try_write_gets l l' : try_write l = (true, l') ->
    guards l Exclusive = 0%nat /\ guards l Upgradeable = 0%nat /\ guards l Shared = 0%nat /\ one_more Exclusive (guards l) (guards l');
  try_write_fails l l' : try_write l = (false, l') -> forall m, guards l' m = guards l m;
  try_write_free l : (forall m, guards l m = 0%nat) -> (try_write l).1 = true;
  drop_guard_drops m l : (0 < guards l m)%nat ->
    forall m', guards (drop_guard m l) m' = (if decide (m' = m) then pred (guards l m') else guards l m')
}.

(** What a round of each loop gets, by the calls it makes. *)
Section Rounds.
Context {L : Type} {RW : RwLock L} {RS : RwLockSpec L RW}.

Lemma round_fails m l l' : acquire_round m l = (false, l') -> forall m', guards l' m' = guards l m'.
Proof. destruct m; [apply try_read_fails|apply try_upgradeable_read_fails|apply try_write_fails]. Qed.

Lemma round_gets m l l' : acquire_round m l = (true, l') ->
  guards l Exclusive = 0%nat /\ (m <> Shared -> guards l Upgradeable = 0%nat) /\ (m = Exclusive -> guards l Shared = 0%nat) /\
  one_more m (guards l) (guards l').
Proof.
  destruct m; intros E.
  - by apply try_read_gets in E as (? & ?).
  - by apply try_upgradeable_read_gets in E as (? & ? & ?).
  - by apply try_write_gets in E as (? & ? & ? & ?).
Qed.

Lemma round_free m l : (forall m', guards l m' = 0%nat) -> (acquire_round m l).1 = true.
Proof. destruct m; [apply try_read_free|apply try_upgradeable_read_free|apply try_write_free]. Qed.
End Rounds.

(** ** Processors *)

(** What a processor does under a guard: [act] is one access to the data, and
    [finished] says that the guard may be dropped. *)
Class Sections (P D : Type) : Type := {
  act : P -> D -> P -> D -> Prop;
  finished : P -> bool
}.

(** A processor with the sections it still has to run: it tries to get the
    guard of the first, or is inside it, having begun at [p0]. *)
Inductive Proc (P : Type) : Type :=
  | Outside (jobs : list (Mode * P))
  | Trying (m : Mode) (p : P) (jobs : list (Mode * P))
  | Inside (m : Mode) (p0 p : P) (jobs : list (Mode * P)).
Arguments Outside {P}.
Arguments Trying {P}.
Arguments Inside {P}.

(** The lock, the data behind it and the sections that ended, last first. *)
Record Locked (L P D : Type) : Type := mkLocked { lk_lock : L; lk_data : D; lk_history : list (P * P) }.
Arguments mkLocked {L P D}.
Arguments lk_lock {L P D}.
Arguments lk_data {L P D}.
Arguments lk_history {L P D}.

Section Processors.
Context {L P D : Type} {RW : RwLock L} {SE : Sections P D}.

(** One step of a processor.  Without a writer's guard the data is only read. *)
Inductive proc_step : Proc P -> Locked L P D -> Proc P -> Locked L P D -> Prop :=
  | ps_begin m p jobs s : proc_step (Outside ((m, p) :: jobs)) s (Trying m p jobs) s
  | ps_gets m p jobs l l' d h : acquire_round m l = (true, l') ->
      proc_step (Trying m p jobs) (mkLocked l d h) (Inside m p p jobs) (mkLocked l' d h)
  | ps_spins m p jobs l l' d h : acquire_round m l = (false, l') ->
      proc_step (Trying m p jobs) (mkLocked l d h) (Trying m p jobs) (mkLocked l' d h)
  | ps_acts m p0 p p' jobs l d d' h : act p d p' d' -> (m <> Exclusive -> d' = d) ->
      proc_step (Inside m p0 p jobs) (mkLocked l d h) (Inside m p0 p' jobs) (mkLocked l d' h)
  | ps_drops m p0 p jobs l d h : finished p = true ->
      proc_step (Inside m p0 p jobs) (mkLocked l d h) (Outside jobs) (mkLocked (drop_guard m l) d ((p0, p) :: h)).

Inductive step : list (Proc P) * Locked L P D -> list (Proc P) * Locked L P D -> Prop :=
  | step_one l1 a l2 s a' s' : proc_step a s a' s' -> step (l1 ++ a :: l2, s) (l1 ++ a' :: l2, s').
End Processors.

(** ** The sections run one after the other *)

(** The data after whole sections, the last one first. *)
Inductive serial {P D} {SE : Sections P D} (d0 : D) : list (P * P) -> D -> Prop :=
  | serial_nil : serial d0 [] d0
  | serial_cons p0 p h d d' : serial d0 h d -> rtc (fun x y => act x.1 x.2 y.1 y.2) (p0, d) (p, d') -> serial d0 ((p0, p) :: h) d'.

Section Serial.
Context {L P D : Type} {RW : RwLock L} {RS : RwLockSpec L RW} {SE : Sections P D}.
Implicit Types (ps : list (Proc P)) (s : Locked L P D).

Abbreviation acts := (fun x y : P * D => act x.1 x.2 y.1 y.2).

Definition holds (m : Mode) (a : Proc P) : nat := match a with Inside m' _ _ _ => if decide (m' = m) then 1 else 0 | _ => 0 end.
Definition holders (m : Mode) (ps : list (Proc P)) : nat := sum_list_with (holds m) ps.

(** A processor in a section has come from its beginning on the data [d]. *)
Definition within (d d' : D) (a : Proc P) : Prop :=
  match a with Inside _ p0 p _ => rtc acts (p0, d) (p, d') | _ => True end.

(** The guards are those the processors hold, and the data is what the whole
    sections and the steps of a writer made of it. *)
Record locked_inv (d0 : D) (c : list (Proc P) * Locked L P D) : Prop := {
  li_guards m : guards (lk_lock c.2) m = holders m c.1;
  li_writer : (0 < holders Exclusive c.1)%nat -> holders Exclusive c.1 = 1%nat /\ holders Shared c.1 = 0%nat /\ holders Upgradeable c.1 = 0%nat;
  li_upgradeable : (holders Upgradeable c.1 <= 1)%nat;
  li_data : exists d, serial d0 (lk_history c.2) d /\ Forall (within d (lk_data c.2)) c.1 /\
    (holders Exclusive c.1 = 0%nat -> lk_data c.2 = d)
}.

Lemma holders_split m l1 a l2 : holders m (l1 ++ a :: l2) = (holds m a + holders m (l1 ++ l2))%nat.
Proof. unfold holders. rewrite !sum_list_with_app. cbn [sum_list_with]. lia. Qed.

(** Without guards no other processor is inside. *)
Lemma outside_within d d' ps : (forall m, holders m ps = 0%nat) -> Forall (within d d') ps.
Proof.
  induction ps as [|a ps IH]; intros H; [done|]. apply Forall_cons_2; [|apply IH; intros m; specialize (H m); unfold holders in *; cbn in H; lia].
  destruct a as [| |m]; try done. specialize (H m). unfold holders in H. cbn in H. rewrite decide_True in H by done. lia.
Qed.

Lemma Forall_split {A} (Q : A -> Prop) l1 x l2 : Forall Q (l1 ++ x :: l2) <-> Q x /\ Forall Q (l1 ++ l2).
Proof. rewrite !Forall_app, Forall_cons. tauto. Qed.

(** A step that leaves guards and data alone. *)
Lemma inv_same d0 l1 a l2 s a' l' : locked_inv d0 (l1 ++ a :: l2, s) ->
  (forall m, holds m a = 0%nat) -> (forall m, holds m a' = 0%nat) -> (forall m, guards l' m = guards (lk_lock s) m) ->
  locked_inv d0 (l1 ++ a' :: l2, mkLocked l' (lk_data s) (lk_history s)).
Proof.
  intros [G W U (d & S1 & S2 & S3)] Ha Ha' Hl. cbn [fst snd] in *. 
  assert (E : forall m, holders m (l1 ++ a' :: l2) = holders m (l1 ++ a :: l2)) by (intros m; by rewrite !holders_split, Ha, Ha').
  split; cbn [fst snd lk_lock lk_data lk_history].
  - intros m. by rewrite Hl, E.
  - rewrite !E. exact W.
  - rewrite E. exact U.
  - exists d. split; [exact S1|]. split; [|by rewrite E]. apply Forall_split in S2 as [_ S2]. apply Forall_split. split; [|exact S2].
    destruct a' as [| |m]; try done. specialize (Ha' m). cbn in Ha'. by rewrite decide_True in Ha'.
Qed.

Lemma inv_gets d0 l1 l2 m p jobs l l' d h : locked_inv d0 (l1 ++ Trying m p jobs :: l2, mkLocked l d h) ->
  acquire_round m l = (true, l') -> locked_inv d0 (l1 ++ Inside m p p jobs :: l2, mkLocked l' d h).
Proof.
  intros [G W U (d1 & S1 & S2 & S3)] E. cbn [fst snd lk_lock lk_data lk_history] in *.
  destruct (round_gets _ _ _ E) as (X1 & X2 & X3 & X4). rewrite G, holders_split in X1. rewrite G, holders_split in X2, X3.
  rewrite !holders_split in W. rewrite holders_split in U, S3. cbn [holds Nat.add] in *.
  split; cbn [fst snd lk_lock lk_data lk_history].
  - intros m'. rewrite X4, G, !holders_split. cbn [holds Nat.add]. destruct (decide (m' = m)) as [->|]; [by rewrite decide_True|]. by rewrite decide_False.
  - rewrite !holders_split. cbn [holds]. destruct (decide (m = Exclusive)) as [->|Hm]; [|lia].
    rewrite !(decide_False (P := Exclusive = _)) by done. rewrite X2, X3 by done. lia.
  - rewrite holders_split. cbn [holds]. case_decide; [|lia]. subst m. rewrite X2 by done. lia.
  - exists d1. specialize (S3 ltac:(lia)). subst d1. split; [exact S1|]. apply Forall_split in S2 as [_ S2]. split; [|done].
    apply Forall_split. split; [apply rtc_refl|exact S2].
Qed.

(** Another processor has no guard while a writer is inside. *)
Lemma writer_alone d0 l1 p0 p jobs l2 s : locked_inv d0 (l1 ++ Inside Exclusive p0 p jobs :: l2, s) -> forall m, holders m (l1 ++ l2) = 0%nat.
Proof.
  intros [_ W _ _]. cbn [fst] in W. rewrite !holders_split in W. cbn [holds] in W. rewrite decide_True in W by done.
  rewrite !(decide_False (P := Exclusive = _)) in W by done. intros []; lia.
Qed.

Lemma inv_acts d0 l1 l2 m p0 p p' jobs l d d' h : locked_inv d0 (l1 ++ Inside m p0 p jobs :: l2, mkLocked l d h) ->
  act p d p' d' -> (m <> Exclusive -> d' = d) -> locked_inv d0 (l1 ++ Inside m p0 p' jobs :: l2, mkLocked l d' h).
Proof.
  intros Hi Hact Hread. pose proof Hi as [G W U (d1 & S1 & S2 & S3)]. cbn [fst snd lk_lock lk_data lk_history] in *.
  assert (E : forall m', holders m' (l1 ++ Inside m p0 p' jobs :: l2) = holders m' (l1 ++ Inside m p0 p jobs :: l2)) by (intros; by rewrite !holders_split).
  split; cbn [fst snd lk_lock lk_data lk_history].
  - intros m'. by rewrite E.
  - rewrite !E. exact W.
  - rewrite E. exact U.
  - exists d1. split; [exact S1|]. apply Forall_split in S2 as [S4 S2]. cbn [within] in S4. rewrite E. destruct (decide (m = Exclusive)) as [->|Hm].
    + split; [|intros H0; rewrite holders_split in H0; cbn [holds] in H0; rewrite decide_True in H0 by done; lia]. apply Forall_split. split; [by eapply rtc_r|].
      apply outside_within. by eapply writer_alone.
    + rewrite (Hread Hm) in *. split; [|exact S3]. apply Forall_split. split; [by eapply rtc_r|done].
Qed.

Lemma inv_drops d0 l1 l2 m p0 p jobs l d h : locked_inv d0 (l1 ++ Inside m p0 p jobs :: l2, mkLocked l d h) ->
  locked_inv d0 (l1 ++ Outside jobs :: l2, mkLocked (drop_guard m l) d ((p0, p) :: h)).
Proof.
  intros Hi. pose proof Hi as [G W U (d1 & S1 & S2 & S3)]. cbn [fst snd lk_lock lk_data lk_history] in *.
  assert (E : forall m', holders m' (l1 ++ Inside m p0 p jobs :: l2) = ((if decide (m = m') then 1 else 0) + holders m' (l1 ++ Outside jobs :: l2))%nat)
    by (intros; by rewrite !holders_split).
  rewrite !E in W. rewrite E in U, S3. apply Forall_split in S2 as [S4 S2]. cbn [within] in S4. split; cbn [fst snd lk_lock lk_data lk_history].
  - intros m'. rewrite drop_guard_drops by (rewrite G, E, decide_True by done; lia). rewrite G, E.
    destruct (decide (m' = m)) as [->|]; [by rewrite decide_True|by rewrite decide_False].
  - intros H. repeat case_decide; lia.
  - case_decide; lia.
  - exists d. split; [by econstructor|]. split; [|done]. apply Forall_split. split; [done|].
    destruct (decide (m = Exclusive)) as [->|Hm]; [apply outside_within; by eapply writer_alone|].
    rewrite !holders_split in W. rewrite holders_split in S3. cbn [holds] in S3, W.
    assert (H0 : holders Exclusive (l1 ++ l2) = 0%nat) by (destruct m; repeat case_decide; lia || done).
    rewrite (S3 ltac:(lia)) in *. exact S2.
Qed.

Lemma inv_step d0 c c' : step c c' -> locked_inv d0 c -> locked_inv d0 c'.
Proof.
  intros [l1 a l2 s a' s' Hs] Hi. destruct Hs as [m p jobs [l d h]|m p jobs l l' d h E|m p jobs l l' d h E|m p0 p p' jobs l d d' h E1 E2|m p0 p jobs l d h E].
  - by eapply (inv_same d0 l1 _ l2 _ _ l Hi).
  - by eapply inv_gets.
  - eapply (inv_same d0 l1 _ l2 _ _ l' Hi); [done|done|]. by apply (round_fails m l l').
  - by eapply inv_acts.
  - by eapply inv_drops.
Qed.

Definition begin_locked (jobs : list (list (Mode * P))) (d0 : D) : list (Proc P) * Locked L P D :=
  (map Outside jobs, mkLocked rw_new d0 []).

Lemma begin_locked_inv jobs d0 : locked_inv d0 (begin_locked jobs d0).
Proof.
  assert (H : forall m, holders m (map Outside jobs) = 0%nat) by (intros m; induction jobs as [|j jobs IH]; [done|exact IH]).
  split; cbn [begin_locked fst snd lk_lock lk_data lk_history].
  - intros m. by rewrite guards_new, H.
  - rewrite H. lia.
  - rewrite H. lia.
  - exists d0. split; [constructor|]. split; [|done]. apply Forall_forall. intros a Ha. apply list_elem_of_fmap in Ha as (j & -> & _). done.
Qed.

Lemma reachable_inv jobs d0 c : rtc step (begin_locked jobs d0) c -> locked_inv d0 c.
Proof.
  intros H. pose proof (begin_locked_inv jobs d0) as Hi. revert Hi. induction H as [|c c1 c' Hs _ IH]; [done|]. intros Hi. by apply IH, (inv_step d0 c).
Qed.

(** The sections are those the processors were given, and the ended ones have
    finished. *)
Definition given (Q : P -> Prop) (a : Proc P) : Prop :=
  match a with
  | Outside jobs => Forall (fun j => Q j.2) jobs
  | Trying _ p jobs => Q p /\ Forall (fun j => Q j.2) jobs
  | Inside _ p0 _ jobs => Q p0 /\ Forall (fun j => Q j.2) jobs
  end.

Lemma reachable_given Q jobs d0 c : Forall (Forall (fun j => Q j.2)) jobs -> rtc step (begin_locked jobs d0) c ->
  Forall (given Q) c.1 /\ Forall (fun e => Q e.1 /\ finished e.2 = true) (lk_history c.2).
Proof.
  intros Hq H. assert (Hi : Forall (given Q) (begin_locked jobs d0).1 /\ Forall (fun e => Q e.1 /\ finished e.2 = true) (lk_history (begin_locked jobs d0).2)).
  { split; [|apply Forall_nil_2]. apply Forall_forall. intros a Ha. apply list_elem_of_fmap in Ha as (j & -> & Hj).
    rewrite Forall_forall in Hq. exact (Hq _ Hj). }
  revert Hi. clear Hq. induction H as [|c c1 c' Hs _ IH]; [done|]. intros [H1 H2]. apply IH. destruct Hs as [l1 a l2 s a' s' Hs]. cbn [fst snd] in *.
  apply Forall_split in H1 as [Ha H1]. rewrite Forall_split.
  destruct Hs; cbn [given lk_history] in *; (split; [split; [|exact H1]|]); try done; try (apply Forall_cons in Ha as [? ?]; done); try (by destruct Ha).
  apply Forall_cons_2; [|done]. by destruct Ha.
Qed.

(** Without guards the next attempt succeeds. *)
Lemma next_attempt jobs d0 ps s : rtc step (begin_locked jobs d0) (ps, s) -> (forall m, holders m ps = 0%nat) ->
  forall m, (acquire_round m (lk_lock s)).1 = true.
Proof.
  intros Hr H0 m. destruct (reachable_inv _ _ _ Hr) as [G _ _ _]. cbn [fst snd] in G. apply round_free. intros m'. by rewrite G.
Qed.
End Serial.

(** ** The id allocator *)

(** [ContextIdAllocator]: its lock, and its two cells with their borrow flags. *)
Record IdCells : Type := mkIdCells {
  id_lock : bool;
  head_cell : Z;
  head_borrowed : bool;
  recycled_cell : list Z;
  recycled_borrowed : bool
}.

(** Where a processor is in [alloc] or [dealloc]: before the exchange on the
    lock, a borrow, the work on a cell, the store to the lock, and the end of a
    borrow.  [IdOther] is a section that does not call the allocator. *)
Inductive IdPc : Type :=
  | AllocCas | AllocBorrow | AllocPop | AllocHeadBorrow | AllocHead | AllocHeadDrop (id : Z) | AllocStore (id : Z) | AllocDrop (id : Z)
  | DeallocCas (id : Z) | DeallocBorrow (id : Z) | DeallocFind (id : Z) | DeallocStore (r : Z) | DeallocDrop (r : Z)
  | IdReturn (r : Z) | IdPanicked | IdOther.

(** One access; [fails] says that the weak exchange fails although the lock is
    free.  The borrow of [recycled] ends at the end of the function, after the
    store to the lock. *)
Definition id_access (fails : bool) (p : IdPc) (c : IdCells) : option (IdPc * IdCells) :=
  let '(mkIdCells k h hb q qb) := c in
  match p with
  | AllocCas => Some (if k || fails then (AllocCas, c) else (AllocBorrow, mkIdCells true h hb q qb))
  | AllocBorrow => Some (if qb then (IdPanicked, c) else (AllocPop, mkIdCells k h hb q true))
  | AllocPop => Some (match q with [] => (AllocHeadBorrow, c) | id :: q => (AllocStore id, mkIdCells k h hb q qb) end)
  | AllocHeadBorrow => Some (if hb then (IdPanicked, c) else (AllocHead, mkIdCells k h true q qb))
  | AllocHead => Some (match u64_add h 1 with Done h => (AllocHeadDrop h, mkIdCells k h hb q qb) | _ => (IdPanicked, c) end)
  | AllocHeadDrop id => Some (AllocStore id, mkIdCells k h false q qb)
  | AllocStore id => Some (AllocDrop id, mkIdCells false h hb q qb)
  | AllocDrop id => Some (IdReturn id, mkIdCells k h hb q false)
  | DeallocCas id => Some (if k || fails then (DeallocCas id, c) else (DeallocBorrow id, mkIdCells true h hb q qb))
  | DeallocBorrow id => Some (if qb then (IdPanicked, c) else (DeallocFind id, mkIdCells k h hb q true))
  | DeallocFind id => Some (if decide (id ∈ q) then (DeallocStore 0, c) else (DeallocStore id, mkIdCells k h hb (q ++ [id]) qb))
  | DeallocStore r => Some (DeallocDrop r, mkIdCells false h hb q qb)
  | DeallocDrop r => Some (IdReturn r, mkIdCells k h hb q false)
  | IdReturn _ | IdPanicked | IdOther => None
  end.

#[global] Instance id_sections : Sections IdPc IdCells := {|
  act p c p' c' := exists fails, id_access fails p c = Some (p', c');
  finished p := match p with IdReturn _ | IdOther => true | _ => false end
|}.

(** The allocator between two calls. *)
Definition quiet (al : ContextIdAllocator) : IdCells := mkIdCells false (head al) false (recycled al) false.

(** What a call does in the sequential model. *)
Inductive id_call : ContextIdAllocator -> IdPc -> IdPc -> ContextIdAllocator -> Prop :=
  | call_alloc al id al' : id_alloc al = Done (id, al') -> id_call al AllocCas (IdReturn id) al'
  | call_dealloc al id r al' : id_dealloc id al = (r, al') -> id_call al (DeallocCas id) (IdReturn r) al'
  | call_other al : id_call al IdOther IdOther al.

(** Calls one after the other, the last one first. *)
Inductive id_calls (al : ContextIdAllocator) : list (IdPc * IdPc) -> ContextIdAllocator -> Prop :=
  | calls_nil : id_calls al [] al
  | calls_cons p0 p h al1 al2 : id_calls al h al1 -> id_call al1 p0 p al2 -> id_calls al ((p0, p) :: h) al2.

(** A call that began with the allocator at rest, before any access. *)
Definition along (al : ContextIdAllocator) (p0 p : IdPc) (c : IdCells) : Prop :=
  match p with
  | AllocCas => p0 = AllocCas /\ c = quiet al
  | AllocBorrow => p0 = AllocCas /\ c = mkIdCells true (head al) false (recycled al) false
  | AllocPop => p0 = AllocCas /\ c = mkIdCells true (head al) false (recycled al) true
  | AllocHeadBorrow => p0 = AllocCas /\ recycled al = [] /\ c = mkIdCells true (head al) false [] true
  | AllocHead => p0 = AllocCas /\ recycled al = [] /\ c = mkIdCells true (head al) true [] true
  | AllocHeadDrop id => p0 = AllocCas /\ id_alloc al = Done (id, mkIdAlloc id []) /\ c = mkIdCells true id true [] true
  | AllocStore id => p0 = AllocCas /\ exists al', id_alloc al = Done (id, al') /\ c = mkIdCells true (head al') false (recycled al') true
  | AllocDrop id => p0 = AllocCas /\ exists al', id_alloc al = Done (id, al') /\ c = mkIdCells false (head al') false (recycled al') true
  | DeallocCas id => p0 = DeallocCas id /\ c = quiet al
  | DeallocBorrow id => p0 = DeallocCas id /\ c = mkIdCells true (head al) false (recycled al) false
  | DeallocFind id => p0 = DeallocCas id /\ c = mkIdCells true (head al) false (recycled al) true
  | DeallocStore r => exists id al', p0 = DeallocCas id /\ id_dealloc id al = (r, al') /\ c = mkIdCells true (head al') false (recycled al') true
  | DeallocDrop r => exists id al', p0 = DeallocCas id /\ id_dealloc id al = (r, al') /\ c = mkIdCells false (head al') false (recycled al') true
  | IdReturn r => exists al', id_call al p0 (IdReturn r) al' /\ c = quiet al'
  | IdPanicked => p0 = AllocCas /\ id_alloc al = Panic
  | IdOther => p0 = IdOther /\ c = quiet al
  end.

Lemma along_access al p0 p c p' c' : along al p0 p c -> act p c p' c' -> along al p0 p' c'.
Proof.
  intros H (fails & E). destruct p; cbn [along] in H.
  - destruct H as [-> ->]. cbn in E. destruct fails; injection E as <- <-; done.
  - destruct H as [-> ->]. injection E as <- <-. done.
  - destruct H as [-> ->]. cbn in E. unfold along. destruct al as [h [|id q]]; injection E as <- <-; cbn; [done|]. split; [done|]. by eexists.
  - destruct H as (-> & Hq & ->). injection E as <- <-. done.
  - destruct H as (-> & Hq & ->). cbn in E. destruct (u64_add (head al) 1) as [v| |] eqn:Eu; injection E as <- <-; cbn; unfold id_alloc; rewrite Hq, Eu; [done|done|].
    unfold u64_add, checked in Eu. by case_match.
  - destruct H as (-> & Ha & ->). injection E as <- <-. split; [done|]. by eexists.
  - destruct H as (-> & al' & Ha & ->). injection E as <- <-. split; [done|]. by eexists.
  - destruct H as (-> & al' & Ha & ->). injection E as <- <-. exists al'. split; [by constructor|done].
  - destruct H as [-> ->]. cbn in E. destruct fails; injection E as <- <-; done.
  - destruct H as [-> ->]. injection E as <- <-. done.
  - destruct H as [-> ->]. cbn in E. destruct (decide (id ∈ recycled al)) as [Hd|Hd]; injection E as <- <-; exists id; eexists; (split; [done|]);
      unfold id_dealloc; [rewrite decide_True by done|rewrite decide_False by done]; done.
  - destruct H as (id & al' & -> & Hd & ->). injection E as <- <-. by exists id, al'.
  - destruct H as (id & al' & -> & Hd & ->). injection E as <- <-. exists al'. split; [by constructor|done].
  - by destruct c.
  - by destruct c.
  - by destruct c.
Qed.

Definition id_start (p : IdPc) : Prop := match p with AllocCas | DeallocCas _ | IdOther => True | _ => False end.

Lemma along_start al p0 p c : id_start p0 -> rtc (fun x y => act x.1 x.2 y.1 y.2) (p0, quiet al) (p, c) -> along al p0 p c.
Proof.
  intros Hs H. assert (Hi : along al p0 (p0, quiet al).1 (p0, quiet al).2) by (by destruct p0). revert Hi.
  change (along al p0 p c) with (along al p0 (p, c).1 (p, c).2). generalize (p0, quiet al) as x, (p, c) as y, H. clear H.
  intros x y H. induction H as [|x x' y Hx _ IH]; [done|]. intros Hi. by eapply IH, along_access.
Qed.

Lemma serial_calls n h c : serial (quiet n) h c -> Forall (fun e => id_start e.1 /\ finished e.2 = true) h ->
  exists al, id_calls n h al /\ c = quiet al.
Proof.
  induction 1 as [|p0 p h c c' _ IH Hr]; intros Hh; [exists n; by split; [constructor|]|].
  apply Forall_cons in Hh as [[Hs Hf] Hh]. destruct (IH Hh) as (al & Hc & ->). pose proof (along_start _ _ _ _ Hs Hr) as Ha. cbn [fst snd] in *.
  destruct p; try done; cbn [along] in Ha.
  - destruct Ha as (al' & Hcall & ->). exists al'. split; [by econstructor|done].
  - destruct Ha as [-> ->]. exists al. split; [|done]. econstructor; [done|constructor].
Qed.

(** C30. Behind the lock of the context storage the id allocator works for any
    number of processors, in whatever order they take their steps and however
    often a weak exchange fails: the calls that ended returned what the
    sequential allocator returns for them one after the other; a call that is
    under way has its cells to itself, so it does not panic on a borrowed cell
    but only where the sequential allocator runs out of numbers; and between two
    calls the cells hold the sequential allocator. *)
Theorem ids_one_after_the_other {L} {RW : RwLock L} {RS : RwLockSpec L RW} (jobs : list (list (Mode * IdPc))) n ps (s : Locked L IdPc IdCells) :
  Forall (Forall (fun j => id_start j.2 /\ (j.2 <> IdOther -> j.1 = Exclusive))) jobs ->
  rtc step (begin_locked jobs (quiet (id_allocator_new n))) (ps, s) ->
  exists al, id_calls (id_allocator_new n) (lk_history s) al /\
    Forall (fun a => forall m p0 p js, a = Inside m p0 p js -> along al p0 p (lk_data s)) ps /\
    (holders Exclusive ps = 0%nat -> lk_data s = quiet al).
Proof.
  intros Hj Hr. destruct (reachable_inv _ _ _ Hr) as [_ _ _ (d & S1 & S2 & S3)]. cbn [fst snd] in *.
  destruct (reachable_given id_start _ _ _ ltac:(eapply Forall_impl; [exact Hj|]; intros js H; eapply Forall_impl; [exact H|]; by intros ? [? _]) Hr) as [G1 G2].
  cbn [fst snd] in *. destruct (serial_calls _ _ _ S1 G2) as (al & Hc & ->). exists al. split; [done|]. split; [|done].
  apply Forall_forall. intros a Ha m p0 p js ->. rewrite Forall_forall in S2, G1. destruct (G1 _ Ha) as [Hs _].
  exact (along_start _ _ _ _ Hs (S2 _ Ha)).
Qed.

(** C29. However the processors that use the loops of an address space, or the
    context storage, take their steps: a processor with the writer's guard is
    alone inside, and at most one has an upgradeable guard; the data is what the
    whole sections make of it one after the other in the order in which their
    guards were dropped, followed by the steps of the writer that is inside; so a
    reader sees one value for as long as it has its guard; and when nobody is
    inside, whoever tries next gets in. *)
Theorem sections_serialise {L P D} {RW : RwLock L} {RS : RwLockSpec L RW} {SE : Sections P D} (jobs : list (list (Mode * P))) d0 ps
    (s : Locked L P D) :
  rtc step (begin_locked jobs d0) (ps, s) ->
  ((0 < holders Exclusive ps)%nat -> holders Exclusive ps = 1%nat /\ holders Shared ps = 0%nat /\ holders Upgradeable ps = 0%nat) /\
  (holders Upgradeable ps <= 1)%nat /\
  (exists d, serial d0 (lk_history s) d /\ Forall (within d (lk_data s)) ps /\ (holders Exclusive ps = 0%nat -> lk_data s = d)) /\
  ((forall m, holders m ps = 0%nat) -> forall m, (acquire_round m (lk_lock s)).1 = true).
Proof.
  intros Hr. destruct (reachable_inv _ _ _ Hr) as [_ W U S]. split; [exact W|]. split; [exact U|]. split; [exact S|].
  by eapply next_attempt.
Qed.

Lemma accesses_l fails p c p' c' x : id_access fails p c = Some (p', c') ->
  rtc (fun x y => act x.1 x.2 y.1 y.2) (p', c') x -> rtc (fun x y => act x.1 x.2 y.1 y.2) (p, c) x.
Proof. intros H Hr. eapply rtc_l; [|exact Hr]. by exists fails. Qed.

(** The allocator's own lock would not be enough: it is released before the
    borrow of [recycled] ends, and a processor that gets it in between panics. *)
Theorem id_lock_too_early al id al' : id_alloc al = Done (id, al') ->
  exists c1 c2, rtc (fun x y => act x.1 x.2 y.1 y.2) (AllocCas, quiet al) (AllocDrop id, c1) /\
    act AllocCas c1 AllocBorrow c2 /\ act AllocBorrow c2 IdPanicked c2.
Proof.
  intros H. exists (mkIdCells false (head al') false (recycled al') true), (mkIdCells true (head al') false (recycled al') true).
  split; [|split; by exists false].
  do 2 (eapply (accesses_l false); [reflexivity|]). unfold id_alloc in H. destruct al as [h [|i q]]; cbn [recycled head] in *.
  - apply bind_Done_1 in H as (v & Ev & [= <- <-]). do 2 (eapply (accesses_l false); [reflexivity|]).
    eapply (accesses_l false); [cbn; by rewrite Ev|]. do 2 (eapply (accesses_l false); [reflexivity|]). apply rtc_refl.
  - injection H as <- <-. do 2 (eapply (accesses_l false); [reflexivity|]). apply rtc_refl.
Qed.

(** ** A cell around a mutex *)

(** [UPSafeCell<Mutex<T>>], as the frame allocator and the heap have it. *)
Record CellMutex (T : Type) : Type := mkCellMutex { cm_borrowed : bool; cm_locked : bool; cm_value : T }.
Arguments mkCellMutex {T}.

Inductive CellPc : Type := CellBorrow | CellLock | CellWork | CellUnlock | CellDrop | CellDone | CellPanicked.

(** One access of [with_frame_alloc], or of the delegate of the heap: the borrow
    of the cell comes before the lock of the mutex, and ends after it. *)
Definition cell_access {T} (f : T -> T) (p : CellPc) (c : CellMutex T) : CellPc * CellMutex T :=
  let '(mkCellMutex b k v) := c in
  match p with
  | CellBorrow => if b then (CellPanicked, c) else (CellLock, mkCellMutex true k v)
  | CellLock => if k then (CellLock, c) else (CellWork, mkCellMutex b true v)
  | CellWork => (CellUnlock, mkCellMutex b k (f v))
  | CellUnlock => (CellDrop, mkCellMutex b false v)
  | CellDrop => (CellDone, mkCellMutex false k v)
  | CellDone | CellPanicked => (p, c)
  end.

Definition cell_accesses {T} (f : T -> T) (n : nat) (x : CellPc * CellMutex T) : CellPc * CellMutex T :=
  Nat.iter n (fun x => cell_access f x.1 x.2) x.

(** A processor on its own does its work; but while it does, the mutex never
    makes another one wait: the other one panics on the cell. *)
Theorem cell_before_mutex {T} (f g : T -> T) v :
  cell_accesses f 5 (CellBorrow, mkCellMutex false false v) = (CellDone, mkCellMutex false false (f v)) /\
  forall n, (0 < n < 5)%nat ->
    (cell_access g CellBorrow (cell_accesses f n (CellBorrow, mkCellMutex false false v)).2).1 = CellPanicked.
Proof. split; [done|]. intros n Hn. by destruct n as [|[|[|[|[|n]]]]]; try lia. Qed.

(** ** An instance: a lock that counts its guards *)

Record CountingLock : Type := mkCounting { cl_readers : nat; cl_upgradeable : nat; cl_writers : nat }.

#[local] Instance counting_lock : RwLock CountingLock := {|
  rw_new := mkCounting 0 0 0;
  try_read l := match l with mkCounting r u 0 => (true, mkCounting (S r) u 0) | _ => (false, l) end;
  try_upgradeable_read l := match l with mkCounting r 0 0 => (true, mkCounting r 1 0) | _ => (false, l) end;
  try_write l := match l with mkCounting 0 0 0 => (true, mkCounting 0 0 1) | _ => (false, l) end;
  drop_guard m l := match m with
    | Shared => mkCounting (pred (cl_readers l)) (cl_upgradeable l) (cl_writers l)
    | Upgradeable => mkCounting (cl_readers l) (pred (cl_upgradeable l)) (cl_writers l)
    | Exclusive => mkCounting (cl_readers l) (cl_upgradeable l) (pred (cl_writers l))
    end
|}.

#[local] Instance counting_lock_spec : RwLockSpec CountingLock counting_lock.
Proof.
  refine {| guards l m := match m with Shared => cl_readers l | Upgradeable => cl_upgradeable l | Exclusive => cl_writers l end |}.
  - by intros [].
  - intros [r u [|w]] l' E; simplify_eq/=. by repeat split; intros [].
  - intros [r u [|w]] l' E; simplify_eq/=. by intros [].
  - intros [r u w] H. pose proof (H Exclusive). cbn in *. by subst.
  - intros [r [|u] [|w]] l' E; simplify_eq/=. by repeat split; intros [].
  - intros [r [|u] [|w]] l' E; simplify_eq/=; by intros [].
  - intros [r u w] H. pose proof (H Upgradeable). pose proof (H Exclusive). cbn in *. by subst.
  - intros [[|r] [|u] [|w]] l' E; simplify_eq/=. by repeat split; intros [].
  - intros [[|r] [|u] [|w]] l' E; simplify_eq/=; by intros [].
  - intros [r u w] H. pose proof (H Shared). pose proof (H Upgradeable). pose proof (H Exclusive). cbn in *. by subst.
  - by intros [] l _ [].
Defined.

(** Two processors create a context each; the second tries while the first has
    the storage, and a weak exchange fails once. *)
Definition two_jobs : list (list (Mode * IdPc)) := [[(Exclusive, AllocCas)]; [(Exclusive, AllocCas)]].

Lemma first_steps {L P D} {RW : RwLock L} {SE : Sections P D} (a b : Proc P) (s : Locked L P D) a' s' x :
  proc_step a s a' s' -> rtc step ([a'; b], s') x -> rtc step ([a; b], s) x.
Proof. intros H. apply rtc_l. exact (step_one [] a [b] s a' s' H). Qed.
Lemma second_steps {L P D} {RW : RwLock L} {SE : Sections P D} (a b : Proc P) (s : Locked L P D) b' s' x :
  proc_step b s b' s' -> rtc step ([a; b'], s') x -> rtc step ([a; b], s) x.
Proof. intros H. apply rtc_l. exact (step_one [a] b [] s b' s' H). Qed.

(** A processor's next step. *)
Ltac proc_next := first [apply ps_begin | apply ps_gets; reflexivity | apply ps_spins; reflexivity | apply ps_drops; reflexivity |
  apply ps_acts; [exists false; reflexivity|done]].

Lemma two_run : exists s : Locked CountingLock IdPc IdCells,
  rtc step (begin_locked two_jobs (quiet (id_allocator_new 4))) ([Outside []; Outside []], s) /\
  lk_history s = [(AllocCas, IdReturn 6); (AllocCas, IdReturn 5)] /\ lk_data s = quiet (mkIdAlloc 6 []).
Proof.
  eexists (mkLocked (mkCounting 0 0 0) (quiet (mkIdAlloc 6 [])) _). split; [|split; reflexivity].
  unfold begin_locked, two_jobs. cbn [map].
  do 2 (eapply first_steps; [proc_next|]). do 2 (eapply second_steps; [proc_next|]).
  eapply first_steps; [apply ps_acts; [exists true; reflexivity|done]|].
  do 9 (eapply first_steps; [proc_next|]). do 10 (eapply second_steps; [proc_next|]). apply rtc_refl.
Qed.

Lemma ids_one_after_the_other_witness :
  exists al, id_calls (id_allocator_new 4) [(AllocCas, IdReturn 6); (AllocCas, IdReturn 5)] al /\ quiet (mkIdAlloc 6 []) = quiet al.
Proof.
  destruct two_run as (s & Hr & Hh & Hd).
  destruct (ids_one_after_the_other two_jobs 4 [Outside []; Outside []] s) as (al & Hc & _ & Hq); [|exact Hr|].
  - repeat constructor.
  - exists al. rewrite <- Hh, <- Hd. split; [exact Hc|]. by apply Hq.
Defined.

Lemma sections_serialise_witness :
  exists d, serial (quiet (id_allocator_new 4)) [(AllocCas, IdReturn 6); (AllocCas, IdReturn 5)] d /\ quiet (mkIdAlloc 6 []) = d.
Proof.
  destruct two_run as (s & Hr & Hh & Hd).
  destruct (sections_serialise two_jobs (quiet (id_allocator_new 4)) [Outside []; Outside []] s Hr) as (_ & _ & (d & Hs & _ & Hq) & _).
  exists d. rewrite <- Hh, <- Hd. split; [exact Hs|]. by apply Hq.
Defined.
