(* ===== verification/FramebufferWriter.v ===== *)
(** * Text on the framebuffer

    [shared/src/framebuffer_writer.rs], the log output of the kernel, and the
    choice of a video mode in [bootloader-efi/src/framebuffer.rs].  The font is
    a library: what it promises about its glyphs is the class [Font]. *)

From S2P Require Import Prelude Shared.

(** [noto_sans_mono_bitmap] at size 16: glyphs of 16 rows of the same width, with
    one for the replacement character. *)
Class Font : Type := {
  raster_width : Z;
  get_raster : Z -> option (list (list Z))
}.

Definition SIZE16 : Z := 16.
Definition REPLACEMENT : Z := 0xfffd.

Definition glyph_ok (w : Z) (rows : list (list Z)) : Prop :=
  Z.of_nat (length rows) = SIZE16 /\ Forall (fun row => Z.of_nat (length row) = w) rows.

Class FontSpec (F : Font) : Prop := {
  raster_width_pos : 0 < raster_width < 2 ^ 32;
  get_raster_ok c rows : get_raster c = Some rows -> glyph_ok raster_width rows;
  get_raster_replacement : is_Some (get_raster REPLACEMENT)
}.

(** ** The writer *)

Definition LINE_SPACING : Z := 2.
Definition LETTER_SPACING : Z := 0.
Definition BORDER_PADDING : Z := 1.

Definition PIXEL_RGB : Z := 1.
Definition PIXEL_BGR : Z := 2.

Record FrameBufferWriter : Type := mkWriter {
  framebuffer : Framebuffer;
  buffer_slice : list Z;
  curr_x_pos : Z;
  curr_y_pos : Z
}.

Definition set_cursor (x y : Z) (w : FrameBufferWriter) : FrameBufferWriter :=
  mkWriter (framebuffer w) (buffer_slice w) x y.
Definition set_buffer (b : list Z) (w : FrameBufferWriter) : FrameBufferWriter :=
  mkWriter (framebuffer w) b (curr_x_pos w) (curr_y_pos w).

Definition clear (w : FrameBufferWriter) : FrameBufferWriter :=
  mkWriter (framebuffer w) (replicate (length (buffer_slice w)) 0) BORDER_PADDING BORDER_PADDING.

(** [FrameBufferWriter::new], on the bytes at the framebuffer's address *)
Definition writer_new (fb : Framebuffer) (bytes : list Z) : FrameBufferWriter := clear (mkWriter fb bytes 0 0).

Definition carriage_return (w : FrameBufferWriter) : FrameBufferWriter := set_cursor BORDER_PADDING (curr_y_pos w) w.

Definition newline (w : FrameBufferWriter) : outcome FrameBufferWriter :=
  y ← u64_add (curr_y_pos w) (SIZE16 + LINE_SPACING);
  Done (carriage_return (set_cursor (curr_x_pos w) y w)).

Definition color_of (format intensity : Z) : outcome (list Z) :=
  if format =? PIXEL_RGB then Done [intensity; intensity; intensity / 2; 0]
  else if format =? PIXEL_BGR then Done [intensity / 2; intensity; intensity; 0]
  else Panic.

(** [slice[off..off + n].copy_from_slice(..)] *)
Definition splice (off : nat) (v b : list Z) : list Z := take off b ++ v ++ drop (off + length v) b.

Definition write_pixel (x y intensity : Z) (w : FrameBufferWriter) : outcome FrameBufferWriter :=
  p ← u64_mul y (fb_stride (framebuffer w));
  pixel_offset ← u64_add p x;
  color ← color_of (fb_pixel_format (framebuffer w)) intensity;
  byte_offset ← u64_mul pixel_offset 4;
  byte_end ← u64_add byte_offset 4;
  _ ← rassert (byte_end <=? Z.of_nat (length (buffer_slice w)));
  Done (set_buffer (splice (Z.to_nat byte_offset) color (buffer_slice w)) w).

Definition enumerate {T} (l : list T) : list (Z * T) := zip (seqZ 0 (Z.of_nat (length l))) l.

(** The loops of [write_rendered_char]. *)
Definition write_row_pixel (y : Z) (w : FrameBufferWriter) (p : Z * Z) : outcome FrameBufferWriter :=
  px ← u64_add (curr_x_pos w) p.1;
  py ← u64_add (curr_y_pos w) y;
  write_pixel px py p.2 w.

Definition write_row (w : FrameBufferWriter) (p : Z * list Z) : outcome FrameBufferWriter :=
  foldM (write_row_pixel p.1) w (enumerate p.2).

Section Writer.
Context {F : Font}.

Definition get_raser_or_fallback (c : Z) : outcome (list (list Z)) :=
  match get_raster c with
  | Some r => Done r
  | None => or_panic (get_raster REPLACEMENT)
  end.

Definition write_rendered_char (rows : list (list Z)) (w : FrameBufferWriter) : outcome FrameBufferWriter :=
  w ← foldM write_row w (enumerate rows);
  x ← u64_add (curr_x_pos w) (raster_width + LETTER_SPACING);
  Done (set_cursor x (curr_y_pos w) w).

Definition write_char (w : FrameBufferWriter) (c : Z) : outcome FrameBufferWriter :=
  if c =? 10 then newline w
  else if c =? 13 then Done (carriage_return w)
  else
    new_xpos ← u64_add (curr_x_pos w) raster_width;
    w ← (if fb_width (framebuffer w) <=? new_xpos then newline w else Done w);
    y ← u64_add (curr_y_pos w) SIZE16;
    new_ypos ← u64_add y BORDER_PADDING;
    let w := if fb_height (framebuffer w) <=? new_ypos then clear w else w in
    rows ← get_raser_or_fallback c;
    write_rendered_char rows w.

(** [write_str], on the characters of the string *)
Definition write_str (s : list Z) (w : FrameBufferWriter) : outcome FrameBufferWriter := foldM write_char w s.
End Writer.

(** ** The screen *)

(** What is shown at a pixel. *)
Definition shown (w : FrameBufferWriter) (x y : Z) : list Z :=
  take 4 (drop (Z.to_nat ((y * fb_stride (framebuffer w) + x) * 4)) (buffer_slice w)).

(** A picture, and the cursor. *)
Record Screen : Type := mkScreen { sc_at : Z -> Z -> list Z; sc_x : Z; sc_y : Z }.

Definition color (format intensity : Z) : list Z :=
  if format =? PIXEL_RGB then [intensity; intensity; intensity / 2; 0] else [intensity / 2; intensity; intensity; 0].

(** A picture with a glyph whose upper left corner is at a point. *)
Definition draw (format cx cy : Z) (rows : list (list Z)) (at_ : Z -> Z -> list Z) : Z -> Z -> list Z := fun x y =>
  if (cx <=? x) && (cy <=? y) then
    match rows !! Z.to_nat (y - cy) ≫= (fun row => row !! Z.to_nat (x - cx)) with
    | Some i => color format i
    | None => at_ x y
    end
  else at_ x y.

(** One character: the line breaks when the glyph would reach the right border,
    and the screen is cleared when it would reach the lower one. *)
Definition type_char {F : Font} (fb : Framebuffer) (s : Screen) (c : Z) : Screen :=
  if c =? 10 then mkScreen (sc_at s) 1 (sc_y s + 18)
  else if c =? 13 then mkScreen (sc_at s) 1 (sc_y s)
  else
    let '(x, y) := if sc_x s + raster_width <? fb_width fb then (sc_x s, sc_y s) else (1, sc_y s + 18) in
    let '(at_, x, y) := if y + 17 <? fb_height fb then (sc_at s, x, y) else ((fun _ _ => [0; 0; 0; 0]), 1, 1) in
    let rows := default [] (match get_raster c with Some r => Some r | None => get_raster REPLACEMENT end) in
    mkScreen (draw (fb_pixel_format fb) x y rows at_) (x + raster_width) y.

(** ** Choosing a video mode *)

(** [protocol.modes(..).filter(..).max_by(..)]: of equal modes the last. *)
Definition largest_resolution_mode {Mode} (resolution : Mode -> Z * Z) (modes : list Mode) : option Mode :=
  let area m := (resolution m).1 * (resolution m).2 in
  fold_left (fun best m =>
    match best with
    | None => Some m
    | Some b => if area b <=? area m then Some m else Some b
    end) (List.filter (fun m => ((resolution m).1 <=? 1600) && ((resolution m).2 <=? 900)) modes) None.

(** ** Pixels *)

Lemma splice_length off v b : (off + length v <= length b)%nat -> length (splice off v b) = length b.
Proof. intros H. unfold splice. rewrite !length_app, length_take, length_drop. lia. Qed.

Lemma splice_lookup off v b i : (off + length v <= length b)%nat ->
  splice off v b !! i = if decide (off <= i < off + length v)%nat then v !! (i - off)%nat else b !! i.
Proof.
  intros H. unfold splice. case_decide as Hi.
  - rewrite lookup_app_r by (rewrite length_take; lia). rewrite length_take, Nat.min_l by lia. by rewrite lookup_app_l by lia.
  - destruct (decide (i < off)%nat).
    + rewrite lookup_app_l by (rewrite length_take; lia). by rewrite lookup_take_lt.
    + rewrite lookup_app_r by (rewrite length_take; lia). rewrite length_take, Nat.min_l by lia.
      rewrite lookup_app_r by lia. rewrite lookup_drop. f_equal. lia.
Qed.

Lemma splice_window off v b o : length v = 4%nat -> (off + 4 <= length b)%nat -> (o = off \/ o + 4 <= off \/ off + 4 <= o)%nat ->
  take 4 (drop o (splice off v b)) = if decide (o = off) then v else take 4 (drop o b).
Proof.
  intros Hv Hb Ho. apply list_eq. intros i. destruct (decide (i < 4)%nat).
  - rewrite lookup_take_lt, lookup_drop, splice_lookup, Hv by lia. case_decide as Hd.
    + rewrite decide_True by lia. f_equal. lia.
    + rewrite decide_False by lia. by rewrite lookup_take_lt, lookup_drop.
  - rewrite lookup_take_ge by lia. case_decide; [symmetry; apply lookup_ge_None_2; lia|by rewrite lookup_take_ge by lia].
Qed.

(** A framebuffer that has room for its picture and for a glyph in its corner. *)
Record fb_ok {F : Font} (fb : Framebuffer) (len : Z) : Prop := {
  fo_stride : fb_width fb <= fb_stride fb;
  fo_room : 4 * (fb_stride fb * fb_height fb) <= len < 2 ^ 63;
  fo_width : 1 + raster_width <= fb_width fb;
  fo_height : 17 <= fb_height fb;
  fo_format : fb_pixel_format fb = PIXEL_RGB \/ fb_pixel_format fb = PIXEL_BGR
}.

Section Spec.
Context {F : Font} {FS : FontSpec F}.
Context (fb : Framebuffer) (len : Z) (Hfb : fb_ok fb len).

Abbreviation stride := (fb_stride fb).
Abbreviation height := (fb_height fb).

(** The writer draws on this framebuffer, and its cursor is in bounds. *)
Record writes (w : FrameBufferWriter) : Prop := {
  wr_fb : framebuffer w = fb;
  wr_len : Z.of_nat (length (buffer_slice w)) = len
}.

Lemma stride_pos : 0 < stride < 2 ^ 63 /\ height < 2 ^ 63 /\ stride * height < 2 ^ 61.
Proof.
  destruct Hfb as [H1 H2 H3 H4 _]. pose proof raster_width_pos. nia.
Qed.

Lemma pixel_bounds x y : 0 <= x < stride -> 0 <= y < height -> 0 <= y * stride + x /\ (y * stride + x) * 4 + 4 <= len.
Proof. intros Hx Hy. destruct Hfb as [H1 H2 H3 H4 _]. nia. Qed.

Lemma pixel_distinct x y x' y' : 0 <= x < stride -> 0 <= x' < stride -> y * stride + x = y' * stride + x' -> x = x' /\ y = y'.
Proof.
  intros Hx Hx' E. assert (y = y') as ->; [|lia].
  assert (Ed : forall a b, 0 <= b < stride -> (a * stride + b) / stride = a).
  { intros a b Hb. rewrite Z.div_add_l, Z.div_small by lia. lia. }
  rewrite <- (Ed y x Hx), E. by apply Ed.
Qed.

Lemma color_of_ok i : color_of (fb_pixel_format fb) i = Done (color (fb_pixel_format fb) i) /\
  length (color (fb_pixel_format fb) i) = 4%nat.
Proof. destruct (fo_format _ _ Hfb) as [-> | ->]; done. Qed.

Lemma write_pixel_ok w x y i : writes w -> 0 <= x < stride -> 0 <= y < height ->
  exists w', write_pixel x y i w = Done w' /\ writes w' /\
    curr_x_pos w' = curr_x_pos w /\ curr_y_pos w' = curr_y_pos w /\
    (forall x' y', 0 <= x' < stride -> 0 <= y' < height ->
       shown w' x' y' = if decide (x' = x /\ y' = y) then color (fb_pixel_format fb) i else shown w x' y').
Proof.
  intros [W1 W2] Hx Hy. destruct (pixel_bounds x y Hx Hy) as [B1 B2]. destruct stride_pos as (S1 & S2 & S3).
  destruct (color_of_ok i) as [C1 C2]. destruct (fo_room _ _ Hfb) as [_ Hl].
  unfold write_pixel, u64_mul, u64_add. rewrite W1.
  rewrite (checked_in 64 (y * stride)), Done_bind by nia. rewrite checked_in, Done_bind by lia.
  rewrite C1, Done_bind, checked_in, Done_bind by lia. rewrite checked_in, Done_bind by lia.
  rewrite W2, (proj2 (Z.leb_le _ _)) by lia. cbn [rassert]. rewrite Done_bind.
  eexists. split; [done|]. split; [split; [done|]|split; [done|split; [done|]]].
  - cbn [set_buffer buffer_slice]. by rewrite splice_length by lia.
  - intros x' y' Hx' Hy'. unfold shown. cbn [set_buffer buffer_slice framebuffer]. rewrite W1.
    destruct (pixel_bounds x' y' Hx' Hy') as [B1' B2'].
    rewrite splice_window by (done || lia).
    destruct (decide (x' = x /\ y' = y)) as [[-> ->]|Hne]; [by rewrite decide_True|].
    rewrite decide_False; [done|]. intros E. apply Hne. apply pixel_distinct; [done|done|lia].
Qed.

(** The part of a row from its [k]-th pixel on. *)
Lemma write_row_ok y row : forall k w, writes w -> 0 <= k -> 0 <= curr_x_pos w -> 0 <= y -> 0 <= curr_y_pos w + y < height ->
  curr_x_pos w + k + Z.of_nat (length row) <= stride ->
  exists w', foldM (write_row_pixel y) w (zip (seqZ k (Z.of_nat (length row))) row) = Done w' /\ writes w' /\
    curr_x_pos w' = curr_x_pos w /\ curr_y_pos w' = curr_y_pos w /\
    (forall x' y', 0 <= x' < stride -> 0 <= y' < height ->
       shown w' x' y' =
         if decide (y' = curr_y_pos w + y /\ curr_x_pos w + k <= x') then
           match row !! Z.to_nat (x' - (curr_x_pos w + k)) with
           | Some i => color (fb_pixel_format fb) i
           | None => shown w x' y'
           end
         else shown w x' y').
Proof.
  induction row as [|i row IH]; intros k w Hw Hk Hx Hy Hyb Hxb.
  { exists w. split; [done|]. split; [done|]. split; [done|]. split; [done|]. intros x' y' _ _. by case_decide. }
  cbn [length] in *. rewrite seqZ_cons by lia. cbn [zip zip_with foldM]. destruct stride_pos as (S1 & S2 & S3).
  assert (Ep : write_row_pixel y w (k, i) = write_pixel (curr_x_pos w + k) (curr_y_pos w + y) i w).
  { unfold write_row_pixel, u64_add. cbn [fst snd]. by rewrite !checked_in, !Done_bind by lia. }
  rewrite Ep. clear Ep. destruct (write_pixel_ok w (curr_x_pos w + k) (curr_y_pos w + y) i Hw ltac:(lia) Hyb) as (w1 & -> & W1 & X1 & Y1 & P1).
  rewrite Done_bind. replace (Z.pred (Z.of_nat (S (length row)))) with (Z.of_nat (length row)) by lia.
  destruct (IH (Z.succ k) w1) as (w2 & E2 & W2 & X2 & Y2 & P2); try done; try (rewrite ?X1, ?Y1; lia).
  exists w2. split; [exact E2|]. split; [done|]. split; [congruence|]. split; [congruence|].
  intros x' y' Hx' Hy'. rewrite P2, X1, Y1, P1 by done. clear P1 P2 IH E2.
  destruct (decide (y' = curr_y_pos w + y)) as [->|Hny].
  - destruct (Z.lt_trichotomy x' (curr_x_pos w + k)) as [Hlt|[->|Hgt]].
    + rewrite !decide_False by lia. done.
    + rewrite (decide_False (P := _ /\ curr_x_pos w + Z.succ k <= _)) by lia.
      rewrite !decide_True by lia. by rewrite Z.sub_diag.
    + rewrite (decide_True (P := _ /\ curr_x_pos w + Z.succ k <= _)) by lia.
      rewrite (decide_True (P := _ /\ curr_x_pos w + k <= _)), decide_False by lia.
      replace (Z.to_nat (x' - (curr_x_pos w + k))) with (S (Z.to_nat (x' - (curr_x_pos w + Z.succ k)))) by lia. done.
  - rewrite !decide_False by lia. done.
Qed.

Lemma write_rows_ok rows : forall k w, writes w -> 0 <= k -> 0 <= curr_x_pos w -> 0 <= curr_y_pos w ->
  curr_x_pos w + raster_width <= stride -> curr_y_pos w + k + Z.of_nat (length rows) <= height ->
  Forall (fun row => Z.of_nat (length row) = raster_width) rows ->
  exists w', foldM write_row w (zip (seqZ k (Z.of_nat (length rows))) rows) = Done w' /\ writes w' /\
    curr_x_pos w' = curr_x_pos w /\ curr_y_pos w' = curr_y_pos w /\
    (forall x' y', 0 <= x' < stride -> 0 <= y' < height ->
       shown w' x' y' = draw (fb_pixel_format fb) (curr_x_pos w) (curr_y_pos w + k) rows (shown w) x' y').
Proof.
  induction rows as [|row rows IH]; intros k w Hw Hk Hx Hy Hxb Hyb Hrows.
  { exists w. split; [done|]. split; [done|]. split; [done|]. split; [done|]. intros x' y' _ _. unfold draw.
    rewrite lookup_nil. by destruct (_ && _). }
  apply Forall_cons in Hrows as [Hrow Hrows]. cbn [length] in *. rewrite seqZ_cons by lia. cbn [zip zip_with foldM].
  destruct (write_row_ok k row 0 w Hw) as (w1 & E1 & W1 & X1 & Y1 & P1); try lia.
  change (write_row w (k, row)) with (foldM (write_row_pixel k) w (zip (seqZ 0 (Z.of_nat (length row))) row)). rewrite E1.
  rewrite Done_bind. replace (Z.pred (Z.of_nat (S (length rows)))) with (Z.of_nat (length rows)) by lia.
  destruct (IH (Z.succ k) w1) as (w2 & E2 & W2 & X2 & Y2 & P2); try done; try (rewrite ?X1, ?Y1; lia).
  exists w2. split; [exact E2|]. split; [done|]. split; [congruence|]. split; [congruence|].
  intros x' y' Hx' Hy'. rewrite P2, X1, Y1 by done. unfold draw. rewrite P1, Z.add_0_r by done. clear P1 P2 IH E2.
  destruct (Z.leb_spec (curr_x_pos w) x'); cbn [andb].
  2: { by rewrite decide_False by lia. }
  destruct (Z.lt_trichotomy y' (curr_y_pos w + k)) as [Hlt|[->|Hgt]].
  - rewrite !(proj2 (Z.leb_gt _ _)), decide_False by lia. done.
  - rewrite (proj2 (Z.leb_gt _ _)), (proj2 (Z.leb_le _ _)), Z.sub_diag by lia. by rewrite decide_True by lia.
  - rewrite !(proj2 (Z.leb_le _ _)), decide_False by lia.
    replace (Z.to_nat (y' - (curr_y_pos w + k))) with (S (Z.to_nat (y' - (curr_y_pos w + Z.succ k)))) by lia. done.
Qed.

(** ** Characters *)

Record views (w : FrameBufferWriter) (s : Screen) : Prop := {
  vi_writes : writes w;
  vi_x : curr_x_pos w = sc_x s;
  vi_y : curr_y_pos w = sc_y s;
  vi_at x y : 0 <= x < stride -> 0 <= y < height -> shown w x y = sc_at s x y
}.

(** The cursor is right of the border, and left of the width. *)
Definition cursor_ok (s : Screen) : Prop := 1 <= sc_x s <= fb_width fb /\ 1 <= sc_y s.

Lemma views_cursor w s x y : views w s -> views (set_cursor x y w) (mkScreen (sc_at s) x y).
Proof. intros [[H1 H1'] H2 H3 H4]. by split. Qed.

Lemma views_clear w s : views w s -> views (clear w) (mkScreen (fun _ _ => [0; 0; 0; 0]) 1 1).
Proof.
  intros [[H1 H1'] H2 H3 H4]. split; [split; [done|cbn; by rewrite length_replicate]|done|done|].
  intros x y Hx Hy. unfold shown. cbn [clear buffer_slice framebuffer sc_at]. rewrite H1, drop_replicate, take_replicate.
  destruct (pixel_bounds x y Hx Hy) as [B1 B2]. rewrite Nat.min_l by lia. done.
Qed.

Lemma newline_ok w s : views w s -> 0 <= sc_y s -> sc_y s + 18 < 2 ^ 64 ->
  exists w', newline w = Done w' /\ views w' (mkScreen (sc_at s) 1 (sc_y s + 18)).
Proof.
  intros Hv Hy Hb. unfold newline, u64_add. rewrite (vi_y _ _ Hv), checked_in, Done_bind by (unfold SIZE16, LINE_SPACING; lia).
  eexists. split; [done|]. apply (views_cursor (set_cursor (curr_x_pos w) (sc_y s + 18) w) (mkScreen (sc_at s) (curr_x_pos w) (sc_y s + 18)) 1 (sc_y s + 18)).
  by apply views_cursor.
Qed.

Lemma draw_ext format cx cy rows at1 at2 x y : at1 x y = at2 x y ->
  draw format cx cy rows at1 x y = draw format cx cy rows at2 x y.
Proof. intros E. unfold draw. rewrite E. done. Qed.

Lemma glyph_found c : exists rows, get_raser_or_fallback c = Done rows /\ glyph_ok raster_width rows /\
  default [] (match get_raster c with Some r => Some r | None => get_raster REPLACEMENT end) = rows.
Proof.
  unfold get_raser_or_fallback. destruct (get_raster c) as [r|] eqn:E.
  - exists r. split; [done|]. split; [by eapply get_raster_ok|done].
  - destruct get_raster_replacement as [r Hr]. rewrite Hr. exists r. split; [done|]. split; [by eapply get_raster_ok|done].
Qed.

(** A glyph at a cursor that leaves room for it. *)
Lemma write_rendered_char_ok rows w s : views w s -> glyph_ok raster_width rows ->
  1 <= sc_x s -> sc_x s + raster_width <= fb_width fb -> 1 <= sc_y s -> sc_y s + 16 <= height ->
  exists w', write_rendered_char rows w = Done w' /\
    views w' (mkScreen (draw (fb_pixel_format fb) (sc_x s) (sc_y s) rows (sc_at s)) (sc_x s + raster_width) (sc_y s)).
Proof.
  intros Hv [G1 G2] Hx Hxw Hy Hyh. pose proof Hv as [V1 V2 V3 V4]. pose proof (fo_stride _ _ Hfb). destruct stride_pos as (S1 & S2 & S3).
  pose proof raster_width_pos. unfold SIZE16 in G1.
  destruct (write_rows_ok rows 0 w V1) as (w1 & E1 & W1 & X1 & Y1 & P1); try done; try lia.
  unfold write_rendered_char, enumerate. rewrite E1, Done_bind, X1, V2. unfold u64_add. rewrite checked_in, Done_bind by (unfold LETTER_SPACING; lia).
  eexists. split; [done|]. unfold LETTER_SPACING. rewrite Z.add_0_r, Y1, V3. split; [by destruct W1; split|done|done|].
  intros x y Hx' Hy'. cbn [sc_at]. change (shown (set_cursor (sc_x s + raster_width) (sc_y s) w1) x y) with (shown w1 x y).
  rewrite P1, V2, V3, Z.add_0_r by done. apply draw_ext. by apply V4.
Qed.

Lemma write_char_ok w s c : views w s -> cursor_ok s -> sc_y s + 64 < 2 ^ 64 ->
  exists w', write_char w c = Done w' /\ views w' (type_char fb s c) /\ cursor_ok (type_char fb s c) /\
    sc_y (type_char fb s c) <= sc_y s + 18.
Proof.
  intros Hv [Hx Hy] Hb. pose proof Hfb as [H1 H2 H3 H4 H5]. destruct stride_pos as (S1 & S2 & S3). pose proof raster_width_pos as Hw.
  unfold write_char, type_char, cursor_ok. destruct (c =? 10).
  { destruct (newline_ok w s Hv) as (w' & -> & V'); [lia|lia|]. exists w'. cbn. split; [done|]. split; [done|]. lia. }
  destruct (c =? 13).
  { eexists. split; [done|]. unfold carriage_return. rewrite (vi_y _ _ Hv). split; [by apply views_cursor|]. cbn. lia. }
  unfold u64_add. rewrite (checked_in 64 (curr_x_pos w + raster_width)), Done_bind by (rewrite (vi_x _ _ Hv); lia).
  rewrite (wr_fb _ (vi_writes _ _ Hv)), (vi_x _ _ Hv).
  assert (H6 : exists w1 s1, (if fb_width fb <=? sc_x s + raster_width then newline w else Done w) = Done w1 /\ views w1 s1 /\
    (if sc_x s + raster_width <? fb_width fb then (sc_x s, sc_y s) else (1, sc_y s + 18)) = (sc_x s1, sc_y s1) /\ sc_at s1 = sc_at s /\
    1 <= sc_x s1 /\ sc_x s1 + raster_width <= fb_width fb /\ sc_y s <= sc_y s1 <= sc_y s + 18).
  { destruct (Z.leb_spec (fb_width fb) (sc_x s + raster_width)).
    - destruct (newline_ok w s Hv) as (w1 & -> & V1); [lia|lia|]. exists w1, (mkScreen (sc_at s) 1 (sc_y s + 18)).
      rewrite (proj2 (Z.ltb_ge _ _)) by lia. cbn. split_and!; done || lia.
    - exists w, s. rewrite (proj2 (Z.ltb_lt _ _)) by lia. split_and!; done || lia. }
  destruct H6 as (w1 & s1 & -> & V1 & -> & A1 & X1 & X1' & Y1). rewrite Done_bind. cbv beta iota.
  rewrite (vi_y _ _ V1), (checked_in 64 (sc_y s1 + SIZE16)), Done_bind by (unfold SIZE16; lia).
  rewrite checked_in, Done_bind by (unfold SIZE16, BORDER_PADDING; lia). rewrite (wr_fb _ (vi_writes _ _ V1)). cbv zeta.
  replace (sc_y s1 + SIZE16 + BORDER_PADDING) with (sc_y s1 + 17) by (unfold SIZE16, BORDER_PADDING; lia).
  assert (H7 : exists s2, views (if fb_height fb <=? sc_y s1 + 17 then clear w1 else w1) s2 /\
    (if sc_y s1 + 17 <? fb_height fb then (sc_at s, sc_x s1, sc_y s1) else ((fun _ _ => [0; 0; 0; 0]), 1, 1)) = (sc_at s2, sc_x s2, sc_y s2) /\
    1 <= sc_x s2 /\ sc_x s2 + raster_width <= fb_width fb /\ 1 <= sc_y s2 <= sc_y s1 /\ sc_y s2 + 16 <= height).
  { destruct (Z.leb_spec (fb_height fb) (sc_y s1 + 17)).
    - exists (mkScreen (fun _ _ => [0; 0; 0; 0]) 1 1). split; [by eapply views_clear|]. rewrite (proj2 (Z.ltb_ge _ _)) by lia. cbn. split_and!; done || lia.
    - exists s1. split; [done|]. rewrite (proj2 (Z.ltb_lt _ _)), A1 by lia. split_and!; done || lia. }
  destruct H7 as (s2 & V2 & -> & X2 & X2' & Y2 & Y2'). cbv beta iota.
  destruct (glyph_found c) as (rows & -> & G & ->). rewrite Done_bind.
  destruct (write_rendered_char_ok rows _ s2 V2 G X2 X2') as (w3 & E3 & V3); [lia|lia|].
  exists w3. split; [exact E3|]. split; [exact V3|]. cbn. lia.
Qed.

Lemma write_str_ok str : forall w s, views w s -> cursor_ok s -> sc_y s + 18 * Z.of_nat (length str) + 64 < 2 ^ 64 ->
  exists w', write_str str w = Done w' /\ views w' (fold_left (type_char fb) str s).
Proof.
  induction str as [|c str IH]; intros w s Hv Hc Hb; [by exists w|]. cbn [length] in Hb.
  destruct (write_char_ok w s c Hv Hc) as (w1 & E1 & V1 & C1 & Y1); [lia|].
  unfold write_str in *. cbn [foldM fold_left]. rewrite E1, Done_bind. apply IH; [done|done|lia].
Qed.

(** Text output: from a cleared writer, on a framebuffer with room for its
    picture, writing a string never panics or leaves the buffer, and the screen
    shows exactly what typing its characters on a blank picture shows. *)
Theorem write_str_types bytes str :
  Z.of_nat (length bytes) = len -> Z.of_nat (length str) < 2 ^ 59 ->
  let blank := mkScreen (fun _ _ => [0; 0; 0; 0]) 1 1 in
  exists w', write_str str (writer_new fb bytes) = Done w' /\
    length (buffer_slice w') = length bytes /\
    forall x y, 0 <= x < stride -> 0 <= y < height -> shown w' x y = sc_at (fold_left (type_char fb) str blank) x y.
Proof.
  intros Hl Hs blank.
  assert (V0 : views (mkWriter fb bytes 0 0) (mkScreen (shown (mkWriter fb bytes 0 0)) 0 0)) by (by split; [split| | |]).
  destruct (write_str_ok str (writer_new fb bytes) blank) as (w' & E & V).
  - by eapply views_clear.
  - unfold cursor_ok. cbn. pose proof (fo_width _ _ Hfb). pose proof raster_width_pos. lia.
  - cbn. lia.
  - exists w'. split; [exact E|]. destruct V as [[_ Wl] _ _ Vat]. split; [lia|exact Vat].
Qed.
End Spec.

(** The video mode chosen is permitted, and no permitted one is larger. *)
Theorem largest_resolution_mode_max {Mode} (res : Mode -> Z * Z) (modes : list Mode) :
  match largest_resolution_mode res modes with
  | Some m => m ∈ modes /\ (res m).1 <= 1600 /\ (res m).2 <= 900 /\
      forall m', m' ∈ modes -> (res m').1 <= 1600 -> (res m').2 <= 900 -> (res m').1 * (res m').2 <= (res m).1 * (res m).2
  | None => forall m', m' ∈ modes -> 1600 < (res m').1 \/ 900 < (res m').2
  end.
Proof.
  unfold largest_resolution_mode. set (area m := (res m).1 * (res m).2).
  set (l := List.filter _ modes).
  assert (Hl : forall m, m ∈ l <-> m ∈ modes /\ (res m).1 <= 1600 /\ (res m).2 <= 900).
  { intros m. rewrite !list_elem_of_In. unfold l. rewrite filter_In, andb_true_iff, !Z.leb_le. done. }
  assert (Hf : forall l b, match fold_left (fun best m => match best with None => Some m | Some b => if area b <=? area m then Some m else Some b end)
      l (Some b) with
    | Some m => (m = b \/ m ∈ l) /\ area b <= area m /\ forall m', m' ∈ l -> area m' <= area m
    | None => False
    end).
  { clear. induction l as [|a l IH]; intros b; cbn [fold_left].
    - split; [by left|]. split; [lia|]. by intros m' Hm'%not_elem_of_nil.
    - destruct (Z.leb_spec (area b) (area a)); [specialize (IH a)|specialize (IH b)].
      all: destruct (fold_left _ l _) as [m|]; [|done]; destruct IH as (I1 & I2 & I3); split; [rewrite elem_of_cons; tauto|].
      all: split; [lia|]; intros m' [->|Hm']%elem_of_cons; [lia|by apply I3]. }
  destruct l as [|a l'] eqn:El; cbn [fold_left].
  - intros m' Hm'. destruct (Z.le_gt_cases (res m').1 1600), (Z.le_gt_cases (res m').2 900); try lia.
    exfalso. assert (m' ∈ ([] : list Mode)) as []%not_elem_of_nil. by apply Hl.
  - specialize (Hf l' a). destruct (fold_left _ l' _) as [m|]; [|done]. destruct Hf as (I1 & I2 & I3).
    assert (Hm : m ∈ a :: l') by (rewrite elem_of_cons; tauto). apply Hl in Hm as (M1 & M2 & M3). split_and!; try done.
    intros m' H1 H2 H3. assert (Hin : m' ∈ a :: l') by (by apply Hl). apply elem_of_cons in Hin as [->|Hin]; [done|by apply I3].
Qed.

(** ** An instance: a font of two columns on a small screen *)

Definition small_font : Font := {| raster_width := 2; get_raster c := Some (replicate 16 [c mod 256; 0]) |}.

#[local] Existing Instance small_font.

Lemma small_font_spec : FontSpec small_font.
Proof.
  constructor; [simpl; lia| |by eexists]. intros c rows [= <-]. split; [done|]. by repeat constructor.
Qed.

#[local] Existing Instance small_font_spec.

Definition small_fb : Framebuffer := mkFramebuffer 0x80000000 1280 8 40 8 PIXEL_RGB.

Lemma small_fb_ok : fb_ok small_fb 1280.
Proof. split; cbn; lia. Qed.

(** Four letters: the fourth does not fit on the line. *)
Lemma write_str_types_witness :
  exists w', write_str [65; 66; 67; 68] (writer_new small_fb (replicate 1280 9)) = Done w' /\
    shown w' 3 1 = [66; 66; 33; 0] /\ shown w' 1 19 = [68; 68; 34; 0] /\ shown w' 7 39 = [0; 0; 0; 0].
Proof.
  destruct (write_str_types small_fb 1280 small_fb_ok (replicate 1280 9) [65; 66; 67; 68]) as (w' & E & _ & H); [done|done|].
  exists w'. split; [exact E|]. rewrite !H by (cbn; lia). split; [|split]; reflexivity.
Defined.
