(* ===== verification/Cpuid.v ===== *)
(** * The kernel's report on the processor

    [cpu_info] in [kernel/src/arch_spec/cpuid.rs].  The [raw_cpuid] crate answers
    the queries; a feature is named by the method that asks for it. *)

From S2P Require Import Prelude Text Shared FramebufferWriter.

Inductive CpuFeature : Type :=
| has_fpu | has_vme | has_de | has_pse | has_tsc | has_msr | has_pae | has_mce | has_cmpxchg8b | has_apic
| has_sysenter_sysexit | has_mtrr | has_pge | has_mca | has_cmov | has_pat | has_pse36 | has_psn
| has_clflush | has_ds | has_acpi | has_mmx | has_fxsave_fxstor | has_sse | has_sse2 | has_ss | has_htt
| has_tm | has_pbe | has_sse3 | has_pclmulqdq | has_ds_area | has_monitor_mwait | has_cpl | has_vmx | has_smx
| has_eist | has_tm2 | has_ssse3 | has_cnxtid | has_fma | has_cmpxchg16b | has_pdcm | has_pcid | has_dca
| has_sse41 | has_sse42 | has_x2apic | has_movbe | has_popcnt | has_tsc_deadline | has_aesni | has_xsave
| has_oxsave | has_avx | has_f16c | has_rdrand | has_64bit_mode | has_rdtscp | has_1gib_pages
| has_execute_disable | has_syscall_sysret | has_prefetchw | has_lzcnt | has_lahf_sahf | has_invariant_tsc
| has_fsgsbase | has_tsc_adjust_msr | has_bmi1 | has_hle | has_avx2 | has_smep | has_bmi2
| has_rep_movsb_stosb | has_invpcid | has_rtm | has_fpu_cs_ds_deprecated | has_mpx.

(** The answers of [CpuId]: a leaf that does not exist is [None], and one with
    flags says which features it reports. *)
Record CpuId : Type := mkCpuId {
  get_vendor_info : option (list Z);
  get_processor_brand_string : option (list Z);
  (** base, maximum and bus frequency *)
  get_processor_frequency_info : option (Z * Z * Z);
  get_feature_info : option (CpuFeature -> bool);
  get_extended_processor_and_feature_identifiers : option (CpuFeature -> bool);
  get_advanced_power_mgmt_info : option (CpuFeature -> bool);
  get_extended_feature_info : option (CpuFeature -> bool)
}.

(** What is printed for each feature, in order. *)
Definition feature_info_flags : list (CpuFeature * list Z) :=
  [(has_fpu, text " fpu"); (has_vme, text " vme"); (has_de, text " de"); (has_pse, text " pse");
   (has_tsc, text " tsc"); (has_msr, text " msr"); (has_pae, text " pae"); (has_mce, text " mce");
   (has_cmpxchg8b, text " cx8"); (has_apic, text " apic"); (has_sysenter_sysexit, text " sep");
   (has_mtrr, text " mtrr"); (has_pge, text " pge"); (has_mca, text " mca"); (has_cmov, text " cmov");
   (has_pat, text " pat"); (has_pse36, text " pse36"); (has_psn, text " psn");
   (has_clflush, text " clflush"); (has_ds, text " ds"); (has_acpi, text " acpi"); (has_mmx, text " mmx");
   (has_fxsave_fxstor, text " fxsr"); (has_sse, text " sse"); (has_sse2, text " sse2"); (has_ss, text " ss");
   (has_htt, text " ht"); (has_tm, text " tm"); (has_pbe, text " pbe"); (has_sse3, text " sse3");
   (has_pclmulqdq, text " pclmulqdq"); (has_ds_area, text " dtes64"); (has_monitor_mwait, text " monitor");
   (has_cpl, text " ds_cpl"); (has_vmx, text " vmx"); (has_smx, text " smx"); (has_eist, text " est");
   (has_tm2, text " tm2"); (has_ssse3, text " ssse3"); (has_cnxtid, text " cnxtid"); (has_fma, text " fma");
   (has_cmpxchg16b, text " cx16"); (has_pdcm, text " pdcm"); (has_pcid, text " pcid");
   (has_dca, text " dca"); (has_sse41, text " sse4_1"); (has_sse42, text " sse4_2");
   (has_x2apic, text " x2apic"); (has_movbe, text " movbe"); (has_popcnt, text " popcnt");
   (has_tsc_deadline, text " tsc_deadline_timer"); (has_aesni, text " aes"); (has_xsave, text " xsave");
   (has_oxsave, text " xsaveopt"); (has_avx, text " avx"); (has_f16c, text " f16c");
   (has_rdrand, text " rdrand")].

Definition extended_processor_flags : list (CpuFeature * list Z) :=
  [(has_64bit_mode, text " lm"); (has_rdtscp, text " rdtscp"); (has_1gib_pages, text " pdpe1gb");
   (has_execute_disable, text " nx"); (has_syscall_sysret, text " syscall_module");
   (has_prefetchw, text " prefetchw"); (has_lzcnt, text " lzcnt"); (has_lahf_sahf, text " lahf_lm")].

Definition power_mgmt_flags : list (CpuFeature * list Z) :=
  [(has_invariant_tsc, text " constant_tsc")].

Definition extended_feature_flags : list (CpuFeature * list Z) :=
  [(has_fsgsbase, text " fsgsbase"); (has_tsc_adjust_msr, text " tsc_adjust"); (has_bmi1, text " bmi1");
   (has_hle, text " hle"); (has_avx2, text " avx2"); (has_smep, text " smep"); (has_bmi2, text " bmi2");
   (has_rep_movsb_stosb, text " erms"); (has_invpcid, text " invpcid"); (has_rtm, text " rtm");
   (has_fpu_cs_ds_deprecated, text " fpu_seg"); (has_mpx, text " mpx")].

(** The [if info.has_..() { write!(..)? }] of a leaf. *)
Definition flag_chunks (info : option (CpuFeature -> bool)) (flags : list (CpuFeature * list Z)) : list (list Z) :=
  match info with
  | None => []
  | Some has => map snd (List.filter (fun p => has p.1) flags)
  end.

Definition newline_char : list Z := [10].

(** The [write!] and [writeln!] calls, one after the other: up to the features,
    and all of them. *)
Definition cpu_info_head (cpuid : CpuId) : list (list Z) :=
  [text "CPU Info: " ++ newline_char] ++
  match get_vendor_info cpuid with
  | Some info => [text "  Vendor: " ++ info ++ newline_char]
  | None => []
  end ++
  match get_processor_brand_string cpuid with
  | Some brand => [text "  Model: " ++ brand ++ newline_char]
  | None => []
  end ++
  match get_processor_frequency_info cpuid with
  | Some (base, max, bus) =>
      [text "  CPU Base MHz: " ++ fmt_dec base ++ newline_char; text "  CPU Max MHz: " ++ fmt_dec max ++ newline_char;
       text "  Bus MHz: " ++ fmt_dec bus ++ newline_char]
  | None => []
  end.

Definition cpu_info_chunks (cpuid : CpuId) : list (list Z) :=
  cpu_info_head cpuid ++
  [text "  Features:"] ++
  flag_chunks (get_feature_info cpuid) feature_info_flags ++
  flag_chunks (get_extended_processor_and_feature_identifiers cpuid) extended_processor_flags ++
  flag_chunks (get_advanced_power_mgmt_info cpuid) power_mgmt_flags ++
  flag_chunks (get_extended_feature_info cpuid) extended_feature_flags ++
  [newline_char].

(** [cpu_info], on the writer of the log; writing to it does not fail. *)
Definition cpu_info {F : Font} (cpuid : CpuId) (w : FrameBufferWriter) : outcome FrameBufferWriter :=
  foldM (fun w chunk => write_str chunk w) w (cpu_info_chunks cpuid).

(** ** Reading the report *)

(** The leaves with flags, and which features they report. *)
Inductive Leaf : Type := FeatureInfo | ExtendedProcessor | PowerMgmt | ExtendedFeature.

Definition leaf_info (cpuid : CpuId) (l : Leaf) : option (CpuFeature -> bool) :=
  match l with
  | FeatureInfo => get_feature_info cpuid
  | ExtendedProcessor => get_extended_processor_and_feature_identifiers cpuid
  | PowerMgmt => get_advanced_power_mgmt_info cpuid
  | ExtendedFeature => get_extended_feature_info cpuid
  end.

Definition leaf_flags (l : Leaf) : list (CpuFeature * list Z) :=
  match l with
  | FeatureInfo => feature_info_flags
  | ExtendedProcessor => extended_processor_flags
  | PowerMgmt => power_mgmt_flags
  | ExtendedFeature => extended_feature_flags
  end.

Definition reports (cpuid : CpuId) (l : Leaf) (f : CpuFeature) : bool :=
  match leaf_info cpuid l with Some has => has f | None => false end.

Definition tagged (l : Leaf) (flags : list (CpuFeature * list Z)) : list (Leaf * CpuFeature * list Z) :=
  map (fun p => (l, p.1, p.2)) flags.

(** Everything that can be printed. *)
Definition all_flags : list (Leaf * CpuFeature * list Z) :=
  tagged FeatureInfo feature_info_flags ++ tagged ExtendedProcessor extended_processor_flags ++
  tagged PowerMgmt power_mgmt_flags ++ tagged ExtendedFeature extended_feature_flags.

(** The names printed, without the blank in front. *)
Definition printed_names (cpuid : CpuId) : list (list Z) :=
  map (fun e => tail e.2) (List.filter (fun e => reports cpuid e.1.1 e.1.2) all_flags).

Lemma flag_chunks_tagged cpuid l flags :
  flag_chunks (leaf_info cpuid l) flags = map snd (List.filter (fun e => reports cpuid e.1.1 e.1.2) (tagged l flags)).
Proof.
  unfold flag_chunks, tagged. induction flags as [|p flags IH]; [by destruct (leaf_info cpuid l)|].
  cbn [map List.filter fst snd]. unfold reports at 1. destruct (leaf_info cpuid l) as [has|]; [|done].
  cbn [List.filter]. destruct (has p.1); [|done]. cbn [map snd]. by rewrite IH.
Qed.

(** Names begin with a blank, hold no other, and differ. *)
Lemma all_flags_names :
  Forall (fun e => e.2 = 32 :: tail e.2 /\ 32 ∉ tail e.2) all_flags /\ NoDup (map (fun e => tail e.2) all_flags).
Proof. split; apply (bool_decide_unpack _); vm_compute; exact I. Qed.

Lemma NoDup_map_inj {A B} (g : A -> B) l x y : NoDup (map g l) -> x ∈ l -> y ∈ l -> g x = g y -> x = y.
Proof.
  intros Hn [i Hi]%list_elem_of_lookup [j Hj]%list_elem_of_lookup E.
  assert (i = j) as ->; [|congruence]. eapply NoDup_lookup; [exact Hn|..].
  - change (map g l) with (g <$> l). by rewrite list_lookup_fmap, Hi.
  - change (map g l) with (g <$> l). by rewrite list_lookup_fmap, Hj, E.
Qed.

Lemma blanks_join names : concat (map (cons 32) names) = join [32] ([] :: names).
Proof. induction names as [|n names IH]; [done|]. cbn [map concat]. rewrite IH. destruct names; [cbn; by rewrite app_nil_r|done]. Qed.

Lemma chunks_shape (head a b c d : list (list Z)) (t e : list Z) :
  concat (head ++ [t] ++ a ++ b ++ c ++ d ++ [e]) = concat head ++ t ++ concat (a ++ b ++ c ++ d) ++ e.
Proof. rewrite !concat_app, <- !app_assoc. cbn [concat]. by rewrite !app_nil_r. Qed.

Lemma printed_chunks cpuid :
  flag_chunks (get_feature_info cpuid) feature_info_flags ++
  flag_chunks (get_extended_processor_and_feature_identifiers cpuid) extended_processor_flags ++
  flag_chunks (get_advanced_power_mgmt_info cpuid) power_mgmt_flags ++
  flag_chunks (get_extended_feature_info cpuid) extended_feature_flags = map (cons 32) (printed_names cpuid).
Proof.
  rewrite (flag_chunks_tagged cpuid FeatureInfo), (flag_chunks_tagged cpuid ExtendedProcessor),
    (flag_chunks_tagged cpuid PowerMgmt), (flag_chunks_tagged cpuid ExtendedFeature).
  rewrite <- !map_app, <- !List.filter_app. fold all_flags. unfold printed_names. rewrite map_map.
  apply map_ext_in. intros e [He _]%filter_In. apply list_elem_of_In in He.
  exact (proj1 (proj1 (Forall_forall _ _) (proj1 all_flags_names) e He)).
Qed.

Lemma in_all_flags l f name : (f, name) ∈ leaf_flags l -> (l, f, name) ∈ all_flags.
Proof.
  intros Hf. assert (Ht : (l, f, name) ∈ tagged l (leaf_flags l)).
  { apply list_elem_of_In, in_map_iff. exists (f, name). split; [reflexivity|]. by apply list_elem_of_In. }
  unfold all_flags. rewrite !elem_of_app. destruct l; cbn [leaf_flags] in Ht; tauto.
Qed.

Lemma printed_elem cpuid name :
  name ∈ printed_names cpuid <-> exists e, e ∈ all_flags /\ reports cpuid e.1.1 e.1.2 = true /\ tail e.2 = name.
Proof.
  unfold printed_names. generalize all_flags as l. intros l. rewrite list_elem_of_In, in_map_iff.
  split; intros (e & H1 & H2); exists e; rewrite filter_In, <- list_elem_of_In in *; tauto.
Qed.

(** The report ends in a line whose words are the names printed, and the name of
    a feature is among them exactly when its leaf reports it. *)
Theorem cpu_info_features cpuid :
  exists head line, concat (cpu_info_chunks cpuid) = head ++ text "  Features:" ++ line ++ [10] /\
    str_split [32] line = [] :: printed_names cpuid /\
    forall l f name, (f, 32 :: name) ∈ leaf_flags l -> (name ∈ printed_names cpuid <-> reports cpuid l f = true).
Proof.
  destruct all_flags_names as [Hb Hn]. rewrite Forall_forall in Hb.
  exists (concat (cpu_info_head cpuid)), (concat (map (cons 32) (printed_names cpuid))). split_and!.
  - rewrite <- printed_chunks. exact (chunks_shape _ _ _ _ _ _ _).
  - rewrite blanks_join. apply (split_join [] 32); [by intros ?%not_elem_of_nil|].
    apply Forall_cons. split; [by intros ?%not_elem_of_nil|]. apply Forall_forall.
    intros n (e & He & _ & <-)%printed_elem. exact (proj2 (Hb e He)).
  - intros l f name Hf%in_all_flags. rewrite printed_elem. split.
    + intros (e & He & Hr & E). by rewrite (NoDup_map_inj (fun e => tail e.2) all_flags e (l, f, 32 :: name) Hn He Hf E) in Hr.
    + intros Hr. exists (l, f, 32 :: name). split; [exact Hf|]. split; [exact Hr|reflexivity].
Qed.
