(* ===== verification/Logger.v ===== *)
(** * The logs

    [kernel/src/logger/mod.rs], [kernel/src/framebuffer.rs] and
    [kernel/src/device/qemu.rs], and [bootloader-efi/src/logger], which has a
    writer of its own.  The [log] crate is modelled by its macros: a record is
    dropped when its level is above the global one, and otherwise handed to the
    one logger that was set. *)

From S2P Require Import Prelude Text Shared FramebufferWriter Cpuid.

(** ** Records *)

Inductive Level : Type := Error | Warn | Info | Debug | Trace.

Definition level_num (l : Level) : Z := match l with Error => 1 | Warn => 2 | Info => 3 | Debug => 4 | Trace => 5 end.
Definition level_str (l : Level) : list Z :=
  match l with
  | Error => text "ERROR" | Warn => text "WARN" | Info => text "INFO" | Debug => text "DEBUG" | Trace => text "TRACE"
  end.

(** [log::set_max_level(LevelFilter::Debug)]. *)
Definition MAX_LEVEL : Level := Debug.
Definition level_enabled (l : Level) : bool := level_num l <=? level_num MAX_LEVEL.

(** [writeln!(.., "[{:5}]{}", record.level(), record.args())] in the kernel, and
    ["{:5}: {}"] in the bootloader. *)
Definition record_text (l : Level) (args : list Z) : list Z :=
  text "[" ++ pad_right 5 (level_str l) ++ text "]" ++ args ++ [10].
Definition boot_record_text (l : Level) (args : list Z) : list Z :=
  pad_right 5 (level_str l) ++ text ": " ++ args ++ [10].

(** [loghart!]: the processor in front of the message. *)
Definition hart_args (cpu_id : Z) (args : list Z) : list Z := text "[#" ++ fmt_dec cpu_id ++ text "] " ++ args.

(** ** The kernel's logger *)

(** [FramebufferLogger]: the writer behind its lock. *)
Record FramebufferLogger : Type := mkLogger { fl_writer : FrameBufferWriter; fl_locked : bool }.

(** [writer.lock()] for the time of [f]; a lock that is held is waited for. *)
Definition with_writer (f : FrameBufferWriter -> outcome FrameBufferWriter) (l : FramebufferLogger) : outcome FramebufferLogger :=
  if fl_locked l then OutOfFuel
  else
    w ← f (fl_writer l);
    Done (mkLogger w false).

Definition framebuffer_logger_new (fb : Framebuffer) (bytes : list Z) : FramebufferLogger := mkLogger (writer_new fb bytes) false.

(** [init_framebuffer]. *)
Definition init_framebuffer (kernel_arg : KernelArg) : Framebuffer :=
  mkFramebuffer (framebuffer_addr kernel_arg) (framebuffer_len kernel_arg) (framebuffer_width kernel_arg)
    (framebuffer_height kernel_arg) (framebuffer_stride kernel_arg) PIXEL_RGB.

Section Logger.
Context {F : Font}.

(** [<FramebufferLogger as Log>::log]. *)
Definition fb_log (level : Level) (args : list Z) (l : FramebufferLogger) : outcome FramebufferLogger :=
  with_writer (write_str (record_text level args)) l.

(** [log!], and [loghart!] on processor [cpu_id]. *)
Definition log (level : Level) (args : list Z) (l : FramebufferLogger) : outcome FramebufferLogger :=
  if level_enabled level then fb_log level args l else Done l.
Definition loghart (cpu_id : Z) (level : Level) (args : list Z) (l : FramebufferLogger) : outcome FramebufferLogger :=
  log level (hart_args cpu_id args) l.

Definition infohart (cpu_id : Z) : list Z -> FramebufferLogger -> outcome FramebufferLogger := loghart cpu_id Info.
Definition warnhart (cpu_id : Z) : list Z -> FramebufferLogger -> outcome FramebufferLogger := loghart cpu_id Warn.
Definition errorhart (cpu_id : Z) : list Z -> FramebufferLogger -> outcome FramebufferLogger := loghart cpu_id Error.

(** [init_framebuffer_logger], on the bytes of the framebuffer; when a logger was
    set before, it leaves through [exit_qemu], which does not return. *)
Definition init_framebuffer_logger (logger_set : bool) (fb : Framebuffer) (bytes : list Z) : outcome FramebufferLogger :=
  let logger := framebuffer_logger_new fb bytes in
  if logger_set then OutOfFuel
  else log Info (text "kernel framebuffer logger is initialized.") logger.

(** [cpu_info] holds the lock for the whole report. *)
Definition log_cpu_info (cpuid : CpuId) : FramebufferLogger -> outcome FramebufferLogger := with_writer (cpu_info cpuid).
End Logger.

(** ** The bootloader's writer *)

Definition boot_carriage_return (w : FrameBufferWriter) : FrameBufferWriter := set_cursor BORDER_PADDING (curr_y_pos w) w.

Definition boot_newline (w : FrameBufferWriter) : outcome FrameBufferWriter :=
  y ← u64_add (curr_y_pos w) (SIZE16 + LINE_SPACING);
  Done (boot_carriage_return (set_cursor (curr_x_pos w) y w)).

Definition boot_clear (w : FrameBufferWriter) : FrameBufferWriter :=
  mkWriter (framebuffer w) (replicate (length (buffer_slice w)) 0) BORDER_PADDING BORDER_PADDING.

Definition boot_writer_new (fb : Framebuffer) (bytes : list Z) : FrameBufferWriter := boot_clear (mkWriter fb bytes 0 0).

Definition boot_write_pixel (x y intensity : Z) (w : FrameBufferWriter) : outcome FrameBufferWriter :=
  let fb := framebuffer w in
  p ← u64_mul y (fb_stride fb);
  pixel_offset ← u64_add p x;
  color ← (if fb_pixel_format fb =? PIXEL_RGB then Done [intensity; intensity; intensity / 2; 0]
           else if fb_pixel_format fb =? PIXEL_BGR then Done [intensity / 2; intensity; intensity; 0]
           else Panic);
  byte_offset ← u64_mul pixel_offset 4;
  byte_end ← u64_add byte_offset 4;
  _ ← rassert (byte_end <=? Z.of_nat (length (buffer_slice w)));
  Done (set_buffer (splice (Z.to_nat byte_offset) color (buffer_slice w)) w).

Section BootWriter.
Context {F : Font}.

Definition boot_get_raser_or_fallback (c : Z) : outcome (list (list Z)) :=
  match get_raster c with
  | Some r => Done r
  | None => or_panic (get_raster REPLACEMENT)
  end.

Definition boot_write_rendered_char (rows : list (list Z)) (w : FrameBufferWriter) : outcome FrameBufferWriter :=
  w ← foldM (fun w yr => foldM (fun w xb =>
        x ← u64_add (curr_x_pos w) xb.1;
        y ← u64_add (curr_y_pos w) yr.1;
        boot_write_pixel x y xb.2 w) w (enumerate yr.2)) w (enumerate rows);
  x ← u64_add (curr_x_pos w) (raster_width + LETTER_SPACING);
  Done (set_cursor x (curr_y_pos w) w).

Definition boot_write_char (w : FrameBufferWriter) (c : Z) : outcome FrameBufferWriter :=
  if c =? 10 then boot_newline w
  else if c =? 13 then Done (boot_carriage_return w)
  else
    new_xpos ← u64_add (curr_x_pos w) raster_width;
    w ← (if fb_width (framebuffer w) <=? new_xpos then boot_newline w else Done w);
    y ← u64_add (curr_y_pos w) SIZE16;
    new_ypos ← u64_add y BORDER_PADDING;
    let w := if fb_height (framebuffer w) <=? new_ypos then boot_clear w else w in
    rows ← boot_get_raser_or_fallback c;
    boot_write_rendered_char rows w.

Definition boot_write_str (s : list Z) (w : FrameBufferWriter) : outcome FrameBufferWriter := foldM boot_write_char w s.

(** The bootloader's logger; a logger that could not be set is not used. *)
Definition boot_fb_log (level : Level) (args : list Z) (l : FramebufferLogger) : outcome FramebufferLogger :=
  with_writer (boot_write_str (boot_record_text level args)) l.

Definition boot_log (level : Level) (args : list Z) (l : FramebufferLogger) : outcome FramebufferLogger :=
  if level_enabled level then boot_fb_log level args l else Done l.

Definition boot_init_framebuffer_logger (fb : Framebuffer) (bytes : list Z) : FramebufferLogger :=
  mkLogger (boot_writer_new fb bytes) false.
End BootWriter.

(** ** What is shown *)

Section LoggerSpec.
Context {F : Font} {FS : FontSpec F}.

Lemma write_str_app a b w : write_str (a ++ b) w = (w ← write_str a w; write_str b w).
Proof. apply foldM_app. Qed.

Lemma write_chunks chunks : forall w, foldM (fun w chunk => write_str chunk w) w chunks = write_str (concat chunks) w.
Proof.
  induction chunks as [|c chunks IH]; intros w; [done|]. cbn [foldM concat]. rewrite write_str_app.
  destruct (write_str c w); [|done..]. apply IH.
Qed.

(** What the processors do with the log. *)
Inductive LogEvent : Type :=
| EvLog (level : Level) (args : list Z)
| EvHart (cpu_id : Z) (level : Level) (args : list Z)
| EvCpuInfo (cpuid : CpuId).

Definition log_event (l : FramebufferLogger) (e : LogEvent) : outcome FramebufferLogger :=
  match e with
  | EvLog level args => log level args l
  | EvHart cpu_id level args => loghart cpu_id level args l
  | EvCpuInfo cpuid => log_cpu_info cpuid l
  end.

(** The text an event stands for. *)
Definition event_text (e : LogEvent) : list Z :=
  match e with
  | EvLog level args => if level_enabled level then record_text level args else []
  | EvHart cpu_id level args => if level_enabled level then record_text level (hart_args cpu_id args) else []
  | EvCpuInfo cpuid => concat (cpu_info_chunks cpuid)
  end.

Lemma log_event_writes l e : fl_locked l = false -> log_event l e = with_writer (write_str (event_text e)) l.
Proof.
  destruct l as [w lk]. cbn [fl_locked]. intros ->. destruct e as [level args|cpu level args|cpuid]; cbn [log_event event_text].
  1, 2: unfold loghart, log; by destruct (level_enabled level).
  unfold log_cpu_info, with_writer, cpu_info. cbn [fl_locked fl_writer]. by rewrite write_chunks.
Qed.

Lemma log_events_write events : forall l, fl_locked l = false ->
  foldM log_event l events = with_writer (write_str (concat (map event_text events))) l.
Proof.
  induction events as [|e events IH]; intros [w lk] E; cbn [fl_locked] in E; subst lk; [done|].
  cbn [foldM map concat]. rewrite log_event_writes by done. unfold with_writer at 1 2. cbn [fl_locked fl_writer].
  rewrite write_str_app. destruct (write_str (event_text e) w) as [w1| |]; [|done..]. rewrite !Done_bind. by apply IH.
Qed.

(** The first line of the kernel's log. *)
Definition first_line : list Z := record_text Info (text "kernel framebuffer logger is initialized.").

Lemma logger_writes fb bytes events w :
  write_str (first_line ++ concat (map event_text events)) (writer_new fb bytes) = Done w ->
  exists l0, init_framebuffer_logger false fb bytes = Done l0 /\ foldM log_event l0 events = Done (mkLogger w false).
Proof.
  rewrite write_str_app. intros E. destruct (write_str first_line (writer_new fb bytes)) as [w0| |] eqn:E0; [|done..].
  rewrite Done_bind in E. exists (mkLogger w0 false). split.
  - change (init_framebuffer_logger false fb bytes) with (w ← write_str first_line (writer_new fb bytes); Done (mkLogger w false)).
    by rewrite E0.
  - rewrite log_events_write by done. unfold with_writer. cbn [fl_locked fl_writer]. by rewrite E.
Qed.

(** C40. The kernel's log: from the record the bootloader hands over, the logger
    comes up, and every sequence of records and reports is written without a
    panic, an access outside the framebuffer or a lock left held; the screen shows
    exactly the typed lines of the records that are enabled, in order. *)
Theorem log_shown arg bytes events :
  let fb := init_framebuffer arg in
  let typed := first_line ++ concat (map event_text events) in
  fb_ok fb (framebuffer_len arg) -> Z.of_nat (length bytes) = framebuffer_len arg -> Z.of_nat (length typed) < 2 ^ 59 ->
  exists l0 l, init_framebuffer_logger false fb bytes = Done l0 /\ foldM log_event l0 events = Done l /\
    fl_locked l = false /\ length (buffer_slice (fl_writer l)) = length bytes /\
    forall x y, 0 <= x < fb_stride fb -> 0 <= y < fb_height fb ->
      shown (fl_writer l) x y = sc_at (fold_left (type_char fb) typed (mkScreen (fun _ _ => [0; 0; 0; 0]) 1 1)) x y.
Proof.
  intros fb typed Hfb Hb Ht. destruct (write_str_types fb _ Hfb bytes typed Hb Ht) as (w & E & L & Hs).
  destruct (logger_writes fb bytes events w E) as (l0 & E0 & E1). by exists l0, (mkLogger w false).
Qed.

(** The bootloader's copy of the writer agrees with the kernel's. *)
Lemma boot_write_str_same s w : boot_write_str s w = write_str s w.
Proof. reflexivity. Qed.

(** A line of the bootloader's log, on a screen it has just taken over. *)
Theorem boot_log_shown fb len bytes level args :
  fb_ok fb len -> Z.of_nat (length bytes) = len -> level_enabled level = true ->
  Z.of_nat (length (boot_record_text level args)) < 2 ^ 59 ->
  exists l, boot_log level args (boot_init_framebuffer_logger fb bytes) = Done l /\ fl_locked l = false /\
    forall x y, 0 <= x < fb_stride fb -> 0 <= y < fb_height fb ->
      shown (fl_writer l) x y =
      sc_at (fold_left (type_char fb) (boot_record_text level args) (mkScreen (fun _ _ => [0; 0; 0; 0]) 1 1)) x y.
Proof.
  intros Hfb Hb He Ht. destruct (write_str_types fb len Hfb bytes _ Hb Ht) as (w & E & _ & Hs).
  exists (mkLogger w false). split_and!; [|done|done]. unfold boot_log. rewrite He. unfold boot_fb_log, with_writer.
  cbn [fl_locked fl_writer boot_init_framebuffer_logger]. rewrite boot_write_str_same.
  change (boot_writer_new fb bytes) with (writer_new fb bytes). by rewrite E.
Qed.
End LoggerSpec.

(** ** An instance: three events on a small screen *)

#[local] Existing Instance small_font.
#[local] Existing Instance small_font_spec.

Definition small_arg : KernelArg :=
  mkKernelArg 0 0 0 AcpiSettings_default 0 0 0x80000000 1280 8 40 8 0 0 [] 0 0 0 (mkTlsTemplate 0 0 0).

(** A processor that reports two features, one of them in a second leaf. *)
Definition two_features : CpuId :=
  mkCpuId (Some (text "GenuineMini")) None (Some (2400, 3200, 100))
    (Some (fun f => match f with has_apic => true | _ => false end)) None None
    (Some (fun f => match f with has_smep => true | _ => false end)).

Definition three_events : list LogEvent :=
  [EvCpuInfo two_features; EvLog Trace (text "dropped"); EvHart 1 Warn (text "ab")].

(** The last two rows begin with the processor's number. *)
Lemma log_shown_witness :
  exists l0 l, init_framebuffer_logger false (init_framebuffer small_arg) (replicate 1280 9) = Done l0 /\
    foldM log_event l0 three_events = Done l /\ fl_locked l = false /\ shown (fl_writer l) 1 1 = [49; 49; 24; 0].
Proof.
  destruct (log_shown small_arg (replicate 1280 9) three_events) as (l0 & l & E0 & E & Hl & _ & Hs).
  - split; cbn; lia.
  - reflexivity.
  - vm_compute. reflexivity.
  - exists l0, l. split; [exact E0|]. split; [exact E|]. split; [exact Hl|]. rewrite Hs by (cbn; lia). vm_compute. reflexivity.
Defined.
