(* ===== verification/Start.v ===== *)
(** * The kernel's entry

    [_start] of [kernel/src/main.rs] as a whole, and [kernel/src/device/com.rs]:
    the log and the report on the processor, memory, the tables and the
    controllers of the boot processor, the other processors, the legacy
    interrupts, the serial ports and the first context, each an operation of its
    component. *)

From S2P Require Import Prelude Text Platform Shared Paging KPaging Machine Interrupts Descriptors UserAddrSpace Elf ElfImage LoadElf Context Scheduler KFrameAlloc KFrameSupply LocalApic IoApic ApStartup FramebufferWriter Cpuid Logger KernelMain.

(** [uart_16550::SerialPort::init]: it writes to the registers of the port, which
    are I/O ports, and to nothing else. *)
Class Uart : Type := {
  serial_init : Z -> LapicHw -> LapicHw
}.

Definition set_ports (f : Z -> Z) (h : LapicHw) : LapicHw :=
  mkLapicHw (h_apic_base h) (h_has_x2apic h) (h_id h) (h_reg h) (h_busy h) (h_latency h) (h_errors h) (h_sent h)
    (h_eois h) (h_mem h) f.

Class UartSpec (U : Uart) : Prop := {
  serial_init_ports base h : exists f, serial_init base h = set_ports f h /\
    forall p, p < base \/ base + 8 <= p -> f p = h_port h p
}.

(** [COM1] and [COM2], and [init_com]. *)
Definition COM1 : Z := 0x3f8.
Definition COM2 : Z := 0x2f8.
Definition init_com {U : Uart} (h : LapicHw) : LapicHw := serial_init COM2 (serial_init COM1 h).

(** The boot processor: its registers, its control region, its driver of the
    local controllers, the I/O controllers, and the state it shares. *)
Record Devices (G : Type) : Type := mkDevices {
  dv_tables : CpuTables;
  dv_pcr : ProcessorControlRegion G;
  dv_lapic : LocalApic;
  dv_io : IoApicState;
  dv_shared : Startup G;
  BSP_READY : bool
}.
Arguments mkDevices {G}.
Arguments dv_tables {G}.
Arguments dv_pcr {G}.
Arguments dv_lapic {G}.
Arguments dv_io {G}.
Arguments dv_shared {G}.
Arguments BSP_READY {G}.

Definition on_tables (i : instr) (c : CpuTables) : CpuTables :=
  mkCpuTables (i (ct_machine c)) (ct_ds c) (ct_es c) (ct_gs c) (ct_tr c) (ct_cr0 c).

(** [&array[..count]] of the tables in the argument. *)
Definition up_to {B} (count : nat) (l : list B) : outcome (list B) :=
  _ ← rassert (count <=? length l)%nat;
  Done (take count l).

Section Start.
Context {X : X86Addr} {V : X86Virt} {VT : X86Step} {F : PtFlags} {G T : Type} {GO : Gdt G} {TS : TableStore T} {U : Uart} {FO : Font}.
(** As in ApStartup.v. *)
Context (fuel : nat) (trampoline_data : list Z) (gdtr start_ap syscall_entry_point : Z).
Context (reset : Z -> Ap) (lapic_of : Z -> LapicHw).
Context (pcr_size gdt_off tss_off : Z) (pcr_before : ProcessorControlRegion G).

(** From [interrupts::disable] to [interrupts::enable]: the boot processor. *)
Definition start_bsp (arg : KernelArg) (c : CpuTables) (statics : GdtStatics) (idts : gmap Z Idt)
    (fa : LinearIncFrameAllocator) (h : LapicHw)
  : outcome (ProcessorControlRegion G * CpuTables * GdtStatics * gmap Z Idt * LinearIncFrameAllocator * LocalApic * LapicHw) :=
  let c := on_tables KernelMain.cli c in
  '(pcr, statics, c, fa) ←
    init_gdt (kernel_frames fuel) pcr_size gdt_off tss_off 0 (stack_top_addr arg) pcr_before statics c fa;
  '(idts, pcr, fa) ← init_idt (kernel_frames fuel) 0 idts pcr fa;
  '(l, h) ← setup_apic (local_apic_base (ka_acpi arg)) 0 LOCAL_APIC h;
  let c := on_tables (init_syscall syscall_entry_point) c in
  Done (pcr, on_tables KernelMain.sti c, statics, idts, fa, l, h).

(** From [interrupts::disable] to [init_com]. *)
Definition start_devices (arg : KernelArg) (c : CpuTables) (statics : GdtStatics) (idts : gmap Z Idt)
    (fa : LinearIncFrameAllocator) (h : LapicHw) (io : IoApicState) (cr3 : Z) : outcome (Devices G) :=
  let acpi := ka_acpi arg in
  '(pcr, c, statics, idts, fa, l, h) ← start_bsp arg c statics idts fa h;
  lapics ← up_to (local_apic_count acpi) (local_apic acpi);
  pt ← virt_addr_new (kernel_pml4_start_addr arg);
  s ← setup_ap_startup fuel trampoline_data gdtr start_ap syscall_entry_point reset lapic_of pcr_size gdt_off tss_off
    pcr_before lapics pt l (mkStartup (m_mem (ct_machine c)) 1 false statics idts fa h cr3 []);
  io_apics ← up_to (io_apic_count acpi) (io_apic acpi);
  overrides ← up_to (interrupt_src_override_count acpi) (interrupt_src_override acpi);
  '(h, io) ← setup_io_apic io_apics overrides l (su_hw s) io;
  Done (mkDevices c pcr l io (set_hw (init_com h) s) false).

(** [_start] up to [run_userspace]: on the bytes of the framebuffer, the
    processor, its devices and the statics.  [junk1] and [junk2] are what the
    arrays of the frame allocator held before.  [later] is what the parts of
    [_start] write to the log on this and on the other processors, in the order in
    which it gets there, which the start of the other processors does not fix. *)
Definition _start (cpuid : CpuId) (later : list LogEvent) (enter_usermode_addr userspace_init_addr : Z) (junk1 junk2 : list Range)
    (arg : KernelArg) (bytes : list Z) (st : Statics) (k : Kernel T LinearIncFrameAllocator) (c : CpuTables) (statics : GdtStatics)
    (idts : gmap Z Idt) (h : LapicHw) (io : IoApicState)
  : outcome (FramebufferLogger * Statics * Kernel T LinearIncFrameAllocator * Devices G) :=
  log ← init_framebuffer_logger false (init_framebuffer arg) bytes;
  log ← log_cpu_info cpuid log;
  '(st, k) ← start_memory junk1 junk2 arg st k;
  let w := k_world k in
  d ← start_devices arg (on_tables (set_memory (w_mem w)) c) statics idts (w_frames w) h io (w_cr3 w);
  let s := dv_shared d in
  let k := set_world (mkWorld (w_tables w) (su_frames s) (su_mem s) (su_cr3 s)) k in
  let p := k_percpu k in
  let k := set_percpu (mkPercpu (pcr_cpu_id (dv_pcr d)) (context_switch p) (pb_inside_syscall p)) k in
  '(st, k) ← start_contexts (kernel_frames fuel) enter_usermode_addr userspace_init_addr
    (GDT_USER_CODE64 (su_statics s)) (GDT_USER_DATA (su_statics s)) st k;
  log ← foldM log_event log later;
  Done (log, st, k, d).
End Start.

(** ** The devices *)

Section StartSpec.
Context {X : X86Addr} {XS : X86AddrSpec X} {V : X86Virt} {VS : X86VirtSpec V} {G : Type} {GO : Gdt G} {GS : GdtSpec G GO}.
Context {U : Uart} {US : UartSpec U}.
Context (fuel : nat) (data : list Z) (Hdata : (56 < length data)%nat).
Context (gdtr start_ap syscall_entry_point : Z) (Hstart : 0 <= start_ap < 2 ^ 64).
Context (reset : Z -> Ap) (lapic_of : Z -> LapicHw).
Context (pcr_size gdt_off tss_off : Z) (pcr_before : ProcessorControlRegion G) (Hsize : 0 < pcr_size).

(** The bytes of the trampoline. *)
Definition in_trampoline (x : Z) : Prop := TRAMPOLINE <= x < TRAMPOLINE + Z.of_nat (length data).

(** The driver as [setup_apic] leaves it, and the processors it starts. *)
Definition driver (arg : KernelArg) : LocalApic := mkLocalApic (Z.land (local_apic_base (ka_acpi arg)) 0xffff0000) false.
Definition others (arg : KernelArg) : list MadtLocalApic :=
  filter (fun e => lapic_id e <> 0) (take (local_apic_count (ka_acpi arg)) (local_apic (ka_acpi arg))).
Definition io_apics_of (arg : KernelArg) : list MadtIoApic := take (io_apic_count (ka_acpi arg)) (io_apic (ka_acpi arg)).
Definition overrides_of (arg : KernelArg) : list MadtInterruptSrcOverride :=
  take (interrupt_src_override_count (ka_acpi arg)) (interrupt_src_override (ka_acpi arg)).

(** The memory of the boot processor and of the others. *)
Definition bsp_requests : list Z := [- (- pcr_size / PAGE_SIZE); DEPENDENT_STACK_SIZE / PAGE_SIZE].
Definition bsp_answers (pcr fault : Z) : list (option Z * Z) := zip [Some pcr; Some fault] bsp_requests.

(** A machine whose boot processor has id 0, whose firmware describes its
    controllers, and that has the memory: [pcr], [fault] and [bs] are the blocks
    the allocator answers with. *)
Record describes (arg : KernelArg) (fa : LinearIncFrameAllocator) (h : LapicHw) (ds : devices) (pcr fault : Z)
    (bs : list ApBlocks) (fa' : LinearIncFrameAllocator) : Prop := {
  de_stack : canonical (stack_top_addr arg);
  de_base : firmware_base (local_apic_base (ka_acpi arg)) /\ Z.testbit (local_apic_base (ka_acpi arg)) APIC_X2 = false;
  de_lapic : h_id h = 0 /\ h_has_x2apic h = false /\ Z.testbit (h_apic_base h) APIC_X2 = false /\ responsive fuel h;
  de_lapics i : h_apic_base (lapic_of i) = Z.lor (local_apic_base (ka_acpi arg)) IA32_APIC_BASE_MSR_ENABLE;
  de_root : 0 <= kernel_pml4_start_addr arg < 2 ^ 32 /\ (PAGE_SIZE | kernel_pml4_start_addr arg);
  de_counts : (local_apic_count (ka_acpi arg) <= length (local_apic (ka_acpi arg)))%nat /\
    (io_apic_count (ka_acpi arg) <= length (io_apic (ka_acpi arg)))%nat /\
    (interrupt_src_override_count (ka_acpi arg) <= length (interrupt_src_override (ka_acpi arg)))%nat;
  de_ids : Forall (fun e => fits 8 (lapic_id e)) (take (local_apic_count (ka_acpi arg)) (local_apic (ka_acpi arg)));
  de_frames : fa_wf fa /\ base_address fa + phys_mem_right_boundary fa < 2 ^ 47;
  de_run : alloc_run fuel fa (bsp_requests ++ all_requests pcr_size (others arg)) =
    Done (bsp_answers pcr fault ++ all_answers pcr_size bs, fa');
  de_io : apart ds /\ Forall (described ds) (io_apics_of arg)
}.

(** What the setup leaves of the registers. *)
Record kept_cpu (m m' : machine) : Prop := {
  kc_mem : m_mem m' = m_mem m;
  kc_reg : m_reg m' = m_reg m;
  kc_flags : fits 64 (m_rflags m) -> fits 64 (m_rflags m');
  kc_star : exists boot, m_msr m' IA32_STAR = m_msr (init_syscall syscall_entry_point boot) IA32_STAR
}.

(** The boot processor with the blocks [pcr] and [fault]. *)
Record bsp_up (arg : KernelArg) (pcr fault : Z) (p : ProcessorControlRegion G) (c : CpuTables) : Prop := {
  bsp_gdt : gdt_entries (pcr_gdt p) = [0] ++ descriptor_entries kernel_code_segment ++
    descriptor_entries kernel_data_segment ++ descriptor_entries kernel_code32_segment ++
    descriptor_entries user_data_segment ++ descriptor_entries user_code_segment ++
    descriptor_entries (tss_segment (pcr + tss_off));
  bsp_segments : m_cs (ct_machine c) = segment_selector 1 0 /\ m_ss (ct_machine c) = segment_selector 2 0 /\
    ct_tr c = segment_selector 6 0;
  bsp_pcr : self_ref p = pcr /\ m_msr (ct_machine c) IA32_GS_BASE = pcr /\ pcr_cpu_id p = 0;
  bsp_stacks : tss_privilege_stack p = stack_top_addr arg /\ tss_interrupt_stack p = fault + DEPENDENT_STACK_SIZE;
  bsp_syscall : m_msr (ct_machine c) IA32_LSTAR = syscall_entry_point /\ Z.testbit (m_msr (ct_machine c) IA32_EFER) 0 = true;
  bsp_interrupts : Z.testbit (m_rflags (ct_machine c)) IF = true
}.

(** Its controller, and the legacy ones. *)
Record lapic_up (l : LocalApic) (h : LapicHw) : Prop := {
  lu_drives : drives l h;
  lu_enabled : Z.testbit (h_reg h 0xf0) 8 = true;
  lu_error : h_reg h 0x370 = 49;
  lu_legacy : h_port h 0x21 = 0xff /\ h_port h 0xa1 = 0xff
}.

(** The machine when it reaches [init_context]. *)
Record devices_up (arg : KernelArg) (h : LapicHw) (ds : devices) (pcr fault : Z) (bs : list ApBlocks) (d : Devices G) : Prop := {
  du_bsp : bsp_up arg pcr fault (dv_pcr d) (dv_tables d);
  du_user : GDT_USER_CODE64 (su_statics (dv_shared d)) = Some CS_SEL /\ GDT_USER_DATA (su_statics (dv_shared d)) = Some SS_SEL;
  du_idt : su_idts (dv_shared d) !! 0 = Some (idt_of 0);
  du_lapic : dv_lapic d = driver arg /\ lapic_up (driver arg) (su_hw (dv_shared d));
  du_others : exists pas, su_started (dv_shared d) = rev pas /\
    Forall3 (fun e b pa => brought_up start_ap syscall_entry_point (kernel_pml4_start_addr arg) (lapic_id e) b pa) (others arg) bs pas;
  du_sent : h_sent (su_hw (dv_shared d)) = rev (startup_messages (others arg)) ++ h_sent h;
  du_routed : legacy_routed ds (io_apics_of arg) (overrides_of arg) 0 (io_devices (dv_io d))
}.

Lemma up_to_ok {B} n (l : list B) : (n <= length l)%nat -> up_to n l = Done (take n l).
Proof. intros H. unfold up_to. by rewrite (proj2 (Nat.leb_le _ _)). Qed.

(** The serial ports are not those of the legacy controllers. *)
Lemma init_com_ok h : exists f, init_com h = set_ports f h /\ f 0x21 = h_port h 0x21 /\ f 0xa1 = h_port h 0xa1.
Proof.
  unfold init_com, COM1, COM2. destruct (serial_init_ports 0x3f8 h) as (f & -> & Hf).
  destruct (serial_init_ports 0x2f8 (set_ports f h)) as (g & -> & Hg). exists g. split; [done|]. rewrite !Hg by lia. cbn.
  by rewrite !Hf by lia.
Qed.

(** The blocks do not overlap, and those of the processors are in bounds. *)
Lemma describes_blocks arg fa h ds pcr fault bs fa' : describes arg fa h ds pcr fault bs fa' ->
  StronglySorted block_before (blocks (bsp_answers pcr fault ++ all_answers pcr_size bs)) /\
  Forall blocks_ok bs /\ 0 <= fault /\ fault + DEPENDENT_STACK_SIZE < 2 ^ 47.
Proof.
  clear Hstart Hdata. intros []. destruct de_frames0 as [Hwf Hb].
  assert (Hpos : Forall (fun c => 0 < c) (bsp_requests ++ all_requests pcr_size (others arg))).
  { apply Forall_app. split; [|by apply requests_positive]. unfold bsp_requests, PAGE_SIZE. change (DEPENDENT_STACK_SIZE / 4096) with 16.
    repeat (apply Forall_cons; split; [Z.to_euclidean_division_equations; lia|]). by apply Forall_nil. }
  destruct (alloc_run_Done fuel fa _ _ _ Hwf Hpos de_run0) as [HS HF]. split; [exact HS|].
  assert (Hlow : 0 <= base_address fa + current_value (range_iterator fa)).
  { destruct Hwf as [Hit _ _ _ Hba Hb0]. pose proof (wf_value _ Hit). lia. }
  change (blocks (bsp_answers pcr fault ++ all_answers pcr_size bs)) with
    ((pcr, - (- pcr_size / PAGE_SIZE)) :: (fault, DEPENDENT_STACK_SIZE / PAGE_SIZE) :: blocks (all_answers pcr_size bs)) in HF.
  rewrite !Forall_cons in HF. destruct HF as (_ & (_ & L & R & _) & HF). cbn [fst snd] in L, R.
  split; [by eapply all_answers_ok|]. unfold DEPENDENT_STACK_SIZE, PAGE_SIZE in *. change (65536 / 4096) with 16 in R. lia.
Qed.

(** The requests of the boot processor come first. *)
Lemma describes_run arg fa h ds pcr fault bs fa' : describes arg fa h ds pcr fault bs fa' ->
  exists fa1 fa2, frame_alloc_n fuel fa (- (- pcr_size / PAGE_SIZE)) = Done (Some pcr, fa1) /\
    frame_alloc_n fuel fa1 (DEPENDENT_STACK_SIZE / PAGE_SIZE) = Done (Some fault, fa2) /\
    alloc_run fuel fa2 (all_requests pcr_size (others arg)) = Done (all_answers pcr_size bs, fa').
Proof.
  intros []. unfold bsp_requests in de_run0. cbn [app alloc_run] in de_run0. 
  apply bind_Done_1 in de_run0 as ([r1 fa1] & E1 & H). apply bind_Done_1 in H as ([rs1 fb1] & H1 & H).
  apply bind_Done_1 in H1 as ([r2 fa2] & E2 & H1). apply bind_Done_1 in H1 as ([rs2 fb2] & H2 & H1).
  injection H1 as <- <-. injection H as -> -> -> ->. by exists fa1, fa2.
Qed.

Lemma efer_syscall v : Z.testbit (Z.lor v 1) 0 = true.
Proof. rewrite Z.lor_spec. apply orb_true_r. Qed.

Abbreviation bsp_statics :=
  (mkGdtStatics (Some (segment_selector 3 (descriptor_rpl kernel_code32_segment))) (Some CS_SEL) (Some SS_SEL)).

Lemma start_bsp_ok arg c fa h pcr fault fa1 fa2 :
  canonical (stack_top_addr arg) -> firmware_base (local_apic_base (ka_acpi arg)) ->
  Z.testbit (local_apic_base (ka_acpi arg)) APIC_X2 = false ->
  h_has_x2apic h = false -> Z.testbit (h_apic_base h) APIC_X2 = false ->
  frame_alloc_n fuel fa (- (- pcr_size / PAGE_SIZE)) = Done (Some pcr, fa1) ->
  frame_alloc_n fuel fa1 (DEPENDENT_STACK_SIZE / PAGE_SIZE) = Done (Some fault, fa2) ->
  0 <= fault -> fault + DEPENDENT_STACK_SIZE < 2 ^ 47 ->
  exists p c' h', start_bsp fuel syscall_entry_point pcr_size gdt_off tss_off pcr_before arg c (mkGdtStatics None None None) ∅ fa h =
      Done (p, c', bsp_statics, <[0 := idt_of 0]> ∅, fa2, driver arg, h') /\
    bsp_up arg pcr fault p c' /\ lapic_up (driver arg) h' /\
    (h_id h' = h_id h /\ h_sent h' = h_sent h /\ h_busy h' = h_busy h /\ h_latency h' = h_latency h) /\
    kept_cpu (ct_machine c) (ct_machine c').
Proof.
  intros D1 D2 D2' D3 D3' E1 E2 Hf0 Hf1. unfold start_bsp. cbv zeta.
  destruct (bsp_gdt_layout (kernel_frames fuel) pcr_size gdt_off tss_off 0 (stack_top_addr arg) pcr_before
    (on_tables KernelMain.cli c) fa pcr fa1 E1 D1) as (p & c1 & -> & P1 & P2 & P3 & P4 & P5 & P6 & Pr & Pf & P7 & P8 & P9).
  rewrite Done_bind. cbv beta iota. unfold init_idt, kernel_frames at 1. rewrite E2, Done_bind. cbn [fst snd or_panic].
  unfold DEPENDENT_STACK_SIZE in *.
  rewrite Done_bind, virt_addr_new_ok, Done_bind by (left; lia). rewrite virt_addr_add_ok, !Done_bind by (lia || left; lia).
  cbv beta iota. destruct (setup_apic_bsp (local_apic_base (ka_acpi arg)) LOCAL_APIC h D2 D3 D2' D3')
    as (h1 & -> & Q1 & Q2 & Q3 & Q4 & Q5 & Q6).
  rewrite Done_bind. cbv beta iota. eexists _, _, h1. split; [reflexivity|]. split; [|split; [by split|]; split; [done|]].
  split; cbn [self_ref pcr_gdt pcr_cpu_id tss_privilege_stack tss_interrupt_stack]; try done.
  - split; [done|]. apply efer_syscall.
  - change (Z.testbit (put_flag IF true (m_rflags (init_syscall syscall_entry_point (ct_machine c1)))) IF = true).
    by rewrite testbit_put_flag.
  - split; [exact P6|exact Pr| |by exists (ct_machine c1)].
    change (m_rflags (ct_machine c1) = put_flag IF false (m_rflags (ct_machine c))) in Pf.
    change (fits 64 (m_rflags (ct_machine c)) -> fits 64 (put_flag IF true (m_rflags (ct_machine c1)))). rewrite Pf.
    intros Hr. by repeat apply put_flag_fits.
Qed.

(** What the rest of the setup leaves of the controller. *)
Lemma lapic_up_sent l h h' f : lapic_up l h -> sent_only h h' -> drives l h' ->
  f 0x21 = h_port h' 0x21 -> f 0xa1 = h_port h' 0xa1 -> lapic_up l (set_ports f h').
Proof.
  intros [L1 L2 L3 [L4 L5]] [S1 S2 S3] Hd F1 F2. split; cbn [set_ports h_reg h_port]; [exact Hd|by rewrite S2..|].
  by rewrite F1, F2, !S3.
Qed.

(** With the controllers the firmware describes and the memory for its requests,
    [_start] returns from all device setup.  Only the page of the trampoline
    changes. *)
Lemma start_devices_ok arg c fa h ds pcr fault bs fa' cr3 :
  describes arg fa h ds pcr fault bs fa' ->
  exists d, start_devices fuel data gdtr start_ap syscall_entry_point reset lapic_of pcr_size gdt_off tss_off pcr_before
      arg c (mkGdtStatics None None None) ∅ fa h (mkIoApicState [] [] ds) cr3 = Done d /\
    devices_up arg h ds pcr fault bs d /\ su_frames (dv_shared d) = fa' /\
    (cr3 = kernel_pml4_start_addr arg -> su_cr3 (dv_shared d) = cr3) /\
    (forall x, ~ in_trampoline x -> su_mem (dv_shared d) x = m_mem (ct_machine c) x) /\
    kept_cpu (ct_machine c) (ct_machine (dv_tables d)).
Proof.
  intros Hd. destruct (describes_blocks _ _ _ _ _ _ _ _ Hd) as (_ & Hbs & Hf0 & Hf1).
  destruct (describes_run _ _ _ _ _ _ _ _ Hd) as (fa1 & fa2 & E1 & E2 & Erun).
  destruct Hd as [D1 [D2 D2'] (D3i & D3 & D3' & D3r) D4 [D5 D5'] (D6 & D7 & D8) D9 D10 _ [D11 D12]].
  destruct (start_bsp_ok arg c fa h pcr fault fa1 fa2) as (p & c1 & h1 & E & Hup & Hlu & (Q6 & Q7 & Q8 & Q9) & Hk); [done..|].
  unfold start_devices. rewrite E, Done_bind. cbv beta iota zeta.
  rewrite (up_to_ok _ (local_apic _)), Done_bind by done. rewrite (virt_addr_new_ok (kernel_pml4_start_addr arg)), Done_bind by (left; lia).
  assert (Hown : forall h', h_id h' = h_id h -> own_id (driver arg) h' = 0) by (intros h' H; unfold own_id; by rewrite H, D3i).
  assert (Hes : Forall (fun e => 0 < lapic_id e < 256) (others arg)).
  { apply Forall_forall. intros e [Hne Hin]%list_elem_of_filter. rewrite Forall_forall in D9. specialize (D9 e Hin). unfold fits in D9. lia. }
  assert (Hto : forall h', to_start (own_id (driver arg) h') (take (local_apic_count (ka_acpi arg)) (local_apic (ka_acpi arg))) = others arg)
    by (intros h'; by apply to_start_zero).
  set (s0 := mkStartup _ _ _ _ _ _ _ _ _). unfold setup_ap_startup.
  destruct (start_all fuel data Hdata gdtr start_ap syscall_entry_point Hstart reset lapic_of pcr_size gdt_off tss_off pcr_before (driver arg) eq_refl
    (fun i => firmware_drives _ _ D2 D2' (D4 i)) (kernel_pml4_start_addr arg) D5 D5'
    (segment_selector 3 (descriptor_rpl kernel_code32_segment)) CS_SEL SS_SEL
    (take (local_apic_count (ka_acpi arg)) (local_apic (ka_acpi arg)))
    (mkStartup (copy_trampoline data (su_mem s0)) (CPU_COUNT s0) (AP_READY s0) (su_statics s0) (su_idts s0) (su_frames s0)
      (su_hw s0) (su_cr3 s0) (su_started s0)) bs fa') as (s1 & pas & -> & S1 & S2 & S3 & S4 & S5 & S6 & S7 & S9 & S10 & S8).
  1-8: cbn [su_hw su_mem su_frames su_statics s0]; rewrite ?Hto; try done.
  { apply Hlu. }
  { split; [rewrite Q8|rewrite Q9]; apply D3r. }
  { by rewrite Q6. }
  { by apply trampoline_copied. }
  cbn [su_hw su_started su_idts s0] in S1, S2, S3, S5, S8. rewrite Hto in S1, S3, S8.
  rewrite Done_bind, (up_to_ok _ (io_apic _)), Done_bind by done. rewrite (up_to_ok _ (interrupt_src_override _)), Done_bind by done.
  destruct (setup_io_apic_ok (io_apics_of arg) (overrides_of arg) (driver arg) (su_hw s1) (own_id (driver arg) (su_hw s1)) (su_hw s1) ds)
    as (io & EI & R); [by apply lapic_own_id_ok|done|done|]. unfold io_apics_of, overrides_of in EI. rewrite EI, Done_bind.
  destruct (init_com_ok (su_hw s1)) as (f & -> & I1 & I2). rewrite Hown in R by (rewrite (so_id _ _ S5); exact Q6).
  eexists. split; [reflexivity|]. split; [|split; [exact S7|]; split; [by intros ->; apply S9|]; split; [|exact Hk]].
  split; cbn [dv_tables dv_pcr dv_lapic dv_io dv_shared su_statics su_idts su_hw su_started set_hw].
  - exact Hup.
  - by rewrite S6.
  - rewrite S8; [by rewrite lookup_insert_eq|]. rewrite list_elem_of_In, in_map_iff. intros (e & He & Hin%list_elem_of_In).
    rewrite Forall_forall in Hes. specialize (Hes e Hin). lia.
  - split; [done|]. by apply (lapic_up_sent _ h1).
  - exists pas. split; [by rewrite S2, app_nil_r|exact S1].
  - cbn [set_ports h_sent]. by rewrite S3, Q7.
  - exact R.
  - intros x Hx. cbn [dv_shared su_mem set_hw]. rewrite S10 by (revert Hx; unfold in_trampoline, in_args; lia).
    cbn [su_mem s0]. rewrite (kc_mem _ _ Hk). unfold copy_trampoline. revert Hx. unfold in_trampoline.
    destruct (Z.leb_spec TRAMPOLINE x), (Z.ltb_spec x (TRAMPOLINE + Z.of_nat (length data))); cbn [andb]; done || lia.
Qed.
End StartSpec.

(** ** From the entry to the first program *)

#[export] Instance kernel_frames_source {X : X86Addr} {XS : X86AddrSpec X} fuel : FrameSourceSpec (kernel_frames fuel 1) := kernel_frame_source fuel.

(** The kernel with its frames and memory after the device setup. *)
Definition after_devices {T} (k : Kernel T LinearIncFrameAllocator) (fa : LinearIncFrameAllocator) (mem : Z -> Z)
  : Kernel T LinearIncFrameAllocator :=
  let w := k_world k in
  set_percpu (mkPercpu 0 (context_switch (k_percpu k)) (pb_inside_syscall (k_percpu k)))
    (set_world (mkWorld (w_tables w) fa mem (w_cr3 w)) k).

Section EndToEnd.
Context {X : X86Addr} {XS : X86AddrSpec X} {V : X86Virt} {VS : X86VirtSpec V} {VT : X86Step} {VTS : X86StepSpec VT}.
Context {F : PtFlags} {FS : PtFlagsSpec F} {G T : Type} {GO : Gdt G} {GS : GdtSpec G GO} {TS : TableStore T} {TSS : TableStoreSpec T TS}.
Context {U : Uart} {US : UartSpec U} {FO : Font} {FOS : FontSpec FO}.
Context (fuel : nat) (data : list Z) (Hdata : (56 < length data)%nat).
Context (gdtr start_ap syscall_entry_point : Z) (Hstart : 0 <= start_ap < 2 ^ 64).
Context (reset : Z -> Ap) (lapic_of : Z -> LapicHw).
Context (pcr_size gdt_off tss_off tss_size : Z) (pcr_before : ProcessorControlRegion G) (Hsize : 0 < pcr_size).
Context (elf_file_new : list Z -> option ElfFile) (enter init : Z) (Haddr : 0 <= enter < 2 ^ 64 /\ 0 <= init < 2 ^ 64).

Abbreviation boot_ready := (boot_ready (frame_alloc_n := kernel_frames fuel)).

(** What is written to the log from the entry on. *)
Definition start_text (cpuid : CpuId) (later : list LogEvent) : list Z :=
  first_line ++ concat (map event_text (EvCpuInfo cpuid :: later)).

(** The machine as the bootloader leaves it, at [_start]: framebuffer, registers,
    and the regions of memory the kernel must not use. *)
Record startable_machine (junk1 junk2 : list Range) (E : Z) (arg : KernelArg) (bytes : list Z) (cpuid : CpuId) (later : list LogEvent)
    (st : Statics) (k : Kernel T LinearIncFrameAllocator) (c : CpuTables) : Prop := {
  sm_fb : fb_ok (init_framebuffer arg) (framebuffer_len arg);
  sm_bytes : Z.of_nat (length bytes) = framebuffer_len arg;
  sm_text : Z.of_nat (length (start_text cpuid later)) < 2 ^ 59;
  sm_rsp : 8 <= get RSP (ct_machine c) < 2 ^ 64;
  sm_flags : fits 64 (m_rflags (ct_machine c));
  sm_tss : fits 16 tss_size;
  sm_memory : startable fuel (phys_mem_mapped_addr arg) (phys_mem_size arg) E
    (take (unav_phys_mem_regions_len arg) (unav_phys_mem_regions arg));
  sm_arrays : length junk1 = MAX_RANGE_COUNT /\ length junk2 = MAX_RANGE_COUNT;
  sm_mapped : canonical (phys_mem_mapped_addr arg);
  sm_regions : (unav_phys_mem_regions_len arg <= length (unav_phys_mem_regions arg))%nat;
  sm_cr3 : w_cr3 (k_world k) = kernel_pml4_start_addr arg;
  sm_statics : BOOTSTRAP st = None /\ BOOTSTRAP_USR_ADDRSP_BASE st = None
}.

Lemma start_memory_kept junk1 junk2 arg st (k : Kernel T LinearIncFrameAllocator) st1 k1 :
  start_memory junk1 junk2 arg st k = Done (st1, k1) ->
  w_cr3 (k_world k1) = kernel_pml4_start_addr arg /\ k_spaces k1 = k_spaces k /\
  BOOTSTRAP_USR_ADDRSP_BASE st1 = BOOTSTRAP_USR_ADDRSP_BASE st.
Proof.
  unfold start_memory, set_kernel_pml4_page_table. cbn [k_world k_root set_tables w_cr3]. intros H.
  apply bind_Done_1 in H as (k0 & H0 & H). apply bind_Done_1 in H0 as ([] & Hr & [= <-]). inv_done.
  destruct (Z.eqb_spec (kernel_pml4_start_addr arg) (w_cr3 (k_world k))) as [E|]; [by rewrite E|done].
Qed.

(** The log of the whole run. *)
Lemma start_log_ok arg bytes cpuid later : fb_ok (init_framebuffer arg) (framebuffer_len arg) ->
  Z.of_nat (length bytes) = framebuffer_len arg -> Z.of_nat (length (start_text cpuid later)) < 2 ^ 59 ->
  exists l0 l1 w, init_framebuffer_logger false (init_framebuffer arg) bytes = Done l0 /\ log_cpu_info cpuid l0 = Done l1 /\
    foldM log_event l1 later = Done (mkLogger w false) /\
    forall x y, 0 <= x < framebuffer_stride arg -> 0 <= y < framebuffer_height arg ->
      shown w x y = sc_at (fold_left (type_char (init_framebuffer arg)) (start_text cpuid later) (mkScreen (fun _ _ => [0; 0; 0; 0]) 1 1)) x y.
Proof.
  intros M1 M2 M3. destruct (write_str_types (init_framebuffer arg) _ M1 bytes _ M2 M3) as (w & Ew & _ & Hs).
  destruct (logger_writes (init_framebuffer arg) bytes (EvCpuInfo cpuid :: later) w Ew) as (l0 & L0 & L1).
  cbn [foldM log_event] in L1. apply bind_Done_1 in L1 as (l1 & L1 & L2). by exists l0, l1, w.
Qed.

(** C4. The kernel from its entry to the first program.  On a machine whose boot
    processor has id 0, whose firmware describes its controllers, with regions of
    memory the frame allocator can be started with and enough memory left, [_start]
    returns from the setup of memory, brings up the boot processor, its controller,
    every other processor and the legacy interrupts, with no two blocks of memory
    overlapping, and creates the first context; the loop of [run_userspace] switches
    to it, [userspace_init] loads the program, and the processor enters user mode at
    its entry point on its stack.  The screen shows the first line of the log, the
    report on the processor, and whatever lines the parts of the setup add. *)
Theorem start_enters_program cpuid later junk1 junk2 E arg bytes st (k : Kernel T LinearIncFrameAllocator) c h ds pcr fault bs fa'
    stack t0 tb id al a slot Hslot root elf start file :
  startable_machine junk1 junk2 E arg bytes cpuid later st k c ->
  (forall st1 k1, start_memory junk1 junk2 arg st k = Done (st1, k1) ->
    describes fuel lapic_of pcr_size arg (w_frames (k_world k1)) h ds pcr fault bs fa' /\
    forall mem, (forall x, ~ in_trampoline data x -> mem x = w_mem (k_world k1) x) ->
      boot_ready (after_devices k1 fa' mem) stack t0 tb id al a /\
      program_mapped (frame_alloc_n := kernel_frames fuel) (after_devices k1 fa' mem) stack tb a (bootstrap_len arg) file) ->
  bootstrap_len arg <= 2 ^ 30 ->
  loadable (kernel_frames fuel 1) elf_file_new root slot Hslot elf BOOTSTRAP_WINDOW (bootstrap_len arg) start file -> slot ∉ shared_entries ->
  (136 + total_cost 0 (program_iter elf) <= length (fs_frames (alloc := kernel_frames fuel 1) a))%nat ->
  exists log st' k' d c1 k2 s2,
    _start fuel data gdtr start_ap syscall_entry_point reset lapic_of pcr_size gdt_off tss_off pcr_before cpuid later enter init
      junk1 junk2 arg bytes st k c (mkGdtStatics None None None) ∅ h (mkIoApicState [] [] ds) = Done (log, st', k', d) /\
    (forall x y, 0 <= x < framebuffer_stride arg -> 0 <= y < framebuffer_height arg ->
      shown (fl_writer log) x y = sc_at (fold_left (type_char (init_framebuffer arg)) (start_text cpuid later)
        (mkScreen (fun _ _ => [0; 0; 0; 0]) 1 1)) x y) /\
    devices_up start_ap syscall_entry_point tss_off arg h ds pcr fault bs d /\
    StronglySorted block_before (blocks (bsp_answers pcr_size pcr fault ++ all_answers pcr_size bs)) /\
    run_userspace_step tss_size (mkCpu k' (ct_machine (dv_tables d)) (dv_pcr d) false) = Done (Switched false, c1) /\
    m_rip (ret (cpu_machine c1)) = init /\
    userspace_init (kernel_frames fuel) elf_file_new (Some CS_SEL) (Some SS_SEL) st' (cpu_kernel c1) = Done k2 /\
    program_loaded (frame_alloc_n := kernel_frames fuel) enter CS_SEL SS_SEL slot Hslot root stack start (length (k_spaces k)) elf file k2 s2 /\
    forall m2, rust_call 168 (fun _ _ => Done (w_mem (k_world k2))) (ret (cpu_machine c1)) m2 ->
      m_rip (ret m2) = enter /\
      let u := enter_usermode (ret m2) in
      m_rip u = entry_point elf /\ get RSP u = KSTACK_VIRT + KSTACK_TOP - 8 /\
      m_rflags u = Z.lor INTERRUPT_FLAG 2 /\ m_cs u = CS_SEL /\ m_ss u = SS_SEL.
Proof.
  intros [M1 M2 M3 M4 M5 M6 M7 [M8 M8'] M9 M10 M11 [M12 M13]] Hmachine Hlen Hload Hsl Hcost.
  destruct (start_log_ok arg bytes cpuid later M1 M2 M3) as (l0 & l1 & w & L0 & L1 & L2 & Hs).
  destruct (start_memory_ok fuel junk1 junk2 E arg st k M7 M8 M8' M9 M10 M11 M12) as (st1 & k1 & Em & Hb1 & _).
  destruct (start_memory_kept _ _ _ _ _ _ _ Em) as (Hcr & Hsp & Hb2). destruct (Hmachine st1 k1 Em) as [Hdes Hready].
  destruct (start_devices_ok fuel data Hdata gdtr start_ap syscall_entry_point Hstart reset lapic_of pcr_size gdt_off tss_off pcr_before Hsize
    arg (on_tables (set_memory (w_mem (k_world k1))) c) (w_frames (k_world k1)) h ds pcr fault bs fa' (w_cr3 (k_world k1)) Hdes)
    as (d & Ed & Hup & Hfa & Hcr3 & Hmem & Hk).
  destruct (describes_blocks fuel reset lapic_of pcr_size Hsize _ _ _ _ _ _ _ _ Hdes) as (HS & _).
  destruct (Hready (su_mem (dv_shared d)) Hmem) as [Hboot Hprog].
  destruct (kc_star _ _ _ Hk) as (boot & Hstar).
  assert (Haddr4 : 0 <= enter < 2 ^ 64 /\ 0 <= init < 2 ^ 64 /\ 0 <= CS_SEL < 2 ^ 64 /\ 0 <= SS_SEL < 2 ^ 64) by (by destruct Haddr).
  destruct (first_program_starts (frame_alloc_n := kernel_frames fuel) elf_file_new enter init CS_SEL SS_SEL tss_size
    Haddr4
    st1 (bootstrap_base arg) (after_devices k1 fa' (su_mem (dv_shared d))) stack t0 tb id al a (ct_machine (dv_tables d)) (dv_pcr d)
    slot Hslot root elf (bootstrap_len arg) start file syscall_entry_point boot) as (st' & k' & c1 & k2 & s2 & E1 & E2 & E3 & _ & E4 & E5 & E6); try done.
  { by rewrite Hb2. }
  { unfold get. by rewrite (kc_reg _ _ _ Hk). }
  { by apply (kc_flags _ _ _ Hk). }
  rewrite <- Hsp. eexists (mkLogger w false), st', k', d, c1, k2, s2. split; [|by split_and!].
  unfold _start. rewrite L0, Done_bind, L1, Done_bind, Em, Done_bind. cbv beta iota zeta. rewrite Ed, Done_bind.
  destruct (du_user _ _ _ _ _ _ _ _ _ _ Hup) as [-> ->]. rewrite Hfa, (Hcr3 Hcr).
  destruct (bsp_pcr _ _ _ _ _ _ _ (du_bsp _ _ _ _ _ _ _ _ _ _ Hup)) as (_ & _ & ->).
  change (set_percpu _ _) with (after_devices k1 fa' (su_mem (dv_shared d))). rewrite E1, Done_bind. cbv beta iota. by rewrite L2.
Qed.
End EndToEnd.

(** ** An instance: two processors, one I/O controller and eight megabytes *)

#[local] Existing Instance x86_addr_model.
#[local] Existing Instance x86_addr_model_spec.
#[local] Existing Instance x86_virt_model.
#[local] Existing Instance x86_virt_model_spec.
#[local] Existing Instance pt_flags_model.
#[local] Existing Instance pt_flags_model_spec.
#[local] Existing Instance gmap_store_ops.
#[local] Existing Instance gmap_store_spec.
#[local] Existing Instance x86_step_model.
#[local] Existing Instance x86_step_model_spec.
#[local] Existing Instance list_gdt.
#[local] Existing Instance list_gdt_spec.
#[local] Existing Instance small_font.
#[local] Existing Instance small_font_spec.

(** A port whose line control register is set to eight bits. *)
#[local] Instance line_uart : Uart := {| serial_init base h := outb (base + 3) 3 h |}.
#[local] Instance line_uart_spec : UartSpec line_uart.
Proof. split. intros base h. eexists. split; [reflexivity|]. intros p Hp. cbn. by rewrite decide_False by lia. Qed.

Definition full_arg : KernelArg :=
  mkKernelArg 0 0 0x1000 (mkAcpiSettings 0xfee00900 startup_lapics 2 sample_madt 1 sample_overrides 3) 0x90000 0
    0x80000000 1280 8 40 8 0 0x800000 [mkMemoryRegion 0x100000 0x100000 Bootloader] 1 0xffffff0000000000 0x2000 (mkTlsTemplate 0 0 0).
Definition full_tables : CpuTables := mkCpuTables (mkMachine (fun _ => 0x90000) 0 2 0x8 0x10 (fun _ => 0) 0 (fun _ => 0)) 0 0 0 0 0.
Definition full_blocks : list ApBlocks := [mkApBlocks 0x215000 0x255000 0x258000].

Lemma full_memory :
  start_memory junk512 junk512 full_arg (mkStatics None None) (start_kernel start_tables (start_fa 0 0) 0) =
    Done (start_statics, ready_kernel).
Proof.
  unfold start_memory, set_kernel_pml4_page_table. change (rassert (_ =? _)) with (Done tt). rewrite !Done_bind.
  rewrite virt_addr_new_ok, Done_bind by (by left). change (rassert (_ <=? _)%nat) with (Done tt). rewrite Done_bind.
  change (phys_mem_mapped_addr full_arg) with 0. change (phys_mem_size full_arg) with 0x800000.
  change (take _ _) with (take 1 (unav_phys_mem_regions start_arg)). by rewrite ready_allocator, Done_bind.
Qed.

Lemma full_run : alloc_run 1000 (start_fa 0 0x100000) [3; 16; 64; 3; 16; 64] =
  Done ([(Some 0x202000, 3); (Some 0x205000, 16); (Some 0x215000, 64); (Some 0x255000, 3); (Some 0x258000, 16); (Some 0x268000, 64)],
    start_fa 1 0x2a8000).
Proof. by vm_compute. Qed.

Lemma ready_start : supplied 1000 0x200000 (start_fa 0 0x100000).
Proof.
  destruct (init_supplied 1000 junk512 junk512 0 0x800000 0x200000 _ start_startable eq_refl eq_refl) as (fa & Hi & Hs & _).
  rewrite ready_allocator in Hi. by injection Hi as <-.
Qed.

Lemma full_supplied : supplied 1000 0x200000 (start_fa 1 0x2a8000).
Proof.
  eapply (alloc_run_granted 1000 _ _ _ _ _ ready_start); [|exact full_run|]; repeat (apply Forall_cons; split; [lia || by eexists|]); by apply Forall_nil.
Qed.

Lemma full_frames f : f ∈ frames_left 1000 (start_fa 1 0x2a8000) -> (PAGE_SIZE | f) /\ 0x2a8000 <= f <= 0x7ff000.
Proof.
  intros Hf. destruct (frames_left_spec 1000 _ _ full_supplied) as [H _]. rewrite Forall_forall in H.
  destruct (H f Hf) as (? & H1 & H2). unfold start_fa in H1, H2.
  cbn [base_address range_iterator current_value phys_mem_right_boundary] in H1, H2. split; [done|page_lia].
Qed.

Lemma full_describes : describes 1000 (qemu_lapic 0xfee00900 false) 0x3000 full_arg (start_fa 0 0x100000) (qemu_lapic 0xfee00900 false 0)
  sample_devices 0x202000 0x205000 full_blocks (start_fa 1 0x268000).
Proof.
  split.
  - by left.
  - split; [split; [by vm_compute|apply Z.leb_le; by vm_compute]|by vm_compute].
  - split; [done|]. split; [done|]. split; [by vm_compute|]. split; cbn; lia.
  - by intros.
  - split; [cbn; lia|by exists 1].
  - cbn. lia.
  - repeat constructor; cbn; lia.
  - split; [apply ready_start|cbn; lia].
  - change (others full_arg) with [mkMadtLocalApic 1 1]. by vm_compute.
  - split; [exact sample_apart|exact sample_described].
Qed.

Lemma full_boot mem : boot_ready (frame_alloc_n := kernel_frames 1000) (after_devices ready_kernel (start_fa 1 0x268000) mem)
  0x268000 0x2000 0x3000 2 (mkIdAlloc 2 []) (start_fa 1 0x2a8000).
Proof.
  split; try done.
  - split; [by vm_compute|..]; try done.
    + change (exists E, supplied 1000 E (start_fa 1 0x2a8000)). exists 0x200000. apply full_supplied.
    + apply (bool_decide_unpack _). by vm_compute.
    + split; [by exists 616|done].
    + intros [_ H]%full_frames. cbn in H. lia.
    + intros [_ H]%full_frames. lia.
  - split; [|done]. intros [_ H]%full_frames. lia.
  - apply Forall_forall. intros f [Ha Hf]%full_frames. split; [split; [done|page_lia]|].
    change KSTACK_TOP with 0x40000. unfold KSTACK_VIRT. page_lia.
Qed.

Lemma full_program mem : (forall x, ~ in_trampoline trampoline_image x -> mem x = start_mem x) ->
  program_mapped (frame_alloc_n := kernel_frames 1000) (after_devices ready_kernel (start_fa 1 0x268000) mem) 0x268000 0x3000
    (start_fa 1 0x2a8000) 0x2000 sample_bytes.
Proof.
  intros Hm x Hx. change (page_of (0x2000 - 1)) with 0x1000 in Hx.
  destruct (page_of_bounds x) as [[j Hj] Hb]. assert (Hf : forall f, f = 0x4000 \/ f = 0x5000 -> f ∉ frames_left 1000 (start_fa 1 0x2a8000)).
  { intros f Hf [_ H]%full_frames. lia. }
  change KSTACK_TOP with 0x40000. pose proof (page_of_mod x) as Hmod. pose proof (Z.mod_pos_bound x PAGE_SIZE ltac:(done)).
  assert (E : page_of x = 0 \/ page_of x = 0x1000) by page_lia.
  destruct E as [E|E]; rewrite E; [exists 0x4000, 1|exists 0x5000, 1]; (split; [by vm_compute|]);
    (split; [|split; [page_lia|apply Hf; lia]]); cbn [w_mem k_world after_devices set_percpu set_world];
    (rewrite Hm by (unfold in_trampoline, TRAMPOLINE; change (length trampoline_image) with 235%nat; page_lia)); unfold start_mem;
    change PROGRAM_PTR with BOOTSTRAP_WINDOW; f_equal; rewrite Hmod, E; lia.
Qed.

Lemma start_enters_program_witness :
  exists log st' k' d c1 k2 s2,
    _start 1000 trampoline_image image_gdtr 0xffff1000 0xffff4000 (fun _ => reset_ap) (qemu_lapic 0xfee00900 false) 0x3000 0x10 0x800 blank_pcr
      two_features [EvHart 0 Info (text "starting ap...")] 0xffff2000 0xffff3000 junk512 junk512 full_arg (replicate 1280 9) (mkStatics None None)
      (start_kernel start_tables (start_fa 0 0) 0) full_tables (mkGdtStatics None None None) ∅ (qemu_lapic 0xfee00900 false 0)
      (mkIoApicState [] [] sample_devices) = Done (log, st', k', d) /\
    run_userspace_step 0x68 (mkCpu k' (ct_machine (dv_tables d)) (dv_pcr d) false) = Done (Switched false, c1) /\
    userspace_init (kernel_frames 1000) (fun _ => Some sample_elf) (Some CS_SEL) (Some SS_SEL) st' (cpu_kernel c1) = Done k2 /\
    w_cr3 (k_world k2) = as_root s2 /\ user_byte s2 (k_world k2) (PROGRAM_BASE + 0xffc) = Some 0x40 /\
    self_ref (dv_pcr d) = 0x202000 /\ length (su_started (dv_shared d)) = 1%nat /\
    forall m2, rust_call 168 (fun _ _ => Done (w_mem (k_world k2))) (ret (cpu_machine c1)) m2 ->
      m_rip (enter_usermode (ret m2)) = PROGRAM_BASE + 0x40.
Proof.
  destruct (start_enters_program 1000 trampoline_image ltac:(apply (bool_decide_unpack _); by vm_compute) image_gdtr 0xffff1000 0xffff4000 ltac:(lia) (fun _ => reset_ap) (qemu_lapic 0xfee00900 false)
    0x3000 0x10 0x800 0x68 blank_pcr ltac:(lia) (fun _ => Some sample_elf) 0xffff2000 0xffff3000 ltac:(lia)
    two_features [EvHart 0 Info (text "starting ap...")] junk512 junk512 0x200000 full_arg (replicate 1280 9) (mkStatics None None)
    (start_kernel start_tables (start_fa 0 0) 0)
    full_tables (qemu_lapic 0xfee00900 false 0) sample_devices 0x202000 0x205000 full_blocks (start_fa 1 0x268000)
    0x268000 0x2000 0x3000 2 (mkIdAlloc 2 []) (start_fa 1 0x2a8000) 256 slot_256 0x1000 sample_elf PROGRAM_BASE
    sample_bytes) as (log & st' & k' & d & c1 & k2 & s2 & E1 & _ & Hup & _ & E2 & _ & E3 & [_ P2 P3 _ _ _ _ _] & H).
  - split; [split; cbn; lia|reflexivity|by vm_compute|cbn; lia|split; cbn; lia|split; cbn; lia|exact start_startable|done|by left|cbn; lia|done|done].
  - intros st1 k1. rewrite full_memory. intros [= <- <-]. split; [exact full_describes|].
    intros mem Hm. split; [apply full_boot|by apply full_program].
  - cbn. lia.
  - exact (loadable_any _ _ _ _ _ _ _ _ _ _ _ _ sample_loadable).
  - by apply (bool_decide_unpack _); vm_compute.
  - by apply (bool_decide_unpack _); vm_compute.
  - exists log, st', k', d, c1, k2, s2. split; [exact E1|]. split; [exact E2|]. split; [exact E3|]. split; [exact P2|].
    split; [apply P3; by vm_compute|]. split; [apply (du_bsp _ _ _ _ _ _ _ _ _ _ Hup)|]. split.
    { destruct (du_others _ _ _ _ _ _ _ _ _ _ Hup) as (pas & -> & Hp). rewrite length_rev.
      change (others full_arg) with [mkMadtLocalApic 1 1] in Hp. by apply Forall3_length_lr in Hp. }
    intros m2 Hm2. apply (H m2 Hm2).
Defined.
