(* ===== verification/Handlers.v ===== *)
(** * The bodies of the interrupt handlers

    [kernel/src/interrupt.rs] from the handlers on, the [Debug] implementations
    of [kernel/src/syscall.rs] they print with, and the serial output of
    [kernel/src/device/qemu.rs].  The assembly around a body is in Interrupts.v,
    the table that selects it in Descriptors.v.  The keyboard decoder is a
    library: the class [Keyboard]. *)

From S2P Require Import Prelude Text Shared Machine Interrupts Descriptors LocalApic FramebufferWriter Cpuid Logger.

(** ** Printing the frame *)

Definition hex_field (name : string) : list piece := [Lit (text name ++ text ": 0x"); Arg 16].
Definition bin_field (name : string) : list piece := [Lit (text name ++ text ": "); Arg 2].
Definition comma : list piece := [Lit (text ", ")].

Definition preserved_format : list piece :=
  [Lit (text "PRESERVED { ")] ++ hex_field "R15" ++ comma ++ hex_field "R14" ++ comma ++ hex_field "R13" ++ comma ++
  hex_field "R12" ++ comma ++ hex_field "RBP" ++ comma ++ hex_field "RBX" ++ [Lit (text " }")].
Definition preserved_args (p : PreservedRegisters) : list Z := [p_r15 p; p_r14 p; p_r13 p; p_r12 p; p_rbp p; p_rbx p].

Definition scratch_format : list piece :=
  [Lit (text "SCRATCH { ")] ++ hex_field "R11" ++ comma ++ hex_field "R10" ++ comma ++ hex_field "R9" ++ comma ++
  hex_field "R8" ++ comma ++ hex_field "RSI" ++ comma ++ hex_field "RDI" ++ comma ++ hex_field "RDX" ++ comma ++
  hex_field "RCX" ++ comma ++ hex_field "RAX" ++ [Lit (text " }")].
Definition scratch_args (s : ScratchRegisters) : list Z :=
  [s_r11 s; s_r10 s; s_r9 s; s_r8 s; s_rsi s; s_rdi s; s_rdx s; s_rcx s; s_rax s].

Definition iret_format : list piece :=
  [Lit (text "IRET { ")] ++ hex_field "RIP" ++ comma ++ bin_field "CS" ++ comma ++ bin_field "RFLAGS" ++ comma ++
  hex_field "RSP" ++ comma ++ bin_field "SS" ++ [Lit (text " }")].
Definition iret_args (i : IretRegisters) : list Z := [i_rip i; i_cs i; i_rflags i; i_rsp i; i_ss i].

(** [{:?}] of the frame. *)
Definition stack_format : list piece :=
  [Lit (text "INTRS { ")] ++ preserved_format ++ comma ++ scratch_format ++ comma ++ iret_format ++ [Lit (text " }")].
Definition stack_args (s : InterruptStack) : list Z :=
  preserved_args (preserved s) ++ scratch_args (scratch s) ++ iret_args (iret s).

(** [{:02x?}] of a slice of bytes. *)
Definition hex_byte (b : Z) : list Z := [digit_char (b / 16); digit_char (b mod 16)].
Definition debug_bytes (l : list Z) : list Z := text "[" ++ join (text ", ") (map hex_byte l) ++ text "]".

(** ** What a handler works on *)

Inductive DecodedKey : Type := Unicode (c : Z) | RawKey (name : list Z).

(** [pc_keyboard::Keyboard]: a scancode may complete an event, and an event may
    be a key; errors are not looked at. *)
Class Keyboard (K : Type) : Type := {
  KeyEvent : Type;
  add_byte : Z -> K -> option KeyEvent * K;
  process_keyevent : KeyEvent -> K -> option DecodedKey * K
}.

Record KernelIo (K : Type) : Type := mkIo {
  io_lapic : LocalApic;
  io_hw : LapicHw;
  (** the text sent to the serial port, behind its lock *)
  io_serial : list Z;
  io_serial_locked : bool;
  io_log : FramebufferLogger;
  io_kb : K;
  io_mem : Z -> Z
}.
Arguments mkIo {K}.
Arguments io_lapic {K}.
Arguments io_hw {K}.
Arguments io_serial {K}.
Arguments io_serial_locked {K}.
Arguments io_log {K}.
Arguments io_kb {K}.
Arguments io_mem {K}.

(** How a handler ends: it returns to the assembly, or it never does. *)
Inductive Ended (S : Type) : Type := Returned (s : S) | Spinning (s : S).
Arguments Returned {S}.
Arguments Spinning {S}.

Definition final {S} (e : Ended S) : S := match e with Returned s | Spinning s => s end.

Section Handlers.
Context {K : Type} {KB : Keyboard K} {F : Font}.

Definition set_hw (h : LapicHw) (s : KernelIo K) : KernelIo K :=
  mkIo (io_lapic s) h (io_serial s) (io_serial_locked s) (io_log s) (io_kb s) (io_mem s).
Definition set_log (l : FramebufferLogger) (s : KernelIo K) : KernelIo K :=
  mkIo (io_lapic s) (io_hw s) (io_serial s) (io_serial_locked s) l (io_kb s) (io_mem s).
Definition set_kb (k : K) (s : KernelIo K) : KernelIo K :=
  mkIo (io_lapic s) (io_hw s) (io_serial s) (io_serial_locked s) (io_log s) k (io_mem s).
Definition send_serial (t : list Z) (s : KernelIo K) : KernelIo K :=
  mkIo (io_lapic s) (io_hw s) (io_serial s ++ t) (io_serial_locked s) (io_log s) (io_kb s) (io_mem s).

(** [qemu_print!] and [qemu_println!]; a port that is locked is waited for. *)
Definition qemu_print (t : list Z) (s : KernelIo K) : outcome (KernelIo K) :=
  if io_serial_locked s then OutOfFuel else Done (send_serial t s).
Definition qemu_println (t : list Z) : KernelIo K -> outcome (KernelIo K) := qemu_print (t ++ [10]).

(** [LOCAL_APIC.eoi()]. *)
Definition io_eoi (s : KernelIo K) : outcome (KernelIo K) :=
  h ← eoi (io_lapic s) (io_hw s);
  Done (set_hw h s).

Definition returns (m : outcome (KernelIo K)) : outcome (Ended (KernelIo K)) :=
  s ← m;
  Done (Returned s).

(** The format of the line a handler prints; the arguments are the error code,
    if there is one, and the frame. *)
Definition stack_line (label : string) : list piece := [Lit (text label)] ++ stack_format ++ [Lit [10]].
Definition error_line (label : string) : list piece :=
  [Lit (text label); Arg 10; Lit (text ", stack: ")] ++ stack_format ++ [Lit [10]].
Definition fault_line : list piece :=
  [Lit (text "page_fault: reading "); Arg 16; Lit (text ": "); Arg 10; Lit (text ", stack: ")] ++ stack_format ++ [Lit [10]].

Definition print_stack (label : string) (stack : InterruptStack) (s : KernelIo K) : outcome (Ended (KernelIo K)) :=
  returns (qemu_print (render (stack_line label) (stack_args stack)) s).
Definition print_error (label : string) (code : Z) (stack : InterruptStack) (s : KernelIo K) : outcome (Ended (KernelIo K)) :=
  returns (qemu_print (render (error_line label) (code :: stack_args stack)) s).

(** [page_fault]: the bytes below the interrupted stack pointer, the address
    that faulted and the frame; then it spins. *)
Definition handle_page_fault (cr2 code : Z) (stack : InterruptStack) (s : KernelIo K) : outcome (Ended (KernelIo K)) :=
  start ← u64_sub (i_rsp (iret stack)) 0x48;
  let slice := map (fun i => io_mem s (start + i)) (seqZ 0 0x48) in
  s ← qemu_println (text "calle stacks: " ++ debug_bytes slice) s;
  s ← qemu_print (render fault_line (cr2 :: code :: stack_args stack)) s;
  Done (Spinning s).

(** [keyboard]: [data] is the byte read from port 0x60; the decoder's lock is
    taken nowhere else. *)
Definition handle_keyboard (data : Z) (s : KernelIo K) : outcome (KernelIo K) :=
  s ← io_eoi s;
  let '(ev, k) := add_byte data (io_kb s) in
  let s := set_kb k s in
  match ev with
  | None => Done s
  | Some key_event =>
      let '(key, k) := process_keyevent key_event (io_kb s) in
      let s := set_kb k s in
      match key with
      | Some (Unicode character) => qemu_print [character] s
      | Some (RawKey name) => qemu_print name s
      | None => Done s
      end
  end.

Definition handle_ipi_wakeup (cpu_id : Z) (s : KernelIo K) : outcome (KernelIo K) :=
  l ← infohart cpu_id (text "ipi wakeup") (io_log s);
  io_eoi (set_log l s).

(** The body of every handler. *)
Definition run_handler (cpu_id cr2 data : Z) (h : handler) (stack : InterruptStack) (code : Z) (s : KernelIo K)
  : outcome (Ended (KernelIo K)) :=
  match h with
  | divide_error => print_stack "divide_error: stack: " stack s
  | debug => print_stack "debug: stack: " stack s
  | non_maskable_interrupt => print_stack "non_maskable_interrupt: stack: " stack s
  | breakpoint => print_stack "breakpoint: stack: " stack s
  | overflow => print_stack "overflow: stack: " stack s
  | bound_range_exceeded => print_stack "bound_range_exceeded: stack: " stack s
  | invalid_opcode => print_stack "invalid_opcode: stack: " stack s
  | device_not_available => print_stack "device_not_available: stack: " stack s
  | hv_injection_exception => print_stack "hv_injection_exception: stack: " stack s
  | machine_check => print_stack "machine_check: stack: " stack s
  | simd_floating_point => print_stack "simd_floating_point: stack: " stack s
  | virtualization => print_stack "virtualization: stack: " stack s
  | x87_floating_point => print_stack "x87_floating_point: stack: " stack s
  | cp_protection_exception => print_stack "page_fault, stack: " stack s
  | vmm_communication_exception => print_stack "page_fault, stack: " stack s
  | page_fault => handle_page_fault cr2 code stack s
  | invalid_tss => print_error "invalid_tss: " code stack s
  | double_fault => print_error "double_fault: " code stack s
  | segment_not_present => print_error "segment_not_present: " code stack s
  | stack_segment_fault => print_error "stack_segment_fault: " code stack s
  | general_protection_fault => print_error "general_protection_fault: " code stack s
  | alignment_check => print_error "alignment_check: " code stack s
  | security_exception => print_error "security_exception: " code stack s
  | keyboard => returns (handle_keyboard data s)
  | lapic_error => Done (Returned s)
  | ipi_wakeup => returns (handle_ipi_wakeup cpu_id s)
  | pit_stack | cascade | com2 | com1 | lpt2 | floppy | lpt1 | rtc | pci1 | pci2 | pci3
  | mouse | fpu | ata1 | ata2 | lapic_timer | ipi_switch | ipi_pit => returns (io_eoi s)
  end.
End Handlers.

(** ** Exceptions *)

Section HandlersSpec.
Context {K : Type} {KB : Keyboard K} {F : Font} {FS : FontSpec F}.

(** The line of an exception, by its vector, up to the registers: its name and, for
    the vectors whose handler is given one, the error code; a page fault has the
    address in front of it. *)
Definition heading (v : Z) : list piece :=
  let plain name := [Lit (text name ++ text ": stack: ")] in
  let with_code name := [Lit (text name ++ text ": "); Arg 10; Lit (text ", stack: ")] in
  match v with
  | 0 => plain "divide_error" | 1 => plain "debug" | 2 => plain "non_maskable_interrupt" | 3 => plain "breakpoint"
  | 4 => plain "overflow" | 5 => plain "bound_range_exceeded" | 6 => plain "invalid_opcode"
  | 7 => plain "device_not_available" | 8 => with_code "double_fault" | 10 => with_code "invalid_tss"
  | 11 => with_code "segment_not_present" | 12 => with_code "stack_segment_fault"
  | 13 => with_code "general_protection_fault"
  | 14 => [Lit (text "page_fault: reading "); Arg 16; Lit (text ": "); Arg 10; Lit (text ", stack: ")]
  | 16 => plain "x87_floating_point" | 17 => with_code "alignment_check" | 18 => plain "machine_check"
  | 19 => plain "simd_floating_point" | 20 => plain "virtualization" | 28 => plain "hv_injection_exception"
  | 30 => with_code "security_exception"
  | _ => [Lit (text "page_fault, stack: ")]
  end.
Definition heading_values (v cr2 code : Z) : list Z :=
  if v =? 14 then [cr2; code] else if bool_decide (v ∈ [8; 10; 11; 12; 13; 17; 30]) then [code] else [].

(** The names of the registers, how each is written, and its value in a program. *)
Definition registers (u : machine) : list (string * Z * Z) :=
  [("RAX: 0x"%string, 16, get RAX u); ("RBX: 0x"%string, 16, get RBX u); ("RCX: 0x"%string, 16, get RCX u);
   ("RDX: 0x"%string, 16, get RDX u); ("RSI: 0x"%string, 16, get RSI u); ("RDI: 0x"%string, 16, get RDI u);
   ("RBP: 0x"%string, 16, get RBP u); ("RSP: 0x"%string, 16, get RSP u); ("R8: 0x"%string, 16, get R8 u);
   ("R9: 0x"%string, 16, get R9 u); ("R10: 0x"%string, 16, get R10 u); ("R11: 0x"%string, 16, get R11 u);
   ("R12: 0x"%string, 16, get R12 u); ("R13: 0x"%string, 16, get R13 u); ("R14: 0x"%string, 16, get R14 u);
   ("R15: 0x"%string, 16, get R15 u); ("RIP: 0x"%string, 16, m_rip u); ("CS: "%string, 2, m_cs u);
   ("SS: "%string, 2, m_ss u); ("RFLAGS: "%string, 2, m_rflags u)].

(** A line from which the vector, the error code, the address and the registers of
    a program can be read. *)
Definition reports (v cr2 code : Z) (u : machine) (line : list Z) : Prop :=
  exists rest, scan (heading v) line = Some (heading_values v cr2 code, rest) /\
    Forall (fun r => field r.1.2 (text r.1.1) rest = Some r.2) (registers u).

(** The line in front of that of a page fault. *)
Definition dump_line (v : Z) (u : machine) (mem : Z -> Z) : list Z :=
  if v =? 14 then text "calle stacks: " ++ debug_bytes (map (fun i => mem (get RSP u - 0x48 + i)) (seqZ 0 0x48)) ++ [10] else [].

Definition ended (v : Z) (s : KernelIo K) : Ended (KernelIo K) := if v =? 14 then Spinning s else Returned s.

(** The processor delivers vector [v], with an error code for the vectors that
    have one, and the assembly in front of the handler runs. *)
Definition raise (v code handler sp kcs kss : Z) (u : machine) : machine :=
  let d := deliver handler sp kcs kss u in
  if bool_decide (v ∈ error_code_vectors) then push_val code d else d.
Definition handler_entry (limit gdt_off : Z) (k : HandlerMacro) : list instr :=
  match k with
  | InterruptStackFast => interrupt_stack_entry swapgs_iff_ring3_fast nop
  | InterruptStackParanoid => interrupt_stack_entry nop (conditional_swapgs_paranoid limit gdt_off)
  | InterruptError => interrupt_error_entry
  | InterruptPlain => interrupt_entry
  end.

(** The program the handler takes the frame for: the handlers of 21 and 29 do not
    know of the error code. *)
Definition taken_for (v code sp : Z) (u : machine) : machine :=
  if bool_decide (v ∈ [21; 29]) then shifted u sp code else u.

Lemma qemu_print_ok t (s : KernelIo K) : io_serial_locked s = false -> qemu_print t s = Done (send_serial t s).
Proof. unfold qemu_print. by intros ->. Qed.

(** The arguments of a report. *)
Definition report_args (v cr2 code : Z) (u : machine) : list Z := heading_values v cr2 code ++ stack_args (trap_frame u).

Lemma stack_args_fit u : state_in_range u -> Forall (fits 64) (stack_args (trap_frame u)).
Proof.
  intros [Hr H1 H2 H3 H4]. unfold fits. cbn. repeat (apply Forall_cons; split; [first [apply Hr|assumption]|]). apply Forall_nil. exact I.
Qed.

(** Every register is found by its name. *)
Lemma registers_shown u s : state_in_range u ->
  Forall (fun r => field r.1.2 (text r.1.1) (render (stack_format ++ [Lit [10]]) (stack_args (trap_frame u)) ++ s) = Some r.2) (registers u).
Proof.
  intros Hu. pose proof (stack_args_fit u Hu) as Hfit. unfold registers. repeat apply Forall_cons_2; [..|apply Forall_nil_2].
  all: cbn [fst snd]; eapply field_render; [by vm_compute|reflexivity|exact Hfit|by vm_compute|by vm_compute|by vm_compute|reflexivity].
Qed.

Lemma render_split f g args args' : length args = arity f -> render (f ++ g) (args ++ args') = render f args ++ render g args'.
Proof.
  revert args. induction f as [|[p|b] f IH]; intros args H.
  - by destruct args.
  - cbn [app render]. by rewrite IH, app_assoc.
  - destruct args as [|a args]; [done|]. injection H as H. cbn [app render]. by rewrite IH, app_assoc.
Qed.

Lemma heading_ok v cr2 code : length (heading_values v cr2 code) = arity (heading v) /\ separated (heading v) = true.
Proof.
  unfold heading_values. destruct (Z.eqb_spec v 14) as [->|H14]; [done|]. case_bool_decide as Hv.
  - set_unfold in Hv. repeat destruct Hv as [->|Hv]; done.
  - assert (H : forall c, heading v = c -> arity c = 0%nat /\ separated c = true).
    { intros c <-. destruct v as [|p|p]; [done| |done]. do 5 (try destruct p as [p|p|]; try done); exfalso; (by apply H14) || (apply Hv; set_solver). }
    destruct (H _ eq_refl) as [-> ->]. done.
Qed.

Lemma reports_render v cr2 code u : state_in_range u -> fits 64 cr2 -> fits 64 code ->
  reports v cr2 code u (render (heading v ++ stack_format ++ [Lit [10]]) (report_args v cr2 code u)).
Proof.
  intros Hu H2 Hc. destruct (heading_ok v cr2 code) as [Hl Hsep]. unfold report_args. rewrite render_split by done.
  exists (render (stack_format ++ [Lit [10]]) (stack_args (trap_frame u))). split.
  - apply scan_render; [done..|]. unfold heading_values. destruct (v =? 14); [|case_bool_decide]; repeat (apply Forall_cons_2; [done|]); apply Forall_nil_2.
  - rewrite <- (app_nil_r (render _ _)). by apply registers_shown.
Qed.

(** The gates of the exceptions are those the table was given for them. *)
Lemma set_gates_elem l : forall t v g, set_gates l t !! v = Some g -> (v, g) ∈ l \/ t !! v = Some g.
Proof.
  induction l as [|[w h] l IH]; intros t v g H; [by right|]. apply IH in H as [H|H]; [left; by right|]. cbn [fst snd] in H.
  destruct (decide (v = w)) as [->|Hne]; [|rewrite lookup_insert_ne in H by done; by right].
  rewrite lookup_insert_eq in H. injection H as ->. left. by left.
Qed.

Lemma exception_gate cpu v g : idt_of cpu !! v = Some g -> v < 32 -> (v, g) ∈ exceptions.
Proof.
  unfold idt_of. intros H Hv. assert (Hn : forall l, Forall (fun vg => 32 <= vg.1) l -> (v, g) ∉ l).
  { intros l Hl Hin. apply (proj1 (Forall_forall _ _) Hl) in Hin. cbn in Hin. lia. }
  apply set_gates_elem in H as [H|H]; [exfalso; revert H; apply Hn; by apply (bool_decide_unpack _)|].
  apply set_gates_elem in H as [H|H]; [exfalso; revert H; apply Hn; by apply (bool_decide_unpack _)|].
  assert (H' : set_gates exceptions ∅ !! v = Some g).
  { destruct (cpu =? 0); [|done]. apply set_gates_elem in H as [H|H]; [|done]. exfalso; revert H; apply Hn; by apply (bool_decide_unpack _). }
  apply set_gates_elem in H' as [H'|H']; [done|]. by rewrite lookup_empty in H'.
Qed.

Lemma exception_kind v g : (v, g) ∈ exceptions ->
  (handler_macro (g_handler g), bool_decide (v ∈ error_code_vectors), bool_decide (v ∈ [21; 29])) ∈
    [(InterruptError, true, false); (InterruptStackFast, true, true); (InterruptStackFast, false, false);
     (InterruptStackParanoid, false, false)].
Proof.
  intros H. unfold exceptions in H. repeat (apply elem_of_cons in H as [[= -> ->]|H]; [apply (bool_decide_unpack _); by vm_compute|]).
  by apply not_elem_of_nil in H.
Qed.

(** What the assembly in front of a handler hands to it. *)
Lemma raised_frame limit gdt_off handler sp kcs kss u v code g :
  (v, g) ∈ exceptions -> state_in_range u -> INT_REGS_SIZE + 16 <= sp < 2 ^ 64 -> 0 <= code < 2 ^ 64 ->
  0 <= m_gdtr u < 2 ^ 64 -> 0 <= m_msr u IA32_GS_BASE < 2 ^ 64 ->
  let m := exec (handler_entry limit gdt_off (handler_macro (g_handler g))) (raise v code handler sp kcs kss u) in
  read_stack (m_mem m) (get RDI m) = trap_frame (taken_for v code sp u) /\
  (handler_macro (g_handler g) = InterruptError -> get RSI m = code).
Proof.
  intros Hg Hu Hsp Hc Hgd Hgs. unfold INT_REGS_SIZE, PRESERVED_SIZE, SCRATCH_SIZE in Hsp. apply exception_kind in Hg.
  unfold raise, taken_for. revert Hg. generalize (handler_macro (g_handler g)) as k.
  generalize (bool_decide (v ∈ error_code_vectors)) as e. generalize (bool_decide (v ∈ [21; 29])) as b. intros b e k Hg.
  repeat (apply elem_of_cons in Hg as [[= -> -> ->]|Hg]); [..|by apply not_elem_of_nil in Hg]; cbn [handler_entry].
  - generalize (interrupt_error_enters handler sp kcs kss u code Hu ltac:(lia) Hc).
    generalize (exec interrupt_error_entry (push_val code (deliver handler sp kcs kss u))) as m.
    cbv zeta. intros m (H1 & _ & -> & H4 & _). done.
  - destruct (shifted_trapped handler sp kcs kss u code ltac:(lia)) as [Hd Hm]. revert Hd Hm.
    generalize (push_val code (deliver handler sp kcs kss u)) as d. intros d Hd Hm.
    generalize (interrupt_stack_enters _ (sp - 8) d (shifted_range u sp code Hu Hc) ltac:(lia) Hd Hm).
    generalize (exec (interrupt_stack_entry swapgs_iff_ring3_fast nop) d) as m. cbv zeta. by intros m (H1 & _ & -> & _).
  - destruct (deliver_trapped handler sp kcs kss u ltac:(lia)) as (Hd & Hm & _).
    generalize (interrupt_stack_enters u sp _ Hu ltac:(lia) Hd Hm).
    generalize (exec (interrupt_stack_entry swapgs_iff_ring3_fast nop) (deliver handler sp kcs kss u)) as m.
    cbv zeta. by intros m (H1 & _ & -> & _).
  - generalize (paranoid_enters limit gdt_off handler sp kcs kss u Hu ltac:(lia) Hgd Hgs).
    generalize (exec (interrupt_stack_entry nop (conditional_swapgs_paranoid limit gdt_off)) (deliver handler sp kcs kss u)) as m.
    cbv zeta. by intros m (H1 & _ & -> & _).
Qed.

Lemma heading_without_code v g cr2 c c' : (v, g) ∈ exceptions -> handler_macro (g_handler g) <> InterruptError ->
  heading_values v cr2 c = heading_values v cr2 c'.
Proof.
  intros H Hk. unfold exceptions in H. repeat (apply elem_of_cons in H as [[= -> ->]|H]; [first [reflexivity|by destruct Hk]|]).
  by apply not_elem_of_nil in H.
Qed.

Lemma handler_prints cpu cr2 data v g p code (s : KernelIo K) :
  (v, g) ∈ exceptions -> (v = 14 -> 0x48 <= get RSP p < 2 ^ 64) -> io_serial_locked s = false ->
  run_handler cpu cr2 data (g_handler g) (trap_frame p) code s =
    Done (ended v (send_serial (dump_line v p (io_mem s) ++
      render (heading v ++ stack_format ++ [Lit [10]]) (report_args v cr2 code p)) s)).
Proof.
  intros Hg Hsp Hs. unfold exceptions in Hg.
  repeat (apply elem_of_cons in Hg as [[= -> ->]|Hg]; [try (cbn [g_handler gate run_handler]; unfold print_stack, print_error;
    rewrite qemu_print_ok by done; reflexivity)|]); [|by apply not_elem_of_nil in Hg].
  specialize (Hsp eq_refl). cbn [g_handler gate run_handler]. unfold handle_page_fault. cbn [trap_frame regs_frame iret i_rsp].
  unfold u64_sub. rewrite checked_in by lia. rewrite Done_bind. unfold qemu_println. rewrite qemu_print_ok, Done_bind by done.
  rewrite qemu_print_ok by done. rewrite Done_bind. unfold send_serial at 1 2. cbn [io_lapic io_hw io_serial io_serial_locked io_log io_kb io_mem].
  rewrite <- !app_assoc. reflexivity.
Qed.

(** C21. Exceptions are reported, for every vector of the table of every processor
    and whatever the program was doing: from the delivery of the exception through
    the assembly to the handler, which writes to the serial port and changes nothing
    else.  Its line begins with the name of the exception and the error code, the
    values of all registers of the program can be read back from it by their names,
    and after a page fault, for which the address and the bytes below the stack
    pointer are written too, it does not return.  The handlers of vectors 21 and 29
    call themselves page faults and report, in place of the program, one whose
    instruction pointer is the error code, as they take the code for the first word
    of the frame. *)
Theorem exceptions_reported limit gdt_off handler sp kcs kss u cpu cr2 data v g code (s : KernelIo K) :
  idt_of cpu !! v = Some g -> v < 32 -> state_in_range u -> INT_REGS_SIZE + 16 <= sp < 2 ^ 64 ->
  0 <= m_gdtr u < 2 ^ 64 -> 0 <= m_msr u IA32_GS_BASE < 2 ^ 64 -> fits 64 cr2 -> fits 64 code ->
  (v = 14 -> 0x48 <= get RSP u) -> io_serial_locked s = false ->
  let m := exec (handler_entry limit gdt_off (handler_macro (g_handler g))) (raise v code handler sp kcs kss u) in
  io_mem s = m_mem m ->
  exists line,
    run_handler cpu cr2 data (g_handler g) (read_stack (m_mem m) (get RDI m)) (get RSI m) s =
      Done (ended v (send_serial (dump_line v u (m_mem m) ++ line) s)) /\
    reports v cr2 code (taken_for v code sp u) line.
Proof.
  intros Hg Hv Hu Hsp Hgd Hgs H2 Hc H14 Hs m Hm. apply exception_gate in Hg; [|done].
  destruct (raised_frame limit gdt_off handler sp kcs kss u v code g Hg Hu Hsp Hc Hgd Hgs) as [Hf He]. fold m in Hf, He.
  rewrite Hf. rewrite <- Hm. set (p := taken_for v code sp u) in *.
  assert (Hp : state_in_range p) by (unfold p, taken_for; case_bool_decide; [by apply shifted_range|done]).
  assert (H : v = 14 -> p = u) by (by intros ->).
  exists (render (heading v ++ stack_format ++ [Lit [10]]) (report_args v cr2 code p)). split; [|by apply reports_render].
  rewrite (handler_prints cpu cr2 data v g p (get RSI m) s Hg); [| |done].
  - do 4 f_equal; [|f_equal].
    + unfold dump_line. destruct (Z.eqb_spec v 14) as [E|]; [by rewrite (H E)|done].
    + unfold report_args. destruct (decide (handler_macro (g_handler g) = InterruptError)) as [E|E]; [by rewrite He|].
      by rewrite (heading_without_code v g cr2 (get RSI m) code).
  - intros E. rewrite (H E). split; [by apply H14|apply Hu].
Qed.

(** ** Interrupts *)

(** The handlers that acknowledge. *)
Definition acknowledges (h : handler) : bool :=
  match handler_macro h, h with
  | InterruptPlain, lapic_error => false
  | InterruptPlain, _ => true
  | _, _ => false
  end.

Lemma eoi_acknowledges l h : drives l h -> eoi l h = Done (acknowledge h).
Proof.
  intros Hd. unfold eoi, lapic_set. destruct (la_x2 l) eqn:E.
  - unfold wrmsr. unfold drives in Hd. rewrite E in Hd. by rewrite Hd.
  - rewrite lapic_write_reg by (done || lia). reflexivity.
Qed.

(** The log can take another line. *)
Definition log_ready (fb : Framebuffer) (len : Z) (l : FramebufferLogger) : Prop :=
  fl_locked l = false /\ exists s, views fb len (fl_writer l) s /\ cursor_ok fb s /\ sc_y s < 2 ^ 62.

Lemma log_line_types fb len l level args s : fb_ok fb len -> fl_locked l = false -> level_enabled level = true ->
  views fb len (fl_writer l) s -> cursor_ok fb s -> sc_y s < 2 ^ 62 -> Z.of_nat (length args) < 2 ^ 50 ->
  exists w, log level args l = Done (mkLogger w false) /\ views fb len w (fold_left (type_char fb) (record_text level args) s).
Proof.
  intros Hfb Hl He Hv Hc Hy Ha. unfold log, fb_log, with_writer. rewrite He, Hl.
  destruct (write_str_ok fb len Hfb (record_text level args) _ s Hv Hc) as (w & E & Hw).
  - unfold record_text. rewrite !length_app. assert (length (pad_right 5 (level_str level)) = 5%nat) as -> by (by destruct level).
    change (length (text "[")) with 1%nat. change (length (text "]")) with 1%nat. cbn [length]. lia.
  - rewrite E. by exists w.
Qed.

Lemma log_line_ok fb len l level args : fb_ok fb len -> log_ready fb len l -> Z.of_nat (length args) < 2 ^ 50 ->
  exists l', log level args l = Done l' /\ fl_locked l' = false.
Proof.
  intros Hfb (Hl & s & Hv & Hc & Hy) Ha. destruct (level_enabled level) eqn:He.
  - destruct (log_line_types fb len l level args s) as (w & -> & _); try done. by eexists.
  - unfold log. rewrite He. by exists l.
Qed.

Lemma hart_args_length cpu args : (length (hart_args cpu args) <= 68 + length args)%nat.
Proof.
  unfold hart_args. rewrite !length_app. change (length (text "[#")) with 2%nat. change (length (text "] ")) with 2%nat.
  pose proof (fmt_radix_length 10 cpu). lia.
Qed.

Lemma keyboard_ok data (s : KernelIo K) : drives (io_lapic s) (io_hw s) -> io_serial_locked s = false ->
  exists s', handle_keyboard data s = Done s' /\ io_hw s' = acknowledge (io_hw s).
Proof.
  intros Hd Hs. unfold handle_keyboard, io_eoi. rewrite (eoi_acknowledges _ _ Hd), !Done_bind.
  destruct (add_byte _ _) as [[ev|] k]; [|by eexists]. destruct (process_keyevent _ _) as [[[c|name]|] k']; [..|by eexists].
  all: rewrite qemu_print_ok by done; by eexists.
Qed.

Lemma wakeup_ok fb len cpu (s : KernelIo K) : drives (io_lapic s) (io_hw s) -> fb_ok fb len -> log_ready fb len (io_log s) ->
  exists s', handle_ipi_wakeup cpu s = Done s' /\ io_hw s' = acknowledge (io_hw s).
Proof.
  intros Hd Hfb Hl. unfold handle_ipi_wakeup, infohart, loghart.
  destruct (log_line_ok fb len (io_log s) Info (hart_args cpu (text "ipi wakeup")) Hfb Hl) as (l & E & _).
  { pose proof (hart_args_length cpu (text "ipi wakeup")) as H.
    change (length (text "ipi wakeup")) with 10%nat in H. lia. }
  rewrite E, Done_bind. unfold io_eoi. cbn [io_lapic io_hw set_log]. rewrite (eoi_acknowledges _ _ Hd), Done_bind. by eexists.
Qed.

Lemma handler_acknowledges fb len cpu cr2 data h stack code (s : KernelIo K) :
  0x48 <= i_rsp (iret stack) < 2 ^ 64 -> drives (io_lapic s) (io_hw s) -> io_serial_locked s = false ->
  fb_ok fb len -> log_ready fb len (io_log s) ->
  exists e, run_handler cpu cr2 data h stack code s = Done e /\
    io_hw (final e) = if acknowledges h then acknowledge (io_hw s) else io_hw s.
Proof.
  intros Hsp Hd Hs Hfb Hl. destruct h; cbn [run_handler acknowledges handler_macro].
  all: try (unfold print_stack, print_error; rewrite qemu_print_ok by done; by eexists).
  all: try (unfold io_eoi; rewrite (eoi_acknowledges _ _ Hd); by eexists).
  - unfold handle_page_fault, u64_sub. rewrite checked_in by lia. rewrite Done_bind. unfold qemu_println.
    rewrite qemu_print_ok, Done_bind by done. rewrite qemu_print_ok, Done_bind by done. by eexists.
  - destruct (keyboard_ok data s Hd Hs) as (s' & E & H). rewrite E. by eexists.
  - by eexists.
  - destruct (wakeup_ok fb len cpu s Hd Hfb Hl) as (s' & E & H). rewrite E. by eexists.
Qed.

(** Device vectors, the error vector of the local APIC apart. *)
Definition device_vector (v : Z) : bool := (32 <=? v) && negb (v =? 49).

Lemma idt_acknowledges cpu v g : idt_of cpu !! v = Some g -> acknowledges (g_handler g) = device_vector v.
Proof.
  assert (H : forall c, map_Forall (fun v g => acknowledges (g_handler g) = device_vector v) (idt_of (if c : bool then 0 else 1))).
  { intros c. destruct c; apply (bool_decide_unpack _); vm_compute; exact I. }
  intros Hg. destruct (Z.eqb_spec cpu 0) as [->|Hc]; [exact (H true v g Hg)|].
  apply (H false v g). unfold idt_of in Hg |- *. by rewrite (proj2 (Z.eqb_neq cpu 0) Hc) in Hg.
Qed.

(** C22. Interrupts are acknowledged: through the table of every processor, the
    handler of a device interrupt or of an inter-processor interrupt runs to its
    end and tells the local APIC exactly once, whatever the keyboard sends and in
    both modes of the APIC; the handlers of exceptions and of APIC errors do not
    touch it. *)
Theorem vectors_acknowledged fb len cpu cr2 data v g stack code (s : KernelIo K) :
  idt_of cpu !! v = Some g ->
  0x48 <= i_rsp (iret stack) < 2 ^ 64 -> drives (io_lapic s) (io_hw s) -> io_serial_locked s = false ->
  fb_ok fb len -> log_ready fb len (io_log s) ->
  exists e, run_handler cpu cr2 data (g_handler g) stack code s = Done e /\
    io_hw (final e) = if device_vector v then acknowledge (io_hw s) else io_hw s.
Proof. intros Hg **. rewrite <- (idt_acknowledges cpu v g Hg). by eapply handler_acknowledges. Qed.
End HandlersSpec.

(** ** An instance *)

#[local] Existing Instance small_font.
#[local] Existing Instance small_font_spec.

(** A keyboard whose scancodes below 0x80 are keys pressed, and whose keys are
    letters. *)
#[local] Instance letter_keyboard : Keyboard nat := {|
  KeyEvent := Z;
  add_byte data presses := if data <? 0x80 then (Some data, S presses) else (None, presses);
  process_keyevent key presses := (Some (Unicode (97 + key)), presses)
|}.

Definition sample_io (base : Z) (x2 : bool) : KernelIo nat :=
  mkIo (mkLocalApic 0xfee00000 x2) (qemu_lapic base x2 0) (text "> ") false
    (framebuffer_logger_new small_fb (replicate 1280 9)) 0%nat (fun _ => 0).

Lemma sample_log_ready base x2 : log_ready small_fb 1280 (io_log (sample_io base x2)).
Proof.
  split; [done|]. exists (mkScreen (fun _ _ => [0; 0; 0; 0]) 1 1). split; [|split].
  - cbn [io_log sample_io framebuffer_logger_new fl_writer]. unfold writer_new.
    apply (views_clear small_fb 1280 small_fb_ok _ (mkScreen (shown (mkWriter small_fb (replicate 1280 9) 0 0)) 0 0)). by split; [split| | |].
  - split; cbn; lia.
  - cbn. lia.
Qed.

(** A general protection fault with code 6 in user mode, and vector 21 with the
    same code: the first report has the program's instruction pointer, the second
    the code in its place. *)
Definition sample_raised (v : Z) (k : HandlerMacro) : machine :=
  exec (handler_entry 0xffff 16 k) (raise v 6 0xffff1000 0x90000 8 0 sample_user).
Definition raised_io (m : machine) : KernelIo nat :=
  mkIo (mkLocalApic 0xfee00000 false) (qemu_lapic 0xfee00900 false 0) (text "> ") false
    (framebuffer_logger_new small_fb (replicate 1280 9)) 0%nat (m_mem m).

Lemma exceptions_reported_witness :
  (exists line, let m := sample_raised 13 InterruptError in
     run_handler 0 0 0 general_protection_fault (read_stack (m_mem m) (get RDI m)) (get RSI m) (raised_io m) =
       Done (Returned (send_serial line (raised_io m))) /\ reports 13 0 6 sample_user line) /\
  (exists line, let m := sample_raised 21 InterruptStackFast in
     run_handler 0 0 0 cp_protection_exception (read_stack (m_mem m) (get RDI m)) (get RSI m) (raised_io m) =
       Done (Returned (send_serial line (raised_io m))) /\ reports 21 0 6 (shifted sample_user 0x90000 6) line).
Proof.
  split.
  - refine (exceptions_reported 0xffff 16 0xffff1000 0x90000 8 0 sample_user 0 0 0 13 (gate general_protection_fault) 6
      (raised_io (sample_raised 13 InterruptError)) _ _ _ _ _ _ _ _ _ _ _);
    [by vm_compute|done|exact sample_user_range|by vm_compute|by vm_compute|by vm_compute|by vm_compute|by vm_compute|done|reflexivity|reflexivity].
  - refine (exceptions_reported 0xffff 16 0xffff1000 0x90000 8 0 sample_user 0 0 0 21 (gate cp_protection_exception) 6
      (raised_io (sample_raised 21 InterruptStackFast)) _ _ _ _ _ _ _ _ _ _ _);
    [by vm_compute|done|exact sample_user_range|by vm_compute|by vm_compute|by vm_compute|by vm_compute|by vm_compute|done|reflexivity|reflexivity].
Defined.

(** A key on the first processor, a wakeup on the second. *)
Lemma vectors_acknowledged_witness :
  exists e1 e2, run_handler 0 0 1 keyboard (trap_frame sample_user) 0 (sample_io 0xfee00900 false) = Done e1 /\
    h_eois (io_hw (final e1)) = 1%nat /\
    run_handler 1 0 0 ipi_wakeup (trap_frame sample_user) 0 (sample_io 0xfee00d00 true) = Done e2 /\ h_eois (io_hw (final e2)) = 1%nat.
Proof.
  assert (Hsp : 0x48 <= i_rsp (iret (trap_frame sample_user)) < 2 ^ 64) by (split; [by apply Z.leb_le|by apply Z.ltb_lt]).
  destruct (vectors_acknowledged small_fb 1280 0 0 1 33 (gate keyboard) (trap_frame sample_user) 0 (sample_io 0xfee00900 false))
    as (e1 & E1 & H1); [by vm_compute|exact Hsp| |reflexivity|exact small_fb_ok|apply sample_log_ready|].
  { split; [by vm_compute|]. split; [by vm_compute|]. by apply Z.leb_le; vm_compute. }
  destruct (vectors_acknowledged small_fb 1280 1 0 0 IPI_WAKEUP (gate ipi_wakeup) (trap_frame sample_user) 0 (sample_io 0xfee00d00 true))
    as (e2 & E2 & H2); [by vm_compute|exact Hsp|by vm_compute|reflexivity|exact small_fb_ok|apply sample_log_ready|].
  exists e1, e2. split; [exact E1|]. split; [by rewrite H1|]. split; [exact E2|by rewrite H2].
Defined.
