(* ===== verification/Panic.v ===== *)
(** * Panics, and the log of the bootloader

    The panic handlers of [kernel/src/panic.rs] and [bootloader-efi/src/panic.rs],
    the messages of [shared/src/print_panic.rs], [exit_qemu] of both
    [device/qemu.rs], the test runner of [kernel/src/main.rs], and the choice of
    the bootloader's logger in [bootloader-efi/src/logger/mod.rs] and [main.rs].
    How [PanicInfo] prints a message, and how the [uefi] crate prints a record,
    are parameters. *)

From S2P Require Import Prelude Text Shared Machine Interrupts Descriptors LocalApic FramebufferWriter Cpuid Logger Handlers.

(** ** Messages *)

(** [or_panic] on a [Result] and on an [Option]; [debug] prints the error. *)
Definition or_panic_result {T E} (debug : E -> list Z) (msg : list Z) (r : T + E) : T + list Z :=
  match r with
  | inl t => inl t
  | inr e => inr (text "efi panicked: " ++ msg ++ text ": " ++ debug e)
  end.
Definition or_panic_option {T} (msg : list Z) (r : option T) : T + list Z :=
  match r with Some t => inl t | None => inr msg end.

(** ** The exit port of the emulator *)

Inductive QemuExitCode : Type := Success | Failed.
Definition exit_code_num (c : QemuExitCode) : Z := match c with Success => 0x10 | Failed => 0x11 end.

(** What was written to ports, last first. *)
Definition PortWrites : Type := list (Z * Z).

(** The kernel's does not return, the bootloader's does. *)
Definition exit_qemu (c : QemuExitCode) (w : PortWrites) : Ended PortWrites := Spinning ((0xf4, exit_code_num c) :: w).
Definition boot_exit_qemu (c : QemuExitCode) (w : PortWrites) : PortWrites := (0xf4, exit_code_num c) :: w.

(** The emulator ends with this status when its exit port is written. *)
Definition qemu_status (w : PortWrites) : option Z :=
  match w with (0xf4, v) :: _ => Some (2 * v + 1) | _ => None end.

(** ** The kernel *)

Section KernelPanic.
Context {F : Font} {K : Type}.
(** [{:?}] of [PanicInfo] for a message. *)
Context (debug_info : list Z -> list Z).

(** [panic_handler]; [halt] does not return. *)
Definition panic_handler (cpu_id : Z) (msg : list Z) (l : FramebufferLogger) : outcome (Ended FramebufferLogger) :=
  l ← errorhart cpu_id (text "kernel panic: " ++ debug_info msg) l;
  Done (Spinning l).

(** The one of a test build. *)
Definition test_panic_handler (msg : list Z) (s : KernelIo K) (w : PortWrites) : outcome (KernelIo K * Ended PortWrites) :=
  s ← qemu_println (text "KERNEL TEST FAILED..." ++ debug_info msg) s;
  Done (s, exit_qemu Failed w).

(** A test returns, or panics with a message. *)
Definition Test : Type := KernelIo K -> outcome (KernelIo K * option (list Z)).

(** [test_runner]. *)
Fixpoint run_tests (tests : list Test) (s : KernelIo K) (w : PortWrites) : outcome (KernelIo K * Ended PortWrites) :=
  match tests with
  | [] => Done (s, exit_qemu Success w)
  | test :: tests =>
      '(s, failure) ← test s;
      match failure with
      | Some msg => test_panic_handler msg s w
      | None => run_tests tests s w
      end
  end.
Definition test_runner (tests : list Test) (s : KernelIo K) (w : PortWrites) : outcome (KernelIo K * Ended PortWrites) :=
  s ← qemu_println (text "Running " ++ fmt_dec (Z.of_nat (length tests)) ++ text " tests") s;
  run_tests tests s w.
End KernelPanic.

(** ** The bootloader *)

(** The loggers [log::set_logger] may be given; of the [uefi] crate's, what it
    wrote to the standard output. *)
Inductive BootLogger : Type :=
  | FramebufferSink (l : FramebufferLogger)
  | UefiSink (out : list Z).

(** The logger that was set, which stays, and the answer of [set_logger]. *)
Definition set_logger (new : BootLogger) (set : option BootLogger) : bool * option BootLogger :=
  match set with None => (true, Some new) | Some old => (false, Some old) end.

Section Bootloader.
Context {F : Font} (debug_info : list Z -> list Z) (uefi_record : Level -> list Z -> list Z).

(** A record goes to the logger that was set, or nowhere. *)
Definition boot_record (level : Level) (args : list Z) (set : option BootLogger) : outcome (option BootLogger) :=
  if level_enabled level then
    match set with
    | None => Done None
    | Some (FramebufferSink l) => l ← boot_fb_log level args l; Done (Some (FramebufferSink l))
    | Some (UefiSink out) => Done (Some (UefiSink (out ++ uefi_record level args)))
    end
  else Done set.

(** [init_framebuffer_logger] and [init_uefi_services_logger]. *)
Definition boot_set_framebuffer (fb : Framebuffer) (bytes : list Z) (set : option BootLogger) : outcome (option BootLogger) :=
  let '(ok, set) := set_logger (FramebufferSink (boot_init_framebuffer_logger fb bytes)) set in
  if ok then Done set else boot_record Info (text "failed to set global logger: " ++ text "attempted to set a logger after the logging system was already initialized") set.
Definition init_uefi_services_logger (set : option BootLogger) : option BootLogger := (set_logger (UefiSink []) set).2.

(** The beginning of [efi_main]. *)
Definition init_boot_logger (framebuffer : option (Framebuffer * list Z)) (set : option BootLogger) : outcome (option BootLogger) :=
  match framebuffer with
  | Some (fb, bytes) =>
      set ← boot_set_framebuffer fb bytes set;
      boot_record Info (text "efi framebuffer logger is initialized.") set
  | None =>
      boot_record Warn (text "failed to initialize framebuffer logger, use uefi stdout logger as fallback.") (init_uefi_services_logger set)
  end.

(** [panic_handler]: the processor halts for ever. *)
Definition boot_panic_handler (msg : list Z) (set : option BootLogger) : outcome (Ended (option BootLogger)) :=
  set ← boot_record Error (text "PANIC: " ++ debug_info msg) set;
  Done (Spinning set).
End Bootloader.

(** ** What is shown *)

Section PanicSpec.
Context {F : Font} {FS : FontSpec F} {K : Type} (debug_info : list Z -> list Z).

(** A panic of the kernel ends in a halt with its message on the screen, unless
    the processor panics while it writes to the log: then it waits for a lock it
    holds itself, and the message is lost. *)
Theorem panic_shown fb len cpu msg l s : fb_ok fb len -> views fb len (fl_writer l) s -> cursor_ok fb s -> sc_y s < 2 ^ 62 ->
  Z.of_nat (length (debug_info msg)) < 2 ^ 49 ->
  if fl_locked l then panic_handler debug_info cpu msg l = OutOfFuel
  else exists w, panic_handler debug_info cpu msg l = Done (Spinning (mkLogger w false)) /\
    views fb len w (fold_left (type_char fb) (record_text Error (hart_args cpu (text "kernel panic: " ++ debug_info msg))) s).
Proof.
  intros Hfb Hv Hc Hy Hm. unfold panic_handler, errorhart, loghart. destruct (fl_locked l) eqn:Hl.
  { unfold log, fb_log, with_writer. by rewrite Hl. }
  destruct (log_line_types fb len l Error (hart_args cpu (text "kernel panic: " ++ debug_info msg)) s) as (w & E & Hw); try done.
  - pose proof (hart_args_length cpu (text "kernel panic: " ++ debug_info msg)) as H. rewrite length_app in H.
    change (length (text "kernel panic: ")) with 14%nat in H. lia.
  - exists w. by rewrite E.
Qed.

(** A test run ends through the exit port: with status 33 when every test
    returns, and with 35 at the first one that panics. *)
Theorem test_runner_status (tests : list (Test (K := K))) s w : io_serial_locked s = false ->
  (forall test s, test ∈ tests -> io_serial_locked s = false ->
    exists s' f, test s = Done (s', f) /\ io_serial_locked s' = false) ->
  exists s' w', test_runner debug_info tests s w = Done (s', Spinning w') /\
    (qemu_status w' = Some 33 \/ qemu_status w' = Some 35) /\
    ((forall test s, test ∈ tests -> exists s', test s = Done (s', None)) -> qemu_status w' = Some 33).
Proof.
  intros Hs Ht. unfold test_runner, qemu_println. rewrite qemu_print_ok by done. rewrite Done_bind.
  set (s1 := send_serial _ s). assert (H1 : io_serial_locked s1 = false) by done. clearbody s1. revert s1 H1.
  induction tests as [|test tests IH]; intros s1 H1; cbn [run_tests].
  { exists s1, ((0xf4, 0x10) :: w). split; [done|]. split; [by left|done]. }
  destruct (Ht test s1 ltac:(by left) H1) as (s2 & f & E & H2). rewrite E, Done_bind. cbv beta iota. destruct f as [msg|].
  - unfold test_panic_handler, qemu_println. rewrite qemu_print_ok, Done_bind by done. eexists _, ((0xf4, 0x11) :: w).
    split; [done|]. split; [by right|]. intros Hall. destruct (Hall test s1 ltac:(by left)) as (s3 & E3). congruence.
  - destruct (IH ltac:(by intros t s3 Hin; apply Ht; right) s2 H2) as (s3 & w' & E3 & Hst & Hall). exists s3, w'.
    split; [exact E3|]. split; [exact Hst|]. intros Ha. apply Hall. intros t s4 Hin. apply Ha. by right.
Qed.

(** The first logger the bootloader sets is the one its records go to. *)
Theorem boot_logger_chosen uefi_record framebuffer :
  match framebuffer with Some (fb, bytes) => fb_ok fb (Z.of_nat (length bytes)) | None => True end ->
  exists sink, init_boot_logger uefi_record framebuffer None = Done (Some sink) /\
    match framebuffer, sink with
    | Some _, FramebufferSink l => fl_locked l = false
    | None, UefiSink out => out = uefi_record Warn (text "failed to initialize framebuffer logger, use uefi stdout logger as fallback.")
    | _, _ => False
    end.
Proof.
  destruct framebuffer as [[fb bytes]|]; intros H; [|by eexists].
  destruct (boot_log_shown fb _ bytes Info (text "efi framebuffer logger is initialized.") H eq_refl eq_refl) as (l & E & Hl & _); [by vm_compute|].
  exists (FramebufferSink l). split; [|exact Hl]. unfold init_boot_logger, boot_set_framebuffer. cbn [set_logger]. rewrite Done_bind.
  unfold boot_record. cbn [level_enabled level_num MAX_LEVEL Z.leb]. unfold boot_log in E. cbn [level_enabled] in E.
  change (level_enabled Info) with true in *. cbv iota in *. by rewrite E.
Qed.
End PanicSpec.
