(* ===== verification/Bootstrap.v ===== *)
(** * The first program

    [bootstrap/src/main.rs], which writes one line through the library of
    Vdso.v, and the kernel's side of the call, [__inner_syscall_instruction] of
    [kernel/src/syscall.rs], with the line it logs.  The entry and exit paths are
    those of Interrupts.v, the log is the one of Logger.v. *)

From S2P Require Import Prelude Text Vdso Shared Machine Interrupts Descriptors LocalApic FramebufferWriter Cpuid Logger Handlers.

(** ** The kernel's side *)

Definition syscall_format : list piece := [Lit (text "syscall: args = ")] ++ stack_format.

Section Kernel.
Context {F : Font}.

(** [__inner_syscall_instruction] on the frame at [stack], with
    [percpu.inside_syscall] and the log. *)
Definition inner_syscall (cpu_id stack : Z) (mem : Z -> Z) (inside_syscall : bool) (l : FramebufferLogger)
  : outcome ((Z -> Z) * bool * FramebufferLogger) :=
  let stack_ref := read_stack mem stack in
  let inside_syscall := true in
  l ← infohart cpu_id (render syscall_format (stack_args stack_ref)) l;
  let result : KResult Z := inl 0 in
  let inside_syscall := false in
  v ← mux result;
  Done (set_syscall_ret_reg v stack mem, inside_syscall, l).

(** Its effect on memory. *)
Definition inner_syscall_effect (cpu_id : Z) (l : FramebufferLogger) (stack : Z) (mem : Z -> Z) : outcome (Z -> Z) :=
  '(mem, _, _) ← inner_syscall cpu_id stack mem false l;
  Done mem.
End Kernel.

(** ** The program *)

(** The operands of a system call in the registers of the program. *)
Definition operands_of (m : machine) : SyscallRegs :=
  mkSyscallRegs (get RAX m) (get RDI m) (get RSI m) (get RDX m) (get R10 m) (get R8 m).
Definition load_operands (s : SyscallRegs) (m : machine) : machine :=
  set RAX (sc_rax s) (set RDI (sc_rdi s) (set RSI (sc_rsi s) (set RDX (sc_rdx s) (set R10 (sc_r10 s) (set R8 (sc_r8 s) m))))).

(** The program when it executes the [syscall] of [syscall::write]. *)
Definition at_write (fd : Z) (buf : Z * Z) (m : machine) : machine :=
  load_operands (syscall_operands (operands_of m) [SYS_WRITE; fd; buf.1; buf.2]) m.

(** The instruction on the machine: through the kernel and back. *)
Definition execute_syscall (ksp : Z) (call : instr) (m : machine) : machine := syscall_instruction ksp call (syscall_insn m).

(** [syscall::write] as the program calls it: the result and the machine after it. *)
Definition program_write (ksp : Z) (call : instr) (fd : Z) (buf : Z * Z) (m : machine) : KResult Z * machine :=
  (vdso_write (fun s => get RAX (execute_syscall ksp call (load_operands s m))) (operands_of m) fd buf,
   execute_syscall ksp call (at_write fd buf m)).

Definition HELLO : list Z := text "hello from bootstrap" ++ [10].
Definition PANIC : list Z := text "panic".

(** [_start] and the panic handler; [msg] is where the linker put the bytes.
    The result is not looked at, and the program spins. *)
Definition bootstrap_start (ksp : Z) (call : instr) (msg : Z) (m : machine) : Ended machine :=
  let '(_, m) := program_write ksp call 1 (msg, Z.of_nat (length HELLO)) m in
  Spinning m.
Definition bootstrap_panic (ksp : Z) (call : instr) (msg : Z) (m : machine) : Ended machine :=
  let '(_, m) := program_write ksp call 1 (msg, Z.of_nat (length PANIC)) m in
  Spinning m.

(** ** The call *)

Section Call.
Context {F : Font} {FS : FontSpec F}.

(** The line of a call on the screen. *)
Definition syscall_line (cpu_id : Z) (st : InterruptStack) : list Z :=
  record_text Info (hart_args cpu_id (render syscall_format (stack_args st))).

Lemma inner_syscall_ok fb len cpu_id stack mem l s : fb_ok fb len -> fl_locked l = false ->
  views fb len (fl_writer l) s -> cursor_ok fb s -> sc_y s < 2 ^ 62 ->
  exists w, inner_syscall cpu_id stack mem false l = Done (set_syscall_ret_reg 0 stack mem, false, mkLogger w false) /\
    views fb len w (fold_left (type_char fb) (syscall_line cpu_id (read_stack mem stack)) s).
Proof.
  intros Hfb Hl Hv Hc Hy. unfold inner_syscall, infohart, loghart.
  destruct (log_line_types fb len l Info (hart_args cpu_id (render syscall_format (stack_args (read_stack mem stack)))) s) as (w & E & Hw); try done.
  - pose proof (hart_args_length cpu_id (render syscall_format (stack_args (read_stack mem stack)))) as H1.
    pose proof (render_length syscall_format (stack_args (read_stack mem stack))) as H2.
    assert (H3 : (format_bound syscall_format <= 2000)%nat) by (apply Nat.leb_le; by vm_compute). lia.
  - exists w. by rewrite E.
Qed.

Lemma syscall_frame_fits u : regs_in_range (syscall_insn u) -> 0 <= m_rip u < 2 ^ 64 -> 0 <= m_rflags u < 2 ^ 64 -> regs_in_range u ->
  Forall (fits 64) (stack_args (syscall_frame u)).
Proof.
  intros Hr H1 H2 Hu. unfold stack_args, syscall_frame, regs_frame, preserved_args, scratch_args, iret_args.
  cbn [preserved scratch iret p_r15 p_r14 p_r13 p_r12 p_rbp p_rbx s_r11 s_r10 s_r9 s_r8 s_rsi s_rdi s_rdx s_rcx s_rax i_rip i_cs i_rflags i_rsp i_ss app].
  repeat (apply Forall_cons_2; [first [exact (Hr _)|exact H1|exact H2|exact (Hu _)|by vm_compute]|]). apply Forall_nil_2.
Qed.

Lemma syscall_frame_read u : regs_in_range u -> 0 <= m_rip u < 2 ^ 64 -> 0 <= m_rflags u < 2 ^ 64 ->
  scan syscall_format (render syscall_format (stack_args (syscall_frame u))) = Some (stack_args (syscall_frame u), []).
Proof.
  intros Hu H1 H2. rewrite <- (app_nil_r (render _ _)). apply scan_render; [reflexivity|reflexivity|].
  apply syscall_frame_fits; try done. by apply syscall_insn_range.
Qed.

(** Only the operands change before the instruction. *)
Lemma at_write_regs fd buf u r : r ∉ [RAX; RDI; RSI; RDX] -> get r (at_write fd buf u) = get r u.
Proof. intros Hr. destruct r; try reflexivity; exfalso; apply Hr; by apply (bool_decide_unpack _). Qed.

Lemma at_write_may_call ksp entry boot top u fd buf : may_call ksp entry boot top u -> fits 64 fd -> fits 64 buf.1 -> fits 64 buf.2 ->
  may_call ksp entry boot top (at_write fd buf u).
Proof.
  intros [H1 H2 H3 H4 H5 H6 H7 H8] Hf Hp Hl. split; [exact H1| |exact H3|exact H4|exact H5|exact H6|exact H7|exact H8]. intros r.
  destruct (decide (r ∈ [RAX; RDI; RSI; RDX])) as [Hin|Hin]; [|rewrite at_write_regs by done; apply H2].
  rewrite !elem_of_cons, elem_of_nil in Hin. destruct Hin as [->|[->|[->|[->|[]]]]]; [by vm_compute|exact Hf|exact Hp|exact Hl].
Qed.

Lemma program_write_result ksp call fd buf u : (program_write ksp call fd buf u).1 = inl (get RAX (program_write ksp call fd buf u).2).
Proof. unfold program_write, vdso_write, syscall_n, demux, at_write. cbn [fst snd]. reflexivity. Qed.

Lemma program_write_machine ksp call fd buf u :
  (program_write ksp call fd buf u).2 = syscall_instruction ksp call (syscall_insn (at_write fd buf u)).
Proof. unfold program_write, execute_syscall. cbn [snd]. reflexivity. Qed.

Lemma bootstrap_start_spins ksp call msg u : bootstrap_start ksp call msg u = Spinning (program_write ksp call 1 (msg, 21) u).2.
Proof. unfold bootstrap_start. change (Z.of_nat (length HELLO)) with 21. by destruct (program_write _ _ _ _ _). Qed.

(** C17. The first program's line: the program enters the kernel with the number
    of [write], the descriptor 1 and the address and length of its message; the
    kernel shows a line on the screen from which all of them, and every other
    register of the program, can be read back; and the program gets [Ok(0)] and
    spins, on its own stack, with its registers, flags, segments and GS bases
    as before. *)
Theorem first_program_writes ksp entry boot top cpu call msg u fb len l s :
  let m1 := exec (syscall_entry ksp) (syscall_insn (at_write 1 (msg, 21) u)) in
  may_call ksp entry boot top u -> fits 64 msg ->
  rust_call INT_REGS_SIZE (inner_syscall_effect cpu l) m1 (call m1) ->
  fb_ok fb len -> fl_locked l = false -> views fb len (fl_writer l) s -> cursor_ok fb s -> sc_y s < 2 ^ 62 ->
  exists mem w line m',
    inner_syscall cpu (get RDI m1) (m_mem m1) false l = Done (mem, false, mkLogger w false) /\
    views fb len w (fold_left (type_char fb) (record_text Info (hart_args cpu line)) s) /\
    scan syscall_format line = Some (stack_args (syscall_frame (at_write 1 (msg, 21) u)), []) /\
    (let a := scratch (syscall_frame (at_write 1 (msg, 21) u)) in
     s_rax a = SYS_WRITE /\ s_rdi a = 1 /\ s_rsi a = msg /\ s_rdx a = Z.of_nat (length HELLO)) /\
    bootstrap_start ksp call msg u = Spinning m' /\ (program_write ksp call 1 (msg, 21) u).1 = inl 0 /\
    (forall r, r ∉ [RAX; RCX; RDX; RSI; RDI; R11] -> get r m' = get r u) /\
    m_rip m' = m_rip u /\ m_rflags m' = m_rflags u /\ m_cs m' = CS_SEL /\ m_ss m' = SS_SEL /\
    m_msr m' IA32_GS_BASE = m_msr u IA32_GS_BASE /\ m_msr m' IA32_KERNEL_GS_BASE = m_msr u IA32_KERNEL_GS_BASE.
Proof.
  intros m1 Hu Hmsg Hcall Hfb Hl Hv Hc Hy.
  assert (Hw : may_call ksp entry boot top (at_write 1 (msg, 21) u)) by (by apply at_write_may_call).
  destruct (syscall_enters _ _ _ _ _ Hw) as (_ & Hdi & Hst & _). fold m1 in Hdi, Hst.
  destruct (inner_syscall_ok fb len cpu (get RDI m1) (m_mem m1) l s Hfb Hl Hv Hc Hy) as (w & E & Hs).
  assert (Hcall' : rust_call INT_REGS_SIZE syscall_effect m1 (call m1)).
  { destruct Hcall as [C1 (mem & C2 & C3) C4 C5 C6 C7]. split; try done. exists mem. split; [|done].
    unfold inner_syscall_effect in C2. rewrite E, Done_bind in C2. exact C2. }
  destruct (syscall_returns _ _ _ _ _ _ Hw Hcall') as (R1 & R2 & R3).
  change (m_rip (at_write _ _ u)) with (m_rip u) in R3. change (m_rflags (at_write _ _ u)) with (m_rflags u) in R3.
  change (m_msr (at_write _ _ u)) with (m_msr u) in R3.
  rewrite <- program_write_machine in R1, R2, R3.
  rewrite Hdi, Hst in Hs.
  exists (set_syscall_ret_reg 0 (get RDI m1) (m_mem m1)), w,
    (render syscall_format (stack_args (syscall_frame (at_write 1 (msg, 21) u)))), (program_write ksp call 1 (msg, 21) u).2.
  split; [exact E|]. split; [exact Hs|]. split.
  { destruct Hw as [_ Hr _ Hrip [Hf _] _ _ _]. apply syscall_frame_read; [exact Hr|lia|exact Hf]. }
  split; [done|]. split; [apply bootstrap_start_spins|]. split; [by rewrite program_write_result, R2|].
  split; [|exact R3]. clear R2 R3 E Hs. intros r Hr. rewrite !not_elem_of_cons in Hr. destruct Hr as (N1 & N2 & N3 & N4 & N5 & N6 & _).
  rewrite R1, at_write_regs by (rewrite !not_elem_of_cons; split_and!; assumption || apply not_elem_of_nil). reflexivity.
Qed.
End Call.

(** ** An instance: the user of Interrupts.v and a small screen *)

#[local] Existing Instance small_font.
#[local] Existing Instance small_font_spec.

Definition small_log : FramebufferLogger := framebuffer_logger_new small_fb (replicate 1280 9).

Lemma small_log_views : exists s, views small_fb 1280 (fl_writer small_log) s /\ cursor_ok small_fb s /\ sc_y s < 2 ^ 62.
Proof. destruct (sample_log_ready 0 false) as (_ & s & H). exists s. exact H. Qed.

Lemma sample_may_call : may_call 100 0xffff0000 blank_machine 0x90000 sample_user.
Proof. split; try done; [apply sample_user_range|apply sample_user_memory|right; by vm_compute]. Qed.

Lemma sample_call_logs m : rust_call INT_REGS_SIZE (inner_syscall_effect 0 small_log) m (sample_syscall m).
Proof.
  destruct small_log_views as (s & Hv & Hc & Hy).
  destruct (inner_syscall_ok small_fb 1280 0 (get RDI m) (m_mem m) small_log s small_fb_ok eq_refl Hv Hc Hy) as (w & E & _).
  split; [done| |done..]. exists (set_syscall_ret_reg 0 (get RDI m) (m_mem m)). split; [|done].
  unfold inner_syscall_effect. rewrite E. reflexivity.
Qed.

(** The message at 0x401000. *)
Lemma first_program_writes_witness :
  exists line m', scan syscall_format line = Some (stack_args (syscall_frame (at_write 1 (0x401000, 21) sample_user)), []) /\
    bootstrap_start 100 sample_syscall 0x401000 sample_user = Spinning m' /\
    (program_write 100 sample_syscall 1 (0x401000, 21) sample_user).1 = inl 0 /\ m_rip m' = 0x400000.
Proof.
  destruct small_log_views as (s & Hv & Hc & Hy).
  destruct (first_program_writes 100 0xffff0000 blank_machine 0x90000 0 sample_syscall 0x401000 sample_user small_fb 1280 small_log s)
    as (mem & w & line & m' & _ & _ & H1 & _ & H2 & H3 & _ & H4 & _).
  - exact sample_may_call.
  - by vm_compute.
  - apply sample_call_logs.
  - exact small_fb_ok.
  - reflexivity.
  - exact Hv.
  - exact Hc.
  - exact Hy.
  - exists line, m'. split; [exact H1|]. split; [exact H2|]. split; [exact H3|exact H4].
Defined.
