(* ===== verification/UefiBoot.v ===== *)
(** * The bootloader under the firmware

    The first part of [efi_main] in [bootloader-efi/src/main.rs], which runs while
    the firmware's boot services are there, with [framebuffer.rs], [fs.rs],
    [device/retrieve.rs], [device/partition.rs] and the [boot] module of
    [mem/page_allocator.rs]: the framebuffer and its mode, the ACPI settings, the
    partition the bootloader came from, and the two files that are loaded from it.
    The firmware is a class; a query can fail where the [uefi] crate returns a
    result. *)

From S2P Require Import Prelude Text Platform Shared Paging Machine UserAddrSpace Elf ElfImage KFrameAlloc BootFrameAlloc TrackedMapper RuntimeMap LoadKernel Boot Acpi BuildImage FramebufferWriter.

(** ** The firmware *)

Inductive Protocol : Type := PartitionInfo | DevicePath | DevicePathToText | LoadedImage | SimpleFileSystem | GraphicsOutput.

Inductive PixelFormat : Type := Rgb | Bgr | Bitmask | BltOnly.

(** [ModeInfo]. *)
Record ModeInfo : Type := mkModeInfo { mi_resolution : Z * Z; mi_stride : Z; mi_pixel_format : PixelFormat }.

(** [FileType], with the bytes of a regular file. *)
Inductive FileType : Type := Regular (bytes : list Z) | Directory.

(** Handles, opened directories and devices are numbers. *)
Class Firmware (S : Type) : Type := {
  locate_handle_buffer : Protocol -> S -> option (list Z);
  (** whether [open_protocol_exclusive] succeeds on a handle *)
  open_protocol_exclusive : Protocol -> Z -> S -> bool;
  (** [convert_device_path_to_text] on the path of a handle *)
  convert_device_path_to_text : Z -> S -> option (list Z);
  image_handle : S -> Z;
  (** [LoadedImage::device] of the image *)
  image_device : S -> option Z;
  (** [locate_device_path::<SimpleFileSystem>] from the path of a handle *)
  locate_device_path : Z -> S -> option Z;
  open_volume : Z -> S -> option Z;
  (** [Directory::open] for reading, and [into_type] *)
  open_file : Z -> list Z -> S -> option FileType;
  (** [get_info] into a buffer: the size of the file *)
  get_info : Z -> list Z -> S -> option Z;
  (** [RegularFile::read] into a buffer of some length: what is put there *)
  read_file : Z -> list Z -> S -> option (list Z);
  modes : Z -> S -> list ModeInfo;
  set_mode : Z -> ModeInfo -> S -> option S;
  current_mode_info : Z -> S -> ModeInfo;
  (** address and size *)
  frame_buffer : Z -> S -> Z * Z;
  (** [allocate_pages(AllocateType::MaxAddress(max), BOOT_SERVICES_DATA, pages)] *)
  allocate_pages : Z -> Z -> S -> option (Z * S);
  config_table : S -> list (Guid * Z);
  (** [exit_boot_services]: the memory map *)
  exit_boot_services : S -> list MemoryDescriptor
}.

(** ** Pages of the boot stage *)

Definition page_size : Z := 4096.
Definition MAX_ADDRESS : Z := 0x200000000.

Section UefiBoot.
Context {S : Type} {FW : Firmware S}.

Definition allocate_zeroed_page_aligned (size : Z) (s : S) (m : memory) : outcome (Z * S * memory) :=
  a ← u64_add size page_size;
  a ← u64_sub a 1;
  let pages := a / page_size in
  '(ptr, s) ← or_panic (allocate_pages MAX_ADDRESS pages s);
  _ ← rassert (negb (ptr =? 0));
  n ← u64_mul pages page_size;
  Done (ptr, s, mem_fill ptr n 0 m).

(** [paging_allocate::<u8>]: address and length of the slice. *)
Definition paging_allocate (s : S) (m : memory) : outcome (option (Z * Z) * S * memory) :=
  '(ptr, s, m) ← allocate_zeroed_page_aligned page_size s m;
  Done (if negb (ptr =? 0) then Some (ptr, page_size / 1) else None, s, m).

(** ** The framebuffer *)

Definition fb_format (f : PixelFormat) : option Z :=
  match f with Rgb => Some PIXEL_RGB | Bgr => Some PIXEL_BGR | Bitmask | BltOnly => None end.

Definition locate_framebuffer (s : S) : outcome (option Framebuffer * S) :=
  match locate_handle_buffer GraphicsOutput s with
  | None | Some [] => Done (None, s)
  | Some (handle :: _) =>
      if negb (open_protocol_exclusive GraphicsOutput handle s) then Done (None, s)
      else
        s ← match largest_resolution_mode mi_resolution (modes handle s) with
            | Some mode => or_panic (set_mode handle mode s)
            | None => Done s
            end;
        let current_info := current_mode_info handle s in
        let fb := frame_buffer handle s in
        match fb_format (mi_pixel_format current_info) with
        | Some format =>
            Done (Some (mkFramebuffer fb.1 fb.2 (mi_resolution current_info).1 (mi_resolution current_info).2
              (mi_stride current_info) format), s)
        | None => Done (None, s)
        end
  end.

(** ** Devices and partitions *)

(** [ProtocolWithHandle]: the handle and the text of its device path. *)
Record ProtocolWithHandle : Type := mkPWH { pwh_handle : Z; device_path_string : list Z }.

Definition get_device_path_str (handle : Z) (s : S) : outcome (list Z) :=
  dptt_handle_buffers ← or_panic (locate_handle_buffer DevicePathToText s);
  dptt_handle ← or_panic (head dptt_handle_buffers);
  _ ← rassert (open_protocol_exclusive DevicePathToText dptt_handle s);
  or_panic (convert_device_path_to_text handle s).

(** The closure of [list_handles], with the entries of [out] written so far. *)
Definition list_handle (p : Protocol) (capacity : nat) (s : S) (out : list ProtocolWithHandle) (h : Z)
  : outcome (list ProtocolWithHandle) :=
  if negb (open_protocol_exclusive p h s) then Done out
  else if negb (open_protocol_exclusive DevicePath h s) then Done out
  else
    device_path_str ← get_device_path_str h s;
    _ ← rassert (length out <? capacity)%nat;
    Done (out ++ [mkPWH h device_path_str]).

Definition list_handles (p : Protocol) (capacity : nat) (s : S) : outcome (list ProtocolWithHandle) :=
  handle_buffer ← or_panic (locate_handle_buffer p s);
  foldM (list_handle p capacity s) [] handle_buffer.

Definition find_current_boot_partition (partitions : list ProtocolWithHandle) (s : S) : outcome (option ProtocolWithHandle) :=
  if negb (open_protocol_exclusive LoadedImage (image_handle s) s) then Done None
  else
    current_image_device ← or_panic (image_device s);
    _ ← rassert (open_protocol_exclusive DevicePath current_image_device s);
    current_image_device_path ← get_device_path_str current_image_device s;
    Done (List.find (fun part => bool_decide (device_path_string part = current_image_device_path)) partitions).

(** ** Files *)

(** The handle that is opened as a file system. *)
Definition open_sfs (device_handle : Z) (s : S) : option Z :=
  if negb (open_protocol_exclusive DevicePath device_handle s) then None
  else
    fs_handle ← locate_device_path device_handle s;
    if open_protocol_exclusive SimpleFileSystem fs_handle s then Some fs_handle else None.

(** [CStr16::from_str_with_buf] with a buffer of 256: no zero in the name, every
    character in 16 bits, and room for the final zero. *)
Definition cstr16 (path : list Z) : bool :=
  forallb (fun c => (0 <? c) && (c <? 2 ^ 16)) path && (length path <? 256)%nat.

Fixpoint drop_zeros (rev_path : list Z) : list Z :=
  match rev_path with 0 :: r => drop_zeros r | _ => rev_path end.

(** [str::trim_end_matches] of the zero character. *)
Definition trim_end_zeros (path : list Z) : list Z := rev (drop_zeros (rev path)).

(** Address and length of the loaded bytes. *)
Definition load_file_sfs (root : Z) (path : list Z) (s : S) (m : memory) : outcome (option (Z * Z) * S * memory) :=
  let filename := trim_end_zeros path in
  if negb (cstr16 filename) then Done (None, s, m)
  else
    match open_file root filename s with
    | None | Some Directory => Done (None, s, m)
    | Some (Regular file) =>
        '(buf, s, m) ← paging_allocate s m;
        buf ← or_panic buf;
        file_size ← or_panic (get_info buf.2 file s);
        '(file_ptr, s, m) ← allocate_zeroed_page_aligned file_size s m;
        let m := mem_fill file_ptr file_size 0 m in
        bytes ← or_panic (read_file file_size file s);
        Done (Some (file_ptr, file_size), s, mem_write file_ptr bytes m)
    end.

(** ** [efi_main] *)

(** What the first part leaves. *)
Record Loaded : Type := mkLoaded {
  ld_framebuffer : option Framebuffer;
  ld_acpi : AcpiSettings;
  ld_kernel : Z * Z;
  ld_bootstrap : Z * Z;
  ld_firmware : S;
  ld_hw : AcpiHw;
  ld_mem : memory
}.

Definition MAX_PARTITIONS : nat := 256.

(** Up to [exit_boot_services], without the log.  The fuel is for waiting until
    ACPI is enabled, and [from_rsdp] is the table walk of the [acpi] crate. *)
Definition efi_boot (fuel : nat) (from_rsdp : Z -> option AcpiTables) (s : S) (h : AcpiHw) (m : memory) : outcome Loaded :=
  '(framebuffer, s) ← locate_framebuffer s;
  acpi_table ← or_panic (find_acpi_table_pointer m (config_table s));
  '(acpi_settings, h) ← parse_acpi_table fuel from_rsdp acpi_table.1 h;
  partitions ← list_handles PartitionInfo MAX_PARTITIONS s;
  current ← find_current_boot_partition partitions s;
  current_image_partition ← or_panic current;
  fs ← or_panic (open_sfs (pwh_handle current_image_partition) s);
  root ← or_panic (open_volume fs s);
  '(kernel, s, m) ← load_file_sfs root (text "kernel-x86_64") s m;
  kernel ← or_panic kernel;
  _ ← rassert (0 <? kernel.2);
  '(bootstrap, s, m) ← load_file_sfs root (text "bootstrap") s m;
  bootstrap ← or_panic bootstrap;
  Done (mkLoaded framebuffer acpi_settings kernel bootstrap s h m).
End UefiBoot.
Arguments Loaded : clear implicits.

Section EfiMain.
Context {S : Type} {FW : Firmware S}.
Context {X : X86Addr} {V : X86Virt} {VT : X86Step} {F : PtFlags} {PT : Type} {M : Mapper PT}.
Context {U : UefiMemoryType} {RS : RegionSort}.
Context (elf_file_new : list Z -> option ElfFile) {E : Type} (unused : E) (KERNEL_ARG_LEN : Z) (junk : list MemoryRegion).
(** [MemoryMap::sort] *)
Context (sort_map : list MemoryDescriptor -> list MemoryDescriptor).

(** The inputs of the second part: the table the firmware leaves in CR3, the
    control registers and the address of the argument are those of the machine. *)
Definition input_of (boot_table : list E) (ctrl : ControlRegs) (arg_ptr : Z) (l : Loaded S) : BootInput E :=
  mkBootInput (sort_map (exit_boot_services (ld_firmware l))) boot_table (ld_kernel l) (ld_bootstrap l) (ld_framebuffer l)
    (ld_acpi l) (ld_mem l) ctrl arg_ptr.

Definition efi_main (fuel : nat) (from_rsdp : Z -> option AcpiTables) (boot_table : list E) (ctrl : ControlRegs) (arg_ptr : Z)
  (s : S) (h : AcpiHw) (m : memory) : outcome (HandOver PT) :=
  l ← efi_boot fuel from_rsdp s h m;
  efi_runtime elf_file_new unused KERNEL_ARG_LEN junk (input_of boot_table ctrl arg_ptr l).
End EfiMain.

(** ** What the firmware promises *)

(** Nothing but the memory that is left differs. *)
Record same_queries {S} {FW : Firmware S} (s s' : S) : Prop := {
  sq_handles p : locate_handle_buffer p s' = locate_handle_buffer p s;
  sq_open p h : open_protocol_exclusive p h s' = open_protocol_exclusive p h s;
  sq_text h : convert_device_path_to_text h s' = convert_device_path_to_text h s;
  sq_image : image_handle s' = image_handle s /\ image_device s' = image_device s;
  sq_sfs h : locate_device_path h s' = locate_device_path h s /\ open_volume h s' = open_volume h s;
  sq_file d n : open_file d n s' = open_file d n s;
  sq_config : config_table s' = config_table s
}.

(** Pages that are handed out are apart from those handed out before; a page of
    buffer is enough for the data of a file, and a file fits into a buffer of its
    size; a mode of the list can be set. *)
Class FirmwareSpec (S : Type) (FW : Firmware S) : Type := {
  (** the blocks handed out, address and length *)
  fw_blocks : S -> list (Z * Z);
  (** pages that requests can still get *)
  fw_room : S -> Z;
  allocate_pages_ok max pages s : max = MAX_ADDRESS -> 0 < pages <= fw_room s ->
    exists p s', allocate_pages max pages s = Some (p, s') /\ 0 < p /\ (PAGE_SIZE | p) /\ p + PAGE_SIZE * pages <= max + 1 /\
      (forall b, b ∈ fw_blocks s -> disjoint_blocks p (PAGE_SIZE * pages) b.1 b.2) /\
      fw_blocks s' = (p, PAGE_SIZE * pages) :: fw_blocks s /\ fw_room s - pages <= fw_room s' /\ same_queries s s';
  get_info_ok b s : get_info page_size b s = Some (Z.of_nat (length b));
  read_file_ok b s : read_file (Z.of_nat (length b)) b s = Some b;
  set_mode_ok h mode s : mode ∈ modes h s ->
    exists s', set_mode h mode s = Some s' /\ current_mode_info h s' = mode /\
      fw_blocks s' = fw_blocks s /\ fw_room s' = fw_room s /\ same_queries s s'
}.

Section Load.
Context {S : Type} {FW : Firmware S} {FS : FirmwareSpec S FW}.

#[local] Instance same_queries_refl : Reflexive (same_queries (S := S)).
Proof. by intros s. Qed.

#[local] Instance same_queries_trans : Transitive (same_queries (S := S)).
Proof.
  intros s1 s2 s3 [A1 A2 A3 [A4 A4'] A5 A6 A7] [B1 B2 B3 [B4 B4'] B5 B6 B7]. split; intros.
  - by rewrite B1, A1.
  - by rewrite B2, A2.
  - by rewrite B3, A3.
  - split; congruence.
  - destruct (A5 h), (B5 h). split; congruence.
  - by rewrite B6, A6.
  - congruence.
Qed.

(** A block of zeroed pages, apart from all others. *)
Record granted (n : Z) (ptr : Z) (s s' : S) : Prop := {
  gr_ptr : 0 < ptr /\ (PAGE_SIZE | ptr) /\ ptr + n <= MAX_ADDRESS + 1;
  gr_apart b : b ∈ fw_blocks s -> disjoint_blocks ptr n b.1 b.2;
  gr_blocks : fw_blocks s' = (ptr, n) :: fw_blocks s;
  gr_queries : same_queries s s'
}.

Definition pages_for (size : Z) : Z := (size + 4095) / 4096.

Lemma pages_for_bounds size : 0 < size -> 0 < pages_for size /\ size <= PAGE_SIZE * pages_for size < size + PAGE_SIZE.
Proof.
  intros Hs. unfold pages_for, PAGE_SIZE. pose proof (Z.div_mod (size + 4095) 4096 ltac:(lia)). pose proof (Z.mod_pos_bound (size + 4095) 4096 ltac:(lia)). lia.
Qed.

Lemma allocate_zeroed_ok size s m : 0 < size < 2 ^ 63 -> pages_for size <= fw_room s ->
  exists ptr s', allocate_zeroed_page_aligned size s m = Done (ptr, s', mem_fill ptr (PAGE_SIZE * pages_for size) 0 m) /\
    granted (PAGE_SIZE * pages_for size) ptr s s' /\ fw_room s - pages_for size <= fw_room s'.
Proof.
  intros Hs Hroom. destruct (pages_for_bounds size) as [P1 P2]; [lia|]. unfold allocate_zeroed_page_aligned, page_size, u64_add, u64_sub, u64_mul.
  rewrite checked_in, Done_bind by lia. rewrite checked_in, Done_bind by lia. cbv zeta.
  replace ((size + 4096 - 1) / 4096) with (pages_for size) by (unfold pages_for; f_equal; lia).
  destruct (allocate_pages_ok MAX_ADDRESS (pages_for size) s eq_refl) as (p & s' & E & A1 & A2 & A3 & A4 & A5 & A6 & A7); [lia|].
  rewrite E. cbn [or_panic]. rewrite Done_bind, (proj2 (Z.eqb_neq p 0)) by lia. cbn [rassert negb]. rewrite Done_bind.
  rewrite checked_in, Done_bind by page_lia. exists p, s'. split; [by rewrite (Z.mul_comm (pages_for size))|]. split; [|lia]. by split.
Qed.

(** A file at its address. *)
Record file_at (b : list Z) (ptr : Z) (s' : S) (m' : memory) : Prop := {
  fa_bytes : file_bytes m' ptr (Z.of_nat (length b)) = b;
  fa_ptr : 0 < ptr /\ (PAGE_SIZE | ptr) /\ ptr + PAGE_SIZE * pages_for (Z.of_nat (length b)) <= MAX_ADDRESS + 1;
  fa_block : (ptr, PAGE_SIZE * pages_for (Z.of_nat (length b))) ∈ fw_blocks s'
}.

Lemma trim_end_zeros_id path : cstr16 path = true -> trim_end_zeros path = path.
Proof.
  unfold cstr16, trim_end_zeros. intros [Hc _]%andb_true_iff. rewrite forallb_forall in Hc.
  destruct (rev path) as [|z r] eqn:E; [by rewrite <- (rev_involutive path), E|].
  assert (Hz : z <> 0). { intros ->. assert (Hin : In 0 path) by (apply in_rev; rewrite E; by left). by apply Hc in Hin. }
  assert (Ed : drop_zeros (z :: r) = z :: r) by (destruct z; done). rewrite Ed, <- E. apply rev_involutive.
Qed.

Lemma load_file_ok root path b s m : cstr16 path = true -> open_file root path s = Some (Regular b) ->
  0 < Z.of_nat (length b) < 2 ^ 63 -> 1 + pages_for (Z.of_nat (length b)) <= fw_room s ->
  exists ptr s' m', load_file_sfs root path s m = Done (Some (ptr, Z.of_nat (length b)), s', m') /\ file_at b ptr s' m' /\
    same_queries s s' /\ fw_room s - 1 - pages_for (Z.of_nat (length b)) <= fw_room s' /\
    (forall c, c ∈ fw_blocks s -> c ∈ fw_blocks s' /\ disjoint_blocks ptr (PAGE_SIZE * pages_for (Z.of_nat (length b))) c.1 c.2 /\
       forall x, c.1 <= x < c.1 + c.2 -> m' x = m x).
Proof.
  intros Hc Ho Hlen Hroom. set (n := Z.of_nat (length b)) in *. destruct (pages_for_bounds n) as [P1 P2]; [lia|].
  unfold load_file_sfs. rewrite trim_end_zeros_id, Hc, Ho by done. cbn [negb]. unfold paging_allocate.
  destruct (allocate_zeroed_ok page_size s m) as (p1 & s1 & E1 & [G1 G2 G3 G4] & R1); [by unfold page_size|change (pages_for page_size) with 1; lia|].
  change (pages_for page_size) with 1 in *. rewrite E1, Done_bind. cbv beta iota. rewrite (proj2 (Z.eqb_neq p1 0)) by lia. cbn [negb]. rewrite Done_bind.
  cbv beta iota. cbn [or_panic]. rewrite Done_bind. cbn [snd]. change (page_size / 1) with page_size. rewrite get_info_ok. cbn [or_panic]. fold n. rewrite Done_bind.
  destruct (allocate_zeroed_ok n s1 (mem_fill p1 (PAGE_SIZE * 1) 0 m)) as (p2 & s2 & E2 & [H1 H2 H3 H4] & R2); [done|lia|].
  rewrite E2, Done_bind. cbv beta iota zeta. rewrite (read_file_ok b s2 : read_file n b s2 = Some b). cbn [or_panic]. rewrite Done_bind. eexists p2, s2, _. split; [done|].
  split; [split; [|done|rewrite H3; by left]|split; [by etrans|split; [lia|]]].
  - apply list_eq_same_length with (length b); [done|unfold file_bytes; rewrite length_map, length_seqZ; lia|].
    intros i x y Hi. unfold file_bytes. rewrite list_lookup_fmap, lookup_seqZ_lt by lia. intros [= <-] Hy.
    unfold mem_write. fold n. rewrite (proj2 (Z.leb_le _ _)), (proj2 (Z.ltb_lt _ _)) by lia. cbn [andb].
    replace (Z.to_nat (p2 + Z.of_nat i - p2)) with i by lia. by rewrite Hy.
  - intros c Hc'. assert (Hc1 : c ∈ fw_blocks s1) by (rewrite G3; by right). specialize (G2 c Hc'). specialize (H2 c Hc1).
    split; [rewrite H3; by right|]. split; [done|]. intros x Hx. unfold disjoint_blocks in *. rewrite mem_write_outside by (fold n; lia).
    rewrite !mem_fill_outside by lia. done.
Qed.

(** ** The boot partition *)

(** There is a converter from device paths to text. *)
Definition converter (s : S) : Prop :=
  exists d l, locate_handle_buffer DevicePathToText s = Some (d :: l) /\ open_protocol_exclusive DevicePathToText d s = true.

Lemma get_device_path_str_ok h s : converter s -> get_device_path_str h s = or_panic (convert_device_path_to_text h s).
Proof. intros (d & l & E & Ho). unfold get_device_path_str. rewrite E. cbn. by rewrite Ho. Qed.

(** The handles [list_handles] keeps. *)
Definition opened (p : Protocol) (s : S) (h : Z) : bool := open_protocol_exclusive p h s && open_protocol_exclusive DevicePath h s.

Definition described (s : S) (h : Z) : ProtocolWithHandle := mkPWH h (default [] (convert_device_path_to_text h s)).

Lemma list_handle_skip p cap s out h : opened p s h = false -> list_handle p cap s out h = Done out.
Proof.
  unfold opened, list_handle. intros [E|E]%andb_false_iff; rewrite E; cbn [negb]; [done|]. by destruct (open_protocol_exclusive p h s).
Qed.

Lemma list_handle_keep p cap s out h : converter s -> opened p s h = true -> is_Some (convert_device_path_to_text h s) ->
  list_handle p cap s out h = if (length out <? cap)%nat then Done (out ++ [described s h]) else Panic.
Proof.
  unfold opened, list_handle, described. intros Hc [-> ->]%andb_true_iff [t Et]. cbn [negb].
  rewrite get_device_path_str_ok, Et by done. cbn [or_panic]. rewrite Done_bind. by destruct (length out <? cap)%nat.
Qed.

Lemma list_handles_loop p s hs : converter s -> (forall h, h ∈ hs -> opened p s h = true -> is_Some (convert_device_path_to_text h s)) ->
  forall out, (length out + length (List.filter (opened p s) hs) <= MAX_PARTITIONS)%nat ->
  foldM (list_handle p MAX_PARTITIONS s) out hs = Done (out ++ map (described s) (List.filter (opened p s) hs)).
Proof.
  intros Hc. induction hs as [|h hs IH]; intros Ht out Hl; [cbn; by rewrite app_nil_r|]. cbn [foldM List.filter].
  assert (Ht' : forall h', h' ∈ hs -> opened p s h' = true -> is_Some (convert_device_path_to_text h' s)) by (intros h' Hh'; apply Ht; by right).
  cbn [List.filter] in Hl. destruct (opened p s h) eqn:Eo; cbn [length] in Hl.
  - rewrite list_handle_keep by (done || (apply Ht; [left|done])). rewrite (proj2 (Nat.ltb_lt _ _)) by lia.
    rewrite Done_bind, IH; [|done|rewrite length_app; cbn; lia]. cbn [map]. by rewrite <- app_assoc.
  - rewrite list_handle_skip, Done_bind by done. by apply IH.
Qed.

(** With more partitions than the array has entries, [list_handles] panics. *)
Lemma list_handles_full p s hs : converter s -> (forall h, h ∈ hs -> opened p s h = true -> is_Some (convert_device_path_to_text h s)) ->
  locate_handle_buffer p s = Some hs -> (MAX_PARTITIONS < length (List.filter (opened p s) hs))%nat ->
  list_handles p MAX_PARTITIONS s = Panic.
Proof.
  intros Hc Ht Hl. unfold list_handles. rewrite Hl. cbn [or_panic]. rewrite Done_bind. clear Hl.
  cut (forall out, (length out <= MAX_PARTITIONS)%nat -> (MAX_PARTITIONS < length out + length (List.filter (opened p s) hs))%nat ->
    foldM (list_handle p MAX_PARTITIONS s) out hs = Panic).
  { intros Hcut Hn. apply Hcut; cbn; lia. }
  induction hs as [|h hs IH]; intros out Ho Hn; [cbn in Hn; lia|]. cbn [foldM List.filter] in *.
  assert (Ht' : forall h', h' ∈ hs -> opened p s h' = true -> is_Some (convert_device_path_to_text h' s)) by (intros h' Hh'; apply Ht; by right).
  destruct (opened p s h) eqn:Eo; cbn [length] in Hn.
  - rewrite list_handle_keep by (done || (apply Ht; [left|done])). destruct (Nat.ltb_spec (length out) MAX_PARTITIONS); [|done].
    rewrite Done_bind. apply IH; [done|..]; rewrite length_app; cbn; lia.
  - rewrite list_handle_skip, Done_bind by done. by apply IH.
Qed.

(** The partition the image came from, as the firmware describes it: the first
    of at most 256 whose path reads like the path of the image's device. *)
Record boot_media (s : S) (root : Z) : Prop := {
  me_converter : converter s;
  me_image : exists d, open_protocol_exclusive LoadedImage (image_handle s) s = true /\ image_device s = Some d /\
    open_protocol_exclusive DevicePath d s = true /\
    exists hs t h fs, convert_device_path_to_text d s = Some t /\ locate_handle_buffer PartitionInfo s = Some hs /\
      (length (List.filter (opened PartitionInfo s) hs) <= MAX_PARTITIONS)%nat /\
      (forall h, h ∈ hs -> opened PartitionInfo s h = true -> is_Some (convert_device_path_to_text h s)) /\
      List.find (fun h => bool_decide (convert_device_path_to_text h s = Some t)) (List.filter (opened PartitionInfo s) hs) = Some h /\
      locate_device_path h s = Some fs /\ open_protocol_exclusive SimpleFileSystem fs s = true /\ open_volume fs s = Some root
}.

(** From the list of partitions to the root of the file system. *)
Lemma find_root s root : boot_media s root -> exists parts p fs, list_handles PartitionInfo MAX_PARTITIONS s = Done parts /\
  find_current_boot_partition parts s = Done (Some p) /\ open_sfs (pwh_handle p) s = Some fs /\ open_volume fs s = Some root.
Proof.
  intros [Hc (d & I1 & I2 & I3 & hs & t & h & fs & Et & El & Hn & Ht & Hf & Hs & Ho & Hv)].
  set (l := List.filter (opened PartitionInfo s) hs) in *. exists (map (described s) l), (described s h), fs.
  split; [unfold list_handles; rewrite El; cbn [or_panic]; rewrite Done_bind; by apply (list_handles_loop _ _ _ Hc Ht [])|].
  assert (Hall : forall x, In x l -> opened PartitionInfo s x = true /\ is_Some (convert_device_path_to_text x s)).
  { intros x [Hx Ex]%filter_In. split; [done|]. apply Ht; [by apply list_elem_of_In|done]. }
  split; [|split; [|done]].
  - unfold find_current_boot_partition. rewrite I1, I2. cbn [negb or_panic]. rewrite Done_bind, I3. cbn [rassert]. rewrite Done_bind.
    rewrite get_device_path_str_ok, Et by done. cbn [or_panic]. rewrite Done_bind. f_equal. clear Hn. clearbody l. induction l as [|x l IH]; [done|].
    cbn [map List.find] in *. destruct (Hall x ltac:(by left)) as [_ [tx Etx]].
    assert (Ed : device_path_string (described s x) = tx) by (unfold described; by rewrite Etx). rewrite Ed. rewrite Etx in Hf.
    destruct (decide (tx = t)) as [->|Hne].
    + rewrite (bool_decide_true (Some t = Some t)) in Hf by done. rewrite bool_decide_true by done. by injection Hf as <-.
    + rewrite (bool_decide_false (Some tx = Some t)) in Hf by congruence. rewrite bool_decide_false by done. apply IH; [done|]. intros y Hy. apply Hall. by right.
  - apply find_some in Hf as [Hin _]. destruct (Hall h Hin) as [Eo _]. unfold opened in Eo. apply andb_true_iff in Eo as [_ Eo].
    unfold open_sfs. cbn [described pwh_handle]. rewrite Eo. cbn [negb]. rewrite Hs. cbn. by rewrite Ho.
Qed.

Lemma boot_media_same s s' root : same_queries s s' -> boot_media s root -> boot_media s' root.
Proof.
  intros [Q1 Q2 Q3 [Q4 Q4'] Q5 Q6 Q7] [(d & l & C1 & C2) (d' & I1 & I2 & I3 & hs & t & h & fs & Et & El & Hn & Ht & Hf & Hs & Ho & Hv)].
  assert (Hop : forall x, opened PartitionInfo s' x = opened PartitionInfo s x) by (intros x; unfold opened; by rewrite !Q2).
  assert (Hfl : List.filter (opened PartitionInfo s') hs = List.filter (opened PartitionInfo s) hs) by (by apply filter_ext).
  split; [exists d, l; by rewrite Q1, Q2|]. exists d'. rewrite Q4, Q4', !Q2. split; [done|]. split; [done|]. split; [done|].
  exists hs, t, h, fs. destruct (Q5 h) as [-> _]. destruct (Q5 fs) as [_ ->]. rewrite Q1, Q3, Q2, Hfl. split_and!; try done.
  - intros x Hx. rewrite Hop, Q3. by apply Ht.
  - rewrite <- Hf. clear -Q3. induction (List.filter _ hs) as [|x l IH]; [done|]. cbn. by rewrite Q3, IH.
Qed.

(** ** The framebuffer *)

Lemma locate_framebuffer_ok s : exists fb s', locate_framebuffer s = Done (fb, s') /\
  same_queries s s' /\ fw_blocks s' = fw_blocks s /\ fw_room s' = fw_room s /\
  forall f, fb = Some f -> exists h, fb_format (mi_pixel_format (current_mode_info h s')) = Some (fb_pixel_format f) /\
    mi_resolution (current_mode_info h s') = (fb_width f, fb_height f) /\ mi_stride (current_mode_info h s') = fb_stride f /\
    frame_buffer h s' = (fb_ptr f, fb_len f) /\
    (forall m, m ∈ modes h s -> (mi_resolution m).1 <= 1600 -> (mi_resolution m).2 <= 900 ->
       (mi_resolution m).1 * (mi_resolution m).2 <= fb_width f * fb_height f).
Proof.
  unfold locate_framebuffer. destruct (locate_handle_buffer GraphicsOutput s) as [[|h l]|]; [by exists None, s| |by exists None, s].
  destruct (open_protocol_exclusive GraphicsOutput h s); cbn [negb]; [|by exists None, s].
  pose proof (largest_resolution_mode_max mi_resolution (modes h s)) as Hmax.
  assert (Hset : exists s', match largest_resolution_mode mi_resolution (modes h s) with Some mode => or_panic (set_mode h mode s) | None => Done s end = Done s' /\
    same_queries s s' /\ fw_blocks s' = fw_blocks s /\ fw_room s' = fw_room s /\
    forall m, m ∈ modes h s -> (mi_resolution m).1 <= 1600 -> (mi_resolution m).2 <= 900 ->
       (mi_resolution m).1 * (mi_resolution m).2 <= (mi_resolution (current_mode_info h s')).1 * (mi_resolution (current_mode_info h s')).2).
  { destruct (largest_resolution_mode mi_resolution (modes h s)) as [mode|].
    - destruct Hmax as (Hin & _ & _ & Hm). destruct (set_mode_ok h mode s Hin) as (s' & -> & Ecur & B & R & Q). exists s'. rewrite Ecur. split_and!; done.
    - exists s. split_and!; try done. intros m Hm H1 H2. destruct (Hmax m Hm); lia. }
  destruct Hset as (s' & -> & Q & B & R & Hm). rewrite Done_bind. cbv beta iota zeta.
  destruct (fb_format (mi_pixel_format (current_mode_info h s'))) as [fmt|] eqn:Ef; [|by exists None, s'].
  eexists _, s'. split; [done|]. split_and!; try done. intros f [= <-]. exists h. rewrite Ef. cbn. split_and!; try done; [by destruct (mi_resolution _)|by destruct (frame_buffer h s')].
Qed.

(** ** The first part as a whole *)

(** A block of memory that holds a file. *)
Record slice_of (b : list Z) (slice : Z * Z) (m : memory) : Prop := {
  so_bytes : slice.2 = Z.of_nat (length b) /\ file_bytes m slice.1 slice.2 = b;
  so_place : 0 < slice.1 /\ (PAGE_SIZE | slice.1) /\ slice.1 + slice.2 <= MAX_ADDRESS + 1
}.

Lemma file_at_slice b ptr s m : 0 < Z.of_nat (length b) -> file_at b ptr s m -> slice_of b (ptr, Z.of_nat (length b)) m.
Proof.
  intros Hb [F1 F2 _]. destruct (pages_for_bounds _ Hb). split; cbn [fst snd]; [done|]. split_and!; [apply F2..|lia].
Qed.

Lemma file_at_kept b ptr s m m' : 0 < Z.of_nat (length b) -> file_at b ptr s m ->
  (forall x, ptr <= x < ptr + PAGE_SIZE * pages_for (Z.of_nat (length b)) -> m' x = m x) -> slice_of b (ptr, Z.of_nat (length b)) m'.
Proof.
  intros Hb F Hm. destruct (file_at_slice b ptr s m Hb F) as [[_ F1] F2]. destruct (pages_for_bounds _ Hb). split; [|done]. cbn [fst snd] in *. split; [done|].
  rewrite <- F1 at 2. apply map_ext_in. intros x Hx%list_elem_of_In%elem_of_seqZ. apply Hm. lia.
Qed.

(** What the bootloader has when it leaves the firmware. *)
Record loaded (kb bb : list Z) (acpi : AcpiSettings) (l : Loaded S) : Prop := {
  lo_acpi : ld_acpi l = acpi;
  lo_kernel : slice_of kb (ld_kernel l) (ld_mem l);
  lo_bootstrap : slice_of bb (ld_bootstrap l) (ld_mem l);
  lo_apart : disjoint_blocks (ld_bootstrap l).1 (ld_bootstrap l).2 (ld_kernel l).1 (ld_kernel l).2
}.

Lemma efi_boot_ok fuel from_rsdp s h m root kb bb tbl acpi h' : boot_media s root ->
  find_acpi_table_pointer m (config_table s) = Some tbl -> parse_acpi_table fuel from_rsdp tbl.1 h = Done (acpi, h') ->
  open_file root (text "kernel-x86_64") s = Some (Regular kb) -> open_file root (text "bootstrap") s = Some (Regular bb) ->
  0 < Z.of_nat (length kb) < 2 ^ 63 -> 0 < Z.of_nat (length bb) < 2 ^ 63 ->
  2 + pages_for (Z.of_nat (length kb)) + pages_for (Z.of_nat (length bb)) <= fw_room s ->
  exists l, efi_boot fuel from_rsdp s h m = Done l /\ loaded kb bb acpi l.
Proof.
  intros Hm Ha Hp Hk Hb Lk Lb Hroom. destruct (pages_for_bounds (Z.of_nat (length kb))) as [Pk _]; [lia|].
  destruct (pages_for_bounds (Z.of_nat (length bb))) as [Pb Pb']; [lia|].
  destruct (locate_framebuffer_ok s) as (fb & s1 & E1 & Q1 & _ & R1 & _). unfold efi_boot. step E1.
  rewrite (sq_config _ _ Q1), Ha. cbn [or_panic]. rewrite Done_bind. step Hp.
  destruct (find_root s1 root (boot_media_same _ _ _ Q1 Hm)) as (parts & p & fs & E2 & E3 & E4 & E5).
  step E2. step E3. cbn [or_panic]. rewrite Done_bind, E4. cbn [or_panic]. rewrite Done_bind, E5. cbn [or_panic]. rewrite Done_bind.
  rewrite <- (sq_file _ _ Q1) in Hk, Hb.
  destruct (load_file_ok root (text "kernel-x86_64") kb s1 m) as (kp & s2 & m2 & E6 & F6 & Q2 & R2 & K2); [done|exact Hk|lia|lia|].
  step E6. cbn [or_panic]. rewrite Done_bind. cbn [snd]. rewrite (proj2 (Z.ltb_lt _ _)) by lia. cbn [rassert]. rewrite Done_bind.
  rewrite <- (sq_file _ _ Q2) in Hb.
  destruct (load_file_ok root (text "bootstrap") bb s2 m2) as (bp & s3 & m3 & E7 & F7 & Q3 & R3 & K3); [done|exact Hb|lia|lia|].
  step E7. cbn [or_panic]. rewrite Done_bind. eexists. split; [done|].
  destruct (K3 _ (fa_block _ _ _ _ F6)) as (_ & D3 & M3). cbn [fst snd] in D3, M3. split; cbn [ld_acpi ld_kernel ld_bootstrap ld_mem].
  - done.
  - apply (file_at_kept kb kp s2 m2 m3); [lia|done|exact M3].
  - apply (file_at_slice bb bp s3 m3); [lia|done].
  - cbn [fst snd]. destruct (pages_for_bounds (Z.of_nat (length kb))) as [_ Pk']; [lia|]. unfold disjoint_blocks in *. lia.
Qed.

(** Without the file [bootstrap] the bootloader panics. *)
Lemma efi_boot_no_bootstrap fuel from_rsdp s h m root kb tbl acpi h' : boot_media s root ->
  find_acpi_table_pointer m (config_table s) = Some tbl -> parse_acpi_table fuel from_rsdp tbl.1 h = Done (acpi, h') ->
  open_file root (text "kernel-x86_64") s = Some (Regular kb) -> open_file root (text "bootstrap") s = None ->
  0 < Z.of_nat (length kb) < 2 ^ 63 -> 1 + pages_for (Z.of_nat (length kb)) <= fw_room s ->
  efi_boot fuel from_rsdp s h m = Panic.
Proof.
  intros Hm Ha Hp Hk Hb Lk Hroom.
  destruct (locate_framebuffer_ok s) as (fb & s1 & E1 & Q1 & _ & R1 & _). unfold efi_boot. step E1.
  rewrite (sq_config _ _ Q1), Ha. cbn [or_panic]. rewrite Done_bind. step Hp.
  destruct (find_root s1 root (boot_media_same _ _ _ Q1 Hm)) as (parts & p & fs & E2 & E3 & E4 & E5).
  step E2. step E3. cbn [or_panic]. rewrite Done_bind, E4. cbn [or_panic]. rewrite Done_bind, E5. cbn [or_panic]. rewrite Done_bind.
  rewrite <- (sq_file _ _ Q1) in Hk, Hb.
  destruct (load_file_ok root (text "kernel-x86_64") kb s1 m) as (kp & s2 & m2 & E6 & F6 & Q2 & R2 & K2); [done|exact Hk|lia|lia|].
  step E6. cbn [or_panic]. rewrite Done_bind. cbn [snd]. rewrite (proj2 (Z.ltb_lt _ _)) by lia. cbn [rassert]. rewrite Done_bind.
  rewrite <- (sq_file _ _ Q2) in Hb. unfold load_file_sfs.
  change (trim_end_zeros (text "bootstrap")) with (text "bootstrap"). change (cstr16 (text "bootstrap")) with true. cbn [negb]. by rewrite Hb.
Qed.
End Load.

(** ** From the disk image to the kernel *)

Section FromImage.
Context {S : Type} {FW : Firmware S} {FS : FirmwareSpec S FW}.
Context {Vol : Type} {FF : FatFs Vol} {FFS : FatFsSpec Vol FF}.
Context {X : X86Addr} {XS : X86AddrSpec X} {V : X86Virt} {VS : X86VirtSpec V} {VT : X86Step} {VTS : X86StepSpec VT}.
Context {F : PtFlags} {PFS : PtFlagsSpec F} {PT : Type} {M : Mapper PT} {MS : MapperSpec PT M}.
Context {U : UefiMemoryType} {RS : RegionSort} {RSS : RegionSortSpec RS}.
Context (elf_file_new : list Z -> option ElfFile) {E : Type} (unused : E) (KERNEL_ARG_LEN : Z).
Context (junk : list MemoryRegion) (Hjunk : length junk = 512%nat) (sort_map : list MemoryDescriptor -> list MemoryDescriptor).

(** The firmware reads the volume: below [root], a plain name is the file the
    tree has there. *)
Definition reads_volume (v : Vol) (root : Z) (s : S) : Prop :=
  forall n, plain_name n = true -> open_file root n s = match fv v !! key [n] with
    | Some (File b) => Some (Regular b)
    | Some Dir => Some Directory
    | None => None
    end.

(** The files the builder put on the volume, as the bootloader finds them. *)
Lemma volume_file host files v root s n src b : holds host files v -> reads_volume v root s -> plain_name n = true ->
  ([n], src) ∈ files -> host src = Some b -> open_file root n s = Some (Regular b).
Proof.
  intros Hh Hr Hn Hin Hb. rewrite Hr by done. rewrite (ho_file _ _ _ Hh _ Hin : fv v !! key [n] = _). unfold data. cbn [snd]. by rewrite Hb.
Qed.

(** A machine whose firmware boots from a volume with these files. *)
Record boots_from (v : Vol) (root : Z) (fuel : nat) (from_rsdp : Z -> option AcpiTables) (kb bb : list Z) (acpi : AcpiSettings)
  (s : S) (h : AcpiHw) (m : memory) : Prop := {
  bf_media : boot_media s root;
  bf_reads : reads_volume v root s;
  bf_acpi : exists tbl h', find_acpi_table_pointer m (config_table s) = Some tbl /\ parse_acpi_table fuel from_rsdp tbl.1 h = Done (acpi, h');
  bf_sizes : 0 < Z.of_nat (length kb) < 2 ^ 63 /\ 0 < Z.of_nat (length bb) < 2 ^ 63;
  bf_room : 2 + pages_for (Z.of_nat (length kb)) + pages_for (Z.of_nat (length bb)) <= fw_room s
}.

(** C2. From the disk image to the kernel: on a machine whose firmware reads a
    volume the image builder filled, the bootloader finds its own partition and
    loads the kernel and the first program byte for byte as they were built, into
    page-aligned blocks of their own below 8 GiB; and if the machine that is left
    can boot, it reaches the kernel with everything handed over. *)
Theorem image_reaches_kernel host files v root ksrc bsrc kb bb fuel from_rsdp acpi boot_table ctrl arg_ptr s h m :
  holds host files v -> ([text "kernel-x86_64"], ksrc) ∈ files -> host ksrc = Some kb ->
  ([text "bootstrap"], bsrc) ∈ files -> host bsrc = Some bb ->
  boots_from v root fuel from_rsdp kb bb acpi s h m ->
  exists l, efi_boot fuel from_rsdp s h m = Done l /\ loaded kb bb acpi l /\
    forall fb elf start size top,
      let i := input_of sort_map boot_table ctrl arg_ptr l in
      boot_ok elf_file_new KERNEL_ARG_LEN i fb elf start size top ->
      exists ho : HandOver PT,
        efi_main elf_file_new unused KERNEL_ARG_LEN junk sort_map fuel from_rsdp boot_table ctrl arg_ptr s h m = Done ho /\
        handed_over KERNEL_ARG_LEN i fb elf start top ho.
Proof.
  intros Hh Ik Hk Ib Hb [B1 B2 (tbl & h' & B3 & B4) [B5 B6] B7].
  destruct (efi_boot_ok fuel from_rsdp s h m root kb bb tbl acpi h') as (l & El & Hl); try done.
  { by eapply volume_file. }
  { by eapply volume_file. }
  exists l. split; [done|]. split; [done|]. intros fb elf start size top i Hok.
  destruct (efi_runtime_ok elf_file_new unused KERNEL_ARG_LEN junk Hjunk i fb elf start size top Hok) as (ho & Eho & Hho).
  exists ho. split; [|done]. unfold efi_main. by rewrite El, Done_bind.
Qed.

(** An image built without arguments does not boot: it has no file [bootstrap]. *)
Theorem default_image_panics host files v root ksrc kb bb fuel from_rsdp acpi s h m :
  parse_mapping DEFAULT_FILES_MAPPING = Done (map (fun f => (path_of f.1, f.2)) files) ->
  holds host files v -> Forall (fun f => plain_path f.1) files ->
  ([text "kernel-x86_64"], ksrc) ∈ files -> host ksrc = Some kb ->
  boots_from v root fuel from_rsdp kb bb acpi s h m ->
  efi_boot fuel from_rsdp s h m = Panic.
Proof.
  intros Hd Hh Hp Ik Hk [B1 B2 (tbl & h' & B3 & B4) [B5 B6] B7]. destruct (pages_for_bounds (Z.of_nat (length bb))); [lia|].
  eapply (efi_boot_no_bootstrap fuel from_rsdp s h m root kb); try done; [by eapply volume_file| |lia].
  rewrite B2 by done. destruct (fv v !! key [text "bootstrap"]) as [n|] eqn:En; [|done]. exfalso.
  destruct (ho_only _ _ _ Hh _ _ En) as (f & Hf & Hpre & _). rewrite default_mapping_files in Hd. injection Hd as Hd.
  destruct files as [|f1 [|f2 [|f3 files]]]; cbn [map] in Hd; try discriminate Hd. injection Hd as D1 _ D2 _.
  apply Forall_cons in Hp as [P1 Hp]. apply Forall_cons in Hp as [P2 _].
  apply (f_equal segments) in D1, D2. rewrite segments_path in D1, D2 by done.
  apply elem_of_cons in Hf as [->|Hf]; [|apply list_elem_of_singleton in Hf as ->].
  - rewrite <- D1 in Hpre. destruct Hpre as [r Hr]. vm_compute in Hr. discriminate Hr.
  - rewrite <- D2 in Hpre. destruct Hpre as [r Hr]. vm_compute in Hr. discriminate Hr.
Qed.
End FromImage.

(** ** An instance: a firmware with two partitions and pages up to 0x7e04000 *)

#[local] Existing Instance x86_addr_model.
#[local] Existing Instance x86_addr_model_spec.
#[local] Existing Instance x86_virt_model.
#[local] Existing Instance x86_virt_model_spec.
#[local] Existing Instance x86_step_model.
#[local] Existing Instance x86_step_model_spec.
#[local] Existing Instance pt_flags_model.
#[local] Existing Instance pt_flags_model_spec.
#[local] Existing Instance map_table_mapper.
#[local] Existing Instance map_table_mapper_spec.
#[local] Existing Instance uefi_memory_type_model.
#[local] Existing Instance merge_sort_regions.
#[local] Existing Instance merge_sort_regions_spec.
#[local] Existing Instance tree_fs.
#[local] Existing Instance tree_fs_spec.

(** The sizes of the blocks handed out, in pages, the last one first. *)
Abbreviation page_log := (list positive).

Definition POOL : Z := 0x7dff000.
Definition log_pages (l : page_log) : Z := foldr (fun n k => Z.pos n + k) 0 l.
Fixpoint log_blocks (l : page_log) : list (Z * Z) :=
  match l with
  | [] => []
  | n :: l => (POOL + PAGE_SIZE * log_pages l, PAGE_SIZE * Z.pos n) :: log_blocks l
  end.

Definition sample_kernel : list Z := file_bytes kernel_bytes KERNEL_PTR 0x1000.
Definition sample_program : list Z := replicate 0x800 0x90.

Definition boot_host (path : list Z) : option (list Z) :=
  if bool_decide (path = text "out/kernel") then Some sample_kernel
  else if bool_decide (path = text "out/bootstrap") then Some sample_program
  else None.
Definition boot_files : list (list (list Z) * list Z) :=
  [([text "kernel-x86_64"], text "out/kernel"); ([text "bootstrap"], text "out/bootstrap")].

(** The volume with these files. *)
Definition boot_volume : TreeVolume :=
  mkTree (2 * MB) 0 (<[key [text "bootstrap"] := File sample_program]> (<[key [text "kernel-x86_64"] := File sample_kernel]> ∅)).

Definition sample_mode : ModeInfo := mkModeInfo (64, 256) 64 Rgb.

#[local] Instance sample_firmware : Firmware page_log := {|
  locate_handle_buffer p _ :=
    match p with PartitionInfo => Some [10; 11] | DevicePathToText => Some [5] | GraphicsOutput => Some [7] | _ => None end;
  open_protocol_exclusive _ _ _ := true;
  convert_device_path_to_text h _ := Some (if h =? 11 then text "PciRoot(0x0)/HD(1)" else text "PciRoot(0x0)");
  image_handle _ := 1;
  image_device _ := Some 11;
  locate_device_path h _ := Some (h + 10);
  open_volume h _ := Some (h + 100);
  open_file root n _ :=
    match tv_tree boot_volume !! key [n] with Some (File b) => Some (Regular b) | Some Dir => Some Directory | None => None end;
  get_info _ b _ := Some (Z.of_nat (length b));
  read_file _ b _ := Some b;
  modes _ _ := [sample_mode];
  set_mode _ _ s := Some s;
  current_mode_info _ _ := sample_mode;
  frame_buffer _ _ := (0x80000000, 0x10000);
  allocate_pages _ pages s :=
    match pages with
    | Z.pos n => if log_pages s + pages <=? 5 then Some (POOL + PAGE_SIZE * log_pages s, n :: s) else None
    | _ => None
    end;
  config_table _ := [(OtherGuid 3, 0); (ACPI2_GUID, 0x1000)];
  exit_boot_services _ := boot_map
|}.

Lemma log_blocks_below l b : b ∈ log_blocks l -> b.1 + b.2 <= POOL + PAGE_SIZE * log_pages l.
Proof.
  induction l as [|n l IH]; [by intros Hb%not_elem_of_nil|]. cbn [log_blocks log_pages foldr]. fold (log_pages l).
  intros [->|Hb]%elem_of_cons; [cbn; lia|]. specialize (IH Hb). page_lia.
Qed.

Lemma log_pages_nonneg l : 0 <= log_pages l.
Proof. induction l as [|n l IH]; [done|]. cbn [log_pages foldr]. fold (log_pages l). lia. Qed.

#[local] Program Instance sample_firmware_spec : FirmwareSpec page_log sample_firmware := {|
  fw_blocks := log_blocks;
  fw_room l := 5 - log_pages l
|}.
Next Obligation.
  intros max pages s -> Hp. cbn [allocate_pages sample_firmware]. destruct pages as [|n|n]; try lia. pose proof (log_pages_nonneg s).
  rewrite (proj2 (Z.leb_le _ _)) by lia. eexists _, _. split; [done|]. unfold POOL, MAX_ADDRESS. split; [page_lia|]. split; [apply Z.divide_add_r; [by exists 0x7dff|apply Z.divide_factor_l]|].
  split; [page_lia|]. split; [|split; [done|split; [cbn [log_pages foldr]; fold (log_pages s); lia|done]]].
  intros b Hb%log_blocks_below. right. unfold POOL in Hb. lia.
Qed.
Next Obligation. done. Qed.
Next Obligation. done. Qed.
Next Obligation. intros h mode s Hm%list_elem_of_singleton. subst. by exists s. Qed.

(** A valid RSDP at 0x1000. *)
Definition sample_mem : memory := mem_write 0x1000 ([0x52; 0x53; 0x44; 0x20; 0x50; 0x54; 0x52; 0x20; 225] ++ replicate 27 0) (fun _ => 0xff).
Definition sample_hw : AcpiHw := mkAcpiHw 0xb2 0xf1 0x604 2 LegacyMode (fun _ => 0) [] 0xfee00000.
Definition sample_settings : AcpiSettings :=
  match parse_acpi_table 4 (fun _ => Some sample_tables) 0x1000 sample_hw with Done r => r.1 | _ => AcpiSettings_default end.

Lemma sample_holds : holds boot_host boot_files boot_volume.
Proof.
  split.
  - intros f [->|Hf]%elem_of_cons; [|apply list_elem_of_singleton in Hf as ->]; cbn [fst fv tree_fs_spec boot_volume tv_tree].
    + rewrite lookup_insert_ne by (by vm_compute). by rewrite lookup_insert_eq.
    + by rewrite lookup_insert_eq.
  - intros k n. cbn [fv tree_fs_spec boot_volume tv_tree]. intros [[<- <-]|[_ [[<- <-]|[_ Hk]]%lookup_insert_Some]]%lookup_insert_Some; [..|by rewrite lookup_empty in Hk].
    + eexists. split; [right; left|]. split; [done|by right].
    + eexists. split; [left|]. split; [done|by right].
Qed.

Lemma sample_boots_from : boots_from boot_volume 121 4 (fun _ => Some sample_tables) sample_kernel sample_program sample_settings [] sample_hw sample_mem.
Proof.
  split.
  - split; [by exists 5, []|]. exists 11. split_and!; try done. eexists [10; 11], _, 11, 21. split_and!; try done. cbn. unfold MAX_PARTITIONS. lia.
  - done.
  - eexists _, _. split; vm_compute; reflexivity.
  - vm_compute. done.
  - vm_compute. discriminate.
Qed.

Definition sample_input (l : Loaded page_log) : BootInput Z := input_of (fun mm => mm) [7] (mkControlRegs 0x500 0x80000033) 0x7e04000 l.

(** The machine after the first part can boot. *)
Lemma sample_input_ok l : efi_boot 4 (fun _ => Some sample_tables) [] sample_hw sample_mem = Done l -> loaded sample_kernel sample_program sample_settings l ->
  boot_ok (PT := map_table) (fun _ => Some kernel_elf) 0x5000 (sample_input l) boot_fb kernel_elf 0 0x1800 0x7e10000.
Proof.
  intros E [L1 [[_ L2] _] L3 _].
  assert (Hv : ld_framebuffer l = Some boot_fb /\ ld_kernel l = (KERNEL_PTR, 0x1000) /\ ld_bootstrap l = (0x7e02000, 0x800)).
  { assert (Ev : (fun l => (ld_framebuffer l, ld_kernel l, ld_bootstrap l)) <$> efi_boot 4 (fun _ => Some sample_tables) [] sample_hw sample_mem =
      Done (Some boot_fb, (KERNEL_PTR, 0x1000), (0x7e02000, 0x800))) by (vm_compute; reflexivity).
    rewrite E in Ev. assert (Ei : forall a b : option Framebuffer * (Z * Z) * (Z * Z), Done a = Done b -> a = b) by congruence.
    apply Ei in Ev. split; [exact (f_equal (fun v => v.1.1) Ev)|]. split; [exact (f_equal (fun v => v.1.2) Ev)|exact (f_equal snd Ev)]. }
  destruct Hv as (Ef & Ek & Eb). rewrite Ek in L2. cbn [fst snd] in L2.
  assert (Hmem : forall x, KERNEL_PTR <= x < KERNEL_PTR + 0x1000 -> ld_mem l x = kernel_bytes x).
  { intros x Hx. unfold sample_kernel, file_bytes in L2. apply (f_equal (fun l => l !! Z.to_nat (x - KERNEL_PTR))) in L2.
    rewrite !list_lookup_fmap, lookup_seqZ_lt in L2 by lia. injection L2 as L2. replace (KERNEL_PTR + Z.of_nat (Z.to_nat (x - KERNEL_PTR))) with x in L2 by lia. done. }
  unfold sample_input. split; cbn [input_of in_memory_map in_boot_table in_kernel in_bootstrap in_framebuffer in_acpi in_mem in_arg_ptr]; rewrite ?Ek, ?Eb, ?Ef, ?L1; cbn [fst snd].
  - apply boot_map_wf.
  - split; [reflexivity|lia].
  - by eexists.
  - by apply sample_kernel_loadable.
  - apply (bool_decide_unpack _). by vm_compute.
  - unfold block_ok. page_lia.
  - split; [done|]. unfold block_ok. cbn. page_lia.
  - unfold block_ok. page_lia.
  - split_and!; apply (bool_decide_unpack _); vm_compute; done.
  - apply Z.leb_le. by vm_compute.
Qed.

Lemma image_reaches_kernel_witness : exists ho : HandOver map_table,
  efi_main (fun _ => Some kernel_elf) 0 0x5000 boot_junk (fun mm => mm) 4 (fun _ => Some sample_tables) [7] (mkControlRegs 0x500 0x80000033)
    0x7e04000 ([] : page_log) sample_hw sample_mem = Done ho /\
  ec_rip (ho_cpu ho) = KERNEL_BASE + 0x40 /\ framebuffer_len (ho_arg ho) = 0x10000.
Proof.
  destruct (image_reaches_kernel (fun _ => Some kernel_elf) 0 0x5000 boot_junk eq_refl (fun mm => mm) boot_host boot_files boot_volume 121
    (text "out/kernel") (text "out/bootstrap") sample_kernel sample_program 4 (fun _ => Some sample_tables) sample_settings [7]
    (mkControlRegs 0x500 0x80000033) 0x7e04000 [] sample_hw sample_mem sample_holds) as (l & El & Hl & Hgo).
  - left.
  - reflexivity.
  - right. left.
  - reflexivity.
  - exact sample_boots_from.
  - destruct (Hgo boot_fb kernel_elf 0 0x1800 0x7e10000 (sample_input_ok l El Hl)) as (ho & E & H). exists ho. split; [exact E|].
    split; [apply (hv_entry _ _ _ _ _ _ _ H)|apply (hv_framebuffer _ _ _ _ _ _ _ H)].
Defined.
