(* ===== verification/Segments.v ===== *)
(** * Segment descriptors

    The descriptor table of [kernel/src/asm/trampoline.asm], assembled byte by
    byte and decoded as the processor does, and the table [init_gdt] of
    [bootloader-efi/src/mem/runtime_map.rs] writes and loads. *)

From S2P Require Import Prelude Platform Shared Paging Machine Interrupts Descriptors KFrameAlloc LocalApic ApStartup RuntimeMap.

(** ** What the processor reads in an entry *)

Record Segment : Type := mkSegment {
  sg_base : Z;
  sg_limit : Z;
  sg_present : bool;
  sg_dpl : Z;
  (** a code or data segment, and not a system one *)
  sg_user : bool;
  sg_code : bool;
  (** a readable code segment or a writable data segment *)
  sg_access : bool;
  sg_long : bool;
  sg_size : bool
}.

Definition field (e lo n : Z) : Z := Z.land (Z.shiftr e lo) (Z.ones n).

Definition decode_segment (e : Z) : Segment :=
  mkSegment (field e 16 24 + Z.shiftl (field e 56 8) 24) (field e 0 16 + Z.shiftl (field e 48 4) 16)
    (Z.testbit e 47) (field e 45 2) (Z.testbit e 44) (Z.testbit e 43) (Z.testbit e 41) (Z.testbit e 53) (Z.testbit e 54).

(** ** The trampoline's table *)

(** The labels of [attrib] and [flags]. *)
Definition attrib_table : list (string * Z) :=
  [("present", Z.shiftl 1 7); ("ring1", Z.shiftl 1 5); ("ring2", Z.shiftl 1 6); ("ring3", Z.lor (Z.shiftl 1 5) (Z.shiftl 1 6));
   ("user", Z.shiftl 1 4);
   ("code", Z.shiftl 1 3); ("conforming", Z.shiftl 1 2); ("readable", Z.shiftl 1 1);
   ("expand_down", Z.shiftl 1 2); ("writable", Z.shiftl 1 1); ("accessed", Z.shiftl 1 0);
   ("tssAvailabe16", 0x1); ("ldt", 0x2); ("tssBusy16", 0x3); ("call16", 0x4); ("task", 0x5); ("interrupt16", 0x6); ("trap16", 0x7);
   ("tssAvailabe32", 0x9); ("tssBusy32", 0xb); ("call32", 0xc); ("interrupt32", 0xe); ("trap32", 0xf);
   ("ldt32", 0x2); ("tssAvailabe64", 0x9); ("tssBusy64", 0xb); ("call64", 0xc); ("interrupt64", 0xe); ("trap64", 0xf)]%string.
Definition flags_table : list (string * Z) :=
  [("granularity", Z.shiftl 1 7); ("available", Z.shiftl 1 4); ("default_operand_size", Z.shiftl 1 6);
   ("long_mode", Z.shiftl 1 5); ("reserved", Z.shiftl 1 5)]%string.

Definition label_value (table : list (string * Z)) (name : string) : Z :=
  match list_find (fun e => e.1 = name) table with Some (_, e) => e.2 | None => 0 end.
Abbreviation attrib := (label_value attrib_table).
Abbreviation flags := (label_value flags_table).

(** [dw], [dq] and [struc GDTEntry]. *)
Definition dw (v : Z) : list Z := map (fun i => Z.land (Z.shiftr v (8 * i)) 0xff) (seqZ 0 2).
Definition dq (v : Z) : list Z := map (fun i => Z.land (Z.shiftr v (8 * i)) 0xff) (seqZ 0 8).
Definition GDTEntry (limitl basel basem attribute flags__limith baseh : Z) : list Z :=
  dw limitl ++ dw basel ++ [basem; attribute; flags__limith; baseh].

Definition gdt_null : list Z := dq 0.
Definition gdt_code_entry : list Z :=
  GDTEntry 0 0 0 (Z.lor (Z.lor (attrib "present") (attrib "user")) (attrib "code")) (flags "long_mode") 0.
Definition gdt_data_entry : list Z :=
  GDTEntry 0 0 0 (Z.lor (Z.lor (attrib "present") (attrib "user")) (attrib "writable")) 0 0.
Definition trampoline_gdt : list Z := gdt_null ++ gdt_code_entry ++ gdt_data_entry.

(** [gdt.end], and the labels of the entries. *)
Definition gdt_end : Z := Z.of_nat (length trampoline_gdt).
Definition gdt_label (before : list (list Z)) : Z := Z.of_nat (length (concat before)).

(** [gdtr] with the table behind it, assembled at [a]. *)
Definition gdtr_image (a : Z) : list Z := dw (gdt_end + 1) ++ dq (a + 10) ++ trampoline_gdt.

(** Memory that holds the bytes [bs] at [a]. *)
Definition holds_bytes (mem : Z -> Z) (a : Z) (bs : list Z) : Prop :=
  forall i b, bs !! i = Some b -> mem (a + Z.of_nat i) = b.

Definition kernel_code_of : Segment := mkSegment 0 0 true 0 true true false true false.
Definition kernel_data_of : Segment := mkSegment 0 0 true 0 true false true false false.

(** ** What a started processor finds *)

Fixpoint le_value (bs : list Z) : Z := match bs with [] => 0 | b :: bs => b + 256 * le_value bs end.

Lemma holds_load mem a bs : holds_bytes mem a bs -> load_bytes (length bs) mem a = le_value bs.
Proof.
  revert a. induction bs as [|b bs IH]; intros a H; [done|]. cbn [length load_bytes le_value]. rewrite IH.
  - specialize (H 0%nat b eq_refl). rewrite Z.add_0_r in H. by rewrite H.
  - intros i c Hc. specialize (H (S i) c Hc). rewrite <- H. f_equal. lia.
Qed.

Lemma holds_app mem a l1 l2 : holds_bytes mem a (l1 ++ l2) -> holds_bytes mem a l1 /\ holds_bytes mem (a + Z.of_nat (length l1)) l2.
Proof.
  intros H. split; intros i b Hb.
  - apply H. by apply lookup_app_l_Some.
  - rewrite <- (H (length l1 + i)%nat b); [f_equal; lia|]. by rewrite lookup_app_r, Nat.add_comm, Nat.add_sub by lia.
Qed.

Lemma le_low24 v : 0 <= v < 2 ^ 24 -> le_value (take 3 (dq v)) = v.
Proof.
  intros Hv. change (le_value (take 3 (dq v))) with (Z.land (Z.shiftr v 0) 0xff + 256 * (Z.land (Z.shiftr v 8) 0xff + 256 * (Z.land (Z.shiftr v 16) 0xff + 256 * 0))).
  change 0xff with (Z.ones 8). rewrite !Z.land_ones, !Z.shiftr_div_pow2 by lia. Z.to_euclidean_division_equations. lia.
Qed.

(** The trampoline's table: where the trampoline lies below 16 MiB, [lgdt] finds
    the table and a limit that covers it; the selector of the far jump names a
    present 64-bit code segment of the kernel, and the selector of the data
    segments a present writable one. *)
Theorem trampoline_segments mem gdtr m : holds_bytes mem gdtr (gdtr_image gdtr) -> 0 <= gdtr -> gdtr + 10 < 2 ^ 24 ->
  let m' := lgdt gdtr (set_memory mem m) in
  m_gdtr m' = gdtr + 10 /\ gdt_kernel_data + 7 <= load_bytes 2 mem gdtr /\
  gdt_kernel_code = gdt_label [gdt_null] /\ gdt_kernel_data = gdt_label [gdt_null; gdt_code_entry] /\
  decode_segment (load64 mem (m_gdtr m' + gdt_kernel_code)) = kernel_code_of /\
  decode_segment (load64 mem (m_gdtr m' + gdt_kernel_data)) = kernel_data_of.
Proof.
  intros H H0 H1 m'. unfold gdtr_image in H. apply holds_app in H as [Hl H]. apply holds_app in H as [Hb Ht].
  assert (Hg : m_gdtr m' = gdtr + 10).
  { change (m_gdtr m') with (load_bytes 3 mem (gdtr + 2)). rewrite <- (take_drop 3 (dq (gdtr + 10))) in Hb. apply holds_app in Hb as [Hb _].
    apply holds_load in Hb. change (length (take 3 (dq (gdtr + 10)))) with 3%nat in Hb. rewrite le_low24 in Hb by lia. exact Hb. }
  split; [exact Hg|]. rewrite Hg. change (Z.of_nat (length (dw (gdt_end + 1)))) with 2 in *. change (Z.of_nat (length (dq (gdtr + 10)))) with 8 in Ht.
  apply holds_load in Hl. change (length (dw (gdt_end + 1))) with 2%nat in Hl. rewrite Hl. split; [by apply Z.leb_le|]. split; [done|]. split; [done|].
  unfold trampoline_gdt in Ht. apply holds_app in Ht as [_ Ht]. apply holds_app in Ht as [Hc Hd]. apply holds_load in Hc, Hd.
  change (Z.of_nat (length gdt_null)) with 8 in *. change (Z.of_nat (length gdt_code_entry)) with 8 in Hd.
  change (length gdt_code_entry) with 8%nat in Hc. change (length gdt_data_entry) with 8%nat in Hd.
  unfold load64, gdt_kernel_code, gdt_kernel_data.
  replace (gdtr + 10 + 8) with (gdtr + 2 + 8 + 8) by lia. replace (gdtr + 10 + 16) with (gdtr + 2 + 8 + 8 + 8) by lia.
  rewrite Hc, Hd. split; by vm_compute.
Qed.

(** The assembled trampoline has it at [off], and the arguments the boot
    processor writes lie before it. *)
Lemma copy_holds data off bs mem i pt st en start_ap : (56 <= off)%nat ->
  (forall j b, bs !! j = Some b -> data !! (off + j)%nat = Some b) ->
  holds_bytes (write_args start_ap (copy_trampoline data mem) i pt st en) (TRAMPOLINE + Z.of_nat off) bs.
Proof.
  intros Ho H j b Hb. apply H in Hb. pose proof (lookup_lt_Some _ _ _ Hb) as Hlt.
  unfold write_args, store64, t_code, t_ready, t_cpu_id, t_page_table, t_stack_start, t_stack_end.
  rewrite !store_bytes_outside by (unfold TRAMPOLINE; simpl; lia). unfold copy_trampoline.
  rewrite (proj2 (Z.leb_le _ _)), (proj2 (Z.ltb_lt _ _)) by lia. cbn [andb].
  replace (Z.to_nat _) with (off + j)%nat by lia. by rewrite Hb.
Qed.

(** ** The bootloader's table *)

Section BootGdt.
Context {A G : Type} {GO : Gdt G}.
Context (allocate_frame : frame_source A).
(** The offset of the entries in [GlobalDescriptorTable]. *)
Context (table_off : Z).

(** [init_gdt] with the table it writes to the frame, and the registers. *)
Definition init_gdt_table (c : CpuTables) (a : A) : outcome (Z * G * CpuTables * A) :=
  '(gdt_phys_frame, a) ← gdt_frame allocate_frame a;
  let gdt := gdt_new in
  '(code_selector, gdt) ← gdt_add_entry gdt kernel_code_segment;
  '(data_selector, gdt) ← gdt_add_entry gdt kernel_data_segment;
  let m := ct_machine c in
  let m := mkMachine (m_reg m) (m_rip m) (m_rflags m) code_selector data_selector (m_msr m) (gdt_phys_frame + table_off) (m_mem m) in
  Done (gdt_phys_frame, gdt, mkCpuTables m data_selector data_selector (ct_gs c) (ct_tr c) (ct_cr0 c), a).

(** The table has the null entry and the two segments of the kernel, the
    registers name them, and the table register points into the frame. *)
Theorem init_gdt_table_ok {GS : GdtSpec G GO} c a frame a' : gdt_frame allocate_frame a = Done (frame, a') ->
  exists g c', init_gdt_table c a = Done (frame, g, c', a') /\
    gdt_entries g = [0] ++ descriptor_entries kernel_code_segment ++ descriptor_entries kernel_data_segment /\
    m_cs (ct_machine c') = 8 /\ m_ss (ct_machine c') = 16 /\ ct_ds c' = 16 /\ ct_es c' = 16 /\
    m_gdtr (ct_machine c') = frame + table_off /\ m_mem (ct_machine c') = m_mem (ct_machine c).
Proof.
  intros E. destruct kernel_segments as (L1 & R1 & L2 & R2 & _). unfold init_gdt_table. rewrite E, Done_bind. cbv beta iota zeta.
  destruct (gdt_add_entry_spec gdt_new kernel_code_segment) as (g1 & E1 & G1); [rewrite gdt_new_entries, L1; simpl; lia|].
  rewrite gdt_new_entries in G1. rewrite E1, Done_bind, gdt_new_entries, R1. cbv beta iota.
  destruct (gdt_add_entry_spec g1 kernel_data_segment) as (g2 & E2 & G2); [rewrite G1, length_app, L1, L2; simpl; lia|].
  rewrite E2, Done_bind, R2, G1, length_app, L1. cbv beta iota. eexists g2, _. split; [reflexivity|].
  split; [by rewrite G2, G1, <- app_assoc|]. done.
Qed.
End BootGdt.
